(* ===== verification/_CoqProject ===== *)
-Q . S2P
Prelude.v
PyFloat.v
PyStr.v
PyVal.v
IpAddr.v
PyNum.v
Json.v
JsonOut.v
Base64.v
Modbus.v
Protocols.v
Sparkplug.v
Gateway.v
Mqtt.v
SparkplugNode.v
Bridge.v
Runner.v
GatewayRunner.v
Trace.v
Config.v
AppConfig.v
Auth.v
Supervisor.v
Console.v
Importer.v
Classic.v
ClassicV3.v
Yaml.v
ClassicYaml.v
Store.v
ConfigStore.v
Forms.v
Ports.v
SerialIo.v
Ops.v
Logs.v
Pages.v
Notify.v
Cluster.v
Accounts.v
Startup.v
Service.v
SettingsPages.v
PeerHttp.v
Discovery.v
LogFiles.v
Directory.v
WebApp.v
ApiDoc.v
NotifySend.v
Tools.v
