(* ===== verification/Prelude.v ===== *)
(** * ser2net: a verification library of the serial-to-network server

    ser2net shares serial ports over the network. Each mapping of the configuration is run by a
    runner: a bridge (raw TCP, telnet, RFC2217, UDP, TCP client or a second serial port), or a Modbus/TCP
    to RTU gateway, which may also poll points, publish them over MQTT and appear as a Sparkplug B
    edge node. A supervisor owns the runners; the web UI, the REST API, imports and peers of the LAN
    cluster change the configuration, which is kept in config.json with its backups. This library
    models that program as executable Rocq functions over explicit states, and proves what
    makes it correct. Every definition keeps the name it has in the source where Rocq allows it.

    ** Files

    Foundations, used by every component:
    - [Prelude] (this file): bytes and strings as lists of integers, Python exceptions as the result
      type [res], the state-and-error monad [st], list lemmas, tactics and hint databases;
    - [PyFloat], [PyStr], [PyVal], [PyNum], [IpAddr], [Json], [JsonOut], [Base64]: the parts of Python and
      its standard library the program uses (IEEE doubles and struct formats, str and bytes methods with
      UTF-8 and its error handlers, dynamically typed values, number parsing and printing, ipaddress, json,
      base64), with their round trips.

    The engine (app/engine/):
    - [Modbus] (modbus.py): RTU and TCP envelopes, CRC, request builders, response checks, register values;
    - [Protocols] (protocols/): the class [ProtocolSession] is the interface of base.py; [Raw], [Telnet] and
      [Rfc2217] implement it;
    - [Sparkplug] (sparkplug.py): protobuf wire format, payload encoder and decoder, topics;
    - [Gateway] (modbus_gateway.py): transactions on the bus, masters and their frames, polling, writes;
    - [Mqtt] (mqtt_pub.py) and [SparkplugNode] (sparkplug_node.py): what is published, and when;
    - [Bridge] and [Trace] (bridge.py): clients and their queues, broadcast, admission, UDP, close-on; the
      traffic tracer with its writer thread and file rotation;
    - [Runner] (bridge.py) and [GatewayRunner] (modbus_gateway.py): the lives of the two runners, from start to
      stop: the serial supervisor with its back-off, connecting out, the serial-to-serial bridge, the tasks
      and what each leaves open, as tasks whose steps interleave;
    - [SerialIo] (serial_io.py, sockopts.py, netinfo.py): finding and opening a port, modem lines, RS-485,
      keep-alive options, the addresses shown to users, the patched write of the serial transport;
    - [Supervisor] (supervisor.py): every call as a task whose steps interleave at the awaits;
    - [Ports] (portlist.py): the list of serial ports and its watcher, whose polls, refreshes and hotplug events
      interleave;
    - [Cluster] (cluster.py, routes/cluster.py): beacons, the peer table, and the handlers that serve
      peers and reach them; [PeerHttp] the HTTP calls between nodes as text, with the request the other node
      reads back, and the dashboard; [Discovery] the life of the beacon task and its socket.

    Configuration and web (app/, app/web/):
    - [Config] and [AppConfig] (config.py): every settings class with from_dict, to_dict and validate;
      [Store] and [ConfigStore]: the whole configuration as a document, the file and its backups;
    - [Auth] (auth.py, routes/common.py): sessions, passwords, tokens, anonymous access, login limiter;
    - [Importer] (importer.py): parse, preview and apply a file of mappings;
    - [Classic], [ClassicV3], [Yaml], [ClassicYaml] (ser2net_import.py): the configuration files of the
      classic ser2net daemon, as a mapping file. [Classic] has what both formats share (one
      connection, its accepter, options, defaults and the assembly of mappings), [ClassicV3] the
      lines of a 3.x file, [Yaml] the subset of YAML a 4.x file is read with, and [ClassicYaml] the
      connections of a 4.x file and the entry points, which [Importer] calls;
    - [Forms] (routes/forms.py) and [Ops] (routes/ops.py, api.py): forms to mappings, and every operation
      that changes mappings, over memory, disk and engine;
    - [Accounts] (server.py, routes/settings.py, routes/login.py, ldap_auth.py, oidc_auth.py): the gate
      each request passes and the handlers of the settings and sign-in pages;
    - [Console] (routes/console.py): the console and the hex view of a mapping in the browser;
    - [Pages] (api.py, routes/mappings.py, routes/system.py, i18n.py): the handlers of the pages and of the REST
      API around the operations of [Ops], with their guards, audit records, metrics and languages;
    - [Startup] (ser2net.py, bootstrap.py, runtime.py, console.py, standalone.py, healthcheck.py, selfsigned.py): the
      address of the UI, the health check, shutdown requests against the serving loop, what is prepared before;
    - [Service] (winservice.py): the Windows service: its command line, installing and removing it as calls of
      the Windows API, and its reports to the Service Control Manager;
    - [Logs] (state.py): audit trail, per-mapping logs and their retention, trace files; [LogFiles] the handlers
      and files of the per-mapping logs while maintenance rewrites them;
    - [Notify] (notify.py): events, the queue, the rate limit and the webhook texts; [NotifySend] the texts and
      the calls that send them, with the mail dialogue;
    - [SettingsPages] (routes/settings.py): imports with their preview, exports, the audit viewer, backups;
    - [Directory] (ldap_auth.py, oidc_auth.py, routes/login.py): the calls made to a directory and to an identity
      provider, and what is made of their answers;
    - [WebApp] (server.py: build_app, the route tables of routes/ and api.py): one request from the gate over the
      routes and the handler to what is left in memory, on disk and in the engine; [ApiDoc] the OpenAPI document.

    The repository (tools/):
    - [Tools] (refresh_wheels.py, third_party.py): the offline set of wheels, and the inventory of an executable with its
      licence file and bill of materials.

    ** How the model corresponds to the code

    A function that can raise returns [res]; a method of an object takes the object's record and
    returns the new one (with its outputs: bytes sent, calls made, log lines). What the program gets from outside
    is an argument: reads of a socket or a serial line are a list of outcomes, disk operations
    have a flag that says whether they succeed, clocks are integers, random bytes and new ids are
    functions. Third-party code and cryptographic primitives (pyserial's PortManager, paho,
    HMAC-SHA256, SHA-256, scrypt) are section parameters, with documented behaviour as named
    hypotheses where a theorem needs it. Coroutines are cut at their awaits where interleaving matters
    ([Supervisor], [Bridge], [Gateway], [Runner], [GatewayRunner], [Console]); the other handlers run to the end, as they do under the configuration
    lock, and what happens when they do not is shown by examples ([Accounts.last_admins_race]). Servers the program talks to (directories, identity
    providers, mail servers, other nodes, pip) answer each call from all the calls before it, by an arbitrary function.
    Where an uncaught exception of a deep function ends a whole read and no value of it is used, as in the files of the classic daemon, it is
    remembered ([Classic.broken]) and raised at the end ([ClassicV3.unless_broken]).
    In [Runner] and [GatewayRunner] a task is the await it is at, a step wakes one task with what its await
    returned (a port, data, an error, a timer, a cancellation), and time only moves on; an open that fails is
    assumed to leave nothing open ([SerialIo.rs485_text_leaks] shows the one case where it does).

    Loops bounded by fuel ([replace_fuel], [serve_frames], the decoders of [Sparkplug], the JSON
    parser) are given the length of their input plus one, since each step consumes a character; the
    result [OutOfFuel] is proved unreachable for the entry points ([Sparkplug.decode_payload_total],
    [Gateway.serve_answers], [JsonOut.json_roundtrip], [ClassicYaml.classic_import_errors], the last by
    [Yaml.reader_ok], whose measure is the text left to read). [Supervisor.run_task] needs at most six steps
    ([Supervisor.calls_terminate]), [Service._wait_state] at most 102 polls ([Service.wait_adds]), [Tools.collect] one turn for each
    pinned name and each requirement of what is installed ([Tools.collect_ends]).

    ** What is shown

    - Refinement: operations on mappings keep memory, file and engine in step
      ([Ops.operations_lawful]); the store refines a bounded history of versions
      ([ConfigStore.backups_refine_history]); the audit files refine a bounded list of records
      ([Logs.audit_trail]).
    - Data transport: the bridge delivers each client a contiguous run of the serial stream
      ([Bridge.client_stream_contiguous]); segmentation never matters ([Bridge.network_chunking],
      [Gateway.serve_chunking]); telnet escaping is transparent; the gateway answers every request with the data of the frame the
      bus sent back for it, from the unit asked ([Gateway.serve_answers]; what the bus sent is given, and [Gateway.heard] says which frame
      in it is the answer), or a gateway exception, and stale bytes never become one.
    - Liveness: a device that is present is in use again within a bounded time ([Runner.serial_reopens]), and a stop
      always completes ([Runner.stop_completes]), a request to stop the program is never lost
      ([Startup.shutdown_not_lost]); all are stated over every order of the steps ([inevitably]).
    - Resources: the bridge of a network mapping holds one port at most, and nothing is left open by a stopped
      one ([Runner.stop_releases], [GatewayRunner.gateway_stop_releases]).
    - Round trips: RTU frames, register values, Sparkplug payloads, saved configurations, session tokens,
      cluster beacons, the command line of the Windows service ([Service.command_line_kept]).
    - Security: over HTTP nothing changes but by right ([WebApp.change_needs_right]) and strangers see only what is public
      ([WebApp.strangers_see_nothing]); the gate alone ([Accounts.gate_protects]), sessions and rebinding ([Auth]), accounts never
      locked out ([Accounts.accounts_stay_usable]), read-only mappings, safe writes, allow lists,
      the cluster's key ([Cluster.peers_authentic], [Cluster.cluster_doors]); who a directory or an identity provider
      lets in ([Directory.directory_login_bound], [Directory.sso_bound]); a password or a message goes to a mail server only over the
      encryption asked for ([NotifySend.deliver_safe]).
    - Between nodes: the other node reads the call that was meant ([PeerHttp.remote_call_exact]), one beacon task and one socket at
      most ([Discovery.discovery_exclusive]), and a node that runs stays in sight ([Discovery.stays_in_sight]).
    - Browser access: who may watch and write to a device ([Console.console_guarded]) and what a viewer
      sees ([Console.viewer_sees]); pages and API calls change nothing unrecorded ([Pages.pages_audited],
      [Pages.api_audited]).
    - Files and texts: log maintenance loses nothing that is in a file when it is rewritten ([LogFiles.maintenance_loses_nothing]); an import does what its preview said
      ([SettingsPages.import_as_previewed]); the API's document describes what is served ([ApiDoc.openapi_true]); the wheels of a release and
      the texts of an executable are complete ([Tools.refresh_exact], [Tools.executable_accounted]); the port list settles
      ([Ports.watcher_settles]), and what the port did not take at once is written in order ([SerialIo.write_ready_exact]).
    - Imports: the plan of a classic configuration applies as a whole, without names or listeners that
      clash ([ClassicYaml.classic_import_applies]), and never opens an address, a role or a
      write the file did not ([ClassicV3.v3_never_wider], [ClassicYaml.yaml_never_wider]); besides the errors the import page
      shows, a number or a service name that cannot be read and a YAML escape that is no code point raise
      ([ClassicYaml.classic_import_errors], [ClassicYaml.import_number_unread], [Yaml.escape_overflow]); a merge does what it
      reports ([Importer.merge_keeps]).
    - Invariants and bounds: Sparkplug sequence numbers, live runners are never lost, log retention
      ([Logs.trim_keeps_recent]), notification rates ([Notify.notifications_bounded]), termination of the
      supervisor's calls, totality of the decoder.
    - Where the code does not do what it means to, an Example computes a counterexample on the model, e.g.
      [Supervisor.concurrent_apply_loses_runner], [Ops.refused_start_blocks_saving],
      [Logs.form_id_escapes_trace_dir], [Logs.separator_hides_user], [Runner.bridge_leaks_port],
      [Runner.late_client], [PeerHttp.scheme_escapes], [Discovery.overlapping_restarts], [LogFiles.made_again_in_a_pass],
      [Directory.state_not_ascii], [NotifySend.refused_after_send], [Ports.overtaken_refresh]; the theorem [GatewayRunner.gateway_never_reopens] shows that a gateway never opens a lost
      device again.

    ** Not modelled

    Rendering of pages, security headers and static files, TLS contexts and the contents of certificates, argparse and uvicorn,
    the output of --about, the Windows hotplug window, the start and stop of the engine's parts in app/state.py, the screenshots tool
    (it drives a browser) and the calls of pyserial, psutil, sockets, paho, ldap3 and authlib themselves: they are I/O or third-party
    code around the logic above. Python limits: NaN payloads, recursion depth and
    memory are not tracked; digits of numbers in text are the ASCII ones, but for
    classic files, which are read with the decimal digits of Unicode 14.0 and the limit of 4300 digits ([Classic.int_of_digits]); [str.lower] is exact for
    ASCII results (a parameter where the order of peers depends on it). *)
From Stdlib Require Export ZArith Lia Bool.
From stdpp Require Export base gmap list strings fin_maps sets.

#[export] Set Warnings "-register-all".
#[local] Open Scope Z_scope.

(** ** Bytes, strings and literals

    A Python [bytes]/[bytearray] is the list of its byte values, a Python [str] the list of its
    code points; both are lists of [Z], so slicing, searching and concatenation are list
    operations, and [is_bytes] states the 0..255 range. *)
Abbreviation bytes := (list Z).
Abbreviation pystr := (list Z).

Definition is_byte (b : Z) : Prop := 0 <= b < 256.
Definition is_bytes (l : bytes) : Prop := Forall is_byte l.

(** The code points of a source literal (all literals modelled here are ASCII or Latin-1). *)
Definition str (s : string) : pystr :=
  (λ a, Z.of_nat (Ascii.nat_of_ascii a)) <$> String.list_ascii_of_string s.
Arguments str _%_string.

Definition zlen {A} (l : list A) : Z := Z.of_nat (length l).

(** Python's [l[a:b]] for [0 <= a] and [0 <= b]. *)
Definition slice {A} (a b : Z) (l : list A) : list A :=
  take (Z.to_nat (b - a)) (drop (Z.to_nat a) l).

(** [l[a:]] for [0 <= a]. *)
Definition slice_from {A} (a : Z) (l : list A) : list A := drop (Z.to_nat a) l.

(** [l[-n:]] for [0 < n]: the last [n] elements, or the whole list when it is shorter. *)
Definition last_n {A} (n : Z) (l : list A) : list A := drop (length l - Z.to_nat n) l.

(** [needle in haystack] on strings and bytes. *)
Fixpoint is_prefix (p l : list Z) : bool :=
  match p, l with
  | [], _ => true
  | x :: p', y :: l' => (x =? y) && is_prefix p' l'
  | _ :: _, [] => false
  end.

Fixpoint contains (needle l : list Z) : bool :=
  is_prefix needle l ||
  match l with
  | [] => false
  | _ :: l' => contains needle l'
  end.

(** ** Errors

    A Python exception is its class and the (uninterpolated) template of its message. *)
Inductive exn_class :=
  | ValueError | TypeError | AttributeError | KeyError | IndexError | OverflowError
  | ConfigError | OSError | ConnectionError | TimeoutError
  | OutOfFuel  (* of the model only: a bounded loop was given too little fuel *).

Record exn := Exn { exn_cls : exn_class; exn_msg : string }.

Inductive res (A : Type) : Type :=
  | Ok (a : A)
  | Raise (e : exn).
Arguments Ok {A} _.
Arguments Raise {A} _.

#[export] Instance res_ret : MRet res := @Ok.
#[export] Instance res_bind : MBind res := λ A B f m,
  match m with Ok a => f a | Raise e => Raise e end.
#[export] Instance res_fmap : FMap res := λ A B f m,
  match m with Ok a => Ok (f a) | Raise e => Raise e end.

Definition raise {A} (c : exn_class) (msg : string) : res A := Raise (Exn c msg).
Arguments raise {A} _ _%_string.

(** [if c: raise ...] followed by the rest of the function. *)
Definition raise_if (c : bool) (k : exn_class) (msg : string) : res unit :=
  if c then raise k msg else Ok tt.
Arguments raise_if _ _ _%_string.

Definition is_ok {A} (m : res A) : bool := match m with Ok _ => true | Raise _ => false end.

#[export] Instance exn_class_eq_dec : EqDecision exn_class.
Proof. solve_decision. Defined.
#[export] Instance exn_eq_dec : EqDecision exn.
Proof. solve_decision. Defined.
#[export] Instance res_eq_dec {A} `{EqDecision A} : EqDecision (res A).
Proof. solve_decision. Defined.

(** [bytes([...])]: ValueError unless every element is a byte. *)
Definition byteb (b : Z) : bool := (0 <=? b) && (b <? 256).
Definition mk_bytes (l : list Z) : res bytes :=
  if forallb byteb l then Ok l else raise ValueError "bytes must be in range(0, 256)".

(** Evaluate a fallible function on each element, left to right, stopping at the first error
    (a list comprehension whose element expression may raise). *)
Fixpoint mapr {A B} (f : A → res B) (l : list A) : res (list B) :=
  match l with
  | [] => Ok []
  | a :: l' => b ← f a; bs ← mapr f l'; Ok (b :: bs)
  end.

(** ** Stateful code

    A computation that reads and updates a state and may raise: the state survives an error, as
    it does in Python. *)
Definition st (S A : Type) : Type := S → res A * S.
#[export] Instance st_ret {S} : MRet (st S) := λ A a s, (Ok a, s).
#[export] Instance st_bind {S} : MBind (st S) := λ A B f m s,
  match m s with (Ok a, s') => f a s' | (Raise e, s') => (Raise e, s') end.
Definition st_lift {S A} (r : res A) : st S A := λ s, (r, s).
Definition st_get {S} : st S S := λ s, (Ok s, s).
Definition st_modify {S} (f : S → S) : st S unit := λ s, (Ok tt, f s).
(** [try: m except Exception as e: h(e)] for the errors [p] selects. *)
Definition st_catch {S A} (p : exn → bool) (m : st S A) (h : exn → st S A) : st S A := λ s,
  match m s with
  | (Raise e, s') => if p e then h e s' else (Raise e, s')
  | r => r
  end.
Definition any_exn (e : exn) : bool := true.

(** ** Liveness
    Every sequence of steps from [x] comes to a state with [P], and is not stuck before. *)
Inductive inevitably {A} (next : A → A → Prop) (P : A → Prop) (x : A) : Prop :=
  | ev_now : P x → inevitably next P x
  | ev_next : (∃ y, next x y) → (∀ y, next x y → inevitably next P y) → inevitably next P x.

(** ** Lemmas *)
Lemma zlen_nil {A} : zlen (@nil A) = 0.
Proof. done. Qed.
Lemma zlen_cons {A} (a : A) l : zlen (a :: l) = 1 + zlen l.
Proof. unfold zlen. simpl. lia. Qed.
Lemma zlen_app {A} (l k : list A) : zlen (l ++ k) = zlen l + zlen k.
Proof. unfold zlen. rewrite length_app. lia. Qed.
Lemma zlen_nonneg {A} (l : list A) : 0 <= zlen l.
Proof. unfold zlen. lia. Qed.
Lemma zlen_fmap {A B} (f : A → B) (l : list A) : zlen (f <$> l) = zlen l.
Proof. unfold zlen. by rewrite length_fmap. Qed.
Lemma zlen_zero {A} (l : list A) : zlen l = 0 → l = [].
Proof. destruct l; [done|]. rewrite zlen_cons. pose proof (zlen_nonneg l). lia. Qed.
Lemma sum_insert {A} (f : A → nat) (l : list A) i x y :
  l !! i = Some x → (sum_list_with f (<[i := y]> l) + f x = sum_list_with f l + f y)%nat.
Proof.
  intros Hi. rewrite insert_take_drop by by eapply lookup_lt_Some. rewrite <- (take_drop_middle l i x Hi) at 3.
  rewrite !sum_list_with_app. cbn. lia.
Qed.
Lemma zlen_take {A} n (l : list A) : 0 <= n <= zlen l → zlen (take (Z.to_nat n) l) = n.
Proof. unfold zlen. intros ?. rewrite length_take. lia. Qed.

Lemma slice_app_exact {A} (l k m : list A) a b :
  a = zlen l → b = zlen l + zlen k → slice a b (l ++ k ++ m) = k.
Proof.
  unfold slice, zlen. intros -> ->. rewrite Nat2Z.id, drop_app_length.
  replace (Z.to_nat _) with (length k) by lia. by rewrite take_app_length.
Qed.

Lemma slice_from_app {A} (l k : list A) a : a = zlen l → slice_from a (l ++ k) = k.
Proof. unfold slice_from, zlen. intros ->. by rewrite Nat2Z.id, drop_app_length. Qed.

Lemma slice_from_length {A} a (l : list A) :
  0 <= a <= zlen l → zlen (slice_from a l) = zlen l - a.
Proof. unfold slice_from, zlen. intros ?. rewrite length_drop. lia. Qed.

Lemma slice_length {A} a b (l : list A) :
  0 <= a <= b → b <= zlen l → zlen (slice a b l) = b - a.
Proof. unfold slice, zlen. intros ??. rewrite length_take, length_drop. lia. Qed.

Lemma last_n_length {A} n (l : list A) : 0 <= n → zlen (last_n n l) = Z.min n (zlen l).
Proof. unfold last_n, zlen. intros ?. rewrite length_drop. lia. Qed.

Lemma is_bytes_nil : is_bytes [].
Proof. constructor. Qed.
Lemma is_bytes_cons b l : is_byte b → is_bytes l → is_bytes (b :: l).
Proof. by constructor. Qed.
Lemma is_bytes_app l k : is_bytes l → is_bytes k → is_bytes (l ++ k).
Proof. intros. by apply Forall_app. Qed.
Lemma is_bytes_app_inv l k : is_bytes (l ++ k) → is_bytes l ∧ is_bytes k.
Proof. apply Forall_app. Qed.
Lemma is_bytes_slice a b l : is_bytes l → is_bytes (slice a b l).
Proof. intros. by apply Forall_take, Forall_drop. Qed.
Lemma is_bytes_slice_from a l : is_bytes l → is_bytes (slice_from a l).
Proof. intros. by apply Forall_drop. Qed.
Lemma byteb_spec b : byteb b = true ↔ is_byte b.
Proof. unfold byteb, is_byte. rewrite andb_true_iff, Z.leb_le, Z.ltb_lt. lia. Qed.
Lemma forallb_byteb l : forallb byteb l = true ↔ is_bytes l.
Proof.
  unfold is_bytes. induction l as [|b l IH]; simpl; [by split|].
  rewrite Forall_cons, andb_true_iff, byteb_spec. by rewrite IH.
Qed.
Lemma mk_bytes_ok l : is_bytes l → mk_bytes l = Ok l.
Proof. unfold mk_bytes. by intros ->%forallb_byteb. Qed.
Lemma mk_bytes_inv l b : mk_bytes l = Ok b → b = l ∧ is_bytes l.
Proof.
  unfold mk_bytes. destruct (forallb byteb l) eqn:E; intros [=]. subst.
  split; [done|]. by apply forallb_byteb.
Qed.

Lemma land_byte x : is_byte (Z.land x 255).
Proof.
  unfold is_byte. change 255 with (Z.ones 8). rewrite Z.land_ones by lia.
  apply Z.mod_pos_bound. lia.
Qed.
Lemma land_255 x : Z.land x 255 = x mod 256.
Proof. change 255 with (Z.ones 8). by rewrite Z.land_ones by lia. Qed.
Lemma shiftr_8 x : Z.shiftr x 8 = x / 256.
Proof. by rewrite Z.shiftr_div_pow2 by lia. Qed.
Lemma shiftl_8 x : Z.shiftl x 8 = x * 256.
Proof. by rewrite Z.shiftl_mul_pow2 by lia. Qed.

(** Two disjoint bit ranges: [lor] is addition. *)
Lemma lor_add_shift hi lo n :
  0 <= n → 0 <= lo < 2 ^ n → Z.lor (Z.shiftl hi n) lo = hi * 2 ^ n + lo.
Proof.
  intros Hn Hlo. rewrite Z.shiftl_mul_pow2 by done.
  assert (Z.land (hi * 2 ^ n) lo = 0) as Hdisj.
  { apply Z.bits_inj'. intros i Hi. rewrite Z.land_spec, Z.bits_0.
    destruct (Z.lt_ge_cases i n); [by rewrite Z.mul_pow2_bits_low|].
    rewrite <- (Z.mod_small lo (2 ^ n)) by done.
    rewrite Z.mod_pow2_bits_high by lia. apply andb_false_r. }
  rewrite <- Z.lxor_lor by done. by rewrite <- Z.add_nocarry_lxor.
Qed.

Lemma lor_byte_pair hi lo : is_byte lo → Z.lor (Z.shiftl hi 8) lo = hi * 256 + lo.
Proof. intros. by apply (lor_add_shift hi lo 8). Qed.

Lemma mapr_ok {A B} (f : A → res B) (g : A → B) l :
  (∀ a, a ∈ l → f a = Ok (g a)) → mapr f l = Ok (g <$> l).
Proof.
  induction l as [|a l IH]; intros H; [done|]. simpl.
  rewrite H by set_solver. simpl. rewrite IH; [done|]. set_solver.
Qed.
Lemma mapr_inv {A B} (f : A → res B) l bs :
  mapr f l = Ok bs → Forall2 (λ a b, f a = Ok b) l bs.
Proof.
  revert bs. induction l as [|a l IH]; intros bs; simpl.
  - intros [= <-]. constructor.
  - destruct (f a) as [b|] eqn:E; [|done]. simpl.
    destruct (mapr f l) as [bs'|]; [|done]. simpl. intros [= <-].
    constructor; auto.
Qed.

Lemma res_bind_Ok {A B} (f : A → res B) m b :
  (m ≫= f) = Ok b ↔ ∃ a, m = Ok a ∧ f a = Ok b.
Proof.
  destruct m as [a|e]; cbn; split; [by eauto|by intros (? & [= <-] & ?)|done|by intros (? & ? & ?)].
Qed.

Lemma raise_if_Ok c k m u : raise_if c k m = Ok u ↔ c = false.
Proof. destruct c, u; simpl; naive_solver. Qed.

Lemma st_bind_eq {S A B} (m : st S A) (f : A → st S B) s :
  (m ≫= f) s = match m s with (Ok a, s') => f a s' | (Raise e, s') => (Raise e, s') end.
Proof. done. Qed.

Lemma st_bind_inv {S A B} (m : st S A) (f : A → st S B) s b s' :
  (m ≫= f) s = (Ok b, s') → ∃ a s1, m s = (Ok a, s1) ∧ f a s1 = (Ok b, s').
Proof. rewrite st_bind_eq. destruct (m s) as [[a|e] s1]; [by eauto|done]. Qed.
Lemma st_lift_inv {S A} (r : res A) (s s' : S) a : st_lift r s = (Ok a, s') → r = Ok a ∧ s' = s.
Proof. unfold st_lift. by intros [= -> ->]. Qed.
Lemma st_modify_inv {S} (f : S → S) s s' u : st_modify f s = (Ok u, s') → s' = f s.
Proof. by intros [= _ <-]. Qed.
Lemma st_get_inv {S} (s s' a : S) : st_get s = (Ok a, s') → a = s ∧ s' = s.
Proof. by intros [= <- <-]. Qed.
Lemma st_ret_inv {S A} (a b : A) (s s' : S) : (mret a : st S A) s = (Ok b, s') → b = a ∧ s' = s.
Proof. by intros [= <- <-]. Qed.

(** An element of a concatenation lies in one of the two parts. *)
Lemma app_cons_inv {A} (body tl l r : list A) b :
  body ++ tl = l ++ b :: r →
  (∃ r', r = r' ++ tl ∧ body = l ++ b :: r') ∨ (∃ l', l = body ++ l' ∧ tl = l' ++ b :: r).
Proof.
  intros [(k & -> & E)|(k & -> & E)]%app_eq_inv.
  - destruct k as [|x k]; simplify_eq/=.
    + right. exists []. by rewrite !app_nil_r.
    + left. by exists k.
  - right. by exists k.
Qed.

(** ** Automation *)
Create HintDb bytes_db.
#[export] Hint Resolve is_bytes_nil is_bytes_cons is_bytes_app is_bytes_slice is_bytes_slice_from
  land_byte : bytes_db.
#[export] Hint Extern 1 (is_byte _) => unfold is_byte; lia : bytes_db.

Create Rewrite HintDb zlen_db.
#[export] Hint Rewrite @zlen_nil @zlen_cons @zlen_app @zlen_fmap : zlen_db.

(** Length arithmetic: normalise every [zlen] and finish with [lia]. *)
Ltac zlen :=
  autorewrite with zlen_db in *;
  repeat match goal with
  | |- context [zlen ?l] =>
      lazymatch goal with H : 0 <= zlen l |- _ => fail | _ => pose proof (zlen_nonneg l) end
  | _ : context [zlen ?l] |- _ =>
      lazymatch goal with H : 0 <= zlen l |- _ => fail | _ => pose proof (zlen_nonneg l) end
  end; lia.

(** [lia] with [/] and [mod] as quotient/remainder equations. *)
Ltac dlia := Z.div_mod_to_equations; lia.

(** Turn boolean integer tests in the context into propositions. *)
Ltac zbool :=
  repeat match goal with
  | H : (_ && _) = true |- _ => apply andb_true_iff in H as [? ?]
  | H : (_ && _) = false |- _ => apply andb_false_iff in H
  | H : (_ || _) = true |- _ => apply orb_true_iff in H
  | H : (_ || _) = false |- _ => apply orb_false_iff in H as [? ?]
  | H : negb _ = true |- _ => apply negb_true_iff in H
  | H : negb _ = false |- _ => apply negb_false_iff in H
  | H : (_ <? _) = true |- _ => apply Z.ltb_lt in H
  | H : (_ <? _) = false |- _ => apply Z.ltb_ge in H
  | H : (_ <=? _) = true |- _ => apply Z.leb_le in H
  | H : (_ <=? _) = false |- _ => apply Z.leb_gt in H
  | H : (_ =? _) = true |- _ => apply Z.eqb_eq in H
  | H : (_ =? _) = false |- _ => apply Z.eqb_neq in H
  | H : bool_decide _ = true |- _ => apply bool_decide_eq_true in H
  | H : bool_decide _ = false |- _ => apply bool_decide_eq_false in H
  end.

(** Split a successful monadic computation into its steps. *)
Ltac res_inv :=
  repeat match goal with
  | H : (_ ≫= _) = Ok _ |- _ => apply res_bind_Ok in H as (? & ? & ?)
  | H : raise_if _ _ _ = Ok _ |- _ => apply raise_if_Ok in H
  | H : Ok _ = Ok _ |- _ => injection H as H
  | H : mret _ = Ok _ |- _ => injection H as H
  | H : Raise _ = Ok _ |- _ => discriminate H
  | H : raise _ _ = Ok _ |- _ => discriminate H
  | H : (if ?c then _ else _) = Ok _ |- _ => destruct c eqn:?
  end; subst.

(** Split a successful stateful computation into its steps. *)
Ltac st_inv :=
  repeat match goal with
  | H : (_ ≫= _) _ = (Ok _, _) |- _ => apply st_bind_inv in H as (? & ? & ? & ?)
  | H : st_lift _ _ = (Ok _, _) |- _ => apply st_lift_inv in H as [? ?]
  | H : st_modify _ _ = (Ok _, _) |- _ => apply st_modify_inv in H
  | H : st_get _ = (Ok _, _) |- _ => apply st_get_inv in H as [? ?]
  | H : mret _ _ = (Ok _, _) |- _ => apply st_ret_inv in H as [? ?]
  end; subst.
