(* ===== verification/PyFloat.v ===== *)
(** * Python floats and the [struct] float formats

    A Python [float] is an IEEE-754 binary64 value; it is modelled by the Standard Library's
    [spec_float] at precision 53 (NaN payloads and signs are not tracked: every NaN is one value).
    The [struct] formats f and d, little or big endian, go through the binary32 and binary64
    interchange bit patterns defined here. *)
From Stdlib Require Import SpecFloat.
From S2P Require Import Prelude.
#[local] Open Scope Z_scope.

Abbreviation pyfloat := spec_float.

(** An interchange format: [mw] trailing significand bits, [ew] exponent bits. *)
Record fmt := Fmt { mw : Z; ew : Z }.
Definition binary32 : fmt := Fmt 23 8.
Definition binary64 : fmt := Fmt 52 11.
Definition fprec (f : fmt) : Z := mw f + 1.
Definition femax (f : fmt) : Z := 2 ^ (ew f - 1).

Definition valid (f : fmt) (x : spec_float) : bool := valid_binary (fprec f) (femax f) x.

(** The bit pattern of a value of format [f] (sign, biased exponent, trailing significand). *)
Definition sign_bit (f : fmt) (s : bool) : Z := if s then 2 ^ (mw f + ew f) else 0.
Definition to_bits (f : fmt) (x : spec_float) : Z :=
  match x with
  | S754_zero s => sign_bit f s
  | S754_infinity s => sign_bit f s + (2 ^ ew f - 1) * 2 ^ mw f
  | S754_nan => (2 ^ ew f - 1) * 2 ^ mw f + 2 ^ (mw f - 1)
  | S754_finite s m e =>
      if 2 ^ mw f <=? Zpos m
      then sign_bit f s + (e - emin (fprec f) (femax f) + 1) * 2 ^ mw f + (Zpos m - 2 ^ mw f)
      else sign_bit f s + Zpos m
  end.

Definition of_bits (f : fmt) (b : Z) : spec_float :=
  let s := 2 ^ (mw f + ew f) <=? b in
  let e := (b / 2 ^ mw f) mod 2 ^ ew f in
  let m := b mod 2 ^ mw f in
  if e =? 2 ^ ew f - 1 then (if m =? 0 then S754_infinity s else S754_nan)
  else if e =? 0 then
    match m with
    | Zpos p => S754_finite s p (emin (fprec f) (femax f))
    | _ => S754_zero s
    end
  else
    match m + 2 ^ mw f with
    | Zpos p => S754_finite s p (e - 1 + emin (fprec f) (femax f))
    | _ => S754_nan
    end.

(** Rounding conversion between formats (to nearest, ties to even; infinities and NaN pass). *)
Definition convert (f : fmt) (x : spec_float) : spec_float :=
  match x with
  | S754_finite s m e => binary_round (fprec f) (femax f) s m e
  | _ => x
  end.

Definition is_finite (x : spec_float) : bool :=
  match x with S754_zero _ | S754_finite _ _ _ => true | _ => false end.

(** [float(n)] of an int, and [struct.pack] of a float as f: OverflowError when a finite
    value rounds to infinity. *)
Definition float_of_Z (z : Z) : res pyfloat :=
  match binary_normalize 53 1024 z 0 false with
  | S754_infinity _ => raise OverflowError "int too large to convert to float"
  | x => Ok x
  end.

Definition pack_f (x : pyfloat) : res Z :=
  let y := convert binary32 x in
  if is_finite x && negb (is_finite y)
  then raise OverflowError "float too large to pack with f format"
  else Ok (to_bits binary32 y).
Definition pack_d (x : pyfloat) : Z := to_bits binary64 x.
Definition unpack_f (b : Z) : pyfloat := convert binary64 (of_bits binary32 b).
Definition unpack_d (b : Z) : pyfloat := of_bits binary64 b.

Definition fmul (x y : pyfloat) : pyfloat := SFmul 53 1024 x y.
Definition fdiv (x y : pyfloat) : pyfloat := SFdiv 53 1024 x y.

(** [round(x)]: nearest integer, ties to even (OverflowError / ValueError on inf / nan). *)
Definition round_half_even (m k : Z) : Z :=
  let q := m / 2 ^ k in
  let r := m mod 2 ^ k in
  if (2 * r <? 2 ^ k) then q
  else if (2 ^ k <? 2 * r) then q + 1
  else if Z.even q then q else q + 1.

Definition py_round (x : pyfloat) : res Z :=
  match x with
  | S754_zero _ => Ok 0
  | S754_infinity _ => raise OverflowError "cannot convert float infinity to integer"
  | S754_nan => raise ValueError "cannot convert float NaN to integer"
  | S754_finite s m e =>
      Ok (cond_Zopp s (if 0 <=? e then Zpos m * 2 ^ e else round_half_even (Zpos m) (- e)))
  end.

(** [int(x)]: truncation. *)
Definition py_trunc (x : pyfloat) : res Z :=
  match x with
  | S754_zero _ => Ok 0
  | S754_infinity _ => raise OverflowError "cannot convert float infinity to integer"
  | S754_nan => raise ValueError "cannot convert float NaN to integer"
  | S754_finite s m e =>
      Ok (cond_Zopp s (if 0 <=? e then Zpos m * 2 ^ e else Zpos m / 2 ^ (- e)))
  end.

(** Exact comparison of a float with an int (Python compares the mathematical values). *)
Definition fcompare_Z (x : pyfloat) (z : Z) : option comparison :=
  match x with
  | S754_nan => None
  | S754_infinity s => Some (if s then Lt else Gt)
  | S754_zero _ => Some (Z.compare 0 z)
  | S754_finite s m e =>
      let v := cond_Zopp s (Zpos m) in
      Some (if 0 <=? e then Z.compare (v * 2 ^ e) z else Z.compare v (z * 2 ^ (- e)))
  end.

Definition feqb (x y : pyfloat) : bool := SFeqb x y.
Definition ftruthy (x : pyfloat) : bool := match x with S754_zero _ => false | _ => true end.

#[export] Instance spec_float_eq_dec : EqDecision spec_float.
Proof. solve_decision. Defined.

(** The float literals used by the source. *)
Definition f1 : pyfloat := S754_finite false 4503599627370496 (-52).
Definition f1_5 : pyfloat := S754_finite false 6755399441055744 (-52).

(** ** Bit-pattern lemmas *)
Lemma digits2_pos_bounds p : 2 ^ (Zpos (digits2_pos p) - 1) <= Zpos p < 2 ^ Zpos (digits2_pos p).
Proof.
  induction p as [p IH|p IH|]; simpl digits2_pos; [| |done].
  all: rewrite Pos2Z.inj_succ; replace (Z.succ _ - 1) with (Zpos (digits2_pos p)) by lia.
  all: rewrite Z.pow_succ_r by lia.
  all: assert (2 ^ Zpos (digits2_pos p) = 2 * 2 ^ (Zpos (digits2_pos p) - 1)) as E
         by (rewrite <- Z.pow_succ_r by lia; f_equal; lia).
  all: lia.
Qed.

Lemma digits2_pos_unique p d : 2 ^ (d - 1) <= Zpos p < 2 ^ d → 0 < d → Zpos (digits2_pos p) = d.
Proof.
  intros [Hlo Hhi] Hd. pose proof (digits2_pos_bounds p) as [Hlo' Hhi'].
  assert (d - 1 < Zpos (digits2_pos p)).
  { apply (Z.pow_lt_mono_r_iff 2); lia. }
  assert (Zpos (digits2_pos p) - 1 < d) by (apply (Z.pow_lt_mono_r_iff 2); lia).
  lia.
Qed.

(** ** Rounding of exactly representable values *)
Section exact_rounding.
Context (prec emax : Z).

Lemma iter_pos_iter {A} (f : A → A) n x : SpecFloat.iter_pos f n x = Pos.iter f x n.
Proof.
  revert x. induction n as [n IH|n IH|]; intros x; simpl; [|by rewrite !IH|done].
  rewrite !IH. by rewrite !Pos.iter_swap.
Qed.

Lemma iter_xO m k : Zpos (Pos.iter xO m k) = Zpos m * 2 ^ Zpos k.
Proof.
  induction k as [|k IH] using Pos.peano_ind; [simpl; lia|].
  rewrite Pos.iter_succ, Pos2Z.inj_xO, IH, Pos2Z.inj_succ, Z.pow_succ_r by lia. lia.
Qed.
Lemma digits2_pos_shift m k :
  Zpos (digits2_pos (Pos.iter xO m k)) = Zpos (digits2_pos m) + Zpos k.
Proof.
  induction k as [|k IH] using Pos.peano_ind; [simpl; lia|].
  rewrite Pos.iter_succ. simpl digits2_pos. lia.
Qed.

Lemma shr_shifted m k :
  Pos.iter shr_1 (Build_shr_record (Zpos (Pos.iter xO m k)) false false) k
  = Build_shr_record (Zpos m) false false.
Proof.
  induction k as [|k IH] using Pos.peano_ind; [done|].
  rewrite Pos.iter_succ_r, Pos.iter_succ. simpl shr_1. apply IH.
Qed.

Lemma round_aux_exact s m e :
  bounded prec emax m e = true →
  binary_round_aux prec emax s (Zpos m) e loc_Exact = S754_finite s m e.
Proof.
  unfold bounded, canonical_mantissa. intros [Hc%Z.eqb_eq Hle]%andb_true_iff.
  unfold binary_round_aux, shr_fexp. simpl Zdigits2. rewrite Hc, Z.sub_diag. simpl.
  rewrite Hc, Z.sub_diag. simpl. by rewrite Hle.
Qed.

Lemma round_aux_shift s m e k :
  bounded prec emax m e = true →
  binary_round_aux prec emax s (Zpos (Pos.iter xO m k)) (e - Zpos k) loc_Exact
  = S754_finite s m e.
Proof.
  unfold bounded, canonical_mantissa. intros [Hc%Z.eqb_eq Hle]%andb_true_iff.
  unfold binary_round_aux, shr_fexp. simpl Zdigits2. rewrite digits2_pos_shift.
  replace (_ + _ + (e - _)) with (Zpos (digits2_pos m) + e) by lia. rewrite Hc.
  replace (e - (e - Zpos k)) with (Zpos k) by lia. simpl shr.
  rewrite iter_pos_iter, shr_shifted. simpl.
  replace (e - Zpos k + Zpos k) with e by lia. rewrite Hc, Z.sub_diag. simpl. by rewrite Hle.
Qed.

Lemma binary_round_bounded s m e :
  bounded prec emax m e = true → binary_round prec emax s m e = S754_finite s m e.
Proof.
  intros Hb. unfold binary_round, shl_align. pose proof Hb as Hb'.
  unfold bounded, canonical_mantissa in Hb'. apply andb_true_iff in Hb' as [Hc%Z.eqb_eq _].
  rewrite Hc, Z.sub_diag. by apply round_aux_exact.
Qed.
End exact_rounding.

(** A binary32 value converts to binary64 exactly: its significand is shifted to full width. *)
Definition widened (m : positive) (e : Z) : positive * Z :=
  match 53 - Zpos (digits2_pos m) with
  | Zpos k => (Pos.iter xO m k, e - Zpos k)
  | _ => (m, e)
  end.

Lemma bounded32_range m e :
  bounded 24 128 m e = true → Zpos (digits2_pos m) <= 24 ∧ -149 <= e <= 104.
Proof.
  unfold bounded, canonical_mantissa, fexp, emin. intros [H1 H2]%andb_true_iff. zbool. lia.
Qed.

Lemma convert_widen s m e :
  bounded 24 128 m e = true →
  convert binary64 (S754_finite s m e) = S754_finite s (widened m e).1 (widened m e).2.
Proof.
  intros Hb. destruct (bounded32_range m e Hb) as [Hd He].
  pose proof (Pos2Z.is_pos (digits2_pos m)).
  unfold convert, binary_round, shl_align. change (fprec binary64) with 53.
  change (femax binary64) with 1024. unfold widened.
  assert (fexp 53 1024 (Zpos (digits2_pos m) + e) - e = - (53 - Zpos (digits2_pos m))) as ->
    by (unfold fexp, emin; lia).
  destruct (53 - Zpos (digits2_pos m)) as [|k|k] eqn:Ek; [lia| |lia]. simpl fst; simpl snd.
  change (- Z.pos k) with (Z.neg k). cbv iota beta.
  replace (fexp 53 1024 _) with (e - Zpos k) by (unfold fexp, emin; lia).
  apply round_aux_exact. unfold bounded, canonical_mantissa. rewrite digits2_pos_shift.
  unfold fexp, emin. apply andb_true_iff. rewrite Z.eqb_eq, Z.leb_le. lia.
Qed.

Lemma convert_narrow s m e :
  bounded 24 128 m e = true →
  convert binary32 (S754_finite s (widened m e).1 (widened m e).2) = S754_finite s m e.
Proof.
  intros Hb. destruct (bounded32_range m e Hb) as [Hd He].
  unfold convert, binary_round, shl_align. change (fprec binary32) with 24.
  change (femax binary32) with 128. unfold widened.
  destruct (53 - Zpos (digits2_pos m)) as [|k|k] eqn:Ek; [lia| |lia]. simpl fst; simpl snd.
  rewrite digits2_pos_shift.
  replace (_ + _ + (e - _)) with (Zpos (digits2_pos m) + e) by lia.
  pose proof Hb as Hb'. unfold bounded, canonical_mantissa in Hb'.
  apply andb_true_iff in Hb' as [Hc%Z.eqb_eq _]. rewrite Hc.
  replace (e - (e - Zpos k)) with (Zpos k) by lia. by apply round_aux_shift.
Qed.

(** Going through a Python float loses nothing of a binary32 value. *)
Lemma convert_roundtrip x :
  valid binary32 x = true → convert binary32 (convert binary64 x) = x.
Proof.
  destruct x as [s|s| |s m e]; try done. intros Hv. change (bounded 24 128 m e = true) in Hv.
  rewrite (convert_widen s m e Hv). by apply convert_narrow.
Qed.

(** ** Bit patterns round trip *)
Section bits.
Context (f : fmt) (Hmw : 1 <= mw f) (Hew : 2 <= ew f).

Lemma fields_split (s : bool) be mm :
  0 <= be < 2 ^ ew f → 0 <= mm < 2 ^ mw f →
  let b := sign_bit f s + be * 2 ^ mw f + mm in
  (2 ^ (mw f + ew f) <=? b) = s ∧ (b / 2 ^ mw f) mod 2 ^ ew f = be ∧ b mod 2 ^ mw f = mm.
Proof.
  intros Hbe Hmm b. subst b. unfold sign_bit. rewrite Z.pow_add_r by lia.
  assert (0 < 2 ^ mw f) by (apply Z.pow_pos_nonneg; lia).
  set (M := 2 ^ mw f) in *. set (E := 2 ^ ew f) in *.
  replace ((if s then M * E else 0) + be * M + mm) with (mm + (Z.b2z s * E + be) * M)
    by (destruct s; simpl Z.b2z; lia).
  split; [|split].
  - destruct s; simpl Z.b2z; [apply Z.leb_le|apply Z.leb_gt]; nia.
  - rewrite Z.div_add, Z.div_small by lia. rewrite Z.add_0_l, Z.add_comm, Z.mod_add by lia.
    by apply Z.mod_small.
  - rewrite Z.mod_add by lia. by apply Z.mod_small.
Qed.

Lemma finite_fields s m e :
  valid f (S754_finite s m e) = true →
  (2 ^ mw f <= Zpos m < 2 * 2 ^ mw f ∧ 1 <= e - emin (fprec f) (femax f) + 1 < 2 ^ ew f - 1) ∨
  (Zpos m < 2 ^ mw f ∧ e = emin (fprec f) (femax f)).
Proof.
  unfold valid, valid_binary, bounded, canonical_mantissa, fexp.
  intros [Hc Hle]%andb_true_iff. zbool. pose proof (digits2_pos_bounds m) as [Hlo Hhi].
  set (d := Zpos (digits2_pos m)) in *. unfold fprec in *.
  assert (2 * 2 ^ mw f = 2 ^ (mw f + 1)) as E1 by (rewrite Z.pow_add_r by lia; lia).
  assert (2 ^ ew f = 2 * femax f) as E2.
  { unfold femax. rewrite <- Z.pow_succ_r by lia. f_equal. lia. }
  assert (d <= mw f + 1) by lia.
  destruct (decide (d = mw f + 1)) as [Hd|Hd].
  - left. rewrite E1. rewrite Hd in Hlo, Hhi. replace (mw f + 1 - 1) with (mw f) in Hlo by lia.
    unfold emin in *. lia.
  - right. split; [|lia]. apply Z.lt_le_trans with (2 ^ d); [done|].
    apply Z.pow_le_mono_r; lia.
Qed.

Lemma to_bits_range x :
  valid f x = true → 0 <= to_bits f x < 2 ^ (mw f + ew f + 1).
Proof.
  intros Hv. assert (0 < 2 ^ mw f) by (apply Z.pow_pos_nonneg; lia).
  assert (4 <= 2 ^ ew f) by (change 4 with (2 ^ 2); apply Z.pow_le_mono_r; lia).
  assert (2 ^ (mw f - 1) < 2 ^ mw f) by (apply Z.pow_lt_mono_r; lia).
  assert (0 < 2 ^ (mw f - 1)) by (apply Z.pow_pos_nonneg; lia).
  unfold to_bits, sign_bit. rewrite !Z.pow_add_r by lia. change (2 ^ 1) with 2.
  destruct x as [s|s| |s m e].
  1-3: try destruct s; nia.
  destruct (finite_fields s m e Hv) as [[Hf Hq]|[Hf ->]].
  - rewrite (proj2 (Z.leb_le _ _)) by lia.
    set (q := e - emin _ _ + 1) in *. assert (q * 2 ^ mw f <= (2 ^ ew f - 2) * 2 ^ mw f) by nia.
    destruct s; nia.
  - rewrite (proj2 (Z.leb_gt _ _)) by lia. destruct s; nia.
Qed.

Lemma of_to_bits x : x ≠ S754_nan → valid f x = true → of_bits f (to_bits f x) = x.
Proof.
  intros Hn Hv. assert (0 < 2 ^ mw f) by (apply Z.pow_pos_nonneg; lia).
  assert (4 <= 2 ^ ew f) by (change 4 with (2 ^ 2); apply Z.pow_le_mono_r; lia).
  destruct x as [s|s| |s m e]; [| |done|]; unfold to_bits, of_bits.
  - destruct (fields_split s 0 0) as (Hs & He & Hm); [lia..|].
    rewrite Z.mul_0_l, !Z.add_0_r in *. rewrite Hs, He, Hm.
    by replace (0 =? 2 ^ ew f - 1) with false by (symmetry; apply Z.eqb_neq; lia).
  - destruct (fields_split s (2 ^ ew f - 1) 0) as (Hs & He & Hm); [lia..|].
    rewrite Z.add_0_r in *. by rewrite Hs, He, Hm, Z.eqb_refl.
  - destruct (finite_fields s m e Hv) as [[Hm He]|[Hm He]].
    + rewrite (proj2 (Z.leb_le _ _)) by lia.
      set (be := e - emin (fprec f) (femax f) + 1) in *.
      destruct (fields_split s be (Zpos m - 2 ^ mw f)) as (Hs' & He' & Hm'); [lia..|].
      rewrite Hs', He', Hm'.
      replace (be =? 2 ^ ew f - 1) with false by (symmetry; apply Z.eqb_neq; lia).
      replace (be =? 0) with false by (symmetry; apply Z.eqb_neq; lia).
      replace (Zpos m - 2 ^ mw f + 2 ^ mw f) with (Zpos m) by lia. f_equal. lia.
    + rewrite (proj2 (Z.leb_gt _ _)) by lia.
      destruct (fields_split s 0 (Zpos m)) as (Hs' & He' & Hm'); [lia..|].
      rewrite Z.mul_0_l, Z.add_0_r in *. rewrite Hs', He', Hm'.
      replace (0 =? 2 ^ ew f - 1) with false by (symmetry; apply Z.eqb_neq; lia).
      simpl. by subst.
Qed.

Lemma to_of_bits b :
  0 <= b < 2 ^ (mw f + ew f + 1) → of_bits f b ≠ S754_nan → to_bits f (of_bits f b) = b.
Proof.
  intros Hb Hn. assert (0 < 2 ^ mw f) by (apply Z.pow_pos_nonneg; lia).
  assert (4 <= 2 ^ ew f) by (change 4 with (2 ^ 2); apply Z.pow_le_mono_r; lia).
  set (s := 2 ^ (mw f + ew f) <=? b). set (e := (b / 2 ^ mw f) mod 2 ^ ew f).
  set (m := b mod 2 ^ mw f).
  assert (b = sign_bit f s + e * 2 ^ mw f + m) as Hsplit.
  { unfold s, e, m, sign_bit. rewrite !Z.pow_add_r in * by lia.
    rewrite Z.pow_1_r in Hb.
    pose proof (Z.div_mod b (2 ^ mw f) ltac:(lia)) as Hb1.
    assert (b / 2 ^ mw f < 2 * 2 ^ ew f) by (apply Z.div_lt_upper_bound; lia).
    assert (0 <= b / 2 ^ mw f) by (apply Z.div_pos; lia).
    pose proof (Z.mod_pos_bound b (2 ^ mw f)) as Hb2.
    set (q := b / 2 ^ mw f) in *.
    pose proof (Z.div_mod q (2 ^ ew f) ltac:(lia)) as Hq1.
    assert (q / 2 ^ ew f = if 2 ^ mw f * 2 ^ ew f <=? b then 1 else 0) as Hq.
    { destruct (Z.leb_spec (2 ^ mw f * 2 ^ ew f) b).
      - symmetry. apply (Z.div_unique_pos q _ 1 (q - 2 ^ ew f)); [nia|lia].
      - apply Z.div_small. nia. }
    rewrite Hq in Hq1.
    assert (2 ^ mw f * q = 2 ^ mw f * (2 ^ ew f * (if 2 ^ mw f * 2 ^ ew f <=? b then 1 else 0)
                                       + q mod 2 ^ ew f)) as Hmul by congruence.
    revert Hmul. clear Hq Hq1. destruct (2 ^ mw f * 2 ^ ew f <=? b); intros Hmul; lia. }
  assert (0 <= m < 2 ^ mw f) by (apply Z.mod_pos_bound; lia).
  assert (0 <= e < 2 ^ ew f) by (apply Z.mod_pos_bound; lia).
  revert Hn. unfold of_bits. fold s e m.
  destruct (Z.eqb_spec e (2 ^ ew f - 1)) as [->|He1].
  { destruct (Z.eqb_spec m 0) as [->|]; [|done]. intros _. simpl. lia. }
  destruct (Z.eqb_spec e 0) as [->|He0].
  { intros _. destruct m as [|p|p]; [simpl; lia| |lia]. unfold to_bits.
    rewrite (proj2 (Z.leb_gt _ _)) by lia. lia. }
  intros _. destruct (m + 2 ^ mw f) as [|p|p] eqn:Ep; [lia| |lia].
  unfold to_bits. rewrite (proj2 (Z.leb_le _ _)) by lia.
  replace (e - 1 + _ - _ + 1) with e by lia. lia.
Qed.

Lemma of_bits_valid b : 0 <= b → valid f (of_bits f b) = true.
Proof.
  intros Hb. assert (0 < 2 ^ mw f) by (apply Z.pow_pos_nonneg; lia).
  assert (2 ^ ew f = 2 * femax f) as E2.
  { unfold femax. rewrite <- Z.pow_succ_r by lia. f_equal. lia. }
  assert (2 <= femax f) by (unfold femax; change 2 with (2 ^ 1) at 1; apply Z.pow_le_mono_r; lia).
  unfold of_bits. set (e := (b / _) mod _). set (m := b mod _).
  assert (0 <= m < 2 ^ mw f) by (apply Z.mod_pos_bound; lia).
  assert (0 <= e < 2 ^ ew f) by (apply Z.mod_pos_bound; lia).
  destruct (Z.eqb_spec e (2 ^ ew f - 1)); [by destruct (m =? 0)|].
  destruct (Z.eqb_spec e 0).
  - destruct m as [|p|p]; [done| |done]. simpl.
    unfold bounded, canonical_mantissa, fexp, emin, fprec. apply andb_true_iff.
    rewrite Z.eqb_eq, Z.leb_le. pose proof (digits2_pos_bounds p) as [Hlo _].
    assert (Zpos (digits2_pos p) - 1 < mw f) by (apply (Z.pow_lt_mono_r_iff 2); lia). lia.
  - destruct (m + 2 ^ mw f) as [|p|p] eqn:Ep; [lia| |lia]. simpl.
    unfold bounded, canonical_mantissa, fexp, emin, fprec.
    rewrite (digits2_pos_unique p (mw f + 1)) by
      (try lia; replace (mw f + 1 - 1) with (mw f) by lia; rewrite Z.pow_add_r by lia; lia).
    apply andb_true_iff. rewrite Z.eqb_eq, Z.leb_le. lia.
Qed.
End bits.

(** Integers of up to 53 bits convert exactly. *)
Lemma float_of_Z_small z : 0 <= z < 2 ^ 53 → ∃ x, float_of_Z z = Ok x ∧ is_finite x = true ∧ py_trunc x = Ok z.
Proof.
  intros Hz. destruct z as [|p|p]; [by eexists| |lia].
  pose proof (digits2_pos_bounds p) as Hb. set (d := Zpos (digits2_pos p)) in *.
  assert (d <= 53) as Hd.
  { destruct (Z.le_gt_cases d 53); [done|]. pose proof (Z.pow_le_mono_r 2 53 (d - 1)). lia. }
  assert (0 < d) by (unfold d; lia).
  unfold float_of_Z, binary_normalize, binary_round, shl_align. fold d. rewrite Z.add_0_r, Z.sub_0_r.
  assert (fexp 53 1024 d = d - 53) as -> by (unfold fexp, emin; lia).
  destruct (d - 53) as [|k|k] eqn:E; [|lia|].
  - rewrite (round_aux_exact 53 1024); [eexists; split_and!; [done..|cbn; by rewrite Z.mul_1_r]|].
    unfold bounded, canonical_mantissa. fold d. unfold fexp, emin. apply andb_true_iff.
    rewrite Z.eqb_eq, Z.leb_le. lia.
  - rewrite (round_aux_exact 53 1024).
    { eexists. split_and!; [done..|]. unfold py_trunc, shift_pos. cbn [cond_Zopp Z.leb Z.compare].
      rewrite iter_xO. change (- Z.neg k) with (Zpos k). f_equal. by apply Z.div_mul, Z.pow_nonzero. }
    unfold bounded, canonical_mantissa, shift_pos. rewrite digits2_pos_shift. fold d.
    unfold fexp, emin. apply andb_true_iff. rewrite Z.eqb_eq, Z.leb_le. lia.
Qed.
