(* ===== verification/PyStr.v ===== *)
(** * Python strings: the [str] and [bytes] methods the source uses

    Code points are integers; [utf8_encode] / [utf8_decode] are the strict UTF-8 codec (with the
    "replace" and "ignore" error handlers as options), the other functions are the methods of the same name. *)
From stdpp Require Export pretty.
From stdpp Require Import sorting.
From S2P Require Import Prelude.
#[local] Open Scope Z_scope.

(** ** UTF-8 *)
Definition in_range (lo hi b : Z) : bool := (lo <=? b) && (b <=? hi).
Definition is_cont (b : Z) : bool := in_range 128 191 b.
Definition is_surrogate (c : Z) : bool := in_range 55296 57343 c.

Definition utf8_char (c : Z) : bytes :=
  if c <? 128 then [c]
  else if c <? 2048 then [192 + c / 64; 128 + c mod 64]
  else if c <? 65536 then [224 + c / 4096; 128 + c / 64 mod 64; 128 + c mod 64]
  else [240 + c / 262144; 128 + c / 4096 mod 64; 128 + c / 64 mod 64; 128 + c mod 64].

(** [s.encode("utf-8")]: UnicodeEncodeError (a ValueError) on a lone surrogate. *)
Definition utf8_encode (s : pystr) : res bytes :=
  if existsb is_surrogate s then raise ValueError "surrogates not allowed"
  else Ok (s ≫= utf8_char).

(** [s.encode("utf-8", "replace")]. *)
Definition utf8_encode_replace (s : pystr) : bytes :=
  s ≫= λ c, if is_surrogate c then str "?" else utf8_char c.

Definition replacement_char : Z := 65533.

(** Decoding with one of the error handlers: [Strict] ([None] is UnicodeDecodeError), [Replace], which
    puts one U+FFFD for each maximal invalid prefix, and [Ignore], which drops it. *)
Inductive decode_errors := Strict | Replace | Ignore.
Fixpoint utf8_decode_gen (errors : decode_errors) (l : bytes) : option pystr :=
  let bad (r : option pystr) :=
    match errors with Strict => None | Replace => cons replacement_char <$> r | Ignore => r end in
  match l with
  | [] => Some []
  | b0 :: l1 =>
    if b0 <? 128 then cons b0 <$> utf8_decode_gen errors l1
    else if in_range 194 223 b0 then
      match l1 with
      | b1 :: l2 =>
          if is_cont b1 then cons ((b0 - 192) * 64 + (b1 - 128)) <$> utf8_decode_gen errors l2
          else bad (utf8_decode_gen errors l1)
      | [] => bad (Some [])
      end
    else if in_range 224 239 b0 then
      match l1 with
      | b1 :: l2 =>
          if in_range (if b0 =? 224 then 160 else 128) (if b0 =? 237 then 159 else 191) b1 then
            match l2 with
            | b2 :: l3 =>
                if is_cont b2
                then cons ((b0 - 224) * 4096 + (b1 - 128) * 64 + (b2 - 128))
                       <$> utf8_decode_gen errors l3
                else bad (utf8_decode_gen errors l2)
            | [] => bad (Some [])
            end
          else bad (utf8_decode_gen errors l1)
      | [] => bad (Some [])
      end
    else if in_range 240 244 b0 then
      match l1 with
      | b1 :: l2 =>
          if in_range (if b0 =? 240 then 144 else 128) (if b0 =? 244 then 143 else 191) b1 then
            match l2 with
            | b2 :: l3 =>
                if is_cont b2 then
                  match l3 with
                  | b3 :: l4 =>
                      if is_cont b3
                      then cons ((b0 - 240) * 262144 + (b1 - 128) * 4096 + (b2 - 128) * 64
                                 + (b3 - 128)) <$> utf8_decode_gen errors l4
                      else bad (utf8_decode_gen errors l3)
                  | [] => bad (Some [])
                  end
                else bad (utf8_decode_gen errors l2)
            | [] => bad (Some [])
            end
          else bad (utf8_decode_gen errors l1)
      | [] => bad (Some [])
      end
    else bad (utf8_decode_gen errors l1)
  end.

Definition utf8_decode (l : bytes) : res pystr :=
  match utf8_decode_gen Strict l with
  | Some s => Ok s
  | None => raise ValueError "invalid utf-8"
  end.
Definition utf8_decode_replace (l : bytes) : pystr := default [] (utf8_decode_gen Replace l).
Definition utf8_decode_ignore (l : bytes) : pystr := default [] (utf8_decode_gen Ignore l).

(** ** Methods of [str] *)
Definition is_space (c : Z) : bool :=
  in_range 9 13 c || in_range 28 32 c || in_range 8192 8202 c ||
  existsb (Z.eqb c) [133; 160; 5760; 8232; 8233; 8239; 8287; 12288].

Fixpoint lstrip_by (p : Z → bool) (s : pystr) : pystr :=
  match s with
  | c :: s' => if p c then lstrip_by p s' else s
  | [] => []
  end.
Definition rstrip_by (p : Z → bool) (s : pystr) : pystr := rev (lstrip_by p (rev s)).
Definition strip_by (p : Z → bool) (s : pystr) : pystr := rstrip_by p (lstrip_by p s).
Definition strip (s : pystr) : pystr := strip_by is_space s.

(** [s.lower()]: exact for every result letter in ASCII (the Kelvin sign is the only other
    character that lower-cases to one); other non-ASCII characters are kept. *)
Definition lower_char (c : Z) : Z :=
  if in_range 65 90 c then c + 32 else if c =? 8490 then 107 else c.
Definition lower (s : pystr) : pystr := lower_char <$> s.

(** [s.split(c)] for a one-character separator. *)
Fixpoint split_on (c : Z) (s : pystr) : list pystr :=
  match s with
  | [] => [[]]
  | x :: s' =>
      if x =? c then [] :: split_on c s'
      else match split_on c s' with
           | w :: ws => (x :: w) :: ws
           | [] => [[x]]
           end
  end.

Definition join (sep : pystr) (l : list pystr) : pystr :=
  match l with
  | [] => []
  | x :: l' => x ++ (l' ≫= λ w, sep ++ w)
  end.

(** [s.splitlines(keepends=keep)]; [cur] is the line read so far, reversed. *)
Definition is_line_end (c : Z) : bool :=
  in_range 10 13 c || in_range 28 30 c || (c =? 133) || (c =? 8232) || (c =? 8233).
Fixpoint split_lines (keep : bool) (cur : pystr) (s : pystr) : list pystr :=
  let line (e : pystr) := rev (if keep then e ++ cur else cur) in
  match s with
  | [] => match cur with [] => [] | _ => [rev cur] end
  | 13 :: 10 :: s' => line [10; 13] :: split_lines keep [] s'
  | c :: s' => if is_line_end c then line [c] :: split_lines keep [] s' else split_lines keep (c :: cur) s'
  end.
Definition splitlines (s : pystr) : list pystr := split_lines false [] s.
Definition splitlines_keepends (s : pystr) : list pystr := split_lines true [] s.

(** [s.split(c, 1)] / [s.rpartition(c)] as (before, after) when the separator occurs. *)
Fixpoint split_first (c : Z) (s : pystr) : option (pystr * pystr) :=
  match s with
  | [] => None
  | x :: s' =>
      if x =? c then Some ([], s')
      else (λ p, (x :: p.1, p.2)) <$> split_first c s'
  end.
Definition split_last (c : Z) (s : pystr) : option (pystr * pystr) :=
  (λ p, (rev p.2, rev p.1)) <$> split_first c (rev s).

Definition starts_with (s p : pystr) : bool := is_prefix p s.
Definition ends_with (s p : pystr) : bool := is_prefix (rev p) (rev s).

(** [s.replace(old, new)] for a non-empty [old]; fuel is the length of the subject. *)
Fixpoint replace_fuel (fuel : nat) (old new s : pystr) : pystr :=
  match fuel, s with
  | O, _ | _, [] => s
  | S fuel', c :: s' =>
      if is_prefix old s then new ++ replace_fuel fuel' old new (drop (length old) s)
      else c :: replace_fuel fuel' old new s'
  end.
Definition replace_all (old new s : pystr) : pystr := replace_fuel (length s) old new s.

(** [str(n)] of an int. *)
Definition str_of_Z (z : Z) : pystr := str (pretty z).

(** One lower-case hexadecimal digit. *)
Definition hex_char (d : Z) : Z := if d <? 10 then 48 + d else 87 + d.

(** Lexicographic order on code points ([<] and [<=] on [str]). *)
Fixpoint str_compare (a b : pystr) : comparison :=
  match a, b with
  | [], [] => Eq
  | [], _ => Lt
  | _, [] => Gt
  | x :: a', y :: b' => match Z.compare x y with Eq => str_compare a' b' | c => c end
  end.
Definition str_leb (a b : pystr) : bool :=
  match str_compare a b with Gt => false | _ => true end.
Definition str_eqb (a b : pystr) : bool := bool_decide (a = b).

(** [sorted(l, key=...)]: stable insertion sort by a boolean "less or equal" on elements. *)
Fixpoint insert_by {A} (le : A → A → bool) (x : A) (l : list A) : list A :=
  match l with
  | [] => [x]
  | y :: l' => if le x y then x :: l else y :: insert_by le x l'
  end.
Fixpoint sort_by {A} (le : A → A → bool) (l : list A) : list A :=
  match l with
  | [] => []
  | x :: l' => insert_by le x (sort_by le l')
  end.

(** ** Lemmas *)
Definition is_cp (c : Z) : Prop := 0 <= c < 1114112 ∧ is_surrogate c = false.

Lemma in_range_true lo hi b : lo <= b <= hi → in_range lo hi b = true.
Proof. unfold in_range. intros. apply andb_true_iff. rewrite !Z.leb_le. lia. Qed.
Lemma in_range_false lo hi b : b < lo ∨ hi < b → in_range lo hi b = false.
Proof. unfold in_range. intros. apply andb_false_iff. rewrite !Z.leb_gt. lia. Qed.

Ltac utf8_ranges :=
  repeat match goal with
  | |- context [?a <? ?b] => first [rewrite (proj2 (Z.ltb_lt a b)) by dlia
                                   |rewrite (proj2 (Z.ltb_ge a b)) by dlia]
  | |- context [in_range ?lo ?hi ?b] => first [rewrite (in_range_true lo hi b) by dlia
                                              |rewrite (in_range_false lo hi b) by dlia]
  | |- context [?a =? ?b] => destruct (Z.eqb_spec a b)
  end.

Lemma utf8_decode_char errors c l :
  is_cp c → utf8_decode_gen errors (utf8_char c ++ l) = cons c <$> utf8_decode_gen errors l.
Proof.
  intros [Hc Hs]. unfold utf8_char.
  unfold is_surrogate, in_range in Hs. apply andb_false_iff in Hs. rewrite !Z.leb_gt in Hs.
  destruct (Z.ltb_spec c 128).
  { simpl. by rewrite (proj2 (Z.ltb_lt c 128)). }
  destruct (Z.ltb_spec c 2048).
  { simpl. unfold is_cont. utf8_ranges. do 2 f_equal; dlia. }
  destruct (Z.ltb_spec c 65536).
  { assert (c / 64 mod 64 = c / 64 - 64 * (c / 4096)) as E
      by (replace (c / 4096) with (c / 64 / 64) by (by rewrite Z.div_div); dlia).
    rewrite E. simpl. unfold is_cont. utf8_ranges; do 2 f_equal; dlia. }
  assert (c / 4096 = c / 64 / 64) as E1 by (by rewrite Z.div_div).
  assert (c / 262144 = c / 64 / 64 / 64) as E2 by (by rewrite !Z.div_div).
  rewrite E1, E2. simpl. unfold is_cont. utf8_ranges; do 2 f_equal; dlia.
Qed.

Lemma utf8_roundtrip s :
  Forall is_cp s → utf8_decode (s ≫= utf8_char) = Ok s ∧ existsb is_surrogate s = false.
Proof.
  unfold utf8_decode. induction 1 as [|c s Hc _ [IH1 IH2]]; [done|].
  split; [|simpl; by rewrite (proj2 Hc)].
  change ((c :: s) ≫= utf8_char) with (utf8_char c ++ (s ≫= utf8_char)).
  rewrite (utf8_decode_char _ c _ Hc).
  destruct (utf8_decode_gen Strict (s ≫= utf8_char)); [|done].
  simpl in *. congruence.
Qed.

Lemma utf8_char_bytes c : 0 <= c < 1114112 → is_bytes (utf8_char c).
Proof.
  intros Hc. unfold utf8_char, is_bytes, is_byte.
  repeat case_match; zbool; repeat constructor; dlia.
Qed.

Lemma str_cps (s : string) : Forall (λ c, 0 <= c < 256) (str s).
Proof.
  unfold str. apply Forall_fmap, Forall_true. intros a. simpl.
  pose proof (Ascii.nat_ascii_bounded a). lia.
Qed.

Lemma str_inj s1 s2 : str s1 = str s2 → s1 = s2.
Proof.
  unfold str. intros H.
  rewrite <- (String.string_of_list_ascii_of_string s1),
    <- (String.string_of_list_ascii_of_string s2). f_equal.
  revert H. generalize (String.list_ascii_of_string s2).
  induction (String.list_ascii_of_string s1) as [|a l IH]; intros [|b l']; try done.
  intros [= E%Nat2Z.inj E']. f_equal; [|by apply IH].
  rewrite <- (Ascii.ascii_nat_embedding a), <- (Ascii.ascii_nat_embedding b). by f_equal.
Qed.

Lemma str_of_Z_inj a b : str_of_Z a = str_of_Z b → a = b.
Proof. intros H%str_inj. by apply (inj pretty) in H. Qed.

Lemma split_on_app c s rest :
  Forall (λ x, x ≠ c) s → split_on c (s ++ c :: rest) = s :: split_on c rest.
Proof.
  induction 1 as [|x s Hx _ IH]; simpl; [by rewrite Z.eqb_refl|].
  by rewrite (proj2 (Z.eqb_neq x c)), IH.
Qed.
Lemma split_on_none c s : Forall (λ x, x ≠ c) s → split_on c s = [s].
Proof.
  induction 1 as [|x s Hx _ IH]; simpl; [done|]. by rewrite (proj2 (Z.eqb_neq x c)), IH.
Qed.
(** [s.split(c)] undoes [c.join(l)] when no part holds the separator. *)
Lemma split_on_join c l :
  l ≠ [] → Forall (Forall (λ x, x ≠ c)) l → split_on c (join [c] l) = l.
Proof.
  destruct l as [|w l]; [done|]. intros _ H. apply Forall_cons in H as [Hw Hl]. unfold join.
  revert w Hw. induction Hl as [|w' l Hw' Hl IH]; intros w Hw; cbn.
  - rewrite app_nil_r. by apply split_on_none.
  - rewrite split_on_app by done. f_equal. by apply IH.
Qed.

(** Stripping *)
Lemma lstrip_by_suffix p s : ∃ pre, s = pre ++ lstrip_by p s.
Proof.
  induction s as [|c s [pre IH]]; [by exists []|]. cbn. destruct (p c); [|by exists []].
  exists (c :: pre). cbn. by f_equal.
Qed.
Lemma lstrip_by_head p s c r : lstrip_by p s = c :: r → p c = false.
Proof.
  induction s as [|x s IH]; cbn; [done|]. destruct (p x) eqn:E; [done|]. by intros [= <- <-].
Qed.
Lemma lstrip_by_id p s : (∀ c r, s = c :: r → p c = false) → lstrip_by p s = s.
Proof. destruct s as [|c s]; [done|]. intros H. cbn. by rewrite (H c s). Qed.
Lemma rstrip_by_prefix p s : ∃ post, s = rstrip_by p s ++ post.
Proof.
  unfold rstrip_by. destruct (lstrip_by_suffix p (rev s)) as [pre E].
  exists (rev pre). rewrite <- (rev_involutive s) at 1. rewrite E at 1. by rewrite rev_app_distr.
Qed.
Lemma rstrip_by_last p s r c : rstrip_by p s = r ++ [c] → p c = false.
Proof.
  unfold rstrip_by. intros E. apply (lstrip_by_head p (rev s) c (rev r)).
  rewrite <- (rev_involutive (lstrip_by p (rev s))), E. by rewrite rev_app_distr.
Qed.
Lemma rstrip_by_id p s : (∀ r c, s = r ++ [c] → p c = false) → rstrip_by p s = s.
Proof.
  intros H. unfold rstrip_by. rewrite lstrip_by_id; [apply rev_involutive|].
  intros c r E. apply (H (rev r)). by rewrite <- (rev_involutive s), E.
Qed.
Lemma Forall_rstrip P p s : Forall P s → Forall P (rstrip_by p s).
Proof. destruct (rstrip_by_prefix p s) as [post E]. rewrite E at 1. by intros [? _]%Forall_app. Qed.
Lemma Forall_lstrip P p s : Forall P s → Forall P (lstrip_by p s).
Proof. destruct (lstrip_by_suffix p s) as [pre E]. rewrite E at 1. by intros [_ ?]%Forall_app. Qed.
(** Stripping at the right keeps the first character of what is left. *)
Lemma rstrip_by_head p s c r : rstrip_by p s = c :: r → ∃ r', s = c :: r'.
Proof. destruct (rstrip_by_prefix p s) as [post E]. intros E'. rewrite E, E'. by eexists. Qed.

(** ** Sorting *)
Lemma insert_by_perm {A} (le : A → A → bool) x l : insert_by le x l ≡ₚ x :: l.
Proof.
  induction l as [|y l IH]; simpl; [done|]. destruct (le x y); [done|]. rewrite IH. apply perm_swap.
Qed.
Lemma sort_by_perm {A} (le : A → A → bool) l : sort_by le l ≡ₚ l.
Proof. induction l as [|x l IH]; simpl; [done|]. by rewrite insert_by_perm, IH. Qed.
Lemma sort_by_sorted {A} (le : A → A → bool) l :
  (∀ x y, le x y = true ∨ le y x = true) → Sorted (λ x y, le x y = true) (sort_by le l).
Proof.
  intros Ht. assert (∀ x l, Sorted (λ x y, le x y = true) l → Sorted (λ x y, le x y = true) (insert_by le x l)) as Hi.
  { clear l. intros x l. induction 1 as [|y l Hl IH Hy]; cbn [insert_by]; [by repeat constructor|].
    destruct (le x y) eqn:E; [by repeat constructor|]. constructor; [done|].
    assert (le y x = true) as Hyx by (destruct (Ht x y); congruence).
    destruct Hy; cbn [insert_by]; [by constructor|]. destruct (le x b); by constructor. }
  induction l; cbn; [constructor|by apply Hi].
Qed.
Lemma str_compare_eq a b : str_compare a b = Eq ↔ a = b.
Proof.
  revert b. induction a as [|x a IH]; intros [|y b]; cbn; try done.
  destruct (Z.compare_spec x y) as [->|H|H].
  - rewrite IH. split; congruence.
  - split; [done|intros [= -> ->]; lia].
  - split; [done|intros [= -> ->]; lia].
Qed.
Lemma str_compare_antisym a b : str_compare b a = CompOpp (str_compare a b).
Proof.
  revert b. induction a as [|x a IH]; intros [|y b]; cbn; try done.
  rewrite (Z.compare_antisym x y). destruct (x ?= y); cbn; [apply IH|done..].
Qed.
Lemma str_compare_trans a b c : str_compare a b ≠ Gt → str_compare b c ≠ Gt → str_compare a c ≠ Gt.
Proof.
  revert b c. induction a as [|x a IH]; intros [|y b] [|z c]; cbn; try done.
  destruct (Z.compare_spec x y), (Z.compare_spec y z), (Z.compare_spec x z); subst; try done; try lia.
  apply IH.
Qed.
Lemma split_first_inv c s a b : split_first c s = Some (a, b) → s = a ++ c :: b.
Proof.
  revert a b. induction s as [|x s IH]; intros a b; cbn; [done|].
  destruct (Z.eqb_spec x c) as [->|]; [by intros [= <- <-]|].
  destruct (split_first c s) as [[a' b']|]; [|done]. intros [= <- <-]. cbn. by rewrite (IH a' b').
Qed.

(** ** Decoding and splitting text made of lines *)
Lemma utf8_decode_chars errors s l :
  Forall is_cp s → utf8_decode_gen errors ((s ≫= utf8_char) ++ l) = app s <$> utf8_decode_gen errors l.
Proof.
  induction 1 as [|c s Hc _ IH]; cbn; [by destruct (utf8_decode_gen errors l)|].
  rewrite <- app_assoc, utf8_decode_char, IH by done. by destruct (utf8_decode_gen errors l).
Qed.
Lemma utf8_decode_text errors s : Forall is_cp s → utf8_decode_gen errors (s ≫= utf8_char) = Some s.
Proof.
  intros Hs. rewrite <- (app_nil_r (s ≫= utf8_char)), utf8_decode_chars by done. cbn. by rewrite app_nil_r.
Qed.
Lemma no_surrogates s : Forall is_cp s → existsb is_surrogate s = false.
Proof. intros H. by apply utf8_roundtrip. Qed.
Lemma utf8_encode_text s : Forall is_cp s → utf8_encode s = Ok (s ≫= utf8_char).
Proof. intros H. unfold utf8_encode. by rewrite no_surrogates. Qed.

Lemma split_lines_cons keep cur c s :
  c ≠ 13 → split_lines keep cur (c :: s) =
    if is_line_end c then rev (if keep then c :: cur else cur) :: split_lines keep [] s
    else split_lines keep (c :: cur) s.
Proof. intros Hc. destruct c as [|p|p]; [done| |done]. do 4 (try (destruct p as [p|p|]; try done)). Qed.
Lemma split_lines_line keep s cur rest :
  Forall (λ c, is_line_end c = false) s →
  split_lines keep cur (s ++ 10 :: rest)
  = (rev cur ++ s ++ if keep then [10] else []) :: split_lines keep [] rest.
Proof.
  intros Hs. revert cur. induction Hs as [|c s Hc _ IH]; intros cur.
  - cbn. by destruct keep; rewrite ?app_nil_r.
  - cbn [app]. rewrite split_lines_cons by (by intros ->). rewrite Hc, IH. cbn. by rewrite <- app_assoc.
Qed.
Lemma splitlines_lines (ls : list pystr) :
  Forall (Forall (λ c, is_line_end c = false)) ls → splitlines (ls ≫= λ l, l ++ [10]) = ls.
Proof.
  unfold splitlines. induction 1 as [|l ls Hl _ IH]; [done|]. cbn [mbind list_bind].
  rewrite <- app_assoc. cbn [app]. rewrite split_lines_line by done. cbn. by rewrite app_nil_r, IH.
Qed.
