(* ===== verification/PyVal.v ===== *)
(** * Python values whose type the source tests at run time

    Values that come from JSON, MQTT or Sparkplug metrics, on which the code calls [isinstance],
    are [pyval]s; numbers that are an int or a float are [num]s, with Python's mixed arithmetic. *)
From Stdlib Require Import SpecFloat.
From S2P Require Import Prelude PyFloat PyStr.
#[local] Open Scope Z_scope.

Inductive pyval :=
  | VNone
  | VBool (b : bool)
  | VInt (z : Z)
  | VFloat (f : pyfloat)
  | VStr (s : pystr)
  | VBytes (b : bytes)
  | VList (l : list pyval)
  | VDict (d : list (pystr * pyval)).

(** [isinstance(v, int)] holds of a bool too. *)
Definition is_int (v : pyval) : bool := match v with VInt _ | VBool _ => true | _ => false end.
Definition is_bool (v : pyval) : bool := match v with VBool _ => true | _ => false end.
Definition is_float (v : pyval) : bool := match v with VFloat _ => true | _ => false end.
Definition is_str (v : pyval) : bool := match v with VStr _ => true | _ => false end.

Definition int_of (v : pyval) : Z :=
  match v with VInt z => z | VBool b => Z.b2z b | _ => 0 end.

(** [bool(v)]. *)
Definition truthy (v : pyval) : bool :=
  match v with
  | VNone => false
  | VBool b => b
  | VInt z => negb (z =? 0)
  | VFloat f => ftruthy f
  | VStr l | VBytes l => match l with [] => false | _ => true end
  | VList l => match l with [] => false | _ => true end
  | VDict d => match d with [] => false | _ => true end
  end.

(** [v == n] for an int literal, [v == s] for a str literal. *)
Definition eq_Z (v : pyval) (n : Z) : bool :=
  match v with
  | VBool b => Z.b2z b =? n
  | VInt z => z =? n
  | VFloat f => match fcompare_Z f n with Some Eq => true | _ => false end
  | _ => false
  end.
Definition eq_str (v : pyval) (s : pystr) : bool :=
  match v with VStr t => str_eqb t s | _ => false end.

(** [lo <= v <= hi] on a number (false on NaN). *)
Definition between (lo : Z) (v : pyval) (hi : Z) : bool :=
  match v with
  | VInt _ | VBool _ => (lo <=? int_of v) && (int_of v <=? hi)
  | VFloat f =>
      match fcompare_Z f lo, fcompare_Z f hi with
      | Some (Eq | Gt), Some (Eq | Lt) => true
      | _, _ => false
      end
  | _ => false
  end.

(** ** Numbers *)
Inductive num := NInt (z : Z) | NFloat (f : pyfloat).

Definition val_of_num (n : num) : pyval := match n with NInt z => VInt z | NFloat f => VFloat f end.
Definition num_truthy (n : num) : bool :=
  match n with NInt z => negb (z =? 0) | NFloat f => ftruthy f end.
(** [n == 1.0] *)
Definition num_is_one (n : num) : bool :=
  match n with NInt z => z =? 1 | NFloat f => feqb f f1 end.

(** [float(n)] *)
Definition to_float (n : num) : res pyfloat :=
  match n with NInt z => float_of_Z z | NFloat f => Ok f end.

Definition num_mul (a b : num) : res num :=
  match a, b with
  | NInt x, NInt y => Ok (NInt (x * y))
  | _, _ => x ← to_float a; y ← to_float b; Ok (NFloat (fmul x y))
  end.

(** True division. On two ints the exact quotient is rounded once. *)
Definition int_div (x y : Z) : res pyfloat :=
  match x, y with
  | _, 0 => raise ValueError "division by zero"
  | 0, _ => Ok (S754_zero (y <? 0))
  | (Zpos a | Zneg a), (Zpos b | Zneg b) =>
      let '(mz, ez, lz) := SFdiv_core_binary 53 1024 (Zpos a) 0 (Zpos b) 0 in
      match binary_round_aux 53 1024 (xorb (x <? 0) (y <? 0)) mz ez lz with
      | S754_infinity _ => raise OverflowError "integer division result too large for a float"
      | f => Ok f
      end
  end.
Definition num_div (a b : num) : res pyfloat :=
  match a, b with
  | NInt x, NInt y => int_div x y
  | _, _ => x ← to_float a; y ← to_float b; Ok (fdiv x y)
  end.

(** [math.isfinite(n)] (an int is converted to float first). *)
Definition isfinite (n : num) : res bool := is_finite <$> to_float n.

(** [try: m except OverflowError: raise ValueError(msg)] *)
Definition overflow_as_value {A} (m : res A) (msg : string) : res A :=
  match m with
  | Raise (Exn OverflowError _) => raise ValueError msg
  | _ => m
  end.
Arguments overflow_as_value {A} _ _%_string.

(** First value bound to a key. *)
Fixpoint assoc {A} (k : pystr) (l : list (pystr * A)) : option A :=
  match l with
  | [] => None
  | (k', a) :: l' => if str_eqb k k' then Some a else assoc k l'
  end.

Lemma str_eqb_refl s : str_eqb s s = true.
Proof. by apply bool_decide_eq_true. Qed.
Lemma str_eqb_eq s t : str_eqb s t = true ↔ s = t.
Proof. apply bool_decide_eq_true. Qed.

Lemma assoc_in {A} k (l : list (pystr * A)) a : assoc k l = Some a → (k, a) ∈ l.
Proof.
  induction l as [|[k' a'] l IH]; [done|]. simpl.
  destruct (str_eqb k k') eqn:E; [|intros H; right; auto].
  apply str_eqb_eq in E as ->. intros [= ->]. left.
Qed.

(** ** Big-endian and little-endian integers *)
Fixpoint to_le (n : nat) (z : Z) : bytes :=
  match n with
  | O => []
  | S n' => z mod 256 :: to_le n' (z / 256)
  end.
Definition to_be (n : nat) (z : Z) : bytes := rev (to_le n z).
Fixpoint of_le (l : bytes) : Z :=
  match l with [] => 0 | b :: l' => b + 256 * of_le l' end.
Definition of_be (l : bytes) : Z := of_le (rev l).

Lemma to_le_bytes n z : is_bytes (to_le n z).
Proof.
  revert z. induction n as [|n IH]; intros z; simpl; constructor; [|apply IH].
  apply Z.mod_pos_bound. lia.
Qed.
Lemma to_le_length n z : length (to_le n z) = n.
Proof. revert z. induction n as [|n IH]; intros z; simpl; [done|]. by rewrite IH. Qed.
Lemma to_be_bytes n z : is_bytes (to_be n z).
Proof. unfold to_be. apply Forall_rev, to_le_bytes. Qed.
Lemma to_be_length n z : length (to_be n z) = n.
Proof. unfold to_be. by rewrite length_rev, to_le_length. Qed.

Lemma of_to_le n z : of_le (to_le n z) = z mod 256 ^ Z.of_nat n.
Proof.
  revert z. induction n as [|n IH]; intros z; [simpl; by rewrite Z.mod_1_r|].
  simpl of_le. rewrite IH, Nat2Z.inj_succ, Z.pow_succ_r by lia.
  rewrite (Z.mul_comm 256), Z.rem_mul_r by lia.
  pose proof (Z.pow_pos_nonneg 256 (Z.of_nat n)).
  pose proof (Z.mod_pos_bound z 256). lia.
Qed.
Lemma of_to_be n z : of_be (to_be n z) = z mod 256 ^ Z.of_nat n.
Proof. unfold of_be, to_be. by rewrite rev_involutive, of_to_le. Qed.

Lemma of_le_bounds l : is_bytes l → 0 <= of_le l < 256 ^ zlen l.
Proof.
  induction 1 as [|b l Hb _ IH]; [done|]. simpl.
  rewrite zlen_cons, Z.pow_add_r by (pose proof (zlen_nonneg l); lia). unfold is_byte in Hb. lia.
Qed.
Lemma to_of_le l : is_bytes l → to_le (length l) (of_le l) = l.
Proof.
  induction 1 as [|b l Hb _ IH]; [done|]. simpl. unfold is_byte in Hb.
  rewrite (Z.mul_comm 256), Z.mod_add, Z.div_add by lia.
  by rewrite Z.mod_small, Z.div_small, Z.add_0_l, IH by lia.
Qed.
Lemma of_be_bounds l : is_bytes l → 0 <= of_be l < 256 ^ zlen l.
Proof.
  unfold of_be. intros H. replace (zlen l) with (zlen (rev l)) by (unfold zlen; by rewrite length_rev).
  apply of_le_bounds. by apply Forall_rev.
Qed.
Lemma to_of_be l : is_bytes l → to_be (length l) (of_be l) = l.
Proof.
  unfold to_be, of_be. intros H. rewrite <- (length_rev l), to_of_le by by apply Forall_rev.
  apply rev_involutive.
Qed.

(** Two's complement: the signed reading of a [bits]-wide pattern. *)
Definition sign_extend (bits : Z) (raw : Z) : Z :=
  if raw <? 2 ^ (bits - 1) then raw else raw - 2 ^ bits.

Lemma sign_extend_mod bits z :
  1 <= bits → - 2 ^ (bits - 1) <= z < 2 ^ (bits - 1) → sign_extend bits (z mod 2 ^ bits) = z.
Proof.
  intros Hb Hz. unfold sign_extend.
  assert (2 ^ bits = 2 * 2 ^ (bits - 1)) as E by (rewrite <- Z.pow_succ_r by lia; f_equal; lia).
  destruct (Z.lt_ge_cases z 0).
  - replace (z mod 2 ^ bits) with (z + 2 ^ bits)
      by (rewrite <- (Z.mod_small (z + 2 ^ bits) (2 ^ bits)) by lia;
          rewrite <- (Z.mul_1_l (2 ^ bits)) at 1; by rewrite Z.mod_add by lia).
    rewrite (proj2 (Z.ltb_ge _ _)) by lia. lia.
  - rewrite Z.mod_small by lia. rewrite (proj2 (Z.ltb_lt _ _)) by lia. done.
Qed.
