(* ===== verification/IpAddr.v ===== *)
(** * IP addresses and networks: the part of [ipaddress] the allow lists use

    An address is its version and integer value, a network its version, prefix length and base
    address. [ip_address] and [ip_network] (non-strict) parse the textual forms. *)
From S2P Require Import Prelude PyFloat PyStr PyVal.
#[local] Open Scope Z_scope.

Inductive ip := V4 (a : Z) | V6 (a : Z).
#[export] Instance ip_eq_dec : EqDecision ip.
Proof. solve_decision. Defined.

Definition is_digit (c : Z) : bool := in_range 48 57 c.
Definition hex_digit (c : Z) : option Z :=
  if in_range 48 57 c then Some (c - 48)
  else if in_range 97 102 c then Some (c - 87)
  else if in_range 65 70 c then Some (c - 55)
  else None.

(** The value of a digit string in a base (most significant digit first). *)
Definition digits_value (base : Z) (ds : list Z) : Z := fold_left (λ acc d, acc * base + d) ds 0.
Definition decimal (s : pystr) : option Z :=
  match s with
  | [] => None
  | _ => if forallb is_digit s then Some (digits_value 10 ((λ c, c - 48) <$> s)) else None
  end.

(** ** IPv4 *)
Definition parse_octet (s : pystr) : option Z :=
  match decimal s with
  | None => None
  | Some v =>
      if 3 <? zlen s then None
      else if match s with c :: _ :: _ => c =? 48 | _ => false end then None
      else if 255 <? v then None else Some v
  end.
Definition parse_ipv4 (s : pystr) : option Z :=
  match mapM parse_octet (split_on 46 s) with
  | Some [a; b; c; d] => Some (((a * 256 + b) * 256 + c) * 256 + d)
  | _ => None
  end.

(** ** IPv6: the parts between colons, an embedded IPv4 tail already split in two numbers *)
Inductive part := PText (s : pystr) | PNum (z : Z).
Definition part_empty (p : part) : bool := match p with PText [] => true | _ => false end.
Definition parse_hextet (p : part) : option Z :=
  match p with
  | PNum z => Some z
  | PText s =>
      match s with
      | [] => None
      | _ => if 4 <? zlen s then None else digits_value 16 <$> mapM hex_digit s
      end
  end.

Definition hextets (ps : list part) : option Z := digits_value 65536 <$> mapM parse_hextet ps.

(** Indices of the empty parts strictly between the first and the last one. *)
Definition empty_inner (ps : list part) : list nat :=
  filter (λ i, match ps !! i with Some p => part_empty p | None => false end = true)
    (seq 1 (length ps - 2)).

Definition ipv6_parts (ps : list part) : option Z :=
  let n := length ps in
  if (n <? 3)%nat || (9 <? n)%nat then None
  else
    let first_empty := match ps with p :: _ => part_empty p | [] => false end in
    let last_empty := match last ps with Some p => part_empty p | None => false end in
    match empty_inner ps with
    | [] =>
        if negb (n =? 8)%nat || first_empty || last_empty then None else hextets ps
    | [skip] =>
        let hi := if first_empty then (skip - 1)%nat else skip in
        let lo := if last_empty then (n - skip - 2)%nat else (n - skip - 1)%nat in
        if (first_empty && negb (hi =? 0)%nat) || (last_empty && negb (lo =? 0)%nat) then None
        else if (8 <? hi + lo + 1)%nat then None
        else
          h ← hextets (take hi ps);
          l ← hextets (drop (n - lo) ps);
          Some (h * 65536 ^ Z.of_nat (8 - hi) + l)
    | _ => None
    end.

Definition split_tail_v4 (ps : list pystr) : option (list part) :=
  match last ps with
  | Some t =>
      if contains (str ".") t then
        v ← parse_ipv4 t;
        Some ((PText <$> removelast ps) ++ [PNum (v / 65536); PNum (v mod 65536)])
      else Some (PText <$> ps)
  | None => None
  end.

(** A scope id ([%eth0]) must be non-empty and is not part of the value. *)
Definition strip_scope (s : pystr) : option pystr :=
  match split_first 37 s with
  | None => Some s
  | Some (_, []) => None
  | Some (a, z) => if contains (str "%") z then None else Some a
  end.

Definition parse_ipv6 (s : pystr) : option Z :=
  if contains (str "/") s then None
  else
    a ← strip_scope s;
    let ps := split_on 58 a in
    if (length ps <? 3)%nat then None
    else qs ← split_tail_v4 ps; ipv6_parts qs.

Definition ip_address (s : pystr) : option ip :=
  match parse_ipv4 s with
  | Some a => Some (V4 a)
  | None => V6 <$> parse_ipv6 s
  end.

Definition ipv4_mapped (a : Z) : option Z :=
  if Z.shiftr a 32 =? 65535 then Some (Z.land a (2 ^ 32 - 1)) else None.

(** ** Networks *)
Record net := Net { net_v6 : bool; net_prefix : Z; net_base : Z }.
Definition width (v6 : bool) : Z := if v6 then 128 else 32.

Definition mask_prefix (v : Z) : option Z :=
  let ps := Z.of_nat <$> seq 0 33 in
  match list_find (λ p, v = 2 ^ 32 - 2 ^ (32 - p)) ps with
  | Some (_, p) => Some p
  | None => snd <$> list_find (λ p, v = 2 ^ (32 - p) - 1) ps
  end.
Definition parse_prefix (v6 : bool) (s : pystr) : option Z :=
  match decimal s with
  | Some p => if p <=? width v6 then Some p else None
  | None => if v6 then None else v ← parse_ipv4 s; mask_prefix v
  end.

Definition make_net (v6 : bool) (addr : option Z) (prefix : option Z) : option net :=
  a ← addr; p ← prefix;
  let h := 2 ^ (width v6 - p) in
  Some (Net v6 p (a / h * h)).

Definition ip_network (s : pystr) : option net :=
  match split_on 47 s with
  | [a] =>
      match make_net false (parse_ipv4 a) (Some 32) with
      | Some n => Some n
      | None => make_net true (parse_ipv6 a) (Some 128)
      end
  | [a; p] =>
      match make_net false (parse_ipv4 a) (parse_prefix false p) with
      | Some n => Some n
      | None => make_net true (parse_ipv6 a) (parse_prefix true p)
      end
  | _ => None
  end.

(** [addr in net] *)
Definition in_net (a : ip) (n : net) : bool :=
  match a with
  | V4 v => negb (net_v6 n) && (v / 2 ^ (32 - net_prefix n) * 2 ^ (32 - net_prefix n) =? net_base n)
  | V6 v => net_v6 n && (v / 2 ^ (128 - net_prefix n) * 2 ^ (128 - net_prefix n) =? net_base n)
  end.

(** ** Client lists (config.normalize_cidr, modbus_gateway._parse_nets / _ip_in_nets) *)
Definition normalize_cidr (value : pystr) : pystr :=
  let v := strip value in
  if str_eqb v (str "0.0.0.0") then str "0.0.0.0/0"
  else if str_eqb v (str "::") then str "::/0"
  else v.

Definition _parse_nets (cidrs : list pystr) : list net :=
  omap (λ c, ip_network (normalize_cidr c)) cidrs.

Definition _ip_in_nets (s : pystr) (nets : list net) : bool :=
  match nets with
  | [] => false
  | _ =>
      match ip_address s with
      | None => false
      | Some a =>
          let a := match a with
                   | V6 v => match ipv4_mapped v with Some v4 => V4 v4 | None => a end
                   | V4 _ => a
                   end in
          existsb (in_net a) nets
      end
  end.

(** ** Lemmas *)
Lemma split_on_forall (P : Z → Prop) c s :
  Forall (Forall P) (split_on c s) → Forall (λ x, P x ∨ x = c) s.
Proof.
  induction s as [|x s IH]; [intros; by apply Forall_nil|]. simpl.
  destruct (Z.eqb_spec x c) as [->|Hne].
  - intros [_ H]%Forall_cons. apply Forall_cons. split; [by right|auto].
  - destruct (split_on c s) as [|w ws] eqn:E.
    + intros [[Hx _]%Forall_cons _]%Forall_cons. apply Forall_cons. split; [by left|].
      apply IH. by apply Forall_nil.
    + intros [[Hx Hw]%Forall_cons Hws]%Forall_cons. apply Forall_cons. split; [by left|].
      apply IH. by apply Forall_cons.
Qed.

Lemma contains_single c s : contains [c] s = false ↔ Forall (λ x, x ≠ c) s.
Proof.
  induction s as [|x s IH]; simpl; [split; [intros; by apply Forall_nil|done]|].
  rewrite Forall_cons, <- IH. destruct (Z.eqb_spec c x) as [->|]; simpl.
  - split; [done|by intros [? _]].
  - split; [by split|by intros [_ ?]].
Qed.

Lemma decimal_digits s v : decimal s = Some v → Forall (λ c, is_digit c = true) s.
Proof.
  unfold decimal. destruct s as [|c s]; [done|].
  destruct (forallb is_digit (c :: s)) eqn:E; [|done]. intros _.
  apply Forall_forall. intros x Hx. rewrite forallb_forall in E. apply E. by apply list_elem_of_In.
Qed.
Lemma parse_octet_inv s v :
  parse_octet s = Some v → Forall (λ c, is_digit c = true) s ∧ 0 <= v <= 255.
Proof.
  unfold parse_octet. destruct (decimal s) as [d|] eqn:E; [|done].
  destruct (3 <? zlen s); [done|]. destruct (match s with [] => _ | _ => _ end); [done|].
  destruct (Z.ltb_spec 255 d); [done|]. intros [= <-]. split; [by eapply decimal_digits|].
  split; [|lia]. pose proof (decimal_digits s d E) as Hd. unfold decimal in E.
  destruct s as [|c s]; [done|]. destruct (forallb _ _); [|done]. injection E as <-.
  unfold digits_value.
  assert (∀ l acc, 0 <= acc → Forall (λ c, is_digit c = true) l →
    0 <= fold_left (λ acc d, acc * 10 + d) ((λ c, c - 48) <$> l) acc) as Hpos.
  { clear. induction l as [|x l IH]; intros acc Hacc Hl; [done|]. apply Forall_cons in Hl as [Hx Hl].
    simpl. apply IH; [|done]. unfold is_digit, in_range in Hx. zbool. lia. }
  by apply (Hpos (c :: s) 0).
Qed.

Lemma parse_ipv4_inv s a :
  parse_ipv4 s = Some a →
  Forall (λ c, is_digit c = true ∨ c = 46) s ∧ contains [46] s = true ∧ 0 <= a < 2 ^ 32.
Proof.
  unfold parse_ipv4. destruct (mapM parse_octet (split_on 46 s)) as [l|] eqn:E; [|done].
  apply mapM_Some_1 in E. intros Ha. split; [|split].
  - apply split_on_forall. clear Ha. induction E as [|w v ws vs Hw _ IH]; [by apply Forall_nil|].
    apply Forall_cons. split; [by eapply parse_octet_inv|done].
  - destruct (contains [46] s) eqn:Ec; [done|]. apply contains_single in Ec.
    rewrite split_on_none in E by done. apply Forall2_cons_inv_l in E as (? & ? & _ & E & ->).
    by apply Forall2_nil_inv_l in E as ->.
  - repeat (let v := fresh "v" in destruct l as [|v l]; [done|]).
    assert (∀ x, x ∈ [v; v0; v1; v2] → 0 <= x <= 255) as Hr.
    { intros x Hx. destruct l; [|done]. apply list_elem_of_lookup in Hx as [i Hi].
      eapply Forall2_lookup_r in E as (w & _ & Hw); [|exact Hi]. by eapply parse_octet_inv. }
    destruct l as [|? l]; [|done]. injection Ha as <-.
    assert (0 <= v <= 255 ∧ 0 <= v0 <= 255 ∧ 0 <= v1 <= 255 ∧ 0 <= v2 <= 255) as (?&?&?&?).
    { repeat split; apply Hr; repeat constructor. }
    lia.
Qed.

Lemma ipv4_text_char s a c :
  parse_ipv4 s = Some a → is_digit c = false → c ≠ 46 → Forall (λ x, x ≠ c) s.
Proof.
  intros (H & _)%parse_ipv4_inv Hd Hc. eapply Forall_impl; [exact H|].
  intros x [Hx|Hx] ->; congruence.
Qed.

Lemma split_first_none c s : Forall (λ x, x ≠ c) s → split_first c s = None.
Proof.
  induction 1 as [|x s Hx _ IH]; simpl; [done|]. by rewrite (proj2 (Z.eqb_neq x c)), IH.
Qed.

Lemma ipv6_parts_mapped hi lo :
  ipv6_parts [PText []; PText []; PText (str "ffff"); PNum hi; PNum lo]
  = Some ((65535 * 65536 + hi) * 65536 + lo).
Proof.
  assert (mapM parse_hextet [PText (str "ffff"); PNum hi; PNum lo] = Some [65535; hi; lo]) as E
    by reflexivity.
  unfold ipv6_parts.
  change (empty_inner _) with [1%nat]. cbv iota beta zeta. unfold hextets.
  cbn [length last part_empty Nat.ltb Nat.leb Nat.sub Nat.add Nat.eqb orb andb negb take drop].
  rewrite E. cbn [fmap option_fmap option_map mbind option_bind mapM mret option_ret].
  reflexivity.
Qed.

Lemma ip_address_mapped s a :
  parse_ipv4 s = Some a → ip_address (str "::ffff:" ++ s) = Some (V6 (65535 * 2 ^ 32 + a)).
Proof.
  intros Ha. pose proof (parse_ipv4_inv s a Ha) as (_ & Hdot & Hr).
  unfold ip_address.
  assert (parse_ipv4 (str "::ffff:" ++ s) = None) as ->.
  { destruct (parse_ipv4 (str "::ffff:" ++ s)) as [v|] eqn:E; [|done].
    apply (ipv4_text_char _ _ 58) in E; [|done|done]. by inversion E. }
  unfold parse_ipv6.
  assert (contains (str "/") (str "::ffff:" ++ s) = false) as ->.
  { apply contains_single. apply Forall_app. split; [by apply (bool_decide_unpack _)|].
    by eapply ipv4_text_char. }
  assert (strip_scope (str "::ffff:" ++ s) = Some (str "::ffff:" ++ s)) as ->.
  { unfold strip_scope. rewrite split_first_none; [done|].
    apply Forall_app. split; [by apply (bool_decide_unpack _)|]. by eapply ipv4_text_char. }
  cbn [mbind option_bind].
  assert (split_on 58 (str "::ffff:" ++ s) = [[]; []; str "ffff"; s]) as ->.
  { change (str "::ffff:" ++ s) with (58 :: 58 :: (str "ffff" ++ 58 :: s)).
    cbn [split_on]. change (58 =? 58) with true. cbv iota. do 2 f_equal.
    rewrite split_on_app by (by apply (bool_decide_unpack _)). f_equal.
    apply split_on_none. by eapply ipv4_text_char. }
  cbn [length Nat.ltb Nat.leb]. unfold split_tail_v4. cbn [last].
  change (str ".") with [46]. rewrite Hdot, Ha. cbn [mbind option_bind removelast fmap list_fmap app].
  rewrite ipv6_parts_mapped. cbn [fmap option_fmap option_map]. do 2 f_equal. dlia.
Qed.

Lemma mapped_back a : 0 <= a < 2 ^ 32 → ipv4_mapped (65535 * 2 ^ 32 + a) = Some a.
Proof.
  intros Ha. unfold ipv4_mapped. rewrite Z.shiftr_div_pow2 by done.
  change (2 ^ 32 - 1) with (Z.ones 32). rewrite Z.land_ones by done.
  rewrite Z.div_add_l, Z.div_small by lia. change (65535 + 0 =? 65535) with true. cbv iota.
  f_equal. dlia.
Qed.

Lemma mapped_same_lists s a nets :
  parse_ipv4 s = Some a → _ip_in_nets (str "::ffff:" ++ s) nets = _ip_in_nets s nets.
Proof.
  intros Ha. destruct nets as [|n nets]; [done|]. unfold _ip_in_nets.
  rewrite (ip_address_mapped s a) by done. unfold ip_address. rewrite Ha.
  rewrite mapped_back; [done|]. by eapply parse_ipv4_inv.
Qed.

(** Membership is agreement on the prefix bits. *)
Lemma in_net_prefix (v6 : bool) a p base :
  0 <= p <= width v6 →
  in_net (if v6 then V6 a else V4 a)
         (Net v6 p (base / 2 ^ (width v6 - p) * 2 ^ (width v6 - p))) = true
  ↔ a / 2 ^ (width v6 - p) = base / 2 ^ (width v6 - p).
Proof.
  intros Hp. assert (0 < 2 ^ (width v6 - p)) by (apply Z.pow_pos_nonneg; lia).
  destruct v6; simpl in *; rewrite Z.eqb_eq; split; intros E; try nia; by rewrite E.
Qed.
