(* ===== verification/PyNum.v ===== *)
(** * Numbers in text: [int(s, 0)], [int(s)], [float(s)], [str] of a float, and [json.loads]

    Digits are the ASCII ones. A decimal is rounded once to the nearest double (the exact
    rational quotient rounded half to even); [str] of a float is the shortest decimal that reads
    back as the same float. *)
From Stdlib Require Import SpecFloat.
From S2P Require Import Prelude PyFloat PyStr PyVal IpAddr.
#[local] Open Scope Z_scope.

(** The digits of a literal: single underscores between digits are dropped; [None] when the text
    is not digits of the base separated that way. *)
Fixpoint digits_us (base : Z) (prev : bool) (s : pystr) : option (list Z) :=
  match s with
  | [] => if prev then Some [] else None
  | c :: s' =>
      if c =? 95 then if prev then digits_us base false s' else None
      else match hex_digit c with
           | Some d => if d <? base then cons d <$> digits_us base true s' else None
           | None => None
           end
  end.

Definition take_sign (s : pystr) : bool * pystr :=
  match s with
  | c :: s' => if c =? 45 then (true, s') else if c =? 43 then (false, s') else (false, s)
  | [] => (false, [])
  end.
Definition signed (neg : bool) (z : Z) : Z := if neg then - z else z.

(** [int(s)] in base 10. *)
Definition int_of_text (s : pystr) : option Z :=
  let '(neg, ds) := take_sign (strip s) in
  (λ l, signed neg (digits_value 10 l)) <$> digits_us 10 false ds.

(** [int(s, 0)]: a prefix picks the base (one underscore may follow it); without a prefix a
    decimal other than zero must not start with 0. *)
Definition int_of_text0 (s : pystr) : option Z :=
  let '(neg, ds) := take_sign (strip s) in
  let based base rest :=
    let rest := match rest with c :: r => if c =? 95 then r else rest | [] => [] end in
    (λ l, signed neg (digits_value base l)) <$> digits_us base false rest in
  let plain :=
    l ← digits_us 10 false ds;
    let v := digits_value 10 l in
    match l with
    | d :: _ :: _ => if (d =? 0) && negb (v =? 0) then None else Some (signed neg v)
    | _ => Some (signed neg v)
    end in
  match ds with
  | z :: b :: rest =>
      if z =? 48 then
        if (b =? 120) || (b =? 88) then based 16 rest
        else if (b =? 111) || (b =? 79) then based 8 rest
        else if (b =? 98) || (b =? 66) then based 2 rest
        else plain
      else plain
  | _ => plain
  end.

(** ** Decimal to binary *)
Definition quot_float (neg : bool) (a b : positive) : pyfloat :=
  let '(mz, ez, lz) := SFdiv_core_binary 53 1024 (Zpos a) 0 (Zpos b) 0 in
  binary_round_aux 53 1024 neg mz ez lz.

(** [d * 10^e], rounded to nearest even. *)
Definition float_of_decimal (neg : bool) (d e : Z) : pyfloat :=
  match d with
  | Zpos p =>
      if 0 <=? e then binary_round 53 1024 neg (Z.to_pos (Zpos p * 10 ^ e)) 0
      else quot_float neg p (Z.to_pos (10 ^ (- e)))
  | _ => S754_zero neg
  end.

Definition split_exp (s : pystr) : pystr * option pystr :=
  match split_first 101 (lower s) with
  | Some (m, e) => (m, Some e)
  | None => (s, None)
  end.

(** Digits before and after the point: at least one side has some. *)
Definition mantissa (s : pystr) : option (list Z * list Z) :=
  match split_first 46 s with
  | None => (λ l, (l, [])) <$> digits_us 10 false s
  | Some ([], f) => (λ l, ([], l)) <$> digits_us 10 false f
  | Some (i, []) => (λ l, (l, [])) <$> digits_us 10 false i
  | Some (i, f) => a ← digits_us 10 false i; b ← digits_us 10 false f; Some (a, b)
  end.

(** [float(s)] *)
Definition float_of_text (s : pystr) : option pyfloat :=
  let '(neg, body) := take_sign (strip s) in
  if str_eqb (lower body) (str "inf") || str_eqb (lower body) (str "infinity")
  then Some (S754_infinity neg)
  else if str_eqb (lower body) (str "nan") then Some S754_nan
  else
    let '(m, ex) := split_exp body in
    '(i, f) ← mantissa m;
    e ← (match ex with
         | None => Some 0
         | Some t =>
             let '(en, ed) := take_sign t in
             (λ l, signed en (digits_value 10 l)) <$> digits_us 10 false ed
         end);
    Some (float_of_decimal neg (digits_value 10 (i ++ f)) (e - zlen f)).

(** ** Binary to decimal *)
(** [x * 10^k] of [m * 2^e], rounded half to even to an integer. *)
Definition scaled_round (m : positive) (e k : Z) : Z :=
  let n := Zpos m * 2 ^ Z.max e 0 * 10 ^ Z.max k 0 in
  let d := 2 ^ Z.max (- e) 0 * 10 ^ Z.max (- k) 0 in
  let q := n / d in
  let r := 2 * (n mod d) in
  if (d <? r) || ((r =? d) && Z.odd q) then q + 1 else q.

Fixpoint zdigits (fuel : nat) (z : Z) (acc : list Z) : list Z :=
  match fuel with
  | O => acc
  | S f => if z <? 10 then z :: acc else zdigits f (z / 10) (z mod 10 :: acc)
  end.

(** The decimal exponent [k] with [10^(k-1) <= x < 10^k]. *)
Definition dec_exp (m : positive) (e : Z) : Z :=
  let le k := (* 10^k <= m * 2^e *)
    10 ^ Z.max k 0 * 2 ^ Z.max (- e) 0 <=? Zpos m * 2 ^ Z.max e 0 * 10 ^ Z.max (- k) 0 in
  let k0 := (Zpos (digits2_pos m) + e) * 30103 / 100000 in
  if le (k0 + 1) then k0 + 2 else if le k0 then k0 + 1 else if le (k0 - 1) then k0 else k0 - 1.

Fixpoint shortest (n : nat) (tries : nat) (m : positive) (e k : Z) : Z * Z :=
  let nd := Z.of_nat n in
  let d := scaled_round m e (nd - k) in
  match tries with
  | O => (d, k - nd)
  | S t =>
      if bool_decide (float_of_decimal false d (k - nd) = S754_finite false m e) then (d, k - nd)
      else shortest (S n) t m e k
  end.

Fixpoint drop_zeros (fuel : nat) (d e : Z) : Z * Z :=
  match fuel with
  | O => (d, e)
  | S f => if (d mod 10 =? 0) && negb (d =? 0) then drop_zeros f (d / 10) (e + 1) else (d, e)
  end.

Definition digit_chars (l : list Z) : pystr := (λ d, d + 48) <$> l.

(** [repr] of a positive finite float from its shortest digits. *)
Definition format_shortest (d e : Z) : pystr :=
  let ds := zdigits 20 d [] in
  let n := zlen ds in
  let pt := n + e in                       (* position of the decimal point *)
  if (-4 <? pt) && (pt <=? 16) then
    if n <=? pt then digit_chars ds ++ repeat 48 (Z.to_nat (pt - n)) ++ str ".0"
    else if 0 <? pt then
      digit_chars (take (Z.to_nat pt) ds) ++ str "." ++ digit_chars (drop (Z.to_nat pt) ds)
    else str "0." ++ repeat 48 (Z.to_nat (- pt)) ++ digit_chars ds
  else
    let ex := pt - 1 in
    let mant := match ds with
                | [x] => digit_chars [x]
                | x :: r => digit_chars [x] ++ str "." ++ digit_chars r
                | [] => []
                end in
    let a := Z.abs ex in
    mant ++ str "e" ++ (if ex <? 0 then str "-" else str "+")
         ++ (if a <? 10 then str "0" else []) ++ digit_chars (zdigits 4 a []).

Definition str_of_float (x : pyfloat) : pystr :=
  match x with
  | S754_zero s => (if s then str "-" else []) ++ str "0.0"
  | S754_infinity s => (if s then str "-" else []) ++ str "inf"
  | S754_nan => str "nan"
  | S754_finite s m e =>
      let '(d, ex) := shortest 1 16 m e (dec_exp m e) in
      let '(d, ex) := drop_zeros 20 d ex in
      (if s then str "-" else []) ++ format_shortest d ex
  end.

Definition str_of_num (n : num) : pystr :=
  match n with NInt z => str_of_Z z | NFloat f => str_of_float f end.

(** [x.is_integer()] *)
Definition float_is_integer (x : pyfloat) : bool :=
  match x with
  | S754_zero _ => true
  | S754_finite _ m e => if 0 <=? e then true else Zpos m mod 2 ^ (- e) =? 0
  | _ => false
  end.
