(* ===== verification/Json.v ===== *)
(** * [json.loads]: the parser of the standard library as a function to [pyval]

    The last of duplicate keys wins, as in a dict built pair by pair. Fuel is the length of the
    text: every step consumes a character. *)
From S2P Require Import Prelude PyFloat PyStr PyVal IpAddr PyNum.
#[local] Open Scope Z_scope.

(** A dict as an association list: assignment keeps the position of an existing key. *)
Fixpoint dict_set {A} (k : pystr) (v : A) (d : list (pystr * A)) : list (pystr * A) :=
  match d with
  | [] => [(k, v)]
  | (k', v') :: d' => if str_eqb k k' then (k', v) :: d' else (k', v') :: dict_set k v d'
  end.

Definition json_ws (c : Z) : bool := (c =? 32) || (c =? 9) || (c =? 10) || (c =? 13).
Definition skip_ws (s : pystr) : pystr := lstrip_by json_ws s.

Definition hex4 (s : pystr) : option (Z * pystr) :=
  match s with
  | a :: b :: c :: d :: r =>
      v ← digits_value 16 <$> mapM hex_digit [a; b; c; d]; Some (v, r)
  | _ => None
  end.

Definition escape_char (c : Z) : option Z :=
  zs ← assoc [c] [(str "/", 47); ([34], 34); ([92], 92); (str "b", 8); (str "f", 12);
                  (str "n", 10); (str "r", 13); (str "t", 9)];
  Some zs.

(** The body of a string, after its opening quote. *)
Fixpoint json_string (fuel : nat) (s : pystr) : option (pystr * pystr) :=
  match fuel with
  | O => None
  | S f =>
    match s with
    | [] => None
    | c :: r =>
      if c =? 34 then Some ([], r)
      else if c <? 32 then None
      else if c =? 92 then
        match r with
        | 117 :: r1 =>
            '(u, r2) ← hex4 r1;
            let single := '(t, r') ← json_string f r2; Some (u :: t, r') in
            if in_range 55296 56319 u then
              match r2 with
              | 92 :: 117 :: r3 =>
                  match hex4 r3 with
                  | Some (v, r4) =>
                      if in_range 56320 57343 v then
                        '(t, r') ← json_string f r4;
                        Some (65536 + (u - 55296) * 1024 + (v - 56320) :: t, r')
                      else single
                  | None => None
                  end
              | _ => single
              end
            else single
        | e :: r1 => x ← escape_char e; '(t, r') ← json_string f r1; Some (x :: t, r')
        | [] => None
        end
      else '(t, r') ← json_string f r; Some (c :: t, r')
    end
  end.

Fixpoint span_digits (s : pystr) : pystr * pystr :=
  match s with
  | c :: r => if is_digit c then let '(a, b) := span_digits r in (c :: a, b) else ([], s)
  | [] => ([], [])
  end.

(** The longest number at the start of the text: sign, integer part, fraction, exponent. *)
Definition json_sign (s : pystr) : bool * pystr :=
  match s with
  | c :: r => if c =? 45 then (true, r) else (false, s)
  | [] => (false, s)
  end.
Definition json_int (s : pystr) : pystr * pystr :=
  match s with
  | c :: r => if c =? 48 then ([48], r) else span_digits s
  | [] => ([], [])
  end.
Definition json_frac (s : pystr) : pystr * pystr :=
  match s with
  | c :: r =>
      if c =? 46 then match span_digits r with ([], _) => ([], s) | (f, r') => (f, r') end
      else ([], s)
  | [] => ([], s)
  end.
Definition text_value (l : pystr) : Z := digits_value 10 ((λ c, c - 48) <$> l).
Definition json_exp (s : pystr) : option Z * pystr :=
  match s with
  | c :: r =>
      if (c =? 101) || (c =? 69) then
        let '(en, ds) := take_sign r in
        match span_digits ds with
        | ([], _) => (None, s)
        | (d, r') => (Some (signed en (text_value d)), r')
        end
      else (None, s)
  | [] => (None, s)
  end.
Definition json_number (s : pystr) : option (pyval * pystr) :=
  let '(neg, body) := json_sign s in
  let '(ip, r1) := json_int body in
  let '(fp, r2) := json_frac r1 in
  let '(ex, r3) := json_exp r2 in
  match ip, fp, ex with
  | [], _, _ => None
  | _, [], None => Some (VInt (signed neg (text_value ip)), r3)
  | _, _, _ =>
      Some (VFloat (float_of_decimal neg (text_value (ip ++ fp)) (default 0 ex - zlen fp)), r3)
  end.

Definition strip_prefix (p s : pystr) : option pystr :=
  if is_prefix p s then Some (drop (length p) s) else None.

(** One value at the start of the text, and the rest; [json_items] / [json_pairs] are the
    elements after the opening bracket. *)
Fixpoint json_value (fuel : nat) (s : pystr) : option (pyval * pystr) :=
  match fuel with
  | O => None
  | S f =>
    match s with
    | [] => None
    | c :: r =>
      if c =? 34 then '(t, r') ← json_string (S (length r)) r; Some (VStr t, r')
      else if c =? 91 then
        match skip_ws r with
        | 93 :: r' => Some (VList [], r')
        | r' => '(l, r'') ← json_items f r'; Some (VList l, r'')
        end
      else if c =? 123 then
        match skip_ws r with
        | 125 :: r' => Some (VDict [], r')
        | r' => '(d, r'') ← json_pairs f r' []; Some (VDict d, r'')
        end
      else match strip_prefix (str "null") s with Some r' => Some (VNone, r') | None =>
           match strip_prefix (str "true") s with Some r' => Some (VBool true, r') | None =>
           match strip_prefix (str "false") s with Some r' => Some (VBool false, r') | None =>
           match json_number s with Some x => Some x | None =>
           match strip_prefix (str "NaN") s with
           | Some r' => Some (VFloat SpecFloat.S754_nan, r') | None =>
           match strip_prefix (str "Infinity") s with
           | Some r' => Some (VFloat (SpecFloat.S754_infinity false), r') | None =>
           match strip_prefix (str "-Infinity") s with
           | Some r' => Some (VFloat (SpecFloat.S754_infinity true), r') | None => None
           end end end end end end end
    end
  end
with json_items (fuel : nat) (s : pystr) : option (list pyval * pystr) :=
  match fuel with
  | O => None
  | S f =>
      '(v, r) ← json_value f s;
      match skip_ws r with
      | 44 :: r' => '(l, r'') ← json_items f (skip_ws r'); Some (v :: l, r'')
      | 93 :: r' => Some ([v], r')
      | _ => None
      end
  end
with json_pairs (fuel : nat) (s : pystr) (d : list (pystr * pyval))
    : option (list (pystr * pyval) * pystr) :=
  match fuel with
  | O => None
  | S f =>
      match s with
      | 34 :: r0 =>
          '(k, r1) ← json_string (S (length r0)) r0;
          match skip_ws r1 with
          | 58 :: r2 =>
              '(v, r3) ← json_value f (skip_ws r2);
              let d := dict_set k v d in
              match skip_ws r3 with
              | 44 :: r4 => json_pairs f (skip_ws r4) d
              | 125 :: r4 => Some (d, r4)
              | _ => None
              end
          | _ => None
          end
      | _ => None
      end
  end.

(** [None] is [json.JSONDecodeError], a ValueError. *)
Definition json_loads (s : pystr) : option pyval :=
  '(v, r) ← json_value (S (length s)) (skip_ws s);
  match skip_ws r with [] => Some v | _ => None end.

(** ** [json.loads] of bytes: the encoding is detected, then decoded with "surrogatepass" *)
(** UTF-8 with three-byte surrogates let through; [pre] is the text since the last one, reversed. *)
Fixpoint utf8_pass (pre l : bytes) : option pystr :=
  match l with
  | [] => utf8_decode_gen Strict (rev pre)
  | b0 :: l1 =>
      match l1 with
      | b1 :: b2 :: r =>
          if (b0 =? 237) && in_range 160 191 b1 && is_cont b2 then
            p ← utf8_decode_gen Strict (rev pre);
            t ← utf8_pass [] r;
            Some (p ++ (b0 - 224) * 4096 + (b1 - 128) * 64 + (b2 - 128) :: t)
          else utf8_pass (b0 :: pre) l1
      | _ => utf8_pass (b0 :: pre) l1
      end
  end.
Fixpoint utf16_units (big : bool) (l : bytes) : option (list Z) :=
  match l with
  | [] => Some []
  | a :: b :: r => cons (if big then a * 256 + b else b * 256 + a) <$> utf16_units big r
  | _ => None
  end.
Fixpoint join_surrogates (l : list Z) : pystr :=
  match l with
  | h :: t =>
      match t with
      | u :: r => if in_range 55296 56319 h && in_range 56320 57343 u
                  then 65536 + (h - 55296) * 1024 + (u - 56320) :: join_surrogates r
                  else h :: join_surrogates t
      | [] => [h]
      end
  | [] => []
  end.
Definition utf16_pass (big : bool) (l : bytes) : option pystr := join_surrogates <$> utf16_units big l.
Fixpoint utf32_pass (big : bool) (l : bytes) : option pystr :=
  match l with
  | [] => Some []
  | a :: b :: c :: d :: r =>
      let v := if big then ((a * 256 + b) * 256 + c) * 256 + d else ((d * 256 + c) * 256 + b) * 256 + a in
      if v <? 1114112 then cons v <$> utf32_pass big r else None
  | _ => None
  end.

Definition decode_detected (b : bytes) : option pystr :=
  match b with
  | 0 :: 0 :: 254 :: 255 :: r => utf32_pass true r
  | 255 :: 254 :: 0 :: 0 :: r => utf32_pass false r
  | 254 :: 255 :: r => utf16_pass true r
  | 255 :: 254 :: r => utf16_pass false r
  | 239 :: 187 :: 191 :: r => utf8_pass [] r
  | [b0; b1] =>
      if b0 =? 0 then utf16_pass true b else if b1 =? 0 then utf16_pass false b else utf8_pass [] b
  | b0 :: b1 :: b2 :: b3 :: _ =>
      if b0 =? 0 then (if b1 =? 0 then utf32_pass true b else utf16_pass true b)
      else if b1 =? 0 then (if (b2 =? 0) && (b3 =? 0) then utf32_pass false b else utf16_pass false b)
      else utf8_pass [] b
  | _ => utf8_pass [] b
  end.
(** [None] is a ValueError (UnicodeDecodeError or JSONDecodeError). *)
Definition json_loads_bytes (b : bytes) : option pyval := s ← decode_detected b; json_loads s.

(** ** Lemmas on dicts *)
Lemma assoc_dict_set {A} k k' (v : A) d :
  assoc k (dict_set k' v d) = if str_eqb k k' then Some v else assoc k d.
Proof.
  induction d as [|[q w] d IH]; simpl; [done|]. destruct (str_eqb k' q) eqn:E; simpl.
  - apply str_eqb_eq in E as ->. by destruct (str_eqb k q).
  - rewrite IH. destruct (str_eqb k q) eqn:E2; [|done]. apply str_eqb_eq in E2 as ->.
    destruct (str_eqb q k') eqn:E3; [|done]. apply str_eqb_eq in E3 as ->. by rewrite str_eqb_refl in E.
Qed.
Lemma str_eqb_neq s t : str_eqb s t = false ↔ s ≠ t.
Proof. apply bool_decide_eq_false. Qed.
Lemma assoc_dict_set_ne {A} k k' (v : A) d : k ≠ k' → assoc k (dict_set k' v d) = assoc k d.
Proof. intros H%str_eqb_neq. by rewrite assoc_dict_set, H. Qed.
Lemma assoc_dict_set_eq {A} k (v : A) d : assoc k (dict_set k v d) = Some v.
Proof. by rewrite assoc_dict_set, str_eqb_refl. Qed.
Lemma assoc_none {A} k (d : list (pystr * A)) : k ∉ d.*1 → assoc k d = None.
Proof.
  induction d as [|[q w] d IH]; simpl; [done|]. rewrite not_elem_of_cons. intros [Hq Hd].
  apply str_eqb_neq in Hq as ->. by apply IH.
Qed.

(** Assigning a list of pairs with distinct keys, in order. *)
Definition dict_update {A} (l : list (pystr * A)) (d : list (pystr * A)) : list (pystr * A) :=
  foldl (λ d '(k, v), dict_set k v d) d l.
Lemma assoc_dict_update {A} k (l d : list (pystr * A)) :
  NoDup l.*1 → assoc k (dict_update l d) = match assoc k l with Some v => Some v | None => assoc k d end.
Proof.
  revert d. induction l as [|[q w] l IH]; intros d Hnd; simpl; [done|].
  simpl in Hnd. apply NoDup_cons in Hnd as [Hq Hnd]. unfold dict_update in *. rewrite IH by done.
  destruct (str_eqb k q) eqn:E.
  - apply str_eqb_eq in E as ->. by rewrite assoc_none, assoc_dict_set_eq.
  - apply str_eqb_neq in E. by rewrite assoc_dict_set_ne.
Qed.

(** Filtering a list of pairs with distinct keys. *)
Lemma filter_keys {A} (P : pystr * A → bool) l k : k ∈ (List.filter P l).*1 → k ∈ l.*1.
Proof.
  intros ([k' a] & -> & H)%list_elem_of_fmap. apply list_elem_of_In, List.filter_In in H as [H _].
  apply list_elem_of_In in H. by apply (list_elem_of_fmap_2 fst) in H.
Qed.
Lemma filter_keys_nodup {A} (P : pystr * A → bool) l : NoDup l.*1 → NoDup (List.filter P l).*1.
Proof.
  induction l as [|[k a] l IH]; [done|]. cbn. intros [Hk Hnd]%NoDup_cons.
  destruct (P (k, a)); [|auto]. cbn. apply NoDup_cons. split; [|auto].
  intros H. by apply Hk, (filter_keys P).
Qed.
Lemma assoc_filter {A} (P : pystr * A → bool) l k a :
  NoDup l.*1 → (k, a) ∈ l → assoc k (List.filter P l) = if P (k, a) then Some a else None.
Proof.
  induction l as [|[k' a'] l IH]; [by intros _ ?%not_elem_of_nil|]. cbn.
  intros [Hk Hnd]%NoDup_cons [[= <- <-]|Hin]%elem_of_cons.
  - destruct (P (k, a)); cbn; [by rewrite str_eqb_refl|].
    apply assoc_none. intros H. by apply Hk, (filter_keys P).
  - assert (str_eqb k k' = false) as Ek.
    { apply str_eqb_neq. intros ->. apply Hk. by apply (list_elem_of_fmap_2 fst) in Hin. }
    destruct (P (k', a')); cbn; rewrite ?Ek; auto.
Qed.

(** ASCII text is decoded as itself. *)
Lemma utf8_gen_ascii l : Forall (λ c, 0 <= c < 128) l → utf8_decode_gen Strict l = Some l.
Proof.
  induction 1 as [|c l Hc _ IH]; [done|]. cbn [utf8_decode_gen].
  rewrite (proj2 (Z.ltb_lt c 128)) by lia. by rewrite IH.
Qed.
Lemma utf8_pass_ascii pre l :
  Forall (λ c, 0 <= c < 128) pre → Forall (λ c, 0 <= c < 128) l → utf8_pass pre l = Some (rev pre ++ l).
Proof.
  intros Hp Hl. revert pre Hp. induction Hl as [|c l Hc _ IH]; intros pre Hp; cbn [utf8_pass].
  - rewrite app_nil_r. by apply utf8_gen_ascii, Forall_rev.
  - assert (utf8_pass (c :: pre) l = Some (rev pre ++ c :: l)) as E.
    { rewrite IH by by constructor. cbn. by rewrite <- (assoc_L (++)). }
    destruct l as [|x [|y l]]; [done|done|]. by rewrite (proj2 (Z.eqb_neq c 237)) by lia.
Qed.
Lemma decode_detected_ascii c d e l :
  Forall (λ c, 0 < c < 128) (c :: d :: e :: l) → decode_detected (c :: d :: e :: l) = Some (c :: d :: e :: l).
Proof.
  intros H. pose proof H as [Hc [Hd _]%Forall_cons]%Forall_cons.
  trans (utf8_pass [] (c :: d :: e :: l));
    [|by rewrite utf8_pass_ascii; [|constructor|eapply Forall_impl; [exact H|cbn; lia]]].
  unfold decode_detected. rewrite (proj2 (Z.eqb_neq c 0)), (proj2 (Z.eqb_neq d 0)) by lia.
  destruct c as [|c|c]; [lia| |lia]. do 8 (try (destruct c as [c|c|]; try lia; try done)); by destruct l.
Qed.
