(* ===== verification/JsonOut.v ===== *)
(** * [json.dumps]: the printer of the standard library, and its round trip with the parser

    A style is the [ensure_ascii], [indent] and [separators] arguments of the call. The printed
    text of a value without floats is read back as the same value by [json_loads], whatever the
    style. *)
From S2P Require Import Prelude PyFloat PyStr PyVal IpAddr PyNum Json.
#[local] Open Scope Z_scope.

Record style := mkStyle {
  ensure_ascii : bool;
  indent : option nat;
  item_space : bool;       (* a space after the comma *)
  key_space : bool;        (* a space after the colon *)
}.
(** [json.dumps(v)] *)
Definition default_style : style := mkStyle true None true true.
(** [json.dumps(v, separators=(",", ":"))] *)
Definition compact : style := mkStyle true None false false.
(** [json.dumps(v, indent=2, ensure_ascii=False)] *)
Definition indented : style := mkStyle false (Some 2%nat) false true.

Definition hex4_text (v : Z) : pystr :=
  hex_char <$> [v / 4096 mod 16; v / 256 mod 16; v / 16 mod 16; v mod 16].
Definition u_escape (v : Z) : pystr := 92 :: 117 :: hex4_text v.

Definition short_escape (c : Z) : option Z :=
  if c =? 34 then Some 34 else if c =? 92 then Some 92 else if c =? 10 then Some 110
  else if c =? 13 then Some 114 else if c =? 9 then Some 116 else if c =? 12 then Some 102
  else if c =? 8 then Some 98 else None.

Definition escape (ascii : bool) (c : Z) : pystr :=
  match short_escape c with
  | Some e => [92; e]
  | None =>
      if (c <? 32) || (ascii && (126 <? c) && (c <? 65536)) then u_escape c
      else if ascii && (65536 <=? c)
      then u_escape (55296 + (c - 65536) / 1024) ++ u_escape (56320 + (c - 65536) mod 1024)
      else [c]
  end.
Definition quoted (st : style) (s : pystr) : pystr :=
  34 :: (s ≫= escape (ensure_ascii st)) ++ [34].

Definition json_float (x : pyfloat) : pystr :=
  match x with
  | SpecFloat.S754_nan => str "NaN"
  | SpecFloat.S754_infinity s => if s then str "-Infinity" else str "Infinity"
  | _ => str_of_float x
  end.

(** A new line at the nesting level, when indenting. *)
Definition newline (st : style) (lvl : nat) : pystr :=
  match indent st with Some k => 10 :: repeat 32 (k * lvl) | None => [] end.
Definition item_sep (st : style) : pystr := 44 :: (if item_space st then [32] else []).
Definition key_sep (st : style) : pystr := 58 :: (if key_space st then [32] else []).

Definition bracketed (st : style) (lvl : nat) (o c : Z) (items : list pystr) : pystr :=
  match items with
  | [] => [o; c]
  | _ => o :: newline st (S lvl) ++ join (item_sep st ++ newline st (S lvl)) items
           ++ newline st lvl ++ [c]
  end.

Fixpoint dumps (st : style) (lvl : nat) (v : pyval) : pystr :=
  match v with
  | VNone => str "null"
  | VBool b => if b then str "true" else str "false"
  | VInt z => str_of_Z z
  | VFloat f => json_float f
  | VStr s => quoted st s
  | VBytes _ => []
  | VList l => bracketed st lvl 91 93 (List.map (dumps st (S lvl)) l)
  | VDict d =>
      bracketed st lvl 123 125
        (List.map (λ kv, match kv with (k, v) => quoted st k ++ key_sep st ++ dumps st (S lvl) v end) d)
  end.

(** Only bytes are not JSON serializable. *)
Fixpoint serializable (v : pyval) : bool :=
  match v with
  | VBytes _ => false
  | VList l => forallb serializable l
  | VDict d => forallb (λ kv, match kv with (_, v) => serializable v end) d
  | _ => true
  end.
Definition json_dumps (st : style) (v : pyval) : res pystr :=
  if serializable v then Ok (dumps st 0 v)
  else raise TypeError "Object of type bytes is not JSON serializable".

(** [sort_keys=True]: the keys of every dict in code point order. *)
Fixpoint sort_keys (v : pyval) : pyval :=
  match v with
  | VList l => VList (List.map sort_keys l)
  | VDict d =>
      VDict (sort_by (λ a b, str_leb a.1 b.1)
               (List.map (λ kv, match kv with (k, v) => (k, sort_keys v) end) d))
  | _ => v
  end.

Example dumps_example :
  dumps default_style 0 (VDict [(str "exp", VInt 12); (str "u", VStr [233; 128512; 34]);
                                (str "l", VList [VNone; VInt (-3); VDict []])])
  = str "{" ++ [34] ++ str "exp" ++ [34] ++ str ": 12, " ++ [34] ++ str "u" ++ [34] ++ str ": "
    ++ [34] ++ str "\u00e9\ud83d\ude00\" ++ [34; 34] ++ str ", " ++ [34] ++ str "l" ++ [34]
    ++ str ": [null, -3, {}]}".
Proof. vm_compute. reflexivity. Qed.

(** ** Integers *)
Lemma digits_value_snoc b ds d : digits_value b (ds ++ [d]) = digits_value b ds * b + d.
Proof. unfold digits_value. by rewrite fold_left_app. Qed.

Lemma str_cons c s : str (String c s) = Z.of_nat (Ascii.nat_of_ascii c) :: str s.
Proof. done. Qed.
Lemma str_app a b : str (a +:+ b) = str a ++ str b.
Proof. induction a as [|c a IH]; [done|]. change (String c a +:+ b) with (String c (a +:+ b)). by rewrite !str_cons, IH. Qed.
Lemma str_digit d : (d < 10)%N → Z.of_nat (Ascii.nat_of_ascii (pretty_N_char d)) = Z.of_N d + 48.
Proof.
  intros Hd. assert (d = 0 ∨ d = 1 ∨ d = 2 ∨ d = 3 ∨ d = 4 ∨ d = 5 ∨ d = 6 ∨ d = 7 ∨ d = 8 ∨ d = 9)%N
    as H by lia. by repeat destruct H as [->|H]; subst.
Qed.

Definition is_dec (d : Z) : Prop := 0 <= d < 10.
(** No leading zero, unless the number is zero. *)
Definition canonical (ds : list Z) : Prop := ds = [0] ∨ ∃ d r, ds = d :: r ∧ 0 < d.

Lemma pretty_go_digits x s :
  (0 < x)%N →
  ∃ ds, str (pretty_N_go x s) = digit_chars ds ++ str s ∧ Forall is_dec ds
        ∧ digits_value 10 ds = Z.of_N x ∧ ∃ d r, ds = d :: r ∧ 0 < d.
Proof.
  revert s. induction (N.lt_wf_0 x) as [x _ IH]; intros s Hx.
  rewrite pretty_N_go_step by done.
  pose proof (N.mod_lt x 10 ltac:(done)) as Hm.
  destruct (decide (x < 10)%N) as [Hlt|Hge].
  - rewrite N.div_small, pretty_N_go_0, str_cons, str_digit, N.mod_small by done.
    exists [Z.of_N x]. split_and!; [done|by apply Forall_singleton; unfold is_dec; lia|cbn; lia|].
    eexists _, _. split; [done|lia].
  - destruct (IH (x / 10)%N) with (s := String (pretty_N_char (x mod 10)) s) as (ds & E & Hds & Hv & d & r & -> & Hd).
    { apply N.div_lt; lia. }
    { apply N.div_str_pos. lia. }
    exists ((d :: r) ++ [Z.of_N (x mod 10)]). split_and!.
    + rewrite E, str_cons, str_digit by done. unfold digit_chars. rewrite fmap_app, <- (assoc_L (++)). done.
    + apply Forall_app. split; [done|]. apply Forall_singleton. unfold is_dec. rewrite N2Z.inj_mod. dlia.
    + rewrite digits_value_snoc, Hv, N2Z.inj_mod, N2Z.inj_div. dlia.
    + by eexists _, _.
Qed.

Lemma str_pretty_pos p :
  ∃ ds, str (pretty p) = digit_chars ds ∧ Forall is_dec ds ∧ digits_value 10 ds = Zpos p ∧ canonical ds.
Proof.
  destruct (pretty_go_digits (Npos p) "" ltac:(done)) as (ds & E & H1 & H2 & H3).
  exists ds. change (pretty p) with (pretty_N_go (Npos p) ""). rewrite E, app_nil_r.
  split_and!; [done..|by right].
Qed.

Definition ends_number (rest : pystr) : Prop :=
  match rest with [] => True | c :: _ => is_digit c = false ∧ c ≠ 46 ∧ c ≠ 101 ∧ c ≠ 69 end.

Lemma is_digit_char d : is_dec d → is_digit (d + 48) = true.
Proof. unfold is_dec. intros ?. apply in_range_true. lia. Qed.
Lemma span_digits_app ds rest :
  Forall is_dec ds → match rest with [] => True | c :: _ => is_digit c = false end →
  span_digits (digit_chars ds ++ rest) = (digit_chars ds, rest).
Proof.
  intros Hds Hr. induction Hds as [|d ds Hd _ IH].
  - destruct rest as [|c rest]; [done|]. cbn. by rewrite Hr.
  - change (digit_chars (d :: ds)) with (d + 48 :: digit_chars ds). cbn [app span_digits].
    rewrite is_digit_char by done. by rewrite IH.
Qed.
Lemma undigit ds : (λ c, c - 48) <$> digit_chars ds = ds.
Proof. unfold digit_chars. induction ds as [|d ds IH]; cbn; [done|]. f_equal; [lia|done]. Qed.

Lemma json_tail rest : ends_number rest → json_frac rest = ([], rest) ∧ json_exp rest = (None, rest).
Proof.
  destruct rest as [|c rest]; [done|]. intros (_ & H1 & H2 & H3). unfold json_frac, json_exp.
  by rewrite (proj2 (Z.eqb_neq c 46)), (proj2 (Z.eqb_neq c 101)), (proj2 (Z.eqb_neq c 69)).
Qed.
Lemma json_sign_text (neg : bool) ds rest :
  Forall is_dec ds → ds ≠ [] →
  json_sign ((if neg then [45] else []) ++ digit_chars ds ++ rest) = (neg, digit_chars ds ++ rest).
Proof.
  intros [|d ds' Hd _] Hne; [done|]. destruct neg; [done|]. cbn. unfold is_dec in Hd.
  by rewrite (proj2 (Z.eqb_neq (d + 48) 45)) by lia.
Qed.
Lemma json_int_text ds rest :
  Forall is_dec ds → canonical ds → ends_number rest →
  json_int (digit_chars ds ++ rest) = (digit_chars ds, rest).
Proof.
  intros Hds [->|(d & r & -> & Hd)] Hr; [done|].
  rewrite <- (span_digits_app (d :: r) rest); [|done|by destruct rest; [|destruct Hr]].
  change (digit_chars (d :: r)) with (d + 48 :: digit_chars r). cbn [app json_int].
  by rewrite (proj2 (Z.eqb_neq (d + 48) 48)) by lia.
Qed.
Lemma json_number_digits (neg : bool) ds rest :
  Forall is_dec ds → canonical ds → ends_number rest →
  json_number ((if neg then [45] else []) ++ digit_chars ds ++ rest)
  = Some (VInt (signed neg (digits_value 10 ds)), rest).
Proof.
  intros Hds Hc Hr. assert (ds ≠ []) as Hne by by destruct Hc as [->|(? & ? & -> & ?)].
  destruct (json_tail rest Hr) as [Hf He].
  unfold json_number. rewrite json_sign_text, json_int_text, Hf, He by done.
  unfold text_value. rewrite undigit. by destruct ds.
Qed.

Lemma json_number_Z z rest :
  ends_number rest → json_number (str_of_Z z ++ rest) = Some (VInt z, rest).
Proof.
  intros Hr. unfold str_of_Z. destruct z as [|p|p].
  - apply (json_number_digits false [0] rest); [by apply Forall_singleton; unfold is_dec; lia|by left|done].
  - destruct (str_pretty_pos p) as (ds & E & H1 & H2 & H3).
    change (str (pretty (Z.pos p))) with (str (pretty p)). rewrite E.
    rewrite (json_number_digits false ds rest H1 H3 Hr : json_number (digit_chars ds ++ rest) = _).
    by rewrite H2.
  - destruct (str_pretty_pos p) as (ds & E & H1 & H2 & H3).
    change (pretty (Z.neg p)) with ("-" +:+ pretty p). rewrite str_app, E.
    rewrite (json_number_digits true ds rest H1 H3 Hr : json_number ((str "-" ++ digit_chars ds) ++ rest) = _).
    by rewrite H2.
Qed.

(** ** Floats

    A float whose printed text reads back as the same float; the check is a computation. *)
Definition float_reads (f : pyfloat) : bool :=
  match json_float f with
  | c :: r =>
      ((c =? 45) || is_digit c) &&
      match json_number (c :: r) with Some (VFloat g, []) => bool_decide (g = f) | _ => false end
  | [] => false
  end.

Definition closes (rest : pystr) : Prop :=
  match rest with [] => True | c :: _ => c ∈ [10; 32; 44; 93; 125] end.
Lemma closes_cases c rest (P : Z → Prop) :
  closes (c :: rest) → P 10 → P 32 → P 44 → P 93 → P 125 → P c.
Proof. cbn. rewrite !elem_of_cons, elem_of_nil. intros [->|[->|[->|[->|[->|[]]]]]]; done. Qed.
Lemma closes_ends rest : closes rest → ends_number rest.
Proof. destruct rest as [|c rest]; [done|]. intros H. unfold ends_number. pattern c. by apply (closes_cases c rest _ H). Qed.
Lemma closes_no_digit rest : closes rest → match rest with [] => True | c :: _ => is_digit c = false end.
Proof. intros H%closes_ends. by destruct rest; [|destruct H]. Qed.

Lemma span_digits_more l rest :
  closes rest → span_digits (l ++ rest) = let '(a, b) := span_digits l in (a, b ++ rest).
Proof.
  intros Hr. induction l as [|c l IH]; cbn.
  - pose proof (closes_no_digit rest Hr). destruct rest as [|c rest]; [done|]. cbn. by rewrite H.
  - destruct (is_digit c); [|done]. rewrite IH. by destruct (span_digits l).
Qed.
Lemma json_int_more s rest :
  s ≠ [] → closes rest → json_int (s ++ rest) = let '(a, b) := json_int s in (a, b ++ rest).
Proof.
  destruct s as [|c s]; [done|]. intros _ Hr. cbn [json_int app]. destruct (c =? 48); [done|].
  by apply (span_digits_more (c :: s)).
Qed.
Lemma json_frac_more s rest :
  closes rest → json_frac (s ++ rest) = let '(a, b) := json_frac s in (a, b ++ rest).
Proof.
  intros Hr. destruct s as [|c s]; cbn [json_frac app].
  - by destruct (json_tail rest (closes_ends rest Hr)).
  - destruct (c =? 46); [|done]. rewrite span_digits_more by done. by destruct (span_digits s) as [[] ?].
Qed.
Lemma take_sign_more s rest :
  closes rest → take_sign (s ++ rest) = let '(a, b) := take_sign s in (a, b ++ rest).
Proof.
  intros Hr. destruct s as [|c s]; cbn [take_sign app].
  - destruct rest as [|c rest]; [done|]. cbn [take_sign]. pattern c. by apply (closes_cases c rest _ Hr).
  - by destruct (c =? 45), (c =? 43).
Qed.
Lemma json_exp_more s rest :
  closes rest → json_exp (s ++ rest) = let '(a, b) := json_exp s in (a, b ++ rest).
Proof.
  intros Hr. destruct s as [|c s]; cbn [json_exp app].
  - by destruct (json_tail rest (closes_ends rest Hr)).
  - destruct ((c =? 101) || (c =? 69)); [|done]. rewrite take_sign_more by done.
    destruct (take_sign s) as [en ds]. rewrite span_digits_more by done.
    by destruct (span_digits ds) as [[] ?].
Qed.
(** A complete number is read the same in front of a closing character. *)
Lemma json_number_more s v rest :
  closes rest → json_number s = Some (v, []) → json_number (s ++ rest) = Some (v, rest).
Proof.
  intros Hr H. unfold json_number in *. destruct s as [|c s]; [done|].
  assert (json_sign ((c :: s) ++ rest) = let '(n, b) := json_sign (c :: s) in (n, b ++ rest)) as ->
    by (cbn; by destruct (c =? 45)).
  destruct (json_sign (c :: s)) as [neg body]. destruct body as [|x body]; [done|].
  rewrite json_int_more by done. destruct (json_int (x :: body)) as [ip r1].
  rewrite json_frac_more by done. destruct (json_frac r1) as [fp r2].
  rewrite json_exp_more by done. destruct (json_exp r2) as [ex r3].
  destruct ip; [done|]. destruct fp, ex; by injection H as <- ->.
Qed.

(** ** Strings *)
Lemma hex_digit_char d : 0 <= d < 16 → hex_digit (hex_char d) = Some d.
Proof.
  intros Hd. unfold hex_char, hex_digit. destruct (Z.ltb_spec d 10).
  - rewrite (in_range_true 48 57) by lia. f_equal. lia.
  - rewrite (in_range_false 48 57), (in_range_true 97 102) by lia. f_equal. lia.
Qed.
Lemma hex4_hex4_text v rest : 0 <= v < 65536 → hex4 (hex4_text v ++ rest) = Some (v, rest).
Proof.
  intros Hv. unfold hex4_text. cbn [fmap list_fmap app hex4 mapM].
  rewrite !hex_digit_char by (apply Z.mod_pos_bound; lia). cbn. do 2 f_equal.
  unfold digits_value. cbn. assert (v / 4096 mod 16 = v / 4096) as -> by (apply Z.mod_small; dlia).
  replace (v / 4096) with (v / 16 / 16 / 16) by (rewrite !Z.div_div by lia; done).
  replace (v / 256) with (v / 16 / 16) by (rewrite !Z.div_div by lia; done). dlia.
Qed.

(** One printed character is read back as that character. *)
Lemma json_string_escape f b c s :
  is_cp c → json_string (S f) (escape b c ++ s) = '(t, r) ← json_string f s; Some (c :: t, r).
Proof.
  intros [Hc Hs]. unfold is_surrogate, in_range in Hs. apply andb_false_iff in Hs. rewrite !Z.leb_gt in Hs.
  unfold escape, short_escape.
  repeat match goal with |- context [c =? ?k] => destruct (Z.eqb_spec c k) as [->|]; [done|] end.
  destruct ((c <? 32) || (b && (126 <? c) && (c <? 65536))) eqn:E1.
  - assert (c < 65536) by (zbool; destruct E1; zbool; lia).
    unfold u_escape. cbn [app json_string]. cbn [Z.eqb Z.ltb Z.compare Pos.compare Pos.compare_cont Pos.eqb].
    rewrite hex4_hex4_text by lia. cbn [mbind option_bind].
    rewrite (in_range_false 55296 56319) by lia. done.
  - zbool. destruct (b && (65536 <=? c)) eqn:E2.
    + zbool. unfold u_escape. cbn [app]. rewrite <- (assoc_L (++)). cbn [app json_string].
      cbn [Z.eqb Z.ltb Z.compare Pos.compare Pos.compare_cont Pos.eqb].
      rewrite hex4_hex4_text by dlia. cbn [mbind option_bind].
      rewrite (in_range_true 55296 56319) by dlia.
      rewrite hex4_hex4_text by dlia. rewrite (in_range_true 56320 57343) by dlia.
      replace (65536 + _ * 1024 + _) with c by dlia. done.
    + cbn [app json_string]. rewrite (proj2 (Z.eqb_neq c 34)), (proj2 (Z.eqb_neq c 92)) by done.
      rewrite (proj2 (Z.ltb_ge c 32)) by lia. done.
Qed.

Lemma escape_nonempty b c : (1 <= length (escape b c))%nat.
Proof. unfold escape. repeat case_match; cbn; lia. Qed.

Lemma json_string_text b s rest fuel :
  Forall is_cp s → (length (s ≫= escape b) < fuel)%nat →
  json_string fuel ((s ≫= escape b) ++ 34 :: rest) = Some (s, rest).
Proof.
  intros Hs. revert fuel. induction Hs as [|c s Hc _ IH]; intros fuel Hf.
  - destruct fuel; [lia|]. done.
  - destruct fuel as [|fuel]; [lia|]. rewrite bind_cons, length_app in Hf. rewrite bind_cons.
    pose proof (escape_nonempty b c).
    rewrite <- (assoc_L (++)), json_string_escape by done. rewrite IH by lia. done.
Qed.

Lemma json_string_quoted st s rest :
  Forall is_cp s →
  ∃ r, quoted st s ++ rest = 34 :: r ∧ json_string (S (length r)) r = Some (s, rest).
Proof.
  intros Hs. exists ((s ≫= escape (ensure_ascii st)) ++ 34 :: rest). split.
  - unfold quoted. cbn [app]. by rewrite <- (assoc_L (++)).
  - apply json_string_text; [done|]. rewrite length_app. lia.
Qed.

(** ** Values *)
Section pyval_ind.
Context (P : pyval → Prop).
Context (Hnone : P VNone) (Hbool : ∀ b, P (VBool b)) (Hint : ∀ z, P (VInt z)) (Hfloat : ∀ f, P (VFloat f))
  (Hstr : ∀ s, P (VStr s)) (Hbytes : ∀ b, P (VBytes b))
  (Hlist : ∀ l, Forall P l → P (VList l)) (Hdict : ∀ d, Forall (λ kv, P kv.2) d → P (VDict d)).
(** Induction through the lists and dicts of a value. *)
Fixpoint pyval_deep_ind (v : pyval) : P v :=
  match v with
  | VNone => Hnone
  | VBool b => Hbool b
  | VInt z => Hint z
  | VFloat f => Hfloat f
  | VStr s => Hstr s
  | VBytes b => Hbytes b
  | VList l => Hlist l ((fix go l : Forall P l :=
      match l with [] => Forall_nil_2 _ | x :: l' => Forall_cons_2 _ _ _ (pyval_deep_ind x) (go l') end) l)
  | VDict d => Hdict d ((fix go d : Forall (λ kv, P kv.2) d :=
      match d with [] => Forall_nil_2 _ | x :: d' => Forall_cons_2 _ _ _ (pyval_deep_ind x.2) (go d') end) d)
  end.
End pyval_ind.

(** Values JSON carries exactly: floats that print readably, distinct keys, real characters. *)
Fixpoint plain (v : pyval) : bool :=
  match v with
  | VNone | VBool _ | VInt _ => true
  | VFloat f => float_reads f
  | VBytes _ => false
  | VStr s => bool_decide (Forall is_cp s)
  | VList l => forallb plain l
  | VDict d =>
      bool_decide (NoDup d.*1) &&
      forallb (λ kv, match kv with (k, v) => bool_decide (Forall is_cp k) && plain v end) d
  end.

(** The first character of a printed value is not white space and not a closing bracket. *)
Definition opens (s : pystr) : Prop :=
  ∃ c r, s = c :: r ∧ json_ws c = false ∧ c ≠ 93 ∧ c ≠ 125.
Lemma opens_app s k : opens s → opens (s ++ k).
Proof. intros (c & r & -> & ?). by eexists c, (r ++ k). Qed.
Lemma bracketed_opens st lvl o c items :
  json_ws o = false → o ≠ 93 → o ≠ 125 → opens (bracketed st lvl o c items).
Proof. intros. unfold bracketed. destruct items; by eexists o, _. Qed.
Lemma str_of_Z_head z : ∃ c r, str_of_Z z = c :: r ∧ (c = 45 ∨ is_digit c = true).
Proof.
  unfold str_of_Z. destruct z as [|p|p]; [by eexists _, _; split; [done|right]| |].
  - destruct (str_pretty_pos p) as (ds & E & H1 & _ & H3). change (pretty (Z.pos p)) with (pretty p).
    rewrite E. destruct H1 as [|d ds Hd _]; [by destruct H3 as [?|(? & ? & ? & ?)]|].
    eexists _, _. split; [done|]. right. by apply is_digit_char.
  - eexists _, _. split; [done|]. by left.
Qed.
Lemma number_head_opens c r : (c = 45 ∨ is_digit c = true) → opens (c :: r).
Proof.
  intros [->|Hc]; eexists _, _; (split; [done|]); [done|].
  unfold is_digit, in_range in Hc. zbool. unfold json_ws. rewrite !orb_false_iff, !Z.eqb_neq. lia.
Qed.
Lemma float_reads_text f :
  float_reads f = true →
  ∃ c r, json_float f = c :: r ∧ (c = 45 ∨ is_digit c = true) ∧ json_number (c :: r) = Some (VFloat f, []).
Proof.
  unfold float_reads. destruct (json_float f) as [|c r]; [done|].
  intros [Hc Hn]%andb_true_iff. exists c, r. split_and!; [done| |].
  - apply orb_true_iff in Hc as [Hc|Hc]; zbool; auto.
  - destruct (json_number (c :: r)) as [[[| | |g| | | |] []]|]; try done.
    by apply bool_decide_eq_true in Hn as ->.
Qed.
Lemma dumps_opens st lvl v : plain v = true → opens (dumps st lvl v).
Proof.
  destruct v as [|[]|z|f|s| |l|d]; try done; intros Hp; cbn [dumps];
    try (by eexists _, _; split; [done|]); try (by apply bracketed_opens).
  - destruct (str_of_Z_head z) as (c & r & -> & Hc). by apply number_head_opens.
  - destruct (float_reads_text f Hp) as (c & r & -> & Hc & _). by apply number_head_opens.
Qed.

Lemma skip_opens s : opens s → skip_ws s = s.
Proof. intros (c & r & -> & H & _). unfold skip_ws. cbn. by rewrite H. Qed.
Lemma skip_ws_app w s : forallb json_ws w = true → skip_ws (w ++ s) = skip_ws s.
Proof. unfold skip_ws. induction w as [|c w IH]; cbn; [done|]. intros [-> H]%andb_true_iff. by apply IH. Qed.
Lemma newline_ws st lvl : forallb json_ws (newline st lvl) = true.
Proof.
  unfold newline. destruct (indent st) as [k|]; [|done]. cbn. by induction (k * lvl)%nat.
Qed.

Ltac not_char c := destruct c as [|c|c]; [done| |done]; do 8 (try (destruct c as [c|c|]; try done)).

Lemma json_value_list f r s :
  skip_ws r = s → opens s → json_value (S f) (91 :: r) = '(l, r') ← json_items f s; Some (VList l, r').
Proof.
  intros Es (c & k & -> & _ & Hc & _). cbn [json_value]. cbn [Z.eqb Pos.eqb].
  rewrite Es. not_char c.
Qed.
Lemma json_value_dict f r s :
  skip_ws r = s → opens s → json_value (S f) (123 :: r) = '(d, r') ← json_pairs f s []; Some (VDict d, r').
Proof.
  intros Es (c & k & -> & _ & _ & Hc). cbn [json_value]. cbn [Z.eqb Pos.eqb].
  rewrite Es. not_char c.
Qed.

Lemma join_cons sep x y (l : list pystr) : join sep (x :: y :: l) = x ++ sep ++ join sep (y :: l).
Proof. unfold join. cbn. by rewrite <- (assoc_L (++)). Qed.
Lemma join_opens sep x l : opens x → opens (join sep (x :: l)).
Proof. intros H. by apply opens_app. Qed.
Lemma closes_newline st lvl c rest : c ∈ [93; 125] → closes (newline st lvl ++ c :: rest).
Proof. intros H. unfold newline. destruct (indent st); cbn in *; set_solver. Qed.
Lemma closes_item st rest : closes (item_sep st ++ rest).
Proof. cbn. set_solver. Qed.
(** White space before a non-blank character is skipped. *)
Lemma skip_newline st lvl c rest : json_ws c = false → skip_ws (newline st lvl ++ c :: rest) = c :: rest.
Proof. intros H. rewrite skip_ws_app by apply newline_ws. unfold skip_ws. cbn. by rewrite H. Qed.
Lemma skip_item st lvl s :
  opens s → skip_ws ((if item_space st then [32] else []) ++ newline st lvl ++ s) = s.
Proof.
  intros H. rewrite skip_ws_app by by destruct (item_space st).
  rewrite skip_ws_app by apply newline_ws. by apply skip_opens.
Qed.

Section roundtrip.
Context (st : style).

(** [v] is read back wherever it is printed. *)
Definition reads_back (v : pyval) : Prop := ∀ lvl rest fuel,
  plain v = true → closes rest → (length (dumps st lvl v) <= fuel)%nat →
  json_value fuel (dumps st lvl v ++ rest) = Some (v, rest).

Lemma json_items_text lvl lvl' l v rest fuel :
  Forall reads_back (v :: l) → forallb plain (v :: l) = true →
  (length (join (item_sep st ++ newline st lvl) (List.map (dumps st lvl) (v :: l))
           ++ newline st lvl' ++ [93%Z]) <= fuel)%nat →
  json_items fuel (join (item_sep st ++ newline st lvl) (List.map (dumps st lvl) (v :: l))
                   ++ newline st lvl' ++ 93 :: rest) = Some (v :: l, rest).
Proof.
  revert v fuel. induction l as [|w l IH]; intros v fuel [Hv Hl]%Forall_cons Hp Hf;
    (destruct fuel as [|fuel]; [rewrite !length_app in Hf; cbn in Hf; lia|]); cbn [json_items];
    apply andb_true_iff in Hp as [Hpv Hpl].
  - cbn [List.map join] in *. change ([] ≫= _) with (@nil Z) in *. rewrite app_nil_r in *.
    rewrite !length_app in Hf. cbn in Hf.
    rewrite Hv; [|done|by apply closes_newline; set_solver|lia]. cbn [mbind option_bind].
    by rewrite skip_newline.
  - cbn [List.map] in *. rewrite join_cons in *. rewrite !length_app in Hf.
    assert (1 <= length (item_sep st))%nat by (cbn; lia).
    rewrite <- !(assoc_L (++)). rewrite Hv; [|done|apply closes_item|lia]. cbn [mbind option_bind].
    unfold item_sep at 1. cbn [app]. unfold skip_ws at 1. cbn [lstrip_by json_ws Z.eqb Pos.eqb orb].
    rewrite skip_item.
    + rewrite (IH w fuel); [done|done|done|]. rewrite !length_app. cbn in *. lia.
    + apply opens_app, join_opens, dumps_opens. cbn in Hpl. by apply andb_true_iff in Hpl as [? _].
Qed.

Definition member_text (lvl : nat) (kv : pystr * pyval) : pystr :=
  match kv with (k, v) => quoted st k ++ key_sep st ++ dumps st lvl v end.
Definition plain_member (kv : pystr * pyval) : bool :=
  match kv with (k, v) => bool_decide (Forall is_cp k) && plain v end.

Lemma member_opens lvl kv : opens (member_text lvl kv).
Proof. destruct kv as [k v]. by eexists 34, _. Qed.

(** A key and its value, up to what follows them. *)
Lemma json_member_text lvl k v rest fuel d :
  reads_back v → plain_member (k, v) = true → closes rest →
  (length (member_text lvl (k, v)) <= fuel)%nat →
  json_pairs (S fuel) (member_text lvl (k, v) ++ rest) d
  = match skip_ws rest with
    | 44 :: r => json_pairs fuel (skip_ws r) (dict_set k v d)
    | 125 :: r => Some (dict_set k v d, r)
    | _ => None
    end.
Proof.
  intros Hv [Hk%bool_decide_eq_true Hp]%andb_true_iff Hr Hf. cbn [member_text] in *.
  rewrite <- !(assoc_L (++)).
  destruct (json_string_quoted st k (key_sep st ++ dumps st lvl v ++ rest) Hk) as (r & Er & Es).
  rewrite Er. cbn [json_pairs]. rewrite Es. cbn [mbind option_bind].
  unfold key_sep at 1. cbn [app]. unfold skip_ws at 1. cbn [lstrip_by json_ws Z.eqb Pos.eqb orb].
  rewrite skip_ws_app by by destruct (key_space st).
  rewrite skip_opens by by apply opens_app, dumps_opens.
  rewrite !length_app in Hf. rewrite Hv by (done || lia). done.
Qed.

Lemma dict_set_new {A} k (v : A) d : k ∉ d.*1 → dict_set k v d = d ++ [(k, v)].
Proof.
  induction d as [|[q w] d IH]; [done|]. cbn. rewrite not_elem_of_cons. intros [Hq Hd].
  apply str_eqb_neq in Hq as ->. by rewrite IH.
Qed.

Lemma json_pairs_text lvl lvl' l kv rest fuel d0 :
  Forall (λ kv, reads_back kv.2) (kv :: l) → forallb plain_member (kv :: l) = true →
  NoDup (d0 ++ kv :: l).*1 →
  (length (join (item_sep st ++ newline st lvl) (List.map (member_text lvl) (kv :: l))
           ++ newline st lvl' ++ [125%Z]) <= fuel)%nat →
  json_pairs fuel (join (item_sep st ++ newline st lvl) (List.map (member_text lvl) (kv :: l))
                   ++ newline st lvl' ++ 125 :: rest) d0 = Some (d0 ++ kv :: l, rest).
Proof.
  revert kv d0 fuel. induction l as [|w l IH]; intros kv d0 fuel [Hv Hl]%Forall_cons Hp Hnd Hf;
    (destruct fuel as [|fuel]; [rewrite !length_app in Hf; cbn in Hf; lia|]);
    apply andb_true_iff in Hp as [Hpv Hpl]; destruct kv as [k v];
    assert (k ∉ d0.*1) as Hk by (rewrite fmap_app, NoDup_app in Hnd; set_solver).
  - cbn [List.map join] in *. change ([] ≫= _) with (@nil Z) in *. rewrite app_nil_r in *.
    rewrite !length_app in Hf. cbn [length] in Hf.
    rewrite json_member_text; [|done|done|by apply closes_newline; set_solver|lia].
    rewrite skip_newline by done. by rewrite dict_set_new.
  - cbn [List.map] in *. rewrite join_cons in *. rewrite !length_app in Hf.
    assert (1 <= length (item_sep st))%nat by (cbn; lia).
    rewrite <- !(assoc_L (++)). rewrite json_member_text; [|done|done|apply closes_item|lia].
    unfold item_sep at 1. cbn [app]. unfold skip_ws at 1. cbn [lstrip_by json_ws Z.eqb Pos.eqb orb].
    rewrite skip_item by apply opens_app, join_opens, member_opens.
    rewrite dict_set_new by done. rewrite (IH w (d0 ++ [(k, v)]) fuel); [|done|done| |].
    + by rewrite <- (assoc_L (++)).
    + by rewrite <- (assoc_L (++)).
    + rewrite !length_app. cbn [length] in *. lia.
Qed.

Lemma bracketed_length st' lvl o c x l :
  length (bracketed st' lvl o c (x :: l))
  = S (length (newline st' (S lvl)) + length (join (item_sep st' ++ newline st' (S lvl)) (x :: l)
       ++ newline st' lvl ++ [c])).
Proof. unfold bracketed. cbn [length]. by rewrite !length_app. Qed.

(** A number is tried after the three names, which start with letters. *)
Lemma json_value_number fuel c r v :
  (c = 45 ∨ is_digit c = true) → json_number (c :: r.1) = Some (v, r.2) →
  json_value (S fuel) (c :: r.1) = Some (v, r.2).
Proof.
  intros Hc Hn. assert (∀ k, k ≠ 45 → is_digit k = false → c =? k = false) as Hne.
  { intros k H1 H2. apply Z.eqb_neq. intros ->. destruct Hc; congruence. }
  cbn [json_value]. rewrite (Hne 34), (Hne 91), (Hne 123) by done.
  unfold strip_prefix. cbn [is_prefix str fmap list_fmap String.list_ascii_of_string].
  rewrite !(Z.eqb_sym _ c), !Hne by done. cbn [andb]. by rewrite Hn.
Qed.

Lemma reads_back_all v : reads_back v.
Proof.
  induction v as [| | | | | |l IH|d IH] using pyval_deep_ind; intros lvl rest fuel Hp Hr Hf; try done.
  - destruct fuel; [cbn in Hf; lia|]. done.
  - destruct fuel; [destruct b; cbn in Hf; lia|]. by destruct b.
  - cbn [dumps] in *. destruct (str_of_Z_head z) as (c & r & E & Hc).
    destruct fuel; [rewrite E in Hf; cbn in Hf; lia|].
    pose proof (json_number_Z z rest (closes_ends rest Hr)) as Hn. rewrite E in *.
    by apply (json_value_number fuel c (r ++ rest, rest)).
  - cbn [dumps] in *. destruct (float_reads_text f Hp) as (c & r & E & Hc & Hn).
    rewrite E in *. destruct fuel; [cbn in Hf; lia|].
    apply (json_value_number fuel c (r ++ rest, rest)); [done|]. by apply (json_number_more (c :: r)).
  - cbn [dumps] in *. destruct fuel; [cbn in Hf; lia|]. cbn in Hp. apply bool_decide_eq_true in Hp.
    destruct (json_string_quoted st s rest Hp) as (r & Er & Es). rewrite Er. cbn [json_value Z.eqb Pos.eqb].
    by rewrite Es.
  - cbn [dumps] in *. destruct l as [|x l].
    { destruct fuel; [cbn in Hf; lia|]. done. }
    cbn [List.map] in *. rewrite bracketed_length in Hf. destruct fuel as [|fuel]; [lia|].
    unfold bracketed. cbn [app]. rewrite <- !(assoc_L (++)). cbn [app].
    rewrite (json_value_list fuel _ (join (item_sep st ++ newline st (S lvl)) (List.map (dumps st (S lvl)) (x :: l))
                                      ++ newline st lvl ++ 93 :: rest)).
    + rewrite json_items_text; [done|done|done|]. cbn [List.map]. lia.
    + rewrite skip_ws_app by apply newline_ws. by apply skip_opens, opens_app, join_opens, dumps_opens;
        cbn in Hp; apply andb_true_iff in Hp as [? _].
    + apply opens_app, join_opens, dumps_opens. cbn in Hp. by apply andb_true_iff in Hp as [? _].
  - cbn [dumps] in *. destruct d as [|x d].
    { destruct fuel; [cbn in Hf; lia|]. done. }
    change (λ kv : pystr * pyval, match kv with (k, v) => quoted st k ++ key_sep st ++ dumps st (S lvl) v end)
      with (member_text (S lvl)) in *.
    cbn [List.map] in *. rewrite bracketed_length in Hf. destruct fuel as [|fuel]; [lia|].
    unfold bracketed. cbn [app]. rewrite <- !(assoc_L (++)). cbn [app].
    change (plain (VDict (x :: d))) with (bool_decide (NoDup (x :: d).*1) && forallb plain_member (x :: d)) in Hp.
    apply andb_true_iff in Hp as [Hnd%bool_decide_eq_true Hp].
    rewrite (json_value_dict fuel _ (join (item_sep st ++ newline st (S lvl)) (List.map (member_text (S lvl)) (x :: d))
                                      ++ newline st lvl ++ 125 :: rest)).
    + rewrite json_pairs_text; [done|done|done|done|]. cbn [List.map]. lia.
    + rewrite skip_ws_app by apply newline_ws. by apply skip_opens, opens_app, join_opens, member_opens.
    + by apply opens_app, join_opens, member_opens.
Qed.

(** Every plain value is read back from its printed text, in every style. *)
Lemma json_roundtrip v : plain v = true → json_loads (dumps st 0 v) = Some v.
Proof.
  intros Hp. unfold json_loads. rewrite skip_opens by by apply dumps_opens.
  pose proof (reads_back_all v 0%nat [] (S (length (dumps st 0 v))) Hp) as H.
  rewrite app_nil_r in H. rewrite H; [done|done|lia].
Qed.
End roundtrip.
