(* ===== verification/Base64.v ===== *)
(** * URL-safe base64 without padding (the codec of session tokens, app/web/auth.py)

    [urlsafe_b64encode] and [a2b] are the standard library's encoder and its lenient decoder, which
    skips characters outside the alphabet and stops at a complete padding. *)
From S2P Require Import Prelude PyStr.
#[local] Open Scope Z_scope.

Definition b64_char (i : Z) : Z :=
  if i <? 26 then 65 + i else if i <? 52 then 71 + i else if i <? 62 then i - 4
  else if i =? 62 then 45 else 95.
(** After [-_] were translated to [+/], so both spellings are accepted. *)
Definition b64_value (c : Z) : option Z :=
  if in_range 65 90 c then Some (c - 65)
  else if in_range 97 122 c then Some (c - 71)
  else if in_range 48 57 c then Some (c + 4)
  else if (c =? 45) || (c =? 43) then Some 62
  else if (c =? 95) || (c =? 47) then Some 63
  else None.

Fixpoint urlsafe_b64encode (l : bytes) : bytes :=
  match l with
  | a :: b :: c :: r =>
      b64_char (a / 4) :: b64_char (a mod 4 * 16 + b / 16) :: b64_char (b mod 16 * 4 + c / 64)
      :: b64_char (c mod 64) :: urlsafe_b64encode r
  | [a; b] => [b64_char (a / 4); b64_char (a mod 4 * 16 + b / 16); b64_char (b mod 16 * 4); 61]
  | [a] => [b64_char (a / 4); b64_char (a mod 4 * 16); 61; 61]
  | [] => []
  end.

(** [binascii.a2b_base64]: the position in the quad, the bits left over and the padding seen. *)
Fixpoint a2b (quad left pads : Z) (s : bytes) : option bytes :=
  match s with
  | [] => if quad =? 0 then Some [] else None
  | c :: s' =>
      if c =? 61 then
        if 2 <=? quad then
          if 4 <=? quad + (pads + 1) then Some [] else a2b quad left (pads + 1) s'
        else a2b quad left pads s'
      else
        match b64_value c with
        | None => a2b quad left pads s'
        | Some v =>
            if quad =? 0 then a2b 1 v 0 s'
            else if quad =? 1 then cons (left * 4 + v / 16) <$> a2b 2 (v mod 16) 0 s'
            else if quad =? 2 then cons (left * 16 + v / 4) <$> a2b 3 (v mod 4) 0 s'
            else cons (left * 64 + v) <$> a2b 0 0 0 s'
        end
  end.

Definition is_ascii (s : pystr) : bool := forallb (λ c, c <? 128) s.

(** [_b64e] and [_b64d] of auth.py; binascii.Error is a ValueError. *)
Definition _b64e (data : bytes) : pystr := rstrip_by (Z.eqb 61) (urlsafe_b64encode data).
Definition _b64d (s : pystr) : res bytes :=
  let s := s ++ repeat 61 (Z.to_nat ((- zlen s) mod 4)) in
  if negb (is_ascii s) then raise ValueError "string argument should contain only ASCII characters"
  else match a2b 0 0 0 s with Some b => Ok b | None => raise ValueError "Incorrect padding" end.

(** ** Round trip *)
Lemma b64_value_char i : 0 <= i < 64 → b64_value (b64_char i) = Some i ∧ b64_char i ≠ 61 ∧ 0 <= b64_char i < 128.
Proof.
  intros Hi. unfold b64_char.
  destruct (Z.ltb_spec i 26); [|destruct (Z.ltb_spec i 52); [|destruct (Z.ltb_spec i 62); [|destruct (Z.eqb_spec i 62)]]];
    unfold b64_value; (split; [|lia]).
  - rewrite (in_range_true 65 90) by lia. f_equal. lia.
  - rewrite (in_range_false 65 90), (in_range_true 97 122) by lia. f_equal. lia.
  - rewrite (in_range_false 65 90), (in_range_false 97 122), (in_range_true 48 57) by lia. f_equal. lia.
  - subst. done.
  - assert (i = 63) as -> by lia. done.
Qed.

(** Reading one character of the alphabet. *)
Lemma a2b_step quad left pads i s :
  0 <= i < 64 →
  a2b quad left pads (b64_char i :: s)
  = if quad =? 0 then a2b 1 i 0 s
    else if quad =? 1 then cons (left * 4 + i / 16) <$> a2b 2 (i mod 16) 0 s
    else if quad =? 2 then cons (left * 16 + i / 4) <$> a2b 3 (i mod 4) 0 s
    else cons (left * 64 + i) <$> a2b 0 0 0 s.
Proof.
  intros Hi. destruct (b64_value_char i Hi) as (Hv & Hn & _). cbn [a2b].
  by rewrite (proj2 (Z.eqb_neq _ _) Hn), Hv.
Qed.

Lemma bytes_ind3 (P : bytes → Prop) :
  P [] → (∀ a, P [a]) → (∀ a b, P [a; b]) → (∀ a b c l, P l → P (a :: b :: c :: l)) → ∀ l, P l.
Proof.
  intros H0 H1 H2 H3. fix IH 1. intros [|a [|b [|c l]]]; [done|apply H1|apply H2|]. apply H3, IH.
Qed.

Lemma a2b_encode l : is_bytes l → a2b 0 0 0 (urlsafe_b64encode l) = Some l.
Proof.
  induction l as [|a|a b|a b c l IH] using bytes_ind3; intros Hl; [done|..];
    unfold is_bytes, is_byte in *; repeat match goal with H : Forall _ (_ :: _) |- _ => apply Forall_cons in H as [? H] end;
    cbn [urlsafe_b64encode]; repeat (rewrite a2b_step by dlia; cbn [Z.eqb Pos.eqb]).
  - change (a2b 2 _ 0 [61; 61]) with (Some (@nil Z)). cbn [fmap option_fmap option_map]. do 2 f_equal. dlia.
  - change (a2b 3 _ 0 [61]) with (Some (@nil Z)). cbn [fmap option_fmap option_map].
    f_equal. f_equal; [dlia|]. f_equal. dlia.
  - rewrite IH by done. cbn [fmap option_fmap option_map].
    f_equal. f_equal; [dlia|]. f_equal; [dlia|]. f_equal. dlia.
Qed.

(** The encoding is its alphabet characters and the padding that completes the last quad. *)
Lemma encode_shape l :
  is_bytes l → ∃ core, urlsafe_b64encode l = core ++ repeat 61 (Z.to_nat ((- zlen core) mod 4))
                       ∧ Forall (λ c, ∃ i, 0 <= i < 64 ∧ c = b64_char i) core.
Proof.
  assert (∀ i, 0 <= i < 64 → ∃ j, 0 <= j < 64 ∧ b64_char i = b64_char j) as Hc by eauto.
  induction l as [|a|a b|a b c l IH] using bytes_ind3; intros Hl; [by exists []|..];
    unfold is_bytes, is_byte in *; repeat match goal with H : Forall _ (_ :: _) |- _ => apply Forall_cons in H as [? H] end;
    cbn [urlsafe_b64encode].
  - exists [b64_char (a / 4); b64_char (a mod 4 * 16)]. split; [done|].
    repeat constructor; apply Hc; dlia.
  - exists [b64_char (a / 4); b64_char (a mod 4 * 16 + b / 16); b64_char (b mod 16 * 4)]. split; [done|].
    repeat constructor; apply Hc; dlia.
  - destruct (IH Hl) as (core & E & Hcore). rewrite E.
    exists (b64_char (a / 4) :: b64_char (a mod 4 * 16 + b / 16) :: b64_char (b mod 16 * 4 + c / 64)
            :: b64_char (c mod 64) :: core). split.
    + cbn [app]. do 5 f_equal. f_equal. rewrite !zlen_cons.
      replace (- (1 + (1 + (1 + (1 + zlen core))))) with (- zlen core + (-1) * 4) by lia.
      by rewrite Z.mod_add.
    + repeat (constructor; [apply Hc; dlia|]). done.
Qed.

Lemma rstrip_repeat p s k c : p c = true → (∀ r x, s = r ++ [x] → p x = false) → rstrip_by p (s ++ repeat c k) = s.
Proof.
  intros Hp Hs. induction k as [|k IH]; [rewrite app_nil_r; by apply rstrip_by_id|].
  replace (repeat c (S k)) with (repeat c k ++ [c]) by (by rewrite <- repeat_cons).
  rewrite (assoc_L (++)). unfold rstrip_by in *. rewrite rev_app_distr. cbn. by rewrite Hp.
Qed.

(** Decoding what was encoded; an encoding has no dot, so tokens split back. *)
Lemma b64_roundtrip l :
  is_bytes l → _b64d (_b64e l) = Ok l ∧ is_ascii (_b64e l) = true ∧ Forall (λ c, c ≠ 46) (_b64e l).
Proof.
  intros Hl. destruct (encode_shape l Hl) as (core & E & Hcore).
  assert (_b64e l = core) as ->.
  { unfold _b64e. rewrite E. apply rstrip_repeat; [done|]. intros r x ->.
    apply Forall_app in Hcore as [_ (i & Hi & ->)%Forall_singleton].
    destruct (b64_value_char i Hi) as (_ & Hn & _). apply Z.eqb_neq. congruence. }
  assert (is_ascii core = true) as Ha.
  { apply forallb_forall. intros c Hin%list_elem_of_In. rewrite Forall_forall in Hcore.
    destruct (Hcore c Hin) as (i & Hi & ->). destruct (b64_value_char i Hi). apply Z.ltb_lt. lia. }
  split_and!; [|done|].
  - unfold _b64d. rewrite <- E, a2b_encode by done. rewrite E. unfold is_ascii in *. rewrite forallb_app, Ha.
    assert (∀ k, forallb (λ c, c <? 128) (repeat 61 k) = true) as -> by (induction k; done). done.
  - eapply Forall_impl; [exact Hcore|]. intros c (i & Hi & ->) Hd. destruct (b64_value_char i Hi) as (Hv & _).
    rewrite Hd in Hv. done.
Qed.
