(* ===== verification/Modbus.v ===== *)
(** * Modbus framing (app/engine/modbus.py)

    The RTU and TCP envelopes, the request PDU builders, response checks, and the register
    value codec. Byte strings are [bytes]; a builder that can raise returns [res]. *)
From Stdlib Require Import SpecFloat.
From S2P Require Import Prelude PyFloat PyStr PyVal.
#[local] Open Scope Z_scope.

Definition MBAP_LEN : Z := 7.
Definition MAX_PDU : Z := 253.
Definition READ_HOLDING : Z := 3.
Definition READ_INPUT : Z := 4.

(** ** Framing *)
Definition crc_step (crc : Z) : Z :=
  if Z.odd crc then Z.lxor (Z.shiftr crc 1) 40961 (* 0xA001 *) else Z.shiftr crc 1.
Definition crc_byte (crc byte : Z) : Z := Nat.iter 8 crc_step (Z.lxor crc byte).
Definition crc16 (data : bytes) : Z := Z.land (foldl crc_byte 65535 data) 65535.

Definition rtu_wrap (unit : Z) (pdu : bytes) : bytes :=
  let body := [Z.land unit 255] ++ pdu in
  let crc := crc16 body in
  body ++ [Z.land crc 255; Z.land (Z.shiftr crc 8) 255].

Definition rtu_unwrap (frame : bytes) : res (Z * bytes) :=
  _ ← raise_if (zlen frame <? 4) ValueError "RTU frame too short";
  let n := zlen frame in
  let body := slice 0 (n - 2) frame in
  let crc_lo := nth (Z.to_nat (n - 2)) frame 0 in
  let crc_hi := nth (Z.to_nat (n - 1)) frame 0 in
  _ ← raise_if (negb (crc16 body =? Z.lor crc_lo (Z.shiftl crc_hi 8)))
               ValueError "RTU CRC mismatch";
  Ok (nth 0 body 0, slice_from 1 body).

Definition build_tcp_adu (txn unit : Z) (pdu : bytes) : bytes :=
  let length := zlen pdu + 1 in
  [Z.land (Z.shiftr txn 8) 255; Z.land txn 255; 0; 0;
   Z.land (Z.shiftr length 8) 255; Z.land length 255; Z.land unit 255] ++ pdu.

(** [take_tcp_adu(buf)]: the popped frame, if any, and the buffer afterwards. *)
Definition take_tcp_adu (buf : bytes) : res (option (Z * Z * bytes) * bytes) :=
  if zlen buf <? MBAP_LEN then Ok (None, buf) else
  let b i := nth i buf 0 in
  let txn := Z.lor (Z.shiftl (b 0%nat) 8) (b 1%nat) in
  let proto := Z.lor (Z.shiftl (b 2%nat) 8) (b 3%nat) in
  let length := Z.lor (Z.shiftl (b 4%nat) 8) (b 5%nat) in
  let unit := b 6%nat in
  _ ← raise_if (negb (proto =? 0)) ValueError "not Modbus/TCP (protocol id != 0)";
  _ ← raise_if (negb ((1 <=? length) && (length <=? MAX_PDU + 1)))
               ValueError "invalid MBAP length {length}";
  let total := MBAP_LEN + (length - 1) in
  if zlen buf <? total then Ok (None, buf) else
  let pdu := slice MBAP_LEN total buf in
  Ok (Some (txn, unit, pdu), slice_from total buf).

Definition exception_pdu (function code : Z) : bytes :=
  [Z.land (Z.lor function 128) 255; Z.land code 255].

Definition GATEWAY_TARGET_FAILED : Z := 11.

(** ** Register polling *)
Definition read_pdu (function address count : Z) : bytes :=
  [Z.land function 255; Z.land (Z.shiftr address 8) 255; Z.land address 255;
   Z.land (Z.shiftr count 8) 255; Z.land count 255].

Definition response_data (pdu : bytes) (function : Z) : res bytes :=
  match pdu with
  | [] => raise ValueError "empty PDU"
  | p0 :: rest =>
      if p0 =? Z.land (Z.lor function 128) 255
      then raise ValueError "modbus exception 0x{code:02x}"
      else if negb (p0 =? function) || (zlen pdu <? 2)
      then raise ValueError "unexpected response function"
      else
        let byte_count := nth 1 pdu 0 in
        let data := slice 2 (2 + byte_count) pdu in
        _ ← raise_if (negb (zlen data =? byte_count)) ValueError "short response data";
        Ok data
  end.

Definition _DTYPE_REGS : list (pystr * Z) :=
  [(str "uint16", 1); (str "int16", 1); (str "uint32", 2); (str "int32", 2); (str "float32", 2)].
Definition DTYPES : list pystr := _DTYPE_REGS.*1.

Definition dtype_registers (dtype : pystr) : res Z :=
  match assoc dtype _DTYPE_REGS with
  | Some n => Ok n
  | None => raise ValueError "unknown dtype {dtype!r}"
  end.

(** [struct.unpack(fmt, chunk)[0]] for the five big-endian formats. *)
Inductive struct_fmt := FmtH | Fmth | FmtI | Fmti | Fmtf.
Definition _DTYPE_FMT : list (pystr * struct_fmt) :=
  [(str "uint16", FmtH); (str "int16", Fmth); (str "uint32", FmtI); (str "int32", Fmti);
   (str "float32", Fmtf)].
Definition struct_unpack (f : struct_fmt) (chunk : bytes) : num :=
  let raw := of_be chunk in
  match f with
  | FmtH | FmtI => NInt raw
  | Fmth => NInt (sign_extend 16 raw)
  | Fmti => NInt (sign_extend 32 raw)
  | Fmtf => NFloat (unpack_f raw)
  end.

Definition decode_value (data : bytes) (dtype : pystr) (scale : num) : res num :=
  regs ← dtype_registers dtype;
  let need := regs * 2 in
  let chunk := slice 0 need data in
  _ ← raise_if (zlen chunk <? need) ValueError "not enough data for dtype";
  match assoc dtype _DTYPE_FMT with
  | None => raise KeyError "dtype"
  | Some fmt =>
      let value := struct_unpack fmt chunk in
      if num_truthy scale && negb (num_is_one scale) then num_mul value scale else Ok value
  end.

(** ** Bit reads and writes *)
Definition READ_COILS : Z := 1.
Definition READ_DISCRETE_INPUTS : Z := 2.
Definition WRITE_SINGLE_COIL : Z := 5.
Definition WRITE_SINGLE_REGISTER : Z := 6.
Definition WRITE_MULTIPLE_COILS : Z := 15.
Definition WRITE_MULTIPLE_REGISTERS : Z := 16.
Definition MAX_READ_BITS : Z := 2000.
Definition MAX_WRITE_COILS : Z := 1968.
Definition MAX_WRITE_REGISTERS : Z := 123.
Definition _WRITE_FUNCTIONS : list Z :=
  [WRITE_SINGLE_COIL; WRITE_SINGLE_REGISTER; WRITE_MULTIPLE_COILS; WRITE_MULTIPLE_REGISTERS].

Definition _check_int (value : pyval) (lo hi : Z) : res Z :=
  if is_bool value || negb (is_int value) || negb (between lo value hi)
  then raise ValueError "{what} must be an integer {lo}..{hi}, got {value!r}"
  else Ok (int_of value).

Definition _check_span (address count : Z) : res unit :=
  _ ← _check_int (VInt address) 0 65535;
  raise_if (65536 <? address + count) ValueError
    "address {address} + quantity {count} runs past address 65535".

Definition _coil_state (value : pyval) : res bool :=
  if negb (is_int value) || negb (eq_Z value 0 || eq_Z value 1)
  then raise ValueError "{what} must be True/False (or 1/0), got {value!r}"
  else Ok (truthy value).

Definition read_bits_pdu (function address count : Z) : res bytes :=
  _ ← raise_if (negb ((function =? READ_COILS) || (function =? READ_DISCRETE_INPUTS)))
               ValueError "read_bits_pdu needs function {READ_COILS} or {READ_DISCRETE_INPUTS}";
  _ ← _check_int (VInt count) 1 MAX_READ_BITS;
  _ ← _check_span address count;
  Ok (read_pdu function address count).

Definition decode_bits (data : bytes) (count : Z) : res (list bool) :=
  _ ← raise_if (count <? 0) ValueError "bit count must be a non-negative integer, got {count!r}";
  let need := (count + 7) / 8 in
  _ ← raise_if (zlen data <? need) ValueError "not enough data for {count} bits";
  Ok ((λ i : nat,
         negb (Z.land (Z.shiftr (nth (i / 8)%nat data 0) (Z.of_nat (i mod 8)%nat)) 1 =? 0))
        <$> seq 0 (Z.to_nat count)).

Definition write_single_coil_pdu (address : Z) (on : pyval) : res bytes :=
  _ ← _check_int (VInt address) 0 65535;
  st ← _coil_state on;
  let value := if st : bool then 65280 (* 0xFF00 *) else 0 in
  mk_bytes [WRITE_SINGLE_COIL; Z.shiftr address 8; Z.land address 255;
            Z.shiftr value 8; Z.land value 255].

Definition write_single_register_pdu (address raw : Z) : res bytes :=
  _ ← _check_int (VInt address) 0 65535;
  _ ← _check_int (VInt raw) 0 65535;
  mk_bytes [WRITE_SINGLE_REGISTER; Z.shiftr address 8; Z.land address 255;
            Z.shiftr raw 8; Z.land raw 255].

(** [packed[i // 8] |= 1 << (i % 8)] for each ON state, on a zeroed bytearray. *)
Definition set_bit (packed : bytes) (i : nat) : bytes :=
  alter (λ b, Z.lor b (Z.shiftl 1 (Z.of_nat (i mod 8)%nat))) (i / 8)%nat packed.
Definition pack_bits (states : list bool) : bytes :=
  foldl (λ packed '(i, on), if on : bool then set_bit packed i else packed)
        (replicate (Z.to_nat ((zlen states + 7) / 8)) 0)
        (zip (seq 0 (length states)) states).

Definition write_multiple_coils_pdu (address : Z) (values : list pyval) : res bytes :=
  states ← mapr _coil_state values;
  count ← _check_int (VInt (zlen states)) 1 MAX_WRITE_COILS;
  _ ← _check_span address count;
  let packed := pack_bits states in
  hd ← mk_bytes [WRITE_MULTIPLE_COILS; Z.shiftr address 8; Z.land address 255;
                 Z.shiftr count 8; Z.land count 255; zlen packed];
  Ok (hd ++ packed).

Definition write_multiple_registers_pdu (address : Z) (registers : list Z) : res bytes :=
  regs ← mapr (λ r, _check_int (VInt r) 0 65535) registers;
  count ← _check_int (VInt (zlen regs)) 1 MAX_WRITE_REGISTERS;
  _ ← _check_span address count;
  let data := regs ≫= to_be 2 in
  hd ← mk_bytes [WRITE_MULTIPLE_REGISTERS; Z.shiftr address 8; Z.land address 255;
                 Z.shiftr count 8; Z.land count 255; zlen data];
  Ok (hd ++ data).

Definition check_write_response (pdu request : bytes) : res unit :=
  let function := nth 0 request 0 in
  _ ← raise_if ((zlen request <? 5) || negb (existsb (Z.eqb function) _WRITE_FUNCTIONS))
               ValueError "request is not a Modbus write PDU (FC5/6/15/16)";
  match pdu with
  | [] => raise ValueError "empty PDU"
  | p0 :: _ =>
      _ ← raise_if (p0 =? Z.lor function 128) ValueError "modbus exception 0x{code:02x}";
      _ ← raise_if (negb (p0 =? function)) ValueError
                   "unexpected response function 0x{pdu[0]:02x}";
      let single := (function =? WRITE_SINGLE_COIL) || (function =? WRITE_SINGLE_REGISTER) in
      let expected := if single then request else slice 0 5 request in
      _ ← raise_if (zlen pdu <? zlen expected) ValueError "short write response";
      raise_if (negb (bool_decide (pdu = expected))) ValueError
               "write response does not match the request"
  end.

(** ** Value encoding *)
Definition _INT_RANGE : list (pystr * (Z * Z)) :=
  [(str "uint16", (0, 65535)); (str "int16", (-32768, 32767));
   (str "uint32", (0, 4294967295)); (str "int32", (-2147483648, 2147483647))].

(** Bytes of [struct.pack] for an in-range int, by format width. *)
Definition fmt_width (f : struct_fmt) : nat :=
  match f with FmtH | Fmth => 2 | _ => 4 end.

(** [[int.from_bytes(packed[i:i+2], "big") for i in range(0, len(packed), 2)]] *)
Fixpoint words_be (packed : bytes) : list Z :=
  match packed with
  | a :: b :: l => of_be [a; b] :: words_be l
  | [a] => [of_be [a]]
  | [] => []
  end.

(** The raw number to store: [value / scale] unless the scale is 0 or 1. *)
Definition scale_down (value scale : num) : res num :=
  if num_truthy scale && negb (num_is_one scale) then
    fin ← isfinite scale;
    _ ← raise_if (negb fin) ValueError "scale must be a finite number, got {scale!r}";
    raw ← overflow_as_value (num_div value scale) "value {value!r} out of range for {dtype}";
    _ ← raise_if (negb (is_finite raw)) ValueError
                 "value {value!r} / scale {scale!r} out of range for {dtype}";
    Ok (NFloat raw)
  else Ok value.

(** [isinstance(value, (int, float))] and not a bool. *)
Definition number_of (value : pyval) : option num :=
  match value with
  | VInt z => Some (NInt z)
  | VFloat f => Some (NFloat f)
  | _ => None
  end.

Definition encode_value (value : pyval) (dtype : pystr) (scale : num) : res (list Z) :=
  _ ← dtype_registers dtype;
  match number_of value with
  | None => raise ValueError "value must be a number, got {value!r}"
  | Some n =>
      _ ← raise_if (match n with NFloat f => negb (is_finite f) | NInt _ => false end)
                   ValueError "value must be a finite number, got {value!r}";
      raw ← scale_down n scale;
      packed ←
        (if str_eqb dtype (str "float32") then
           overflow_as_value (x ← to_float raw; bits ← pack_f x; Ok (to_be 4 bits))
                             "value {value!r} out of range for float32"
         else
           match assoc dtype _INT_RANGE, assoc dtype _DTYPE_FMT with
           | Some (lo, hi), Some fmt =>
               number ← (match raw with NInt z => Ok z | NFloat f => py_round f end);
               _ ← raise_if (negb ((lo <=? number) && (number <=? hi))) ValueError
                            "value {value!r} (raw {number}) out of range for {dtype}";
               Ok (to_be (fmt_width fmt) number)
           | _, _ => raise KeyError "dtype"
           end);
      Ok (words_be packed)
  end.

(** ** CRC *)
Lemma lxor_16 a b : 0 <= a < 65536 → 0 <= b < 65536 → 0 <= Z.lxor a b < 65536.
Proof.
  intros Ha Hb. split; [by apply Z.lxor_nonneg; lia|].
  apply Z.lt_le_trans with (2 ^ 16); [|lia].
  destruct (decide (Z.lxor a b = 0)) as [->|Hn]; [lia|].
  apply Z.log2_lt_pow2; [pose proof (proj2 (Z.lxor_nonneg a b)); lia|].
  eapply Z.le_lt_trans; [apply Z.log2_lxor; lia|].
  apply Z.max_lub_lt; destruct (decide (a = 0)) as [->|]; destruct (decide (b = 0)) as [->|];
    try done; apply Z.log2_lt_pow2; lia.
Qed.

Lemma crc_step_range c : 0 <= c < 65536 → 0 <= crc_step c < 65536.
Proof.
  intros Hc. unfold crc_step. rewrite Z.shiftr_div_pow2 by lia.
  assert (0 <= c / 2 ^ 1 < 65536) by dlia.
  destruct (Z.odd c); [|done]. by apply lxor_16.
Qed.

(** The feedback bit is the top bit of the result, so a step can be undone. *)
Definition crc_unstep (c : Z) : Z :=
  if Z.testbit c 15 then 2 * Z.lxor c 40961 + 1 else 2 * c.

Lemma crc_unstep_step c : 0 <= c < 65536 → crc_unstep (crc_step c) = c.
Proof.
  intros Hc. unfold crc_step, crc_unstep.
  assert (Z.testbit (Z.shiftr c 1) 15 = false) as Hhi.
  { rewrite Z.shiftr_spec by lia. apply Z.bits_above_log2; [lia|].
    destruct (decide (c = 0)) as [->|]; [done|]. apply Z.log2_lt_pow2; lia. }
  destruct (Z.odd c) eqn:Ho.
  - rewrite Z.lxor_spec, Hhi. simpl.
    rewrite Z.lxor_assoc, Z.lxor_nilpotent, Z.lxor_0_r.
    rewrite <- Z.div2_spec. pose proof (Z.div2_odd c) as E. rewrite Ho in E. simpl Z.b2z in E. lia.
  - rewrite Hhi. rewrite <- Z.div2_spec. pose proof (Z.div2_odd c) as E.
    rewrite Ho in E. simpl Z.b2z in E. lia.
Qed.

Lemma crc_iter_inj n a b :
  0 <= a < 65536 → 0 <= b < 65536 →
  Nat.iter n crc_step a = Nat.iter n crc_step b → a = b.
Proof.
  intros Ha Hb. revert a b Ha Hb. induction n as [|n IH]; intros a b Ha Hb E; [done|].
  rewrite !Nat.iter_succ_r in E. apply IH in E; [|by apply crc_step_range..].
  rewrite <- (crc_unstep_step a), <- (crc_unstep_step b) by done. by f_equal.
Qed.

Lemma crc_iter_range n c : 0 <= c < 65536 → 0 <= Nat.iter n crc_step c < 65536.
Proof. intros Hc. induction n; [done|]. by apply crc_step_range. Qed.

Lemma crc_byte_range c b : 0 <= c < 65536 → is_byte b → 0 <= crc_byte c b < 65536.
Proof. unfold is_byte. intros. apply crc_iter_range, lxor_16; lia. Qed.

Lemma crc_byte_inj_state c1 c2 b :
  0 <= c1 < 65536 → 0 <= c2 < 65536 → is_byte b → crc_byte c1 b = crc_byte c2 b → c1 = c2.
Proof.
  unfold is_byte. intros ??? E. apply crc_iter_inj in E; [|apply lxor_16; lia..].
  rewrite <- (Z.lxor_0_r c1), <- (Z.lxor_0_r c2), <- (Z.lxor_nilpotent b), <- !Z.lxor_assoc.
  by rewrite E.
Qed.
Lemma crc_byte_inj_byte c b1 b2 :
  0 <= c < 65536 → is_byte b1 → is_byte b2 → crc_byte c b1 = crc_byte c b2 → b1 = b2.
Proof.
  unfold is_byte. intros ??? E. apply crc_iter_inj in E; [|apply lxor_16; lia..].
  rewrite <- (Z.lxor_0_l b1), <- (Z.lxor_0_l b2), <- (Z.lxor_nilpotent c), !Z.lxor_assoc.
  by rewrite E.
Qed.

Lemma crc_fold_range l c : 0 <= c < 65536 → is_bytes l → 0 <= foldl crc_byte c l < 65536.
Proof.
  intros Hc Hl. revert c Hc. induction Hl as [|b l Hb _ IH]; intros c Hc; [done|].
  simpl. by apply IH, crc_byte_range.
Qed.
Lemma crc_fold_inj l c1 c2 :
  0 <= c1 < 65536 → 0 <= c2 < 65536 → is_bytes l →
  foldl crc_byte c1 l = foldl crc_byte c2 l → c1 = c2.
Proof.
  intros H1 H2 Hl. revert c1 c2 H1 H2.
  induction Hl as [|b l Hb _ IH]; intros c1 c2 H1 H2 E; [done|].
  simpl in E. apply IH in E; [|by apply crc_byte_range..].
  by apply crc_byte_inj_state in E.
Qed.

Lemma crc16_fold l : is_bytes l → crc16 l = foldl crc_byte 65535 l.
Proof.
  intros Hl. unfold crc16. change 65535 with (Z.ones 16) at 2.
  rewrite Z.land_ones by lia. apply Z.mod_small, crc_fold_range; [lia|done].
Qed.
Lemma crc16_range l : is_bytes l → 0 <= crc16 l < 65536.
Proof. intros Hl. rewrite crc16_fold by done. apply crc_fold_range; [lia|done]. Qed.

(** Two byte strings that differ in exactly one position have different CRCs. *)
Lemma crc16_one_byte l r b1 b2 :
  is_bytes l → is_bytes r → is_byte b1 → is_byte b2 → b1 ≠ b2 →
  crc16 (l ++ b1 :: r) ≠ crc16 (l ++ b2 :: r).
Proof.
  intros Hl Hr H1 H2 Hne E. rewrite !crc16_fold in E by eauto with bytes_db.
  rewrite !foldl_app in E. simpl in E.
  assert (0 <= foldl crc_byte 65535 l < 65536) by (apply crc_fold_range; [lia|done]).
  apply crc_fold_inj in E; [|by apply crc_byte_range..|done].
  by apply crc_byte_inj_byte in E.
Qed.

(** ** RTU envelope *)
Lemma crc_bytes_join crc :
  0 <= crc < 65536 →
  Z.lor (Z.land crc 255) (Z.shiftl (Z.land (Z.shiftr crc 8) 255) 8) = crc.
Proof.
  intros Hc. rewrite Z.lor_comm, lor_byte_pair by apply land_byte.
  rewrite shiftr_8, !land_255. rewrite (Z.mod_small (crc / 256)) by dlia. dlia.
Qed.

Lemma rtu_unwrap_frame u pdu lo hi :
  rtu_unwrap ((u :: pdu) ++ [lo; hi]) =
    if zlen pdu <? 1 then raise ValueError "RTU frame too short"
    else if crc16 (u :: pdu) =? Z.lor lo (Z.shiftl hi 8) then Ok (u, pdu)
    else raise ValueError "RTU CRC mismatch".
Proof.
  unfold rtu_unwrap. set (frame := (u :: pdu) ++ [lo; hi]).
  assert (zlen frame = zlen pdu + 3) as Hn by (subst frame; zlen).
  rewrite Hn. replace (zlen pdu + 3 <? 4) with (zlen pdu <? 1)
    by (apply eq_true_iff_eq; rewrite !Z.ltb_lt; lia).
  destruct (zlen pdu <? 1); [done|]. cbn [raise_if mbind res_bind].
  assert (slice 0 (zlen pdu + 3 - 2) frame = u :: pdu) as ->.
  { apply (slice_app_exact [] (u :: pdu) [lo; hi]); [done|]. zlen. }
  subst frame. rewrite !app_nth2 by (simpl; unfold zlen; lia).
  replace (Z.to_nat (zlen pdu + 3 - 2) - length (u :: pdu))%nat with 0%nat
    by (simpl; unfold zlen; lia).
  replace (Z.to_nat (zlen pdu + 3 - 1) - length (u :: pdu))%nat with 1%nat
    by (simpl; unfold zlen; lia).
  simpl nth. by destruct (crc16 _ =? _).
Qed.

Lemma rtu_wrap_shape u pdu :
  rtu_wrap u pdu = (Z.land u 255 :: pdu) ++
    [Z.land (crc16 (Z.land u 255 :: pdu)) 255; Z.land (Z.shiftr (crc16 (Z.land u 255 :: pdu)) 8) 255].
Proof. done. Qed.

(** unwrapping a wrapped PDU gives back the unit id (mod 256) and the PDU. *)
Theorem rtu_roundtrip u pdu :
  is_bytes pdu → pdu ≠ [] → rtu_unwrap (rtu_wrap u pdu) = Ok (u mod 256, pdu).
Proof.
  intros Hb Hne. rewrite rtu_wrap_shape, rtu_unwrap_frame.
  rewrite (proj2 (Z.ltb_ge _ _)) by (destruct pdu; [done|]; zlen).
  rewrite crc_bytes_join by (apply crc16_range; eauto with bytes_db).
  by rewrite Z.eqb_refl, land_255.
Qed.

Lemma rtu_roundtrip_witness :
  rtu_unwrap (rtu_wrap 257 [3; 0; 0; 0; 10]) = Ok (1, [3; 0; 0; 0; 10]).
Proof.
  apply (rtu_roundtrip 257 [3; 0; 0; 0; 10]); [|done].
  apply forallb_byteb. reflexivity.
Defined.

Lemma rtu_unwrap_bad_crc u pdu lo hi :
  pdu ≠ [] → Z.lor lo (Z.shiftl hi 8) ≠ crc16 (u :: pdu) →
  rtu_unwrap ((u :: pdu) ++ [lo; hi]) = raise ValueError "RTU CRC mismatch".
Proof.
  intros Hne Hcrc. rewrite rtu_unwrap_frame.
  rewrite (proj2 (Z.ltb_ge _ _)) by (destruct pdu; [done|]; zlen).
  by rewrite (proj2 (Z.eqb_neq _ _)) by congruence.
Qed.

(** Changing one of the two CRC bytes changes the value they spell. *)
Lemma crc_bytes_change l b r b' crc :
  0 <= crc < 65536 → is_byte b' → b' ≠ b →
  [Z.land crc 255; Z.land (Z.shiftr crc 8) 255] = l ++ b :: r →
  ∃ lo hi, l ++ b' :: r = [lo; hi] ∧ Z.lor lo (Z.shiftl hi 8) ≠ crc.
Proof.
  intros Hcrc Hb' Hd E.
  assert (∀ lo hi, is_byte lo → Z.lor lo (Z.shiftl hi 8) = hi * 256 + lo) as Hlor
    by (intros; rewrite Z.lor_comm; by apply lor_byte_pair).
  pose proof (land_byte crc). pose proof (land_byte (Z.shiftr crc 8)).
  pose proof (crc_bytes_join crc Hcrc) as Hj. rewrite Hlor in Hj by done.
  destruct l as [|? [|? [|? ?]]]; simplify_eq/=.
  - eexists _, _. split; [done|]. rewrite Hlor by done. unfold is_byte in *. lia.
  - eexists _, _. split; [done|]. rewrite Hlor by done. unfold is_byte in *. lia.
Qed.

(** C39: a frame produced by [rtu_wrap] in which exactly one byte was changed on the bus is
    rejected with the CRC error, wherever the byte is. *)
Theorem rtu_detects_byte_error u pdu l r b b' :
  is_bytes pdu → pdu ≠ [] → rtu_wrap u pdu = l ++ b :: r → is_byte b' → b' ≠ b →
  rtu_unwrap (l ++ b' :: r) = raise ValueError "RTU CRC mismatch".
Proof.
  intros Hb Hne Hw Hb' Hd. rewrite rtu_wrap_shape in Hw. set (v := Z.land u 255) in *.
  assert (is_bytes (v :: pdu)) as Hbody by (subst v; eauto with bytes_db).
  pose proof (crc16_range _ Hbody) as Hcrc.
  apply app_cons_inv in Hw as [(r' & -> & Hu)|(l' & -> & Htl)].
  - (* the changed byte is in the unit id or the PDU *)
    assert (∃ x p, l ++ b' :: r' = x :: p ∧ p ≠ []) as (x & p & Hx & Hp).
    { destruct l as [|x l]; simplify_eq/=; eexists _, _; (split; [done|]); [done|by destruct l]. }
    rewrite app_comm_cons, app_assoc, Hx. apply rtu_unwrap_bad_crc; [done|].
    rewrite crc_bytes_join by done. rewrite <- Hx. rewrite Hu in Hbody |- *.
    apply is_bytes_app_inv in Hbody as [? [? ?]%Forall_cons]. apply crc16_one_byte; auto.
  - (* the changed byte is one of the two CRC bytes *)
    destruct (crc_bytes_change l' b r b' _ Hcrc Hb' Hd Htl) as (lo & hi & Hl & Hne').
    rewrite <- app_assoc, Hl. by apply rtu_unwrap_bad_crc.
Qed.

Lemma rtu_detects_byte_error_witness :
  rtu_unwrap [1; 3; 0; 0; 0; 11; 197; 205] = raise ValueError "RTU CRC mismatch".
Proof.
  apply (rtu_detects_byte_error 1 [3; 0; 0; 0; 10] [1; 3; 0; 0; 0] [197; 205] 10 11);
    [apply forallb_byteb; reflexivity|done|reflexivity|unfold is_byte; lia|done].
Defined.

(** ** TCP envelope *)
Lemma div_byte x : 0 <= x < 65536 → Z.land (Z.shiftr x 8) 255 = x / 256.
Proof. intros. rewrite shiftr_8, land_255. apply Z.mod_small. dlia. Qed.

Lemma take_tcp_adu_header t1 t0 p1 p0 l1 l0 u rest :
  is_byte t0 → is_byte p0 → is_byte l0 →
  take_tcp_adu ([t1; t0; p1; p0; l1; l0; u] ++ rest) =
    let len := l1 * 256 + l0 in
    if negb (p1 * 256 + p0 =? 0) then raise ValueError "not Modbus/TCP (protocol id != 0)"
    else if negb ((1 <=? len) && (len <=? 254)) then raise ValueError "invalid MBAP length {length}"
    else if zlen rest <? len - 1
    then Ok (None, [t1; t0; p1; p0; l1; l0; u] ++ rest)
    else Ok (Some (t1 * 256 + t0, u, slice 0 (len - 1) rest), slice_from (len - 1) rest).
Proof.
  intros Ht Hp Hl. unfold take_tcp_adu. set (buf := [t1; t0; p1; p0; l1; l0; u] ++ rest).
  assert (zlen buf = 7 + zlen rest) as Hbl by (subst buf; zlen).
  rewrite Hbl. unfold MBAP_LEN, MAX_PDU.
  rewrite (proj2 (Z.ltb_ge _ _)) by (pose proof (zlen_nonneg rest); lia).
  subst buf. simpl nth. rewrite !lor_byte_pair by done. cbv zeta.
  destruct (negb (p1 * 256 + p0 =? 0)); [done|].
  change (253 + 1) with 254.
  destruct (negb (_ && _)) eqn:Er; [done|]. zbool. cbn [raise_if mbind res_bind].
  set (len := l1 * 256 + l0) in *.
  replace (7 + zlen rest <? 7 + (len - 1)) with (zlen rest <? len - 1)
    by (apply eq_true_iff_eq; rewrite !Z.ltb_lt; lia).
  destruct (zlen rest <? len - 1); [done|]. do 2 f_equal; [do 2 f_equal|].
  - unfold slice. simpl drop. do 2 f_equal; lia.
  - unfold slice_from. replace (Z.to_nat (7 + (len - 1))) with (7 + Z.to_nat (len - 1))%nat by lia.
    by rewrite <- drop_drop.
Qed.

Lemma build_tcp_adu_bytes txn unit pdu :
  0 <= txn < 65536 → is_byte unit → zlen pdu <= 253 →
  build_tcp_adu txn unit pdu =
    [txn / 256; txn mod 256; 0; 0; (zlen pdu + 1) / 256; (zlen pdu + 1) mod 256; unit] ++ pdu.
Proof.
  intros Ht Hu Hp. unfold build_tcp_adu. pose proof (zlen_nonneg pdu).
  rewrite !div_byte by lia. rewrite !land_255.
  by rewrite (Z.mod_small unit) by (unfold is_byte in Hu; lia).
Qed.

(** Popping a complete ADU off a stream leaves exactly the bytes that follow it. *)
Lemma take_build txn unit pdu rest :
  0 <= txn < 65536 → is_byte unit → zlen pdu <= MAX_PDU →
  take_tcp_adu (build_tcp_adu txn unit pdu ++ rest) = Ok (Some (txn, unit, pdu), rest).
Proof.
  unfold MAX_PDU. intros Ht Hu Hp. pose proof (zlen_nonneg pdu).
  rewrite build_tcp_adu_bytes, <- app_assoc, take_tcp_adu_header by (try done; unfold is_byte; dlia).
  cbv zeta. replace ((zlen pdu + 1) / 256 * 256 + (zlen pdu + 1) mod 256) with (zlen pdu + 1) by dlia.
  change (negb (0 * 256 + 0 =? 0)) with false.
  rewrite !(proj2 (Z.leb_le _ _)) by lia. simpl negb.
  rewrite (proj2 (Z.ltb_ge _ _)) by zlen. do 2 f_equal; [do 2 f_equal|].
  - f_equal. dlia.
  - apply (slice_app_exact [] pdu rest); [done|]. zlen.
  - apply slice_from_app. lia.
Qed.

(** a successful pop is exactly the inverse of building: the buffer was the ADU of the
    returned frame followed by the remaining buffer (so no byte is lost, duplicated or
    re-ordered), at least the seven header bytes were consumed, and the PDU fits a Modbus PDU. *)
Theorem take_tcp_adu_sound buf txn unit pdu rest :
  is_bytes buf → take_tcp_adu buf = Ok (Some (txn, unit, pdu), rest) →
  buf = build_tcp_adu txn unit pdu ++ rest ∧ zlen rest + MBAP_LEN <= zlen buf ∧
  zlen pdu <= MAX_PDU.
Proof.
  intros Hb Ht.
  destruct (decide (zlen buf < 7)) as [Hs|Hs].
  { unfold take_tcp_adu, MBAP_LEN in Ht. by rewrite (proj2 (Z.ltb_lt _ _)) in Ht. }
  destruct buf as [|t1 [|t0 [|p1 [|p0 [|l1 [|l0 [|u r]]]]]]]; try (exfalso; zlen).
  unfold is_bytes in Hb. rewrite !Forall_cons in Hb.
  destruct Hb as (? & ? & ? & ? & ? & ? & ? & Hr). unfold is_byte in *.
  change (t1 :: t0 :: p1 :: p0 :: l1 :: l0 :: u :: r)
    with ([t1; t0; p1; p0; l1; l0; u] ++ r) in *.
  rewrite take_tcp_adu_header in Ht by (unfold is_byte; lia). cbv zeta in Ht.
  destruct (negb _) eqn:Ep; [done|]. destruct (negb (_ && _)) eqn:El; [done|].
  destruct (zlen r <? _) eqn:Er; [done|]. zbool.
  injection Ht as <- <- <- <-. set (len := l1 * 256 + l0) in *.
  assert (zlen (slice 0 (len - 1) r) = len - 1) as Hsl by (rewrite slice_length; lia).
  split; [|split].
  - rewrite build_tcp_adu_bytes by (unfold is_byte; lia). rewrite Hsl, <- app_assoc.
    unfold slice, slice_from. simpl drop. rewrite Z.sub_0_r, take_drop.
    replace ((t1 * 256 + t0) / 256) with t1 by dlia.
    replace ((t1 * 256 + t0) mod 256) with t0 by dlia.
    replace ((len - 1 + 1) / 256) with l1 by (subst len; dlia).
    replace ((len - 1 + 1) mod 256) with l0 by (subst len; dlia).
    by replace p1 with 0 by lia; replace p0 with 0 by lia.
  - unfold MBAP_LEN. rewrite zlen_app, slice_from_length by lia. zlen.
  - unfold MAX_PDU. lia.
Qed.

Lemma take_tcp_adu_sound_witness :
  [2; 1; 0; 0; 0; 3; 7; 3; 2; 9] = build_tcp_adu 513 7 [3; 2] ++ [9] ∧
  zlen [9] + MBAP_LEN <= zlen [2; 1; 0; 0; 0; 3; 7; 3; 2; 9] ∧ zlen [3; 2] <= MAX_PDU.
Proof.
  apply (take_tcp_adu_sound [2; 1; 0; 0; 0; 3; 7; 3; 2; 9] 513 7 [3; 2] [9]).
  - apply forallb_byteb. reflexivity.
  - reflexivity.
Defined.

(** A buffer that holds only part of an ADU is left alone. *)
Lemma take_tcp_adu_partial txn unit pdu buf tail :
  0 <= txn < 65536 → is_byte unit → zlen pdu <= MAX_PDU →
  build_tcp_adu txn unit pdu = buf ++ tail → tail ≠ [] → take_tcp_adu buf = Ok (None, buf).
Proof.
  unfold MAX_PDU. intros Ht Hu Hp Hsplit Hne. pose proof (zlen_nonneg pdu).
  destruct (decide (zlen buf < 7)) as [Hs|Hs].
  { unfold take_tcp_adu, MBAP_LEN. by rewrite (proj2 (Z.ltb_lt _ _)). }
  rewrite build_tcp_adu_bytes in Hsplit by done.
  assert (∃ r, buf = [txn / 256; txn mod 256; 0; 0; (zlen pdu + 1) / 256;
                      (zlen pdu + 1) mod 256; unit] ++ r ∧ pdu = r ++ tail) as (r & -> & Hpdu).
  { destruct buf as [|? [|? [|? [|? [|? [|? [|? r]]]]]]]; try (exfalso; zlen).
    simplify_eq/=. by exists r. }
  rewrite take_tcp_adu_header by (unfold is_byte; dlia). cbv zeta.
  replace ((zlen pdu + 1) / 256 * 256 + (zlen pdu + 1) mod 256) with (zlen pdu + 1) by dlia.
  change (negb (0 * 256 + 0 =? 0)) with false.
  rewrite !(proj2 (Z.leb_le _ _)) by lia. simpl negb.
  assert (0 < zlen tail) by (destruct tail; [done|zlen]).
  rewrite (proj2 (Z.ltb_lt _ _)); [done|]. rewrite Hpdu. zlen.
Qed.

(** ** Register values *)
Lemma words_be_to_be regs :
  Forall (λ r, 0 <= r < 65536) regs → words_be (regs ≫= to_be 2) = regs.
Proof.
  induction 1 as [|r regs Hr _ IH]; [done|].
  change ((r :: regs) ≫= to_be 2) with (to_be 2 r ++ (regs ≫= to_be 2)).
  change (to_be 2 r) with [r / 256 mod 256; r mod 256]. simpl.
  f_equal; [|done]. unfold of_be. simpl. dlia.
Qed.

Lemma to_be_words l n :
  is_bytes l → length l = (2 * n)%nat → words_be l ≫= to_be 2 = l ∧ length (words_be l) = n.
Proof.
  revert l. induction n as [|n IH]; intros l Hl Hn; [by destruct l|].
  destruct l as [|a [|b l]]; simpl in Hn; [lia..|].
  apply Forall_cons in Hl as [Ha [Hb Hl]%Forall_cons].
  destruct (IH l Hl) as [E1 E2]; [lia|].
  change (words_be (a :: b :: l)) with (of_be [a; b] :: words_be l).
  change ((?x :: ?xs) ≫= to_be 2) with (to_be 2 x ++ (xs ≫= to_be 2)).
  rewrite E1. split; [|simpl; lia].
  change (to_be 2 (of_be [a; b])) with (to_be (length [a; b]) (of_be [a; b])).
  rewrite to_of_be; [done|]. auto using is_bytes_cons, is_bytes_nil.
Qed.

(** Packing an in-range integer and unpacking the bytes. *)
Lemma struct_int_roundtrip dt lo hi fmt v :
  assoc dt _INT_RANGE = Some (lo, hi) → assoc dt _DTYPE_FMT = Some fmt → lo <= v <= hi →
  struct_unpack fmt (to_be (fmt_width fmt) v) = NInt v ∧
  assoc dt _DTYPE_REGS = Some (Z.of_nat (fmt_width fmt) / 2).
Proof.
  unfold _INT_RANGE, _DTYPE_FMT, _DTYPE_REGS. simpl. intros Hr Hf Hv.
  repeat (case_match; simplify_eq/=).
  all: repeat match goal with H : str_eqb _ _ = true |- _ => apply str_eqb_eq in H end;
    subst; try (by vm_compute in H0); try done.
  all: rewrite of_to_be; simpl Z.of_nat.
  all: split; [|reflexivity]; f_equal.
  all: try (by apply Z.mod_small; lia).
  all: first [change (256 ^ 2) with (2 ^ 16)|change (256 ^ 4) with (2 ^ 32)];
    apply sign_extend_mod; lia.
Qed.

Lemma int_range_fmt dt lo hi :
  assoc dt _INT_RANGE = Some (lo, hi) →
  str_eqb dt (str "float32") = false ∧
  ∃ fmt, assoc dt _DTYPE_FMT = Some fmt ∧
         assoc dt _DTYPE_REGS = Some (Z.of_nat (fmt_width fmt) / 2).
Proof.
  unfold _INT_RANGE, _DTYPE_FMT, _DTYPE_REGS. simpl. intros Hr.
  repeat (case_match; simplify_eq/=);
    repeat match goal with H : str_eqb _ _ = true |- _ => apply str_eqb_eq in H end; subst;
    (split; [reflexivity|eexists; done]).
Qed.

Definition unscaled : num := NInt 1.

Lemma encode_int_unscaled dt lo hi v :
  assoc dt _INT_RANGE = Some (lo, hi) →
  encode_value (VInt v) dt unscaled =
    if (lo <=? v) && (v <=? hi) then
      match assoc dt _DTYPE_FMT with
      | Some fmt => Ok (words_be (to_be (fmt_width fmt) v))
      | None => raise KeyError "dtype"
      end
    else raise ValueError "value {value!r} (raw {number}) out of range for {dtype}".
Proof.
  intros Hr. destruct (int_range_fmt _ _ _ Hr) as (Hnf & fmt & Hf & Hn).
  unfold encode_value, dtype_registers. rewrite Hn.
  cbn [mbind res_bind number_of raise_if]. unfold scale_down. simpl (num_truthy _ && _).
  cbn [mbind res_bind]. rewrite Hnf, Hr, Hf. cbn [mbind res_bind].
  by destruct ((lo <=? v) && (v <=? hi)).
Qed.

(** for every integer dtype, a value is accepted exactly when it is in the dtype's range, and
    the register words it is stored in decode to the same value. *)
Theorem register_value_roundtrip dt lo hi v :
  assoc dt _INT_RANGE = Some (lo, hi) →
  (lo <= v <= hi → ∃ regs, encode_value (VInt v) dt unscaled = Ok regs ∧
     dtype_registers dt = Ok (zlen regs) ∧
     decode_value (regs ≫= to_be 2) dt unscaled = Ok (NInt v)) ∧
  (¬ lo <= v <= hi → ∃ msg, encode_value (VInt v) dt unscaled = raise ValueError msg).
Proof.
  intros Hr. rewrite (encode_int_unscaled _ _ _ _ Hr).
  destruct (int_range_fmt _ _ _ Hr) as (_ & fmt & Hf & Hn). rewrite Hf.
  split; intros Hv.
  - rewrite !(proj2 (Z.leb_le _ _)) by lia. eexists. split; [done|].
    destruct (struct_int_roundtrip dt lo hi fmt v Hr Hf Hv) as [Hu _].
    set (packed := to_be (fmt_width fmt) v) in *.
    assert (length packed = fmt_width fmt) as Hl by apply to_be_length.
    destruct (to_be_words packed (fmt_width fmt / 2)) as [Hw Hlw].
    { apply to_be_bytes. }
    { rewrite Hl. by destruct fmt. }
    unfold dtype_registers, decode_value. unfold dtype_registers. rewrite Hn, Hf, Hw. simpl.
    assert (zlen packed = Z.of_nat (fmt_width fmt) / 2 * 2) as Hz
      by (unfold zlen; rewrite Hl; by destruct fmt).
    assert (slice 0 (Z.of_nat (fmt_width fmt) / 2 * 2) packed = packed) as ->.
    { rewrite <- Hz. unfold slice, zlen. simpl drop. apply take_ge. lia. }
    rewrite Hz, Z.ltb_irrefl. simpl. rewrite Hu. split; [|done].
    f_equal. unfold zlen. rewrite Hlw. by destruct fmt.
  - destruct ((lo <=? v) && (v <=? hi)) eqn:E; [zbool; lia|]. by eexists.
Qed.

Lemma register_value_roundtrip_witness :
  (-32768 <= -2 <= 32767 → ∃ regs, encode_value (VInt (-2)) (str "int16") unscaled = Ok regs ∧
     dtype_registers (str "int16") = Ok (zlen regs) ∧
     decode_value (regs ≫= to_be 2) (str "int16") unscaled = Ok (NInt (-2))) ∧
  (¬ -32768 <= -2 <= 32767 →
     ∃ msg, encode_value (VInt (-2)) (str "int16") unscaled = raise ValueError msg).
Proof. apply (register_value_roundtrip (str "int16") (-32768) 32767 (-2)). reflexivity. Defined.

Lemma bits32_bounds data :
  is_bytes data → zlen data = 4 → 0 <= of_be data < 2 ^ (mw binary32 + ew binary32 + 1).
Proof.
  intros Hb Hl. pose proof (of_be_bounds data Hb) as H. rewrite Hl in H.
  change (256 ^ 4) with (2 ^ 32) in H. by change (mw binary32 + ew binary32 + 1) with 32.
Qed.

(** A float read from four bytes packs to the same four bytes. *)
Lemma pack_unpack_f b :
  0 <= b < 2 ^ (mw binary32 + ew binary32 + 1) → is_finite (unpack_f b) = true →
  pack_f (unpack_f b) = Ok b.
Proof.
  intros Hb Hf.
  assert (valid binary32 (of_bits binary32 b) = true) as Hv
    by (apply of_bits_valid; simpl; lia).
  assert (of_bits binary32 b ≠ S754_nan) as Hn.
  { intros E. unfold unpack_f in Hf. rewrite E in Hf. done. }
  unfold pack_f. rewrite Hf. unfold unpack_f.
  rewrite convert_roundtrip by done.
  rewrite to_of_bits by (simpl; lia || done).
  destruct (is_finite (of_bits binary32 b)) eqn:E; [done|].
  unfold unpack_f in Hf. by destruct (of_bits binary32 b).
Qed.

(** a float32 point read off the bus and written back unscaled produces the very register
    words that were read: the double the value travels in loses nothing of it. *)
Theorem float_register_roundtrip data f :
  is_bytes data → zlen data = 4 →
  decode_value data (str "float32") unscaled = Ok (NFloat f) → is_finite f = true →
  encode_value (VFloat f) (str "float32") unscaled = Ok (words_be data).
Proof.
  intros Hb Hl Hd Hf.
  assert (f = unpack_f (of_be data)) as ->.
  { revert Hd. unfold decode_value, dtype_registers.
    change (assoc (str "float32") _DTYPE_REGS) with (Some 2).
    change (assoc (str "float32") _DTYPE_FMT) with (Some Fmtf). cbn [mbind res_bind].
    assert (slice 0 (2 * 2) data = data) as ->
      by (unfold slice, zlen in *; simpl drop; apply take_ge; lia).
    rewrite Hl. simpl. by intros [= <-]. }
  unfold encode_value, dtype_registers.
  change (assoc (str "float32") _DTYPE_REGS) with (Some 2). cbn [mbind res_bind number_of].
  rewrite Hf. cbn [negb raise_if mbind res_bind]. unfold scale_down.
  change (num_truthy unscaled && negb (num_is_one unscaled)) with false. cbn [mbind res_bind].
  change (str_eqb (str "float32") (str "float32")) with true. cbn [to_float mbind res_bind].
  rewrite pack_unpack_f by (try done; by apply bits32_bounds).
  cbn [mbind res_bind overflow_as_value]. f_equal. f_equal.
  replace 4%nat with (length data) by (unfold zlen in Hl; lia). by apply to_of_be.
Qed.

Lemma float_register_roundtrip_witness :
  encode_value (VFloat f1_5) (str "float32") unscaled = Ok (words_be [63; 192; 0; 0]).
Proof.
  apply (float_register_roundtrip [63; 192; 0; 0] f1_5);
    [apply forallb_byteb; reflexivity|reflexivity|reflexivity|reflexivity].
Defined.

(** ** Bits *)
Definition bit_at (p : bytes) (i : nat) : bool :=
  Z.testbit (nth (i / 8)%nat p 0) (Z.of_nat (i mod 8)%nat).

Lemma shifted_bit b k : 0 <= k → negb (Z.land (Z.shiftr b k) 1 =? 0) = Z.testbit b k.
Proof.
  intros Hk. change 1 with (Z.ones 1). rewrite Z.land_ones, Z.shiftr_div_pow2 by lia.
  rewrite Z.testbit_eqb by lia. change (2 ^ 1) with 2.
  destruct (Z.eqb_spec ((b / 2 ^ k) mod 2) 0), (Z.eqb_spec ((b / 2 ^ k) mod 2) 1); simpl; dlia || done.
Qed.

Lemma set_bit_length p i : length (set_bit p i) = length p.
Proof. apply length_alter. Qed.

Lemma bit_at_set_bit p i j :
  (j / 8 < length p)%nat → bit_at (set_bit p j) i = bool_decide (i = j) || bit_at p i.
Proof.
  intros Hj. unfold bit_at, set_bit. rewrite !nth_lookup.
  destruct (decide (i / 8 = j / 8)%nat) as [E|E].
  - rewrite E. rewrite list_lookup_alter_eq.
    destruct (p !! (j / 8)%nat) as [b|] eqn:Eb; [|apply lookup_ge_None in Eb; lia].
    cbn [fmap option_fmap option_map default from_option id].
    rewrite Z.lor_spec, Z.shiftl_spec by lia.
    rewrite orb_comm. f_equal.
    change 1 with (2 ^ 0). rewrite Z.pow2_bits_eqb by lia.
    apply eq_true_iff_eq. rewrite Z.eqb_eq, bool_decide_eq_true.
    pose proof (Nat.div_mod_eq i 8). pose proof (Nat.div_mod_eq j 8).
    lia.
  - rewrite list_lookup_alter_ne by done.
    rewrite bool_decide_eq_false_2 by (intros ->; done). done.
Qed.

Lemma pack_fold_bits states k p i :
  (∀ j, k <= j < k + length states → j / 8 < length p)%nat →
  bit_at (foldl (λ packed '(i, on), if on : bool then set_bit packed i else packed) p
                (zip (seq k (length states)) states)) i
  = bit_at p i || (bool_decide (k <= i < k + length states)%nat && nth (i - k) states false).
Proof.
  revert k p. induction states as [|st states IH]; intros k p Hk; simpl.
  { rewrite bool_decide_eq_false_2 by lia. by rewrite orb_false_r. }
  rewrite IH; [|intros j Hj; destruct st; rewrite ?set_bit_length; apply Hk; simpl; lia].
  assert (bit_at (if st then set_bit p k else p) i = (st && bool_decide (i = k)) || bit_at p i) as ->.
  { destruct st; simpl; [|done]. apply bit_at_set_bit, Hk. simpl. lia. }
  destruct (decide (i = k)) as [->|Hne].
  - rewrite (bool_decide_eq_true_2 (k = k)), Nat.sub_diag by done.
    rewrite (bool_decide_eq_false_2 (S k <= _ < _)%nat) by lia.
    rewrite bool_decide_eq_true_2 by lia. simpl. destruct st, (bit_at p k); done.
  - rewrite (bool_decide_eq_false_2 (i = k)), andb_false_r by done. simpl. f_equal.
    destruct (decide (k <= i < k + S (length states))%nat) as [Hin|Hout].
    + rewrite !bool_decide_eq_true_2 by lia. by replace (i - k)%nat with (S (i - S k)) by lia.
    + by rewrite !bool_decide_eq_false_2 by lia.
Qed.

Lemma pack_bits_length states : zlen (pack_bits states) = (zlen states + 7) / 8.
Proof.
  unfold pack_bits.
  assert (∀ l p, length (foldl (λ packed '(i, on), if on : bool then set_bit packed i else packed)
                   p l) = length p) as E.
  { induction l as [|[i on] l IH]; intros p; [done|]. simpl. rewrite IH.
    destruct on; [apply set_bit_length|done]. }
  unfold zlen at 1. rewrite E, length_replicate. pose proof (zlen_nonneg states). dlia.
Qed.

Lemma pack_bits_spec states i :
  (i < length states)%nat → bit_at (pack_bits states) i = nth i states false.
Proof.
  intros Hi. unfold pack_bits. rewrite pack_fold_bits.
  - rewrite Nat.sub_0_r, bool_decide_eq_true_2 by lia. simpl.
    unfold bit_at. rewrite nth_lookup.
    destruct (_ !! _) as [b|] eqn:Eb; simpl; [|by rewrite Z.testbit_0_l].
    apply lookup_replicate in Eb as [-> _]. by rewrite Z.testbit_0_l.
  - intros j Hj. rewrite length_replicate. unfold zlen. apply Nat.Div0.div_lt_upper_bound. dlia.
Qed.

Lemma decode_pack_bits states : decode_bits (pack_bits states) (zlen states) = Ok states.
Proof.
  unfold decode_bits. pose proof (zlen_nonneg states).
  rewrite (proj2 (Z.ltb_ge _ 0)) by done. cbn [raise_if mbind res_bind].
  rewrite pack_bits_length, Z.ltb_irrefl. cbn [raise_if mbind res_bind]. f_equal.
  apply list_eq. intros i. rewrite list_lookup_fmap.
  destruct (decide (i < length states)%nat) as [Hi|Hi].
  - rewrite lookup_seq_lt by (unfold zlen; lia). simpl.
    rewrite shifted_bit by lia.
    change (Some (bit_at (pack_bits states) i) = states !! i).
    rewrite pack_bits_spec by done. symmetry. rewrite nth_lookup.
    destruct (lookup_lt_is_Some_2 states i Hi) as [x ->]. done.
  - rewrite lookup_seq_ge by (unfold zlen; lia). symmetry. apply lookup_ge_None. lia.
Qed.

(** ** Write requests *)
Lemma check_int_ok v lo hi : lo <= v <= hi → _check_int (VInt v) lo hi = Ok v.
Proof. intros H. unfold _check_int. simpl. by rewrite !(proj2 (Z.leb_le _ _)) by lia. Qed.
Lemma check_int_inv v lo hi z : _check_int v lo hi = Ok z → z = int_of v ∧ lo <= z <= hi.
Proof.
  unfold _check_int. destruct v; simpl; try done.
  destruct (_ && _) eqn:E; simpl; [|done]. intros [= <-]. zbool. lia.
Qed.
Lemma check_span_ok a n : 0 <= a <= 65535 → a + n <= 65536 → _check_span a n = Ok tt.
Proof.
  intros. unfold _check_span. rewrite check_int_ok by done. simpl.
  by rewrite (proj2 (Z.ltb_ge _ _)) by lia.
Qed.
Lemma check_span_inv a n u : _check_span a n = Ok u → 0 <= a <= 65535 ∧ a + n <= 65536.
Proof.
  unfold _check_span. intros (z & Hz & Hr)%res_bind_Ok. apply check_int_inv in Hz as [-> ?].
  apply raise_if_Ok in Hr. zbool. simpl in *. lia.
Qed.

Lemma coil_state_bool b : _coil_state (VBool b) = Ok b.
Proof. by destruct b. Qed.

Lemma header_bytes a n fc x :
  is_byte fc → 0 <= a <= 65535 → 0 <= n <= 65535 → is_byte x →
  mk_bytes [fc; Z.shiftr a 8; Z.land a 255; Z.shiftr n 8; Z.land n 255; x]
  = Ok [fc; a / 256; a mod 256; n / 256; n mod 256; x].
Proof.
  intros. rewrite !shiftr_8, !land_255. apply mk_bytes_ok. unfold is_bytes, is_byte in *.
  repeat (apply Forall_cons; split); try apply Forall_nil; dlia || done.
Qed.

(** a coil write is accepted for 1..1968 coils inside the address space, its header carries the
    address, the quantity and the byte count, the whole PDU respects the 253-byte limit, and the
    packed states decode (as a device or [decode_bits] reads them) to the states given. *)
Theorem write_coils_pdu_roundtrip address states :
  0 <= address → 1 <= zlen states <= MAX_WRITE_COILS → address + zlen states <= 65536 →
  ∃ pdu, write_multiple_coils_pdu address (VBool <$> states) = Ok pdu ∧
    slice 0 6 pdu = [WRITE_MULTIPLE_COILS; address / 256; address mod 256;
                     zlen states / 256; zlen states mod 256; (zlen states + 7) / 8] ∧
    decode_bits (slice_from 6 pdu) (zlen states) = Ok states ∧ zlen pdu <= MAX_PDU.
Proof.
  unfold MAX_WRITE_COILS, MAX_PDU. intros Ha Hn Hs.
  unfold write_multiple_coils_pdu.
  rewrite (mapr_ok _ truthy) by
    (intros v (b & -> & _)%list_elem_of_fmap; apply coil_state_bool).
  assert (truthy <$> (VBool <$> states) = states) as ->
    by (rewrite <- list_fmap_compose; by apply list_fmap_id).
  cbn [mbind res_bind]. rewrite check_int_ok by (unfold MAX_WRITE_COILS; lia).
  cbn [mbind res_bind]. rewrite check_span_ok by lia. cbn [mbind res_bind].
  rewrite pack_bits_length, header_bytes by (unfold is_byte, WRITE_MULTIPLE_COILS, WRITE_MULTIPLE_REGISTERS; dlia). cbn [mbind res_bind].
  eexists. split; [done|]. split; [done|]. split.
  - change 6 with (zlen [0;0;0;0;0;0]). rewrite slice_from_app by done. apply decode_pack_bits.
  - rewrite zlen_app, pack_bits_length. autorewrite with zlen_db. dlia.
Qed.

Lemma write_coils_pdu_roundtrip_witness :
  ∃ pdu, write_multiple_coils_pdu 19 (VBool <$> [true; false; true]) = Ok pdu ∧
    slice 0 6 pdu = [WRITE_MULTIPLE_COILS; 0; 19; 0; 3; 1] ∧
    decode_bits (slice_from 6 pdu) 3 = Ok [true; false; true] ∧ zlen pdu <= MAX_PDU.
Proof.
  apply (write_coils_pdu_roundtrip 19 [true; false; true]);
    [lia|vm_compute; split; discriminate|vm_compute; discriminate].
Defined.

(** What a slave's acknowledgement of [request] must be. *)
Definition write_echo (request : bytes) : bytes :=
  if (nth 0 request 0 =? WRITE_SINGLE_COIL) || (nth 0 request 0 =? WRITE_SINGLE_REGISTER)
  then request else slice 0 5 request.

(** a write is taken as acknowledged exactly when the request is a write PDU and the reply is
    its echo (the whole request for FC5/FC6, function, address and quantity for FC15/FC16); every
    other reply, in particular an exception PDU, raises ValueError. *)
Theorem check_write_response_exact pdu request :
  (check_write_response pdu request = Ok tt ↔
     5 <= zlen request ∧ nth 0 request 0 ∈ _WRITE_FUNCTIONS ∧ pdu = write_echo request) ∧
  (check_write_response pdu request = Ok tt ∨
     ∃ msg, check_write_response pdu request = raise ValueError msg).
Proof.
  unfold check_write_response.
  assert (∀ f, existsb (Z.eqb f) _WRITE_FUNCTIONS = true ↔ f ∈ _WRITE_FUNCTIONS) as Hin.
  { intros f. rewrite existsb_exists. setoid_rewrite <- list_elem_of_In.
    setoid_rewrite Z.eqb_eq. split; [by intros (? & ? & <-)|by exists f]. }
  destruct ((zlen request <? 5) || _) eqn:E1; simpl.
  { split; [|right; by eexists]. split; [done|]. intros (H1 & H2 & _). apply Hin in H2.
    rewrite H2 in E1. apply orb_true_iff in E1 as [E1|E1]; [zbool; lia|done]. }
  apply orb_false_iff in E1 as [E1 E2%negb_false_iff]. apply Hin in E2. zbool.
  assert (nth 0 request 0 ≠ Z.lor (nth 0 request 0) 128) as Hne
    by (unfold _WRITE_FUNCTIONS in E2; rewrite !elem_of_cons, elem_of_nil in E2;
        destruct E2 as [->|[->|[->|[->|[]]]]]; done).
  assert (∃ tl, write_echo request = nth 0 request 0 :: tl) as [tl Hecho].
  { destruct request as [|r0 request]; [exfalso; zlen|]. unfold write_echo. cbn [nth].
    destruct (_ || _); eexists; reflexivity. }
  destruct pdu as [|p0 pdu].
  { split; [|right; by eexists]. split; [done|]. intros (_ & _ & H). by rewrite Hecho in H. }
  destruct (Z.eqb_spec p0 (Z.lor (nth 0 request 0) 128)) as [->|Hp]; simpl.
  { split; [|right; by eexists]. split; [done|]. intros (_ & _ & H). rewrite Hecho in H. congruence. }
  destruct (Z.eqb_spec p0 (nth 0 request 0)) as [->|Hq]; simpl.
  2: { split; [|right; by eexists]. split; [done|]. intros (_ & _ & H). rewrite Hecho in H. congruence. }
  change (if (nth 0 request 0 =? WRITE_SINGLE_COIL) || (nth 0 request 0 =? WRITE_SINGLE_REGISTER)
          then request else slice 0 5 request) with (write_echo request).
  destruct (Z.ltb_spec (zlen (nth 0 request 0 :: pdu)) (zlen (write_echo request))); simpl.
  { split; [|right; by eexists]. split; [done|]. intros (_ & _ & H'). rewrite H' in H. lia. }
  case_bool_decide; simpl; [|split; [|right; by eexists]; split; [done|]; by intros (_ & _ & ?)].
  split; [|by left]. split; [|done]. intros _. done.
Qed.

Lemma register_data regs :
  zlen (regs ≫= to_be 2) = 2 * zlen regs ∧ is_bytes (regs ≫= to_be 2).
Proof.
  induction regs as [|r regs [IH1 IH2]]; [split; [done|constructor]|].
  change ((r :: regs) ≫= to_be 2) with (to_be 2 r ++ (regs ≫= to_be 2)).
  rewrite zlen_app, zlen_cons, IH1. change (zlen (to_be 2 r)) with 2.
  split; [lia|]. apply is_bytes_app; [apply to_be_bytes|done].
Qed.

(** a scaled or signed value goes out in registers that every write builder accepts: for a
    valid address the request is built, is a byte string within the PDU limit, and carries the
    registers big-endian. *)
Theorem write_registers_pdu_shape address regs :
  0 <= address → 1 <= zlen regs <= MAX_WRITE_REGISTERS → address + zlen regs <= 65536 →
  Forall (λ r, 0 <= r < 65536) regs →
  ∃ pdu, write_multiple_registers_pdu address regs = Ok pdu ∧ is_bytes pdu ∧
    zlen pdu = 6 + 2 * zlen regs ∧ zlen pdu <= MAX_PDU ∧ words_be (slice_from 6 pdu) = regs.
Proof.
  unfold MAX_WRITE_REGISTERS, MAX_PDU. intros Ha Hn Hs Hr. unfold write_multiple_registers_pdu.
  rewrite (mapr_ok _ id).
  2: { intros r Hin. rewrite Forall_forall in Hr. apply check_int_ok.
       pose proof (Hr r Hin). unfold id. lia. }
  rewrite list_fmap_id. cbn [mbind res_bind].
  rewrite check_int_ok by (unfold MAX_WRITE_REGISTERS; lia). cbn [mbind res_bind].
  rewrite check_span_ok by lia. cbn [mbind res_bind].
  destruct (register_data regs) as [Hl Hb].
  rewrite Hl, header_bytes by (unfold is_byte, WRITE_MULTIPLE_COILS, WRITE_MULTIPLE_REGISTERS; lia). cbn [mbind res_bind].
  eexists. split; [done|]. split; [|split; [|split]].
  - apply is_bytes_app; [|done]. unfold is_bytes, is_byte.
    repeat (apply Forall_cons; split); try apply Forall_nil; dlia || done.
  - rewrite zlen_app, Hl. autorewrite with zlen_db. lia.
  - rewrite zlen_app, Hl. autorewrite with zlen_db. lia.
  - change 6 with (zlen [0;0;0;0;0;0]). rewrite slice_from_app by done. by apply words_be_to_be.
Qed.

Lemma write_registers_pdu_shape_witness :
  ∃ pdu, write_multiple_registers_pdu 100 [1; 65535] = Ok pdu ∧ is_bytes pdu ∧
    zlen pdu = 6 + 2 * 2 ∧ zlen pdu <= MAX_PDU ∧ words_be (slice_from 6 pdu) = [1; 65535].
Proof.
  apply (write_registers_pdu_shape 100 [1; 65535]);
    [lia|vm_compute; split; discriminate|vm_compute; discriminate|].
  repeat (apply Forall_cons; split; [lia|]). by apply Forall_nil.
Defined.
