(* ===== verification/Protocols.v ===== *)
(** * Protocol sessions (app/engine/protocols/)

    A client connection owns one protocol session. [ProtocolSession] is the interface of
    base.py as a class of state-passing operations; [Raw], [Telnet] and [Rfc2217] model raw.py,
    telnet.py and rfc2217.py, and [make_session] the factory of __init__.py. *)
From S2P Require Import Prelude PyFloat PyStr PyVal.
#[local] Open Scope Z_scope.

(** The operations the bridge calls; each returns its result and the session afterwards. *)
Class ProtocolSession (S : Type) := {
  initial_net_bytes : S → bytes * S;
  from_network : bytes → S → bytes * S;
  from_serial : bytes → S → bytes * S;
  take_net_out : S → bytes * S;
  poll : S → bytes * S;
}.

(** What the bridge relies on: a session is a stream transducer. Splitting the network bytes into
    other chunks changes neither the serial-bound bytes nor the session state, and collecting the
    pending replies in between does not change how the stream is decoded ([decodes_as]). *)
Class StreamingSession (S : Type) `{ProtocolSession S} := {
  from_network_nil : ∀ (s : S), from_network [] s = ([], s);
  from_network_app : ∀ a b (s : S),
    from_network (a ++ b) s =
      let '(o1, s1) := from_network a s in
      let '(o2, s2) := from_network b s1 in (o1 ++ o2, s2);
  decodes_as : S → S → Prop;
  decodes_refl : ∀ s, decodes_as s s;
  take_decodes : ∀ s s', decodes_as s s' → decodes_as (take_net_out s).2 s';
  from_network_decodes : ∀ d s s', decodes_as s s' →
    (from_network d s).1 = (from_network d s').1 ∧
    decodes_as (from_network d s).2 (from_network d s').2;
}.

Module Raw.
(** [RawSession]: every method is the pass-through of the base class. *)
Inductive RawSession := mkRaw.

#[global] Instance raw_session : ProtocolSession RawSession := {
  initial_net_bytes s := ([], s);
  from_network data s := (data, s);
  from_serial data s := (data, s);
  take_net_out s := ([], s);
  poll s := ([], s);
}.

#[global] Instance raw_streaming : StreamingSession RawSession.
Proof. by refine {| decodes_as s s' := True |}. Defined.
End Raw.

Module Telnet.
Definition IAC : Z := 255.
Definition DONT : Z := 254.
Definition DO : Z := 253.
Definition WONT : Z := 252.
Definition WILL : Z := 251.
Definition SB : Z := 250.
Definition SE : Z := 240.
Definition OPT_BINARY : Z := 0.
Definition OPT_SGA : Z := 3.
Definition SUPPORTED : list Z := [OPT_BINARY; OPT_SGA].
Definition supported (opt : Z) : bool := existsb (Z.eqb opt) SUPPORTED.

Inductive tstate := Data | Iac | Opt | Sb | SbIac.

Record TelnetSession := mkTelnet {
  _net_out : bytes;
  _state : tstate;
  _cmd : Z;
  _local : gmap Z bool;   (* options WE will perform *)
  _remote : gmap Z bool;  (* options the PEER performs *)
}.

Definition _MAX_NET_OUT : Z := 65536.

Definition set_net_out o s := mkTelnet o (_state s) (_cmd s) (_local s) (_remote s).
Definition set_state st s := mkTelnet (_net_out s) st (_cmd s) (_local s) (_remote s).
Definition set_cmd c s := mkTelnet (_net_out s) (_state s) c (_local s) (_remote s).
Definition set_local opt b s :=
  mkTelnet (_net_out s) (_state s) (_cmd s) (<[opt:=b]> (_local s)) (_remote s).
Definition set_remote opt b s :=
  mkTelnet (_net_out s) (_state s) (_cmd s) (_local s) (<[opt:=b]> (_remote s)).

Definition _send (bs : bytes) (s : TelnetSession) : TelnetSession :=
  if zlen (_net_out s) <? _MAX_NET_OUT then set_net_out (_net_out s ++ bs) s else s.

(** [TelnetSession()]: request an 8-bit clean session, pre-marking the desired state. *)
Definition init_opt (s : TelnetSession) (opt : Z) : TelnetSession :=
  let s := _send [IAC; WILL; opt] (set_local opt true s) in
  _send [IAC; DO; opt] (set_remote opt true s).
Definition new : TelnetSession :=
  foldl init_opt (mkTelnet [] Data 0 ∅ ∅) [OPT_BINARY; OPT_SGA].

Definition take (s : TelnetSession) : bytes * TelnetSession := (_net_out s, set_net_out [] s).

(** [data.replace(b"\xff", b"\xff\xff")] *)
Definition escape (data : bytes) : bytes := data ≫= λ b, if b =? IAC then [IAC; IAC] else [b].

(** [d.get(opt)] is truthy / is not False *)
Definition marked_on (o : option bool) : bool := match o with Some true => true | _ => false end.
Definition not_off (o : option bool) : bool := match o with Some false => false | _ => true end.

Definition _negotiate (cmd opt : Z) (s : TelnetSession) : TelnetSession :=
  if cmd =? DO then
    if supported opt then
      if negb (marked_on (_local s !! opt))
      then _send [IAC; WILL; opt] (set_local opt true s) else s
    else if not_off (_local s !! opt)
    then _send [IAC; WONT; opt] (set_local opt false s) else s
  else if cmd =? DONT then
    if not_off (_local s !! opt)
    then _send [IAC; WONT; opt] (set_local opt false s) else s
  else if cmd =? WILL then
    if supported opt then
      if negb (marked_on (_remote s !! opt))
      then _send [IAC; DO; opt] (set_remote opt true s) else s
    else if not_off (_remote s !! opt)
    then _send [IAC; DONT; opt] (set_remote opt false s) else s
  else if cmd =? WONT then
    if not_off (_remote s !! opt)
    then _send [IAC; DONT; opt] (set_remote opt false s) else s
  else s.

(** One iteration of the loop of [from_network]: bytes appended to the output, new state. *)
Definition feed (byte : Z) (s : TelnetSession) : bytes * TelnetSession :=
  match _state s with
  | Data => if byte =? IAC then ([], set_state Iac s) else ([byte], s)
  | Iac =>
      if byte =? IAC then ([IAC], set_state Data s)
      else if existsb (Z.eqb byte) [DO; DONT; WILL; WONT]
      then ([], set_state Opt (set_cmd byte s))
      else if byte =? SB then ([], set_state Sb s)
      else ([], set_state Data s)
  | Opt => ([], set_state Data (_negotiate (_cmd s) byte s))
  | Sb => if byte =? IAC then ([], set_state SbIac s) else ([], s)
  | SbIac => ([], set_state (if byte =? SE then Data else Sb) s)
  end.

Fixpoint run (data : bytes) (s : TelnetSession) : bytes * TelnetSession :=
  match data with
  | [] => ([], s)
  | byte :: data' =>
      let '(o, s1) := feed byte s in
      let '(o', s2) := run data' s1 in (o ++ o', s2)
  end.

#[global] Instance telnet_session : ProtocolSession TelnetSession := {
  initial_net_bytes := take;
  from_network := run;
  from_serial data s := (escape data, s);
  take_net_out := take;
  poll s := ([], s);
}.

Lemma run_app a b s :
  run (a ++ b) s = let '(o1, s1) := run a s in let '(o2, s2) := run b s1 in (o1 ++ o2, s2).
Proof.
  revert s. induction a as [|x a IH]; intros s; simpl; [by destruct (run b s)|].
  destruct (feed x s) as [o1 s1]. rewrite IH. destruct (run a s1) as [o2 s2].
  destruct (run b s2). by rewrite app_assoc.
Qed.

(** Two sessions that differ in their pending replies only. *)
Definition same_decoding (s s' : TelnetSession) : Prop :=
  _state s = _state s' ∧ _cmd s = _cmd s' ∧ _local s = _local s' ∧ _remote s = _remote s'.

Lemma send_same b s s' : same_decoding s s' → same_decoding (_send b s) (_send b s').
Proof. unfold same_decoding, _send. by repeat case_match. Qed.
Lemma negotiate_same cmd opt s s' :
  same_decoding s s' → same_decoding (_negotiate cmd opt s) (_negotiate cmd opt s').
Proof.
  intros Hs. pose proof Hs as (H1 & H2 & H3 & H4). unfold _negotiate. rewrite H3, H4.
  assert (∀ b, same_decoding (set_local opt b s) (set_local opt b s')) as Hl
    by (intros b; unfold same_decoding; cbn; by rewrite H3).
  assert (∀ b, same_decoding (set_remote opt b s) (set_remote opt b s')) as Hr
    by (intros b; unfold same_decoding; cbn; by rewrite H4).
  repeat match goal with |- context [if ?c then _ else _] => destruct c end;
    try apply send_same; auto.
Qed.
Lemma feed_same x s s' :
  same_decoding s s' → (feed x s).1 = (feed x s').1 ∧ same_decoding (feed x s).2 (feed x s').2.
Proof.
  intros Hs. pose proof Hs as (H1 & H2 & H3 & H4). unfold feed. rewrite H1, H2.
  pose proof (negotiate_same (_cmd s') x s s' Hs) as (_ & N2 & N3 & N4).
  destruct (_state s');
    repeat match goal with |- context [if ?c then _ else _] => destruct c end; by split_and!.
Qed.
Lemma run_same d s s' :
  same_decoding s s' → (run d s).1 = (run d s').1 ∧ same_decoding (run d s).2 (run d s').2.
Proof.
  revert s s'. induction d as [|x d IH]; intros s s' Hs; cbn [run]; [done|].
  destruct (feed_same x s s' Hs) as [E1 E2].
  destruct (feed x s) as [o1 s1], (feed x s') as [o1' s1']. cbn in E1, E2. subst o1'.
  destruct (IH s1 s1' E2) as [E3 E4]. destruct (run d s1), (run d s1'). cbn in *. by subst.
Qed.

#[global] Instance telnet_streaming : StreamingSession TelnetSession.
Proof.
  refine {| decodes_as := same_decoding |}; [done|exact run_app|done|done|exact run_same].
Defined.
End Telnet.
Export Telnet(TelnetSession).

Module Rfc2217.
Definition _MODEM_READS : list pystr := str <$> ["cts"; "dsr"; "ri"; "cd"]%string.
Definition _LINE_WRITES : list pystr := str <$> ["rts"; "dtr"; "break_condition"]%string.
Definition _CONFIG_WRITES : list pystr :=
  str <$> ["baudrate"; "bytesize"; "parity"; "stopbits"; "xonxoff"; "rtscts"; "dsrdtr"]%string.
Definition _RO_BLOCKED_WRITES : list pystr := _CONFIG_WRITES ++ _LINE_WRITES.
Definition _RO_BLOCKED_CALLS : list pystr :=
  str <$> ["write"; "flush"; "reset_input_buffer"; "reset_output_buffer"; "flushInput";
           "flushOutput"; "send_break"; "setRTS"; "setDTR"; "setBreak"]%string.

(** The serial object of pyserial: attribute reads and writes and method calls, any of which
    may raise. *)
Record SerialOps (Ser : Type) := {
  ser_get : pystr → Ser → res pyval;
  ser_set : pystr → pyval → Ser → res Ser;
  ser_call : pystr → Ser → res (pyval * Ser);
}.
Arguments ser_get {Ser}. Arguments ser_set {Ser}. Arguments ser_call {Ser}.

Section proxy.
Context {Ser : Type} (ops : SerialOps Ser) (read_only : bool).

Definition mem (name : pystr) (l : list pystr) : bool := existsb (str_eqb name) l.

(** [_ModemSafeSerial.__getattr__] of a data attribute. *)
Definition proxy_get (name : pystr) (ser : Ser) : res pyval :=
  if mem name _MODEM_READS then
    match ser_get ops name ser with Ok v => Ok v | Raise _ => Ok (VBool false) end
  else ser_get ops name ser.

(** ... and of a method, called at once ([_noop] when blocked). *)
Definition proxy_call (name : pystr) (ser : Ser) : res (pyval * Ser) :=
  if read_only && mem name _RO_BLOCKED_CALLS then Ok (VNone, ser)
  else ser_call ops name ser.

(** [_ModemSafeSerial.__setattr__] *)
Definition proxy_set (name : pystr) (value : pyval) (ser : Ser) : res Ser :=
  if read_only && mem name _RO_BLOCKED_WRITES then Ok ser
  else if mem name _LINE_WRITES then
    match ser_set ops name value ser with Ok ser' => Ok ser' | Raise _ => Ok ser end
  else ser_set ops name value ser.
End proxy.

(** pyserial's PortManager is a parameter: its operations transform the manager together with
    the (proxied) serial object and write telnet bytes to the connection. *)
Record PortManagerOps (PM : Type) := {
  pm_filter : bytes → PM → bytes * bytes * PM;    (* serial-bound bytes, bytes written *)
  pm_escape : bytes → PM → bytes * PM;
  pm_check_modem_lines : PM → res unit * bytes * PM;
}.
Arguments pm_filter {PM}. Arguments pm_escape {PM}. Arguments pm_check_modem_lines {PM}.

Record Rfc2217Session (PM : Type) := mkRfc { _conn : bytes; _pm : PM }.
Arguments mkRfc {PM}. Arguments _conn {PM}. Arguments _pm {PM}.

Section session.
Context {PM : Type} (pm : PortManagerOps PM).

Definition rfc_take (s : Rfc2217Session PM) : bytes * Rfc2217Session PM :=
  (_conn s, mkRfc [] (_pm s)).
Definition rfc_from_network (data : bytes) (s : Rfc2217Session PM) :=
  let '(out, written, p) := pm_filter pm data (_pm s) in
  (out, mkRfc (_conn s ++ written) p).
Definition rfc_from_serial (data : bytes) (s : Rfc2217Session PM) :=
  let '(out, p) := pm_escape pm data (_pm s) in (out, mkRfc (_conn s) p).
(** [poll]: an exception of [check_modem_lines] is swallowed; what it wrote is still sent. *)
Definition rfc_poll (s : Rfc2217Session PM) :=
  let '(_, written, p) := pm_check_modem_lines pm (_pm s) in
  rfc_take (mkRfc (_conn s ++ written) p).

(** [poll_interval if poll_interval and poll_interval > 0 else 1.0], in milliseconds. *)
Definition rfc_poll_interval (poll_interval : Z) : Z :=
  if negb (poll_interval =? 0) && (0 <? poll_interval) then poll_interval else 1000.

Definition rfc2217_session : ProtocolSession (Rfc2217Session PM) := {|
  initial_net_bytes := rfc_take;
  from_network := rfc_from_network;
  from_serial := rfc_from_serial;
  take_net_out := rfc_take;
  poll := rfc_poll;
|}.
End session.
End Rfc2217.
Export Rfc2217(Rfc2217Session).

(** ** The factory *)
Inductive Session (PM : Type) :=
  | SRaw (s : Raw.RawSession)
  | STelnet (s : TelnetSession)
  | SRfc2217 (s : Rfc2217Session PM) (poll_interval : Z).
Arguments SRaw {PM}. Arguments STelnet {PM}. Arguments SRfc2217 {PM}.

(** [pm0] is the manager [PortManager(safe_serial, conn)] builds, with the negotiation bytes its
    constructor wrote. *)
Definition make_session {PM} (protocol : pystr) (pm0 : bytes * PM) (poll_interval : Z)
    : res (Session PM) :=
  if str_eqb protocol (str "raw") then Ok (SRaw Raw.mkRaw)
  else if str_eqb protocol (str "telnet") then Ok (STelnet Telnet.new)
  else if str_eqb protocol (str "rfc2217")
  then Ok (SRfc2217 (Rfc2217.mkRfc pm0.1 pm0.2) (Rfc2217.rfc_poll_interval poll_interval))
  else raise ValueError "Unknown protocol: {protocol!r}".

Section dispatch.
Context {PM : Type} (pm : Rfc2217.PortManagerOps PM).

Definition dispatch (f : ∀ S, ProtocolSession S → S → bytes * S) (s : Session PM)
    : bytes * Session PM :=
  match s with
  | SRaw r => prod_map id SRaw (f _ Raw.raw_session r)
  | STelnet t => prod_map id STelnet (f _ Telnet.telnet_session t)
  | SRfc2217 c i => prod_map id (λ c', SRfc2217 c' i) (f _ (Rfc2217.rfc2217_session pm) c)
  end.

(** Dynamic dispatch: a session of any protocol implements the interface. *)
#[export] Instance any_session : ProtocolSession (Session PM) := {
  initial_net_bytes := dispatch (λ S P s, initial_net_bytes s);
  from_network data := dispatch (λ S P s, from_network data s);
  from_serial data := dispatch (λ S P s, from_serial data s);
  take_net_out := dispatch (λ S P s, take_net_out s);
  poll := dispatch (λ S P s, poll s);
}.

(** [session.poll_interval]: only an RFC2217 session is polled. *)
Definition session_poll_interval (s : Session PM) : option Z :=
  match s with SRfc2217 _ i => Some i | _ => None end.
End dispatch.

(** ** Telnet *)
Section telnet.
Import Telnet.

Lemma negotiate_state cmd opt s : _state (_negotiate cmd opt s) = _state s.
Proof. unfold _negotiate, _send. repeat case_match; done. Qed.
Lemma negotiate_cmd cmd opt s : _cmd (_negotiate cmd opt s) = _cmd s.
Proof. unfold _negotiate, _send. repeat case_match; done. Qed.
End telnet.

(** what the telnet session sends for serial data is decoded by a telnet receiver (the
    parser of the same class, in its data state) to exactly the serial data, with no
    negotiation triggered: the link is 8-bit clean, 0xFF included. *)
Theorem telnet_transparent data s :
  Telnet._state s = Telnet.Data →
  Telnet.run (Telnet.escape data) s = (data, s).
Proof.
  intros Hs. induction data as [|b data IH]; [done|].
  change (Telnet.escape (b :: data))
    with ((if b =? Telnet.IAC then [Telnet.IAC; Telnet.IAC] else [b]) ++ Telnet.escape data).
  rewrite Telnet.run_app. destruct (Z.eqb_spec b Telnet.IAC) as [->|Hb]; simpl.
  - unfold Telnet.feed at 1. rewrite Hs. simpl.
    replace (Telnet.set_state Telnet.Data (Telnet.set_state Telnet.Iac s)) with s
      by (destruct s; simpl in *; by subst).
    by rewrite IH.
  - unfold Telnet.feed. rewrite Hs, (proj2 (Z.eqb_neq _ _)) by done. simpl. by rewrite IH.
Qed.

Lemma telnet_transparent_witness :
  Telnet.run (Telnet.escape [1; 255; 0; 255]) Telnet.new
  = ([1; 255; 0; 255], Telnet.new).
Proof. by apply telnet_transparent. Defined.

(** option negotiation cannot loop: answering a command twice is the same as answering it
    once (the second time nothing is sent and nothing changes), and a reply is only ever sent
    together with a change of the recorded option state. *)
Theorem telnet_negotiation_loop_free cmd opt s :
  let s1 := Telnet._negotiate cmd opt s in
  Telnet._negotiate cmd opt s1 = s1 ∧
  (Telnet._local s1 = Telnet._local s → Telnet._remote s1 = Telnet._remote s →
   Telnet._net_out s1 = Telnet._net_out s).
Proof.
  assert (∀ m o b, <[o:=b]> (m : gmap Z bool) !! o = Some b) as Hl
    by (intros; apply lookup_insert_eq).
  assert (∀ m o b, m !! o ≠ Some b → <[o:=b]> (m : gmap Z bool) ≠ m) as Hne
    by (intros m o b H E; apply H; rewrite <- E; apply lookup_insert_eq).
  cbv zeta. unfold Telnet._negotiate, Telnet._send, Telnet.marked_on, Telnet.not_off.
  split.
  - repeat case_match; simplify_eq/=; try done; rewrite ?Hl in *; simplify_eq.
  - repeat case_match; simplify_eq/=; intros E1 E2; try done; exfalso;
      (eapply Hne; [|first [exact E1|exact E2]]); congruence.
Qed.

(** the buffer of pending negotiation replies never grows past its cap by more than the one
    reply that reached it, whatever a peer sends. *)
Theorem telnet_net_out_bounded data :
  zlen (Telnet._net_out (Telnet.run data Telnet.new).2)
  <= Telnet._MAX_NET_OUT + 2.
Proof.
  set (I := λ s, zlen (Telnet._net_out s) <= Telnet._MAX_NET_OUT + 2).
  assert (∀ a b c s, I s → I (Telnet._send [a; b; c] s)) as Hsend.
  { intros a b c s. unfold I, Telnet._send.
    destruct (zlen (Telnet._net_out s) <? _) eqn:E; [|done]. zbool. simpl. intros _. zlen. }
  assert (∀ b s, I s → I (Telnet.feed b s).2) as Hfeed.
  { intros b s Hs. unfold Telnet.feed, Telnet._negotiate.
    repeat case_match; simplify_eq/=; try exact Hs; by apply Hsend. }
  assert (∀ s, I s → I (Telnet.run data s).2) as Hrun.
  { induction data as [|b data IH]; intros s Hs; [done|]. simpl.
    pose proof (Hfeed b s Hs) as Hb. destruct (Telnet.feed b s) as [o s1].
    pose proof (IH s1 Hb) as Hd. by destruct (Telnet.run data s1). }
  apply Hrun. vm_compute. discriminate.
Qed.

(** Two of our own sessions facing each other settle at once: the initial requests of one are
    answered by the other with silence, because each side has pre-marked the state asked for. *)
Example telnet_peers_settle :
  from_network (initial_net_bytes Telnet.new).1 (initial_net_bytes Telnet.new).2
  = ([], Telnet.set_cmd Telnet.DO (initial_net_bytes Telnet.new).2).
Proof. reflexivity. Qed.

(** ** RFC2217 *)
Section readonly.
Context {Ser : Type} (ops : Rfc2217.SerialOps Ser).

(** One interaction of PortManager with the serial object it was given. *)
Inductive access := AGet (name : pystr) | ASet (name : pystr) (v : pyval) | ACall (name : pystr).

Definition do_access (ro : bool) (a : access) (ser : Ser) : Ser :=
  match a with
  | AGet _ => ser
  | ASet n v => match Rfc2217.proxy_set ops ro n v ser with Ok s => s | Raise _ => ser end
  | ACall n => match Rfc2217.proxy_call ops ro n ser with Ok (_, s) => s | Raise _ => ser end
  end.
End readonly.

(** on a read-only mapping nothing an RFC2217 client makes the port manager do through the
    proxy reconfigures the port: any sequence of attribute writes to the line settings and
    control lines, and of the blocked calls, leaves the serial object as it was. *)
Theorem rfc2217_read_only_preserves {Ser} (ops : Rfc2217.SerialOps Ser) accesses ser :
  Forall (λ a, match a with
               | AGet _ => True
               | ASet n _ => n ∈ Rfc2217._RO_BLOCKED_WRITES
               | ACall n => n ∈ Rfc2217._RO_BLOCKED_CALLS
               end) accesses →
  foldl (λ s a, do_access ops true a s) ser accesses = ser.
Proof.
  assert (∀ n l, n ∈ l → Rfc2217.mem n l = true) as Hmem.
  { intros n l Hn. unfold Rfc2217.mem. apply existsb_exists. exists n.
    split; [by apply list_elem_of_In|apply str_eqb_refl]. }
  induction 1 as [|a accesses Ha _ IH]; [done|]. simpl.
  assert (do_access ops true a ser = ser) as ->; [|done].
  destruct a as [n|n v|n]; simpl; [done|..].
  - unfold Rfc2217.proxy_set. by rewrite (Hmem _ _ Ha).
  - unfold Rfc2217.proxy_call. by rewrite (Hmem _ _ Ha).
Qed.

Lemma telnet_negotiation_loop_free_witness :
  let s := Telnet.new in
  let s1 := Telnet._negotiate Telnet.WILL 1 s in
  Telnet._negotiate Telnet.WILL 1 s1 = s1 ∧
  (Telnet._local s1 = Telnet._local s → Telnet._remote s1 = Telnet._remote s →
   Telnet._net_out s1 = Telnet._net_out s).
Proof. exact (telnet_negotiation_loop_free Telnet.WILL 1 Telnet.new). Defined.

(** A backend for the witness: an attribute table on which every access succeeds. *)
Definition table_ops : Rfc2217.SerialOps (list (pystr * pyval)) := {|
  Rfc2217.ser_get n t := match assoc n t with Some v => Ok v | None => raise AttributeError "" end;
  Rfc2217.ser_set n v t := Ok ((n, v) :: t);
  Rfc2217.ser_call n t := Ok (VNone, (n, VNone) :: t);
|}.

Lemma rfc2217_read_only_preserves_witness :
  foldl (λ s a, do_access table_ops true a s) [(str "baudrate", VInt 9600)]
    [AGet (str "cts"); ASet (str "baudrate") (VInt 300); ACall (str "write")]
  = [(str "baudrate", VInt 9600)].
Proof.
  apply rfc2217_read_only_preserves. apply Forall_cons. split; [done|].
  apply Forall_cons. split; [left|]. apply Forall_cons. split; [left|by apply Forall_nil].
Defined.
