(* ===== verification/Sparkplug.v ===== *)
(** * Sparkplug B payload codec (app/engine/sparkplug.py)

    The protobuf wire format, metric values, payload encoder and defensive decoder, topics and
    sequence numbers. Positions in a message are [nat]; the generator [_fields] and the loop that
    consumes it are one fold, so that errors keep the order the code raises them in. Loops are
    bounded by fuel ([OutOfFuel] is proved unreachable for the fuel the entry points pass). *)
From Stdlib Require Import SpecFloat.
From S2P Require Import Prelude PyFloat PyStr PyVal.
#[local] Open Scope Z_scope.

Definition TOPIC_NAMESPACE : pystr := str "spBv1.0".
Definition MESSAGE_TYPES : list pystr :=
  str <$> ["NBIRTH"; "NDEATH"; "NDATA"; "NCMD"; "DBIRTH"; "DDEATH"; "DDATA"; "DCMD";
           "STATE"]%string.
Definition BDSEQ : pystr := str "bdSeq".
Definition REBIRTH : pystr := str "Node Control/Rebirth".

(** The scalar members of the [DataType] enum that the code refers to; a metric's datatype is an
    arbitrary int, since it also comes off the wire. *)
Module DataType.
Definition Int8 : Z := 1.
Definition Int16 : Z := 2.
Definition Int32 : Z := 3.
Definition Int64 : Z := 4.
Definition UInt8 : Z := 5.
Definition UInt16 : Z := 6.
Definition UInt32 : Z := 7.
Definition UInt64 : Z := 8.
Definition Float : Z := 9.
Definition Double : Z := 10.
Definition Boolean : Z := 11.
Definition String : Z := 12.
Definition DateTime : Z := 13.
Definition Text : Z := 14.
Definition Bytes : Z := 17.
End DataType.

Record Metric := mkMetric {
  m_name : pystr;
  m_datatype : Z;
  m_value : pyval;
  m_alias : option Z;
  m_timestamp : option Z;
  m_is_null : bool;
}.
Definition Metric0 : Metric := mkMetric [] 0 VNone None None false.

Record Payload := mkPayload {
  p_timestamp : option Z;
  p_metrics : list Metric;
  p_seq : option Z;
  p_uuid : option pystr;
  p_body : option bytes;
}.

(** ** Wire format *)
Definition _VARINT : Z := 0.
Definition _I64 : Z := 1.
Definition _LEN : Z := 2.
Definition _SGROUP : Z := 3.
Definition _EGROUP : Z := 4.
Definition _I32 : Z := 5.
Definition _U32_MAX : Z := 2 ^ 32 - 1.
Definition _U64_MAX : Z := 2 ^ 64 - 1.
Definition _MAX_FIELD : Z := 2 ^ 29 - 1.
Definition _F_INT : Z := 10.
Definition _F_LONG : Z := 11.
Definition _F_FLOAT : Z := 12.
Definition _F_DOUBLE : Z := 13.
Definition _F_BOOL : Z := 14.
Definition _F_STRING : Z := 15.
Definition _F_BYTES : Z := 16.

(** [while value > 0x7F: ...]: ten iterations cover 64 bits. *)
Fixpoint varint_loop (fuel : nat) (value : Z) : bytes :=
  match fuel with
  | O => []
  | S fuel' =>
      if 127 <? value
      then Z.lor 128 (Z.land value 127) :: varint_loop fuel' (Z.shiftr value 7)
      else [value]
  end.
Definition _varint (value : Z) : res bytes :=
  _ ← raise_if (negb ((0 <=? value) && (value <=? _U64_MAX))) ValueError
               "varint out of range: {value}";
  Ok (varint_loop 10 value).

(** [for shift in range(0, 70, 7)]: [n] iterations left. *)
Fixpoint read_varint_loop (n : nat) (shift value : Z) (data : bytes) (pos : nat)
    : res (Z * nat) :=
  match n with
  | O => raise ValueError "varint longer than 10 bytes"
  | S n' =>
      match data !! pos with
      | None => raise ValueError "truncated varint"
      | Some byte =>
          let value := Z.lor value (Z.shiftl (Z.land byte 127) shift) in
          if byte <? 128 then Ok (Z.land value _U64_MAX, S pos)
          else read_varint_loop n' (shift + 7) value data (S pos)
      end
  end.
Definition _read_varint (data : bytes) (pos : nat) : res (Z * nat) :=
  read_varint_loop 10 0 0 data pos.

Definition _key (number wire_type : Z) : res bytes :=
  _varint (Z.lor (Z.shiftl number 3) wire_type).
Definition _field_varint (number value : Z) : res bytes :=
  k ← _key number _VARINT; v ← _varint value; Ok (k ++ v).
Definition _field_len (number : Z) (value : bytes) : res bytes :=
  k ← _key number _LEN; l ← _varint (zlen value); Ok (k ++ l ++ value).

Definition _read_key (data : bytes) (pos : nat) : res (Z * Z * nat) :=
  '(key, pos) ← _read_varint data pos;
  let number := Z.shiftr key 3 in
  _ ← raise_if (negb ((1 <=? number) && (number <=? _MAX_FIELD))) ValueError
               "invalid protobuf field number {number}";
  Ok (number, Z.land key 7, pos).

Definition _value_span (data : bytes) (pos : nat) (wire_type : Z) : res (nat * nat) :=
  if wire_type =? _VARINT then
    '(_, e) ← _read_varint data pos; Ok (pos, e)
  else
    '(size, pos) ←
      (if wire_type =? _I64 then Ok (8, pos)
       else if wire_type =? _I32 then Ok (4, pos)
       else if wire_type =? _LEN then _read_varint data pos
       else raise ValueError "unexpected protobuf wire type {wire_type}");
    _ ← raise_if (zlen data - Z.of_nat pos <? size) ValueError "truncated protobuf field";
    Ok (pos, (pos + Z.to_nat size)%nat).

(** [open_groups] is the stack, innermost group first. *)
Fixpoint skip_group_loop (fuel : nat) (open_groups : list Z) (data : bytes) (pos : nat)
    : res nat :=
  match open_groups with
  | [] => Ok pos
  | top :: outer =>
      match fuel with
      | O => raise OutOfFuel ""
      | S fuel' =>
          '(inner, wire_type, pos) ← _read_key data pos;
          if wire_type =? _SGROUP then skip_group_loop fuel' (inner :: open_groups) data pos
          else if wire_type =? _EGROUP then
            if negb (top =? inner) then raise ValueError "mismatched protobuf end-group"
            else skip_group_loop fuel' outer data pos
          else
            '(_, pos) ← _value_span data pos wire_type;
            skip_group_loop fuel' open_groups data pos
      end
  end.
Definition _skip_group (data : bytes) (pos : nat) (number : Z) : res nat :=
  skip_group_loop (S (length data)) [number] data pos.

(** A yielded value: an int for varints, the raw bytes otherwise. *)
Inductive fval := FInt (z : Z) | FBytes (b : bytes).

(** [for number, wire_type, raw in _fields(data): acc = step(...)] *)
Fixpoint fields_loop {A} (step : Z → Z → fval → A → res A) (fuel : nat) (data : bytes)
    (pos : nat) (acc : A) : res A :=
  if (length data <=? pos)%nat then Ok acc
  else
    match fuel with
    | O => raise OutOfFuel ""
    | S fuel' =>
        '(number, wire_type, pos) ← _read_key data pos;
        if wire_type =? _SGROUP then
          pos ← _skip_group data pos number; fields_loop step fuel' data pos acc
        else if wire_type =? _VARINT then
          '(value, pos) ← _read_varint data pos;
          acc ← step number wire_type (FInt value) acc;
          fields_loop step fuel' data pos acc
        else
          '(start, pos) ← _value_span data pos wire_type;
          acc ← step number wire_type (FBytes (take (pos - start) (drop start data))) acc;
          fields_loop step fuel' data pos acc
    end.
Definition _fields {A} (step : Z → Z → fval → A → res A) (data : bytes) (acc : A) : res A :=
  fields_loop step (S (length data)) data 0 acc.

(** ** Argument checks *)
Definition _uint (value : pyval) (bits : Z) : res Z :=
  match value with
  | VInt v =>
      if (v <? 0) || negb (Z.shiftr v bits =? 0)
      then raise ValueError "{what} must be an integer 0..{(1 << bits) - 1}, got {value!r}"
      else Ok v
  | _ => raise ValueError "{what} must be an integer 0..{(1 << bits) - 1}, got {value!r}"
  end.
Definition _text (value : pyval) : res bytes :=
  match value with
  | VStr s =>
      match utf8_encode s with
      | Ok b => Ok b
      | Raise _ => raise ValueError "{what} is not encodable as UTF-8"
      end
  | _ => raise ValueError "{what} must be a str, got {value!r}"
  end.
Definition _blob (value : pyval) : res bytes :=
  match value with
  | VBytes b => Ok b
  | _ => raise ValueError "{what} must be bytes, got {value!r}"
  end.
Definition _utf8 (raw : bytes) : res pystr :=
  match utf8_decode raw with
  | Ok s => Ok s
  | Raise _ => raise ValueError "{what} is not valid UTF-8"
  end.

(** ** Metric values *)
Fixpoint zassoc {A} (k : Z) (l : list (Z * A)) : option A :=
  match l with
  | [] => None
  | (k', a) :: l' => if k =? k' then Some a else zassoc k l'
  end.

Definition _INT_TYPES : list (Z * (bool * Z)) :=
  [(DataType.Int8, (true, 8)); (DataType.Int16, (true, 16)); (DataType.Int32, (true, 32));
   (DataType.Int64, (true, 64)); (DataType.UInt8, (false, 8)); (DataType.UInt16, (false, 16));
   (DataType.UInt32, (false, 32)); (DataType.UInt64, (false, 64));
   (DataType.DateTime, (false, 64))].

Definition _VALUE_FIELDS : list (Z * list Z) :=
  ((λ '(dt, (_, bits)), (dt, if bits <=? 32 then [_F_INT; _F_LONG] else [_F_LONG; _F_INT]))
     <$> _INT_TYPES) ++
  [(DataType.Float, [_F_FLOAT; _F_DOUBLE]); (DataType.Double, [_F_DOUBLE; _F_FLOAT]);
   (DataType.Boolean, [_F_BOOL]); (DataType.String, [_F_STRING]); (DataType.Text, [_F_STRING]);
   (DataType.Bytes, [_F_BYTES])].

Definition _signed (raw bits : Z) : Z :=
  if negb (Z.shiftr raw (bits - 1) =? 0) then raw - Z.shiftl 1 bits else raw.

(** [lo, hi] of an integer type. *)
Definition int_bounds (signed : bool) (bits : Z) : Z * Z :=
  if signed then (- Z.shiftl 1 (bits - 1), Z.shiftl 1 (bits - 1) - 1)
  else (0, Z.shiftl 1 bits - 1).

Definition is_number (v : pyval) : option num :=
  match v with VInt z => Some (NInt z) | VFloat f => Some (NFloat f) | _ => None end.

Definition _encode_value (datatype : Z) (value : pyval) : res bytes :=
  match zassoc datatype _VALUE_FIELDS with
  | Some (number :: _) =>
      match zassoc datatype _INT_TYPES with
      | Some (signed, bits) =>
          let '(lo, hi) := int_bounds signed bits in
          match value with
          | VInt v =>
              _ ← raise_if (negb ((lo <=? v) && (v <=? hi))) ValueError
                           "{value!r} is not a valid {type} ({lo}..{hi})";
              _field_varint number (Z.land v (if number =? _F_INT then _U32_MAX else _U64_MAX))
          | _ => raise ValueError "{value!r} is not a valid {type} ({lo}..{hi})"
          end
      | None =>
          if (number =? _F_FLOAT) || (number =? _F_DOUBLE) then
            match is_number value with
            | None => raise ValueError "{type} value must be a number, got {value!r}"
            | Some n =>
                overflow_as_value
                  (if number =? _F_FLOAT
                   then k ← _key number _I32; x ← to_float n; b ← pack_f x; Ok (k ++ to_le 4 b)
                   else k ← _key number _I64; x ← to_float n; Ok (k ++ to_le 8 (pack_d x)))
                  "{value!r} is out of range for {type}"
            end
          else if number =? _F_BOOL then
            _ ← raise_if (negb (is_int value) || negb (eq_Z value 0 || eq_Z value 1)) ValueError
                         "Boolean value must be True/False, got {value!r}";
            _field_varint number (int_of value)
          else if number =? _F_STRING then b ← _text value; _field_len number b
          else b ← _blob value; _field_len number b
      end
  | _ => raise KeyError "datatype"
  end.

Definition _int_from_wire (raw field_bits : Z) (datatype : Z) : res Z :=
  match zassoc datatype _INT_TYPES with
  | None => raise KeyError "datatype"
  | Some (signed, bits) =>
      if negb signed then
        if negb (Z.shiftr raw bits =? 0)
        then raise ValueError "{raw} is out of range for {type}" else Ok raw
      else
        let value := _signed raw field_bits in
        if (- Z.shiftl 1 (bits - 1) <=? value) && (value <? Z.shiftl 1 (bits - 1)) then Ok value
        else if (bits <? field_bits) && (Z.shiftr raw bits =? 0) then Ok (_signed raw bits)
        else raise ValueError "{raw:#x} is out of range for {type}"
  end.

(** The value of the oneof: its field number and plain wire value. *)
Definition _decode_value (datatype number : Z) (wire : pyval) : res pyval :=
  match zassoc datatype _VALUE_FIELDS with
  | None => Ok wire
  | Some fields =>
      _ ← raise_if (negb (existsb (Z.eqb number) fields)) ValueError
                   "{type} value in the wrong field ({number})";
      match zassoc datatype _INT_TYPES with
      | Some _ =>
          v ← _int_from_wire (int_of wire) (if number =? _F_INT then 32 else 64) datatype;
          Ok (VInt v)
      | None => Ok wire
      end
  end.

(** ** Messages *)
Definition opt_field {A} (o : option A) (f : A → res bytes) : res bytes :=
  match o with Some a => f a | None => Ok [] end.

Definition _encode_metric (metric : Metric) (include_datatype : bool) : res bytes :=
  let datatype := m_datatype metric in
  f1 ← (match m_name metric with
        | [] => Ok []
        | name => b ← _text (VStr name); _field_len 1 b
        end);
  f2 ← opt_field (m_alias metric) (λ a, u ← _uint (VInt a) 64; _field_varint 2 u);
  f3 ← opt_field (m_timestamp metric) (λ t, u ← _uint (VInt t) 64; _field_varint 3 u);
  let known := match zassoc datatype _VALUE_FIELDS with Some _ => true | None => false end in
  _ ← raise_if (negb (datatype =? 0) && negb known) ValueError
               "unsupported Sparkplug datatype {type}";
  f4 ← (if negb (datatype =? 0) && include_datatype then _field_varint 4 datatype else Ok []);
  f5 ← (if m_is_null metric then _field_varint 7 1
        else if datatype =? 0 then raise ValueError "a datatype is needed to encode a value"
        else match m_value metric with
             | VNone => raise ValueError
                          "value is None (set is_null=True for a null metric)"
             | v => _encode_value datatype v
             end);
  Ok (f1 ++ f2 ++ f3 ++ f4 ++ f5).

Definition encode_payload (payload : Payload) (include_datatype : bool) : res bytes :=
  f1 ← opt_field (p_timestamp payload) (λ t, u ← _uint (VInt t) 64; _field_varint 1 u);
  f2 ← mapr (λ metric, b ← _encode_metric metric include_datatype; _field_len 2 b)
            (p_metrics payload);
  f3 ← opt_field (p_seq payload) (λ s, u ← _uint (VInt s) 8; _field_varint 3 u);
  f4 ← opt_field (p_uuid payload) (λ s, b ← _text (VStr s); _field_len 4 b);
  f5 ← opt_field (p_body payload) (λ b, b ← _blob (VBytes b); _field_len 5 b);
  Ok (f1 ++ concat f2 ++ f3 ++ f4 ++ f5).

Definition set_alias a m :=
  mkMetric (m_name m) (m_datatype m) (m_value m) (Some a) (m_timestamp m) (m_is_null m).
Definition set_timestamp t m :=
  mkMetric (m_name m) (m_datatype m) (m_value m) (m_alias m) (Some t) (m_is_null m).
Definition set_datatype d m :=
  mkMetric (m_name m) d (m_value m) (m_alias m) (m_timestamp m) (m_is_null m).
Definition set_is_null b m :=
  mkMetric (m_name m) (m_datatype m) (m_value m) (m_alias m) (m_timestamp m) b.
Definition set_name n m :=
  mkMetric n (m_datatype m) (m_value m) (m_alias m) (m_timestamp m) (m_is_null m).
Definition set_value v m :=
  mkMetric (m_name m) (m_datatype m) v (m_alias m) (m_timestamp m) (m_is_null m).

(** One field of a metric: the metric so far and the value oneof seen last. *)
Definition metric_field (number wire_type : Z) (raw : fval)
    (acc : Metric * option (Z * pyval)) : res (Metric * option (Z * pyval)) :=
  let '(metric, value) := acc in
  match raw with
  | FInt raw =>
      if number =? 2 then Ok (set_alias raw metric, value)
      else if number =? 3 then Ok (set_timestamp raw metric, value)
      else if number =? 4 then Ok (set_datatype (Z.land raw _U32_MAX) metric, value)
      else if number =? 7 then Ok (set_is_null (negb (raw =? 0)) metric, value)
      else if number =? _F_INT then Ok (metric, Some (number, VInt (Z.land raw _U32_MAX)))
      else if number =? _F_LONG then Ok (metric, Some (number, VInt raw))
      else if number =? _F_BOOL then Ok (metric, Some (number, VBool (negb (raw =? 0))))
      else Ok (metric, value)
  | FBytes raw =>
      if wire_type =? _LEN then
        if number =? 1 then s ← _utf8 raw; Ok (set_name s metric, value)
        else if number =? _F_STRING then s ← _utf8 raw; Ok (metric, Some (number, VStr s))
        else if number =? _F_BYTES then Ok (metric, Some (number, VBytes raw))
        else Ok (metric, value)
      else if (number =? _F_FLOAT) && (wire_type =? _I32)
      then Ok (metric, Some (number, VFloat (unpack_f (of_le raw))))
      else if (number =? _F_DOUBLE) && (wire_type =? _I64)
      then Ok (metric, Some (number, VFloat (unpack_d (of_le raw))))
      else Ok (metric, value)
  end.

Definition _decode_metric (data : bytes) : res Metric :=
  '(metric, value) ← _fields metric_field data (Metric0, None);
  match value with
  | Some (number, wire) =>
      if negb (m_is_null metric)
      then v ← _decode_value (m_datatype metric) number wire; Ok (set_value v metric)
      else Ok metric
  | None => Ok metric
  end.

Definition payload_field (number wire_type : Z) (raw : fval) (p : Payload) : res Payload :=
  let '(mkPayload ts ms seq uuid body) := p in
  match raw with
  | FInt raw =>
      if number =? 1 then Ok (mkPayload (Some raw) ms seq uuid body)
      else if number =? 3 then Ok (mkPayload ts ms (Some raw) uuid body)
      else Ok p
  | FBytes raw =>
      if wire_type =? _LEN then
        if number =? 2 then m ← _decode_metric raw; Ok (mkPayload ts (ms ++ [m]) seq uuid body)
        else if number =? 4 then s ← _utf8 raw; Ok (mkPayload ts ms seq (Some s) body)
        else if number =? 5 then Ok (mkPayload ts ms seq uuid (Some raw))
        else Ok p
      else Ok p
  end.

Definition decode_payload (data : bytes) : res Payload :=
  _fields payload_field data (mkPayload None [] None None None).

(** ** Topics, ids, sequence numbers *)
Definition _id_unsafe (c : Z) : bool :=
  existsb (Z.eqb c) (str "/+#") || is_space c || in_range 0 31 c || (c =? 127).

Definition _check_id (value : pyval) : res pystr :=
  match value with
  | VStr s =>
      if match s with [] => true | _ => false end || existsb (λ c, existsb (Z.eqb c) (str "/+#")) s
      then raise ValueError
             "Sparkplug {what} must be a non-empty string without '/', '+' or '#', got {value!r}"
      else Ok s
  | _ => raise ValueError
           "Sparkplug {what} must be a non-empty string without '/', '+' or '#', got {value!r}"
  end.

Definition topic (group_id message_type edge_node_id : pystr) (device_id : option pystr)
    : res pystr :=
  _ ← raise_if (str_eqb message_type (str "STATE")) ValueError
               "STATE topics are spBv1.0/STATE/<host_id>: use state_topic()";
  _ ← raise_if (negb (existsb (str_eqb message_type) MESSAGE_TYPES)) ValueError
               "unknown Sparkplug message type {message_type!r}";
  g ← _check_id (VStr group_id);
  n ← _check_id (VStr edge_node_id);
  let parts := [TOPIC_NAMESPACE; g; message_type; n] in
  parts ←
    (if starts_with message_type (str "D") then
       match device_id with
       | None => raise ValueError "{message_type} needs a device_id"
       | Some d => d ← _check_id (VStr d); Ok (parts ++ [d])
       end
     else
       match device_id with
       | Some _ => raise ValueError "{message_type} is a node message and takes no device_id"
       | None => Ok parts
       end);
  Ok (join (str "/") parts).

Definition state_topic (host_id : pystr) : res pystr :=
  h ← _check_id (VStr host_id); Ok (TOPIC_NAMESPACE ++ str "/STATE/" ++ h).

Definition sanitize_id (text : pystr) : pystr :=
  match (λ c, if _id_unsafe c then 95 (* '_' *) else c) <$> strip text with
  | [] => str "node"
  | s => s
  end.

Definition next_seq (seq : Z) : Z := (seq + 1) mod 256.

Definition _DTYPE_DATATYPES : list (pystr * Z) :=
  [(str "uint16", DataType.UInt16); (str "int16", DataType.Int16);
   (str "uint32", DataType.UInt32); (str "int32", DataType.Int32);
   (str "float32", DataType.Float); (str "bool", DataType.Boolean)].

Definition datatype_for (dtype : pystr) (scale : num) : res Z :=
  match assoc dtype _DTYPE_DATATYPES with
  | None => raise ValueError "unknown dtype {dtype!r}"
  | Some datatype =>
      if negb (datatype =? DataType.Boolean) && num_truthy scale && negb (num_is_one scale)
      then Ok DataType.Double else Ok datatype
  end.

(** ** Progress and errors of the decoder *)
Definition value_errors {A} (m : res A) : Prop :=
  match m with Ok _ => True | Raise e => exn_cls e = ValueError end.

Lemma value_errors_bind {A B} (m : res A) (f : A → res B) :
  value_errors m → (∀ a, m = Ok a → value_errors (f a)) → value_errors (m ≫= f).
Proof. destruct m as [a|e]; simpl; auto. Qed.
Lemma value_errors_raise_if c msg : value_errors (raise_if c ValueError msg).
Proof. by destruct c. Qed.

Create HintDb errors_db.
#[export] Hint Resolve value_errors_raise_if : errors_db.

Lemma read_varint_loop_adv n shift value data pos v pos' :
  read_varint_loop n shift value data pos = Ok (v, pos') → (pos < pos' <= length data)%nat.
Proof.
  revert shift value pos. induction n as [|n IH]; intros shift value pos; simpl; [done|].
  destruct (data !! pos) as [b|] eqn:E; [|done]. apply lookup_lt_Some in E.
  destruct (b <? 128); [intros [= _ <-]; lia|]. intros H%IH. lia.
Qed.
Lemma read_varint_adv data pos v pos' :
  _read_varint data pos = Ok (v, pos') → (pos < pos' <= length data)%nat.
Proof. apply read_varint_loop_adv. Qed.

Lemma read_varint_loop_errors n shift value data pos :
  value_errors (read_varint_loop n shift value data pos).
Proof.
  revert shift value pos. induction n as [|n IH]; intros shift value pos; simpl; [done|].
  destruct (data !! pos); [|done]. by destruct (_ <? _).
Qed.
Lemma read_varint_errors data pos : value_errors (_read_varint data pos).
Proof. apply read_varint_loop_errors. Qed.
#[export] Hint Resolve read_varint_errors : errors_db.

Lemma read_key_adv data pos n w pos' :
  _read_key data pos = Ok (n, w, pos') → (pos < pos' <= length data)%nat ∧ 1 <= n <= _MAX_FIELD.
Proof.
  unfold _read_key. intros ([k p] & Hk & H)%res_bind_Ok. res_inv. simplify_eq. zbool.
  apply read_varint_adv in Hk. split; [lia|]. lia.
Qed.
Lemma read_key_errors data pos : value_errors (_read_key data pos).
Proof.
  unfold _read_key. apply value_errors_bind; [auto with errors_db|]. intros [k p] _.
  apply value_errors_bind; [auto with errors_db|]. by intros.
Qed.
#[export] Hint Resolve read_key_errors : errors_db.

Lemma value_span_adv data pos w s e :
  (pos <= length data)%nat → _value_span data pos w = Ok (s, e) →
  (pos <= s <= e)%nat ∧ (e <= length data)%nat.
Proof.
  unfold _value_span. intros Hp. destruct (w =? _VARINT).
  { intros ([v e'] & Hv%read_varint_adv & [= <- <-])%res_bind_Ok. lia. }
  intros ([size p] & Hs & H)%res_bind_Ok. res_inv.
  all: match goal with H : (_ <? _) = false |- _ => apply Z.ltb_ge in H end.
  all: try match goal with H : _read_varint _ _ = _ |- _ => apply read_varint_adv in H end.
  all: unfold zlen in *; lia.
Qed.
Lemma value_span_errors data pos w : value_errors (_value_span data pos w).
Proof.
  unfold _value_span. destruct (w =? _VARINT).
  { apply value_errors_bind; [auto with errors_db|]. by intros [? ?] _. }
  apply value_errors_bind; [repeat case_match; auto with errors_db; done|].
  intros [size p] _. apply value_errors_bind; [auto with errors_db|]. by intros.
Qed.
#[export] Hint Resolve value_span_errors : errors_db.

Lemma skip_group_loop_ok fuel groups data pos :
  (length data - pos < fuel)%nat → (pos <= length data)%nat →
  match skip_group_loop fuel groups data pos with
  | Ok pos' => (pos <= pos' <= length data)%nat
  | Raise e => exn_cls e = ValueError
  end.
Proof.
  revert groups pos. induction fuel as [|fuel IH]; intros groups pos Hf Hp; [lia|].
  destruct groups as [|top outer]; [simpl; lia|]. cbn [skip_group_loop].
  pose proof (read_key_errors data pos) as He.
  destruct (_read_key data pos) as [[[inner w] p]|e] eqn:E; [|exact He].
  cbn [mbind res_bind]. apply read_key_adv in E as [? _].
  destruct (w =? _SGROUP).
  { specialize (IH (inner :: top :: outer) p). destruct (skip_group_loop _ _ _ _); lia || (apply IH; lia). }
  destruct (w =? _EGROUP).
  { destruct (negb _); [done|]. specialize (IH outer p).
    destruct (skip_group_loop _ _ _ _); lia || (apply IH; lia). }
  pose proof (value_span_errors data p w) as Hv.
  destruct (_value_span data p w) as [[s e]|e] eqn:Es; [|exact Hv].
  cbn [mbind res_bind]. apply value_span_adv in Es; [|lia].
  specialize (IH (top :: outer) e). destruct (skip_group_loop _ _ _ _); lia || (apply IH; lia).
Qed.

Lemma skip_group_ok data pos n :
  (pos <= length data)%nat →
  match _skip_group data pos n with
  | Ok pos' => (pos <= pos' <= length data)%nat
  | Raise e => exn_cls e = ValueError
  end.
Proof. intros Hp. apply skip_group_loop_ok; lia. Qed.

Lemma fields_loop_errors {A} step fuel data pos (acc : A) :
  (∀ n w v a, value_errors (step n w v a)) → (length data - pos < fuel)%nat →
  value_errors (fields_loop step fuel data pos acc).
Proof.
  intros Hstep. revert pos acc. induction fuel as [|fuel IH]; intros pos acc Hf; [lia|].
  cbn [fields_loop]. destruct (Nat.leb_spec (length data) pos); [done|].
  apply value_errors_bind; [auto with errors_db|]. intros [[n w] p] [Hk _]%read_key_adv.
  destruct (w =? _SGROUP).
  { pose proof (skip_group_ok data p n) as Hs.
    apply value_errors_bind; [destruct (_skip_group data p n); [done|apply Hs; lia]|].
    intros p' E. rewrite E in Hs. apply IH. lia. }
  destruct (w =? _VARINT).
  { apply value_errors_bind; [auto with errors_db|]. intros [v p'] Hv%read_varint_adv.
    apply value_errors_bind; [done|]. intros. apply IH. lia. }
  apply value_errors_bind; [auto with errors_db|]. intros [s e] Hv.
  apply value_span_adv in Hv; [|lia].
  apply value_errors_bind; [done|]. intros. apply IH. lia.
Qed.

Lemma utf8_errors raw : value_errors (_utf8 raw).
Proof. unfold _utf8. by destruct (utf8_decode raw). Qed.
#[export] Hint Resolve utf8_errors : errors_db.

Ltac errors :=
  repeat first
    [ done
    | solve [auto with errors_db]
    | apply value_errors_bind; [|intros]
    | match goal with |- value_errors (if ?c then _ else _) => destruct c end
    | match goal with |- value_errors (match ?x with _ => _ end) => destruct x eqn:? end ].

Lemma int_type_value_type dt x : zassoc dt _INT_TYPES = Some x → is_Some (zassoc dt _VALUE_FIELDS).
Proof.
  unfold _INT_TYPES, _VALUE_FIELDS. simpl. intros H. by repeat (case_match; [eauto|]).
Qed.

Lemma decode_value_errors dt number wire : value_errors (_decode_value dt number wire).
Proof.
  unfold _decode_value, _int_from_wire. destruct (zassoc dt _VALUE_FIELDS); [|done].
  destruct (zassoc dt _INT_TYPES) as [[signed bits]|]; errors.
Qed.
#[export] Hint Resolve decode_value_errors : errors_db.

Lemma decode_metric_errors data : value_errors (_decode_metric data).
Proof.
  unfold _decode_metric. apply value_errors_bind.
  - apply fields_loop_errors; [|lia]. intros n w v [m o]. unfold metric_field. errors.
  - intros [m o] _. errors.
Qed.
#[export] Hint Resolve decode_metric_errors : errors_db.

(** C40: whatever bytes arrive, the decoder returns: it produces a payload or raises ValueError,
    never an index error, never another exception, and its loops always end. *)
Theorem decode_payload_total data :
  (∃ p, decode_payload data = Ok p) ∨ (∃ msg, decode_payload data = raise ValueError msg).
Proof.
  assert (value_errors (decode_payload data)) as H.
  { apply fields_loop_errors; [|lia]. intros n w v p. unfold payload_field. errors. }
  destruct (decode_payload data) as [p|[c msg]]; [left; eauto|right]. simpl in H. subst. by eexists.
Qed.

(** ** Round trip of a payload *)
Lemma varint_read n shift acc v pre rest :
  (0 < n)%nat → 0 <= v < 2 ^ (7 * Z.of_nat n) → 0 <= shift →
  read_varint_loop n shift acc (pre ++ varint_loop n v ++ rest) (length pre)
  = Ok (Z.land (Z.lor acc (Z.shiftl v shift)) _U64_MAX,
        length (pre ++ varint_loop n v)).
Proof.
  revert shift acc v pre. induction n as [|n IH]; intros shift acc v pre Hn Hv Hs; [lia|].
  cbn [varint_loop read_varint_loop]. destruct (Z.ltb_spec 127 v) as [Hgt|Hle].
  - rewrite <- app_comm_cons, list_lookup_middle by done.
    assert (Z.land v 127 = v mod 128) as E by (change 127 with (Z.ones 7); by rewrite Z.land_ones).
    assert (0 <= v mod 128 < 128) by (apply Z.mod_pos_bound; lia).
    assert (Z.lor 128 (v mod 128) = 128 + v mod 128) as E2
      by (exact (lor_add_shift 1 (v mod 128) 7 ltac:(lia) ltac:(lia))).
    rewrite E, E2, (proj2 (Z.ltb_ge _ _)) by lia.
    assert (Z.land (128 + v mod 128) 127 = v mod 128) as E3.
    { change 127 with (Z.ones 7). rewrite Z.land_ones by done. dlia. }
    rewrite E3. rewrite cons_middle, app_assoc.
    replace (S (length pre)) with (length (pre ++ [128 + v mod 128]))
      by (rewrite length_app; simpl; lia).
    destruct n as [|n']; [simpl in Hv; lia|].
    rewrite IH; [| lia | | lia].
    + do 2 f_equal; [|by rewrite <- app_assoc]. f_equal.
      rewrite <- Z.lor_assoc. f_equal. rewrite Z.add_comm, <- Z.shiftl_shiftl by lia.
      rewrite <- Z.shiftl_lor. f_equal. rewrite Z.lor_comm, lor_add_shift by done.
      rewrite Z.shiftr_div_pow2 by done. change (2 ^ 7) with 128. dlia.
    + rewrite Z.shiftr_div_pow2 by done. split; [apply Z.div_pos; lia|].
      apply Z.div_lt_upper_bound; [lia|]. rewrite <- Z.pow_add_r by lia.
      replace (7 + 7 * Z.of_nat (S n')) with (7 * Z.of_nat (S (S n'))) by lia. lia.
  - cbn [app]. rewrite list_lookup_middle by done. rewrite (proj2 (Z.ltb_lt _ _)) by lia.
    change 127 with (Z.ones 7). rewrite Z.land_ones, Z.mod_small by lia.
    rewrite length_app. simpl. do 2 f_equal. lia.
Qed.

Lemma read_varint_back v pre rest :
  0 <= v <= _U64_MAX →
  _read_varint (pre ++ varint_loop 10 v ++ rest) (length pre)
  = Ok (v, length (pre ++ varint_loop 10 v)).
Proof.
  intros Hv. assert (_U64_MAX < 2 ^ (7 * Z.of_nat 10)) by done. unfold _read_varint.
  rewrite varint_read by lia. rewrite Z.shiftl_0_r, Z.lor_0_l.
  change _U64_MAX with (Z.ones 64). rewrite Z.land_ones, Z.mod_small by (unfold _U64_MAX in *; lia).
  done.
Qed.

(** A field as it stands in a message. *)
Definition key_bytes (number wire_type : Z) : bytes :=
  varint_loop 10 (Z.lor (Z.shiftl number 3) wire_type).
Definition field_bytes (f : Z * Z * fval) : bytes :=
  let '(number, wire_type, v) := f in
  key_bytes number wire_type ++
  match v with
  | FInt z => varint_loop 10 z
  | FBytes b => if wire_type =? _LEN then varint_loop 10 (zlen b) ++ b else b
  end.
Definition wf_field (f : Z * Z * fval) : Prop :=
  let '(number, wire_type, v) := f in
  1 <= number <= _MAX_FIELD ∧
  match v with
  | FInt z => wire_type = _VARINT ∧ 0 <= z <= _U64_MAX
  | FBytes b => (wire_type = _LEN ∧ zlen b <= _U64_MAX) ∨ (wire_type = _I32 ∧ length b = 4%nat) ∨
                (wire_type = _I64 ∧ length b = 8%nat)
  end.

Lemma key_value number w : 0 <= w < 8 → Z.lor (Z.shiftl number 3) w = number * 8 + w.
Proof. intros. by apply (lor_add_shift number w 3). Qed.

Lemma read_key_back number w pre rest :
  1 <= number <= _MAX_FIELD → 0 <= w < 8 →
  _read_key (pre ++ key_bytes number w ++ rest) (length pre)
  = Ok (number, w, length (pre ++ key_bytes number w)).
Proof.
  intros Hn Hw. unfold _read_key, key_bytes. rewrite key_value by done.
  rewrite read_varint_back by (unfold _MAX_FIELD, _U64_MAX in *; lia). cbn [mbind res_bind].
  replace (Z.shiftr (number * 8 + w) 3) with number
    by (rewrite Z.shiftr_div_pow2 by done; change (2 ^ 3) with 8; dlia).
  replace (Z.land (number * 8 + w) 7) with w
    by (change 7 with (Z.ones 3); rewrite Z.land_ones by done; change (2 ^ 3) with 8; dlia).
  rewrite (proj2 (Z.leb_le _ _)), (proj2 (Z.leb_le _ _)) by lia. done.
Qed.

Lemma varint_loop_nonempty n v : (0 < n)%nat → (0 < length (varint_loop n v))%nat.
Proof. destruct n; [lia|]. simpl. destruct (_ <? _); simpl; lia. Qed.
Lemma field_bytes_nonempty f : (0 < length (field_bytes f))%nat.
Proof.
  destruct f as [[n w] v]. cbn [field_bytes]. rewrite length_app. unfold key_bytes.
  pose proof (varint_loop_nonempty 10 (Z.lor (Z.shiftl n 3) w)). lia.
Qed.

Lemma span_back (pre b rest : bytes) :
  take (length pre + length b - length pre) (drop (length pre) (pre ++ b ++ rest)) = b.
Proof.
  rewrite Nat.add_sub_swap, Nat.sub_diag by lia. cbn [Nat.add].
  by rewrite drop_app_length, take_app_length.
Qed.

Lemma value_span_back n w b pre rest :
  wf_field (n, w, FBytes b) →
  let body := if w =? _LEN then varint_loop 10 (zlen b) ++ b else b in
  ∃ s, _value_span (pre ++ body ++ rest) (length pre) w = Ok (s, length (pre ++ body)) ∧
       take (length (pre ++ body) - s) (drop s (pre ++ body ++ rest)) = b.
Proof.
  intros [_ Hv] body. unfold _value_span, body.
  destruct Hv as [[-> Hl]|[[-> Hl]|[-> Hl]]].
  - change (_LEN =? _LEN) with true. change (_LEN =? _VARINT) with false.
    change (_LEN =? _I64) with false. change (_LEN =? _I32) with false. cbv iota.
    exists (length (pre ++ varint_loop 10 (zlen b))). rewrite <- !app_assoc.
    rewrite read_varint_back by (pose proof (zlen_nonneg b); lia). cbn [mbind res_bind].
    rewrite (proj2 (Z.ltb_ge _ _)) by (unfold zlen; rewrite !length_app; lia).
    cbn [mbind res_bind raise_if]. rewrite !(app_assoc pre). split.
    + do 2 f_equal. rewrite !length_app. unfold zlen. lia.
    + rewrite (length_app (pre ++ _)). apply span_back.
  - change (_I32 =? _LEN) with false. change (_I32 =? _VARINT) with false.
    change (_I32 =? _I64) with false. change (_I32 =? _I32) with true. cbv iota.
    exists (length pre). cbn [mbind res_bind].
    rewrite (proj2 (Z.ltb_ge _ _)) by (unfold zlen; rewrite !length_app; lia).
    rewrite length_app. split; [|apply span_back]. rewrite Hl. done.
  - change (_I64 =? _LEN) with false. change (_I64 =? _VARINT) with false.
    change (_I64 =? _I64) with true. cbv iota.
    exists (length pre). cbn [mbind res_bind].
    rewrite (proj2 (Z.ltb_ge _ _)) by (unfold zlen; rewrite !length_app; lia).
    rewrite length_app. split; [|apply span_back]. rewrite Hl. done.
Qed.

Lemma fields_loop_step {A} (step : Z → Z → fval → A → res A) fuel n w v pre rest acc :
  wf_field (n, w, v) →
  fields_loop step (S fuel) (pre ++ field_bytes (n, w, v) ++ rest) (length pre) acc
  = (acc ← step n w v acc;
     fields_loop step fuel (pre ++ field_bytes (n, w, v) ++ rest)
       (length (pre ++ field_bytes (n, w, v))) acc).
Proof.
  intros Hwf. pose proof Hwf as [Hn Hv].
  cbn [fields_loop]. pose proof (field_bytes_nonempty (n, w, v)) as Hne.
  rewrite (proj2 (Nat.leb_gt _ _)) by (rewrite !length_app; lia). clear Hne.
  assert (0 <= w < 8) as Hw
    by (destruct v; [by destruct Hv as [-> _]|by destruct Hv as [[-> _]|[[-> _]|[-> _]]]]).
  cbn [field_bytes]. rewrite <- !app_assoc. rewrite read_key_back by done.
  cbn [mbind res_bind]. rewrite !(app_assoc pre). destruct v as [z|b].
  - destruct Hv as [-> Hz]. change (_VARINT =? _SGROUP) with false.
    change (_VARINT =? _VARINT) with true. cbv iota.
    by rewrite read_varint_back by done.
  - assert ((w =? _SGROUP) = false ∧ (w =? _VARINT) = false) as [-> ->]
      by (destruct Hv as [[-> _]|[[-> _]|[-> _]]]; done).
    destruct (value_span_back n w b (pre ++ key_bytes n w) rest Hwf) as (s & -> & E).
    cbn [mbind res_bind]. by rewrite E.
Qed.

(** Decoding a sequence of fields is folding the step over them. *)
Fixpoint foldr_res {A B} (f : B → A → res A) (l : list B) (acc : A) : res A :=
  match l with
  | [] => Ok acc
  | b :: l' => acc ← f b acc; foldr_res f l' acc
  end.
Definition step_of {A} (step : Z → Z → fval → A → res A) (f : Z * Z * fval) : A → res A :=
  step f.1.1 f.1.2 f.2.

Lemma foldr_res_app {A B} (f : B → A → res A) l k acc :
  foldr_res f (l ++ k) acc = (acc ← foldr_res f l acc; foldr_res f k acc).
Proof.
  revert acc. induction l as [|b l IH]; intros acc; [done|]. cbn. destruct (f b acc); [apply IH|done].
Qed.

Lemma fields_loop_concat {A} (step : Z → Z → fval → A → res A) fs fuel pre acc :
  Forall wf_field fs → (length (concat (field_bytes <$> fs)) < fuel)%nat →
  fields_loop step fuel (pre ++ concat (field_bytes <$> fs)) (length pre) acc
  = foldr_res (step_of step) fs acc.
Proof.
  intros Hwf. revert fuel pre acc. induction Hwf as [|f fs Hf _ IH]; intros fuel pre acc Hlen.
  - destruct fuel; [simpl in Hlen; lia|]. cbn [fmap list_fmap concat]. rewrite app_nil_r.
    simpl. by rewrite Nat.leb_refl.
  - destruct fuel as [|fuel]; [lia|]. cbn [fmap list_fmap concat] in *. rewrite length_app in Hlen.
    pose proof (field_bytes_nonempty f). destruct f as [[n w] v].
    rewrite fields_loop_step by done. cbn [foldr_res]. change (step_of step (n, w, v) acc) with (step n w v acc).
    destruct (step n w v acc) as [a|]; [|done]. cbn [mbind res_bind].
    rewrite app_assoc. apply IH. lia.
Qed.
Lemma fields_concat {A} (step : Z → Z → fval → A → res A) fs acc :
  Forall wf_field fs →
  _fields step (concat (field_bytes <$> fs)) acc = foldr_res (step_of step) fs acc.
Proof. intros. apply (fields_loop_concat step fs _ []); [done|]. simpl. lia. Qed.

(** What the encoder emits is a sequence of fields. *)
#[local] Arguments varint_loop : simpl never.
Lemma varint_inv v b : _varint v = Ok b → b = varint_loop 10 v ∧ 0 <= v <= _U64_MAX.
Proof.
  unfold _varint. intros H. apply res_bind_Ok in H as (u & Hu%raise_if_Ok & [= <-]).
  zbool. split; [reflexivity|lia].
Qed.
Lemma key_inv n w b : _key n w = Ok b → b = key_bytes n w.
Proof. unfold _key. intros [-> _]%varint_inv. reflexivity. Qed.
Lemma field_varint_inv n v b :
  1 <= n <= _MAX_FIELD → _field_varint n v = Ok b →
  b = field_bytes (n, _VARINT, FInt v) ∧ wf_field (n, _VARINT, FInt v).
Proof.
  unfold _field_varint. intros Hn H. res_inv.
  match goal with H : _key _ _ = Ok _ |- _ => apply key_inv in H as -> end.
  match goal with H : _varint _ = Ok _ |- _ => apply varint_inv in H as [-> ?] end.
  split; [reflexivity|]. repeat split; lia.
Qed.
Lemma field_len_inv n v b :
  1 <= n <= _MAX_FIELD → _field_len n v = Ok b →
  b = field_bytes (n, _LEN, FBytes v) ∧ wf_field (n, _LEN, FBytes v).
Proof.
  unfold _field_len. intros Hn H. res_inv.
  match goal with H : _key _ _ = Ok _ |- _ => apply key_inv in H as -> end.
  match goal with H : _varint _ = Ok _ |- _ => apply varint_inv in H as [-> ?] end.
  split; [reflexivity|]. split; [lia|]. left. split; [reflexivity|lia].
Qed.
Lemma uint_inv v bits u : _uint (VInt v) bits = Ok u → u = v.
Proof. unfold _uint. destruct (_ || _); by intros [=]. Qed.

Definition is_text (s : pystr) : Prop := Forall (λ c, 0 <= c < 1114112) s.

Lemma text_back s b : is_text s → _text (VStr s) = Ok b → _utf8 b = Ok s.
Proof.
  unfold _text, utf8_encode, _utf8. intros Hs.
  destruct (existsb is_surrogate s) eqn:E; [done|]. intros [= <-].
  assert (Forall is_cp s) as Hcp.
  { apply Forall_forall. intros c Hc. split; [by eapply Forall_forall in Hs|].
    destruct (is_surrogate c) eqn:Ec; [|done].
    rewrite <- E. symmetry. apply existsb_exists. exists c. split; [by apply list_elem_of_In|done]. }
  by rewrite (proj1 (utf8_roundtrip s Hcp)).
Qed.

(** A metric value in the form the decoder gives back. *)
Definition wf_value (datatype : Z) (v : pyval) : Prop :=
  match v with
  | VInt _ => is_Some (zassoc datatype _INT_TYPES)
  | VFloat x =>
      (datatype = DataType.Float ∧
         ∃ y, x = convert binary64 y ∧ valid binary32 y = true ∧ y ≠ S754_nan) ∨
      (datatype = DataType.Double ∧ valid binary64 x = true ∧ x ≠ S754_nan)
  | VBool _ => datatype = DataType.Boolean
  | VStr s => is_text s ∧ (datatype = DataType.String ∨ datatype = DataType.Text)
  | VBytes _ => datatype = DataType.Bytes
  | _ => False
  end.

Lemma signed_extend raw bits :
  1 <= bits → 0 <= raw < 2 ^ bits → _signed raw bits = sign_extend bits raw.
Proof.
  intros Hb Hr. unfold _signed, sign_extend. rewrite Z.shiftr_div_pow2, Z.shiftl_1_l by lia.
  assert (0 < 2 ^ (bits - 1)) by (apply Z.pow_pos_nonneg; lia).
  destruct (Z.ltb_spec raw (2 ^ (bits - 1))).
  - by rewrite Z.div_small by lia.
  - assert (1 <= raw / 2 ^ (bits - 1)) by (apply Z.div_le_lower_bound; lia).
    rewrite (proj2 (Z.eqb_neq _ 0)) by lia. done.
Qed.

(** An accepted integer comes back from the low [field_bits] of its two's complement. *)
Lemma int_from_wire_back dt signed bits fb v :
  zassoc dt _INT_TYPES = Some (signed, bits) → 1 <= bits <= fb →
  (int_bounds signed bits).1 <= v <= (int_bounds signed bits).2 →
  _int_from_wire (v mod 2 ^ fb) fb dt = Ok v.
Proof.
  intros Hdt Hb Hv. unfold _int_from_wire. rewrite Hdt.
  assert (0 < 2 ^ (bits - 1)) by (apply Z.pow_pos_nonneg; lia).
  assert (2 ^ bits <= 2 ^ fb) by (apply Z.pow_le_mono_r; lia).
  assert (2 ^ (bits - 1) <= 2 ^ (fb - 1)) by (apply Z.pow_le_mono_r; lia).
  unfold int_bounds in Hv. destruct signed; cbn [fst snd negb] in *;
    rewrite Z.shiftl_1_l in *.
  - rewrite signed_extend by (try apply Z.mod_pos_bound; lia).
    rewrite sign_extend_mod by lia.
    rewrite (proj2 (Z.leb_le _ _)), (proj2 (Z.ltb_lt _ _)) by lia. done.
  - rewrite Z.mod_small by lia. rewrite Z.shiftr_div_pow2, Z.div_small by lia. done.
Qed.

Lemma int_type_fields dt signed bits :
  zassoc dt _INT_TYPES = Some (signed, bits) →
  1 <= bits <= 64 ∧
  zassoc dt _VALUE_FIELDS = Some (if bits <=? 32 then [_F_INT; _F_LONG] else [_F_LONG; _F_INT]).
Proof.
  unfold _INT_TYPES, _VALUE_FIELDS. simpl. intros H.
  repeat (destruct (_ =? _); [by simplify_eq|]). done.
Qed.

(** The field a value is sent in, and what the decoder makes of it. *)
Definition value_back (dt : Z) (v : pyval) (b : bytes) : Prop :=
  ∃ n w fv wire,
    b = field_bytes (n, w, fv) ∧ wf_field (n, w, fv) ∧
    (∀ m o, metric_field n w fv (m, o) = Ok (m, Some (n, wire))) ∧
    _decode_value dt n wire = Ok v.

Lemma encode_int_back dt z b : _encode_value dt (VInt z) = Ok b →
  is_Some (zassoc dt _INT_TYPES) → value_back dt (VInt z) b.
Proof.
  intros H [[signed bits] Hdt]. unfold _encode_value in H.
  destruct (int_type_fields _ _ _ Hdt) as [Hb Hf]. rewrite Hf, Hdt in H.
  destruct (Z.leb_spec bits 32) as [Hle|Hgt].
  - change (_F_INT =? _F_INT) with true in H. cbv iota in H.
    destruct (int_bounds signed bits) as [lo hi] eqn:Eb.
    apply res_bind_Ok in H as (u & Hu%raise_if_Ok & H). zbool.
    change _U32_MAX with (Z.ones 32) in H. rewrite Z.land_ones in H by done.
    apply field_varint_inv in H as [-> Hwf]; [|done].
    exists _F_INT, _VARINT, (FInt (z mod 2 ^ 32)), (VInt (z mod 2 ^ 32)).
    split; [done|]. split; [done|]. split.
    + intros m o. unfold metric_field. simpl. unfold _U32_MAX. change (2 ^ 32 - 1) with (Z.ones 32).
      rewrite Z.land_ones, Z.mod_mod by done. done.
    + unfold _decode_value. rewrite Hf, Hdt. simpl.
      change 4294967296 with (2 ^ 32). rewrite (int_from_wire_back _ signed bits); [done|done|lia|].
      rewrite Eb. simpl. lia.
  - change (_F_LONG =? _F_INT) with false in H. cbv iota in H.
    destruct (int_bounds signed bits) as [lo hi] eqn:Eb.
    apply res_bind_Ok in H as (u & Hu%raise_if_Ok & H). zbool.
    change _U64_MAX with (Z.ones 64) in H. rewrite Z.land_ones in H by done.
    apply field_varint_inv in H as [-> Hwf]; [|done].
    exists _F_LONG, _VARINT, (FInt (z mod 2 ^ 64)), (VInt (z mod 2 ^ 64)).
    split; [done|]. split; [done|]. split; [done|].
    unfold _decode_value. rewrite Hf, Hdt. simpl.
    change 18446744073709551616 with (2 ^ 64).
    rewrite (int_from_wire_back _ signed bits); [done|done|lia|]. rewrite Eb. simpl. lia.
Qed.

Lemma pack_f_back y :
  valid binary32 y = true → y ≠ S754_nan → ∃ p, 0 <= p < 2 ^ 32 ∧
  pack_f (convert binary64 y) = (if is_finite (convert binary64 y) && negb (is_finite y)
                                 then raise OverflowError "float too large to pack with f format"
                                 else Ok p) ∧ unpack_f p = convert binary64 y.
Proof.
  intros Hv Hn. exists (to_bits binary32 y). split; [by apply (to_bits_range binary32)|].
  unfold pack_f, unpack_f. rewrite convert_roundtrip by done.
  split; [done|]. by rewrite of_to_bits.
Qed.

Lemma encode_float_back dt x b :
  _encode_value dt (VFloat x) = Ok b → wf_value dt (VFloat x) → value_back dt (VFloat x) b.
Proof.
  intros H [(-> & y & -> & Hv & Hn)|(-> & Hv & Hn)].
  - destruct (pack_f_back y Hv Hn) as (p & Hp & Epack & Eun).
    unfold _encode_value in H. cbn -[_key pack_f convert] in H. unfold overflow_as_value in H.
    destruct (_key _F_FLOAT _I32) as [k|[[]]] eqn:Ek; [|done..].
    apply key_inv in Ek as ->. cbn -[pack_f convert] in H. rewrite Epack in H.
    destruct (_ && _); [done|]. cbn [mbind res_bind] in H. injection H as <-.
    exists _F_FLOAT, _I32, (FBytes (to_le 4 p)), (VFloat (convert binary64 y)).
    split; [reflexivity|]. split; [split; [done|right; left; by rewrite to_le_length]|].
    split; [|done]. intros m o. unfold metric_field.
    change (_I32 =? _LEN) with false. cbv iota.
    rewrite of_to_le. change (256 ^ Z.of_nat 4) with (2 ^ 32).
    rewrite Z.mod_small by done. by rewrite Eun.
  - unfold _encode_value in H. cbn -[_key pack_d] in H. unfold overflow_as_value in H.
    destruct (_key _F_DOUBLE _I64) as [k|[[]]] eqn:Ek; [|done..].
    apply key_inv in Ek as ->. cbn [mbind res_bind] in H. injection H as <-.
    exists _F_DOUBLE, _I64, (FBytes (to_le 8 (pack_d x))), (VFloat x).
    split; [reflexivity|]. split; [split; [done|right; right; by rewrite to_le_length]|].
    split; [|done]. intros m o. unfold metric_field.
    change (_I64 =? _LEN) with false. cbv iota.
    change ((_F_DOUBLE =? _F_FLOAT) && (_I64 =? _I32)) with false. cbv iota.
    rewrite of_to_le. change (256 ^ Z.of_nat 8) with (2 ^ 64).
    unfold pack_d, unpack_d.
    pose proof (to_bits_range binary64 ltac:(done) ltac:(done) x Hv) as Hr.
    change (2 ^ (mw binary64 + ew binary64 + 1)) with (2 ^ 64) in Hr.
    rewrite Z.mod_small by done. by rewrite of_to_bits.
Qed.

Lemma encode_value_back dt v b :
  _encode_value dt v = Ok b → wf_value dt v → value_back dt v b.
Proof.
  destruct v as [|t|z|x|s|r|l|d]; intros H Hwf; try done.
  - simpl in Hwf. subst dt. unfold _encode_value in H. cbn -[_field_varint] in H.
    assert (_field_varint _F_BOOL (Z.b2z t) = Ok b) as H' by (by destruct t).
    apply field_varint_inv in H' as [-> Hw]; [|done].
    exists _F_BOOL, _VARINT, (FInt (Z.b2z t)), (VBool t). repeat split; try done.
    all: destruct t; done.
  - by apply encode_int_back.
  - by apply encode_float_back.
  - destruct Hwf as [Hs Hdt]. unfold _encode_value in H.
    assert ((b ← _text (VStr s); _field_len _F_STRING b) = Ok b) as H'
      by (by destruct Hdt as [-> | ->]).
    apply res_bind_Ok in H' as (t & Ht & H'). apply field_len_inv in H' as [-> Hw]; [|done].
    exists _F_STRING, _LEN, (FBytes t), (VStr s). split; [reflexivity|]. split; [done|].
    split; [|by destruct Hdt as [-> | ->]]. intros m o. unfold metric_field. cbn -[_utf8].
    by rewrite (text_back s t).
  - simpl in Hwf. subst dt. unfold _encode_value in H.
    assert (_field_len _F_BYTES r = Ok b) as H' by done.
    apply field_len_inv in H' as [-> Hw]; [|done].
    exists _F_BYTES, _LEN, (FBytes r), (VBytes r). by split.
Qed.

(** [b] is a sequence of fields that takes the accumulator from [acc] to [acc']. *)
Definition writes {A} (step : Z → Z → fval → A → res A) (b : bytes) (acc acc' : A) : Prop :=
  ∃ fs, b = concat (field_bytes <$> fs) ∧ Forall wf_field fs ∧
        foldr_res (step_of step) fs acc = Ok acc'.

Lemma writes_nil {A} step (acc : A) : writes step [] acc acc.
Proof. by exists []. Qed.
Lemma writes_one {A} step n w v (acc acc' : A) :
  wf_field (n, w, v) → step n w v acc = Ok acc' → writes step (field_bytes (n, w, v)) acc acc'.
Proof.
  intros Hwf Hs. exists [(n, w, v)]. split; [cbn [fmap list_fmap concat]; by rewrite app_nil_r|].
  split; [by constructor|]. simpl. unfold step_of. simpl. by rewrite Hs.
Qed.
Lemma writes_app {A} step b b' (acc acc' acc'' : A) :
  writes step b acc acc' → writes step b' acc' acc'' → writes step (b ++ b') acc acc''.
Proof.
  intros (fs & -> & H1 & E1) (fs' & -> & H2 & E2). exists (fs ++ fs').
  split; [by rewrite fmap_app, concat_app|]. split; [by apply Forall_app|].
  rewrite foldr_res_app, E1. exact E2.
Qed.
Lemma writes_fields {A} step b (acc acc' : A) :
  writes step b acc acc' → _fields step b acc = Ok acc'.
Proof. intros (fs & -> & H & E). by rewrite fields_concat. Qed.

Lemma writes_uint {A} step n bits o b (acc : A) (f : Z → A) :
  opt_field o (λ a, u ← _uint (VInt a) bits; _field_varint n u) = Ok b → 1 <= n <= _MAX_FIELD →
  (∀ a, step n _VARINT (FInt a) acc = Ok (f a)) →
  writes step b acc (match o with Some a => f a | None => acc end).
Proof.
  intros H Hn Hs. destruct o as [a|]; simpl in H; [|injection H as <-; apply writes_nil].
  apply res_bind_Ok in H as (u & ->%uint_inv & H). apply field_varint_inv in H as [-> Hw]; [|done].
  by apply writes_one.
Qed.

Definition wf_metric (m : Metric) : Prop :=
  is_text (m_name m) ∧
  if m_is_null m then m_value m = VNone else wf_value (m_datatype m) (m_value m).

Lemma known_datatype_small dt l : zassoc dt _VALUE_FIELDS = Some l → 1 <= dt <= 17.
Proof.
  unfold _VALUE_FIELDS. simpl. intros H. destruct (decide (1 <= dt <= 17)); [done|].
  exfalso. revert H.
  repeat (match goal with |- context [?a =? ?b] => rewrite (proj2 (Z.eqb_neq a b)) by (unfold DataType.Int8, DataType.Int16, DataType.Int32, DataType.Int64, DataType.UInt8, DataType.UInt16, DataType.UInt32, DataType.UInt64, DataType.DateTime, DataType.Float, DataType.Double, DataType.Boolean, DataType.String, DataType.Text, DataType.Bytes; lia) end).
  done.
Qed.

Lemma writes_name name b :
  is_text name →
  (match name with [] => Ok [] | c :: l => b ← _text (VStr (c :: l)); _field_len 1 b end) = Ok b →
  writes metric_field b (Metric0, None) (set_name name Metric0, None).
Proof.
  intros Hname H. destruct name as [|c name]; [injection H as <-; apply writes_nil|].
  apply res_bind_Ok in H as (t & Ht & H). apply field_len_inv in H as [-> Hw]; [|done].
  apply writes_one; [done|]. unfold metric_field. cbn -[_utf8].
  by rewrite (text_back (c :: name) t).
Qed.

(** The value of a metric, after its header fields. *)
Lemma writes_value m b :
  (if m_is_null m then _field_varint 7 1
   else if m_datatype m =? 0 then raise ValueError "a datatype is needed to encode a value"
   else match m_value m with
        | VNone => raise ValueError "value is None (set is_null=True for a null metric)"
        | v => _encode_value (m_datatype m) v
        end) = Ok b → wf_metric m →
  ∃ wire, writes metric_field b (set_is_null false (set_value VNone m), None)
                 (set_value VNone m, wire) ∧
          if m_is_null m then wire = None
          else ∃ n w, wire = Some (n, w) ∧ _decode_value (m_datatype m) n w = Ok (m_value m).
Proof.
  destruct m as [name dt value alias ts [|]]; unfold wf_metric, set_is_null, set_value; simpl;
    intros H [Hname Hval].
  - apply field_varint_inv in H as [-> Hw]; [|done]. exists None. split; [|done].
    by apply writes_one.
  - destruct (dt =? 0); [done|].
    assert (_encode_value dt value = Ok b) as He by (by destruct value). clear H.
    destruct (encode_value_back _ _ _ He Hval) as (n & w & fv & wire & -> & Hw & Hm & Hd).
    exists (Some (n, wire)). split; [by apply writes_one|by exists n, wire].
Qed.

Lemma metric_back m b :
  _encode_metric m true = Ok b → wf_metric m → _decode_metric b = Ok m.
Proof.
  intros H Hwf. unfold _encode_metric in H.
  apply res_bind_Ok in H as (f1 & H1 & H). apply res_bind_Ok in H as (f2 & H2 & H).
  apply res_bind_Ok in H as (f3 & H3 & H). apply res_bind_Ok in H as (u & Hu%raise_if_Ok & H).
  apply res_bind_Ok in H as (f4 & H4 & H). apply res_bind_Ok in H as (f5 & H5 & [= <-]).
  apply writes_name in H1; [|by apply Hwf].
  destruct (writes_value m f5 H5 Hwf) as (wire & H5' & Hwire). clear H5.
  destruct m as [name dt value alias ts null].
  cbn [m_name m_datatype m_value m_alias m_timestamp m_is_null] in *.
  assert (0 <= dt < 2 ^ 32) as Hdt.
  { destruct (Z.eqb_spec dt 0) as [->|]; [done|]. cbn [negb andb] in Hu.
    destruct (zassoc dt _VALUE_FIELDS) eqn:E; [|done]. apply known_datatype_small in E. lia. }
  apply (writes_uint metric_field 2 64 alias f2 (set_name name Metric0, None)
           (λ a, (mkMetric name 0 VNone (Some a) None false, None))) in H2; [|done|done].
  replace (match alias with Some _ => _ | None => _ end)
    with (mkMetric name 0 VNone alias None false, @None (Z * pyval)) in H2 by (by destruct alias).
  apply (writes_uint metric_field 3 64 ts f3 (mkMetric name 0 VNone alias None false, None)
           (λ a, (mkMetric name 0 VNone alias (Some a) false, None))) in H3; [|done|done].
  replace (match ts with Some _ => _ | None => _ end)
    with (mkMetric name 0 VNone alias ts false, @None (Z * pyval)) in H3 by (by destruct ts).
  assert (writes metric_field f4 (mkMetric name 0 VNone alias ts false, None)
            (mkMetric name dt VNone alias ts false, None)) as H4'.
  { destruct (Z.eqb_spec dt 0) as [->|]; cbn [negb andb] in H4;
      [injection H4 as <-; apply writes_nil|].
    apply field_varint_inv in H4 as [-> Hw]; [|done]. apply writes_one; [done|].
    unfold metric_field. cbn -[Z.land]. change _U32_MAX with (Z.ones 32).
    by rewrite Z.land_ones, Z.mod_small by done. }
  pose proof (writes_app _ _ _ _ _ _ H1 (writes_app _ _ _ _ _ _ H2
    (writes_app _ _ _ _ _ _ H3 (writes_app _ _ _ _ _ _ H4' H5')))) as Hall.
  unfold _decode_metric. rewrite (writes_fields _ _ _ _ Hall). clear -Hwf Hwire. cbn.
  destruct Hwf as [_ Hval]. destruct null; cbn in *; subst; [done|].
  destruct Hwire as (n & w & -> & ->). done.
Qed.

(** ** Payloads *)
Definition wf_payload (p : Payload) : Prop :=
  Forall wf_metric (p_metrics p) ∧ match p_uuid p with Some s => is_text s | None => True end.

Lemma writes_metrics ms bs ts seq uuid body :
  mapr (λ metric, b ← _encode_metric metric true; _field_len 2 b) ms = Ok bs →
  Forall wf_metric ms → ∀ ms0,
  writes payload_field (concat bs) (mkPayload ts ms0 seq uuid body)
    (mkPayload ts (ms0 ++ ms) seq uuid body).
Proof.
  intros H Hwf. revert bs H. induction Hwf as [|m ms Hm _ IH]; intros bs H ms0; simpl in H.
  - injection H as <-. rewrite app_nil_r. apply writes_nil.
  - apply res_bind_Ok in H as (b & Hb & H). apply res_bind_Ok in H as (bs' & Hbs & [= <-]).
    apply res_bind_Ok in Hb as (e & He & Hb). apply field_len_inv in Hb as [-> Hw]; [|done].
    cbn [concat]. apply (writes_app _ _ _ _ (mkPayload ts (ms0 ++ [m]) seq uuid body)).
    + apply writes_one; [done|]. cbn -[_decode_metric]. by rewrite (metric_back m e).
    + replace (ms0 ++ m :: ms) with ((ms0 ++ [m]) ++ ms) by (by rewrite <- app_assoc).
      by apply IH.
Qed.

(** C9: decoding an encoded payload gives the payload back: timestamp, sequence number, uuid,
    body and every metric in order with its name, alias, timestamp, datatype, null flag and value,
    for every datatype, integers through their two's complement included. *)
Theorem payload_roundtrip p b :
  wf_payload p → encode_payload p true = Ok b → decode_payload b = Ok p.
Proof.
  destruct p as [ts ms seq uuid body]. intros [Hms Huuid] H. unfold encode_payload in H. cbn in *.
  apply res_bind_Ok in H as (f1 & H1 & H). apply res_bind_Ok in H as (f2 & H2 & H).
  apply res_bind_Ok in H as (f3 & H3 & H). apply res_bind_Ok in H as (f4 & H4 & H).
  apply res_bind_Ok in H as (f5 & H5 & [= <-]).
  apply (writes_uint payload_field 1 64 ts f1 (mkPayload None [] None None None)
           (λ a, mkPayload (Some a) [] None None None)) in H1; [|done|done].
  replace (match ts with Some _ => _ | None => _ end)
    with (mkPayload ts [] None None None) in H1 by (by destruct ts).
  pose proof (writes_metrics ms f2 ts None None None H2 Hms []) as H2'.
  apply (writes_uint payload_field 3 8 seq f3 (mkPayload ts ms None None None)
           (λ a, mkPayload ts ms (Some a) None None)) in H3; [|done|done].
  replace (match seq with Some _ => _ | None => _ end)
    with (mkPayload ts ms seq None None) in H3 by (by destruct seq).
  assert (writes payload_field f4 (mkPayload ts ms seq None None)
            (mkPayload ts ms seq uuid None)) as H4'.
  { destruct uuid as [s|]; cbn in H4; [|injection H4 as <-; apply writes_nil].
    apply res_bind_Ok in H4 as (t & Ht & H4). apply field_len_inv in H4 as [-> Hw]; [|done].
    apply writes_one; [done|]. unfold payload_field. cbn -[_utf8]. by rewrite (text_back s t). }
  assert (writes payload_field f5 (mkPayload ts ms seq uuid None)
            (mkPayload ts ms seq uuid body)) as H5'.
  { destruct body as [s|]; cbn in H5; [|injection H5 as <-; apply writes_nil].
    apply field_len_inv in H5 as [-> Hw]; [|done]. by apply writes_one. }
  apply writes_fields.
  exact (writes_app _ _ _ _ _ _ H1 (writes_app _ _ _ _ _ _ H2'
    (writes_app _ _ _ _ _ _ H3 (writes_app _ _ _ _ _ _ H4' H5')))).
Qed.

Definition sample_payload : Payload :=
  mkPayload (Some 1700000000000)
    [mkMetric (str "bdSeq") DataType.UInt64 (VInt 3) None None false;
     mkMetric (str "temp") DataType.Int16 (VInt (-5)) (Some 1) (Some 1700000000001) false;
     mkMetric (str "run") DataType.Boolean (VBool true) (Some 2) None false;
     mkMetric (str "lost") DataType.Float VNone (Some 3) None true]
    (Some 0) (Some (str "id")) (Some [1; 2; 3]).
Ltac ground_text :=
  unfold is_text; apply (bool_decide_unpack _); vm_compute; exact I.
Lemma payload_roundtrip_witness :
  match encode_payload sample_payload true with
  | Ok b => decode_payload b = Ok sample_payload
  | Raise _ => False
  end.
Proof.
  destruct (encode_payload sample_payload true) as [b|e] eqn:E; [|vm_compute in E; discriminate E].
  apply payload_roundtrip; [|exact E].
  split; [|ground_text].
  repeat (apply Forall_cons; split; [split; [ground_text|cbn; eauto]|]). by apply Forall_nil.
Defined.

(** ** Topics *)
Lemma check_id_ok s :
  s ≠ [] → Forall (λ c, existsb (Z.eqb c) (str "/+#") = false) s → _check_id (VStr s) = Ok s.
Proof.
  intros Hne Hs. unfold _check_id. destruct s as [|c s]; [done|]. cbn [orb].
  destruct (existsb _ (c :: s)) eqn:E; [|done].
  apply existsb_exists in E as (x & Hx%list_elem_of_In & Ex).
  rewrite Forall_forall in Hs. by rewrite Hs in Ex.
Qed.
Lemma check_id_inv s s' :
  _check_id (VStr s) = Ok s' →
  s' = s ∧ s ≠ [] ∧ Forall (λ c, existsb (Z.eqb c) (str "/+#") = false) s.
Proof.
  unfold _check_id. destruct (_ || _) eqn:E; [done|]. intros [= <-]. zbool.
  split; [done|]. split; [by destruct s|]. apply Forall_forall. intros c Hc.
  destruct (existsb (Z.eqb c) (str "/+#")) eqn:Ec; [|done].
  match goal with H : existsb _ s = false |- _ => rewrite <- H end.
  symmetry. apply existsb_exists. exists c. by rewrite <- list_elem_of_In.
Qed.
Lemma id_no_slash s :
  Forall (λ c, existsb (Z.eqb c) (str "/+#") = false) s → Forall (λ c, c ≠ 47) s.
Proof. intros H. eapply Forall_impl; [done|]. intros c Hc ->. done. Qed.

Lemma sanitize_id_ok text : _check_id (VStr (sanitize_id text)) = Ok (sanitize_id text).
Proof.
  unfold sanitize_id. set (s := _ <$> strip text).
  assert (Forall (λ c, existsb (Z.eqb c) (str "/+#") = false) s) as Hs.
  { apply Forall_fmap, Forall_true. intros c. simpl. destruct (_id_unsafe c) eqn:E; [done|].
    unfold _id_unsafe in E. by zbool. }
  clearbody s. by destruct s as [|c s]; [|apply check_id_ok].
Qed.

Definition is_device_type (t : pystr) : bool := starts_with t (str "D").

(** the topic of a message splits back at the slashes into exactly the namespace, the group,
    the message type, the edge node and, for device messages only, the device. *)
Theorem topic_splits group_id message_type node device t :
  topic group_id message_type node device = Ok t →
  split_on 47 t = [TOPIC_NAMESPACE; group_id; message_type; node] ++ option_list device ∧
  (is_Some device ↔ is_device_type message_type = true).
Proof.
  unfold topic, is_device_type. intros H. res_inv.
  all: repeat match goal with
       | H : _check_id _ = Ok _ |- _ => apply check_id_inv in H as (-> & ? & ?%id_no_slash)
       | H : match ?d with Some _ => _ | None => _ end = Ok _ |- _ => destruct d eqn:?; res_inv
       end.
  all: assert (Forall (λ c, c ≠ 47) message_type) by
    (match goal with H : negb _ = false |- _ => apply negb_false_iff in H;
       apply existsb_exists in H as (m & Hm & ->%str_eqb_eq) end;
     apply list_elem_of_In in Hm;
     unfold MESSAGE_TYPES in Hm; repeat (apply elem_of_cons in Hm as [->|Hm]; [by repeat constructor|]);
     by apply not_elem_of_nil in Hm).
  all: split; [apply split_on_join; [done|repeat constructor; done]|].
  all: split; [try (intros [? [=]]); done|by eauto].
Qed.
Lemma topic_splits_witness :
  split_on 47 (str "spBv1.0/plant/DDATA/node1/plc") =
    [TOPIC_NAMESPACE; str "plant"; str "DDATA"; str "node1"] ++ option_list (Some (str "plc")) ∧
  (is_Some (Some (str "plc")) ↔ is_device_type (str "DDATA") = true).
Proof. apply topic_splits. vm_compute. reflexivity. Defined.
