(* ===== verification/Gateway.v ===== *)
(** * Modbus/TCP to RTU gateway (app/engine/modbus_gateway.py)

    One transaction on the shared serial bus, the frame loop of a connected master, admission of
    masters, polling and writing of points. What the serial line and the sockets deliver is an
    explicit list of read outcomes, one per [reader.read]; the gateway's own state is [gw]. *)
From S2P Require Import Prelude PyFloat PyStr PyVal IpAddr PyNum Json Modbus.
#[local] Open Scope Z_scope.

(** The outcome of one [await asyncio.wait_for(reader.read(...), timeout)]; empty data is EOF. *)
Inductive read_result := RData (b : bytes) | RTimeout | RErr (e : exn).

(** What the bus does during one transaction: the port is open (within the wait), whether the
    write fails, and the outcomes of the reads. *)
Record bus := mkBus { bus_ready : bool; bus_write : option exn; bus_reads : list read_result }.

Inductive direction := FROM_DEVICE | TO_DEVICE.
Inductive pubval := PubBool (b : bool) | PubNum (n : num).
Inductive gw_event :=
  | Monitor (b : bytes)
  | Trace (tag : pystr) (b : bytes)
  | Traffic (d : direction) (b : bytes)
  | Publish (values : list (pystr * pubval)).

(** [gw_wire]: the RTU requests handed to the serial writer; [gw_out]: the ADUs written to the
    master being served; [gw_env]: the bus behaviour of the transactions to come. *)
Record gw := mkGw {
  bytes_in : Z;
  bytes_out : Z;
  gw_events : list gw_event;
  gw_wire : list bytes;
  gw_out : list bytes;
  gw_env : list bus;
}.

Definition emit (e : gw_event) : st gw unit :=
  st_modify (λ s, mkGw (bytes_in s) (bytes_out s) (gw_events s ++ [e]) (gw_wire s) (gw_out s)
                       (gw_env s)).
Definition add_out (n : Z) : st gw unit :=
  st_modify (λ s, mkGw (bytes_in s) (bytes_out s + n) (gw_events s) (gw_wire s) (gw_out s)
                       (gw_env s)).
Definition add_in (n : Z) : st gw unit :=
  st_modify (λ s, mkGw (bytes_in s + n) (bytes_out s) (gw_events s) (gw_wire s) (gw_out s)
                       (gw_env s)).
Definition serial_put (b : bytes) : st gw unit :=
  st_modify (λ s, mkGw (bytes_in s) (bytes_out s) (gw_events s) (gw_wire s ++ [b]) (gw_out s)
                       (gw_env s)).
Definition net_put (b : bytes) : st gw unit :=
  st_modify (λ s, mkGw (bytes_in s) (bytes_out s) (gw_events s) (gw_wire s) (gw_out s ++ [b])
                       (gw_env s)).
Definition next_bus : st gw bus := λ s,
  match gw_env s with
  | b :: l => (Ok b, mkGw (bytes_in s) (bytes_out s) (gw_events s) (gw_wire s) (gw_out s) l)
  | [] => (Ok (mkBus false None []), s)
  end.

(** ** One RTU transaction *)
(** [while True: junk = await wait_for(read, 0.001); ...] under [suppress(Exception)]: what is
    left for the reply. *)
Fixpoint discard_stale (reads : list read_result) : list read_result :=
  match reads with
  | RData (_ :: _) :: l => discard_stale l
  | _ :: l => l
  | [] => []
  end.

Fixpoint read_until_gap (buf : bytes) (reads : list read_result) : res bytes :=
  match reads with
  | RData [] :: _ => Ok buf
  | RData more :: l => read_until_gap (buf ++ more) l
  | RTimeout :: _ => Ok buf
  | RErr e :: _ => Raise e
  | [] => Ok buf
  end.
Definition _read_rtu_response (reads : list read_result) : res bytes :=
  match reads with
  | RData [] :: _ => raise ConnectionError "serial EOF"
  | RData first :: l => read_until_gap first l
  | RTimeout :: _ | [] => raise TimeoutError ""
  | RErr e :: _ => Raise e
  end.

(** [except (asyncio.TimeoutError, ConnectionError, OSError)] *)
Definition link_error (e : exn) : bool :=
  match exn_cls e with TimeoutError | ConnectionError | OSError => true | _ => false end.

Definition _transaction (unit : Z) (pdu : bytes) : st gw bytes :=
  let function := match pdu with b :: _ => b | [] => 0 end in
  let failed := exception_pdu function GATEWAY_TARGET_FAILED in
  bus ← next_bus;
  if negb (bus_ready bus) then mret failed
  else
    let reads := discard_stale (bus_reads bus) in
    let rtu_req := rtu_wrap unit pdu in
    emit (Monitor ([187] ++ str " tx " ++ rtu_req));;
    emit (Trace (str "net>ser") rtu_req);;
    emit (Traffic TO_DEVICE rtu_req);;
    r ← st_catch link_error
          (serial_put rtu_req;;
           st_lift (match bus_write bus with Some e => Raise e | None => Ok tt end);;
           add_out (zlen rtu_req);;
           b ← st_lift (_read_rtu_response reads);
           mret (Some b))
          (λ _, mret None);
    match r with
    | None => mret failed
    | Some rtu_resp =>
        emit (Monitor ([170] ++ str " rx " ++ rtu_resp));;
        emit (Trace (str "ser>net") rtu_resp);;
        emit (Traffic FROM_DEVICE rtu_resp);;
        add_in (zlen rtu_resp);;
        match rtu_unwrap rtu_resp with
        | Raise _ => mret failed
        | Ok (runit, rpdu) => if negb (runit =? unit) then mret failed else mret rpdu
        end
    end.

(** ** The frame loop of a master *)
Inductive end_reason :=
  | ClosedByMaster | MaxTime | IdleTimeout | BadFraming | Disconnected (e : exn) | Stopped.

(** [while True: frame = take_tcp_adu(buf); ...]: the remaining buffer, or [None] when the
    framing is bad. Every frame consumes bytes, so the length of the buffer is fuel enough. *)
Fixpoint serve_frames (fuel : nat) (buf : bytes) : st gw (option bytes) :=
  match fuel with
  | O => st_lift (raise OutOfFuel "")
  | S fuel' =>
      match take_tcp_adu buf with
      | Raise _ => mret None
      | Ok (None, buf) => mret (Some buf)
      | Ok (Some (txn, unit, pdu), buf) =>
          rpdu ← _transaction unit pdu;
          net_put (build_tcp_adu txn unit rpdu);;
          serve_frames fuel' buf
      end
  end.

(** Reads of a master's socket: data, our timer (with whether the deadline has passed) or a
    socket error. *)
Inductive net_read := NData (b : bytes) | NTimer (deadline_passed : bool) | NErr (e : exn).

Fixpoint serve_master (buf : bytes) (reads : list net_read) : st gw end_reason :=
  match reads with
  | [] => mret Stopped
  | NTimer passed :: _ => mret (if passed then MaxTime else IdleTimeout)
  | NErr e :: _ => mret (Disconnected e)
  | NData [] :: _ => mret ClosedByMaster
  | NData data :: l =>
      let buf := buf ++ data in
      r ← serve_frames (S (length buf)) buf;
      match r with
      | None => mret BadFraming
      | Some buf => serve_master buf l
      end
  end.

(** [_next_timer]: milliseconds until a timer fires. *)
Definition _next_timer (idle_ms : Z) (deadline : option Z) (now : Z) : option Z :=
  match (if 0 <? idle_ms then [idle_ms] else []) ++
        (match deadline with Some d => [Z.max 0 (d - now)] | None => [] end) with
  | [] => None
  | w :: ws => Some (fold_left Z.min ws w)
  end.

(** ** Admission *)
Record master := mkMaster { m_id : Z; m_peer : pystr; connected_at : Z }.
Record listener := mkListener {
  max_connections : Z;
  allowed : list net;
  clients : list master;
  client_count : Z;
  client_list : list master;
}.
Definition _refresh_clients (cs : list master) (l : listener) : listener :=
  mkListener (max_connections l) (allowed l) cs (zlen cs)
    (sort_by (λ a b, connected_at a <=? connected_at b) cs).

Inductive admission := Admitted_ | NotAllowed | MaxReached.
(** [_on_client] up to the frame loop: no await separates the check from the addition. *)
Definition on_connect (peer_ip : pystr) (m : master) (l : listener) : admission * listener :=
  if match allowed l with [] => false | _ => true end && negb (_ip_in_nets peer_ip (allowed l))
  then (NotAllowed, l)
  else if max_connections l <=? zlen (clients l) then (MaxReached, l)
  else (Admitted_, _refresh_clients (clients l ++ [m]) l).
(** The [finally] of [_on_client]. *)
Definition on_disconnect (m : master) (l : listener) : listener :=
  _refresh_clients (filter (λ c, m_id c ≠ m_id m) (clients l)) l.

(** ** Points: polling and writes *)
Record ModbusPoint := mkPoint {
  p_name : pystr;
  p_unit : Z;
  p_fn : Z;
  p_address : Z;
  p_dtype : pystr;
  p_scale : num;
  p_writable : bool;
}.

Definition _read_point (p : ModbusPoint) : st gw pubval :=
  if (p_fn p =? READ_COILS) || (p_fn p =? READ_DISCRETE_INPUTS) then
    pdu ← st_lift (read_bits_pdu (p_fn p) (p_address p) 1);
    rpdu ← _transaction (p_unit p) pdu;
    st_lift (d ← response_data rpdu (p_fn p);
             bs ← decode_bits d 1;
             match bs with b :: _ => Ok (PubBool b) | [] => raise IndexError "" end)
  else
    n ← st_lift (dtype_registers (p_dtype p));
    rpdu ← _transaction (p_unit p) (read_pdu (p_fn p) (p_address p) n);
    st_lift (d ← response_data rpdu (p_fn p);
             v ← decode_value d (p_dtype p) (p_scale p);
             Ok (PubNum v)).

Definition _publish_values (values : list (pystr * pubval)) : st gw unit := emit (Publish values).
(** The text of a published value: [str(v)], booleans as 1 / 0. *)
Definition value_text (v : pubval) : pystr :=
  match v with
  | PubBool b => if b then str "1" else str "0"
  | PubNum n => str_of_num n
  end.

(** One round of [_poll_loop]: a point that fails is skipped. *)
Fixpoint poll_points (points : list ModbusPoint) (values : list (pystr * pubval))
    : st gw (list (pystr * pubval)) :=
  match points with
  | [] => mret values
  | p :: l =>
      v ← st_catch any_exn (v ← _read_point p; mret (Some v)) (λ _, mret None);
      poll_points l (match v with Some v => dict_set (p_name p) v values | None => values end)
  end.
Definition poll_round (points : list ModbusPoint) : st gw unit :=
  values ← poll_points points [];
  match values with [] => mret tt | _ => _publish_values values end.

(** The request a write sends. *)
Definition write_pdu (point : ModbusPoint) (value : pyval) : res bytes :=
  if p_fn point =? READ_COILS then
    match value with
    | VList l => write_multiple_coils_pdu (p_address point) l
    | _ => write_single_coil_pdu (p_address point) value
    end
  else
    regs ← encode_value value (p_dtype point)
             (if num_truthy (p_scale point) then p_scale point else NFloat f1);
    match regs with
    | [r] => write_single_register_pdu (p_address point) r
    | _ => write_multiple_registers_pdu (p_address point) regs
    end.

Definition write_point (point : ModbusPoint) (value : pyval) : st gw unit :=
  if negb (p_writable point) then st_lift (raise ValueError "point {point.name!r} is not writable")
  else
    pdu ← st_lift (write_pdu point value);
    rpdu ← _transaction (p_unit point) pdu;
    st_lift (check_write_response rpdu pdu);;
    st_catch any_exn (v ← _read_point point; _publish_values [(p_name point, v)])
             (λ _, mret tt).

(** ** Write requests over MQTT *)
Definition _coil (text : pystr) : res bool :=
  let t := lower (strip text) in
  if existsb (str_eqb t) [str "1"; str "true"; str "on"] then Ok true
  else if existsb (str_eqb t) [str "0"; str "false"; str "off"] then Ok false
  else raise ValueError "a coil takes 1/0, true/false or on/off, not {text!r}".

(** [str(v)] of a JSON value. The text of a list or a dict starts with a bracket, so it never
    names a coil state; its elements do not matter here. *)
Definition json_str (v : pyval) : pystr :=
  match v with
  | VNone => str "None"
  | VBool b => if b then str "True" else str "False"
  | VInt z => str_of_Z z
  | VFloat f => str_of_float f
  | VStr s => s
  | VBytes _ | VList _ => str "["
  | VDict _ => str "{"
  end.

Definition parse_write_payload (payload : bytes) (fn : Z) : res pyval :=
  let text := strip (utf8_decode_replace payload) in
  if fn =? READ_COILS then
    if starts_with text (str "[") then
      match json_loads text with
      | None => raise ValueError "JSONDecodeError"
      | Some (VList (v :: vs)) =>
          bs ← mapr (λ v, _coil (json_str v)) (v :: vs); Ok (VList (VBool <$> bs))
      | Some _ => raise ValueError "expected a JSON list of coil states"
      end
    else b ← _coil text; Ok (VBool b)
  else
    match (if existsb (λ c, existsb (Z.eqb c) (str ".eE")) text
           then VFloat <$> float_of_text text else VInt <$> int_of_text0 text) with
    | Some v => Ok v
    | None => raise ValueError "not a number: {text!r}"
    end.

(** [_on_set_message] and the task it schedules: the message published on [<topic>/result]. *)
Definition rsplit_name (topic : pystr) : option pystr :=
  '(before, _) ← split_last 47 topic;
  match split_last 47 before with
  | Some (_, name) => Some name
  | None => Some before
  end.
Definition _on_set_message (points : list ModbusPoint) (topic : pystr) (payload : bytes)
    : st gw (option (pystr * pystr)) :=
  match rsplit_name topic with
  | None => st_lift (raise IndexError "list index out of range")
  | Some name =>
      match List.find (λ p, str_eqb (p_name p) name) points with
      | None => mret None
      | Some point =>
          let result := topic ++ str "/result" in
          match parse_write_payload payload (p_fn point) with
          | Raise e => mret (Some (result, str "error: " ++ str (exn_msg e)))
          | Ok value =>
              err ← st_catch any_exn (write_point point value;; mret None) (λ e, mret (Some e));
              mret (Some (result, match err with
                                  | None => str "ok"
                                  | Some e => str "error: " ++ str (exn_msg e)
                                  end))
          end
      end
  end.

(** ** Popping frames off a growing buffer *)
Lemma nth_app_l {A} (l k : list A) i d : (i < length l)%nat → nth i (l ++ k) d = nth i l d.
Proof. intros. by apply app_nth1. Qed.

Lemma take_extend buf x :
  match take_tcp_adu buf with
  | Raise e => take_tcp_adu (buf ++ x) = Raise e
  | Ok (None, b) => b = buf
  | Ok (Some f, rest) =>
      take_tcp_adu (buf ++ x) = Ok (Some f, rest ++ x) ∧ (length rest < length buf)%nat
  end.
Proof.
  destruct (Z.ltb_spec (zlen buf) MBAP_LEN) as [Hs|Hs].
  { unfold take_tcp_adu. by rewrite (proj2 (Z.ltb_lt _ _) Hs). }
  assert (7 <= length buf)%nat as Hl by (unfold zlen, MBAP_LEN in Hs; lia).
  unfold take_tcp_adu. rewrite zlen_app. pose proof (zlen_nonneg x).
  rewrite (proj2 (Z.ltb_ge _ _) Hs), (proj2 (Z.ltb_ge (zlen buf + _) _)) by lia.
  cbv zeta. rewrite !nth_app_l by lia.
  destruct (raise_if (negb (_ =? 0)) _ _) as [[]|e]; cbn [mbind res_bind]; [|done].
  destruct (raise_if (negb (_ && _)) _ _) as [[]|e] eqn:E; cbn [mbind res_bind]; [|done].
  apply raise_if_Ok in E. zbool. set (len := Z.lor _ _) in *.
  destruct (Z.ltb_spec (zlen buf) (MBAP_LEN + (len - 1))); [done|].
  rewrite (proj2 (Z.ltb_ge _ _)) by lia. unfold MBAP_LEN, slice, slice_from, zlen in *.
  rewrite !drop_app_le, take_app_le by (rewrite ?length_drop; lia).
  split; [done|]. rewrite length_drop. lia.
Qed.

(** ** Serving frames *)
Lemma serve_frames_fuel f1 f2 buf s :
  (length buf < f1)%nat → (length buf < f2)%nat → serve_frames f1 buf s = serve_frames f2 buf s.
Proof.
  revert f2 buf s. induction f1 as [|f1 IH]; intros [|f2] buf s H1 H2; try lia.
  cbn [serve_frames]. pose proof (take_extend buf []) as Ht.
  destruct (take_tcp_adu buf) as [[[[[txn unit] pdu]|] rest]|e]; [|done..].
  destruct Ht as [_ Ht]. rewrite !st_bind_eq. destruct (_transaction unit pdu s) as [[r|e] s']; [|done].
  rewrite !st_bind_eq. cbn. apply IH; lia.
Qed.

Lemma serve_frames_shrinks f buf rest s s' :
  serve_frames f buf s = (Ok (Some rest), s') → (length rest <= length buf)%nat.
Proof.
  revert buf s. induction f as [|f IH]; intros buf s; cbn [serve_frames]; [done|].
  pose proof (take_extend buf []) as Ht.
  destruct (take_tcp_adu buf) as [[[[[txn unit] pdu]|] b]|e]; [|by intros [= <- _]; subst|done].
  destruct Ht as [_ Ht]. rewrite st_bind_eq. destruct (_transaction unit pdu s) as [[r|e] s1]; [|done].
  rewrite st_bind_eq. cbn. intros H%IH. lia.
Qed.

Lemma serve_frames_frame f buf txn unit pdu rest s :
  take_tcp_adu buf = Ok (Some (txn, unit, pdu), rest) →
  serve_frames (S f) buf s =
  match _transaction unit pdu s with
  | (Ok r, s') => serve_frames f rest (snd (net_put (build_tcp_adu txn unit r) s'))
  | (Raise e, s') => (Raise e, s')
  end.
Proof.
  intros Ht. cbn [serve_frames]. rewrite Ht, st_bind_eq.
  by destruct (_transaction unit pdu s) as [[r|e] s1].
Qed.

Lemma serve_frames_split fuel buf x s :
  (length (buf ++ x) < fuel)%nat →
  serve_frames fuel (buf ++ x) s =
  match serve_frames fuel buf s with
  | (Ok (Some rest), s') => serve_frames fuel (rest ++ x) s'
  | r => r
  end.
Proof.
  revert buf s. induction fuel as [|fuel IH]; intros buf s Hf; [lia|].
  rewrite length_app in Hf. pose proof (take_extend buf x) as Ht.
  destruct (take_tcp_adu buf) as [[[[[txn unit] pdu]|] rest]|e] eqn:E.
  - destruct Ht as [Ht Hlt]. rewrite (serve_frames_frame fuel (buf ++ x) txn unit pdu (rest ++ x)),
      (serve_frames_frame fuel buf txn unit pdu rest) by done.
    destruct (_transaction unit pdu s) as [[r|e] s1]; [|done]. rewrite IH by (rewrite length_app; lia).
    destruct (serve_frames fuel rest _) as [[[r'|]|e] s2] eqn:E2; [|done..].
    apply serve_frames_shrinks in E2. apply serve_frames_fuel; rewrite length_app; lia.
  - subst rest. cbn [serve_frames]. by rewrite E.
  - cbn [serve_frames]. by rewrite Ht, E.
Qed.

Lemma serve_master_chunks buf c chunks reads s :
  Forall (λ c, c ≠ []) (c :: chunks) →
  serve_master buf ((NData <$> c :: chunks) ++ reads) s
  = serve_master buf (NData (concat (c :: chunks)) :: reads) s.
Proof.
  revert buf c s. induction chunks as [|c' chunks IH]; intros buf c s Hne.
  { cbn [concat fmap list_fmap app]. by rewrite app_nil_r. }
  apply Forall_cons in Hne as [Hc Hne]. pose proof (proj1 (Forall_cons _ _ _) Hne) as [Hc' _].
  cbn [fmap list_fmap app serve_master]. destruct c as [|z c]; [done|].
  cbn [concat app]. rewrite app_comm_cons, app_assoc.
  rewrite !st_bind_eq. set (b1 := buf ++ z :: c). set (x := c' ++ concat chunks).
  rewrite (serve_frames_split _ b1 x) by lia.
  rewrite (serve_frames_fuel (S (length (b1 ++ x))) (S (length b1))) by (rewrite ?length_app; lia).
  destruct (serve_frames (S (length b1)) b1 s) as [[[rest|]|e] s'] eqn:E; [|done..].
  apply serve_frames_shrinks in E.
  etransitivity; [exact (IH rest c' s' Hne)|]. cbn [concat serve_master]. fold x.
  destruct x as [|y x'] eqn:Ex; [by destruct c'|].
  by rewrite st_bind_eq, (serve_frames_fuel _ (S (length (b1 ++ y :: x'))))
    by (rewrite !length_app; lia).
Qed.

(** C18: how TCP cuts a master's byte stream into reads makes no difference: any chunking of the
    same bytes (well-formed or not) gives the same answers, the same bus traffic, the same final
    buffer and the same way of ending. *)
Theorem serve_chunking buf c chunks reads s :
  Forall (λ c, c ≠ []) (c :: chunks) →
  serve_master buf ((NData <$> c :: chunks) ++ reads) s
  = serve_master buf (NData (concat (c :: chunks)) :: reads) s.
Proof. apply serve_master_chunks. Qed.

Definition serve_chunking_requests : list bytes :=
  [[0; 1; 0; 0; 0; 6]; [9; 3; 0; 0]; [0; 1; 0; 2; 0; 0; 0; 2; 9]; [7; 0]].
Definition idle_gw : gw := mkGw 0 0 [] [] [] [].
Lemma serve_chunking_witness :
  serve_master [] ((NData <$> serve_chunking_requests) ++ [NTimer false]) idle_gw
  = serve_master [] (NData (concat serve_chunking_requests) :: [NTimer false]) idle_gw.
Proof. apply serve_chunking. by repeat (apply Forall_cons; split; [done|]). Defined.

(** ** What a transaction answers *)
(** The bus only fails in the ways a serial link does. *)
Definition read_ok (r : read_result) : bool :=
  match r with RErr e => link_error e | _ => true end.
Definition bus_ok (b : bus) : bool :=
  match bus_write b with Some e => link_error e | None => true end && forallb read_ok (bus_reads b).
Definition env_ok (s : gw) : Prop := Forall (λ b, bus_ok b = true) (gw_env s).

(** What is heard on a bus after a request: the port is open and takes it, and the reads bring stale bytes, a silence, the reply in
    any number of pieces, and another silence (or nothing more). *)
Definition silence (r : read_result) : Prop := match r with RData (_ :: _) | RErr _ => False | _ => True end.
Definition heard (b : bus) (data : bytes) : Prop :=
  bus_ready b = true ∧ bus_write b = None ∧
  ∃ stale quiet chunks rest, bus_reads b = (RData <$> stale) ++ quiet :: (RData <$> chunks) ++ rest
    ∧ Forall (λ d, d ≠ []) stale ∧ Forall (λ d, d ≠ []) chunks ∧ (∀ d, quiet = RData d → d = [])
    ∧ chunks ≠ [] ∧ data = concat chunks ∧ (rest = [] ∨ ∃ r l, rest = r :: l ∧ silence r).
(** The answer to a request for [unit] on a bus: the PDU of what was heard, when that is a frame of this very unit with a good
    CRC; otherwise, and only then, the gateway-target-failed exception. *)
Definition no_answer (pdu : bytes) : bytes :=
  exception_pdu (match pdu with b :: _ => b | [] => 0 end) GATEWAY_TARGET_FAILED.
Definition is_answer (b : bus) (unit : Z) (pdu r : bytes) : Prop :=
  (∃ data, heard b data ∧ rtu_unwrap data = Ok (unit, r))
  ∨ (r = no_answer pdu ∧ ∀ data r', heard b data → rtu_unwrap data ≠ Ok (unit, r')).
(** A request goes out once when the port is open. *)
Definition on_wire (b : bus) (unit : Z) (pdu : bytes) : list bytes := if bus_ready b then [rtu_wrap unit pdu] else [].
(** The buses of the next [n] transactions; when there are no more, the port is closed. *)
Definition closed_bus : bus := mkBus false None [].
Fixpoint buses (n : nat) (env : list bus) : list bus :=
  match n with O => [] | S n => hd closed_bus env :: buses n (tl env) end.

(** The requests a computation puts on the serial line, and nothing else of the master's. *)
Definition sends (l : list bytes) (s s' : gw) : Prop :=
  gw_wire s' = gw_wire s ++ l ∧ gw_out s' = gw_out s ∧ (env_ok s → env_ok s').

Lemma discard_stale_ok l : forallb read_ok l = true → forallb read_ok (discard_stale l) = true.
Proof.
  induction l as [|r l IH]; [done|]. simpl. intros [H1 H2]%andb_true_iff.
  by destruct r as [[|]| |]; auto.
Qed.
Lemma read_until_gap_ok buf l e :
  forallb read_ok l = true → read_until_gap buf l = Raise e → link_error e = true.
Proof.
  revert buf. induction l as [|r l IH]; intros buf; simpl; [done|]. intros [H1 H2]%andb_true_iff.
  destruct r as [[|]| |]; try done; [by apply IH|]. by intros [= <-].
Qed.
Lemma read_response_ok l e :
  forallb read_ok l = true → _read_rtu_response l = Raise e → link_error e = true.
Proof.
  destruct l as [|r l]; simpl; [by intros _ [= <-]|]. intros [H1 H2]%andb_true_iff.
  destruct r as [[|]| |]; try (by intros [= <-]). by apply read_until_gap_ok.
Qed.

(** [heard] is what the two loops of a transaction compute. *)
Lemma discard_stale_split l l' :
  discard_stale l = l' → l' ≠ [] → ∃ stale quiet, l = (RData <$> stale) ++ quiet :: l' ∧ Forall (λ d, d ≠ []) stale ∧ (∀ d, quiet = RData d → d = []).
Proof.
  intros <-. induction l as [|r l IH]; [done|]. destruct r as [[|z d]| |e]; cbn [discard_stale]; intros Hl;
    try (exists [], (RData []); split_and!; [done|constructor|by intros d [= <-]]).
  - destruct (IH Hl) as (stale & quiet & E & H1 & H2). exists ((z :: d) :: stale), quiet. split_and!; [by rewrite E at 1|by constructor|done].
  - by exists [], RTimeout.
  - by exists [], (RErr e).
Qed.
Lemma read_until_gap_split buf l data :
  read_until_gap buf l = Ok data →
  ∃ chunks rest, l = (RData <$> chunks) ++ rest ∧ Forall (λ d, d ≠ []) chunks ∧ data = buf ++ concat chunks ∧ (rest = [] ∨ ∃ r l', rest = r :: l' ∧ silence r).
Proof.
  revert buf. induction l as [|r l IH]; intros buf; cbn [read_until_gap].
  { intros [= <-]. exists [], []. split_and!; [done|constructor|by rewrite app_nil_r|by left]. }
  destruct r as [[|z d]| |e]; try (intros [= <-]).
  - exists [], (RData [] :: l). split_and!; [done|constructor|by rewrite app_nil_r|right; by eexists _, _].
  - intros (chunks & rest & E & H1 & H2 & H3)%IH. exists ((z :: d) :: chunks), rest. split_and!; [by rewrite E at 1|by constructor|by rewrite H2, <- app_assoc|done].
  - exists [], (RTimeout :: l). split_and!; [done|constructor|by rewrite app_nil_r|right; by eexists _, _].
Qed.
Lemma read_until_gap_join buf chunks rest :
  Forall (λ d, d ≠ []) chunks → (rest = [] ∨ ∃ r l, rest = r :: l ∧ silence r) → read_until_gap buf ((RData <$> chunks) ++ rest) = Ok (buf ++ concat chunks).
Proof.
  intros Hc Hr. revert buf. induction Hc as [|d chunks Hd _ IH]; intros buf; cbn [fmap list_fmap app concat read_until_gap].
  - rewrite app_nil_r. destruct Hr as [->|(r & l & -> & Hq)]; [done|]. by destruct r as [[|]| |].
  - destruct d; [done|]. change (RData <$> chunks) with (List.map RData chunks). rewrite IH. by rewrite <- app_assoc.
Qed.
Lemma heard_spec b data :
  heard b data ↔ bus_ready b = true ∧ bus_write b = None ∧ _read_rtu_response (discard_stale (bus_reads b)) = Ok data.
Proof.
  unfold heard. split.
  - intros (Hr & Hw & stale & quiet & chunks & rest & E & Hs & Hc & Hq & Hn & -> & Hrest). split_and!; [done..|]. rewrite E.
    assert (discard_stale ((RData <$> stale) ++ quiet :: (RData <$> chunks) ++ rest) = (RData <$> chunks) ++ rest) as ->.
    { clear -Hs Hq. induction Hs as [|d stale Hd _ IH]; cbn; [|by destruct d]. destruct quiet as [[|]| |]; try done. by specialize (Hq _ eq_refl). }
    destruct Hc as [|d chunks Hd Hc]; [done|]. destruct d; [done|]. cbn [fmap list_fmap app _read_rtu_response concat]. exact (read_until_gap_join (z :: d) chunks rest Hc Hrest).
  - intros (Hr & Hw & E). split_and!; [done..|]. destruct (discard_stale (bus_reads b)) as [|r l] eqn:Ed; [done|].
    destruct (discard_stale_split _ _ Ed) as (stale & quiet & Es & H1 & H2); [done|].
    destruct r as [[|z d]| |e]; try done. cbn [_read_rtu_response] in E. apply read_until_gap_split in E as (chunks & rest & -> & H3 & -> & H4).
    exists stale, quiet, ((z :: d) :: chunks), rest. split_and!; try done. by constructor.
Qed.

(** Run the state-passing plumbing. *)
Ltac gw_run :=
  cbv beta iota delta [mbind st_bind mret st_ret st_modify st_lift st_get st_catch emit add_out add_in
    serial_put net_put next_bus bus_ready bus_write bus_reads];
  cbn [gw_env gw_wire gw_out gw_events bytes_in bytes_out].

Lemma transaction_spec unit pdu s :
  env_ok s →
  let b := hd closed_bus (gw_env s) in
  ∃ r s', _transaction unit pdu s = (Ok r, s') ∧ is_answer b unit pdu r ∧ sends (on_wire b unit pdu) s s' ∧ gw_env s' = tl (gw_env s).
Proof.
  intros Henv. unfold _transaction. fold (no_answer pdu). unfold env_ok in Henv.
  destruct s as [bi bo ev wire out env]. destruct env as [|[ready wr reads] l]; gw_run; cbn [hd tl gw_env].
  { eexists (no_answer pdu), _. split_and!; [done| |by split_and!; [rewrite app_nil_r|..]|done]. right. split; [done|]. by intros data r' (? & _). }
  apply Forall_cons in Henv as [Hb Hl]. unfold bus_ok in Hb. cbn [bus_write bus_reads] in Hb.
  apply andb_true_iff in Hb as [Hw Hr%discard_stale_ok].
  assert ((∀ data, _read_rtu_response (discard_stale reads) = Ok data → wr = None → ready = true → ∀ r', rtu_unwrap data ≠ Ok (unit, r')) →
          is_answer (mkBus ready wr reads) unit pdu (no_answer pdu)) as Hno.
  { intros Hall. right. split; [done|]. intros data r' (E1 & E2 & E3)%heard_spec. by apply Hall. }
  unfold on_wire. cbn [bus_ready]. destruct ready; cbn [negb].
  2:{ eexists (no_answer pdu), _. split_and!; [done|by apply Hno|by split_and!; [rewrite app_nil_r|..]|done]. }
  destruct wr as [e|]; gw_run.
  { rewrite Hw. eexists (no_answer pdu), _. split_and!; [done|by apply Hno|by split_and!|done]. }
  destruct (_read_rtu_response (discard_stale reads)) as [resp|e] eqn:E; gw_run.
  2:{ rewrite (read_response_ok _ e Hr E). eexists (no_answer pdu), _. split_and!; [done|by apply Hno|by split_and!|done]. }
  destruct (rtu_unwrap resp) as [[runit rpdu]|e] eqn:Eu.
  2:{ eexists (no_answer pdu), _. split_and!; [done| |by split_and!|done]. apply Hno. intros data [= <-] _ _ r'. congruence. }
  destruct (Z.eqb_spec runit unit) as [->|Hne]; cbn [negb].
  - eexists rpdu, _. split_and!; [done| |by split_and!|done]. left. exists resp. split; [by apply heard_spec|done].
  - eexists (no_answer pdu), _. split_and!; [done| |by split_and!|done]. apply Hno. intros data [= <-] _ _ r'. congruence.
Qed.

Definition adu_of (f : Z * Z * bytes) : bytes := build_tcp_adu f.1.1 f.1.2 f.2.
Definition wf_request (f : Z * Z * bytes) : Prop :=
  0 <= f.1.1 < 65536 ∧ is_byte f.1.2 ∧ zlen f.2 <= MAX_PDU.
(** [out] answers the request under its own transaction and unit ids, with what its bus gave. *)
Definition answers (f : Z * Z * bytes) (b : bus) (out : bytes) : Prop :=
  ∃ r, out = build_tcp_adu f.1.1 f.1.2 r ∧ is_answer b f.1.2 f.2 r.
(** What the requests put on the serial line. *)
Definition requests (frames : list (Z * Z * bytes)) (bs : list bus) : list bytes := concat (zip_with (λ f b, on_wire b f.1.2 f.2) frames bs).

Lemma serve_frames_answers frames tail fuel s :
  Forall wf_request frames → take_tcp_adu tail = Ok (None, tail) → env_ok s →
  (length (concat (adu_of <$> frames) ++ tail) < fuel)%nat →
  let bs := buses (length frames) (gw_env s) in
  ∃ outs s', serve_frames fuel (concat (adu_of <$> frames) ++ tail) s = (Ok (Some tail), s') ∧
    gw_out s' = gw_out s ++ outs ∧ Forall3 answers frames bs outs ∧ gw_wire s' = gw_wire s ++ requests frames bs.
Proof.
  intros Hf Ht. revert fuel s. induction Hf as [|[[txn unit] pdu] frames (Hx & Hu & Hp) _ IH];
    intros fuel s Henv Hfuel; cbn [fst snd length buses] in *.
  { exists [], s. destruct fuel as [|fuel]; [lia|]. cbn [fmap list_fmap concat app serve_frames].
    rewrite Ht. split_and!; [done|by rewrite app_nil_r|constructor|by rewrite app_nil_r]. }
  cbn [fmap list_fmap concat] in *. rewrite <- app_assoc in *.
  destruct fuel as [|fuel]; [lia|].
  assert (take_tcp_adu (adu_of (txn, unit, pdu) ++ concat (adu_of <$> frames) ++ tail)
    = Ok (Some (txn, unit, pdu), concat (adu_of <$> frames) ++ tail)) as E by by apply take_build.
  rewrite (serve_frames_frame _ _ _ _ _ _ _ E).
  destruct (transaction_spec unit pdu s Henv) as (r & s1 & -> & Hr & (Hw & Ho & He) & Hb).
  destruct (IH fuel (net_put (build_tcp_adu txn unit r) s1).2) as (outs & s' & Hs' & Ho' & Ha & Hw');
    [by apply He|rewrite length_app in Hfuel; cbn in Hfuel; lia|].
  cbn in Ha, Hw', Ho'. rewrite Hb in Ha, Hw'.
  exists (build_tcp_adu txn unit r :: outs), s'. split; [exact Hs'|]. split_and!.
  - rewrite Ho'. cbn. by rewrite Ho, <- app_assoc.
  - constructor; [by exists r|done].
  - rewrite Hw', Hw, <- app_assoc. done.
Qed.


Definition slave_reply : bytes := rtu_wrap 9 [3; 2; 0; 5].
Definition busy_gw : gw :=
  mkGw 0 0 [] [] []
    [mkBus true None [RData [1; 2]; RTimeout; RData slave_reply; RTimeout];
     mkBus true None [RTimeout; RTimeout]].

(** bytes left over on the line before a request are never taken for its reply: with any
    stale bytes in front, the transaction ends exactly as it does on a silent line. *)
Theorem stale_bytes_ignored unit pdu junk write reads s env :
  Forall (λ b, b ≠ []) junk → gw_env s = mkBus true write ((RData <$> junk) ++ RTimeout :: reads) :: env →
  _transaction unit pdu s
  = _transaction unit pdu
      (mkGw (bytes_in s) (bytes_out s) (gw_events s) (gw_wire s) (gw_out s)
            (mkBus true write (RTimeout :: reads) :: env)).
Proof.
  intros Hj Henv. destruct s as [bi bo ev wire out env0]. cbn in Henv. subst env0.
  unfold _transaction. rewrite !(st_bind_eq next_bus). unfold next_bus.
  cbn [gw_env bytes_in bytes_out gw_events gw_wire gw_out bus_ready bus_reads bus_write negb].
  assert (discard_stale ((RData <$> junk) ++ RTimeout :: reads) = reads) as ->; [|done].
  induction Hj as [|b junk Hb _ IH]; [done|]. destruct b; [done|]. exact IH.
Qed.
Lemma stale_bytes_ignored_witness :
  _transaction 9 [3; 0; 0; 0; 1] busy_gw
  = _transaction 9 [3; 0; 0; 0; 1]
      (mkGw 0 0 [] [] [] (mkBus true None [RTimeout; RData slave_reply; RTimeout] :: tail (gw_env busy_gw))).
Proof.
  apply (stale_bytes_ignored 9 [3; 0; 0; 0; 1] [[1; 2]] None [RData slave_reply; RTimeout] busy_gw).
  - apply Forall_cons. split; [done|by apply Forall_nil].
  - reflexivity.
Defined.

(** ** Points *)
Lemma sends_refl s : sends [] s s.
Proof. split_and!; [by rewrite app_nil_r|done..]. Qed.
Lemma sends_trans l k s1 s2 s3 : sends l s1 s2 → sends k s2 s3 → sends (l ++ k) s1 s3.
Proof.
  intros (H1 & H2 & H3) (H4 & H5 & H6). split_and!; [by rewrite H4, H1, app_assoc|congruence|auto].
Qed.
Definition sends_at_most (n : nat) (s s' : gw) : Prop := ∃ l, (length l <= n)%nat ∧ sends l s s'.

Lemma on_wire_once b unit pdu : (length (on_wire b unit pdu) <= 1)%nat.
Proof. unfold on_wire. destruct (bus_ready b); simpl; lia. Qed.
Lemma transaction_at_most unit pdu s :
  env_ok s → ∃ r s', _transaction unit pdu s = (Ok r, s') ∧ sends_at_most 1 s s'.
Proof.
  intros (r & s' & E & _ & H & _)%(transaction_spec unit pdu). exists r, s'. split; [done|]. eexists. split; [|exact H]. apply on_wire_once.
Qed.

Lemma read_point_at_most p s :
  env_ok s → ∃ r s', _read_point p s = (r, s') ∧ sends_at_most 1 s s'.
Proof.
  intros Henv. unfold _read_point.
  assert (∀ e : exn, ∃ (r : res pubval) s', (Raise e, s) = (r, s') ∧ sends_at_most 1 s s') as Hraise.
  { intros e. eexists _, _. split; [done|]. exists []. split; [simpl; lia|apply sends_refl]. }
  destruct (_ || _); rewrite st_bind_eq; unfold st_lift.
  - destruct (read_bits_pdu _ _ _) as [pdu|e]; [|apply Hraise].
    destruct (transaction_at_most (p_unit p) pdu s Henv) as (r & s' & E & H).
    rewrite st_bind_eq, E. eexists _, _. by split.
  - destruct (dtype_registers _) as [n|e]; [|apply Hraise].
    destruct (transaction_at_most (p_unit p) (read_pdu (p_fn p) (p_address p) n) s Henv)
      as (r & s' & E & H).
    rewrite st_bind_eq, E. eexists _, _. by split.
Qed.

Lemma failure_not_acknowledged pdu u : check_write_response (no_answer pdu) pdu ≠ Ok u.
Proof.
  unfold check_write_response, no_answer. set (f := nth 0 pdu 0).
  replace (match pdu with b :: _ => b | [] => 0 end) with f by (by destruct pdu).
  destruct (raise_if (_ || _) _ _) as [[]|e] eqn:E; [|done]. cbn [mbind res_bind].
  apply raise_if_Ok in E. zbool.
  match goal with H : existsb _ _ = true |- _ => apply existsb_exists in H as (x & Hx & Hfx) end.
  apply Z.eqb_eq in Hfx. rewrite <- Hfx in Hx. clearbody f.
  by destruct Hx as [<-|[<-|[<-|[<-|[]]]]].
Qed.

(** C19: writing a point. A refused write (point not writable, value outside the type, bad coil
    state) puts nothing on the bus and changes nothing. A write that reports success put exactly
    the request for that value on an open line, first and once, and what was heard there after it is a frame of the addressed unit
    with a good CRC that acknowledges that request; after it at most one further request (the read-back) went out. And it reports
    success whenever the unit acknowledges it. *)
Theorem write_point_safe point value s :
  env_ok s →
  let b := hd closed_bus (gw_env s) in
  match write_point point value s with
  | (Ok _, s') =>
      p_writable point = true ∧
      ∃ pdu ack data readback,
        write_pdu point value = Ok pdu ∧ heard b data ∧
        rtu_unwrap data = Ok (p_unit point, ack) ∧ check_write_response ack pdu = Ok tt ∧
        (length readback <= 1)%nat ∧
        gw_wire s' = gw_wire s ++ rtu_wrap (p_unit point) pdu :: readback
  | (Raise _, s') =>
      (p_writable point = false ∨ is_ok (write_pdu point value) = false → s' = s) ∧
      (∃ l, (length l <= 1)%nat ∧ gw_wire s' = gw_wire s ++ l) ∧
      ∀ pdu data ack, p_writable point = true → write_pdu point value = Ok pdu → heard b data →
        rtu_unwrap data = Ok (p_unit point, ack) → check_write_response ack pdu ≠ Ok tt
  end.
Proof.
  intros Henv. cbn zeta. unfold write_point. destruct (p_writable point); cbn [negb].
  2:{ cbn. split; [done|]. split; [|done]. exists []. split; [simpl; lia|by rewrite app_nil_r]. }
  rewrite st_bind_eq. unfold st_lift at 1. destruct (write_pdu point value) as [pdu|e].
  2:{ split; [done|]. split; [|done]. exists []. split; [simpl; lia|by rewrite app_nil_r]. }
  destruct (transaction_spec (p_unit point) pdu s Henv) as (r & s1 & E & Hr & (Hw & Ho & He) & _).
  rewrite st_bind_eq, E, st_bind_eq. unfold st_lift.
  destruct (check_write_response r pdu) as [[]|e] eqn:Ec.
  2:{ split; [by intros [|]|]. split; [eexists; split; [|exact Hw]; apply on_wire_once|].
      intros pdu' data ack _ [= <-] Hd Hu. destruct Hr as [(data' & Hd' & Hu')|[_ Hno]]; [|by apply Hno in Hu].
      apply heard_spec in Hd as (_ & _ & Hd), Hd' as (_ & _ & Hd'). congruence. }
  destruct Hr as [(data & Hd & Hu)|[-> _]]; [|by apply failure_not_acknowledged in Ec].
  destruct (read_point_at_most point s1 (He Henv)) as (rv & s2 & E2 & l & Hl & Hw2 & _).
  assert (∃ s3, st_catch any_exn (v ← _read_point point; _publish_values [(p_name point, v)])
            (λ _, mret tt) s1 = (Ok tt, s3) ∧ gw_wire s3 = gw_wire s2) as (s3 & -> & Hw3).
  { unfold st_catch. rewrite st_bind_eq, E2. destruct rv as [v|e]; cbn; by eexists. }
  split; [done|]. exists pdu, r, data, l. split_and!; [done..|].
  rewrite Hw3, Hw2, Hw. unfold on_wire. destruct Hd as [-> _]. by rewrite <- app_assoc.
Qed.

Definition coil_point : ModbusPoint := mkPoint (str "pump") 9 1 4 (str "bool") (NInt 1) true.
(** The unit echoes the write of the coil; then the read-back is answered. *)
Definition coil_gw : gw :=
  mkGw 0 0 [] [] []
    [mkBus true None [RTimeout; RData (rtu_wrap 9 [5; 0; 4; 255; 0]); RTimeout];
     mkBus true None [RTimeout; RData (rtu_wrap 9 [1; 1; 1]); RTimeout]].
Lemma write_point_safe_witness :
  (let '(r, s') := write_point coil_point (VBool true) coil_gw in
   r = Ok tt ∧ ∃ pdu ack data readback,
     write_pdu coil_point (VBool true) = Ok pdu ∧ heard (hd closed_bus (gw_env coil_gw)) data
     ∧ rtu_unwrap data = Ok (9, ack) ∧ check_write_response ack pdu = Ok tt ∧ (length readback <= 1)%nat
     ∧ gw_wire s' = rtu_wrap 9 pdu :: readback)
  ∧ (write_point coil_point (VInt 2) busy_gw).2 = busy_gw.
Proof.
  assert (env_ok coil_gw) as H1 by (apply (bool_decide_unpack _); vm_compute; exact I).
  assert (env_ok busy_gw) as H2 by (apply (bool_decide_unpack _); vm_compute; exact I).
  split.
  - pose proof (write_point_safe coil_point (VBool true) coil_gw H1) as Hw. cbn zeta in Hw.
    destruct (write_point coil_point (VBool true) coil_gw) as [r s'] eqn:E.
    assert (r = Ok tt) as -> by (transitivity (write_point coil_point (VBool true) coil_gw).1; [by rewrite E|vm_compute; reflexivity]).
    split; [done|exact (proj2 Hw)].
  - pose proof (write_point_safe coil_point (VInt 2) busy_gw H2) as Hw. cbn zeta in Hw.
    destruct (write_point coil_point (VInt 2) busy_gw) as [[u|e] s'] eqn:E.
    + exfalso. destruct Hw as (_ & pdu & ack & data & rb & Hp & _). vm_compute in Hp. discriminate Hp.
    + apply Hw. right. vm_compute. reflexivity.
Defined.

(** ** Admission *)
Inductive net_event := Connect (peer_ip : pystr) (m : master) | Disconnect (m : master).
Definition listener_step (e : net_event) (l : listener) : listener :=
  match e with
  | Connect ip m => (on_connect ip m l).2
  | Disconnect m => on_disconnect m l
  end.

(** Rule induction over what the listener can go through. *)
Inductive reachable (max : Z) (nets : list net) : listener → Prop :=
  | reach_start : reachable max nets (mkListener max nets [] 0 [])
  | reach_step l e : reachable max nets l → reachable max nets (listener_step e l).


(** at every moment at most [max_connections] masters are connected, every one of them was
    let in by the allow list, and the status shows exactly the connected masters. *)
Theorem gateway_admission max nets l :
  0 <= max → reachable max nets l →
  zlen (clients l) <= max ∧ client_count l = zlen (clients l) ∧ client_list l ≡ₚ clients l ∧
  (∀ ip m, (on_connect ip m l).1 = Admitted_ → nets = [] ∨ _ip_in_nets ip nets = true).
Proof.
  intros Hmax Hr.
  assert (max_connections l = max ∧ allowed l = nets ∧ zlen (clients l) <= max ∧
          client_count l = zlen (clients l) ∧ client_list l ≡ₚ clients l)
    as (Hm & Hn & Hlen & Hc & Hp).
  { induction Hr as [|l e _ (Hm & Hn & Hlen & Hc & Hp)]; [by split_and!|].
    destruct e as [ip m|m]; cbn [listener_step].
    - unfold on_connect. destruct (_ && _); [done|].
      destruct (Z.leb_spec (max_connections l) (zlen (clients l))); [done|]. cbn.
      split_and!; [done..| |done|apply sort_by_perm]. zlen.
    - unfold on_disconnect, _refresh_clients. cbn. split_and!; [done..| |done|apply sort_by_perm].
      etransitivity; [|exact Hlen]. unfold zlen. apply inj_le, length_filter. }
  split_and!; [done..|]. intros ip m. unfold on_connect. rewrite Hn.
  destruct nets as [|n nets]; [by left|]. cbn [andb].
  destruct (_ip_in_nets ip (n :: nets)); [by right|done].
Qed.
Lemma gateway_admission_witness :
  let l := (on_connect (str "10.0.0.2") (mkMaster 1 (str "10.0.0.2:5") 7)
              (mkListener 1 (_parse_nets [str "10.0.0.0/24"]) [] 0 [])).2 in
  zlen (clients l) <= 1 ∧ client_count l = zlen (clients l) ∧ client_list l ≡ₚ clients l ∧
  (∀ ip m, (on_connect ip m l).1 = Admitted_ →
     _parse_nets [str "10.0.0.0/24"] = [] ∨ _ip_in_nets ip (_parse_nets [str "10.0.0.0/24"]) = true).
Proof.
  apply (gateway_admission 1 (_parse_nets [str "10.0.0.0/24"])); [lia|].
  apply (reach_step _ _ _ (Connect (str "10.0.0.2") (mkMaster 1 (str "10.0.0.2:5") 7))).
  apply reach_start.
Defined.

(** A hexadecimal literal whose digits include E is refused: the text is taken for a float. *)
Example write_payload_hex_e :
  parse_write_payload (str "0x1E") 3 = raise ValueError "not a number: {text!r}" ∧
  parse_write_payload (str "0x1F") 3 = Ok (VInt 31).
Proof. split; vm_compute; reflexivity. Qed.
