(* ===== verification/Mqtt.v ===== *)
(** * MQTT publisher (app/engine/mqtt_pub.py)

    The publisher's state and its calls of the paho client, as a log of [client_call]s (the code
    suppresses the client's exceptions). The will of a session is an argument: a callable [will]
    belongs to the owner (SparkplugNode). *)
From S2P Require Import Prelude PyFloat PyStr PyVal.
#[local] Open Scope Z_scope.

Definition MAX_LINE_BUFFER : Z := 65536.

Record message := mkMsg { topic : pystr; payload : bytes; qos : Z; retain : bool }.
Inductive client_call :=
  | CPublish (m : message)
  | CWill (m : message)
  | CSubscribe (topic : pystr) (qos : Z)
  | CConnect
  | CDisconnect.

(** [_client] is [client] (present or not); [_subs] is the list of subscribed filters. *)
Record publisher := mkPublisher {
  s_qos : Z;
  data_topic : pystr;
  status_topic : pystr;
  birth : bool;
  subs : list pystr;
  buf : bytes;
  connected : bool;
  client : bool;
  calls : list client_call;
}.

Definition MqttPublisher (base_topic : pystr) (q : Z) (birth : bool) (subs : list pystr)
    : publisher :=
  let base := rstrip_by (Z.eqb 47) base_topic in
  mkPublisher q base (base ++ str "/status") birth subs [] false false [].

Definition set_calls (cs : list client_call) (p : publisher) : publisher :=
  mkPublisher (s_qos p) (data_topic p) (status_topic p) (birth p) (subs p) (buf p) (connected p)
    (client p) cs.
Definition set_buf (b : bytes) (p : publisher) : publisher :=
  mkPublisher (s_qos p) (data_topic p) (status_topic p) (birth p) (subs p) b (connected p)
    (client p) (calls p).
Definition set_link (conn cl : bool) (p : publisher) : publisher :=
  mkPublisher (s_qos p) (data_topic p) (status_topic p) (birth p) (subs p) (buf p) conn cl (calls p).
Definition call (c : client_call) (p : publisher) : publisher := set_calls (calls p ++ [c]) p.

Definition _publish (t : pystr) (b : bytes) (ret : bool) (q : option Z) (p : publisher)
    : publisher :=
  if negb (client p) then p else call (CPublish (mkMsg t b (default (s_qos p) q) ret)) p.

Definition publish_raw (t : pystr) (b : bytes) (q : option Z) (ret : bool) (p : publisher)
    : publisher :=
  if connected p then _publish t b ret q p else p.

Definition _set_will (will : option message) (p : publisher) : publisher :=
  call (CWill (match will with
               | Some w => w
               | None => mkMsg (status_topic p) (str "offline") (s_qos p) true
               end)) p.

(** [paho] tells whether the optional library is installed. *)
Definition connect (paho : bool) (will : option message) (p : publisher) : bool * publisher :=
  if negb (client p) && negb paho then (false, p)
  else
    let owned := negb (client p) in
    let p := set_link (connected p) true p in
    let p := _set_will will p in
    let p := if owned then call CConnect p else p in
    let p := set_link true true p in
    (true, if birth p then _publish (status_topic p) (str "online") true None p else p).

Definition _paho_on_disconnect (callable : bool) (will : option message) (p : publisher)
    : publisher :=
  if callable then _set_will will p else p.

(** [handle_connect] up to the owner's callback. *)
Definition handle_connect (p : publisher) : publisher :=
  if negb (client p) then p
  else foldl (λ p t, call (CSubscribe t 1) p) p (subs p).

Definition publish_value (subtopic : pystr) (b : bytes) (p : publisher) : publisher :=
  if negb (connected p) then p
  else _publish (data_topic p ++ str "/" ++ subtopic) b false None p.

(** [while True: nl = self._buf.find(b"\n"); ...] *)
Fixpoint feed_loop (fuel : nat) (p : publisher) : publisher :=
  match fuel with
  | O => p
  | S fuel' =>
      match split_first 10 (buf p) with
      | None => p
      | Some (raw, rest) =>
          let line := rstrip_by (Z.eqb 13) raw in
          let p := set_buf rest p in
          feed_loop fuel' (match line with
                           | [] => p
                           | _ => _publish (data_topic p) line false None p
                           end)
      end
  end.
Definition feed (data : bytes) (p : publisher) : publisher :=
  if negb (connected p) || negb (client p) then p
  else
    let p := set_buf (buf p ++ data) p in
    let p := feed_loop (S (length (buf p))) p in
    if MAX_LINE_BUFFER <? zlen (buf p) then set_buf (last_n 4096 (buf p)) p else p.

Definition close (final : option message) (p : publisher) : publisher :=
  if negb (client p) then p
  else
    let p := set_link false true p in
    let p := match final with
             | Some m => _publish (topic m) (payload m) (retain m) (Some (qos m)) p
             | None =>
                 if birth p then _publish (status_topic p) (str "offline") true None p else p
             end in
    set_link false false (call CDisconnect p).

(** ** Topic filters *)
(** [for i, part in enumerate(p): ...] followed by the length test. *)
Fixpoint match_parts (i : nat) (ps ts : list pystr) : bool :=
  match ps with
  | [] => (i =? length ts)%nat
  | part :: ps' =>
      if str_eqb part (str "#") then true
      else match ts !! i with
           | None => false
           | Some t => if negb (str_eqb part (str "+")) && negb (str_eqb part t) then false
                       else match_parts (S i) ps' ts
           end
  end.
Definition _matches (pattern t : pystr) : bool := match_parts 0 (split_on 47 pattern) (split_on 47 t).

(** The subscription that handles a message: the exact topic, else the first filter matching. *)
Definition handle_message (t : pystr) (p : publisher) : option pystr :=
  match List.find (str_eqb t) (subs p) with
  | Some s => Some s
  | None => List.find (λ s, _matches s t) (subs p)
  end.

(** ** Lines *)
(** The complete lines of a byte stream and its unfinished last line. *)
Definition lines_of (data : bytes) : list bytes :=
  filter (λ l, l ≠ []) (rstrip_by (Z.eqb 13) <$> removelast (split_on 10 data)).
Definition rest_of (data : bytes) : bytes := List.last (split_on 10 data) [].

Lemma split_on_nonnil c s : split_on c s ≠ [].
Proof. destruct s as [|x s]; simpl; [done|]. destruct (x =? c); [done|]. by destruct (split_on c s). Qed.

Lemma split_first_split c s :
  split_on c s = match split_first c s with Some (a, b) => a :: split_on c b | None => [s] end.
Proof.
  induction s as [|x s IH]; [done|]. simpl. destruct (x =? c); [done|]. rewrite IH.
  by destruct (split_first c s) as [[a b]|].
Qed.
Lemma split_first_length c s a b : split_first c s = Some (a, b) → (length b < length s)%nat.
Proof.
  revert a. induction s as [|x s IH]; intros a; simpl; [done|]. destruct (x =? c); [intros [= _ <-]; lia|].
  destruct (split_first c s) as [[a' b']|]; [|done]. intros [= _ <-]. specialize (IH a' eq_refl). lia.
Qed.
Lemma split_on_app_rest c s x :
  split_on c (s ++ x) = removelast (split_on c s) ++ split_on c (List.last (split_on c s) [] ++ x).
Proof.
  induction s as [|y s IH]; [done|]. simpl. pose proof (split_on_nonnil c s) as Hs.
  destruct (split_on c s) as [|w ws]; [done|]. destruct (y =? c) eqn:E.
  - rewrite IH. by destruct ws.
  - rewrite IH. destruct ws as [|w' ws].
    + simpl. rewrite E. pose proof (split_on_nonnil c (w ++ x)). by destruct (split_on c (w ++ x)).
    + done.
Qed.

(** Publications of lines, in a log of client calls. *)
Definition published (cs : list client_call) : list bytes :=
  omap (λ c, match c with CPublish m => Some (payload m) | _ => None end) cs.

Lemma published_app l k : published (l ++ k) = published l ++ published k.
Proof. apply omap_app. Qed.

(** Everything of a publisher but its buffer and its log. *)
Definition same_link (p q : publisher) : Prop :=
  s_qos q = s_qos p ∧ data_topic q = data_topic p ∧ connected q = connected p ∧ client q = client p.

Lemma feed_loop_lines fuel p :
  client p = true → (length (buf p) < fuel)%nat →
  buf (feed_loop fuel p) = rest_of (buf p) ∧ same_link p (feed_loop fuel p) ∧
  published (calls (feed_loop fuel p)) = published (calls p) ++ lines_of (buf p).
Proof.
  revert p. induction fuel as [|fuel IH]; intros p Hc Hf; [lia|]. cbn [feed_loop].
  unfold rest_of, lines_of. rewrite (split_first_split 10 (buf p)).
  destruct (split_first 10 (buf p)) as [[raw rest]|] eqn:E.
  2:{ cbn. split_and!; [done..|by rewrite app_nil_r]. }
  pose proof (split_first_length _ _ _ _ E) as Hlt.
  set (line := rstrip_by (Z.eqb 13) raw).
  set (p1 := match line with [] => _ | _ => _ end).
  assert (client p1 = true ∧ buf p1 = rest ∧ same_link p p1 ∧
    published (calls p1) = published (calls p) ++ filter (λ l, l ≠ []) [line]) as (H1 & H2 & H3 & H4).
  { unfold p1. destruct line as [|z line]; [by rewrite app_nil_r|].
    unfold _publish. cbn [client set_buf]. rewrite Hc. cbn. split_and!; [done..|]. by rewrite published_app. }
  destruct (IH p1 H1) as (I1 & I2 & I3); [rewrite H2; lia|]. split_and!.
  - rewrite I1, H2. unfold rest_of. pose proof (split_on_nonnil 10 rest). by destruct (split_on 10 rest).
  - unfold same_link in *. intuition congruence.
  - rewrite I3, H4, H2, <- app_assoc. f_equal. unfold lines_of.
    pose proof (split_on_nonnil 10 rest). destruct (split_on 10 rest) as [|w ws]; [done|].
    change (removelast (raw :: w :: ws)) with (raw :: removelast (w :: ws)).
    rewrite fmap_cons. fold line. by rewrite <- filter_app.
Qed.

Lemma split_on_parts c s : Forall (Forall (λ x, x ≠ c)) (split_on c s).
Proof.
  induction s as [|x s IH]; simpl; [by repeat constructor|].
  destruct (Z.eqb_spec x c); [by constructor|].
  destruct (split_on c s) as [|w ws]; [by repeat constructor|].
  apply Forall_cons in IH as [Hw Hws]. constructor; [by constructor|done].
Qed.
Lemma rest_no_newline data : Forall (λ x, x ≠ 10) (rest_of data).
Proof.
  unfold rest_of. pose proof (split_on_parts 10 data) as H. pose proof (split_on_nonnil 10 data).
  destruct (split_on 10 data) as [|w ws] using rev_ind; [done|]. rewrite last_last.
  apply Forall_app in H as [_ H]. by apply Forall_cons in H as [? _].
Qed.
Lemma removelast_app_nonnil {A} (l k : list A) : k ≠ [] → removelast (l ++ k) = l ++ removelast k.
Proof. intros. by apply removelast_app. Qed.

Lemma lines_of_app data x :
  lines_of (data ++ x) = lines_of data ++ lines_of (rest_of data ++ x) ∧
  rest_of (data ++ x) = rest_of (rest_of data ++ x).
Proof.
  unfold lines_of, rest_of. rewrite (split_on_app_rest 10 data x).
  set (k := split_on 10 (List.last _ _ ++ x)). assert (k ≠ []) as Hk by apply split_on_nonnil. split.
  - by rewrite removelast_app_nonnil, fmap_app, filter_app.
  - destruct k as [|w ws _] using rev_ind; [done|]. by rewrite app_assoc, !last_last.
Qed.

(** A bound on every line of the stream bounds the unfinished line at every point. *)
Definition short_lines (data : bytes) : Prop :=
  Forall (λ l, zlen l <= MAX_LINE_BUFFER) (split_on 10 data).
Lemma short_lines_rest data x :
  short_lines (data ++ x) → zlen (rest_of data) <= MAX_LINE_BUFFER ∧ short_lines (rest_of data ++ x).
Proof.
  unfold short_lines. rewrite split_on_app_rest. fold (rest_of data). intros [_ H]%Forall_app.
  split; [|done]. pose proof (rest_no_newline data) as Hr. revert H Hr. generalize (rest_of data).
  intros r H Hr. assert (∃ t ws, split_on 10 (r ++ x) = (r ++ t) :: ws) as (t & ws & E).
  { clear H. induction Hr as [|y r Hy _ IH]; simpl.
    - pose proof (split_on_nonnil 10 x). destruct (split_on 10 x) as [|w ws]; [done|by exists w, ws].
    - destruct IH as (t & ws & ->). rewrite (proj2 (Z.eqb_neq y 10)) by done. by exists t, ws. }
  rewrite E in H. apply Forall_cons in H as [H _]. zlen.
Qed.

Definition feed_all (chunks : list bytes) (p : publisher) : publisher :=
  foldl (λ p c, feed c p) p chunks.

Lemma feed_step c p :
  client p = true → connected p = true → zlen (rest_of (buf p ++ c)) <= MAX_LINE_BUFFER →
  buf (feed c p) = rest_of (buf p ++ c) ∧ same_link p (feed c p) ∧
  published (calls (feed c p)) = published (calls p) ++ lines_of (buf p ++ c).
Proof.
  intros Hcl Hco Hlen. unfold feed. rewrite Hcl, Hco. cbn [negb orb].
  destruct (feed_loop_lines (S (length (buf (set_buf (buf p ++ c) p)))) (set_buf (buf p ++ c) p))
    as (Hb & Hl & Hp); [done|lia|].
  cbn [buf set_buf] in *. rewrite Hb. rewrite (proj2 (Z.ltb_ge _ _)) by done. by split_and!.
Qed.

Lemma feed_all_lines chunks pre p :
  client p = true → connected p = true → buf p = rest_of pre →
  short_lines (pre ++ concat chunks) →
  published (calls (feed_all chunks p)) = published (calls p) ++ lines_of (buf p ++ concat chunks) ∧
  buf (feed_all chunks p) = rest_of (pre ++ concat chunks).
Proof.
  revert pre p. induction chunks as [|c chunks IH]; intros pre p Hcl Hco Hb Hs; cbn [concat] in *.
  { rewrite !app_nil_r in *. split; [|done].
    assert (lines_of (buf p) = []) as ->; [|by rewrite app_nil_r].
    unfold lines_of. by rewrite Hb, split_on_none by apply rest_no_newline. }
  change (feed_all (c :: chunks) p) with (feed_all chunks (feed c p)).
  pose proof (proj2 (short_lines_rest _ _ Hs)) as Hs'. rewrite <- Hb in Hs'.
  rewrite app_assoc in Hs'. pose proof (proj1 (short_lines_rest _ _ Hs')) as Hlen.
  destruct (feed_step c p Hcl Hco Hlen) as (Eb & (_ & _ & E1 & E2) & Ep).
  rewrite Hb in Eb. rewrite <- (proj2 (lines_of_app pre c)) in Eb.
  rewrite app_assoc in Hs. destruct (IH (pre ++ c) (feed c p)) as [I1 I2]; [congruence..|done|].
  rewrite I1, I2, Ep, <- !app_assoc. split; [|done]. f_equal.
  rewrite (app_assoc (buf p)), (proj1 (lines_of_app (buf p ++ c) (concat chunks))).
  by rewrite Eb, Hb, (proj2 (lines_of_app pre c)).
Qed.

(** however serial reads cut the byte stream, the messages published are exactly its lines:
    split at newlines, trailing carriage returns removed, empty lines skipped, in order, none lost
    or merged, as long as no line outgrows the buffer; the unfinished line is what is kept. *)
Theorem feed_publishes_lines chunks p :
  client p = true → connected p = true → buf p = [] → short_lines (concat chunks) →
  published (calls (feed_all chunks p)) = published (calls p) ++ lines_of (concat chunks) ∧
  buf (feed_all chunks p) = rest_of (concat chunks).
Proof.
  intros Hcl Hco Hb Hs. destruct (feed_all_lines chunks [] p Hcl Hco Hb Hs) as [E1 E2].
  by rewrite Hb in E1.
Qed.
Definition online : publisher := (connect true None (MqttPublisher (str "plant/meter/") 0 true [])).2.
Lemma feed_publishes_lines_witness :
  let chunks := [str "a=1" ++ [13]; [10; 10] ++ str "b="; str "2" ++ [10] ++ str "c"] in
  published (calls (feed_all chunks online)) = published (calls online) ++ lines_of (concat chunks) ∧
  buf (feed_all chunks online) = rest_of (concat chunks).
Proof.
  apply feed_publishes_lines; [reflexivity..|].
  unfold short_lines. apply (bool_decide_unpack _). vm_compute. exact I.
Defined.

(** the line buffer never exceeds its cap, whatever arrives. *)
Theorem feed_buffer_bounded chunks p :
  zlen (buf p) <= MAX_LINE_BUFFER → zlen (buf (feed_all chunks p)) <= MAX_LINE_BUFFER.
Proof.
  revert p. induction chunks as [|c chunks IH]; intros p Hp; [done|]. apply IH. unfold feed.
  destruct (_ || _); [done|]. destruct (Z.ltb_spec MAX_LINE_BUFFER (zlen (buf (feed_loop
    (S (length (buf (set_buf (buf p ++ c) p)))) (set_buf (buf p ++ c) p))))); [|done].
  cbn [buf set_buf]. rewrite last_n_length by done. unfold MAX_LINE_BUFFER in *. lia.
Qed.
Lemma feed_buffer_bounded_witness : zlen (buf (feed_all [str "abc"; str "def"] online)) <= MAX_LINE_BUFFER.
Proof. apply feed_buffer_bounded. vm_compute. intros H. discriminate H. Defined.

(** ** Topic filters *)
(** The meaning of a filter, level by level: ["+"] one level, ["#"] all that remain. *)
Inductive filter_match : list pystr → list pystr → Prop :=
  | fm_end : filter_match [] []
  | fm_hash ps ts : filter_match (str "#" :: ps) ts
  | fm_plus t ps ts : filter_match ps ts → filter_match (str "+" :: ps) (t :: ts)
  | fm_level t ps ts : filter_match ps ts → filter_match (t :: ps) (t :: ts).

Lemma match_parts_spec ps pre ts :
  match_parts (length pre) ps (pre ++ ts) = true ↔ filter_match ps ts.
Proof.
  revert pre ts. induction ps as [|p ps IH]; intros pre ts; cbn [match_parts].
  - rewrite Nat.eqb_eq, length_app. split; [|inversion 1; simpl; lia].
    intros H. destruct ts; [constructor|simpl in H; lia].
  - destruct (str_eqb p (str "#")) eqn:Eh.
    { apply str_eqb_eq in Eh as ->. split; [intros _; constructor|done]. }
    assert (p ≠ str "#") as Hh by (intros ->; by rewrite str_eqb_refl in Eh).
    destruct ts as [|t ts].
    { rewrite app_nil_r, lookup_ge_None_2 by lia. split; [done|]. inversion 1; subst; done. }
    rewrite list_lookup_middle by done.
    replace (S (length pre)) with (length (pre ++ [t])) by (rewrite length_app; simpl; lia).
    replace (pre ++ t :: ts) with ((pre ++ [t]) ++ ts) by (by rewrite <- app_assoc).
    destruct (str_eqb p (str "+")) eqn:Ep; cbn [negb andb].
    { apply str_eqb_eq in Ep as ->. rewrite IH. split; [by constructor|].
      inversion 1; subst; done. }
    assert (p ≠ str "+") as Hp by (intros ->; by rewrite str_eqb_refl in Ep).
    destruct (str_eqb p t) eqn:Et; cbn [negb].
    + apply str_eqb_eq in Et as ->. rewrite IH. split; [by constructor|]. inversion 1; subst; done.
    + assert (p ≠ t) as Ht by (intros ->; by rewrite str_eqb_refl in Et).
      split; [done|]. inversion 1; subst; done.
Qed.

(** a filter selects a topic exactly when it matches level by level: ["+"] stands for one
    level, ["#"] for all remaining ones (none included), any other level for itself. *)
Theorem matches_spec pattern t :
  _matches pattern t = true ↔ filter_match (split_on 47 pattern) (split_on 47 t).
Proof. apply (match_parts_spec _ []). Qed.
