(* ===== verification/SparkplugNode.v ===== *)
(** * A Modbus-polling mapping as a Sparkplug B edge node (app/engine/sparkplug_node.py)

    The node's state, its births, reports and commands, and the sessions of its MQTT connection
    (the will renewed at each disconnect). The clock is an argument; publications and scheduled
    bus writes are a log of [node_event]s. *)
From Stdlib Require Import SpecFloat.
From S2P Require Import Prelude PyFloat PyStr PyVal IpAddr PyNum Json Modbus Sparkplug Gateway Mqtt.
#[local] Open Scope Z_scope.

Definition UINT64 : Z := DataType.UInt64.
Definition BOOLEAN : Z := DataType.Boolean.

Definition device_id (unit : Z) : pystr := str "unit" ++ str_of_Z unit.

(** A publication keeps the message kind and the payload it encodes. *)
Inductive node_event :=
  | NPub (kind : pystr) (topic : pystr) (p : Payload) (encoded : bytes)
  | NWrite (point : ModbusPoint) (value : pyval).

Record node := mkNode {
  group : pystr;
  node_id : pystr;
  points : list (pystr * ModbusPoint);
  devices : list (pystr * list pystr);
  values : list (pystr * pubval);
  bdseq : Z;
  seq : Z;
  sessions : Z;
  has_pub : bool;
  out : list node_event;
}.

Definition set_values v n := mkNode (group n) (node_id n) (points n) (devices n) v (bdseq n) (seq n)
  (sessions n) (has_pub n) (out n).
Definition set_bdseq b n := mkNode (group n) (node_id n) (points n) (devices n) (values n) b (seq n)
  (sessions n) (has_pub n) (out n).
Definition set_seq q n := mkNode (group n) (node_id n) (points n) (devices n) (values n) (bdseq n) q
  (sessions n) (has_pub n) (out n).
Definition set_sessions k n := mkNode (group n) (node_id n) (points n) (devices n) (values n)
  (bdseq n) (seq n) k (has_pub n) (out n).
Definition set_pub b n := mkNode (group n) (node_id n) (points n) (devices n) (values n) (bdseq n)
  (seq n) (sessions n) b (out n).
Definition add_event e n := mkNode (group n) (node_id n) (points n) (devices n) (values n) (bdseq n)
  (seq n) (sessions n) (has_pub n) (out n ++ [e]).

(** [self.devices.setdefault(dev, []).append(name)] *)
Fixpoint add_point (dev name : pystr) (ds : list (pystr * list pystr)) : list (pystr * list pystr) :=
  match ds with
  | [] => [(dev, [name])]
  | (d, ns) :: ds' =>
      if str_eqb dev d then (d, ns ++ [name]) :: ds' else (d, ns) :: add_point dev name ds'
  end.

Definition or_default (s d : pystr) : pystr := match s with [] => d | _ => s end.

Definition SparkplugNode (group_id sp_node_id name : pystr) (pts : list ModbusPoint) : node :=
  mkNode (or_default (strip group_id) (str "ser2net"))
    (or_default (strip sp_node_id) (sanitize_id name))
    (dict_update ((λ p, (p_name p, p)) <$> pts) [])
    (foldl (λ ds p, add_point (device_id (p_unit p)) (p_name p) ds) [] pts)
    [] 0 0 0 false [].

Definition node_topic (kind : pystr) (device : option pystr) (n : node) : res pystr :=
  Sparkplug.topic (group n) kind (node_id n) device.

Definition bdseq_metric (n : node) : Metric := mkMetric BDSEQ UINT64 (VInt (bdseq n)) None None false.
Definition ndeath_payload (now : Z) (n : node) : Payload :=
  mkPayload (Some now) [bdseq_metric n] None None None.
(** [_ndeath()]: topic, payload, QoS 1, not retained; with the payload it encodes. *)
Definition _ndeath (now : Z) (n : node) : res (Payload * message) :=
  t ← node_topic (str "NDEATH") None n;
  b ← encode_payload (ndeath_payload now n) true;
  Ok (ndeath_payload now n, mkMsg t b 1 false).

Definition _will (now : Z) : st node (Payload * message) :=
  n ← st_get;
  (if negb (sessions n =? 0) then st_modify (set_bdseq ((bdseq n + 1) mod 256)) else mret tt);;
  n ← st_get;
  st_modify (set_sessions (sessions n + 1));;
  n ← st_get;
  st_lift (_ndeath now n).

(** [publisher()]: from now on the node publishes; the filters it subscribes to. *)
Definition publisher : st node (pystr * pystr) :=
  n ← st_get;
  ncmd ← st_lift (node_topic (str "NCMD") None n);
  st_modify (set_pub true);;
  mret (ncmd, join (str "/") [TOPIC_NAMESPACE; group n; str "DCMD"; node_id n; str "+"]).

Definition num_of_pub (v : pubval) : num :=
  match v with PubBool b => NInt (Z.b2z b) | PubNum n => n end.
Definition val_of_pub (v : pubval) : pyval :=
  match v with PubBool b => VBool b | PubNum n => val_of_num n end.

Definition _metric (now : Z) (name : pystr) (value : option pubval) (n : node) : res Metric :=
  match assoc name (points n) with
  | None => raise KeyError "name"
  | Some p =>
      dt ← datatype_for (p_dtype p) (if num_truthy (p_scale p) then p_scale p else NFloat f1);
      match value with
      | None => Ok (mkMetric name dt VNone None (Some now) true)
      | Some v =>
          v ← (if (dt =? DataType.Float) || (dt =? DataType.Double)
               then VFloat <$> to_float (num_of_pub v) else Ok (val_of_pub v));
          Ok (mkMetric name dt v None (Some now) false)
      end
  end.

Definition _publish (now : Z) (kind : pystr) (device : option pystr) (metrics : list Metric)
    : st node unit :=
  n ← st_get;
  t ← st_lift (node_topic kind device n);
  if negb (has_pub n) then mret tt
  else
    let p := mkPayload (Some now) metrics (Some (seq n)) None None in
    b ← st_lift (encode_payload p true);
    st_modify (add_event (NPub kind t p b)).

Definition rebirth_metric : Metric := mkMetric REBIRTH BOOLEAN (VBool false) None None false.

Fixpoint birth_devices (now : Z) (ds : list (pystr * list pystr)) : st node unit :=
  match ds with
  | [] => mret tt
  | (dev, names) :: ds' =>
      st_modify (λ n, set_seq (next_seq (seq n)) n);;
      n ← st_get;
      ms ← st_lift (mapr (λ name, _metric now name (assoc name (values n)) n) names);
      _publish now (str "DBIRTH") (Some dev) ms;;
      birth_devices now ds'
  end.
Definition birth (now : Z) : st node unit :=
  st_modify (set_seq 0);;
  n ← st_get;
  _publish now (str "NBIRTH") None [bdseq_metric n; rebirth_metric];;
  birth_devices now (devices n).

(** Python's [==] between two polled values. *)
Definition pub_eq (a b : pubval) : bool :=
  match num_of_pub a, num_of_pub b with
  | NInt x, NInt y => x =? y
  | NFloat x, NFloat y => feqb x y
  | NFloat x, NInt y | NInt y, NFloat x =>
      match fcompare_Z x y with Some Eq => true | _ => false end
  end.
Definition is_changed (n : node) (name : pystr) (v : pubval) : bool :=
  match assoc name (points n) with
  | None => false
  | Some _ => match assoc name (values n) with Some old => negb (pub_eq old v) | None => true end
  end.

Fixpoint report_devices (now : Z) (changed : list pystr) (ds : list (pystr * list pystr))
    : st node unit :=
  match ds with
  | [] => mret tt
  | (dev, names) :: ds' =>
      n ← st_get;
      let sel := List.filter (λ name, existsb (str_eqb name) changed) names in
      ms ← st_lift (mapr (λ name, _metric now name (assoc name (values n)) n) sel);
      (match ms with
       | [] => mret tt
       | _ =>
           st_modify (λ n, set_seq (next_seq (seq n)) n);;
           _publish now (str "DDATA") (Some dev) ms
       end);;
      report_devices now changed ds'
  end.
Definition update (now : Z) (vals : list (pystr * pubval)) : st node unit :=
  n ← st_get;
  let changed := List.filter (λ '(name, v), is_changed n name v) vals in
  st_modify (set_values (dict_update changed (values n)));;
  report_devices now changed.*1 (devices n).

Fixpoint node_commands (now : Z) (ms : list Metric) : st node unit :=
  match ms with
  | [] => mret tt
  | m :: ms' =>
      (if negb (str_eqb (m_name m) REBIRTH) then mret tt
       else if truthy (m_value m) then birth now else mret tt);;
      node_commands now ms'
  end.
Definition on_node_command (now : Z) (payload : bytes) : st node unit :=
  match decode_payload payload with
  | Raise (Exn ValueError _) => mret tt
  | Raise e => st_lift (Raise e)
  | Ok cmd => node_commands now (p_metrics cmd)
  end.

(** The value a command writes: an untyped wire integer is read as the point's signed type. *)
Definition command_value (m : Metric) (point : ModbusPoint) : pyval :=
  match m_value m with
  | VInt v =>
      if (m_datatype m =? 0)
         && existsb (str_eqb (p_dtype point)) [str "int16"; str "int32"]
         && (2147483647 <? v)
      then VInt (v - Z.shiftl 1 32) else VInt v
  | v => v
  end.
Definition last_level (t : pystr) : pystr :=
  match split_last 47 t with Some (_, l) => l | None => t end.

Definition command_write (names : list pystr) (n : node) (m : Metric) : option node_event :=
  match (if existsb (str_eqb (m_name m)) names then assoc (m_name m) (points n) else None) with
  | None => None
  | Some point =>
      if negb (p_writable point) then None
      else if m_is_null m then None
      else Some (NWrite point (command_value m point))
  end.
Definition on_device_command (t : pystr) (payload : bytes) : st node unit :=
  n ← st_get;
  match assoc (last_level t) (devices n) with
  | None => mret tt
  | Some names =>
      match decode_payload payload with
      | Raise (Exn ValueError _) => mret tt
      | Raise e => st_lift (Raise e)
      | Ok cmd =>
          st_modify (λ n, foldl (λ n e, add_event e n) n (omap (command_write names n) (p_metrics cmd)))
      end
  end.

(** [close()]: the final NDEATH handed to the publisher. *)
Definition close (now : Z) : st node (option message) :=
  n ← st_get;
  if negb (has_pub n) then mret None
  else
    '(_, m) ← st_lift (_ndeath now n);
    st_modify (set_pub false);;
    mret (Some m).

(** ** Sessions of the MQTT connection
    The publisher asks for the will before connecting and after every disconnect; births run on
    the event loop, so one may run after the connection it was meant for has gone. *)
Inductive op :=
  | Disconnected_
  | Birth
  | Report (vals : list (pystr * pubval))
  | NodeCommand (payload : bytes)
  | DeviceCommand (t : pystr) (payload : bytes).

Record session := mkSession { nd : node; will : Payload }.

Definition on_node (m : st node unit) (s : session) : option session :=
  match m (nd s) with (Ok _, n) => Some (mkSession n (will s)) | (Raise _, _) => None end.
(** One step that raises no exception ([None] otherwise). *)
Definition step (now : Z) (o : op) (s : session) : option session :=
  match o with
  | Disconnected_ =>
      match _will now (nd s) with
      | (Ok (p, _), n) => Some (mkSession n p)
      | (Raise _, _) => None
      end
  | Birth => on_node (birth now) s
  | Report vals => on_node (update now vals) s
  | NodeCommand b => on_node (on_node_command now b) s
  | DeviceCommand t b => on_node (on_device_command t b) s
  end.
Definition start (now : Z) (n : node) : option session :=
  match publisher n with
  | (Ok _, n) => match _will now n with
                 | (Ok (p, _), n) => Some (mkSession n p)
                 | (Raise _, _) => None
                 end
  | (Raise _, _) => None
  end.
Inductive reachable (n0 : node) : session → Prop :=
  | reach_start now s : start now n0 = Some s → reachable n0 s
  | reach_step now o s s' : reachable n0 s → step now o s = Some s' → reachable n0 s'.

(** ** Sequence numbers *)
Definition pub_seq (e : node_event) : option (bool * Z) :=
  match e with
  | NPub kind _ p _ => (λ s, (str_eqb kind (str "NBIRTH"), s)) <$> p_seq p
  | NWrite _ _ => None
  end.
(** The last sequence number of a log in which every NBIRTH carries 0 and every other message the
    successor (modulo 256) of the one before; [None] when the log breaks that. *)
Fixpoint seq_chain (q : Z) (l : list node_event) : option Z :=
  match l with
  | [] => Some q
  | e :: l' =>
      match pub_seq e with
      | None => seq_chain q l'
      | Some (true, s) => if s =? 0 then seq_chain 0 l' else None
      | Some (false, s) => if s =? next_seq q then seq_chain s l' else None
      end
  end.
Lemma seq_chain_app q l k : seq_chain q (l ++ k) = q' ← seq_chain q l; seq_chain q' k.
Proof.
  revert q. induction l as [|e l IH]; intros q; [done|]. simpl.
  destruct (pub_seq e) as [[[|] s]|]; [| |apply IH]; destruct (_ =? _); by rewrite ?IH.
Qed.

(** What publishing leaves alone. *)
Definition same_node (n n' : node) : Prop :=
  group n' = group n ∧ node_id n' = node_id n ∧ points n' = points n ∧ devices n' = devices n ∧
  values n' = values n ∧ bdseq n' = bdseq n ∧ has_pub n' = has_pub n ∧ sessions n' = sessions n.
#[export] Instance same_node_preorder : PreOrder same_node.
Proof. split; [by intros n|]. unfold same_node. intros n1 n2 n3 ??. intuition congruence. Qed.

(** A successful publication: one message with the current sequence number. *)
Lemma publish_inv now kind dev ms n u n' :
  _publish now kind dev ms n = (Ok u, n') → has_pub n = true →
  ∃ t b, node_topic kind dev n = Ok t ∧
         n' = add_event (NPub kind t (mkPayload (Some now) ms (Some (seq n)) None None) b) n ∧
         encode_payload (mkPayload (Some now) ms (Some (seq n)) None None) true = Ok b.
Proof. unfold _publish. intros H Hp. st_inv. rewrite Hp in *. cbn [negb] in *. st_inv. eauto. Qed.

(** The messages of a birth or a report, one per device that has something to say. *)
Definition is_pub (kind : pystr) (n : node) (d : pystr) (e : node_event) : Prop :=
  ∃ t p b, e = NPub kind t p b ∧ node_topic kind (Some d) n = Ok t ∧ encode_payload p true = Ok b.
Definition pub_names (e : node_event) : list pystr :=
  match e with NPub _ _ p _ => m_name <$> p_metrics p | NWrite _ _ => [] end.

Lemma metric_name now name v n m : _metric now name v n = Ok m → m_name m = name.
Proof.
  unfold _metric. destruct (assoc name (points n)); [|done]. intros H. res_inv.
  destruct v; res_inv; done.
Qed.
Lemma metrics_names now f names n ms :
  mapr (λ name, _metric now name (f name) n) names = Ok ms → m_name <$> ms = names.
Proof.
  intros H%mapr_inv. induction H as [|name m names ms Hm _ IH]; [done|].
  cbn. f_equal; [by eapply metric_name|done].
Qed.

Definition is_nbirth (kind : pystr) : bool := str_eqb kind (str "NBIRTH").

Lemma birth_devices_inv now ds n u n' :
  birth_devices now ds n = (Ok u, n') → has_pub n = true →
  ∃ es, out n' = out n ++ es ∧ same_node n n' ∧ seq_chain (seq n) es = Some (seq n') ∧
        Forall2 (λ d e, is_pub (str "DBIRTH") n d.1 e ∧ pub_names e = d.2) ds es.
Proof.
  revert n. induction ds as [|[dev names] ds IH]; intros n H Hp; cbn [birth_devices] in H.
  { st_inv. exists []. rewrite app_nil_r. by repeat constructor. }
  st_inv.
  match goal with H : _publish _ _ _ _ _ = _ |- _ =>
    apply publish_inv in H as (t & b & Ht & -> & Hb); [|exact Hp] end.
  match goal with H : birth_devices _ _ _ = _ |- _ =>
    apply IH in H as (es & Ho & Hs & Hc & Hf); [|exact Hp] end.
  match goal with H : mapr _ _ = Ok _ |- _ => apply metrics_names in H as Hnames end.
  eexists (_ :: es). rewrite Ho. split_and!.
  - cbn. rewrite <- app_assoc. done.
  - exact Hs.
  - cbn. rewrite Z.eqb_refl. exact Hc.
  - constructor; [|exact Hf]. split; [|exact Hnames]. eexists _, _, _. by split_and!.
Qed.

Lemma report_devices_inv now changed ds n u n' :
  report_devices now changed ds n = (Ok u, n') → has_pub n = true →
  ∃ es, out n' = out n ++ es ∧ same_node n n' ∧ seq_chain (seq n) es = Some (seq n') ∧
        (es ≫= pub_names) = (ds ≫= λ d, List.filter (λ name, existsb (str_eqb name) changed) d.2).
Proof.
  revert n. induction ds as [|[dev names] ds IH]; intros n H Hp; cbn [report_devices] in H.
  { st_inv. exists []. rewrite app_nil_r. by repeat constructor. }
  st_inv. match goal with H : mapr _ _ = Ok ?x |- _ => rename x into ms; apply metrics_names in H as Hnames end.
  destruct ms as [|m ms]; st_inv.
  - match goal with H : report_devices _ _ _ _ = _ |- _ =>
      apply IH in H as (es & Ho & Hs & Hc & Hf); [|exact Hp] end.
    exists es. split_and!; [done..|]. cbn. rewrite <- Hnames. exact Hf.
  - match goal with H : _publish _ _ _ _ _ = _ |- _ =>
      apply publish_inv in H as (t & b & Ht & -> & Hb); [|exact Hp] end.
    match goal with H : report_devices _ _ _ _ = _ |- _ =>
      apply IH in H as (es & Ho & Hs & Hc & Hf); [|exact Hp] end.
    eexists (_ :: es). rewrite Ho. split_and!.
    + cbn. rewrite <- app_assoc. done.
    + exact Hs.
    + cbn. rewrite Z.eqb_refl. exact Hc.
    + cbn. rewrite <- Hnames, Hf. done.
Qed.

Definition nbirth (now : Z) (n : node) : Payload :=
  mkPayload (Some now) [bdseq_metric n; rebirth_metric] (Some 0) None None.

Lemma birth_inv now n u n' :
  birth now n = (Ok u, n') → has_pub n = true →
  ∃ t b es, out n' = out n ++ NPub (str "NBIRTH") t (nbirth now n) b :: es ∧
            node_topic (str "NBIRTH") None n = Ok t ∧ encode_payload (nbirth now n) true = Ok b ∧
            same_node n n' ∧ seq_chain 0 es = Some (seq n') ∧
            Forall2 (λ d e, is_pub (str "DBIRTH") n d.1 e ∧ pub_names e = d.2) (devices n) es.
Proof.
  unfold birth. intros H Hp. st_inv.
  match goal with H : _publish _ _ _ _ _ = _ |- _ =>
    apply publish_inv in H as (t & b & Ht & -> & Hb); [|exact Hp] end.
  match goal with H : birth_devices _ _ _ = _ |- _ =>
    apply birth_devices_inv in H as (es & Ho & Hs & Hc & Hf); [|exact Hp] end.
  exists t, b, es. split_and!; [|done..]. rewrite Ho. cbn. by rewrite <- app_assoc.
Qed.

(** The node's invariant: it publishes, and its log is one unbroken sequence up to [seq]. *)
Definition seq_ok (n : node) : Prop := has_pub n = true ∧ seq_chain 0 (out n) = Some (seq n).

Lemma birth_seq_ok now n u n' : birth now n = (Ok u, n') → seq_ok n → seq_ok n' ∧ same_node n n'.
Proof.
  intros H [Hp Hc]. destruct (birth_inv _ _ _ _ H Hp) as (t & b & es & Ho & _ & _ & Hs & Hc' & _).
  split; [|done]. split; [by destruct Hs as (_&_&_&_&_&_&->&_)|].
  rewrite Ho, seq_chain_app, Hc. exact Hc'.
Qed.
Lemma update_seq_ok now vals n u n' :
  update now vals n = (Ok u, n') → seq_ok n →
  seq_ok n' ∧ bdseq n' = bdseq n ∧ points n' = points n ∧ devices n' = devices n.
Proof.
  unfold update. intros H [Hp Hc]. st_inv.
  match goal with H : report_devices _ _ _ _ = _ |- _ =>
    apply report_devices_inv in H as (es & Ho & Hs & Hc' & _); [|exact Hp] end.
  destruct Hs as (_ & _ & Hpt & Hd & _ & Hb & Hpub & _). split_and!; [|done..].
  split; [by rewrite Hpub|]. rewrite Ho. cbn. rewrite seq_chain_app, Hc. exact Hc'.
Qed.
Lemma node_commands_seq_ok now ms n u n' :
  node_commands now ms n = (Ok u, n') → seq_ok n → seq_ok n' ∧ same_node n n'.
Proof.
  revert n. induction ms as [|m ms IH]; intros n H Hn; cbn [node_commands] in H; st_inv; [done|].
  match goal with H : (if _ then _ else _) _ = (_, ?n1) |- _ =>
    assert (seq_ok n1 ∧ same_node n n1) as [H1 H2]; [|clear H] end.
  { destruct (negb _); st_inv; [done|]. destruct (truthy _); st_inv; [by eapply birth_seq_ok|done]. }
  match goal with H : node_commands _ _ _ = _ |- _ => apply IH in H as [H3 H4]; [|done] end.
  split; [done|]. by etransitivity.
Qed.
Lemma node_command_seq_ok now b n u n' :
  on_node_command now b n = (Ok u, n') → seq_ok n → seq_ok n' ∧ same_node n n'.
Proof.
  unfold on_node_command. destruct (decode_payload b) as [cmd|[[] msg]]; intros H Hn;
    try (by st_inv). by eapply node_commands_seq_ok.
Qed.

Lemma foldl_add_event es n :
  out (foldl (λ n e, add_event e n) n es) = out n ++ es ∧
  same_node n (foldl (λ n e, add_event e n) n es) ∧
  seq (foldl (λ n e, add_event e n) n es) = seq n.
Proof.
  revert n. induction es as [|e es IH]; intros n; cbn; [by rewrite app_nil_r|].
  destruct (IH (add_event e n)) as (-> & Hs & ->). split_and!; [cbn; by rewrite <- app_assoc|exact Hs|done].
Qed.
Lemma device_command_inv t b n u n' :
  on_device_command t b n = (Ok u, n') →
  ∃ ws, out n' = out n ++ ws ∧ same_node n n' ∧ seq n' = seq n ∧
    ∀ w, w ∈ ws → ∃ names m, assoc (last_level t) (devices n) = Some names ∧
                             command_write names n m = Some w.
Proof.
  unfold on_device_command. intros H. st_inv.
  assert (∃ ws, out n = out n ++ ws ∧ same_node n n ∧ seq n = seq n ∧
    ∀ w, w ∈ ws → ∃ names m, assoc (last_level t) (devices n) = Some names ∧
                             command_write names n m = Some w) as Hnone.
  { exists []. rewrite app_nil_r. split_and!; [done..|]. intros w Hw. by apply not_elem_of_nil in Hw. }
  destruct (assoc (last_level t) (devices n)) as [names|] eqn:E; [|by st_inv].
  destruct (decode_payload b) as [cmd|[[] msg]]; try (by st_inv). st_inv.
  destruct (foldl_add_event (omap (command_write names n) (p_metrics cmd)) n) as (Ho & Hs & Hq).
  eexists. split_and!; [exact Ho|exact Hs|exact Hq|].
  intros w (m & _ & Hm)%list_elem_of_omap. by exists names, m.
Qed.
Lemma writes_seq_chain q ws :
  (∀ w, w ∈ ws → ∃ p v, w = NWrite p v) → seq_chain q ws = Some q.
Proof.
  induction ws as [|w ws IH]; intros H; [done|]. destruct (H w ltac:(left)) as (p & v & ->).
  simpl. apply IH. intros w' Hw'. apply H. by right.
Qed.
Lemma command_write_inv names n m w :
  command_write names n m = Some w →
  ∃ point, w = NWrite point (command_value m point) ∧ m_name m ∈ names ∧
           assoc (m_name m) (points n) = Some point ∧ p_writable point = true ∧ m_is_null m = false.
Proof.
  unfold command_write. destruct (existsb _ names) eqn:E; [|done].
  destruct (assoc (m_name m) (points n)) as [point|]; [|done].
  destruct (p_writable point) eqn:Ew; [|done]. destruct (m_is_null m) eqn:En; [done|]. intros [= <-].
  exists point. split_and!; try done. apply existsb_exists in E as (x & Hx & ->%str_eqb_eq).
  by apply list_elem_of_In.
Qed.

(** ** Sessions *)
(** The invariant of a session: the sequence is unbroken and the registered will carries the
    node's bdSeq. *)
Definition session_ok (pts : list (pystr * ModbusPoint)) (ds : list (pystr * list pystr))
    (s : session) : Prop :=
  seq_ok (nd s) ∧ p_metrics (will s) = [bdseq_metric (nd s)] ∧
  points (nd s) = pts ∧ devices (nd s) = ds.

Lemma will_inv now n p m n' :
  _will now n = (Ok (p, m), n') →
  p = ndeath_payload now n' ∧ out n' = out n ∧ seq n' = seq n ∧ has_pub n' = has_pub n ∧
  points n' = points n ∧ devices n' = devices n ∧
  bdseq n' = if sessions n =? 0 then bdseq n else (bdseq n + 1) mod 256.
Proof.
  unfold _will, _ndeath. intros H. st_inv.
  destruct (sessions n =? 0) eqn:E; cbn [negb] in *; st_inv; res_inv; simplify_eq; cbn; by rewrite ?E.
Qed.

Lemma step_ok pts ds now o s s' :
  session_ok pts ds s → step now o s = Some s' → session_ok pts ds s'.
Proof.
  intros (Hseq & Hw & Hpts & Hds) H.
  assert (∀ n', seq_ok n' → bdseq n' = bdseq (nd s) → points n' = points (nd s) →
    devices n' = devices (nd s) → session_ok pts ds (mkSession n' (will s))) as Hnode.
  { intros n' H1 H2 H3 H4. split; [done|]. cbn. unfold bdseq_metric in *. by rewrite H2, H3, H4. }
  destruct o as [| |vals|b|t b]; cbn [step] in H; unfold on_node in H.
  - destruct (_will now (nd s)) as [[[p m]|e] n'] eqn:E; [|done]. injection H as <-.
    apply will_inv in E as (-> & Ho & Hq & Hp & Hpt & Hd & _). destruct Hseq as [H1 H2].
    split; [|by rewrite <- Hpts, <- Hds]. split; cbn; congruence.
  - destruct (birth now (nd s)) as [[u|e] n'] eqn:E; [|done]. injection H as <-.
    apply birth_seq_ok in E as [? (_&_&?&?&_&?&_&_)]; auto.
  - destruct (update _ _ _) as [[u|e] n'] eqn:E; [|done]. injection H as <-.
    apply update_seq_ok in E as (?&?&?&?); auto.
  - destruct (on_node_command _ _ _) as [[u|e] n'] eqn:E; [|done]. injection H as <-.
    apply node_command_seq_ok in E as [? (_&_&?&?&_&?&_&_)]; auto.
  - destruct (on_device_command _ _ _) as [[u|e] n'] eqn:E; [|done]. injection H as <-.
    apply device_command_inv in E as (ws & Ho & Hs & Hq & Hws).
    destruct Hs as (_ & _ & ? & ? & _ & ? & Hp & _). apply Hnode; try done.
    destruct Hseq as [Hq1 Hq2]. split; [congruence|]. rewrite Ho, seq_chain_app, Hq2, Hq. cbn.
    apply writes_seq_chain. intros w (names & m & _ & Hm)%Hws.
    apply command_write_inv in Hm as (point & -> & _). by eexists _, _.
Qed.

Lemma reachable_ok g i nm pts s :
  reachable (SparkplugNode g i nm pts) s →
  session_ok (points (SparkplugNode g i nm pts)) (devices (SparkplugNode g i nm pts)) s.
Proof.
  induction 1 as [now s Hs|now o s s' _ IH Hs]; [|by eapply step_ok].
  unfold start in Hs. destruct (publisher _) as [[[a b]|e] n] eqn:Ep; [|done].
  destruct (_will now n) as [[[p m]|e] n'] eqn:Ew; [|done]. injection Hs as <-.
  apply will_inv in Ew as (-> & Ho & Hq & Hp & Hpt & Hd & _).
  unfold publisher in Ep. st_inv. split; [|by split_and!].
  split; cbn; [by rewrite Hp|]. by rewrite Ho, Hq.
Qed.

(** C10: over any run of births, reports, commands and reconnections, the messages published form
    one unbroken Sparkplug sequence: every NBIRTH carries 0 and every other message the successor,
    modulo 256, of the message before it. *)
Theorem sequence_unbroken g i nm pts s :
  reachable (SparkplugNode g i nm pts) s → seq_chain 0 (out (nd s)) = Some (seq (nd s)).
Proof. intros H. apply (reachable_ok _ _ _ _ _ H). Qed.

(** a birth announces the whole node: an NBIRTH (sequence 0) whose bdSeq is the one of the
    will registered for the session, then one DBIRTH per device, in order, naming each of the
    device's points; all of them encodable. *)
Theorem birth_complete g i nm pts now s s' :
  reachable (SparkplugNode g i nm pts) s → step now Birth s = Some s' →
  ∃ t b m es,
    out (nd s') = out (nd s) ++
      NPub (str "NBIRTH") t (mkPayload (Some now) [m; rebirth_metric] (Some 0) None None) b :: es ∧
    p_metrics (will s') = [m] ∧ m_name m = BDSEQ ∧
    node_topic (str "NBIRTH") None (nd s) = Ok t ∧
    encode_payload (mkPayload (Some now) [m; rebirth_metric] (Some 0) None None) true = Ok b ∧
    Forall2 (λ d e, is_pub (str "DBIRTH") (nd s) d.1 e ∧ pub_names e = d.2)
      (devices (SparkplugNode g i nm pts)) es.
Proof.
  intros Hr H. destruct (reachable_ok _ _ _ _ _ Hr) as ([Hp _] & Hw & _ & Hd).
  cbn [step] in H. unfold on_node in H. destruct (birth now (nd s)) as [[u|e] n'] eqn:E; [|done].
  injection H as <-. destruct (birth_inv _ _ _ _ E Hp) as (t & b & es & Ho & Ht & Hb & _ & _ & Hf).
  exists t, b, (bdseq_metric (nd s)), es. rewrite <- Hd. by split_and!.
Qed.

(** ** Commands *)
Lemma assoc_add_point d dev name ds :
  assoc d (add_point dev name ds) =
  if str_eqb d dev then Some (default [] (assoc d ds) ++ [name]) else assoc d ds.
Proof.
  induction ds as [|[q ns] ds IH]; simpl; [by destruct (str_eqb d dev)|].
  destruct (str_eqb dev q) eqn:E; simpl.
  - apply str_eqb_eq in E as ->. by destruct (str_eqb d q).
  - rewrite IH. destruct (str_eqb d q) eqn:E2; [|done]. apply str_eqb_eq in E2 as ->.
    destruct (str_eqb q dev) eqn:E3; [|done]. apply str_eqb_eq in E3 as ->. by rewrite str_eqb_refl in E.
Qed.

Lemma devices_points pts dev names name :
  assoc dev (foldl (λ ds p, add_point (device_id (p_unit p)) (p_name p) ds) [] pts) = Some names →
  name ∈ names → ∃ p, p ∈ pts ∧ p_name p = name ∧ device_id (p_unit p) = dev.
Proof.
  revert names. induction pts as [|p pts IH] using rev_ind; intros names; [done|].
  rewrite foldl_snoc, assoc_add_point. destruct (str_eqb dev _) eqn:E.
  - apply str_eqb_eq in E. intros [= <-] [Hn|Hn]%elem_of_app.
    + destruct (assoc dev _) as [ns|] eqn:Ea; [|by apply not_elem_of_nil in Hn].
      destruct (IH ns eq_refl Hn) as (q & Hq & ?). exists q. split; [|done]. apply elem_of_app. by left.
    + apply list_elem_of_singleton in Hn as ->. exists p. split; [apply elem_of_app; right; by left|done].
  - intros Ha Hn. destruct (IH _ Ha Hn) as (q & Hq & ?). exists q. split; [|done]. apply elem_of_app. by left.
Qed.

Lemma points_assoc pts name point :
  NoDup (p_name <$> pts) →
  assoc name (dict_update ((λ p, (p_name p, p)) <$> pts) []) = Some point →
  point ∈ pts ∧ p_name point = name.
Proof.
  intros Hnd. rewrite assoc_dict_update.
  2:{ by rewrite <- list_fmap_compose. }
  destruct (assoc name _) as [q|] eqn:E; [|done]. intros [= ->].
  apply assoc_in, list_elem_of_fmap in E as (p & [= -> ->] & Hp). done.
Qed.

Lemma nodup_name_inj pts p q :
  NoDup (p_name <$> pts) → p ∈ pts → q ∈ pts → p_name p = p_name q → p = q.
Proof.
  induction pts as [|r pts IH]; [by intros _ ?%not_elem_of_nil|]. cbn.
  intros [Hr Hnd]%NoDup_cons [->|Hp]%elem_of_cons [->|Hq]%elem_of_cons E; [done| | |auto].
  - exfalso. apply Hr. rewrite E. by apply list_elem_of_fmap_2.
  - exfalso. apply Hr. rewrite <- E. by apply list_elem_of_fmap_2.
Qed.

(** a device command only ever schedules writes: each to a writable configured point that
    belongs to the unit named by the topic's last level; nothing is published and no other state
    of the node changes. *)
Theorem device_command_safe g i nm pts now t b s s' :
  NoDup (p_name <$> pts) →
  reachable (SparkplugNode g i nm pts) s → step now (DeviceCommand t b) s = Some s' →
  ∃ ws, out (nd s') = out (nd s) ++ ws ∧ same_node (nd s) (nd s') ∧ seq (nd s') = seq (nd s) ∧
    ∀ w, w ∈ ws → ∃ point v, w = NWrite point v ∧ point ∈ pts ∧ p_writable point = true ∧
                              device_id (p_unit point) = last_level t.
Proof.
  intros Hnd Hr H. destruct (reachable_ok _ _ _ _ _ Hr) as (_ & _ & Hp & Hd).
  cbn [step] in H. unfold on_node in H. destruct (on_device_command t b (nd s)) as [[u|e] n'] eqn:E;
    [|done]. injection H as <-. apply device_command_inv in E as (ws & Ho & Hs & Hq & Hws).
  exists ws. split_and!; [done..|]. intros w (names & m & Hnames & Hm)%Hws.
  apply command_write_inv in Hm as (point & -> & Hin & Ha & Hwr & _).
  rewrite Hp in Ha. apply points_assoc in Ha as [Hpt Hname]; [|done].
  rewrite Hd in Hnames. destruct (devices_points _ _ _ _ Hnames Hin) as (p & Hpp & Hpn & Hdev).
  eexists point, _. split_and!; [done..|].
  by rewrite (nodup_name_inj pts point p) by congruence.
Qed.

(** ** Report by exception *)
Definition changed (n : node) (vals : list (pystr * pubval)) : list (pystr * pubval) :=
  List.filter (λ '(name, v), is_changed n name v) vals.
Definition self_equal (vals : list (pystr * pubval)) : Prop :=
  Forall (λ nv, pub_eq nv.2 nv.2 = true) vals.

Lemma is_changed_update n n' vals name v :
  NoDup vals.*1 → self_equal vals → (name, v) ∈ vals →
  points n' = points n → values n' = dict_update (changed n vals) (values n) →
  is_changed n' name v = false.
Proof.
  intros Hnd Hrefl Hin Hp Hv. unfold is_changed at 1. rewrite Hp, Hv.
  destruct (assoc name (points n)) as [pt|] eqn:Ep; [|done].
  unfold changed. rewrite assoc_dict_update by by apply filter_keys_nodup.
  rewrite (assoc_filter _ _ name v) by done.
  assert (pub_eq v v = true) as Hvv.
  { unfold self_equal in Hrefl. rewrite Forall_forall in Hrefl. by apply (Hrefl (name, v)). }
  unfold is_changed. rewrite Ep. destruct (assoc name (values n)) as [old|] eqn:Eo; [|by rewrite Hvv].
  destruct (pub_eq old v) eqn:E; cbn; [by rewrite E|by rewrite Hvv].
Qed.

Lemma changed_nil n vals :
  (∀ name v, (name, v) ∈ vals → is_changed n name v = false) → changed n vals = [].
Proof.
  unfold changed. induction vals as [|[name v] vals IH]; intros H; [done|]. cbn.
  rewrite (H name v) by (by left). apply IH. intros ???. apply H. by right.
Qed.
Lemma report_nothing now ds n : report_devices now [] ds n = (Ok tt, n).
Proof.
  induction ds as [|[dev names] ds IH]; [done|]. cbn [report_devices].
  assert (List.filter (λ name, existsb (str_eqb name) []) names = []) as E by (by induction names).
  unfold st_get, st_lift. rewrite !st_bind_eq, E. cbn. exact IH.
Qed.

(** report by exception. A report publishes exactly the metrics of the configured points whose
    value changed, device by device; and reporting the same values again publishes nothing and
    changes nothing. *)
Theorem report_by_exception now now' vals n n' :
  has_pub n = true → NoDup vals.*1 → self_equal vals → update now vals n = (Ok tt, n') →
  (∃ es, out n' = out n ++ es ∧
    (es ≫= pub_names) = (devices n ≫= λ d,
       List.filter (λ name, existsb (str_eqb name) (changed n vals).*1) d.2)) ∧
  update now' vals n' = (Ok tt, n').
Proof.
  intros Hp Hnd Hrefl H. unfold update in H. st_inv.
  match goal with H : report_devices _ _ _ _ = _ |- _ =>
    apply report_devices_inv in H as (es & Ho & Hs & _ & Hn); [|exact Hp] end.
  destruct Hs as (_ & _ & Hpt & Hd & Hv & _). cbn in Hpt, Hd, Hv, Ho, Hn. split; [by exists es|].
  assert (changed n' vals = []) as E.
  { apply changed_nil. intros name v Hin. by eapply is_changed_update. }
  unfold update. unfold st_get, st_modify. rewrite !st_bind_eq. fold (changed n' vals). rewrite E.
  cbn [fmap list_fmap dict_update foldl].
  replace (set_values (values n') n') with n' by (by destruct n'). apply report_nothing.
Qed.

(** ** Witnesses *)
Definition demo_points : list ModbusPoint :=
  [mkPoint (str "temp") 1 3 0 (str "int16") (NInt 1) true;
   mkPoint (str "run") 2 1 5 (str "bool") (NInt 1) true;
   mkPoint (str "load") 1 4 7 (str "uint16") (NInt 1) false].
Definition demo_node : node := SparkplugNode (str "plant") (str "gw") (str "line 1") demo_points.
Definition run (ops : list op) (s : option session) : option session :=
  foldl (λ s o, s ≫= step 1000 o) s ops.
Lemma run_reachable n0 ops s s' : reachable n0 s → run ops (Some s) = Some s' → reachable n0 s'.
Proof.
  revert s. induction ops as [|o ops IH]; intros s Hr H; [by injection H as <-|].
  cbn [run foldl mbind option_bind] in H. destruct (step 1000 o s) as [s1|] eqn:E.
  - eapply IH; [|exact H]. by eapply reach_step.
  - exfalso. clear -H. induction ops; [done|auto].
Qed.
Definition demo_command : bytes :=
  match encode_payload (mkPayload (Some 5)
    [mkMetric (str "temp") 3 (VInt (-3)) None None false;
     mkMetric (str "load") 3 (VInt 9) None None false;
     mkMetric (str "run") 11 (VBool true) None None false] None None None) true with
  | Ok b => b
  | Raise _ => []
  end.
Definition demo_session : session :=
  match run [Birth; Report [(str "temp", PubNum (NInt 7)); (str "run", PubBool true)]; Disconnected_;
             Birth] (start 1000 demo_node) with
  | Some s => s
  | None => mkSession demo_node (ndeath_payload 0 demo_node)
  end.
Lemma demo_reachable : reachable demo_node demo_session.
Proof.
  destruct (start 1000 demo_node) as [s0|] eqn:E; [|vm_compute in E; discriminate E].
  apply (run_reachable _ [Birth; Report [(str "temp", PubNum (NInt 7)); (str "run", PubBool true)];
                          Disconnected_; Birth] s0); [by eapply reach_start|].
  rewrite <- E. vm_compute. reflexivity.
Qed.

Lemma sequence_unbroken_witness : seq_chain 0 (out (nd demo_session)) = Some (seq (nd demo_session)).
Proof. apply (sequence_unbroken (str "plant") (str "gw") (str "line 1") demo_points). exact demo_reachable. Defined.

Definition after (o : op) : session :=
  match step 2000 o demo_session with Some s => s | None => demo_session end.
Lemma birth_complete_witness :
  ∃ t b m es,
    out (nd (after Birth)) = out (nd demo_session) ++
      NPub (str "NBIRTH") t (mkPayload (Some 2000) [m; rebirth_metric] (Some 0) None None) b :: es ∧
    p_metrics (will (after Birth)) = [m] ∧ m_name m = BDSEQ ∧
    node_topic (str "NBIRTH") None (nd demo_session) = Ok t ∧
    encode_payload (mkPayload (Some 2000) [m; rebirth_metric] (Some 0) None None) true = Ok b ∧
    Forall2 (λ d e, is_pub (str "DBIRTH") (nd demo_session) d.1 e ∧ pub_names e = d.2)
      (devices demo_node) es.
Proof.
  apply (birth_complete (str "plant") (str "gw") (str "line 1") demo_points).
  - exact demo_reachable.
  - vm_compute. reflexivity.
Defined.

Definition demo_dcmd : op := DeviceCommand (str "spBv1.0/plant/DCMD/gw/unit1") demo_command.
Lemma device_command_safe_witness :
  ∃ ws, out (nd (after demo_dcmd)) = out (nd demo_session) ++ ws ∧
    same_node (nd demo_session) (nd (after demo_dcmd)) ∧
    seq (nd (after demo_dcmd)) = seq (nd demo_session) ∧
    ∀ w, w ∈ ws → ∃ point v, w = NWrite point v ∧ point ∈ demo_points ∧ p_writable point = true ∧
                              device_id (p_unit point) = last_level (str "spBv1.0/plant/DCMD/gw/unit1").
Proof.
  apply (device_command_safe (str "plant") (str "gw") (str "line 1") demo_points 2000
           (str "spBv1.0/plant/DCMD/gw/unit1") demo_command).
  - apply (bool_decide_unpack _). vm_compute. exact I.
  - exact demo_reachable.
  - vm_compute. reflexivity.
Defined.

Definition demo_values : list (pystr * pubval) :=
  [(str "temp", PubNum (NInt 8)); (str "run", PubBool true)].
Lemma report_by_exception_witness :
  let n := nd demo_session in
  let n' := (update 2000 demo_values n).2 in
  (∃ es, out n' = out n ++ es ∧
    (es ≫= pub_names) = (devices n ≫= λ d,
       List.filter (λ name, existsb (str_eqb name) (changed n demo_values).*1) d.2)) ∧
  update 3000 demo_values n' = (Ok tt, n').
Proof.
  apply (report_by_exception 2000).
  - vm_compute. reflexivity.
  - apply (bool_decide_unpack _). vm_compute. exact I.
  - repeat (apply Forall_cons; split; [reflexivity|]). by apply Forall_nil.
  - vm_compute. reflexivity.
Defined.
