(* ===== verification/Bridge.v ===== *)
(** * The serial-to-network bridge (app/engine/bridge.py)

    Client connections with their bounded queues, the broadcast of serial data, closeon, admission
    with eviction, and UDP peers; the life of the runner is in [Runner]. Clients hold a protocol session of any type
    that implements [ProtocolSession]. Times are integers (milliseconds); the tasks of a client are
    steps: each [await]-free section of a pump is one operation. *)
From S2P Require Import Prelude PyFloat PyStr PyVal IpAddr Protocols.
#[local] Open Scope Z_scope.

Definition READ_CHUNK : Z := 4096.
Definition CLIENT_QUEUE_MAX : Z := 2048.

(** ** Text *)
Definition pad2 (n : Z) : pystr := if n <? 10 then str "0" ++ str_of_Z n else str_of_Z n.
(** [fmt_duration] of a number of whole seconds. *)
Definition fmt_duration (secs : Z) : pystr :=
  let secs := Z.max 0 secs in
  let h := secs / 3600 in
  let rem := secs mod 3600 in
  let m := rem / 60 in
  let s := rem mod 60 in
  if negb (h =? 0) then str_of_Z h ++ str "h " ++ pad2 m ++ str "m"
  else if negb (m =? 0) then str_of_Z m ++ str "m " ++ pad2 s ++ str "s"
  else str_of_Z s ++ str "s".

Definition _render_banner (template name : pystr) (port : Z) (device peer : pystr) : bytes :=
  let bs c := 92 :: str c in
  let s := replace_all (bs "d"%string) device template in
  let s := replace_all (bs "N"%string) name s in
  let s := replace_all (bs "p"%string) (str_of_Z port) s in
  let s := replace_all (bs "I"%string) peer s in
  let s := replace_all (bs "r"%string) [13] s in
  let s := replace_all (bs "n"%string) [10] s in
  utf8_encode_replace s.

(** ** Clients *)
Section bridge.
Context {S : Type} `{ProtocolSession S}.

(** [outq]: [None] is the graceful-close sentinel. [sent]: the chunks written to the socket;
    [aborted]: [transport.abort()] was called; [finished]: [run()] ended. *)
Record client := mkClient {
  c_id : Z;
  peer : pystr;
  priority : bool;
  connected_at : Z;
  queue_max : Z;
  outq : list (option bytes);
  session : option S;
  last_activity : Z;
  closing : bool;
  close_reason : pystr;
  aborted : bool;
  sent : list bytes;
}.
Definition set_queue q c := mkClient (c_id c) (peer c) (priority c) (connected_at c) (queue_max c) q
  (session c) (last_activity c) (closing c) (close_reason c) (aborted c) (sent c).
Definition set_session s c := mkClient (c_id c) (peer c) (priority c) (connected_at c) (queue_max c)
  (outq c) (Some s) (last_activity c) (closing c) (close_reason c) (aborted c) (sent c).
Definition set_activity t c := mkClient (c_id c) (peer c) (priority c) (connected_at c) (queue_max c)
  (outq c) (session c) t (closing c) (close_reason c) (aborted c) (sent c).
Definition set_closing reason c := mkClient (c_id c) (peer c) (priority c) (connected_at c)
  (queue_max c) (outq c) (session c) (last_activity c) true
  (match close_reason c with [] => reason | r => r end) (aborted c) (sent c).
Definition set_aborted c := mkClient (c_id c) (peer c) (priority c) (connected_at c) (queue_max c)
  (outq c) (session c) (last_activity c) (closing c) (close_reason c) true (sent c).
Definition add_sent l c := mkClient (c_id c) (peer c) (priority c) (connected_at c) (queue_max c)
  (outq c) (session c) (last_activity c) (closing c) (close_reason c) (aborted c) (sent c ++ l).

(** [_ClientConn.__init__] *)
Definition _ClientConn (id : Z) (peer : pystr) (prio : bool) (now qmax : Z) : client :=
  mkClient id peer prio now (if qmax =? 0 then CLIENT_QUEUE_MAX else qmax) [] None now false [] false [].

Definition queue_full (c : client) : bool := queue_max c <=? zlen (outq c).
(** [put_nowait] under [suppress(QueueFull)]: dropped when full. *)
Definition put_suppressed (b : bytes) (c : client) : client :=
  match b with
  | [] => c
  | _ => if queue_full c then c else set_queue (outq c ++ [Some b]) c
  end.

(** The client afterwards, and whether it was dropped as too slow. *)
Definition feed_from_serial (data : bytes) (c : client) : client * bool :=
  match session c with
  | None => (c, false)
  | Some s =>
      if closing c then (c, false)
      else
        let '(net, s) := from_serial data s in
        let c := set_session s c in
        match net with
        | [] => (c, false)
        | _ =>
            if queue_full c
            then (set_aborted (set_closing (str "dropped: output queue full (slow client)") c), true)
            else (set_queue (outq c ++ [Some net]) c, false)
        end
  end.

(** The start of [run()]: session, negotiation bytes, banner. *)
Definition run_start (s : S) (banner : bytes) (c : client) : client :=
  let '(init, s) := initial_net_bytes s in
  let c := set_session s c in
  match init ++ banner with
  | [] => c
  | b => add_sent [b] c
  end.

Definition kick (reason : pystr) (c : client) : client := set_aborted (set_closing reason c).

Definition request_graceful_close (c : client) : client :=
  if closing c then c
  else
    let c := set_closing (str "closed by closeon match") c in
    if queue_full c then set_aborted c else set_queue (outq c ++ [None]) c.

(** One iteration of [_pump_serial_to_net]: the client, the bytes counted as delivered, and
    whether the pump ends the connection. The queue must not be empty. *)
Definition pump_serial_to_net (now : Z) (c : client) : client * Z * bool :=
  match outq c with
  | [] => (c, 0, false)
  | Some data :: q => (set_activity now (add_sent [data] (set_queue q c)), zlen data, false)
  | None :: q =>
      let rest := omap (λ d, match d with Some (_ :: _) => d | _ => None end) q in
      (add_sent rest (set_queue [] c), 0, true)
  end.

(** One iteration of [_pump_net_to_serial] on a non-empty read: the bytes for the serial port. *)
Definition pump_net_to_serial (read_only : bool) (now : Z) (data : bytes) (c : client)
    : client * bytes :=
  match session c with
  | None => (c, [])
  | Some s =>
      let c := set_activity now c in
      let '(serial_bound, s) := from_network data s in
      let '(ctrl, s) := take_net_out s in
      let c := put_suppressed ctrl (set_session s c) in
      (c, if read_only then [] else serial_bound)
  end.

Definition pump_poll (c : client) : client :=
  match session c with
  | None => c
  | Some s => let '(extra, s) := poll s in put_suppressed extra (set_session s c)
  end.

(** [_idle_guard]: the test made every second. *)
Definition idle_expired (timeout now : Z) (c : client) : bool := timeout <? now - last_activity c.

(** ** The runner *)
Record runner := mkRunner {
  max_connections : Z;
  kick_old_user : bool;
  read_only : bool;
  allowed_nets : list net;
  priority_nets : list net;
  closeon : bytes;
  closeon_tail : bytes;
  clients : list client;
  serial_open : bool;
  serial_out : list bytes;
  bytes_in : Z;
  bytes_out : Z;
  dropped_clients : Z;
  queue_overflows : Z;
  client_count : Z;
}.
Definition set_tail t r := mkRunner (max_connections r) (kick_old_user r) (read_only r)
  (allowed_nets r) (priority_nets r) (closeon r) t (clients r) (serial_open r) (serial_out r)
  (bytes_in r) (bytes_out r) (dropped_clients r) (queue_overflows r) (client_count r).
Definition set_clients cs r := mkRunner (max_connections r) (kick_old_user r) (read_only r)
  (allowed_nets r) (priority_nets r) (closeon r) (closeon_tail r) cs (serial_open r) (serial_out r)
  (bytes_in r) (bytes_out r) (dropped_clients r) (queue_overflows r) (client_count r).
Definition set_count n r := mkRunner (max_connections r) (kick_old_user r) (read_only r)
  (allowed_nets r) (priority_nets r) (closeon r) (closeon_tail r) (clients r) (serial_open r)
  (serial_out r) (bytes_in r) (bytes_out r) (dropped_clients r) (queue_overflows r) n.
Definition put_serial b r := mkRunner (max_connections r) (kick_old_user r) (read_only r)
  (allowed_nets r) (priority_nets r) (closeon r) (closeon_tail r) (clients r) (serial_open r)
  (serial_out r ++ [b]) (bytes_in r) (bytes_out r) (dropped_clients r) (queue_overflows r)
  (client_count r).
Definition set_counters bi bo dc qo r := mkRunner (max_connections r) (kick_old_user r) (read_only r)
  (allowed_nets r) (priority_nets r) (closeon r) (closeon_tail r) (clients r) (serial_open r)
  (serial_out r) bi bo dc qo (client_count r).

(** [serial_write]: dropped while the port is closed. *)
Definition serial_write (data : bytes) (r : runner) : runner :=
  if serial_open r then put_serial data r else r.

Definition _refresh_clients (r : runner) : runner := set_count (zlen (clients r)) r.

(** [for c in list(self._clients): c.feed_from_serial(data)] *)
Definition broadcast (data : bytes) (r : runner) : runner :=
  let res := feed_from_serial data <$> clients r in
  let drops := zlen (List.filter snd res) in
  set_counters (bytes_in r) (bytes_out r) (dropped_clients r + drops) (queue_overflows r + drops)
    (set_clients res.*1 r).

Definition _check_closeon (data : bytes) (r : runner) : runner :=
  let window := closeon_tail r ++ data in
  if contains (closeon r) window
  then set_tail [] (set_clients (request_graceful_close <$> clients r) r)
  else if 1 <? zlen (closeon r)
  then set_tail (last_n (zlen (closeon r) - 1) window) r
  else r.

(** One chunk of [_serial_read_loop] ([data] non-empty). *)
Definition serial_read (data : bytes) (r : runner) : runner :=
  let r := broadcast data r in
  match closeon r with [] => r | _ => _check_closeon data r end.

(** A read of client [id], with the serial write it leads to. *)
Definition client_read (id now : Z) (data : bytes) (r : runner) : runner :=
  match List.find (λ c, c_id c =? id) (clients r) with
  | None => r
  | Some c =>
      let '(c', serial_bound) := pump_net_to_serial (read_only r) now data c in
      let r := set_clients ((λ d, if c_id d =? id then c' else d) <$> clients r) r in
      match serial_bound with
      | [] => r
      | _ => let r := serial_write serial_bound r in
             set_counters (bytes_in r) (bytes_out r + zlen serial_bound) (dropped_clients r)
               (queue_overflows r) r
      end
  end.

(** ** Admission *)
Definition _client_allowed (ip : pystr) (r : runner) : bool :=
  match allowed_nets r with [] => true | _ => _ip_in_nets ip (allowed_nets r) end.

(** [min(pool, key=connected_at)]: the first of the oldest. *)
Fixpoint oldest (c : client) (pool : list client) : client :=
  match pool with
  | [] => c
  | d :: l => oldest (if connected_at d <? connected_at c then d else c) l
  end.
Definition _pick_victim (cs : list client) : option client :=
  let pool := match List.filter (λ c, negb (priority c)) cs with [] => cs | p => p end in
  match pool with [] => None | c :: l => Some (oldest c l) end.

Inductive verdict := Enter | NotAllowed | Busy | NotReady.
(** [_on_client] up to its first await: the refusal ([None]: it goes on), and the runner with the victim kicked. *)
Definition on_client_check (ip peer : pystr) (r : runner) : option verdict * runner :=
  if negb (_client_allowed ip r) then (Some NotAllowed, r)
  else
    let is_priority := _ip_in_nets ip (priority_nets r) in
    if max_connections r <=? zlen (clients r) then
      if is_priority || kick_old_user r then
        match _pick_victim (clients r) with
        | None => (None, r)
        | Some v =>
            let why := if is_priority then str "priority client" else str "new client" in
            let reason := str "kicked for " ++ why ++ str " " ++ peer in
            (None, set_clients ((λ c, if c_id c =? c_id v then kick reason c else c)
                                  <$> clients r) r)
        end
      else (Some Busy, r)
    else (None, r).
(** An RFC2217 client waits for the serial port; it is refused when the port is not [ready] and not so [later], within
    [rfc2217_net_timeout_s]. *)
Definition not_ready (rfc2217 ready later : bool) : bool := rfc2217 && negb ready && negb later.
(** The client is registered after the wait. *)
Definition on_client_enter (c : client) (r : runner) : runner :=
  _refresh_clients (set_clients (clients r ++ [c]) r).
(** The handler up to [client.run()], when nothing else happens during the wait ([Runner] has the two parts as steps). *)
Definition on_client (rfc2217 ready later : bool) (id now qmax : Z) (ip peer : pystr) (r : runner) : verdict * runner :=
  match on_client_check ip peer r with
  | (Some v, r) => (v, r)
  | (None, r) =>
      if not_ready rfc2217 ready later then (NotReady, r)
      else (Enter, on_client_enter
                     (_ClientConn id peer (_ip_in_nets ip (priority_nets r)) now qmax) r)
  end.
(** The [finally] of [_on_client]: [closestr] goes to the device when the last client leaves. *)
Definition on_client_gone (id : Z) (closestr : bytes) (r : runner) : runner :=
  let r := _refresh_clients (set_clients (List.filter (λ c, negb (c_id c =? id)) (clients r)) r) in
  match clients r, closestr with
  | [], _ :: _ => serial_write closestr r
  | _, _ => r
  end.
End bridge.
Arguments client : clear implicits.
Arguments runner : clear implicits.

(** ** UDP *)
Record udp := mkUdp {
  u_allowed : list net;
  u_read_only : bool;
  u_peer : option (pystr * Z);
  u_serial_open : bool;
  u_serial_out : list bytes;
  u_bytes_in : Z;
  u_bytes_out : Z;
  u_sent : list (pystr * Z * bytes);
}.
Definition datagram_received (data : bytes) (addr : pystr * Z) (u : udp) : udp :=
  if negb (match u_allowed u with [] => true | _ => _ip_in_nets addr.1 (u_allowed u) end) then u
  else
    let out := if u_read_only u then u_serial_out u
               else if u_serial_open u then u_serial_out u ++ [data] else u_serial_out u in
    let bo := if u_read_only u then u_bytes_out u
              else if u_serial_open u then u_bytes_out u + zlen data else u_bytes_out u in
    mkUdp (u_allowed u) (u_read_only u) (Some addr) (u_serial_open u) out (u_bytes_in u) bo (u_sent u).
(** [_UdpPeer.feed_from_serial] *)
Definition udp_feed (data : bytes) (u : udp) : udp :=
  match u_peer u with
  | None => u
  | Some addr => mkUdp (u_allowed u) (u_read_only u) (u_peer u) (u_serial_open u) (u_serial_out u)
                   (u_bytes_in u + zlen data) (u_bytes_out u) (u_sent u ++ [(addr, data)])
  end.

(** ** A client's stream *)
Section client_stream.
Context {S : Type} `{ProtocolSession S}.
(** What the stream theorem needs of the protocol: serial data goes out as it is. *)
Context (transparent : ∀ data (s : S), from_serial data s = (data, s)).

Inductive client_op :=
  | Serial (data : bytes) | Pump (now : Z) | Kick (reason : pystr) | GracefulClose.
Definition client_step (c : client S) (o : client_op) : client S :=
  match o with
  | Serial data => (feed_from_serial data c).1
  | Pump now => (pump_serial_to_net now c).1.1
  | Kick reason => kick reason c
  | GracefulClose => request_graceful_close c
  end.
Definition serial_data (ops : list client_op) : list bytes :=
  omap (λ o, match o with Serial d => Some d | _ => None end) ops.

(** Everything the client has been sent or still has queued. *)
Definition stream (c : client S) : bytes := concat (sent c) ++ concat (omap id (outq c)).
Definition queue_ok (c : client S) : Prop := zlen (outq c) <= queue_max c.

Lemma omap_id_app (l k : list (option bytes)) : omap id (l ++ k) = omap id l ++ omap id k.
Proof. apply omap_app. Qed.
Lemma concat_drop_empty (q : list (option bytes)) :
  concat (omap (λ d, match d with Some (_ :: _) => d | _ => None end) q) = concat (omap id q).
Proof.
  induction q as [|[[|b d]|] q IH]; [done| | |]; cbn [omap list_omap id concat app]; try exact IH.
  cbn [concat]. by rewrite IH.
Qed.

Lemma client_step_spec c o :
  queue_ok c → is_Some (session c) →
  let c' := client_step c o in
  queue_ok c' ∧ is_Some (session c') ∧ (closing c = true → closing c' = true) ∧
  ∃ d, stream c' = stream c ++ d ∧
    match o with
    | Serial data => if closing c' then d = [] else d = data
    | _ => d = []
    end.
Proof.
  intros Hq [s Hs]. destruct o as [data|now|reason|]; cbn [client_step].
  - unfold feed_from_serial. rewrite Hs. destruct (closing c) eqn:Ec.
    { split_and!; [done|by exists s|done|]. exists []. cbn [fst]. rewrite Ec. by rewrite app_nil_r. }
    rewrite transparent. destruct data as [|b data].
    { split_and!; [done|by eexists|done|]. exists []. cbn. rewrite Ec. split; [|done].
      unfold stream. cbn. by rewrite app_nil_r. }
    destruct (queue_full (set_session s c)) eqn:Ef; cbn [fst].
    + split_and!; [done|by eexists|done|]. exists []. cbn. split; [|done].
      unfold stream. cbn. by rewrite app_nil_r.
    + unfold queue_full in Ef. cbn in Ef. zbool. split_and!; [|by eexists|done|].
      * unfold queue_ok. cbn. zlen.
      * exists (b :: data). cbn. rewrite Ec. split; [|done].
        unfold stream. cbn. rewrite omap_id_app, concat_app. cbn. by rewrite app_nil_r, app_assoc.
  - unfold pump_serial_to_net. destruct (outq c) as [|[d|] q] eqn:Eq; cbn [fst].
    + split_and!; [done|by exists s|done|]. exists []. by rewrite app_nil_r.
    + split_and!; [unfold queue_ok in *; cbn; rewrite Eq in Hq; zlen|by exists s|done|].
      exists []. unfold stream. cbn. rewrite Eq. cbn.
      rewrite concat_app. cbn. by rewrite !app_nil_r, <- app_assoc.
    + split_and!; [unfold queue_ok in *; cbn; rewrite zlen_nil; rewrite Eq in Hq; zlen|by exists s|done|].
      exists []. unfold stream. cbn. rewrite Eq. cbn. by rewrite concat_app, concat_drop_empty, !app_nil_r.
  - split_and!; [done|by exists s|done|]. exists []. unfold stream. cbn. by rewrite app_nil_r.
  - unfold request_graceful_close. destruct (closing c) eqn:Ec.
    { split_and!; [done|by exists s|done|]. exists []. by rewrite app_nil_r. }
    unfold queue_full. cbn. destruct (Z.leb_spec (queue_max c) (zlen (outq c))); cbn.
    + split_and!; [done|by exists s|done|]. exists []. unfold stream. cbn. by rewrite app_nil_r.
    + split_and!; [unfold queue_ok; cbn; zlen|by exists s|done|]. exists []. unfold stream. cbn.
      rewrite omap_id_app. cbn. by rewrite !app_nil_r.
Qed.

Lemma client_run_spec ops c :
  queue_ok c → is_Some (session c) →
  let c' := foldl client_step c ops in
  queue_ok c' ∧ (closing c = true → closing c' = true) ∧
  ∃ k, stream c' = stream c ++ concat (take k (serial_data ops)) ∧
       (closing c' = false → concat (take k (serial_data ops)) = concat (serial_data ops)) ∧
       (closing c = true → k = O).
Proof.
  revert c. induction ops as [|o ops IH]; intros c Hq Hs; cbn [foldl].
  { split_and!; [done..|]. exists O. cbn. by rewrite app_nil_r. }
  destruct (client_step_spec c o Hq Hs) as (Hq' & Hs' & Hc & d & Hd & Ho).
  destruct (IH _ Hq' Hs') as (Hq2 & Hc2 & k & Hk & Hall & Hz).
  split_and!; [done|by auto|]. set (c1 := client_step c o) in *.
  assert (closing c = true → d = []) as Hdc.
  { intros E. destruct o as [data| | |]; try done. by rewrite (Hc E) in Ho. }
  rewrite Hd, <- app_assoc in Hk. destruct o as [data| | |].
  2-4: subst d; cbn [serial_data omap list_omap]; exists k; split_and!; auto.
  change (serial_data (Serial data :: ops)) with (data :: serial_data ops).
  destruct (closing c1) eqn:Ec1.
  - subst d. exists O. rewrite Hz in Hk by done. split_and!; [done| |done]. by rewrite (Hc2 eq_refl).
  - subst d. exists (Datatypes.S k). split_and!; [done|cbn; intros E; by rewrite (Hall E)|].
    intros E. by specialize (Hc E).
Qed.

(** What begins the closing of a client: it is kicked, a closeon pattern matched, or it is too slow for what was read. *)
Definition begins_closing (c : client S) (o : client_op) : Prop :=
  match o with
  | Kick _ | GracefulClose => True
  | Serial data => data ≠ [] ∧ queue_max c <= zlen (outq c)
  | Pump _ => False
  end.
Lemma closing_begins c o : is_Some (session c) → closing c = false → closing (client_step c o) = true → begins_closing c o.
Proof.
  intros [s Hs] Hc. destruct o as [data|now|reason|]; cbn [client_step begins_closing]; try done.
  - unfold feed_from_serial. rewrite Hs, Hc, transparent. destruct data as [|b data]; cbn [fst]; [cbn; congruence|].
    destruct (queue_full _) eqn:Ef; cbn; [|congruence]. intros _. unfold queue_full in Ef. cbn in Ef. by apply Z.leb_le in Ef.
  - unfold pump_serial_to_net. destruct (outq c) as [|[]]; cbn; congruence.
Qed.
(** C6: what a client of a session that passes serial data on as it is (raw) receives, or has waiting, is exactly the serial data
    read from when it entered until its closing began: contiguous, in order, nothing lost, repeated or added. Its closing begins only when it is
    kicked, when a closeon pattern matches, or when data comes that its full queue has no room for; as long as none of that
    happens it misses nothing. Its queue never holds more than [client_queue_max] chunks. *)
Theorem client_stream_contiguous ops c :
  queue_ok c → is_Some (session c) → closing c = false →
  let c' := foldl client_step c ops in
  zlen (outq c') <= queue_max c ∧
  ∃ before after, ops = before ++ after ∧ closing (foldl client_step c before) = false ∧
    concat (sent c') ++ concat (omap id (outq c')) = concat (sent c) ++ concat (omap id (outq c)) ++ concat (serial_data before) ∧
    match after with [] => True | o :: _ => closing c' = true ∧ begins_closing (foldl client_step c before) o end.
Proof.
  intros Hq Hs Hc. cbn zeta. split.
  - destruct (client_run_spec ops c Hq Hs) as (Hq' & _).
    assert (∀ ops c, queue_max (foldl client_step c ops) = queue_max c) as Hmax.
    { clear. induction ops as [|o ops IH]; intros c; [done|]. cbn [foldl]. rewrite IH.
      destruct o; cbn [client_step]; [|unfold pump_serial_to_net; by destruct (outq c) as [|[]]|done|].
      - unfold feed_from_serial. destruct (session c); [|done]. destruct (closing c); [done|].
        destruct (from_serial data s) as [[|b net] s']; [done|]. by destruct (queue_full _).
      - unfold request_graceful_close. destruct (closing c); [done|]. by destruct (queue_full _). }
    unfold queue_ok in Hq'. by rewrite Hmax in Hq'.
  - revert c Hq Hs Hc. induction ops as [|o ops IH]; intros c Hq Hs Hc.
    { exists [], []. cbn. by rewrite app_nil_r. }
    destruct (client_step_spec c o Hq Hs) as (Hq' & Hs' & _ & d & Hd & Ho). unfold stream in Hd. cbn [foldl]. set (c1 := client_step c o) in *.
    destruct (closing c1) eqn:E1.
    + exists [], (o :: ops). destruct (client_run_spec ops c1 Hq' Hs') as (_ & Hc2 & k & Hk & _ & Hz). unfold stream in Hk.
      rewrite (Hz E1) in Hk. split_and!; [done|done| |by apply Hc2|by apply closing_begins].
      rewrite Hk, Hd. cbn. destruct o; subst d; by rewrite !app_nil_r.
    + destruct (IH c1 Hq' Hs' E1) as (before & after & -> & Hb & Hk & Ha). exists (o :: before), after. split_and!; [done|done| |done].
      rewrite Hk, app_assoc, Hd, <- !app_assoc. do 2 f_equal. by destruct o; subst d.
Qed.
End client_stream.

Definition raw_client : client Raw.RawSession :=
  run_start Raw.mkRaw [] (_ClientConn 1 (str "10.0.0.2:4000") false 0 2).
Lemma raw_transparent data (s : Raw.RawSession) : from_serial data s = (data, s).
Proof. done. Qed.
Lemma client_stream_contiguous_witness :
  let ops := [Serial [1; 2]; Serial [3]; Pump 5; Serial [4]; Serial [5]; Pump 6] in
  let c' := foldl client_step raw_client ops in
  zlen (outq c') <= 2 ∧
  ∃ before after, ops = before ++ after ∧ closing (foldl client_step raw_client before) = false ∧
    concat (sent c') ++ concat (omap id (outq c')) = concat (sent raw_client) ++ concat (omap id (outq raw_client)) ++ concat (serial_data before) ∧
    match after with [] => True | o :: _ => closing c' = true ∧ begins_closing (foldl client_step raw_client before) o end.
Proof.
  apply (client_stream_contiguous raw_transparent _ raw_client).
  - vm_compute. intros E. discriminate E.
  - by eexists.
  - reflexivity.
Defined.

(** ** closeon *)
Lemma is_prefix_spec p l : is_prefix p l = true ↔ ∃ post, l = p ++ post.
Proof.
  revert l. induction p as [|x p IH]; intros l; [by split; [exists l|]|]. destruct l as [|y l].
  { split; [done|by intros [? ?]]. }
  cbn [is_prefix]. rewrite andb_true_iff, Z.eqb_eq, IH. split.
  - intros [-> [post ->]]. by exists post.
  - intros [post [= -> ->]]. split; [done|by exists post].
Qed.
Lemma contains_spec p l : contains p l = true ↔ ∃ pre post, l = pre ++ p ++ post.
Proof.
  induction l as [|x l IH]; cbn [contains]; rewrite orb_true_iff, is_prefix_spec.
  - split.
    + intros [[post E]|?]; [by exists [], post|done].
    + intros (pre & post & E). left. exists post. by destruct pre.
  - rewrite IH. split.
    + intros [[post E]|(pre & post & ->)]; [by exists [], post|by exists (x :: pre), post].
    + intros ([|y pre] & post & E); [left; by exists post|right]. injection E as -> ->.
      by exists pre, post.
Qed.
Lemma contains_app_r p a b : contains p b = true → contains p (a ++ b) = true.
Proof.
  rewrite !contains_spec. intros (pre & post & ->). exists (a ++ pre), post. by rewrite <- app_assoc.
Qed.

(** A pattern that is not in [a] appears in [a ++ d] exactly when it appears in the window kept. *)
Lemma contains_window p a d :
  p ≠ [] → contains p a = false →
  contains p (last_n (zlen p - 1) a ++ d) = contains p (a ++ d).
Proof.
  intros Hp Ha. unfold last_n. set (n := (length a - _)%nat).
  destruct (contains p (a ++ d)) eqn:E.
  - apply contains_spec in E as (pre & post & E). apply contains_spec.
    assert (length a < length pre + length p)%nat as Hlt.
    { apply Nat.nle_gt. intros Hle. assert (contains p a = true) as Ha'; [|congruence].
      apply contains_spec. exists pre, (take (length a - length pre - length p) post).
      apply (f_equal (take (length a))) in E. rewrite take_app_length in E.
      rewrite E at 1. by rewrite !take_app, (take_ge pre), (take_ge p) by lia. }
    assert (n <= length pre)%nat as Hn.
    { unfold n, zlen. destruct p; [done|]. simpl in *. lia. }
    exists (drop n pre), post. apply (f_equal (drop n)) in E.
    rewrite drop_app_le in E by (unfold n; lia). rewrite E. by rewrite drop_app_le by lia.
  - destruct (contains p (drop n a ++ d)) eqn:E2; [|done]. rewrite <- E. symmetry.
    rewrite <- (take_drop n a), <- app_assoc. by apply contains_app_r.
Qed.
Lemma last_n_app {A} n (a d : list A) : 0 <= n → last_n n (last_n n a ++ d) = last_n n (a ++ d).
Proof.
  intros Hn. unfold last_n. rewrite length_app, length_drop, length_app.
  rewrite !drop_app. rewrite drop_drop, length_drop. f_equal; f_equal; lia.
Qed.

Section closeon.
Context {S : Type} `{ProtocolSession S}.

Definition read_all (chunks : list bytes) (r : runner S) : runner S := foldl (λ r d, serial_read d r) r chunks.
Definition broadcast_all (chunks : list bytes) (r : runner S) : runner S := foldl (λ r d, broadcast d r) r chunks.

Lemma read_all_quiet p chunks r seen :
  p ≠ [] → closeon r = p → closeon_tail r = last_n (zlen p - 1) seen →
  contains p (seen ++ concat chunks) = false →
  let r' := read_all chunks r in
  closeon r' = p ∧ closeon_tail r' = last_n (zlen p - 1) (seen ++ concat chunks) ∧
  clients r' = clients (broadcast_all chunks r).
Proof.
  intros Hp. revert r seen. induction chunks as [|d chunks IH]; intros r seen Hc Ht Hno.
  { cbn. by rewrite app_nil_r. }
  cbn [concat] in Hno. rewrite app_assoc in Hno.
  assert (contains p (seen ++ d) = false) as Hd.
  { destruct (contains p (seen ++ d)) eqn:E; [|done]. rewrite <- Hno. symmetry.
    apply contains_spec in E as (pre & post & ->). apply contains_spec.
    exists pre, (post ++ concat chunks). by rewrite <- !app_assoc. }
  assert (contains p seen = false) as Hs.
  { destruct (contains p seen) eqn:E; [|done]. rewrite <- Hd. symmetry.
    apply contains_spec in E as (pre & post & ->). apply contains_spec.
    exists pre, (post ++ d). by rewrite <- !app_assoc. }
  assert (closeon (serial_read d r) = p ∧
    closeon_tail (serial_read d r) = last_n (zlen p - 1) (seen ++ d) ∧
    clients (serial_read d r) = clients (broadcast d r)) as (H1 & H2 & H3).
  { unfold serial_read. cbn [closeon broadcast]. change (closeon (broadcast d r)) with (closeon r).
    rewrite Hc. destruct p as [|x p0] eqn:Epp; [done|]. rewrite <- Epp in *.
    unfold _check_closeon. change (closeon (broadcast d r)) with (closeon r).
    change (closeon_tail (broadcast d r)) with (closeon_tail r). rewrite Hc, Ht.
    rewrite contains_window by (subst p; done). rewrite Hd.
    destruct (Z.ltb_spec 1 (zlen p)).
    - cbn. split_and!; [done| |done]. apply last_n_app. lia.
    - split_and!; [done| |done]. change (closeon_tail (broadcast d r)) with (closeon_tail r). rewrite Ht.
      assert (zlen p - 1 <= 0) by lia. unfold last_n.
      replace (Z.to_nat (zlen p - 1)) with O by lia. rewrite !Nat.sub_0_r, !drop_all. done. }
  destruct (IH (serial_read d r) (seen ++ d) H1 H2 Hno) as (I1 & I2 & I3).
  cbn [concat read_all foldl]. rewrite app_assoc. split_and!; [exact I1|exact I2|].
  etransitivity; [exact I3|]. cbn [broadcast_all foldl].
  clear -H3. revert H3. generalize (serial_read d r) (broadcast d r). intros r1 r2.
  revert r1 r2. induction chunks as [|e chunks IH]; intros r1 r2 E; [done|].
  cbn [broadcast_all foldl]. apply IH. unfold broadcast. cbn. by rewrite E.
Qed.

(** closeon fires exactly when the configured string first appears in the serial stream, however
    the reads cut it: as long as the data read does not contain it the clients are only fed; the
    read that completes it asks every client to close, after being fed that read too. *)
Theorem closeon_exact chunks data r :
  closeon r ≠ [] → closeon_tail r = [] → contains (closeon r) (concat chunks) = false →
  let r' := read_all chunks r in
  clients r' = clients (broadcast_all chunks r) ∧
  clients (serial_read data r') =
    (if contains (closeon r) (concat chunks ++ data) then request_graceful_close <$> clients (broadcast data r')
     else clients (broadcast data r')) ∧
  Forall (λ c, closing c = true) (request_graceful_close <$> clients (broadcast data r')).
Proof.
  intros Hp Ht Hno r'.
  destruct (read_all_quiet (closeon r) chunks r [] Hp eq_refl) as (H1 & H2 & H3); [|done|].
  { rewrite Ht. unfold last_n. by rewrite drop_nil. }
  fold r' in H1, H2, H3. split_and!; [done| |].
  - unfold serial_read. change (closeon (broadcast data r')) with (closeon r'). rewrite H1.
    destruct (closeon r) as [|x p] eqn:Ep; [done|]. rewrite <- Ep in *.
    unfold _check_closeon. change (closeon (broadcast data r')) with (closeon r').
    change (closeon_tail (broadcast data r')) with (closeon_tail r'). rewrite H1, H2.
    rewrite contains_window by done. cbn [app].
    destruct (contains (closeon r) (concat chunks ++ data)); [done|]. by destruct (_ <? _).
  - apply Forall_fmap, Forall_true. intros c. cbn. unfold request_graceful_close.
    destruct (closing c) eqn:E; [done|]. by destruct (queue_full _).
Qed.
End closeon.

Definition quiet_runner (cs : list (client Raw.RawSession)) (pattern : bytes) : runner Raw.RawSession :=
  mkRunner 4 false false [] [] pattern [] cs true [] 0 0 0 0 (zlen cs).
Lemma closeon_exact_witness :
  let r := quiet_runner [raw_client] (str "BYE") in
  let r' := read_all [str "xB"; str "Y"] r in
  clients r' = clients (broadcast_all [str "xB"; str "Y"] r) ∧
  clients (serial_read (str "E!") r') =
    (if contains (str "BYE") (concat [str "xB"; str "Y"] ++ str "E!")
     then request_graceful_close <$> clients (broadcast (str "E!") r')
     else clients (broadcast (str "E!") r')) ∧
  Forall (λ c, closing c = true) (request_graceful_close <$> clients (broadcast (str "E!") r')).
Proof.
  apply (closeon_exact [str "xB"; str "Y"] (str "E!") (quiet_runner [raw_client] (str "BYE")));
    [done|reflexivity|reflexivity].
Defined.

(** ** Network to serial *)
Section network.
Context {S : Type} `{StreamingSession S}.

(** The bytes a client's reads send towards the serial port. *)
Definition to_serial (now : Z) (chunks : list bytes) (c : client S) : client S * bytes :=
  foldl (λ '(c, out) d, let '(c', b) := pump_net_to_serial false now d c in (c', out ++ b))
        (c, []) chunks.

Lemma pump_session now d c s :
  session c = Some s →
  pump_net_to_serial false now d c =
    (let '(out, s1) := from_network d s in
     let '(ctrl, s2) := take_net_out s1 in
     (put_suppressed ctrl (set_session s2 (set_activity now c)), out)).
Proof.
  intros Hs. unfold pump_net_to_serial. rewrite Hs.
  destruct (from_network d s) as [out s1]. by destruct (take_net_out s1).
Qed.
Lemma put_suppressed_session b (c : client S) : session (put_suppressed b c) = session c.
Proof. unfold put_suppressed. destruct b; [done|]. by destruct (queue_full c). Qed.

Lemma to_serial_from chunks now c s s' out :
  session c = Some s → decodes_as s s' →
  (foldl (λ '(c, out) d, let '(c', b) := pump_net_to_serial false now d c in (c', out ++ b))
     (c, out) chunks).2 = out ++ (from_network (concat chunks) s').1.
Proof.
  revert c s s' out. induction chunks as [|d chunks IH]; intros c s s' out Hs Hd; cbn [foldl concat].
  - by rewrite from_network_nil, app_nil_r.
  - rewrite (pump_session now d c s Hs). rewrite from_network_app.
    destruct (from_network_decodes d s s' Hd) as [E1 E2].
    destruct (from_network d s) as [o1 s1] eqn:En, (from_network d s') as [o1' s1'].
    cbn [fst snd] in E1, E2. subst o1'.
    pose proof (take_decodes s1 s1' E2) as E3. destruct (take_net_out s1) as [ctrl s2].
    rewrite (IH _ s2 s1'); [|by rewrite put_suppressed_session|done].
    destruct (from_network (concat chunks) s1') as [o2 s3]. by rewrite <- app_assoc.
Qed.

(** how TCP cuts a client's stream into reads does not matter to the device: the bytes sent to
    the serial port are those of decoding the whole stream at once, even though the session's
    pending replies are collected after every read. *)
Theorem network_chunking now chunks c s :
  session c = Some s → (to_serial now chunks c).2 = (from_network (concat chunks) s).1.
Proof. intros Hs. unfold to_serial. by apply (to_serial_from chunks now c s s []), decodes_refl. Qed.
End network.

Definition telnet_client : client TelnetSession :=
  run_start Telnet.new [] (_ClientConn 7 (str "10.0.0.9:4001") false 0 64).
Definition telnet_chunks : list bytes := [[65; 255]; [255; 66; 255; 253]; [1; 67]].
Lemma network_chunking_witness :
  (to_serial 9 telnet_chunks telnet_client).2
  = (from_network (concat telnet_chunks) (take_net_out Telnet.new).2).1.
Proof. apply (network_chunking 9 telnet_chunks telnet_client). reflexivity. Defined.

(** ** Read-only mappings *)
Section access.
Context {S : Type} `{ProtocolSession S}.

(** on a read-only mapping nothing a network peer sends reaches the device, over TCP (whatever
    the protocol and whatever state the client is in) or UDP; and a datagram from a source that is
    not allowed changes nothing at all. *)
Theorem read_only_isolated (r : runner S) (u : udp) id now data addr :
  (read_only r = true → serial_out (client_read id now data r) = serial_out r) ∧
  (u_read_only u = true → u_serial_out (datagram_received data addr u) = u_serial_out u) ∧
  (u_allowed u ≠ [] → _ip_in_nets addr.1 (u_allowed u) = false → datagram_received data addr u = u).
Proof.
  split_and!.
  - intros Hro. unfold client_read. destruct (List.find _ _) as [c|]; [|done].
    assert ((pump_net_to_serial (read_only r) now data c).2 = []) as E.
    { unfold pump_net_to_serial. rewrite Hro. destruct (session c) as [s|]; [|done].
      destruct (from_network data s) as [o s1]. by destruct (take_net_out s1). }
    by destruct (pump_net_to_serial (read_only r) now data c) as [c' b]; simpl in E; subst b.
  - intros Hro. unfold datagram_received. rewrite Hro. by destruct (negb _).
  - intros Hne Hno. unfold datagram_received. destruct (u_allowed u); [done|]. by rewrite Hno.
Qed.

(** ** Admission *)
Lemma oldest_spec (c : client S) pool :
  oldest c pool ∈ c :: pool ∧ Forall (λ d, connected_at (oldest c pool) <= connected_at d) (c :: pool).
Proof.
  revert c. induction pool as [|d pool IH]; intros c; cbn [oldest].
  { split; [by left|]. apply Forall_cons. split; [lia|by apply Forall_nil]. }
  destruct (Z.ltb_spec (connected_at d) (connected_at c)).
  - destruct (IH d) as [H1 H2]. split; [right; exact H1|].
    apply Forall_cons. split; [|done]. apply Forall_cons in H2 as [? _]. lia.
  - destruct (IH c) as [H1 H2]. apply Forall_cons in H2 as [Hc H2].
    split; [|apply Forall_cons; split; [done|apply Forall_cons; split; [lia|done]]].
    apply elem_of_cons in H1 as [-> |H1]; [left|right; by right].
Qed.
End access.

Section admission.
Context {S : Type} `{ProtocolSession S}.

Definition ids_distinct (cs : list (client S)) : Prop := NoDup (c_id <$> cs).
Definition live (cs : list (client S)) : list (client S) := List.filter (λ c, negb (closing c)) cs.

Lemma pick_victim_spec (cs : list (client S)) v :
  _pick_victim cs = Some v →
  v ∈ cs ∧ (priority v = true → Forall (λ c, priority c = true) cs) ∧
  (∀ c, c ∈ cs → priority c = priority v → connected_at v <= connected_at c).
Proof.
  unfold _pick_victim. intros Hv.
  destruct (List.filter (λ c, negb (priority c)) cs) as [|p ps] eqn:E.
  - destruct cs as [|c cs]; [done|]. injection Hv as <-.
    destruct (oldest_spec c cs) as [H1 H2]. rewrite Forall_forall in H2. split_and!; [done| |by auto].
    intros _. apply Forall_forall. intros d Hd. destruct (priority d) eqn:Ed; [done|].
    assert (d ∈ List.filter (λ c, negb (priority c)) (c :: cs)) as Hin.
    { apply list_elem_of_In, List.filter_In. split; [by apply list_elem_of_In|by rewrite Ed]. }
    rewrite E in Hin. by apply not_elem_of_nil in Hin.
  - injection Hv as <-. destruct (oldest_spec p ps) as [H1 H2]. rewrite <- E in H1, H2.
    apply list_elem_of_In, List.filter_In in H1 as [H1 Hp]. apply list_elem_of_In in H1. zbool.
    rewrite Forall_forall in H2. split_and!; [done|congruence|].
    intros c Hc Hpc. apply H2, list_elem_of_In, List.filter_In.
    split; [by apply list_elem_of_In|]. by rewrite Hpc, Hp.
Qed.

Lemma check_spec ip peer (r : runner S) :
  ids_distinct (clients r) → 1 <= max_connections r →
  let '(v, r') := on_client_check ip peer r in
  priority_nets r' = priority_nets r ∧
  if negb (_client_allowed ip r) then v = Some NotAllowed ∧ r' = r
  else if zlen (clients r) <? max_connections r then v = None ∧ r' = r
  else if negb (_ip_in_nets ip (priority_nets r) || kick_old_user r) then v = Some Busy ∧ r' = r
  else
    v = None ∧ ∃ victim reason,
      victim ∈ clients r ∧
      (priority victim = true → Forall (λ c, priority c = true) (clients r)) ∧
      (∀ c, c ∈ clients r → priority c = priority victim → connected_at victim <= connected_at c) ∧
      clients r' = (λ c, if c_id c =? c_id victim then kick reason c else c) <$> clients r ∧
      zlen (live (clients r')) <= zlen (clients r) - 1.
Proof.
  intros Hids Hmax. unfold on_client_check. destruct (negb (_client_allowed ip r)); [done|].
  rewrite Z.leb_antisym. destruct (Z.ltb_spec (zlen (clients r)) (max_connections r)) as [Hlt|Hge]; [done|].
  cbn [negb]. destruct (_ip_in_nets ip (priority_nets r) || kick_old_user r); [|done]. cbn [negb].
  destruct (_pick_victim (clients r)) as [v|] eqn:Ev.
  - destruct (pick_victim_spec _ _ Ev) as (Hv & Hp & Ho). split; [done|]. split; [done|].
    eexists v, _. split_and!; [done..|reflexivity|]. cbn [clients set_clients].
    set (reason := str "kicked for " ++ _ ++ _). clearbody reason. clear -Hids Hv.
    induction (clients r) as [|c cs IH]; [by apply not_elem_of_nil in Hv|].
    unfold ids_distinct in *. cbn in Hids. apply NoDup_cons in Hids as [Hc Hids].
    cbn [fmap list_fmap live List.filter]. rewrite zlen_cons. destruct (Z.eqb_spec (c_id c) (c_id v)) as [E|E].
    + cbn [closing kick set_aborted set_closing negb].
      assert (∀ (l : list (client S)) f, zlen (List.filter f l) <= zlen l) as Hfl.
      { clear. intros l f. induction l as [|x l IH]; [done|]. cbn. destruct (f x); zlen. }
      etransitivity; [apply Hfl|]. change (list_fmap _ _ ?f ?l) with (f <$> l). rewrite zlen_fmap. lia.
    + apply elem_of_cons in Hv as [->|Hv]; [done|]. specialize (IH Hids Hv).
      unfold live in IH. change (list_fmap _ _ ?f ?l) with (f <$> l) in *.
      destruct (negb (closing c)); zlen.
  - exfalso. unfold _pick_victim in Ev. destruct (clients r) as [|c cs] eqn:Ec; [zlen|].
    by destruct (List.filter (λ c, negb (priority c)) (c :: cs)).
Qed.
(** C17: who gets in. A peer that is not allowed is refused, and so is an ordinary peer on a full mapping unless
    [kick_old_user] is set: then nothing changes. On a full mapping any other peer has exactly one client kicked: the oldest ordinary one, and a
    priority client only when there is no ordinary client left; with a free slot nobody is disturbed. Such a peer enters, last
    in the list and with the priority of its address, except an RFC2217 client for which the serial port does not become
    ready in time: that one is refused, after the kick. *)
Theorem admission_decision rfc2217 ready later id now qmax ip peer (r : runner S) :
  ids_distinct (clients r) → 1 <= max_connections r →
  let '(v, r') := on_client rfc2217 ready later id now qmax ip peer r in
  if negb (_client_allowed ip r) then v = NotAllowed ∧ r' = r
  else if negb (zlen (clients r) <? max_connections r) && negb (_ip_in_nets ip (priority_nets r) || kick_old_user r) then v = Busy ∧ r' = r
  else
    v = (if rfc2217 && negb (ready || later) then NotReady else Enter)
    ∧ ∃ others, clients r' = others ++ (if rfc2217 && negb (ready || later) then [] else [_ClientConn id peer (_ip_in_nets ip (priority_nets r)) now qmax])
      ∧ if zlen (clients r) <? max_connections r then others = clients r
        else ∃ victim reason,
          victim ∈ clients r ∧
          (priority victim = true → Forall (λ c, priority c = true) (clients r)) ∧
          (∀ c, c ∈ clients r → priority c = priority victim → connected_at victim <= connected_at c) ∧
          others = (λ c, if c_id c =? c_id victim then kick reason c else c) <$> clients r ∧
          zlen (live others) <= zlen (clients r) - 1.
Proof.
  intros Hids Hmax. assert (rfc2217 && negb (ready || later) = not_ready rfc2217 ready later) as -> by by destruct rfc2217, ready, later.
  unfold on_client. pose proof (check_spec ip peer r Hids Hmax) as Hc. destruct (on_client_check ip peer r) as [v r1].
  destruct Hc as [Hn Hc]. destruct (negb (_client_allowed ip r)); [by destruct Hc as [-> ->]|].
  destruct (zlen (clients r) <? max_connections r) eqn:Ef; cbn [negb andb].
  { destruct Hc as [-> ->]. destruct (not_ready _ _ _); (split; [done|]); exists (clients r); [by rewrite app_nil_r|by split]. }
  destruct (negb (_ || _)); [by destruct Hc as [-> ->]|]. destruct Hc as (-> & victim & reason & H1 & H2 & H3 & H4 & H5).
  destruct (not_ready _ _ _); (split; [done|]); exists (clients r1); (split; [by rewrite ?app_nil_r, <- ?Hn|by exists victim, reason]).
Qed.
End admission.

Definition full_runner : runner Raw.RawSession :=
  mkRunner 2 false false [] (_parse_nets [str "10.9.0.0/16"]) [] []
    [_ClientConn 1 (str "a") true 10 16; _ClientConn 2 (str "b") false 20 16] true [] 0 0 0 0 2.
Lemma admission_decision_witness :
  let r := full_runner in
  let '(v, r') := on_client false false false 3 30 16 (str "10.9.1.1") (str "10.9.1.1:5") r in
  v = Enter ∧ ∃ others, clients r' = others ++ [_ClientConn 3 (str "10.9.1.1:5") true 30 16] ∧ ∃ victim reason,
    victim ∈ clients r ∧
    (priority victim = true → Forall (λ c, priority c = true) (clients r)) ∧
    (∀ c, c ∈ clients r → priority c = priority victim → connected_at victim <= connected_at c) ∧
    others = (λ c, if c_id c =? c_id victim then kick reason c else c) <$> clients r ∧
    zlen (live others) <= 1.
Proof.
  cbv zeta. pose proof (admission_decision false false false 3 30 16 (str "10.9.1.1") (str "10.9.1.1:5") full_runner) as Ha.
  destruct (on_client _ _ _ _ _ _ _ _ full_runner) as [v r'].
  apply Ha; [apply (bool_decide_unpack _); vm_compute; exact I|done].
Defined.
(** An RFC2217 client that the port keeps waiting has another one kicked, and is refused itself. *)
Example kicked_for_nobody :
  let '(v, r') := on_client true false false 3 30 16 (str "10.9.1.1") (str "10.9.1.1:5") full_runner in
  (v, c_id <$> live (clients r')) = (NotReady, [1]).
Proof. vm_compute. reflexivity. Qed.

(** A kicked client stays listed until its task ends, and is picked as the victim again: two
    priority peers that arrive in the meantime are both let in on a mapping of one connection. *)
Definition priority_runner : runner Raw.RawSession :=
  mkRunner 1 false false [] (_parse_nets [str "10.9.0.0/16"]) [] []
    [_ClientConn 1 (str "a") false 10 16] true [] 0 0 0 0 1.
Example priority_overshoot :
  let r1 := (on_client false true true 2 20 16 (str "10.9.0.1") (str "10.9.0.1:1") priority_runner).2 in
  let r2 := (on_client false true true 3 30 16 (str "10.9.0.2") (str "10.9.0.2:1") r1).2 in
  max_connections r2 = 1 ∧ zlen (live (clients (on_client_gone 1 [] r2))) = 2.
Proof. split; vm_compute; reflexivity. Qed.

(** The wait of an RFC2217 client lies between the check and the addition: two clients that arrive
    during it are both let in. *)
Example rfc2217_overshoot :
  let r := mkRunner 1 false false [] [] [] [] ([] : list (client Raw.RawSession)) false [] 0 0 0 0 0 in
  let '(v1, r1) := on_client_check (str "10.0.0.1") (str "10.0.0.1:1") r in
  let '(v2, r2) := on_client_check (str "10.0.0.2") (str "10.0.0.2:1") r1 in
  let r3 := on_client_enter (_ClientConn 2 (str "b") false 2 16)
              (on_client_enter (_ClientConn 1 (str "a") false 1 16) r2) in
  (v1, v2) = (None, None) ∧ zlen (live (clients r3)) = 2.
Proof. split; vm_compute; reflexivity. Qed.

(** the allow list sees one client per host: an IPv4 client is let in, refused and given
    priority alike whether it arrives over IPv4 or IPv4-mapped on a dual-stack socket; with an empty
    list everyone may connect. *)
Theorem allow_list_mapped {S} (r : runner S) ip a nets :
  parse_ipv4 ip = Some a →
  _client_allowed (str "::ffff:" ++ ip) r = _client_allowed ip r ∧
  _ip_in_nets (str "::ffff:" ++ ip) nets = _ip_in_nets ip nets ∧
  (allowed_nets r = [] → _client_allowed ip r = true).
Proof.
  intros Ha. split_and!; [|by eapply mapped_same_lists|].
  - unfold _client_allowed. destruct (allowed_nets r); [done|]. by eapply mapped_same_lists.
  - unfold _client_allowed. by intros ->.
Qed.
Lemma allow_list_mapped_witness :
  _client_allowed (str "::ffff:" ++ str "10.9.0.7") full_runner = _client_allowed (str "10.9.0.7") full_runner ∧
  _ip_in_nets (str "::ffff:" ++ str "10.9.0.7") (priority_nets full_runner)
    = _ip_in_nets (str "10.9.0.7") (priority_nets full_runner) ∧
  (allowed_nets full_runner = [] → _client_allowed (str "10.9.0.7") full_runner = true).
Proof. apply (allow_list_mapped full_runner (str "10.9.0.7") 168361991). vm_compute. reflexivity. Defined.

