(* ===== verification/Runner.v ===== *)
(** * The life of a runner (app/engine/bridge.py, MappingRunner)

    [start] and [stop], the supervisor of the serial port with its retries, the connect-out and serial-bridge
    drivers, and the readers they run, as tasks that interleave at their awaits. A task's state is the
    await it is suspended at; a [wake] is what that await gives, and leads to the next one. Ports of the system are
    handles: [true] while open, [false] while closing, absent once the system has released them. What
    clients and serial data do is in [Bridge]; the runner holds its record. Times are milliseconds. *)
From S2P Require Import Prelude PyFloat PyStr PyVal IpAddr Protocols Bridge.
#[local] Open Scope Z_scope.

(** ** Why a connection ended *)
(** What the handlers look at in an exception: its class, its codes (0 when missing) and its text. *)
Inductive exc_kind := XDisconnect | XConnectionReset | XIncompleteRead | XOSError | XException | XBase.
Record exc := mkExc { x_kind : exc_kind; x_class : pystr; x_winerror : Z; x_errno : Z; x_text : pystr }.
(** Exception groups, nested as task groups nest them. *)
Inductive exc_group := Leaf (e : exc) | Group (l : list exc_group).
Fixpoint _iter_leaf_exceptions (g : exc_group) : list exc :=
  match g with
  | Leaf e => [e]
  | Group l => (fix go l := match l with [] => [] | g :: l => _iter_leaf_exceptions g ++ go l end) l
  end.
(** [etimedout] is the platform's ETIMEDOUT. *)
Definition _PEER_TIMEOUT_ERRNOS (etimedout : Z) : list Z := [etimedout; 10060; 10052; 121].
Definition describe_disconnect (win32 : bool) (etimedout : Z) (e : exc) : pystr :=
  match x_kind e with
  | XDisconnect => x_text e
  | k =>
      let code := if x_winerror e =? 0 then x_errno e else x_winerror e in
      if existsb (Z.eqb code) (_PEER_TIMEOUT_ERRNOS etimedout)
      then str "peer stopped responding (TCP timeout: unreachable, or not reading its data)"
      else
        match k with
        | XConnectionReset =>
            if win32 then str "connection reset (by the peer, or TCP keepalive found it unreachable)"
            else str "connection reset by peer"
        | XIncompleteRead => str "closed by peer"
        | _ => match x_text e with [] => x_class e | t => x_class e ++ str ": " ++ t end
        end
  end.
Definition is_normal (e : exc) : bool := match x_kind e with XException | XBase => false | _ => true end.
Definition is_base (e : exc) : bool := match x_kind e with XBase => true | _ => false end.
(** The [except] of [_ClientConn.run]: the reason of the connection, the exceptions logged as unexpected, and
    those that go on. *)
Definition session_end (win32 : bool) (etimedout : Z) (reason : pystr) (g : exc_group) : pystr * list exc * list exc :=
  let leaves := _iter_leaf_exceptions g in
  let others := List.filter (λ e, negb (is_normal e)) leaves in
  let reason' := match List.filter is_normal leaves, reason with
                 | e :: _, [] => describe_disconnect win32 etimedout e
                 | _, _ => reason
                 end in
  (reason', List.filter (λ e, negb (is_base e)) others, List.filter is_base others).

(** ** Connecting out *)
Inductive connect_result := Connected | OsTimeout (msg : pystr) | OurTimeout | OsError (msg : pystr) | Raised (msg : pystr).
(** One resolved address after the other, each with its own time; the error is the last one, and anything that
    is not an OS error ends the attempt. [limit] is the text of [connect_timeout_s]. *)
Fixpoint try_addresses (limit : pystr) (error : pystr) (l : list connect_result) : pystr + unit :=
  match l with
  | [] => inl error
  | Connected :: _ => inr tt
  | OsTimeout m :: l | OsError m :: l => try_addresses limit m l
  | OurTimeout :: l => try_addresses limit (str "timed out after " ++ limit ++ str "s") l
  | Raised m :: _ => inl m
  end.
Definition _connect_out (limit host : pystr) (l : list connect_result) : pystr + unit :=
  try_addresses limit (str "no address for " ++ host) l.
Lemma connects_if_one_does limit host l :
  Forall (λ c, ∀ m, c ≠ Raised m) l → (_connect_out limit host l = inr tt ↔ Connected ∈ l).
Proof.
  unfold _connect_out. generalize (str "no address for " ++ host). induction l as [|c l IH]; intros e Hl; cbn [try_addresses].
  { split; [done|]. by intros ?%elem_of_nil. }
  apply Forall_cons in Hl as [Hc Hl]. rewrite elem_of_cons.
  destruct c; [by split; [left|]|..]; try (rewrite (IH _ Hl); split; [by right|by intros [|]]). by destruct (Hc msg).
Qed.

(** ** Retries *)
(** [backoff] and [attempt] of the three supervisors, in milliseconds. *)
Record retry := mkRetry { backoff : Z; attempt : Z }.
Definition retry0 : retry := mkRetry 500 0.
Definition another (t : retry) : retry := mkRetry (backoff t) (attempt t + 1).
(** [min(backoff, 10.0) + (attempt % 5) * 0.1] *)
Definition delay (t : retry) : Z := Z.min (backoff t) 10000 + (attempt t mod 5) * 100.
Definition slower (t : retry) : retry := mkRetry (Z.min (backoff t * 2) 10000) (attempt t).

(** ** Tasks *)
(** What follows a [finally]: the rest of the loop, or the end of a cancelled task. *)
Inductive after := Retry | Cancelled.
(** The serial supervisor: not yet started, opening the port, sending the open string, reading, closing, waiting, ended. *)
Inductive spc := SNew | SOpening | SOpenStr | SReading | SClosing (h : nat) (k : after) | SBackoff (until : Z) | SDone.
(** The main task: connect-out ([M]...) or serial bridge ([B]...). Of a bridge, which of its two pumps still run. *)
Inductive mpc :=
  | MNew | MConnecting | MLinked (id : Z) | MUnlinking (id : Z) (k : after)
  | BOpenA | BOpenB (a : nat) (da : pystr) | BPumping (a b : nat) (pa pb : bool) | BClosing (h : nat) (rest : list nat) (k : after)
  | MBackoff (until : Z) | MDone.
(** The calls of [start] and [stop]: at which await they are. *)
Inductive ctl_pc :=
  | Idle | StartWait | Up
  | StopServer (until : Z) | StopSerial | StopMain | StopClose (h : nat) | StopTrace | Down.
Inductive run_state := Stopped | Running | Reconnecting | DeviceMissing.
Record RunnerStatus := mkStatus { st_state : run_state; st_device : pystr; st_error : pystr; st_reconnects : Z }.
(** What a runner does to the world. *)
Inductive event :=
  | ELog (m : pystr) | ETrace (tag : pystr) (data : bytes) | EMonitor (id : Z) (data : bytes)
  | ETraffic (id : Z) (to_device : bool) (data : bytes) | EMqtt (data : bytes) | EMqttConnect | EMqttClose
  | EMonitorClosed (id : Z) | EWrite (h : nat) (data : bytes).
Inductive wake :=
  | WStart | WOpened (device : pystr) | WError (msg : pystr) | WDone | WRead (data : bytes) | WPumped (a_to_b : bool) (data : bytes)
  | WStop | WTimer | WCancel | WEnded (reason : pystr).
Inductive run_kind := ModeServer | ModeClient | ModeUdp | SerialBridge.
(** What the runner uses of its mapping. *)
Record run_cfg := mkCfg { rc_kind : run_kind; rc_mqtt : bool; rc_openstr : bytes; rc_closestr : bytes; rc_compact : pystr; rc_target : pystr }.

Definition add_z (x : Z) (l : list Z) : list Z := if existsb (Z.eqb x) l then l else l ++ [x].

Section runner.
Context {S : Type} `{ProtocolSession S} (cfg : run_cfg).

Record rt := mkRt {
  ctl : ctl_pc;
  start_failed : bool;
  stopping : bool;
  ready : bool;
  swriter : option nat;
  serial_task : option spc;
  serial_cancel : bool;
  serial_retry : retry;
  main_task : option mpc;
  main_cancel : bool;
  main_retry : retry;
  server : option bool;
  udp_open : bool;
  mqtt_on : bool;
  tracer_on : bool;
  monitors : list Z;
  traffic : list Z;
  br : Bridge.runner S;
  status : RunnerStatus;
  ports : gmap nat bool;
  next_port : nat;
  out : list event;
}.
Definition upd_ctl (x : ctl_pc) (r : rt) : rt := mkRt x (start_failed r) (stopping r) (ready r) (swriter r) (serial_task r) (serial_cancel r) (serial_retry r) (main_task r) (main_cancel r) (main_retry r) (server r) (udp_open r) (mqtt_on r) (tracer_on r) (monitors r) (traffic r) (br r) (status r) (ports r) (next_port r) (out r).
Definition upd_start_failed (x : bool) (r : rt) : rt := mkRt (ctl r) x (stopping r) (ready r) (swriter r) (serial_task r) (serial_cancel r) (serial_retry r) (main_task r) (main_cancel r) (main_retry r) (server r) (udp_open r) (mqtt_on r) (tracer_on r) (monitors r) (traffic r) (br r) (status r) (ports r) (next_port r) (out r).
Definition upd_stopping (x : bool) (r : rt) : rt := mkRt (ctl r) (start_failed r) x (ready r) (swriter r) (serial_task r) (serial_cancel r) (serial_retry r) (main_task r) (main_cancel r) (main_retry r) (server r) (udp_open r) (mqtt_on r) (tracer_on r) (monitors r) (traffic r) (br r) (status r) (ports r) (next_port r) (out r).
Definition upd_ready (x : bool) (r : rt) : rt := mkRt (ctl r) (start_failed r) (stopping r) x (swriter r) (serial_task r) (serial_cancel r) (serial_retry r) (main_task r) (main_cancel r) (main_retry r) (server r) (udp_open r) (mqtt_on r) (tracer_on r) (monitors r) (traffic r) (br r) (status r) (ports r) (next_port r) (out r).
Definition upd_swriter (x : option nat) (r : rt) : rt := mkRt (ctl r) (start_failed r) (stopping r) (ready r) x (serial_task r) (serial_cancel r) (serial_retry r) (main_task r) (main_cancel r) (main_retry r) (server r) (udp_open r) (mqtt_on r) (tracer_on r) (monitors r) (traffic r) (br r) (status r) (ports r) (next_port r) (out r).
Definition upd_serial_task (x : option spc) (r : rt) : rt := mkRt (ctl r) (start_failed r) (stopping r) (ready r) (swriter r) x (serial_cancel r) (serial_retry r) (main_task r) (main_cancel r) (main_retry r) (server r) (udp_open r) (mqtt_on r) (tracer_on r) (monitors r) (traffic r) (br r) (status r) (ports r) (next_port r) (out r).
Definition upd_serial_cancel (x : bool) (r : rt) : rt := mkRt (ctl r) (start_failed r) (stopping r) (ready r) (swriter r) (serial_task r) x (serial_retry r) (main_task r) (main_cancel r) (main_retry r) (server r) (udp_open r) (mqtt_on r) (tracer_on r) (monitors r) (traffic r) (br r) (status r) (ports r) (next_port r) (out r).
Definition upd_serial_retry (x : retry) (r : rt) : rt := mkRt (ctl r) (start_failed r) (stopping r) (ready r) (swriter r) (serial_task r) (serial_cancel r) x (main_task r) (main_cancel r) (main_retry r) (server r) (udp_open r) (mqtt_on r) (tracer_on r) (monitors r) (traffic r) (br r) (status r) (ports r) (next_port r) (out r).
Definition upd_main_task (x : option mpc) (r : rt) : rt := mkRt (ctl r) (start_failed r) (stopping r) (ready r) (swriter r) (serial_task r) (serial_cancel r) (serial_retry r) x (main_cancel r) (main_retry r) (server r) (udp_open r) (mqtt_on r) (tracer_on r) (monitors r) (traffic r) (br r) (status r) (ports r) (next_port r) (out r).
Definition upd_main_cancel (x : bool) (r : rt) : rt := mkRt (ctl r) (start_failed r) (stopping r) (ready r) (swriter r) (serial_task r) (serial_cancel r) (serial_retry r) (main_task r) x (main_retry r) (server r) (udp_open r) (mqtt_on r) (tracer_on r) (monitors r) (traffic r) (br r) (status r) (ports r) (next_port r) (out r).
Definition upd_main_retry (x : retry) (r : rt) : rt := mkRt (ctl r) (start_failed r) (stopping r) (ready r) (swriter r) (serial_task r) (serial_cancel r) (serial_retry r) (main_task r) (main_cancel r) x (server r) (udp_open r) (mqtt_on r) (tracer_on r) (monitors r) (traffic r) (br r) (status r) (ports r) (next_port r) (out r).
Definition upd_server (x : option bool) (r : rt) : rt := mkRt (ctl r) (start_failed r) (stopping r) (ready r) (swriter r) (serial_task r) (serial_cancel r) (serial_retry r) (main_task r) (main_cancel r) (main_retry r) x (udp_open r) (mqtt_on r) (tracer_on r) (monitors r) (traffic r) (br r) (status r) (ports r) (next_port r) (out r).
Definition upd_udp_open (x : bool) (r : rt) : rt := mkRt (ctl r) (start_failed r) (stopping r) (ready r) (swriter r) (serial_task r) (serial_cancel r) (serial_retry r) (main_task r) (main_cancel r) (main_retry r) (server r) x (mqtt_on r) (tracer_on r) (monitors r) (traffic r) (br r) (status r) (ports r) (next_port r) (out r).
Definition upd_mqtt_on (x : bool) (r : rt) : rt := mkRt (ctl r) (start_failed r) (stopping r) (ready r) (swriter r) (serial_task r) (serial_cancel r) (serial_retry r) (main_task r) (main_cancel r) (main_retry r) (server r) (udp_open r) x (tracer_on r) (monitors r) (traffic r) (br r) (status r) (ports r) (next_port r) (out r).
Definition upd_tracer_on (x : bool) (r : rt) : rt := mkRt (ctl r) (start_failed r) (stopping r) (ready r) (swriter r) (serial_task r) (serial_cancel r) (serial_retry r) (main_task r) (main_cancel r) (main_retry r) (server r) (udp_open r) (mqtt_on r) x (monitors r) (traffic r) (br r) (status r) (ports r) (next_port r) (out r).
Definition upd_monitors (x : list Z) (r : rt) : rt := mkRt (ctl r) (start_failed r) (stopping r) (ready r) (swriter r) (serial_task r) (serial_cancel r) (serial_retry r) (main_task r) (main_cancel r) (main_retry r) (server r) (udp_open r) (mqtt_on r) (tracer_on r) x (traffic r) (br r) (status r) (ports r) (next_port r) (out r).
Definition upd_traffic (x : list Z) (r : rt) : rt := mkRt (ctl r) (start_failed r) (stopping r) (ready r) (swriter r) (serial_task r) (serial_cancel r) (serial_retry r) (main_task r) (main_cancel r) (main_retry r) (server r) (udp_open r) (mqtt_on r) (tracer_on r) (monitors r) x (br r) (status r) (ports r) (next_port r) (out r).
Definition upd_br (x : Bridge.runner S) (r : rt) : rt := mkRt (ctl r) (start_failed r) (stopping r) (ready r) (swriter r) (serial_task r) (serial_cancel r) (serial_retry r) (main_task r) (main_cancel r) (main_retry r) (server r) (udp_open r) (mqtt_on r) (tracer_on r) (monitors r) (traffic r) x (status r) (ports r) (next_port r) (out r).
Definition upd_status (x : RunnerStatus) (r : rt) : rt := mkRt (ctl r) (start_failed r) (stopping r) (ready r) (swriter r) (serial_task r) (serial_cancel r) (serial_retry r) (main_task r) (main_cancel r) (main_retry r) (server r) (udp_open r) (mqtt_on r) (tracer_on r) (monitors r) (traffic r) (br r) x (ports r) (next_port r) (out r).
Definition upd_ports (x : gmap nat bool) (r : rt) : rt := mkRt (ctl r) (start_failed r) (stopping r) (ready r) (swriter r) (serial_task r) (serial_cancel r) (serial_retry r) (main_task r) (main_cancel r) (main_retry r) (server r) (udp_open r) (mqtt_on r) (tracer_on r) (monitors r) (traffic r) (br r) (status r) x (next_port r) (out r).
Definition upd_next_port (x : nat) (r : rt) : rt := mkRt (ctl r) (start_failed r) (stopping r) (ready r) (swriter r) (serial_task r) (serial_cancel r) (serial_retry r) (main_task r) (main_cancel r) (main_retry r) (server r) (udp_open r) (mqtt_on r) (tracer_on r) (monitors r) (traffic r) (br r) (status r) (ports r) x (out r).
Definition upd_out (x : list event) (r : rt) : rt := mkRt (ctl r) (start_failed r) (stopping r) (ready r) (swriter r) (serial_task r) (serial_cancel r) (serial_retry r) (main_task r) (main_cancel r) (main_retry r) (server r) (udp_open r) (mqtt_on r) (tracer_on r) (monitors r) (traffic r) (br r) (status r) (ports r) (next_port r) x.

Definition emit (e : event) (r : rt) : rt := upd_out (out r ++ [e]) r.
Definition emits (l : list event) (r : rt) : rt := upd_out (out r ++ l) r.
Definition _log (m : pystr) (r : rt) : rt := emit (ELog m) r.
Definition set_state x r := upd_status (let s := status r in mkStatus x (st_device s) (st_error s) (st_reconnects s)) r.
Definition set_device x r := upd_status (let s := status r in mkStatus (st_state s) x (st_error s) (st_reconnects s)) r.
Definition set_error x r := upd_status (let s := status r in mkStatus (st_state s) (st_device s) x (st_reconnects s)) r.
Definition count_reconnect r := upd_status (let s := status r in mkStatus (st_state s) (st_device s) (st_error s) (st_reconnects s + 1)) r.
Definition on_br (f : Bridge.runner S → Bridge.runner S) (r : rt) : rt := upd_br (f (br r)) r.
Definition set_serial_open (b : bool) (c : Bridge.runner S) : Bridge.runner S :=
  Bridge.mkRunner (max_connections c) (kick_old_user c) (read_only c) (allowed_nets c) (priority_nets c) (closeon c)
    (closeon_tail c) (clients c) b (serial_out c) (bytes_in c) (bytes_out c) (dropped_clients c) (queue_overflows c) (client_count c).

(** ** Ports *)
Definition open_port (r : rt) : nat * rt :=
  (next_port r, upd_next_port (Datatypes.S (next_port r)) (upd_ports (<[next_port r := true]> (ports r)) r)).
Definition close_port (h : nat) (r : rt) : rt := upd_ports (<[h := false]> (ports r)) r.
(** [wait_closed] returns once the system has released the port. *)
Definition released (h : nat) (r : rt) : bool := match ports r !! h with None => true | Some _ => false end.

(** ** The serial supervisor *)
Definition serial_top (r : rt) : rt := upd_serial_task (Some (if stopping r then SDone else SOpening)) r.
(** The loop after the [finally]. *)
Definition serial_after (now : Z) (k : after) (r : rt) : rt :=
  match k with
  | Cancelled => upd_serial_task (Some SDone) r
  | Retry =>
      if stopping r then upd_serial_task (Some SDone) r
      else
        let t := another (serial_retry r) in
        upd_serial_task (Some (SBackoff (now + delay t))) (set_state Reconnecting (count_reconnect (upd_serial_retry t r)))
  end.
(** [_close_serial], up to its await: the port it has to wait for. *)
Definition _close_serial (r : rt) : option nat * rt :=
  let r' := on_br (set_serial_open false) (upd_swriter None (upd_ready false r)) in
  match swriter r with Some h => (Some h, close_port h r') | None => (None, r') end.
(** [finally: await self._close_serial()] *)
Definition serial_finally (now : Z) (k : after) (r : rt) : rt :=
  match _close_serial r with
  | (Some h, r) => upd_serial_task (Some (SClosing h k)) r
  | (None, r) => serial_after now k r
  end.
Definition serial_error (now : Z) (msg : pystr) (r : rt) : rt :=
  serial_finally now Retry
    (_log (str "serial error: " ++ msg)
       (set_state (if attempt (serial_retry r) =? 0 then DeviceMissing else Reconnecting) (set_error msg r))).
(** The test of [_serial_read_loop]; when it ends the loop of the supervisor goes on. *)
Definition read_top (now : Z) (r : rt) : rt :=
  if stopping r then serial_finally now Retry r else upd_serial_task (Some SReading) r.
Definition serial_opened (now : Z) (device : pystr) (r : rt) : rt :=
  let '(h, r) := open_port r in
  let r := upd_ready true (set_state Running (set_error [] (set_device device (on_br (set_serial_open true) (upd_swriter (Some h) r))))) in
  let r := _log (str "serial open: " ++ device ++ str " @ " ++ rc_compact cfg) (upd_serial_retry retry0 r) in
  match rc_openstr cfg with
  | [] => read_top now r
  | b => upd_serial_task (Some SOpenStr) (emit (EWrite h b) r)
  end.
(** Each chunk goes to the trace, the monitors, the broker and the clients. *)
Definition traced (tag : pystr) (data : bytes) (r : rt) : list event := if tracer_on r then [ETrace tag data] else [].
Definition _feed_monitors (data : bytes) (r : rt) : list event := (λ m, EMonitor m data) <$> monitors r.
Definition _feed_traffic (to_device : bool) (data : bytes) (r : rt) : list event := (λ m, ETraffic m to_device data) <$> traffic r.
Definition read_chunk (data : bytes) (r : rt) : rt :=
  on_br (Bridge.serial_read data)
    (emits (traced (str "ser>net") data r ++ _feed_monitors data r ++ _feed_traffic false data r
            ++ (if mqtt_on r then [EMqtt data] else [])) r).
(** What [CancelledError] does at each await. *)
Definition serial_cancelled (now : Z) (pc : spc) (r : rt) : rt :=
  match pc with
  | SOpening | SOpenStr | SReading => serial_finally now Cancelled r
  | SNew | SClosing _ _ | SBackoff _ | SDone => upd_serial_task (Some SDone) r
  end.
(** A wake of the serial task; [None] when it is not one the task can get. *)
Definition serial_wake (now : Z) (w : wake) (r : rt) : option rt :=
  match serial_task r with
  | None | Some SDone => None
  | Some pc =>
      if serial_cancel r then
        match w with WCancel => Some (serial_cancelled now pc (upd_serial_cancel false r)) | _ => None end
      else
        match pc, w with
        | SNew, WStart => Some (serial_top r)
        | SOpening, WOpened device => Some (serial_opened now device r)
        | (SOpening | SOpenStr | SReading), WError msg => Some (serial_error now msg r)
        | SOpenStr, WDone => Some (read_top now r)
        | SReading, WRead [] => Some (serial_error now (str "serial EOF / device removed") r)
        | SReading, WRead data => Some (read_top now (read_chunk data r))
        | SClosing h k, WDone => if released h r then Some (serial_after now k r) else None
        | SBackoff until, WTimer =>
            if until <=? now then Some (serial_top (upd_serial_retry (slower (serial_retry r)) r)) else None
        | SBackoff _, WStop => if stopping r then Some (upd_serial_task (Some SDone) r) else None
        | _, _ => None
        end
  end.

(** ** The connect-out driver and the serial bridge *)
Definition set_main (pc : mpc) (r : rt) : rt := upd_main_task (Some pc) r.
Definition main_top (r : rt) : rt :=
  set_main (if stopping r then MDone else match rc_kind cfg with SerialBridge => BOpenA | _ => MConnecting end) r.
(** The loop after a connection or a bridge: only the bridge counts reconnects. *)
Definition main_after (now : Z) (k : after) (r : rt) : rt :=
  match k with
  | Cancelled => set_main MDone r
  | Retry =>
      if stopping r then set_main MDone r
      else
        let t := another (main_retry r) in
        let r := match rc_kind cfg with SerialBridge => set_state Reconnecting (count_reconnect r) | _ => r end in
        set_main (MBackoff (now + delay t)) (upd_main_retry t r)
  end.
(** [_client_supervisor] once connected; [c] is the new client. *)
Definition linked (c : client S) (r : rt) : rt :=
  let r := _log (str "connected out to " ++ rc_target cfg) (on_br (on_client_enter c) r) in
  set_main (MLinked (c_id c)) (upd_main_retry retry0 r).
Definition end_session (id : Z) (reason : pystr) (r : rt) : rt :=
  on_br (λ b, Bridge.set_clients ((λ c, if c_id c =? id then set_closing reason c else c) <$> clients b) b) r.
Definition drop_client (id : Z) (b : Bridge.runner S) : Bridge.runner S :=
  Bridge._refresh_clients (Bridge.set_clients (List.filter (λ c, negb (c_id c =? id)) (clients b)) b).
Definition unlink (id : Z) (r : rt) : rt :=
  _log (str "connect-out link to " ++ rc_target cfg ++ str " closed") (on_br (drop_client id) r).
Definition connect_error (now : Z) (msg : pystr) (r : rt) : rt :=
  main_after now Retry (_log (str "connect-out failed: " ++ msg) (set_error msg r)).
(** [for w in (wa, wb)] of the bridge's [finally]: one port after the other is closed and waited for. *)
Definition bridge_close (now : Z) (hs : list nat) (k : after) (r : rt) : rt :=
  match hs with
  | [] => main_after now k r
  | h :: rest => set_main (BClosing h rest k) (close_port h r)
  end.
Definition bridge_error (now : Z) (hs : list nat) (msg : pystr) (r : rt) : rt :=
  bridge_close now hs Retry
    (_log (str "serial bridge error: " ++ msg)
       (set_state (if attempt (main_retry r) =? 0 then DeviceMissing else Reconnecting) (set_error msg r))).
Definition bridge_opened (now : Z) (a : nat) (da db : pystr) (r : rt) : rt :=
  let '(b, r) := open_port r in
  let dev := da ++ str " <-> " ++ db in
  let r := upd_main_retry retry0 (set_state Running (set_error [] (set_device dev r))) in
  let r := _log (str "serial bridge open: " ++ dev) r in
  if stopping r then bridge_close now [a; b] Retry r else set_main (BPumping a b true true) r.
(** A chunk of [_pump_serial_pair], then the test of its loop. *)
Definition bridge_chunk (now : Z) (a b : nat) (pa pb a_to_b : bool) (data : bytes) (r : rt) : rt :=
  let tag := if a_to_b then str "A>B" else str "B>A" in
  let r := emits (traced tag data r ++ _feed_monitors data r ++ _feed_traffic (negb a_to_b) data r
                  ++ [EWrite (if a_to_b then b else a) data]) r in
  let r := on_br (λ c, Bridge.set_counters (bytes_in c + zlen data) (bytes_out c) (dropped_clients c) (queue_overflows c) c) r in
  if stopping r then
    let '(pa, pb) := if a_to_b then (false, pb) else (pa, false) in
    if pa || pb then set_main (BPumping a b pa pb) r else bridge_close now [a; b] Retry r
  else set_main (BPumping a b pa pb) r.
Definition main_cancelled (now : Z) (pc : mpc) (r : rt) : rt :=
  match pc with
  | MLinked id => set_main (MUnlinking id Cancelled) (end_session id [] r)
  | MUnlinking id _ => set_main MDone (unlink id r)
  | BOpenB a _ => bridge_close now [a] Cancelled r
  | BPumping a b _ _ => bridge_close now [a; b] Cancelled r
  | _ => set_main MDone r
  end.
(** [who] is the client object of a new connection. *)
Definition main_wake (now : Z) (w : wake) (who : client S) (r : rt) : option rt :=
  match main_task r with
  | None | Some MDone => None
  | Some pc =>
      if main_cancel r then
        match w with WCancel => Some (main_cancelled now pc (upd_main_cancel false r)) | _ => None end
      else
        match pc, w with
        | MNew, WStart => Some (main_top r)
        | MConnecting, WDone => Some (linked who r)
        | MConnecting, WError msg => Some (connect_error now msg r)
        | MLinked id, WEnded reason => Some (set_main (MUnlinking id Retry) (end_session id reason r))
        | MLinked id, WError msg => Some (connect_error now msg (unlink id r))
        | MUnlinking id k, WDone => Some (main_after now k (unlink id r))
        | BOpenA, WOpened da => let '(a, r) := open_port r in Some (set_main (BOpenB a da) r)
        | BOpenA, WError msg => Some (bridge_error now [] msg r)
        | BOpenB a da, WOpened db => Some (bridge_opened now a da db r)
        | BOpenB a _, WError msg => Some (bridge_error now [a] msg r)
        | BPumping a b pa pb, WPumped a_to_b ((_ :: _) as data) =>
            if (if a_to_b then pa else pb) then Some (bridge_chunk now a b pa pb a_to_b data r) else None
        | BPumping a b pa pb, WPumped a_to_b [] =>
            if (if a_to_b then pa else pb)
            then Some (bridge_error now [a; b] (str "serial EOF (" ++ (if a_to_b then str "A>B" else str "B>A") ++ str ")") r)
            else None
        | BPumping a b _ _, WError msg => Some (bridge_error now [a; b] msg r)
        | BClosing h rest k, WDone => if released h r then Some (bridge_close now rest k r) else None
        | MBackoff until, WTimer => if until <=? now then Some (main_top (upd_main_retry (slower (main_retry r)) r)) else None
        | MBackoff _, WStop => if stopping r then Some (set_main MDone r) else None
        | _, _ => None
        end
  end.

(** ** stop *)
Definition stop_end (r : rt) : rt :=
  _log (str "stopped") (upd_ctl Down (on_br (Bridge.set_count 0) (set_state Stopped (upd_tracer_on false r)))).
Definition stop_trace (r : rt) : rt := if tracer_on r then upd_ctl StopTrace r else stop_end r.
Definition stop_close (r : rt) : rt :=
  match _close_serial (upd_main_task None (upd_serial_task None r)) with
  | (Some h, r) => upd_ctl (StopClose h) r
  | (None, r) => stop_trace r
  end.
(** The two tasks are cancelled one after the other, and awaited. *)
Definition stop_main (r : rt) : rt :=
  match main_task r with
  | Some pc => upd_ctl StopMain (upd_main_cancel (match pc with MDone => false | _ => true end) r)
  | None => stop_close r
  end.
Definition stop_serial (r : rt) : rt :=
  match serial_task r with
  | Some pc => upd_ctl StopSerial (upd_serial_cancel (match pc with SDone => false | _ => true end) r)
  | None => stop_main r
  end.
Definition stop_begin (now : Z) (r : rt) : rt :=
  let r := upd_udp_open false (upd_server ((λ _, false) <$> server r) (upd_stopping true r)) in
  let r := on_br (λ b, Bridge.set_clients (Bridge.kick (str "mapping stopped") <$> clients b) b) r in
  let r := upd_traffic [] (upd_monitors [] (emits (EMonitorClosed <$> (monitors r ++ traffic r)) r)) in
  let r := if mqtt_on r then upd_mqtt_on false (emit EMqttClose r) else r in
  match server r with
  | Some _ => upd_ctl (StopServer (now + 5000)) r
  | None => stop_serial r
  end.
(** An await of [stop] returns: the wait for the listener's connections has a limit. *)
Definition stop_wake (now : Z) (closed : bool) (r : rt) : option rt :=
  match ctl r with
  | StopServer until => if closed || (until <=? now) then Some (stop_serial (upd_server None r)) else None
  | StopSerial => match serial_task r with Some SDone => Some (stop_main r) | _ => None end
  | StopMain => match main_task r with Some MDone => Some (stop_close r) | _ => None end
  | StopClose h => if released h r then Some (stop_trace r) else None
  | StopTrace => Some (stop_end r)
  | _ => None
  end.

(** ** start *)
Definition start_up (r : rt) : rt := upd_ctl Up (set_state Running r).
(** [tracer]: whether the trace file could be opened. The tasks are new: nothing has cancelled them. *)
Definition start (tracer : bool) (r : rt) : rt :=
  let r := upd_main_retry retry0 (upd_serial_retry retry0 (upd_tracer_on tracer (upd_stopping false (upd_start_failed false r)))) in
  match rc_kind cfg with
  | SerialBridge => _log (str "serial-to-serial bridge starting") (start_up (set_main MNew (upd_main_cancel false r)))
  | kind =>
      let r := if rc_mqtt cfg then emit EMqttConnect (upd_mqtt_on true r) else r in
      let r := upd_serial_task (Some SNew) (upd_serial_cancel false r) in
      match kind with
      | ModeClient => start_up (_log (str "connect-out to " ++ rc_target cfg) (set_main MNew (upd_main_cancel false r)))
      | _ => upd_ctl StartWait r
      end
  end.
(** The listener is up, or could not be brought up: then everything is stopped again. *)
Definition start_done (now : Z) (ok : bool) (r : rt) : rt :=
  if ok then
    start_up (_log (str "listening on " ++ rc_target cfg)
                (match rc_kind cfg with ModeUdp => upd_udp_open true r | _ => upd_server (Some true) r end))
  else stop_begin now (upd_start_failed true r).

(** ** Clients *)
Inductive net_op :=
  | NCheck (ip peer : pystr) | NEnter (c : client S) | NRead (id now : Z) (data : bytes) | NPump (id now : Z)
  | NGone (id : Z) | NMonitor (id : Z) | NTraffic (id : Z).
Definition net_step (o : net_op) (r : rt) : rt :=
  match o with
  | NCheck ip peer => match server r with Some _ => on_br (λ b, (on_client_check ip peer b).2) r | None => r end
  | NEnter c => match server r with Some _ => on_br (on_client_enter c) r | None => r end
  | NRead id now data => on_br (client_read id now data) r
  | NPump id now =>
      on_br (λ b, Bridge.set_clients ((λ c, if c_id c =? id then (pump_serial_to_net now c).1.1 else c) <$> clients b) b) r
  | NGone id => on_br (on_client_gone id (rc_closestr cfg)) r
  | NMonitor id => upd_monitors (add_z id (monitors r)) r
  | NTraffic id => upd_traffic (add_z id (traffic r)) r
  end.

(** ** Executions *)
(** [runner0]: [MappingRunner.__init__]. *)
Definition runner0 (b : Bridge.runner S) : rt :=
  mkRt Idle false false false None None false retry0 None false retry0 None false false false [] []
    b (mkStatus Stopped [] [] 0) ∅ O [].
Inductive action :=
  | Tick (dt : Z) | Start (tracer : bool) | StartDone (ok : bool) | StopCall | StopWake (closed : bool)
  | SerialWake (w : wake) | MainWake (w : wake) (who : client S) | Release (h : nat) | Net (o : net_op).
(** One action at a time, where it can happen; the clock is part of the world. *)
Definition act (a : action) (x : Z * rt) : option (Z * rt) :=
  let '(now, r) := x in
  match a with
  | Tick dt => if 0 <=? dt then Some (now + dt, r) else None
  | Start tracer => match ctl r with Idle | Down => Some (now, start tracer r) | _ => None end
  | StartDone ok => match ctl r with StartWait => Some (now, start_done now ok r) | _ => None end
  | StopCall => match ctl r with Up => Some (now, stop_begin now r) | _ => None end
  | StopWake closed => pair now <$> stop_wake now closed r
  | SerialWake w => pair now <$> serial_wake now w r
  | MainWake w who => pair now <$> main_wake now w who r
  | Release h => match ports r !! h with Some false => Some (now, upd_ports (delete h (ports r)) r) | _ => None end
  | Net o => Some (now, net_step o r)
  end.
Inductive reach (b : Bridge.runner S) : Z * rt → Prop :=
  | reach_init now : reach b (now, runner0 b)
  | reach_act a x y : reach b x → act a x = Some y → reach b y.
Fixpoint run (l : list action) (x : Z * rt) : option (Z * rt) :=
  match l with [] => Some x | a :: l => act a x ≫= run l end.
End runner.

(** The fields of a record are those of another, or follow at once. *)
Ltac same_fields := constructor; first [assumption | reflexivity | done].

(** ** Resources *)
Section resources.
Context {S : Type} `{ProtocolSession S} (cfg : run_cfg).
#[local] Abbreviation rt := (rt (S:=S)).

Definition holds_port (pc : option spc) : bool := match pc with Some (SOpenStr | SReading) => true | _ => false end.
(** The ports a runner's record speaks of: an open one is the writer's, and the flags agree with it. *)
Record ports_ok (r : rt) : Prop := {
  po_writer : ∀ h, swriter r = Some h → ports r !! h = Some true;
  po_owned : ∀ h, ports r !! h = Some true → swriter r = Some h;
  po_fresh : ∀ h, is_Some (ports r !! h) → (h < next_port r)%nat;
  po_open : serial_open (br r) = bool_decide (is_Some (swriter r));
  po_ready : ready r = bool_decide (is_Some (swriter r));
}.
Definition retry_ok (t : retry) : Prop := 500 <= backoff t <= 10000 ∧ 0 <= attempt t.
(** Where the serial task is, with what it holds. *)
Record serial_ok (now : Z) (r : rt) : Prop := {
  so_holds : holds_port (serial_task r) = bool_decide (is_Some (swriter r));
  so_retry : retry_ok (serial_retry r);
  so_until : ∀ u, serial_task r = Some (SBackoff u) → u <= now + 10400;
  so_cancelled : ∀ h, serial_task r = Some (SClosing h Cancelled) → stopping r = true;
  so_cancel : serial_cancel r = true → stopping r = true;
}.
(** What the steps of the serial task leave alone. *)
Definition rest (r : rt) :=
  (ctl r, start_failed r, stopping r, main_task r, main_cancel r, main_retry r, server r, udp_open r, mqtt_on r, tracer_on r).

Lemma delay_bound t : retry_ok t → 500 <= delay t <= 10400.
Proof. intros [H1 H2]. unfold delay. pose proof (Z.mod_pos_bound (attempt t) 5). lia. Qed.
Lemma retry_ok_0 : retry_ok retry0.
Proof. unfold retry_ok. cbn. lia. Qed.
Lemma retry_ok_another t : retry_ok t → retry_ok (another t).
Proof. unfold retry_ok. cbn. lia. Qed.
Lemma retry_ok_slower t : retry_ok t → retry_ok (slower t).
Proof. unfold retry_ok. cbn. lia. Qed.

Lemma open_broadcast data (b : Bridge.runner S) : serial_open (Bridge.serial_read data b) = serial_open b.
Proof.
  unfold Bridge.serial_read. destruct (closeon _); [done|]. unfold _check_closeon.
  destruct (contains _ _); [done|]. by destruct (_ <? _).
Qed.

(** *** The serial task *)
Lemma after_ok now k r r0 :
  ports_ok r → retry_ok (serial_retry r) → swriter r = None → serial_cancel r = false → rest r = rest r0 →
  ports_ok (serial_after now k r) ∧ serial_ok now (serial_after now k r) ∧ rest (serial_after now k r) = rest r0.
Proof.
  intros [] Hr Hw Hc Hq. unfold serial_after. destruct k; [destruct (stopping r) eqn:Es|].
  - split_and!; [same_fields| |done]. constructor; cbn; by rewrite ?Hw, ?Hc.
  - pose proof (retry_ok_another _ Hr) as Ht. pose proof (delay_bound _ Ht).
    split_and!; [same_fields| |done]. constructor; cbn; rewrite ?Hw, ?Hc; try done. intros u [= <-]. lia.
  - split_and!; [same_fields| |done]. constructor; cbn; by rewrite ?Hw, ?Hc.
Qed.
Lemma finally_ok now k r r0 :
  ports_ok r → retry_ok (serial_retry r) → serial_cancel r = false → (k = Cancelled → stopping r = true) → rest r = rest r0 →
  ports_ok (serial_finally now k r) ∧ serial_ok now (serial_finally now k r) ∧ rest (serial_finally now k r) = rest r0.
Proof.
  intros Hp Hr Hc Hk Hq. unfold serial_finally, _close_serial. destruct (swriter r) as [h|] eqn:Ew.
  - destruct Hp. split_and!; [| |done].
    + constructor; cbn; try done.
      * intros h'. rewrite lookup_insert_Some. intros [[_ ?]|[Hne Hh]]; [done|]. apply po_owned0 in Hh. congruence.
      * intros h' Hh. destruct (decide (h = h')) as [<-|Hne]; [apply po_fresh0; by rewrite po_writer0|].
        rewrite lookup_insert_ne in Hh by done. by apply po_fresh0.
    + constructor; cbn; try done; [|by rewrite Hc]. intros h' [= _ ->]. by apply Hk.
  - destruct Hp. rewrite Ew in *. apply after_ok; [|done..]. same_fields.
Qed.
Lemma read_top_ok now r h r0 :
  ports_ok r → retry_ok (serial_retry r) → serial_cancel r = false → swriter r = Some h → rest r = rest r0 →
  ports_ok (read_top now r) ∧ serial_ok now (read_top now r) ∧ rest (read_top now r) = rest r0.
Proof.
  intros Hp Hr Hc Hw Hq. unfold read_top. destruct (stopping r); [by apply finally_ok|].
  split_and!; [destruct Hp; same_fields| |done]. constructor; cbn; try done; [by rewrite Hw|by rewrite Hc].
Qed.
Lemma opened_ok now dev r r0 :
  ports_ok r → serial_cancel r = false → swriter r = None → rest r = rest r0 →
  ports_ok (serial_opened cfg now dev r) ∧ serial_ok now (serial_opened cfg now dev r) ∧ rest (serial_opened cfg now dev r) = rest r0.
Proof.
  intros Hp Hc Hw Hq. unfold serial_opened, open_port. cbn beta iota zeta.
  match goal with |- context [read_top now ?x] => set (r' := x) end.
  assert (ports_ok r') as Hp'.
  { destruct Hp. constructor; cbn; try done.
    - intros h [= <-]. apply lookup_insert_eq.
    - intros h. rewrite lookup_insert_Some. intros [[<- _]|[_ Hh]]; [done|]. apply po_owned0 in Hh. congruence.
    - intros h Hh. destruct (decide (next_port r = h)) as [<-|Hne]; [lia|]. rewrite lookup_insert_ne in Hh by done.
      apply po_fresh0 in Hh. lia. }
  destruct (rc_openstr cfg) as [|b bs]; [apply (read_top_ok now r' (next_port r)); [done|apply retry_ok_0|done..]|].
  split_and!; [destruct Hp'; same_fields| |done]. constructor; cbn; try done; by rewrite Hc.
Qed.
Lemma top_ok now r r0 :
  ports_ok r → retry_ok (serial_retry r) → swriter r = None → serial_cancel r = false → rest r = rest r0 →
  ports_ok (serial_top r) ∧ serial_ok now (serial_top r) ∧ rest (serial_top r) = rest r0.
Proof.
  intros Hp Hr Hw Hc Hq. unfold serial_top.
  split_and!; [destruct Hp; same_fields| |done].
  constructor; cbn; rewrite ?Hw, ?Hc; try done; by destruct (stopping r).
Qed.

Lemma serial_wake_ok now w r r' :
  ports_ok r → serial_ok now r → serial_wake cfg now w r = Some r' →
  ports_ok r' ∧ serial_ok now r' ∧ rest r' = rest r.
Proof.
  intros Hp Hs. assert (holds_port (serial_task r) = false → swriter r = None) as Hnone.
  { rewrite (so_holds _ _ Hs). rewrite bool_decide_eq_false. destruct (swriter r); [|done]. intros []. by eexists. }
  assert (holds_port (serial_task r) = true → ∃ h, swriter r = Some h) as Hsome.
  { rewrite (so_holds _ _ Hs). rewrite bool_decide_eq_true. by intros [h ?]; exists h. }
  pose proof (so_retry _ _ Hs) as Hr.
  assert (∀ f, ports_ok (upd_serial_task f r)) as Hsame by (intros f; destruct Hp; same_fields).
  unfold serial_wake. destruct (serial_task r) as [pc|] eqn:Et; [|done].
  destruct (serial_cancel r) eqn:Ec.
  - pose proof (so_cancel _ _ Hs Ec) as Est. intros E.
    assert (r' = serial_cancelled now pc (upd_serial_cancel false r)) as -> by (destruct pc, w; congruence).
    assert (ports_ok (upd_serial_cancel false r)) as Hp' by (destruct Hp; same_fields).
    destruct pc; cbn [serial_cancelled]; try (by apply finally_ok).
    all: split_and!; [destruct Hp; same_fields| |done]; constructor; cbn; try done; by rewrite Hnone.
  - destruct pc, w; try done; cbn [holds_port] in *.
    + intros [= <-]. by apply top_ok; [..|apply Hnone| |].
    + intros [= <-]. by apply opened_ok; [..|apply Hnone|].
    + intros [= <-]. apply finally_ok; [destruct Hp; same_fields|done..].
    + intros [= <-]. apply finally_ok; [destruct Hp; same_fields|done..].
    + intros [= <-]. destruct Hsome as [h Hw]; [done|]. by apply (read_top_ok now r h).
    + intros [= <-]. apply finally_ok; [destruct Hp; same_fields|done..].
    + destruct data; intros [= <-]; [apply finally_ok; [destruct Hp; same_fields|done..]|].
      destruct Hsome as [h Hw]; [done|]. apply (read_top_ok now _ h); [|done..].
      destruct Hp; constructor; try assumption. cbn. by rewrite open_broadcast.
    + destruct (released _ _); [|done]. intros [= <-]. apply after_ok; try done. by apply Hnone.
    + destruct (stopping r); [|done]. intros [= <-]. split_and!; [done| |done]. constructor; cbn; try done; [by rewrite Hnone|by rewrite Ec].
    + destruct (_ <=? _); [|done]. intros [= <-]. apply (top_ok now (upd_serial_retry _ r)); [destruct Hp; same_fields| |by apply Hnone|done..].
      by apply retry_ok_slower.
Qed.

(** *** The other tasks *)
Definition is_bridge (pc : option mpc) : bool :=
  match pc with Some (BOpenA | BOpenB _ _ | BPumping _ _ _ _ | BClosing _ _ _) => true | _ => false end.
Definition spc_done (pc : option spc) : bool := match pc with Some SDone | None => true | _ => false end.
Definition mpc_done (pc : option mpc) : bool := match pc with Some MDone | None => true | _ => false end.
Definition serial_side (r : rt) :=
  (swriter r, serial_task r, serial_cancel r, serial_retry r, ready r, ports r, next_port r, serial_open (br r), stopping r).
Definition control_side (r : rt) := (ctl r, start_failed r, server r, udp_open r, mqtt_on r, tracer_on r).
Lemma serial_side_ok now r r' :
  serial_side r' = serial_side r → ports_ok r → serial_ok now r → ports_ok r' ∧ serial_ok now r'.
Proof.
  intros [= E1 E2 E3 E4 E5 E6 E7 E8 E9] [] []. split; constructor; by rewrite ?E1, ?E2, ?E3, ?E4, ?E5, ?E6, ?E7, ?E8, ?E9.
Qed.
Lemma main_after_other now k r r' : main_after cfg now k r = r' → rc_kind cfg ≠ SerialBridge →
  serial_side r' = serial_side r ∧ control_side r' = control_side r ∧ is_bridge (main_task r') = false.
Proof.
  intros <- Hk. unfold main_after. destruct k; [|done]. destruct (stopping r); [done|]. by destruct (rc_kind cfg).
Qed.
Lemma main_wake_other now w who r r' :
  rc_kind cfg ≠ SerialBridge → is_bridge (main_task r) = false → main_wake cfg now w who r = Some r' →
  serial_side r' = serial_side r ∧ control_side r' = control_side r ∧ is_bridge (main_task r') = false ∧ mpc_done (main_task r) = false.
Proof.
  intros Hk Hb. unfold main_wake. destruct (main_task r) as [pc|] eqn:Em; [|done].
  assert (∀ now k r, serial_side (main_after cfg now k r) = serial_side r
    ∧ control_side (main_after cfg now k r) = control_side r ∧ is_bridge (main_task (main_after cfg now k r)) = false) as Ha.
  { intros now' k' r0. by eapply main_after_other. }
  destruct (main_cancel r).
  - intros E. assert (r' = main_cancelled cfg now pc (upd_main_cancel false r)) as -> by (destruct pc, w; congruence).
    by destruct pc.
  - destruct pc, w; try done; cbn [is_bridge] in Hb; try done.
    + intros [= <-]. unfold main_top. destruct (stopping r); [done|]. by destruct (rc_kind cfg).
    + intros [= <-]. unfold connect_error. edestruct Ha as (-> & -> & ->). done.
    + intros [= <-]. done.
    + intros [= <-]. unfold connect_error. edestruct Ha as (-> & -> & ->). done.
    + intros [= <-]. done.
    + intros [= <-]. edestruct Ha as (-> & -> & ->). done.
    + destruct (stopping r); [|done]. by intros [= <-].
    + destruct (_ <=? _); [|done]. intros [= <-]. unfold main_top. cbn. destruct (stopping r); [done|]. by destruct (rc_kind cfg).
Qed.

Lemma open_serial_write data (b : Bridge.runner S) : serial_open (serial_write data b) = serial_open b.
Proof. unfold serial_write. by destruct b as [????????[]??????]. Qed.
Lemma open_client_read id now data (b : Bridge.runner S) : serial_open (client_read id now data b) = serial_open b.
Proof.
  unfold client_read. destruct (List.find _ _); [|done]. destruct (pump_net_to_serial _ _ _ _) as [c' [|x l]]; [done|].
  cbn [serial_open set_counters]. by rewrite open_serial_write.
Qed.
Lemma open_gone id closestr (b : Bridge.runner S) : serial_open (on_client_gone id closestr b) = serial_open b.
Proof.
  unfold on_client_gone. destruct (clients _), closestr; try done. by rewrite open_serial_write.
Qed.
Lemma open_check ip peer (b : Bridge.runner S) : serial_open (on_client_check ip peer b).2 = serial_open b.
Proof. unfold on_client_check. by repeat case_match. Qed.
Lemma net_step_other o r :
  serial_side (net_step cfg o r) = serial_side r ∧ control_side (net_step cfg o r) = control_side r
  ∧ main_task (net_step cfg o r) = main_task r ∧ status (net_step cfg o r) = status r.
Proof.
  destruct o; cbn [net_step]; try (by destruct (server r)); try done.
  - destruct (server r); [|done]. split_and!; try done. unfold serial_side. cbn. by rewrite open_check.
  - split_and!; try done. unfold serial_side. cbn. by rewrite open_client_read.
  - split_and!; try done. unfold serial_side. cbn. by rewrite open_gone.
Qed.

(** Every wake leaves the task at an await, or ended. While the runner is being stopped it comes closer to its end. *)
Definition spc_rank (pc : option spc) : nat :=
  match pc with Some SOpening => 4 | Some (SOpenStr | SReading) => 3 | Some (SNew | SClosing _ _ | SBackoff _) => 1 | Some SDone | None => 0 end.
Definition mpc_rank (pc : option mpc) : nat :=
  match pc with
  | Some MConnecting => 3 | Some (MLinked _) => 2 | Some (MNew | MUnlinking _ _ | MBackoff _) => 1 | _ => 0
  end.
Lemma after_rank now k (r : rt) :
  is_Some (serial_task (serial_after now k r)) ∧ (stopping r = true → spc_rank (serial_task (serial_after now k r)) = 0%nat).
Proof. unfold serial_after. destruct k; [|by split; [eexists|]]. destruct (stopping r); by split; [eexists|]. Qed.
Lemma finally_rank now k (r : rt) :
  is_Some (serial_task (serial_finally now k r)) ∧ (stopping r = true → (spc_rank (serial_task (serial_finally now k r)) <= 1)%nat).
Proof.
  unfold serial_finally, _close_serial. destruct (swriter r); [split; [by eexists|done]|].
  match goal with |- context [serial_after now k ?x] => destruct (after_rank now k x) as [H1 H2] end.
  split; [done|]. intros Hs. rewrite H2; [lia|done].
Qed.
Lemma read_top_rank now (r : rt) :
  is_Some (serial_task (read_top now r)) ∧ (stopping r = true → (spc_rank (serial_task (read_top now r)) <= 1)%nat).
Proof.
  unfold read_top. destruct (finally_rank now Retry r) as [H1 H2]. destruct (stopping r); [by split; [|intros _; apply H2]|by split; [eexists|]].
Qed.
(** A bound on the rank is a step down from the awaits that hold the port. *)
Ltac by_rank H := let H1 := fresh in let H2 := fresh in destruct H as [H1 H2]; split; [exact H1|intros Hs; specialize (H2 Hs); cbn [spc_rank]; lia].
Lemma serial_wake_rank now w (r r' : rt) :
  serial_wake cfg now w r = Some r' →
  is_Some (serial_task r') ∧ (stopping r = true → (spc_rank (serial_task r') < spc_rank (serial_task r))%nat).
Proof.
  unfold serial_wake. destruct (serial_task r) as [pc|] eqn:Et; [|done].
  destruct (serial_cancel r).
  - intros E. assert (r' = serial_cancelled now pc (upd_serial_cancel false r) ∧ pc ≠ SDone) as [-> Hd] by (destruct pc, w; split; congruence).
    destruct pc; cbn [serial_cancelled]; try (by split; [eexists|cbn; lia]); try done.
    all: edestruct finally_rank as [H1 H2]; split; [exact H1|]; intros Hs; specialize (H2 Hs); cbn [spc_rank]; lia.
  - assert (∀ msg (x : rt), stopping x = stopping r → is_Some (serial_task (serial_error now msg x))
      ∧ (stopping r = true → (spc_rank (serial_task (serial_error now msg x)) <= 1)%nat)) as Herr.
    { intros msg x E. unfold serial_error. edestruct finally_rank as [H1 H2]. split; [exact H1|]. intros Hs. apply H2. cbn. by rewrite E. }
    destruct pc, w; try done.
    + intros [= <-]. split; [by eexists|]. unfold serial_top. intros Hs. cbn. rewrite Hs. cbn. lia.
    + intros [= <-]. unfold serial_opened, open_port. cbn beta iota zeta. destruct (rc_openstr cfg); [|by split; [eexists|cbn; lia]].
      match goal with |- context [read_top now ?x] => by_rank (read_top_rank now x) end.
    + intros [= <-]. match goal with |- context [serial_error now ?m ?x] => by_rank (Herr m x eq_refl) end.
    + intros [= <-]. match goal with |- context [serial_error now ?m ?x] => by_rank (Herr m x eq_refl) end.
    + intros [= <-]. match goal with |- context [read_top now ?x] => by_rank (read_top_rank now x) end.
    + intros [= <-]. match goal with |- context [serial_error now ?m ?x] => by_rank (Herr m x eq_refl) end.
    + destruct data; intros [= <-].
      * match goal with |- context [serial_error now ?m ?x] => by_rank (Herr m x eq_refl) end.
      * match goal with |- context [read_top now ?x] => by_rank (read_top_rank now x) end.
    + destruct (released _ _); [|done]. intros [= <-]. edestruct after_rank as [H1 H2]. split; [exact H1|]. intros Hs. rewrite H2 by done. cbn. lia.
    + destruct (stopping r); [|done]. intros [= <-]. split; [by eexists|cbn; lia].
    + destruct (_ <=? _); [|done]. intros [= <-]. split; [by eexists|]. unfold serial_top. intros Hs. cbn. rewrite Hs. cbn. lia.
Qed.
Lemma main_after_rank now k (r : rt) :
  is_Some (main_task (main_after cfg now k r)) ∧ (stopping r = true → mpc_rank (main_task (main_after cfg now k r)) = 0%nat).
Proof. unfold main_after. destruct k; [|by split; [eexists|]]. destruct (stopping r); split; try done; by eexists. Qed.
Lemma main_wake_rank now w who (r r' : rt) :
  is_bridge (main_task r) = false → rc_kind cfg ≠ SerialBridge → main_wake cfg now w who r = Some r' →
  is_Some (main_task r') ∧ (stopping r = true → (mpc_rank (main_task r') < mpc_rank (main_task r))%nat).
Proof.
  intros Hb Hk. unfold main_wake. destruct (main_task r) as [pc|] eqn:Et; [|done].
  assert (∀ x : rt, is_Some (main_task (main_top cfg x)) ∧ (stopping x = true → mpc_rank (main_task (main_top cfg x)) = 0%nat)) as Htop.
  { intros x. unfold main_top. split; [by eexists|]. intros Hs. cbn. by rewrite Hs. }
  destruct (main_cancel r).
  - intros E. assert (r' = main_cancelled cfg now pc (upd_main_cancel false r) ∧ pc ≠ MDone) as [-> Hd] by (destruct pc, w; split; congruence).
    by destruct pc; try (split; [by eexists|cbn; lia]).
  - destruct pc, w; try done; try (intros [= <-]; split; [by eexists|cbn; lia]).
    + intros [= <-]. edestruct Htop as [H1 H2]. split; [exact H1|]. intros Hs. rewrite H2 by done. cbn. lia.
    + intros [= <-]. unfold connect_error. edestruct main_after_rank as [H1 H2]. split; [exact H1|]. intros Hs. rewrite H2 by done. cbn. lia.
    + intros [= <-]. unfold connect_error. edestruct main_after_rank as [H1 H2]. split; [exact H1|]. intros Hs. rewrite H2 by done. cbn. lia.
    + intros [= <-]. edestruct main_after_rank as [H1 H2]. split; [exact H1|]. intros Hs. rewrite H2 by done. cbn. lia.
    + destruct (stopping r); [|done]. intros [= <-]. split; [by eexists|cbn; lia].
    + destruct (_ <=? _); [|done]. intros [= <-]. edestruct Htop as [H1 H2]. split; [exact H1|]. intros Hs. rewrite H2 by done. cbn. lia.
Qed.

(** *** The whole runner *)
Definition down (c : ctl_pc) : bool := match c with Idle | Down => true | _ => false end.
Definition winding (c : ctl_pc) : bool :=
  match c with StopServer _ | StopSerial | StopMain | StopClose _ | StopTrace => true | _ => false end.
Definition past_main (c : ctl_pc) : bool := match c with StopClose _ | StopTrace | Idle | Down => true | _ => false end.
Definition past_serial (c : ctl_pc) : bool := match c with StopMain => true | _ => past_main c end.
Definition past_server (c : ctl_pc) : bool := match c with StopSerial => true | _ => past_serial c end.
(** What [start] and [stop] have done so far. *)
Record control_ok (r : rt) : Prop := {
  co_bridge : is_bridge (main_task r) = false;
  co_server : past_server (ctl r) = true → server r = None;
  co_serial : past_serial (ctl r) = true → spc_done (serial_task r) = true;
  co_main : past_main (ctl r) = true → serial_task r = None ∧ main_task r = None;
  co_quiet : winding (ctl r) || down (ctl r) = true → mqtt_on r = false ∧ udp_open r = false;
  co_stop : winding (ctl r) = true → stopping r = true;
  co_down : down (ctl r) = true → tracer_on r = false ∧ st_state (status r) = Stopped;
  co_wait_s : ctl r = StopSerial → is_Some (serial_task r);
  co_wait_m : ctl r = StopMain → is_Some (main_task r);
  co_close : ∀ h, ctl r ≠ StopClose h;
}.
Definition inv (now : Z) (r : rt) : Prop := ports_ok r ∧ serial_ok now r ∧ control_ok r.
(** The middle of [stop]. *)
Record stopping_ok (now : Z) (r : rt) : Prop := {
  sp_ports : ports_ok r; sp_serial : serial_ok now r; sp_bridge : is_bridge (main_task r) = false;
  sp_stop : stopping r = true; sp_mqtt : mqtt_on r = false; sp_udp : udp_open r = false;
}.
Lemma winding_ok now r : inv now r → winding (ctl r) = true → stopping_ok now r.
Proof.
  intros (Hp & Hs & []) Hw. destruct co_quiet0 as [? ?]; [by rewrite Hw|]. constructor; auto.
Qed.
Lemma stop_end_ok now r : stopping_ok now r → server r = None → serial_task r = None → main_task r = None → inv now (stop_end r).
Proof.
  intros [[] [] ????] Hsv Hst Hmt. split_and!; [same_fields..|]. constructor; cbn; by rewrite ?Hst, ?Hmt.
Qed.
Lemma stop_trace_ok now r : stopping_ok now r → server r = None → serial_task r = None → main_task r = None → inv now (stop_trace r).
Proof.
  intros Hs Hsv Hst Hmt. unfold stop_trace. destruct (tracer_on r) eqn:Et; [|by apply stop_end_ok].
  destruct Hs as [[] [] ????]. split_and!; [same_fields..|]. constructor; cbn; by rewrite ?Hst, ?Hmt.
Qed.
Lemma stop_close_ok now r :
  stopping_ok now r → server r = None → spc_done (serial_task r) = true → inv now (stop_close r).
Proof.
  intros Hs Hsv Hst. destruct Hs as [Hp Hs ????]. assert (swriter r = None) as Hw.
  { pose proof (so_holds _ _ Hs) as Hh. destruct (swriter r); [|done]. by destruct (serial_task r) as [[]|]. }
  unfold stop_close, _close_serial. change (swriter (upd_main_task None (upd_serial_task None r))) with (swriter r). rewrite Hw.
  apply stop_trace_ok; try done. destruct Hp, Hs. rewrite Hw in *. constructor; try done; constructor; done.
Qed.
Lemma stop_main_ok now r :
  stopping_ok now r → server r = None → spc_done (serial_task r) = true → inv now (stop_main r).
Proof.
  intros Hs Hsv Hst. unfold stop_main. destruct (main_task r) as [pc|] eqn:Em; [|by apply stop_close_ok].
  destruct Hs as [[] [] ????]. split_and!; [same_fields..|]. constructor; cbn; try done. 
Qed.
Lemma stop_serial_ok now r : stopping_ok now r → server r = None → inv now (stop_serial r).
Proof.
  intros Hs Hsv. unfold stop_serial. destruct (serial_task r) as [pc|] eqn:Et.
  - destruct Hs as [[] [] ????]. split_and!; [same_fields| |constructor; cbn; try done].
    constructor; cbn; try done.
  - apply stop_main_ok; [done..|by rewrite Et].
Qed.
Lemma stop_begin_ok now r :
  ports_ok r → serial_ok now r → is_bridge (main_task r) = false → inv now (stop_begin now r).
Proof.
  intros Hp Hs Hb. unfold stop_begin. cbn zeta.
  match goal with |- context [stop_serial ?x] => set (r' := x) end.
  assert (stopping_ok now r') as Hr'.
  { unfold r'. destruct Hp, Hs. destruct (mqtt_on _) eqn:Em; constructor; try done; same_fields. }
  clearbody r'. destruct (server r') eqn:Es; [|by apply stop_serial_ok].
  destruct Hr' as [[] [] ????]. split_and!; [same_fields..|]. constructor; cbn; try done.
Qed.
Lemma start_ok now tracer r :
  rc_kind cfg ≠ SerialBridge → inv now r → down (ctl r) = true → inv now (start cfg tracer r).
Proof.
  intros Hk (Hp & Hs & Hc) Hd. destruct (co_main _ Hc) as [Hst Hmt]; [by destruct (ctl r)|].
  destruct (co_quiet _ Hc) as [Hq Hu]; [by destruct (ctl r)|].
  pose proof (so_holds _ _ Hs) as Hh. rewrite Hst in Hh. destruct Hp.
  unfold start. cbn zeta. destruct (rc_kind cfg); [| | |done].
  all: destruct (rc_mqtt cfg); (split_and!; [same_fields| |]); constructor; cbn; try done; try apply retry_ok_0; by rewrite Hmt.
Qed.
Lemma start_done_ok now ok r : rc_kind cfg ≠ SerialBridge → inv now r → ctl r = StartWait → inv now (start_done cfg now ok r).
Proof.
  intros Hk (Hp & Hs & Hc) E. unfold start_done. destruct ok.
  - destruct Hp, Hs, Hc. destruct (rc_kind cfg); [| | |done]; (split_and!; [same_fields..|]); by constructor.
  - apply stop_begin_ok; [|by destruct Hs; same_fields|by destruct Hc]. destruct Hp. same_fields.
Qed.
Lemma stop_wake_ok now closed r r' : inv now r → stop_wake now closed r = Some r' → inv now r'.
Proof.
  intros Hi. pose proof (λ Hw, winding_ok now r Hi Hw) as Hw. destruct Hi as (Hp & Hs & Hc). unfold stop_wake.
  pose proof (co_server _ Hc) as Hsv. destruct (ctl r) eqn:E; try done; cbn in *.
  - destruct (_ || _); [|done]. intros [= <-]. apply stop_serial_ok; [|done]. destruct (Hw eq_refl) as [[] [] ????]. constructor; try done; same_fields.
  - destruct (serial_task r) as [[]|] eqn:Et; try done. intros [= <-]. apply stop_main_ok; [by apply Hw|by apply Hsv|by rewrite Et].
  - destruct (main_task r) as [[]|]; try done. intros [= <-]. apply stop_close_ok; [by apply Hw|by apply Hsv|]. apply co_serial; [done|by rewrite E].
  - destruct (released _ _); [|done]. intros [= <-]. destruct (co_main _ Hc) as [? ?]; [by rewrite E|]. apply stop_trace_ok; auto.
  - intros [= <-]. destruct (co_main _ Hc) as [? ?]; [by rewrite E|]. apply stop_end_ok; auto.
Qed.
Lemma act_ok a now r now' r' : rc_kind cfg ≠ SerialBridge → inv now r → act cfg a (now, r) = Some (now', r') → inv now' r'.
Proof.
  intros Hk Hi. pose proof Hi as (Hp & Hs & Hc). destruct a; cbn [act].
  - destruct (Z.leb_spec 0 dt); [|done]. intros [= <- <-]. split_and!; [done| |done]. destruct Hs. constructor; try done.
    intros u Hu. specialize (so_until0 u Hu). lia.
  - destruct (ctl r) eqn:E; try done; intros [= <- <-]; apply start_ok; try done; by rewrite E.
  - destruct (ctl r) eqn:E; try done. intros [= <- <-]. by apply start_done_ok.
  - destruct (ctl r) eqn:E; try done. intros [= <- <-]. apply stop_begin_ok; [done..|by destruct Hc].
  - intros E. destruct (stop_wake now closed r) as [r1|] eqn:E1; [|done]. injection E as <- <-. by eapply stop_wake_ok.
  - intros E. destruct (serial_wake cfg now w r) as [r1|] eqn:E1; [|done]. injection E as <- <-.
    destruct (serial_wake_ok _ _ _ _ Hp Hs E1) as (Hp1 & Hs1 & [= R1 R2 R3 R4 R5 R6 R7 R8 R9 R10]). split_and!; [done..|].
    destruct (spc_done (serial_task r)) eqn:Hd.
    { unfold serial_wake in E1. by destruct (serial_task r) as [[]|]. }
    destruct Hc. constructor; rewrite ?R1, ?R3, ?R4, ?R7, ?R8, ?R9, ?R10; try done.
    + intros X. specialize (co_serial0 X). congruence.
    + intros X. destruct (co_main0 X) as [Y _]. by rewrite Y in Hd.
    + intros X. exfalso. assert (past_serial (ctl r) = true) as Y by (by destruct (ctl r)). specialize (co_serial0 Y). congruence.
    + intros _. by eapply serial_wake_rank.
  - intros E. destruct (main_wake cfg now w who r) as [r1|] eqn:E1; [|done]. injection E as <- <-.
    destruct (main_wake_other _ _ _ _ _ Hk (co_bridge _ Hc) E1) as (Hss & Hcs & Hb & Hd).
    destruct (serial_side_ok now r r1 Hss Hp Hs) as [Hp1 Hs1]. split_and!; [done..|].
    injection Hss as R1 R2 R3 R4 R5 R6 R7 R8 R9. injection Hcs as Q1 Q2 Q3 Q4 Q5 Q6.
    destruct Hc. constructor; rewrite ?Q1, ?Q3, ?Q4, ?Q5, ?Q6, ?R2, ?R9; try done.
    + intros X. destruct (co_main0 X) as [_ Y]. by rewrite Y in Hd.
    + intros X. assert (past_main (ctl r) = true) as Y by (by destruct (ctl r)). destruct (co_main0 Y) as [_ Z]. by rewrite Z in Hd.
    + intros _. by eapply main_wake_rank; [exact co_bridge0|..].
  - destruct (ports r !! h) as [[]|] eqn:E; try done. intros [= <- <-]. split_and!.
    + destruct Hp. constructor; cbn; try done.
      * intros h' Hw. specialize (po_writer0 h' Hw). rewrite lookup_delete_ne; [done|congruence].
      * intros h'. rewrite lookup_delete_Some. intros [_ X]. by apply po_owned0.
      * intros h' [b X]. apply lookup_delete_Some in X as [_ X]. apply po_fresh0. by exists b.
    + destruct Hs. same_fields.
    + destruct Hc. same_fields.
  - intros [= <- <-]. destruct (net_step_other o r) as (Hss & Hcs & Hm & Hst).
    destruct (serial_side_ok now r _ Hss Hp Hs) as [Hp1 Hs1]. split_and!; [done..|].
    injection Hss as R1 R2 R3 R4 R5 R6 R7 R8 R9. injection Hcs as Q1 Q2 Q3 Q4 Q5 Q6.
    destruct Hc. constructor; by rewrite ?Hm, ?Hst, ?Q1, ?Q3, ?Q4, ?Q5, ?Q6, ?R2, ?R9.
Qed.
Lemma runner_reach_inv b x : rc_kind cfg ≠ SerialBridge → serial_open b = false → reach cfg b x → inv x.1 x.2.
Proof.
  intros Hk Hb Hx. induction Hx as [now|a x y _ IH E].
  - split_and!; constructor; cbn; try done. intros h. rewrite lookup_empty. by intros [].
  - destruct x as [now r], y as [now' r']. by eapply act_ok.
Qed.

(** *** What a stopped runner holds *)
(** C13: a bridge of a network mapping (not one of two serial ports, which can leak one: [bridge_leaks_port]; nor the Modbus
    gateway, whose runner is [GatewayRunner]) never holds two serial ports, the one it holds is the one its clients
    write to, and when it is stopped (or was never started) nothing of it is left, in whatever order its tasks ran:
    no open port, no task, no listener, no broker or trace, and what a surviving client sends
    reaches no port. Stopping aborts every client there is. *)
Theorem stop_releases b now r :
  rc_kind cfg ≠ SerialBridge → serial_open b = false → reach cfg b (now, r) →
  (∀ h, ports r !! h = Some true → swriter r = Some h)
  ∧ (down (ctl r) = true →
     (∀ h, ports r !! h ≠ Some true) ∧ swriter r = None ∧ serial_task r = None ∧ main_task r = None ∧ server r = None
     ∧ udp_open r = false ∧ mqtt_on r = false ∧ tracer_on r = false ∧ st_state (status r) = Stopped
     ∧ ∀ id t data, serial_out (br (net_step cfg (NRead id t data) r)) = serial_out (br r))
  ∧ (ctl r = Up → Forall (λ c, aborted c = true ∧ closing c = true) (clients (br (stop_begin now r)))).
Proof.
  intros Hk Hb Hr. apply runner_reach_inv in Hr as (Hp & Hs & Hc); [|done..]. cbn in Hp, Hs, Hc. split_and!.
  - apply Hp.
  - intros Hd. destruct (co_main _ Hc) as [Hst Hmt]; [by destruct (ctl r)|].
    destruct (co_quiet _ Hc) as [Hq Hu]; [by destruct (ctl r)|]. destruct (co_down _ Hc Hd) as [Ht Hstate].
    assert (swriter r = None) as Hw.
    { pose proof (so_holds _ _ Hs) as Hh. rewrite Hst in Hh. by destruct (swriter r). }
    split_and!; try done.
    + intros h Hh. apply (po_owned _ Hp) in Hh. congruence.
    + apply co_server; [done|by destruct (ctl r)].
    + intros id t data. pose proof (po_open _ Hp) as Ho. rewrite Hw in Ho. cbn [net_step on_br upd_br br]. unfold client_read.
      destruct (List.find _ _); [|done]. destruct (pump_net_to_serial _ _ _ _) as [c' [|x l]]; [done|].
      unfold serial_write. cbn [serial_open Bridge.set_clients]. by rewrite Ho.
  - intros Hup. assert (∀ r0 : rt, clients (br (stop_serial r0)) = clients (br r0)) as Hcl.
    { intros r0. unfold stop_serial, stop_main, stop_close, _close_serial, stop_trace.
      destruct (serial_task r0), (main_task r0); cbn; try done; destruct (swriter r0); cbn; try done; by destruct (tracer_on r0). }
    unfold stop_begin. cbn zeta. match goal with |- context [stop_serial ?x] => set (r' := x) end.
    assert (clients (br r') = Bridge.kick (str "mapping stopped") <$> clients (br r)) as E by (unfold r'; by destruct (mqtt_on _)).
    clearbody r'. destruct (server r'); [|rewrite Hcl]; cbn [br upd_ctl]; rewrite E; apply Forall_fmap, Forall_true; done.
Qed.

(** *** The port is opened again *)

(** When the await of the serial task is over at the latest, with [late] for whoever has to answer. *)
Definition due (now : Z) (pc : option spc) : Z := match pc with Some (SBackoff u) => Z.max now u | _ => now end.
(** The next thing the serial task sees while its device is present: every call is answered within [late] ms,
    as is the release of a port that is being closed, and the timer is that late at most. *)
Inductive present (late : Z) : Z * rt → Z * rt → Prop :=
  | present_wake now r t w y :
      now <= t <= due now (serial_task r) + late → (serial_task r = Some SOpening → ∀ m, w ≠ WError m) →
      act cfg (SerialWake w) (t, r) = Some y → present late (now, r) y
  | present_release now r t h k y :
      now <= t <= now + late → serial_task r = Some (SClosing h k) →
      act cfg (Release h) (t, r) = Some y → present late (now, r) y.
Definition port_open_by (limit : Z) (x : Z * rt) : Prop := is_Some (swriter x.2) ∧ x.1 <= limit.
Definition going (r : rt) : Prop := stopping r = false ∧ serial_cancel r = false.

Lemma opening_opens late limit now r :
  0 <= late → serial_task r = Some SOpening → going r → now + late <= limit → inevitably (present late) (port_open_by limit) (now, r).
Proof.
  intros Hl Ht [Hs Hc] Hb. apply ev_next.
  - eexists. apply (present_wake late now r now (WOpened [])); [rewrite Ht; cbn; lia|done|]. cbn. unfold serial_wake. rewrite Ht, Hc. done.
  - intros y Hy. inversion Hy as [? ? t w ? Ht1 Hw Ha|? ? t h k ? Ht1 Hk]; subst; [|congruence]. rewrite Ht in Ht1. cbn in Ht1.
    cbn in Ha. unfold serial_wake in Ha. rewrite Ht, Hc in Ha. specialize (Hw Ht).
    destruct w; try done; [|by destruct (Hw msg)]. injection Ha as <-. apply ev_now. split; [|cbn; lia]. cbn [snd].
    unfold serial_opened, open_port. cbn beta iota zeta. destruct (rc_openstr cfg); [|done]. unfold read_top. cbn [stopping _log emit upd_out].
    match goal with |- context [if ?c then _ else _] => change c with (stopping r) end. by rewrite Hs.
Qed.
Lemma backoff_opens late limit now r u :
  0 <= late → serial_task r = Some (SBackoff u) → going r → Z.max now u + 2 * late <= limit →
  inevitably (present late) (port_open_by limit) (now, r).
Proof.
  intros Hl Ht [Hs Hc] Hb. apply ev_next.
  - eexists. apply (present_wake late now r (Z.max now u) WTimer); [rewrite Ht; cbn; lia|done|]. cbn. unfold serial_wake. rewrite Ht, Hc.
    destruct (Z.leb_spec u (Z.max now u)); [done|lia].
  - intros y Hy. inversion Hy as [? ? t w ? Ht1 Hw Ha|? ? t h k ? Ht1 Hk]; subst; [|congruence]. rewrite Ht in Ht1. cbn in Ht1.
    cbn in Ha. unfold serial_wake in Ha. rewrite Ht, Hc, Hs in Ha. destruct w; try done.
    destruct (Z.leb_spec u t); [|done]. injection Ha as <-.
    apply opening_opens; [done| |done|lia]. unfold serial_top. cbn. by rewrite Hs.
Qed.
Lemma after_opens late limit now r :
  0 <= late → going r → retry_ok (serial_retry r) → now + 10400 + 2 * late <= limit →
  inevitably (present late) (port_open_by limit) (now, serial_after now Retry r).
Proof.
  intros Hl [Hs Hc] Hr Hb. unfold serial_after. rewrite Hs. pose proof (delay_bound _ (retry_ok_another _ Hr)).
  eapply backoff_opens; [done|done|done|]. lia.
Qed.
Lemma closing_opens late limit now r h :
  0 <= late → serial_task r = Some (SClosing h Retry) → going r → retry_ok (serial_retry r) → ports r !! h ≠ Some true →
  now + 10400 + 4 * late <= limit → inevitably (present late) (port_open_by limit) (now, r).
Proof.
  intros Hl Ht Hg Hr Hh Hb.
  assert (∀ now (r : rt), serial_task r = Some (SClosing h Retry) → going r → retry_ok (serial_retry r) → ports r !! h = None →
    now + 10400 + 3 * late <= limit → inevitably (present late) (port_open_by limit) (now, r)) as Hdone.
  { clear -Hl. intros now r Ht [Hs Hc] Hr Hh Hb. apply ev_next.
    - eexists. apply (present_wake late now r now WDone); [rewrite Ht; cbn; lia|done|]. cbn. unfold serial_wake, released. by rewrite Ht, Hc, Hh.
    - intros y Hy. inversion Hy as [? ? t w ? Ht1 Hw Ha|? ? t h' k ? Ht1 Hk Ha]; subst.
      + rewrite Ht in Ht1. cbn in Ht1. cbn in Ha. unfold serial_wake, released in Ha. rewrite Ht, Hc, Hh in Ha. destruct w; try done.
        injection Ha as <-. apply after_opens; [done|done|done|lia].
      + rewrite Ht in Hk. injection Hk as <- <-. cbn in Ha. by rewrite Hh in Ha. }
  destruct (ports r !! h) as [[]|] eqn:E; [done| |apply Hdone; try done; lia]. apply ev_next.
  - eexists. apply (present_release late now r now h Retry); [lia|done|]. cbn. by rewrite E.
  - destruct Hg as [Hs Hc]. intros y Hy. inversion Hy as [? ? t w ? Ht1 Hw Ha|? ? t h' k ? Ht1 Hk Ha]; subst.
    + cbn in Ha. unfold serial_wake, released in Ha. rewrite Ht, Hc, E in Ha. by destruct w.
    + rewrite Ht in Hk. injection Hk as <- <-. cbn in Ha. rewrite E in Ha. injection Ha as <-.
      apply Hdone; try done; [by cbn; rewrite lookup_delete_eq|lia].
Qed.

(** C12: a device that is present is in use again within 10.4 s, whatever happened before: from any point of
    any execution of a running bridge of a network mapping (not a bridge of two serial ports, nor the Modbus gateway, whose
    runner is [GatewayRunner]), once opening the port no longer fails, the serial task opens it
    no later than 10.4 s and four scheduling delays afterwards, on every order of events, and it is never stuck. *)
Theorem serial_reopens b now r late :
  rc_kind cfg ≠ SerialBridge → serial_open b = false → 0 <= late → reach cfg b (now, r) →
  stopping r = false → is_Some (serial_task r) → serial_task r ≠ Some SDone →
  inevitably (present late) (port_open_by (now + 10400 + 4 * late)) (now, r).
Proof.
  intros Hk Hb Hl Hr Hs [pc Ht] Hd. apply runner_reach_inv in Hr as (Hp & Hso & _); [|done..]. cbn in Hp, Hso.
  assert (going r) as Hg by (split; [done|]; destruct (serial_cancel r) eqn:E; [apply (so_cancel _ _ Hso) in E; congruence|done]).
  pose proof (so_retry _ _ Hso) as Hry. destruct pc as [| | | |h k|u|]; [| | | | | |by rewrite Ht in Hd].
  - destruct Hg as [_ Hc]. apply ev_next.
    + eexists. apply (present_wake late now r now WStart); [rewrite Ht; cbn; lia|by rewrite Ht|]. cbn. unfold serial_wake. by rewrite Ht, Hc.
    + intros y Hy. inversion Hy as [? ? t w ? Ht1 Hw Ha|? ? t h k ? Ht1 Hk']; subst; [|congruence]. rewrite Ht in Ht1. cbn in Ht1.
      cbn in Ha. unfold serial_wake in Ha. rewrite Ht, Hc in Ha. destruct w; try done. injection Ha as <-.
      apply opening_opens; [done| |done|lia]. unfold serial_top. cbn. by rewrite Hs.
  - apply opening_opens; [done..|lia].
  - apply ev_now. split; [|cbn; lia]. pose proof (so_holds _ _ Hso) as E. rewrite Ht in E. cbn in E. symmetry in E. by apply bool_decide_eq_true in E.
  - apply ev_now. split; [|cbn; lia]. pose proof (so_holds _ _ Hso) as E. rewrite Ht in E. cbn in E. symmetry in E. by apply bool_decide_eq_true in E.
  - destruct k; [|apply (so_cancelled _ _ Hso) in Ht; congruence]. apply (closing_opens late _ now r h); try done.
    intros E. apply (po_owned _ Hp) in E. pose proof (so_holds _ _ Hso) as E2. by rewrite Ht, E in E2.
  - eapply backoff_opens; [done|done|done|]. pose proof (so_until _ _ Hso u Ht). lia.
Qed.

(** *** Stopping ends *)
(** What happens while a runner is being stopped: its tasks and the call go on, and ports are released. *)
Definition stop_action (a : action (S:=S)) : bool :=
  match a with StopWake _ | SerialWake _ | MainWake _ _ | Release _ => true | _ => false end.
Inductive stop_step : Z * rt → Z * rt → Prop :=
  | stop_step_act now r t a y : now <= t → stop_action a = true → act cfg a (t, r) = Some y → stop_step (now, r) y.
Definition ctl_rank (c : ctl_pc) : nat :=
  match c with StopServer _ => 6 | StopSerial => 5 | StopMain => 4 | StopClose _ => 3 | StopTrace => 2 | _ => 0 end.
Definition stop_rank (r : rt) : nat := ctl_rank (ctl r) + spc_rank (serial_task r) + mpc_rank (main_task r).
Definition ending (r r' : rt) (n : nat) : Prop := (winding (ctl r') || down (ctl r') = true) ∧ (stop_rank r' < n)%nat.

Lemma stop_trace_ending (r : rt) n :
  (spc_rank (serial_task r) + mpc_rank (main_task r) + 2 < n)%nat → ending r (stop_trace r) n.
Proof. intros Hn. unfold stop_trace, ending, stop_rank. destruct (tracer_on r); split; try done; cbn; lia. Qed.
Lemma stop_close_ending (r : rt) n : (3 < n)%nat → ending r (stop_close r) n.
Proof.
  intros Hn. unfold stop_close, _close_serial. cbn [swriter upd_main_task upd_serial_task]. destruct (swriter r); [by split|].
  apply stop_trace_ending. cbn. lia.
Qed.
Lemma stop_main_ending (r : rt) n : (spc_rank (serial_task r) + mpc_rank (main_task r) + 4 < n)%nat → ending r (stop_main r) n.
Proof.
  intros Hn. unfold stop_main. destruct (main_task r) eqn:E; [|apply stop_close_ending; lia].
  split; [done|]. unfold stop_rank. cbn. rewrite E. lia.
Qed.
Lemma stop_serial_ending (r : rt) n : (spc_rank (serial_task r) + mpc_rank (main_task r) + 5 < n)%nat → ending r (stop_serial r) n.
Proof.
  intros Hn. unfold stop_serial. destruct (serial_task r) eqn:E; [|apply stop_main_ending; rewrite E; cbn in *; lia].
  split; [done|]. unfold stop_rank. cbn. rewrite E. cbn in *. lia.
Qed.
Lemma stop_wake_ending t closed (r r' : rt) : stop_wake t closed r = Some r' → ending r r' (stop_rank r).
Proof.
  unfold stop_wake, stop_rank. destruct (ctl r) eqn:E; try done; cbn [ctl_rank].
  - destruct (_ || _); [|done]. intros [= <-]. apply stop_serial_ending. cbn. lia.
  - destruct (serial_task r) as [[]|] eqn:Et; try done. intros [= <-]. apply stop_main_ending. rewrite Et. cbn. lia.
  - destruct (main_task r) as [[]|] eqn:Et; try done. intros [= <-]. apply stop_close_ending. cbn. lia.
  - destruct (released _ _); [|done]. intros [= <-]. apply stop_trace_ending. lia.
  - intros [= <-]. split; [done|]. unfold stop_rank. cbn. lia.
Qed.
(** Some step is always possible. *)
Lemma stop_not_stuck now r : rc_kind cfg ≠ SerialBridge → inv now r → winding (ctl r) = true → ∃ y, stop_step (now, r) y.
Proof.
  intros Hk (Hp & Hs & Hc) Hw. pose proof (co_stop _ Hc Hw) as Hst.
  assert (∀ a y, stop_action a = true → act cfg a (now, r) = Some y → ∃ y, stop_step (now, r) y) as Hgo.
  { intros a y Ha E. exists y. by apply (stop_step_act now r now a y). }
  assert (∀ w, is_Some (serial_wake cfg now w r) → ∃ y, stop_step (now, r) y) as Hser.
  { intros w [r' E]. apply (Hgo (SerialWake w) (now, r')); [done|]. cbn. by rewrite E. }
  assert (∀ w who, is_Some (main_wake cfg now w who r) → ∃ y, stop_step (now, r) y) as Hmain.
  { intros w who [r' E]. apply (Hgo (MainWake w who) (now, r')); [done|]. cbn. by rewrite E. }
  assert (∀ h k, serial_task r = Some (SClosing h k) → serial_cancel r = false → ∃ y, stop_step (now, r) y) as Hclosing.
  { intros h k Et Ec. destruct (ports r !! h) as [[]|] eqn:Eh.
    - apply (po_owned _ Hp) in Eh. pose proof (so_holds _ _ Hs) as Hh. by rewrite Et, Eh in Hh.
    - eapply (Hgo (Release h)); [done|]. cbn. by rewrite Eh.
    - apply (Hser WDone). unfold serial_wake, released. rewrite Et, Ec, Eh. by eexists. }
  destruct (ctl r) eqn:E; try done.
  - eapply (Hgo (StopWake true)); [done|]. cbn. unfold stop_wake. by rewrite E.
  - destruct (co_wait_s _ Hc E) as [pc Et]. destruct (spc_done (Some pc)) eqn:Hd.
    { destruct pc; try done. eapply (Hgo (StopWake true)); [done|]. cbn. unfold stop_wake. by rewrite E, Et. }
    destruct (serial_cancel r) eqn:Ec.
    { apply (Hser WCancel). unfold serial_wake. rewrite Et, Ec. destruct pc; [by eexists..|done]. }
    destruct pc; try done.
    + apply (Hser WStart). unfold serial_wake. rewrite Et, Ec. by eexists.
    + apply (Hser (WError [])). unfold serial_wake. rewrite Et, Ec. by eexists.
    + apply (Hser WDone). unfold serial_wake. rewrite Et, Ec. by eexists.
    + apply (Hser (WError [])). unfold serial_wake. rewrite Et, Ec. by eexists.
    + by eapply Hclosing.
    + apply (Hser WStop). unfold serial_wake. rewrite Et, Ec, Hst. by eexists.
  - destruct (co_wait_m _ Hc E) as [pc Et]. pose proof (co_bridge _ Hc) as Hb. rewrite Et in Hb.
    set (who := _ClientConn (S:=S) 0 [] false 0 0). destruct (main_cancel r) eqn:Ec.
    { destruct (mpc_done (Some pc)) eqn:Hd.
      - destruct pc; try done. eapply (Hgo (StopWake true)); [done|]. cbn. unfold stop_wake. by rewrite E, Et.
      - apply (Hmain WCancel who). unfold main_wake. rewrite Et, Ec. destruct pc; [by eexists..|done]. }
    destruct pc; try done.
    + apply (Hmain WStart who). unfold main_wake. rewrite Et, Ec. by eexists.
    + apply (Hmain (WError []) who). unfold main_wake. rewrite Et, Ec. by eexists.
    + apply (Hmain (WEnded []) who). unfold main_wake. rewrite Et, Ec. by eexists.
    + apply (Hmain WDone who). unfold main_wake. rewrite Et, Ec. by eexists.
    + apply (Hmain WStop who). unfold main_wake. rewrite Et, Ec, Hst. by eexists.
    + eapply (Hgo (StopWake true)); [done|]. cbn. unfold stop_wake. by rewrite E, Et.
  - by destruct (co_close _ Hc h).
  - eapply (Hgo (StopWake true)); [done|]. cbn. unfold stop_wake. by rewrite E.
Qed.

(** C14: a call of [stop] on a bridge of a network mapping (again neither a bridge of two serial ports nor the Modbus
    gateway) that has begun always comes to its end: whatever the order in which the tasks of the
    runner go on, after finitely many steps the runner is stopped, and until then some step can be taken. *)
Theorem stop_completes b now r :
  rc_kind cfg ≠ SerialBridge → serial_open b = false → reach cfg b (now, r) → winding (ctl r) = true →
  inevitably stop_step (λ x, down (ctl x.2) = true) (now, r).
Proof.
  intros Hk Hb Hr Hw. apply runner_reach_inv in Hr; [|done..]. cbn [fst snd] in Hr.
  remember (stop_rank r) as n eqn:En. revert now r Hr Hw En. induction (lt_wf n) as [n _ IHn]. intros now r Hi Hw ->.
  remember (size (ports r)) as m eqn:Em. revert now r IHn Hi Hw Em. induction (lt_wf m) as [m _ IHm]. intros now r IHn Hi Hw ->.
  apply ev_next; [by apply stop_not_stuck|]. intros [now' r'] Hy. inversion Hy as [? ? t a ? Ht Ha E]; subst.
  assert (inv t r) as Hit.
  { destruct Hi as (Hp & Hs & Hc). split_and!; [done| |done]. destruct Hs. constructor; try done. intros u Hu. specialize (so_until0 u Hu). lia. }
  pose proof (act_ok _ _ _ _ _ Hk Hit E) as Hi'. destruct Hit as (Hp & Hs & Hc). pose proof (co_stop _ Hc Hw) as Hst.
  assert (ending r r' (stop_rank r) → inevitably stop_step (λ x, down (ctl x.2) = true) (now', r')) as Hgo.
  { intros [Hd Hlt]. destruct (winding (ctl r')) eqn:Hw'; [by eapply IHn|by apply ev_now]. }
  destruct a; try done; cbn [act] in E.
  - destruct (stop_wake t closed r) as [r1|] eqn:E1; [|done]. injection E as <- <-. apply Hgo. by eapply stop_wake_ending.
  - destruct (serial_wake cfg t w r) as [r1|] eqn:E1; [|done]. injection E as <- <-. apply Hgo.
    destruct (serial_wake_ok _ _ _ _ Hp Hs E1) as (_ & _ & [= R1 R2 R3 R4 R5 R6 R7 R8 R9 R10]).
    destruct (serial_wake_rank _ _ _ _ E1) as [_ Hlt]. specialize (Hlt Hst). unfold ending, stop_rank. rewrite R1, R4.
    split; [by rewrite Hw|lia].
  - destruct (main_wake cfg t w who r) as [r1|] eqn:E1; [|done]. injection E as <- <-. apply Hgo.
    destruct (main_wake_other _ _ _ _ _ Hk (co_bridge _ Hc) E1) as ([= R1 R2 R3 R4 R5 R6 R7 R8 R9] & [= Q1 Q2 Q3 Q4 Q5 Q6] & _).
    destruct (main_wake_rank _ _ _ _ _ (co_bridge _ Hc) Hk E1) as [_ Hlt]. specialize (Hlt Hst). unfold ending, stop_rank. rewrite Q1, R2.
    split; [by rewrite Hw|lia].
  - destruct (ports r !! h) as [[]|] eqn:Eh; try done. injection E as <- <-.
    eapply (IHm (size (delete h (ports r)))); [|done|exact Hi'|exact Hw|done].
    rewrite map_size_delete_Some by (by eexists). assert (size (ports r) ≠ 0%nat); [|lia].
    intros X. apply map_size_empty_inv in X. by rewrite X, lookup_empty in Eh.
Qed.

Lemma run_reach b l x y : reach cfg b x → run cfg l x = Some y → reach cfg b y.
Proof.
  revert x. induction l as [|a l IH]; cbn [run]; intros x Hx E; [by injection E as <-|].
  destruct (act cfg a x) as [z|] eqn:Ea; [|done]. by eapply IH; [eapply reach_act|].
Qed.
End resources.

(** ** Executions *)
Definition idle_bridge : Bridge.runner Raw.RawSession := set_serial_open false (quiet_runner [] []).
Definition demo_cfg (k : run_kind) : run_cfg := mkCfg k false (str "AT") [] (str "9600 8N1") (str "0.0.0.0:3000").
Definition demo_run (k : run_kind) (l : list (action (S:=Raw.RawSession))) : Z * rt (S:=Raw.RawSession) :=
  default (0, runner0 idle_bridge) (run (demo_cfg k) l (0, runner0 idle_bridge)).
Definition runs (k : run_kind) (l : list (action (S:=Raw.RawSession))) : bool :=
  match run (demo_cfg k) l (0, runner0 idle_bridge) with Some _ => true | None => false end.
Lemma demo_reach k l : runs k l = true → reach (demo_cfg k) idle_bridge ((demo_run k l).1, (demo_run k l).2).
Proof.
  unfold runs, demo_run. destruct (run _ _ _) as [[t r]|] eqn:E; [|done]. intros _. eapply run_reach; [apply reach_init|exact E].
Qed.
(** A listener with its port open; then the device is gone; then a call of [stop], to its end. *)
Definition demo_up : list (action (S:=Raw.RawSession)) :=
  [Start true; SerialWake WStart; StartDone true; SerialWake (WOpened (str "/dev/ttyUSB0")); SerialWake WDone;
   Net (NEnter raw_client); SerialWake (WRead (str "hello"))].
Definition demo_lost := demo_up ++ [Tick 700; SerialWake (WRead [])].
Definition demo_stop := demo_lost ++ [StopCall; Net (NGone 1); StopWake true; SerialWake WCancel; Release 0; StopWake true; StopWake true].

Lemma stop_releases_witness :
  let x := demo_run ModeServer demo_stop in let r := x.2 in
  (∀ h, ports r !! h = Some true → swriter r = Some h)
  ∧ (down (ctl r) = true →
     (∀ h, ports r !! h ≠ Some true) ∧ swriter r = None ∧ serial_task r = None ∧ main_task r = None ∧ server r = None
     ∧ udp_open r = false ∧ mqtt_on r = false ∧ tracer_on r = false ∧ st_state (status r) = Stopped
     ∧ ∀ id t data, serial_out (br (net_step (demo_cfg ModeServer) (NRead id t data) r)) = serial_out (br r))
  ∧ (ctl r = Up → Forall (λ c, aborted c = true ∧ closing c = true) (clients (br (stop_begin x.1 r)))).
Proof.
  apply (stop_releases (demo_cfg ModeServer) idle_bridge); [done|reflexivity|]. apply demo_reach. vm_compute. reflexivity.
Defined.
Lemma serial_reopens_witness :
  let x := demo_run ModeServer demo_lost in
  inevitably (present (demo_cfg ModeServer) 50) (port_open_by (x.1 + 10400 + 4 * 50)) (x.1, x.2).
Proof.
  apply (serial_reopens (demo_cfg ModeServer) idle_bridge); [done|reflexivity|lia| |vm_compute; reflexivity|..].
  - apply demo_reach. vm_compute. reflexivity.
  - vm_compute. by eexists.
  - vm_compute. intros E. discriminate E.
Defined.
Lemma stop_completes_witness :
  let x := demo_run ModeServer (demo_lost ++ [StopCall]) in
  inevitably (stop_step (demo_cfg ModeServer)) (λ x, down (ctl x.2) = true) (x.1, x.2).
Proof.
  apply (stop_completes (demo_cfg ModeServer) idle_bridge); [done|reflexivity|apply demo_reach; vm_compute; reflexivity|vm_compute; reflexivity].
Defined.

(** *** What goes wrong *)
(** [start] says the runner is running once its listener is up, although the serial task has already found the
    device missing. *)
Example start_hides_missing :
  let r := (demo_run ModeServer [Start false; SerialWake WStart; SerialWake (WError (str "no such device")); StartDone true]).2 in
  (ctl r, st_state (status r), st_error (status r), swriter r) = (Up, Running, str "no such device", None).
Proof. vm_compute. reflexivity. Qed.
(** A connection accepted just before [stop] closes the listener registers after the clients are aborted: it outlives
    the runner. *)
Example late_client :
  let x := demo_run ModeServer
    [Start false; SerialWake WStart; StartDone true; StopCall; Net (NEnter raw_client); Tick 5000; StopWake false;
     SerialWake WCancel; StopWake true] in
  (ctl x.2, (λ c, (c_id c, aborted c, closing c)) <$> clients (br x.2)) = (Down, [(1, false, false)]).
Proof. vm_compute. reflexivity. Qed.
(** A serial bridge that is stopped while it waits for its first port to close never closes the second one. *)
Definition bridge_stop : list (action (S:=Raw.RawSession)) :=
  [Start false; MainWake WStart raw_client; MainWake (WOpened (str "COM1")) raw_client; MainWake (WOpened (str "COM2")) raw_client;
   MainWake (WPumped true []) raw_client; StopCall; MainWake WCancel raw_client; StopWake true].
Example bridge_leaks_port :
  let r := (demo_run SerialBridge bridge_stop).2 in
  runs SerialBridge bridge_stop = true ∧ (ctl r, ports r !! 0%nat, ports r !! 1%nat) = (Down, Some false, Some true).
Proof. vm_compute. split; reflexivity. Qed.
