(* ===== verification/GatewayRunner.v ===== *)
(** * The life of a gateway (app/engine/modbus_gateway.py, ModbusGatewayRunner)

    [start] and [stop], the supervisor that keeps the bus open, the poll task and the tasks that write points, as
    tasks that interleave at their awaits. The shape is [Runner]'s, whose retries, ports and status it uses; what
    is done on the bus and for masters is in [Gateway]. Times are milliseconds. *)
From S2P Require Import Prelude PyStr PyVal IpAddr Gateway Bridge Runner.
#[local] Open Scope Z_scope.

(** The serial supervisor: not yet started, opening the port, holding it open, closing, waiting, ended. *)
Inductive gpc := GNew | GOpening | GHolding | GClosing (h : nat) (k : after) | GBackoff (until : Z) | GDone.
(** The poll task: not yet started, in a round of reads, waiting for the next one, ended. *)
Inductive ppc := PNew | PRound | PWaiting (until : Z) | PDone.
Inductive gctl :=
  | GIdle | GStartWait | GUp | GStopPoll | GStopServer (until : Z) | GStopSerial | GStopClose (h : nat) | GStopTrace | GDown.
(** What the gateway does besides its work on the bus. [GSparkplugClose]: NDEATH, then disconnect. *)
Inductive gevent := GLog (m : pystr) | GMqttConnect | GMqttClose | GSparkplugClose | GMonitorClosed (id : Z).
Record gw_cfg := mkGwCfg { gc_mqtt : bool; gc_sparkplug : bool; gc_points : bool; gc_interval : Z; gc_compact : pystr; gc_where : pystr }.

Section gateway.
Context (cfg : gw_cfg).

(** Of a writing task: whether it was cancelled; of a master: whether its connection was aborted. *)
Record grt := mkGrt {
  g_ctl : gctl;
  g_stopping : bool;
  g_ready : bool;
  g_port : option nat;
  g_serial : option gpc;
  g_cancel : bool;
  g_retry : retry;
  g_poll : option ppc;
  g_poll_cancel : bool;
  writes : list (Z * bool);
  g_server : option bool;
  g_sparkplug : bool;
  g_mqtt : bool;
  g_tracer : bool;
  masters : list (master * bool);
  g_monitors : list Z;
  g_status : RunnerStatus;
  g_ports : gmap nat bool;
  g_next : nat;
  g_out : list gevent;
}.
Definition upd_g_ctl (x : gctl) (r : grt) : grt := mkGrt x (g_stopping r) (g_ready r) (g_port r) (g_serial r) (g_cancel r) (g_retry r) (g_poll r) (g_poll_cancel r) (writes r) (g_server r) (g_sparkplug r) (g_mqtt r) (g_tracer r) (masters r) (g_monitors r) (g_status r) (g_ports r) (g_next r) (g_out r).
Definition upd_g_stopping (x : bool) (r : grt) : grt := mkGrt (g_ctl r) x (g_ready r) (g_port r) (g_serial r) (g_cancel r) (g_retry r) (g_poll r) (g_poll_cancel r) (writes r) (g_server r) (g_sparkplug r) (g_mqtt r) (g_tracer r) (masters r) (g_monitors r) (g_status r) (g_ports r) (g_next r) (g_out r).
Definition upd_g_ready (x : bool) (r : grt) : grt := mkGrt (g_ctl r) (g_stopping r) x (g_port r) (g_serial r) (g_cancel r) (g_retry r) (g_poll r) (g_poll_cancel r) (writes r) (g_server r) (g_sparkplug r) (g_mqtt r) (g_tracer r) (masters r) (g_monitors r) (g_status r) (g_ports r) (g_next r) (g_out r).
Definition upd_g_port (x : option nat) (r : grt) : grt := mkGrt (g_ctl r) (g_stopping r) (g_ready r) x (g_serial r) (g_cancel r) (g_retry r) (g_poll r) (g_poll_cancel r) (writes r) (g_server r) (g_sparkplug r) (g_mqtt r) (g_tracer r) (masters r) (g_monitors r) (g_status r) (g_ports r) (g_next r) (g_out r).
Definition upd_g_serial (x : option gpc) (r : grt) : grt := mkGrt (g_ctl r) (g_stopping r) (g_ready r) (g_port r) x (g_cancel r) (g_retry r) (g_poll r) (g_poll_cancel r) (writes r) (g_server r) (g_sparkplug r) (g_mqtt r) (g_tracer r) (masters r) (g_monitors r) (g_status r) (g_ports r) (g_next r) (g_out r).
Definition upd_g_cancel (x : bool) (r : grt) : grt := mkGrt (g_ctl r) (g_stopping r) (g_ready r) (g_port r) (g_serial r) x (g_retry r) (g_poll r) (g_poll_cancel r) (writes r) (g_server r) (g_sparkplug r) (g_mqtt r) (g_tracer r) (masters r) (g_monitors r) (g_status r) (g_ports r) (g_next r) (g_out r).
Definition upd_g_retry (x : retry) (r : grt) : grt := mkGrt (g_ctl r) (g_stopping r) (g_ready r) (g_port r) (g_serial r) (g_cancel r) x (g_poll r) (g_poll_cancel r) (writes r) (g_server r) (g_sparkplug r) (g_mqtt r) (g_tracer r) (masters r) (g_monitors r) (g_status r) (g_ports r) (g_next r) (g_out r).
Definition upd_g_poll (x : option ppc) (r : grt) : grt := mkGrt (g_ctl r) (g_stopping r) (g_ready r) (g_port r) (g_serial r) (g_cancel r) (g_retry r) x (g_poll_cancel r) (writes r) (g_server r) (g_sparkplug r) (g_mqtt r) (g_tracer r) (masters r) (g_monitors r) (g_status r) (g_ports r) (g_next r) (g_out r).
Definition upd_g_poll_cancel (x : bool) (r : grt) : grt := mkGrt (g_ctl r) (g_stopping r) (g_ready r) (g_port r) (g_serial r) (g_cancel r) (g_retry r) (g_poll r) x (writes r) (g_server r) (g_sparkplug r) (g_mqtt r) (g_tracer r) (masters r) (g_monitors r) (g_status r) (g_ports r) (g_next r) (g_out r).
Definition upd_writes (x : list (Z * bool)) (r : grt) : grt := mkGrt (g_ctl r) (g_stopping r) (g_ready r) (g_port r) (g_serial r) (g_cancel r) (g_retry r) (g_poll r) (g_poll_cancel r) x (g_server r) (g_sparkplug r) (g_mqtt r) (g_tracer r) (masters r) (g_monitors r) (g_status r) (g_ports r) (g_next r) (g_out r).
Definition upd_g_server (x : option bool) (r : grt) : grt := mkGrt (g_ctl r) (g_stopping r) (g_ready r) (g_port r) (g_serial r) (g_cancel r) (g_retry r) (g_poll r) (g_poll_cancel r) (writes r) x (g_sparkplug r) (g_mqtt r) (g_tracer r) (masters r) (g_monitors r) (g_status r) (g_ports r) (g_next r) (g_out r).
Definition upd_g_sparkplug (x : bool) (r : grt) : grt := mkGrt (g_ctl r) (g_stopping r) (g_ready r) (g_port r) (g_serial r) (g_cancel r) (g_retry r) (g_poll r) (g_poll_cancel r) (writes r) (g_server r) x (g_mqtt r) (g_tracer r) (masters r) (g_monitors r) (g_status r) (g_ports r) (g_next r) (g_out r).
Definition upd_g_mqtt (x : bool) (r : grt) : grt := mkGrt (g_ctl r) (g_stopping r) (g_ready r) (g_port r) (g_serial r) (g_cancel r) (g_retry r) (g_poll r) (g_poll_cancel r) (writes r) (g_server r) (g_sparkplug r) x (g_tracer r) (masters r) (g_monitors r) (g_status r) (g_ports r) (g_next r) (g_out r).
Definition upd_g_tracer (x : bool) (r : grt) : grt := mkGrt (g_ctl r) (g_stopping r) (g_ready r) (g_port r) (g_serial r) (g_cancel r) (g_retry r) (g_poll r) (g_poll_cancel r) (writes r) (g_server r) (g_sparkplug r) (g_mqtt r) x (masters r) (g_monitors r) (g_status r) (g_ports r) (g_next r) (g_out r).
Definition upd_masters (x : list (master * bool)) (r : grt) : grt := mkGrt (g_ctl r) (g_stopping r) (g_ready r) (g_port r) (g_serial r) (g_cancel r) (g_retry r) (g_poll r) (g_poll_cancel r) (writes r) (g_server r) (g_sparkplug r) (g_mqtt r) (g_tracer r) x (g_monitors r) (g_status r) (g_ports r) (g_next r) (g_out r).
Definition upd_g_monitors (x : list Z) (r : grt) : grt := mkGrt (g_ctl r) (g_stopping r) (g_ready r) (g_port r) (g_serial r) (g_cancel r) (g_retry r) (g_poll r) (g_poll_cancel r) (writes r) (g_server r) (g_sparkplug r) (g_mqtt r) (g_tracer r) (masters r) x (g_status r) (g_ports r) (g_next r) (g_out r).
Definition upd_g_status (x : RunnerStatus) (r : grt) : grt := mkGrt (g_ctl r) (g_stopping r) (g_ready r) (g_port r) (g_serial r) (g_cancel r) (g_retry r) (g_poll r) (g_poll_cancel r) (writes r) (g_server r) (g_sparkplug r) (g_mqtt r) (g_tracer r) (masters r) (g_monitors r) x (g_ports r) (g_next r) (g_out r).
Definition upd_g_ports (x : gmap nat bool) (r : grt) : grt := mkGrt (g_ctl r) (g_stopping r) (g_ready r) (g_port r) (g_serial r) (g_cancel r) (g_retry r) (g_poll r) (g_poll_cancel r) (writes r) (g_server r) (g_sparkplug r) (g_mqtt r) (g_tracer r) (masters r) (g_monitors r) (g_status r) x (g_next r) (g_out r).
Definition upd_g_next (x : nat) (r : grt) : grt := mkGrt (g_ctl r) (g_stopping r) (g_ready r) (g_port r) (g_serial r) (g_cancel r) (g_retry r) (g_poll r) (g_poll_cancel r) (writes r) (g_server r) (g_sparkplug r) (g_mqtt r) (g_tracer r) (masters r) (g_monitors r) (g_status r) (g_ports r) x (g_out r).
Definition upd_g_out (x : list gevent) (r : grt) : grt := mkGrt (g_ctl r) (g_stopping r) (g_ready r) (g_port r) (g_serial r) (g_cancel r) (g_retry r) (g_poll r) (g_poll_cancel r) (writes r) (g_server r) (g_sparkplug r) (g_mqtt r) (g_tracer r) (masters r) (g_monitors r) (g_status r) (g_ports r) (g_next r) x.
Definition g_log (m : pystr) (r : grt) : grt := upd_g_out (g_out r ++ [GLog m]) r.
Definition g_emit (l : list gevent) (r : grt) : grt := upd_g_out (g_out r ++ l) r.
Definition g_state x r := upd_g_status (let s := g_status r in mkStatus x (st_device s) (st_error s) (st_reconnects s)) r.
Definition g_opened_status d r := upd_g_status (mkStatus Running d [] (st_reconnects (g_status r))) r.
Definition g_error m r := upd_g_status (let s := g_status r in mkStatus (st_state s) (st_device s) m (st_reconnects s)) r.
Definition g_count r := upd_g_status (let s := g_status r in mkStatus (st_state s) (st_device s) (st_error s) (st_reconnects s + 1)) r.
Definition g_released (h : nat) (r : grt) : bool := match g_ports r !! h with None => true | Some _ => false end.

(** ** The serial supervisor *)
Definition g_top (r : grt) : grt := upd_g_serial (Some (if g_stopping r then GDone else GOpening)) r.
Definition g_after (now : Z) (k : after) (r : grt) : grt :=
  match k with
  | Cancelled => upd_g_serial (Some GDone) r
  | Retry =>
      if g_stopping r then upd_g_serial (Some GDone) r
      else
        let t := another (g_retry r) in
        upd_g_serial (Some (GBackoff (now + delay t))) (g_state Reconnecting (g_count (upd_g_retry t r)))
  end.
Definition g_close_serial (r : grt) : option nat * grt :=
  let r' := upd_g_port None (upd_g_ready false r) in
  match g_port r with Some h => (Some h, upd_g_ports (<[h := false]> (g_ports r)) r') | None => (None, r') end.
Definition g_finally (now : Z) (k : after) (r : grt) : grt :=
  match g_close_serial r with
  | (Some h, r) => upd_g_serial (Some (GClosing h k)) r
  | (None, r) => g_after now k r
  end.
Definition g_serial_error (now : Z) (msg : pystr) (r : grt) : grt :=
  g_finally now Retry
    (g_log (str "serial error: " ++ msg)
       (g_state (if attempt (g_retry r) =? 0 then DeviceMissing else Reconnecting) (g_error msg r))).
(** Once open the port is held until [_stop] is set: [await self._stop.wait()] returns at once when it is. *)
Definition g_opened (now : Z) (device : pystr) (r : grt) : grt :=
  let h := g_next r in
  let r := upd_g_next (Datatypes.S h) (upd_g_ports (<[h := true]> (g_ports r)) r) in
  let r := upd_g_ready true (g_opened_status device (upd_g_port (Some h) r)) in
  let r := g_log (str "serial open: " ++ device ++ str " @ " ++ gc_compact cfg) (upd_g_retry retry0 r) in
  if g_stopping r then g_finally now Retry r else upd_g_serial (Some GHolding) r.
Definition g_cancelled (now : Z) (pc : gpc) (r : grt) : grt :=
  match pc with
  | GOpening | GHolding => g_finally now Cancelled r
  | GNew | GClosing _ _ | GBackoff _ | GDone => upd_g_serial (Some GDone) r
  end.
Definition g_serial_wake (now : Z) (w : wake) (r : grt) : option grt :=
  match g_serial r with
  | None | Some GDone => None
  | Some pc =>
      if g_cancel r then
        match w with WCancel => Some (g_cancelled now pc (upd_g_cancel false r)) | _ => None end
      else
        match pc, w with
        | GNew, WStart => Some (g_top r)
        | GOpening, WOpened device => Some (g_opened now device r)
        | GOpening, WError msg => Some (g_serial_error now msg r)
        | GHolding, WStop => if g_stopping r then Some (g_finally now Retry r) else None
        | GClosing h k, WDone => if g_released h r then Some (g_after now k r) else None
        | GBackoff until, WTimer =>
            if until <=? now then Some (g_top (upd_g_retry (slower (g_retry r)) r)) else None
        | GBackoff _, WStop => if g_stopping r then Some (upd_g_serial (Some GDone) r) else None
        | _, _ => None
        end
  end.

(** ** Polling: the rounds are [Gateway.poll_round] *)
Definition poll_wake (now : Z) (w : wake) (r : grt) : option grt :=
  let top r := upd_g_poll (Some (if g_stopping r then PDone else PRound)) r in
  match g_poll r with
  | None | Some PDone => None
  | Some pc =>
      if g_poll_cancel r then
        match w with WCancel => Some (upd_g_poll (Some PDone) (upd_g_poll_cancel false r)) | _ => None end
      else
        match pc, w with
        | PNew, WStart => Some (top r)
        | PRound, WDone => Some (upd_g_poll (Some (PWaiting (now + gc_interval cfg))) r)
        | PWaiting until, WTimer => if until <=? now then Some (top r) else None
        | PWaiting _, WStop => if g_stopping r then Some (upd_g_poll (Some PDone) r) else None
        | _, _ => None
        end
  end.

(** ** stop *)
Definition g_stop_end (r : grt) : grt :=
  g_log (str "modbus gateway stopped") (upd_g_ctl GDown (g_state Stopped (upd_g_tracer false r))).
Definition g_stop_trace (r : grt) : grt := if g_tracer r then upd_g_ctl GStopTrace r else g_stop_end r.
Definition g_stop_close (r : grt) : grt :=
  match g_close_serial (upd_g_serial None r) with
  | (Some h, r) => upd_g_ctl (GStopClose h) r
  | (None, r) => g_stop_trace r
  end.
Definition g_stop_serial (r : grt) : grt :=
  match g_serial r with
  | Some pc => upd_g_ctl GStopSerial (upd_g_cancel (match pc with GDone => false | _ => true end) r)
  | None => g_stop_close r
  end.
Definition g_stop_server (now : Z) (r : grt) : grt :=
  let r := upd_writes ((λ t, (t.1, true)) <$> writes r) (upd_g_poll None r) in
  let r := if g_sparkplug r then upd_g_mqtt false (upd_g_sparkplug false (g_emit [GSparkplugClose] r))
           else if g_mqtt r then upd_g_mqtt false (g_emit [GMqttClose] r) else r in
  match g_server r with
  | Some _ => upd_g_ctl (GStopServer (now + 5000)) r
  | None => g_stop_serial r
  end.
Definition g_stop_begin (now : Z) (r : grt) : grt :=
  let r := upd_g_server ((λ _, false) <$> g_server r) (upd_g_stopping true r) in
  let r := upd_masters ((λ m, (m.1, true)) <$> masters r) r in
  let r := upd_g_monitors [] (g_emit (GMonitorClosed <$> g_monitors r) r) in
  match g_poll r with
  | Some pc => upd_g_ctl GStopPoll (upd_g_poll_cancel (match pc with PDone => false | _ => true end) r)
  | None => g_stop_server now r
  end.
Definition g_stop_wake (now : Z) (closed : bool) (r : grt) : option grt :=
  match g_ctl r with
  | GStopPoll => match g_poll r with Some PDone => Some (g_stop_server now r) | _ => None end
  | GStopServer until => if closed || (until <=? now) then Some (g_stop_serial (upd_g_server None r)) else None
  | GStopSerial => match g_serial r with Some GDone => Some (g_stop_close r) | _ => None end
  | GStopClose h => if g_released h r then Some (g_stop_trace r) else None
  | GStopTrace => Some (g_stop_end r)
  | _ => None
  end.

(** ** start *)
Definition g_start (tracer : bool) (r : grt) : grt :=
  upd_g_ctl GStartWait
    (upd_g_serial (Some GNew) (upd_g_cancel false (upd_g_retry retry0 (upd_g_tracer tracer (upd_g_stopping false r))))).
Definition g_start_done (now : Z) (ok : bool) (r : grt) : grt :=
  if ok then
    let r := g_log (str "modbus gateway listening on " ++ gc_where cfg) (upd_g_server (Some true) r) in
    let r := if gc_mqtt cfg && gc_points cfg
             then upd_g_poll (Some PNew) (upd_g_poll_cancel false
                    (g_emit [GMqttConnect] (upd_g_mqtt true (upd_g_sparkplug (gc_sparkplug cfg) r))))
             else r in
    upd_g_ctl GUp (g_state Running r)
  else g_stop_begin now r.

(** ** Executions *)
Inductive gaction :=
  | GTick (dt : Z) | GStart (tracer : bool) | GStartDone (ok : bool) | GStopCall | GStopWake (closed : bool)
  | GSerialWake (w : wake) | GPollWake (w : wake) | GRelease (h : nat)
  | GMaster (m : master) | GMasterGone (id : Z) | GWriteSoon (id : Z) | GWriteDone (id : Z) | GMonitor (id : Z).
Definition gateway0 : grt :=
  mkGrt GIdle false false None None false retry0 None false [] None false false false [] [] (mkStatus Stopped [] [] 0) ∅ O [].
Definition gact (a : gaction) (x : Z * grt) : option (Z * grt) :=
  let '(now, r) := x in
  match a with
  | GTick dt => if 0 <=? dt then Some (now + dt, r) else None
  | GStart tracer => match g_ctl r with GIdle | GDown => Some (now, g_start tracer r) | _ => None end
  | GStartDone ok => match g_ctl r with GStartWait => Some (now, g_start_done now ok r) | _ => None end
  | GStopCall => match g_ctl r with GUp => Some (now, g_stop_begin now r) | _ => None end
  | GStopWake closed => pair now <$> g_stop_wake now closed r
  | GSerialWake w => pair now <$> g_serial_wake now w r
  | GPollWake w => pair now <$> poll_wake now w r
  | GRelease h => match g_ports r !! h with Some false => Some (now, upd_g_ports (delete h (g_ports r)) r) | _ => None end
  | GMaster m => match g_server r with Some _ => Some (now, upd_masters (masters r ++ [(m, false)]) r) | None => None end
  | GMasterGone id => Some (now, upd_masters (List.filter (λ m, negb (m_id m.1 =? id)) (masters r)) r)
  | GWriteSoon id => if g_mqtt r then Some (now, upd_writes (writes r ++ [(id, false)]) r) else None
  | GWriteDone id => Some (now, upd_writes (List.filter (λ t, negb (t.1 =? id)) (writes r)) r)
  | GMonitor id => Some (now, upd_g_monitors (add_z id (g_monitors r)) r)
  end.
Fixpoint grun (l : list gaction) (x : Z * grt) : option (Z * grt) :=
  match l with [] => Some x | a :: l => gact a x ≫= grun l end.
Inductive greach : Z * grt → Prop :=
  | greach_init now : greach (now, gateway0)
  | greach_act a x y : greach x → gact a x = Some y → greach y.

(** ** The port is held *)
(** the gateway never notices that its device is gone: once the port is open, whatever happens short of a
    call of [stop], the supervisor holds the same port and never opens one again, so the port of a device
    that was unplugged and comes back stays dead until the mapping is restarted. *)
Theorem gateway_never_reopens h l x y :
  g_serial x.2 = Some GHolding → g_port x.2 = Some h → g_stopping x.2 = false → g_cancel x.2 = false → g_ctl x.2 = GUp →
  GStopCall ∉ l → grun l x = Some y →
  g_serial y.2 = Some GHolding ∧ g_port y.2 = Some h ∧ g_next y.2 = g_next x.2 ∧ st_state (g_status y.2) = st_state (g_status x.2).
Proof.
  revert x. induction l as [|a l IH]; intros [now r] H1 H2 H3 H4 H5 Hl E; cbn [grun] in E; cbn [snd] in *.
  { by injection E as <-. }
  apply not_elem_of_cons in Hl as [Ha Hl]. destruct (gact a (now, r)) as [[t r1]|] eqn:E1; [|done].
  assert (g_serial r1 = Some GHolding ∧ g_port r1 = Some h ∧ g_stopping r1 = false ∧ g_cancel r1 = false ∧ g_ctl r1 = GUp
    ∧ g_next r1 = g_next r ∧ g_status r1 = g_status r) as (K1 & K2 & K3 & K4 & K5 & K6 & K7).
  { destruct a; cbn in E1; rewrite ?H5 in E1; try done; try (by injection E1 as <- <-).
    - destruct (0 <=? dt); [|done]. by injection E1 as <- <-.
    - unfold g_stop_wake in E1. by rewrite H5 in E1.
    - unfold g_serial_wake in E1. rewrite H1, H4, H3 in E1. by destruct w.
    - unfold poll_wake in E1. destruct (g_poll r) as [pc|]; [|done]. destruct (g_poll_cancel r), pc, w; try done;
        try (by injection E1 as <- <-).
      + by rewrite H3 in E1.
      + destruct (until <=? now); [|done]. by injection E1 as <- <-.
    - destruct (g_ports r !! h0) as [[]|]; try done. by injection E1 as <- <-.
    - destruct (g_server r); [|done]. by injection E1 as <- <-.
    - destruct (g_mqtt r); [|done]. by injection E1 as <- <-. }
  destruct (IH (t, r1) K1 K2 K3 K4 K5 Hl E) as (J1 & J2 & J3 & J4). cbn [snd] in *. by rewrite <- K6, <- K7.
Qed.

(** ** What a stopped gateway holds *)
Definition g_holds (pc : option gpc) : bool := match pc with Some GHolding => true | _ => false end.
Record gports_ok (r : grt) : Prop := {
  gp_writer : ∀ h, g_port r = Some h → g_ports r !! h = Some true;
  gp_owned : ∀ h, g_ports r !! h = Some true → g_port r = Some h;
  gp_fresh : ∀ h, is_Some (g_ports r !! h) → (h < g_next r)%nat;
  gp_ready : g_ready r = bool_decide (is_Some (g_port r));
  gp_holds : g_holds (g_serial r) = bool_decide (is_Some (g_port r));
}.
Definition g_down (c : gctl) : bool := match c with GIdle | GDown => true | _ => false end.
Definition past_gserial (c : gctl) : bool := match c with GStopClose _ | GStopTrace | GIdle | GDown => true | _ => false end.
Definition past_gserver (c : gctl) : bool := match c with GStopSerial | GStartWait => true | _ => past_gserial c end.
Definition past_gpoll (c : gctl) : bool := match c with GStopServer _ => true | _ => past_gserver c end.
Record gctl_ok (r : grt) : Prop := {
  gc_serial : past_gserial (g_ctl r) = true → g_serial r = None;
  gc_server : past_gserver (g_ctl r) = true → g_server r = None;
  gc_poll : past_gpoll (g_ctl r) = true → g_poll r = None ∧ g_mqtt r = false ∧ g_sparkplug r = false;
  gc_plug : g_sparkplug r = true → g_mqtt r = true;
  gc_down : g_down (g_ctl r) = true → g_tracer r = false ∧ st_state (g_status r) = Stopped;
}.
Definition g_rest (r : grt) :=
  (g_ctl r, g_server r, g_poll r, g_mqtt r, g_sparkplug r, g_tracer r).
Definition ginv (r : grt) : Prop := gports_ok r ∧ gctl_ok r.

Lemma g_after_ok now k r r0 :
  gports_ok (upd_g_serial (Some GDone) r) → g_rest r = g_rest r0 → gports_ok (g_after now k r) ∧ g_rest (g_after now k r) = g_rest r0.
Proof.
  intros [] Hr. unfold g_after. destruct k; [destruct (g_stopping r)|]; (split; [same_fields|done]).
Qed.
Lemma g_close_ok r : gports_ok r → g_port r = None →
  ∀ pc, g_holds pc = false → gports_ok (upd_g_serial pc (upd_g_port None (upd_g_ready false r))).
Proof. intros [] Hp pc Hpc. rewrite Hp in *. constructor; try done. Qed.
Lemma g_finally_ok now k r r0 :
  gports_ok r → g_rest r = g_rest r0 → gports_ok (g_finally now k r) ∧ g_rest (g_finally now k r) = g_rest r0.
Proof.
  intros Hp Hr. unfold g_finally, g_close_serial. destruct (g_port r) as [h|] eqn:Ew.
  - split; [|done]. destruct Hp. constructor; cbn; try done.
    + intros h'. rewrite lookup_insert_Some. intros [[_ ?]|[Hne Hh]]; [done|]. apply gp_owned0 in Hh. congruence.
    + intros h' Hh. destruct (decide (h = h')) as [<-|Hne]; [apply gp_fresh0; by rewrite gp_writer0|].
      rewrite lookup_insert_ne in Hh by done. by apply gp_fresh0.
  - apply g_after_ok; [|done]. by apply (g_close_ok r).
Qed.
Lemma g_top_ok r r0 : gports_ok r → g_port r = None → g_rest r = g_rest r0 → gports_ok (g_top r) ∧ g_rest (g_top r) = g_rest r0.
Proof. intros [] Hp Hr. unfold g_top. split; [|done]. constructor; try assumption. cbn. rewrite Hp. by destruct (g_stopping r). Qed.
Lemma g_opened_ok now dev r r0 :
  gports_ok r → g_port r = None → g_rest r = g_rest r0 → gports_ok (g_opened now dev r) ∧ g_rest (g_opened now dev r) = g_rest r0.
Proof.
  intros Hp Hw Hr. unfold g_opened. cbn zeta. match goal with |- context [g_finally now Retry ?x] => set (r' := x) end.
  assert (gports_ok (upd_g_serial (Some GHolding) r')) as Hp'.
  { destruct Hp. constructor; cbn; try done.
    - intros h [= <-]. apply lookup_insert_eq.
    - intros h. rewrite lookup_insert_Some. intros [[<- _]|[_ Hh]]; [done|]. apply gp_owned0 in Hh. congruence.
    - intros h Hh. destruct (decide (g_next r = h)) as [<-|Hne]; [lia|]. rewrite lookup_insert_ne in Hh by done.
      apply gp_fresh0 in Hh. lia. }
  destruct (g_stopping r'); [|by split].
  assert (g_finally now Retry r' = g_finally now Retry (upd_g_serial (Some GHolding) r')) as -> by done. by apply g_finally_ok.
Qed.
Lemma g_serial_wake_ok now w r r' :
  gports_ok r → g_serial_wake now w r = Some r' → gports_ok r' ∧ g_rest r' = g_rest r ∧ is_Some (g_serial r).
Proof.
  intros Hp. assert (g_holds (g_serial r) = false → g_port r = None) as Hnone.
  { rewrite (gp_holds _ Hp). rewrite bool_decide_eq_false. destruct (g_port r); [|done]. intros []. by eexists. }
  unfold g_serial_wake. destruct (g_serial r) as [pc|] eqn:Et; [|done].
  assert (g_holds (Some pc) = false → gports_ok (upd_g_serial (Some GDone) r)) as Hdone.
  { intros Hh. specialize (Hnone Hh). destruct Hp. constructor; try assumption. cbn. by rewrite Hnone. }
  assert (∀ P : Prop, P ∧ g_rest r' = g_rest r → P ∧ g_rest r' = g_rest r ∧ is_Some (Some pc)) as Hsplit.
  { intros P [? ?]. split_and!; [done..|by eexists]. }
  destruct (g_cancel r) eqn:Ec.
  - intros E. apply Hsplit. assert (r' = g_cancelled now pc (upd_g_cancel false r)) as -> by (destruct pc, w; congruence).
    destruct pc; cbn [g_cancelled]; try (apply g_finally_ok; [destruct Hp; same_fields|done]).
    all: split; [|done]; destruct (Hdone eq_refl); same_fields.
  - destruct pc, w; try done; cbn [g_holds] in *.
    + intros [= <-]. apply Hsplit. by apply g_top_ok; [|apply Hnone|].
    + intros [= <-]. apply Hsplit. by apply g_opened_ok; [|apply Hnone|].
    + intros [= <-]. apply Hsplit. apply g_finally_ok; [destruct Hp; same_fields|done].
    + destruct (g_stopping r); [|done]. intros [= <-]. apply Hsplit. by apply g_finally_ok.
    + destruct (g_released _ _); [|done]. intros [= <-]. apply Hsplit. apply g_after_ok; [by apply Hdone|done].
    + destruct (g_stopping r); [|done]. intros [= <-]. apply Hsplit. split; [by apply Hdone|done].
    + destruct (_ <=? _); [|done]. intros [= <-]. apply Hsplit. apply g_top_ok; [destruct Hp; same_fields|by apply Hnone|done].
Qed.
Lemma g_stop_trace_ok r :
  gports_ok r → g_serial r = None → g_server r = None → g_poll r = None → g_mqtt r = false → g_sparkplug r = false →
  ginv (g_stop_trace r).
Proof.
  intros [] H1 H2 H3 H4 H5. unfold g_stop_trace, g_stop_end.
  destruct (g_tracer r); (split; [same_fields|]); constructor; cbn; by rewrite ?H1, ?H2, ?H3, ?H4, ?H5.
Qed.
Lemma g_stop_close_ok r :
  gports_ok r → g_holds (g_serial r) = false → g_server r = None → g_poll r = None → g_mqtt r = false → g_sparkplug r = false →
  ginv (g_stop_close r).
Proof.
  intros Hp Hh H2 H3 H4 H5. assert (g_port r = None) as Hw.
  { rewrite (gp_holds _ Hp) in Hh. destruct (g_port r); [|done]. by apply bool_decide_eq_false in Hh as []; eexists. }
  unfold g_stop_close, g_close_serial. change (g_port (upd_g_serial None r)) with (g_port r). rewrite Hw.
  apply g_stop_trace_ok; try done. destruct (g_close_ok r Hp Hw None eq_refl). same_fields.
Qed.
Lemma g_stop_serial_ok r :
  gports_ok r → g_server r = None → g_poll r = None → g_mqtt r = false → g_sparkplug r = false → ginv (g_stop_serial r).
Proof.
  intros Hp H2 H3 H4 H5. unfold g_stop_serial. destruct (g_serial r) as [pc|] eqn:E; [|by apply g_stop_close_ok; [done|rewrite E|..]].
  split; [destruct Hp; same_fields|]. constructor; cbn; by rewrite ?H2, ?H3, ?H4, ?H5.
Qed.
Lemma g_stop_server_ok now r : gports_ok r → (g_sparkplug r = true → g_mqtt r = true) → ginv (g_stop_server now r).
Proof.
  intros Hp Hs. unfold g_stop_server. cbn zeta. match goal with |- context [g_stop_serial ?x] => set (r' := x) end.
  assert (gports_ok r' ∧ g_poll r' = None ∧ g_mqtt r' = false ∧ g_sparkplug r' = false) as (H1 & H2 & H3 & H4).
  { unfold r'. destruct Hp. cbn. destruct (g_sparkplug r) eqn:E1, (g_mqtt r) eqn:E2; split_and!; try done; same_fields. }
  clearbody r'. destruct (g_server r') eqn:Es; [|by apply g_stop_serial_ok].
  split; [destruct H1; same_fields|]. constructor; cbn; by rewrite ?H2, ?H3, ?H4.
Qed.
Lemma g_stop_begin_ok now r : gports_ok r → (g_sparkplug r = true → g_mqtt r = true) → ginv (g_stop_begin now r).
Proof.
  intros Hp Hs. unfold g_stop_begin. cbn zeta. destruct (g_poll _) as [pc|].
  - split; [destruct Hp; same_fields|]. constructor; cbn; done.
  - apply g_stop_server_ok; [destruct Hp; same_fields|done].
Qed.
Lemma gact_ok a now r now' r' : ginv r → gact a (now, r) = Some (now', r') → ginv r'.
Proof.
  intros [Hp Hc]. pose proof (gc_plug _ Hc) as Hplug. destruct a; cbn [gact].
  - destruct (0 <=? dt); [|done]. by intros [= <- <-].
  - destruct (g_ctl r) eqn:E; try done; intros [= <- <-]; (destruct (gc_poll _ Hc) as (H1 & H2 & H3); [by rewrite E|]);
      pose proof (gc_server _ Hc) as H4; pose proof (gc_serial _ Hc) as H5; rewrite E in H4, H5; specialize (H4 eq_refl); specialize (H5 eq_refl);
      (split; [destruct Hp; rewrite H5 in *; same_fields|]); constructor; cbn; by rewrite ?H1, ?H2, ?H3.
  - destruct (g_ctl r) eqn:E; try done. intros [= <- <-]. unfold g_start_done. destruct ok; [|by apply g_stop_begin_ok].
    destruct (_ && _); (split; [destruct Hp; same_fields|]); constructor; cbn; done.
  - destruct (g_ctl r) eqn:E; try done. intros [= <- <-]. by apply g_stop_begin_ok.
  - intros E0. destruct (g_stop_wake now closed r) as [r1|] eqn:E1; [|done]. injection E0 as <- <-. unfold g_stop_wake in E1.
    pose proof (gc_server _ Hc) as Hsv. pose proof (gc_poll _ Hc) as Hpo. destruct (g_ctl r) eqn:E; try done.
    + destruct (g_poll r) as [[]|]; try done. injection E1 as <-. by apply g_stop_server_ok.
    + destruct (_ || _); [|done]. injection E1 as <-. destruct (Hpo eq_refl) as (? & ? & ?). apply g_stop_serial_ok; try done. destruct Hp. same_fields.
    + destruct (g_serial r) as [[]|] eqn:Et; try done. injection E1 as <-. destruct (Hpo eq_refl) as (? & ? & ?).
      apply g_stop_close_ok; try done; [by rewrite Et|by apply Hsv].
    + destruct (g_released _ _); [|done]. injection E1 as <-. destruct (Hpo eq_refl) as (? & ? & ?).
      apply g_stop_trace_ok; try done; [apply gc_serial; [done|by rewrite E]|by apply Hsv].
    + injection E1 as <-. destruct (Hpo eq_refl) as (H1 & H2 & H3). specialize (Hsv eq_refl).
      assert (g_serial r = None) as H4 by (apply gc_serial; [done|by rewrite E]).
      split; [destruct Hp; same_fields|]. constructor; cbn; by rewrite ?H1, ?H2, ?H3, ?H4, ?Hsv.
  - intros E. destruct (g_serial_wake now w r) as [r1|] eqn:E1; [|done]. injection E as <- <-.
    destruct (g_serial_wake_ok _ _ _ _ Hp E1) as (Hp1 & [= R1 R2 R3 R4 R5 R6] & [pc Hs]). split; [done|].
    destruct Hc. constructor; rewrite ?R1, ?R2, ?R3, ?R4, ?R5, ?R6; try done.
    + intros X. by rewrite (gc_serial0 X) in Hs.
    + intros X. assert (past_gserial (g_ctl r) = true) as Y by (by destruct (g_ctl r)). by rewrite (gc_serial0 Y) in Hs.
  - intros E. destruct (poll_wake now w r) as [r1|] eqn:E1; [|done]. injection E as <- <-.
    assert ((∃ p q, r1 = upd_g_poll (Some p) (upd_g_poll_cancel q r)) ∧ is_Some (g_poll r)) as [(p & q & ->) [pc Hs]].
    { unfold poll_wake in E1. destruct (g_poll r) as [pc|] eqn:Ep; [|done]. split; [|by eexists].
      destruct (g_poll_cancel r) eqn:Ec.
      - exists PDone, false. destruct pc, w; congruence.
      - exists (default PDone (g_poll r1)), false.
        destruct pc, w; try done; repeat case_match; try done; injection E1 as <-; destruct r; cbn in *; by subst. }
    split; [destruct Hp; same_fields|]. destruct Hc. constructor; cbn; try done. intros X. by rewrite (proj1 (gc_poll0 X)) in Hs.
  - destruct (g_ports r !! h) as [[]|] eqn:E; try done. intros [= <- <-]. split; [|by destruct Hc; same_fields].
    destruct Hp. constructor; cbn; try done.
    + intros h' Hw. specialize (gp_writer0 h' Hw). rewrite lookup_delete_ne; [done|congruence].
    + intros h'. rewrite lookup_delete_Some. intros [_ X]. by apply gp_owned0.
    + intros h' [b X]. apply lookup_delete_Some in X as [_ X]. apply gp_fresh0. by exists b.
  - destruct (g_server r); [|done]. intros [= <- <-]. split; [destruct Hp|destruct Hc]; same_fields.
  - intros [= <- <-]. split; [destruct Hp|destruct Hc]; same_fields.
  - destruct (g_mqtt r); [|done]. intros [= <- <-]. split; [destruct Hp|destruct Hc]; same_fields.
  - intros [= <- <-]. split; [destruct Hp|destruct Hc]; same_fields.
  - intros [= <- <-]. split; [destruct Hp|destruct Hc]; same_fields.
Qed.

Lemma masters_stop_server now r : masters (g_stop_server now r) = masters r.
Proof.
  assert (∀ x, masters (g_stop_serial x) = masters x) as Hx.
  { intros x. unfold g_stop_serial, g_stop_close, g_close_serial, g_stop_trace. destruct (g_serial x); [done|]. cbn.
    destruct (g_port x); [done|]. cbn. by destruct (g_tracer x). }
  unfold g_stop_server. cbn zeta. match goal with |- context [g_stop_serial ?x] => set (r' := x) end.
  assert (masters r' = masters r) as E by (unfold r'; cbn; by destruct (g_sparkplug r), (g_mqtt r)).
  clearbody r'. destruct (g_server r'); [done|]. by rewrite Hx.
Qed.
(** a gateway never holds two ports; a stopped one has no open port, no task on the bus, no listener and no broker
    connection left, and every master connected when it was stopped has been cut off. *)
Theorem gateway_stop_releases now r :
  greach (now, r) →
  (∀ h, g_ports r !! h = Some true → g_port r = Some h)
  ∧ (g_down (g_ctl r) = true →
     (∀ h, g_ports r !! h ≠ Some true) ∧ g_port r = None ∧ g_serial r = None ∧ g_poll r = None ∧ g_server r = None
     ∧ g_mqtt r = false ∧ g_sparkplug r = false ∧ g_tracer r = false ∧ st_state (g_status r) = Stopped)
  ∧ Forall (λ m, m.2 = true) (masters (g_stop_begin now r)).
Proof.
  intros Hr. assert (ginv r) as [Hp Hc].
  { change r with (now, r).2. induction Hr as [now'|a x y _ IH E].
    - split; constructor; cbn; try done. intros h. rewrite lookup_empty. by intros [].
    - destruct x, y. by eapply gact_ok. }
  split_and!; [apply Hp| |].
  - intros Hd. destruct (gc_poll _ Hc) as (H1 & H2 & H3); [by destruct (g_ctl r)|]. destruct (gc_down _ Hc Hd) as [H4 H5].
    assert (g_serial r = None) as H6 by (apply gc_serial; [done|by destruct (g_ctl r)]).
    assert (g_port r = None) as Hw.
    { pose proof (gp_holds _ Hp) as Hh. rewrite H6 in Hh. by destruct (g_port r). }
    split_and!; try done; [|apply gc_server; [done|by destruct (g_ctl r)]].
    intros h Hh. apply (gp_owned _ Hp) in Hh. congruence.
  - unfold g_stop_begin. cbn zeta. destruct (g_poll _); rewrite ?masters_stop_server; apply Forall_fmap, Forall_true; done.
Qed.
End gateway.
