(* ===== verification/Trace.v ===== *)
(** * Traffic traces (class Tracer of app/engine/bridge.py)

    The producer side ([write], on the event loop) and the writer thread's batches as operations on
    one state; the trace files of a mapping as a finite map from their rotation number (0 is the
    file being written). [stamp] formats a local time. Disk errors are not modelled. *)
From S2P Require Import Prelude PyFloat PyStr PyVal.
#[local] Open Scope Z_scope.

Definition QUEUE_MAX_BYTES : Z := 8 * 1024 * 1024.
Definition BATCH : nat := 256.

Record item := mkItem { i_ts : Z; i_dir : pystr; i_data : bytes }.

(** [traced] and [reported] count the data bytes written to the file and the bytes its "not
    traced" lines account for; they are not in the code. *)
Record tracer := mkTracer {
  hexdump : bool;
  timestamps : bool;
  max_bytes : Z;
  keep : nat;
  q : list item;
  queued : Z;
  dropped : Z;
  files : gmap nat bytes;
  traced : Z;
  reported : Z;
}.
Definition set_q l n d t := mkTracer (hexdump t) (timestamps t) (max_bytes t) (keep t) l n d (files t)
  (traced t) (reported t).
Definition set_files fs t := mkTracer (hexdump t) (timestamps t) (max_bytes t) (keep t) (q t)
  (queued t) (dropped t) fs (traced t) (reported t).
Definition count n r t := mkTracer (hexdump t) (timestamps t) (max_bytes t) (keep t) (q t)
  (queued t) (dropped t) (files t) (traced t + n) (reported t + r).

(** [Tracer(path, options)] with the file opened for appending. *)
Definition Tracer (hex ts : bool) (max_bytes : Z) (keep : nat) (fs : gmap nat bytes) : tracer :=
  mkTracer hex ts (Z.max 1 max_bytes) keep [] 0 0 (<[0%nat := default [] (fs !! 0%nat)]> fs) 0 0.

(** [write(direction, data)] on an active tracer. *)
Definition write (now : Z) (direction : pystr) (data : bytes) (t : tracer) : tracer :=
  match data with
  | [] => t
  | _ =>
      if QUEUE_MAX_BYTES <? queued t + zlen data
      then set_q (q t) (queued t) (dropped t + zlen data) t
      else set_q (q t ++ [mkItem now direction data]) (queued t + zlen data) (dropped t) t
  end.

(** [data.hex(' ')] *)
Definition hex_sp (data : bytes) : pystr :=
  join (str " ") ((λ b, [hex_char (b / 16); hex_char (b mod 16)]) <$> data).

Section tracer.
Context (stamp : Z → bytes).

Definition _format (ts : Z) (direction : pystr) (data : bytes) (t : tracer) : bytes :=
  let prefix := if timestamps t then stamp ts else [] in
  if hexdump t
  then prefix ++ direction ++ str " [" ++ str_of_Z (zlen data) ++ str "] " ++ hex_sp data ++ [10]
  else prefix ++ direction ++ str " " ++ data ++ [10].

Definition missing_note (dropped : Z) : bytes :=
  str_of_Z dropped ++ str " bytes not traced (the trace file could not keep up)".

(** ** Files *)
Definition _write (lines : list bytes) (fs : gmap nat bytes) : gmap nat bytes :=
  <[0%nat := default [] (fs !! 0%nat) ++ concat lines]> fs.

(** [for i in range(keep, 0, -1): ... os.replace(src, path.i)] *)
Fixpoint rotate_loop (i : nat) (fs : gmap nat bytes) : gmap nat bytes :=
  match i with
  | O => fs
  | S j =>
      rotate_loop j (match fs !! j with Some b => delete j (<[i := b]> fs) | None => fs end)
  end.
Definition _rotate (keep : nat) (fs : gmap nat bytes) : gmap nat bytes :=
  match keep with
  | O => <[0%nat := []]> fs
  | _ => let fs := rotate_loop keep fs in <[0%nat := default [] (fs !! 0%nat)]> fs
  end.

Fixpoint append_loop (keep : nat) (max : Z) (pending lines : list bytes) (size : Z)
    (fs : gmap nat bytes) : gmap nat bytes :=
  match lines with
  | [] => match pending with [] => fs | _ => _write pending fs end
  | line :: rest =>
      let pending := pending ++ [line] in
      let size := size + zlen line in
      if max <=? size then append_loop keep max [] rest 0 (_rotate keep (_write pending fs))
      else append_loop keep max pending rest size fs
  end.
Definition _append (lines : list bytes) (t : tracer) : tracer :=
  set_files (append_loop (keep t) (max_bytes t) [] lines (zlen (default [] (files t !! 0%nat)))
               (files t)) t.

(** ** The writer thread *)
(** One item of a batch: its lines, and the counters. *)
Definition take_item (it : item) (t : tracer) : list bytes * tracer :=
  let d := dropped t in
  let t' := count (zlen (i_data it)) d (set_q (q t) (queued t - zlen (i_data it)) 0 t) in
  ((if d =? 0 then [] else [_format (i_ts it) (str "!!") (missing_note d) t]) ++
   [_format (i_ts it) (i_dir it) (i_data it) t], t').
Fixpoint take_items (its : list item) (t : tracer) : list bytes * tracer :=
  match its with
  | [] => ([], t)
  | it :: rest =>
      let '(l1, t1) := take_item it t in
      let '(l2, t2) := take_items rest t1 in (l1 ++ l2, t2)
  end.
(** One turn of [_run] on a queue that is not empty. *)
Definition run_batch (t : tracer) : tracer :=
  let batch := take BATCH (q t) in
  let t := set_q (drop BATCH (q t)) (queued t) (dropped t) t in
  let '(out, t) := take_items batch t in
  match out with [] => t | _ => _append out t end.

(** ** Steps *)
Inductive op := Write (now : Z) (direction : pystr) (data : bytes) | Batch.
Definition step (t : tracer) (o : op) : tracer :=
  match o with
  | Write now dir data => write now dir data t
  | Batch => match q t with [] => t | _ => run_batch t end
  end.
Definition run (ops : list op) (t : tracer) : tracer := foldl step t ops.
Fixpoint offered (ops : list op) : Z :=
  match ops with
  | [] => 0
  | Write _ _ d :: ops' => zlen d + offered ops'
  | Batch :: ops' => offered ops'
  end.

Fixpoint queue_bytes (l : list item) : Z :=
  match l with [] => 0 | i :: l' => zlen (i_data i) + queue_bytes l' end.
Lemma queue_bytes_app l k : queue_bytes (l ++ k) = queue_bytes l + queue_bytes k.
Proof. induction l as [|i l IH]; cbn; [done|]. rewrite IH. lia. Qed.
Lemma queue_bytes_nonneg l : 0 <= queue_bytes l.
Proof. induction l as [|i l IH]; cbn; [done|]. zlen. Qed.

Lemma take_items_counts its t :
  let t' := (take_items its t).2 in
  q t' = q t ∧ queued t' = queued t - queue_bytes its ∧ traced t' = traced t + queue_bytes its ∧
  dropped t' + reported t' = dropped t + reported t.
Proof.
  revert t. induction its as [|it its IH]; intros t; cbn [take_items]; [cbn; split_and!; lia || done|].
  destruct (take_item it t) as [l1 t1] eqn:E1. unfold take_item in E1. injection E1 as _ <-.
  match goal with |- context [take_items its ?x] => specialize (IH x); destruct (take_items its x) end.
  cbn in *. destruct IH as (-> & -> & -> & ->). split_and!; lia || done.
Qed.
Lemma append_counts lines t :
  q (_append lines t) = q t ∧ queued (_append lines t) = queued t ∧
  traced (_append lines t) = traced t ∧ dropped (_append lines t) = dropped t ∧
  reported (_append lines t) = reported t.
Proof. done. Qed.

(** The invariant of the shared counters. *)
Definition counts_ok (n : Z) (t : tracer) : Prop :=
  queued t = queue_bytes (q t) ∧ queued t <= QUEUE_MAX_BYTES ∧
  n = queued t + dropped t + traced t + reported t.

Lemma step_counts n t o :
  counts_ok n t → counts_ok (n + match o with Write _ _ d => zlen d | Batch => 0 end) (step t o).
Proof.
  intros (Hq & Hmax & Hn). destruct o as [now dir data|]; cbn [step].
  - unfold write. destruct data as [|b data]; [rewrite zlen_nil; unfold counts_ok; split_and!; lia|].
    destruct (Z.ltb_spec QUEUE_MAX_BYTES (queued t + zlen (b :: data))); unfold counts_ok; cbn [q queued
      dropped traced reported set_q].
    + split_and!; lia.
    + rewrite queue_bytes_app. cbn [queue_bytes i_data]. split_and!; lia.
  - destruct (q t) as [|i l] eqn:El; [unfold counts_ok; rewrite El, <- Hq; split_and!; lia|].
    unfold run_batch. rewrite El.
    set (t0 := set_q (drop BATCH (i :: l)) (queued t) (dropped t) t).
    pose proof (take_items_counts (take BATCH (i :: l)) t0) as Hc.
    destruct (take_items (take BATCH (i :: l)) t0) as [out t1].
    cbn [snd q set_q queued traced dropped reported t0] in Hc.
    destruct Hc as (H1 & H2 & H3 & H4).
    assert (counts_ok (n + 0) t1) as Ht1.
    { unfold counts_ok. rewrite H1, H2, H3. rewrite <- (take_drop BATCH (i :: l)) in Hq.
      rewrite queue_bytes_app in Hq. pose proof (queue_bytes_nonneg (take BATCH (i :: l))).
      split_and!; lia. }
    destruct out as [|o out]; [done|]. exact Ht1.
Qed.

(** no traced byte is unaccounted for: over any interleaving of the event loop's writes and the
    writer thread's batches, every byte offered is waiting in the queue, written to the file,
    counted as dropped, or reported missing in the file; and at most [QUEUE_MAX_BYTES] wait. *)
Theorem trace_accounting ops hex ts mb k fs :
  let t := run ops (Tracer hex ts mb k fs) in
  offered ops = queue_bytes (q t) + dropped t + traced t + reported t ∧
  queued t = queue_bytes (q t) ∧ queued t <= QUEUE_MAX_BYTES.
Proof.
  assert (∀ n t, counts_ok n t → counts_ok (n + offered ops) (run ops t)) as Hrun.
  { unfold run. induction ops as [|o ops IH]; intros n t Ht; cbn [foldl offered];
      [by rewrite Z.add_0_r|].
    pose proof (IH _ _ (step_counts n t o Ht)) as Hx.
    destruct o; [by replace (n + (zlen data + offered ops)) with (n + zlen data + offered ops) by lia|].
    by replace (n + offered ops) with (n + 0 + offered ops) by lia. }
  destruct (Hrun 0 (Tracer hex ts mb k fs)) as (H1 & H2 & H3); [by split_and!|].
  cbn zeta. split_and!; lia.
Qed.

(** ** Rotation *)
(** The files from the oldest to the newest, as one text. *)
Definition get (fs : gmap nat bytes) (i : nat) : bytes := default [] (fs !! i).
Fixpoint history (fs : gmap nat bytes) (n : nat) : bytes :=
  match n with O => get fs 0 | S m => get fs n ++ history fs m end.

Lemma history_ext fs fs' n : (∀ i, (i <= n)%nat → fs !! i = fs' !! i) → history fs n = history fs' n.
Proof.
  induction n as [|n IH]; intros H; cbn; unfold get; [by rewrite H|].
  rewrite H, IH by auto with lia. done.
Qed.
Lemma rotate_loop_above i j fs : (i < j)%nat → rotate_loop i fs !! j = fs !! j.
Proof.
  revert fs. induction i as [|i IH]; intros fs Hj; cbn; [done|]. rewrite IH by lia.
  destruct (fs !! i); [|done]. by rewrite lookup_delete_ne, lookup_insert_ne by lia.
Qed.
(** With the last place free, rotating keeps every byte. *)
Lemma rotate_loop_history k fs :
  fs !! k = None → history (rotate_loop k fs) k = history fs k.
Proof.
  revert fs. induction k as [|k IH]; intros fs Hk; [done|]. cbn [rotate_loop history].
  unfold get at 1. rewrite rotate_loop_above by lia.
  destruct (fs !! k) as [b|] eqn:E.
  - rewrite IH by by rewrite lookup_delete_eq.
    rewrite lookup_delete_ne, lookup_insert_eq by lia. unfold get at 1. rewrite Hk. cbn.
    destruct k as [|k]; cbn [history]; unfold get.
    + by rewrite lookup_delete_eq, E, app_nil_r.
    + rewrite lookup_delete_eq, E. cbn. f_equal. apply history_ext. intros i Hi.
      by rewrite lookup_delete_ne, lookup_insert_ne by lia.
  - rewrite IH by done. by unfold get; rewrite Hk.
Qed.

Lemma history_current fs n b : history (<[0%nat := b]> fs) n ++ get fs 0 = history (<[0%nat := []]> fs) n ++ b ++ get fs 0.
Proof.
  induction n as [|n IH]; cbn; unfold get in *; [by rewrite !lookup_insert_eq|].
  rewrite !lookup_insert_ne by lia. by rewrite <- !app_assoc, IH.
Qed.
Lemma history_split fs n : history fs n = history (<[0%nat := []]> fs) n ++ get fs 0.
Proof.
  induction n as [|n IH]; cbn; unfold get in *; [by rewrite lookup_insert_eq|].
  rewrite lookup_insert_ne by lia. by rewrite <- app_assoc, <- IH.
Qed.

Lemma write_history lines fs n : history (_write lines fs) n = history fs n ++ concat lines.
Proof.
  rewrite (history_split (_write lines fs) n), (history_split fs n). unfold _write.
  rewrite insert_insert_eq. unfold get. rewrite lookup_insert_eq. by rewrite <- app_assoc.
Qed.

Lemma rotate_history k fs :
  is_Some (fs !! 0%nat) →
  ∃ lost, lost ++ history (_rotate k fs) k = history fs k ∧ _rotate k fs !! 0%nat = Some [].
Proof.
  intros H0. unfold _rotate. destruct k as [|k].
  { exists (get fs 0). cbn. unfold get. rewrite lookup_insert_eq. by rewrite app_nil_r. }
  assert (rotate_loop (S k) fs !! 0%nat = None) as Hz.
  { assert (∀ k fs, (∃ b, fs !! 0%nat = Some b) ∧ (0 < k)%nat ∨ fs !! 0%nat = None →
      rotate_loop k fs !! 0%nat = None) as Hz.
    { clear. induction k as [|k IH]; intros fs [[_ H]|H]; [lia|done| |]; cbn; apply IH.
      - destruct k as [|k].
        + right. destruct (fs !! 0%nat) eqn:E; [|done]. by rewrite lookup_delete_eq.
        + destruct (fs !! 0%nat) as [b|] eqn:E0; destruct (fs !! S k) eqn:E;
            rewrite ?lookup_delete_ne, ?lookup_insert_ne, ?E0 by lia; eauto with lia.
      - right. destruct k as [|k].
        + destruct (fs !! 0%nat) eqn:E; [|done]. by rewrite lookup_delete_eq.
        + destruct (fs !! S k); [|done]. by rewrite lookup_delete_ne, lookup_insert_ne by lia. }
    apply Hz. left. destruct H0 as [b ->]. split; [by eexists|lia]. }
  rewrite Hz. cbn [default]. exists (match fs !! k with Some _ => get fs (S k) | None => [] end).
  split; [|by rewrite lookup_insert_eq].
  assert (history (<[0%nat := []]> (rotate_loop (S k) fs)) (S k) = history (rotate_loop (S k) fs) (S k)) as ->.
  { rewrite (history_split (rotate_loop (S k) fs)). unfold get at 1. rewrite Hz. by rewrite app_nil_r. }
  cbn [rotate_loop]. destruct (fs !! k) as [b|] eqn:E.
  - cbn [history]. unfold get at 2. rewrite rotate_loop_above by lia.
    rewrite lookup_delete_ne, lookup_insert_eq by lia. cbn.
    rewrite rotate_loop_history by by rewrite lookup_delete_eq. f_equal.
    destruct k as [|k]; cbn [history]; unfold get.
    + by rewrite lookup_delete_eq, E, app_nil_r.
    + rewrite lookup_delete_eq, E. cbn. f_equal. apply history_ext. intros i Hi.
      by rewrite lookup_delete_ne, lookup_insert_ne by lia.
  - cbn [history app]. unfold get at 1. rewrite rotate_loop_above by lia. unfold get at 1.
    by rewrite rotate_loop_history.
Qed.
Lemma rotate_above k fs i : (k < i)%nat → _rotate k fs !! i = fs !! i.
Proof.
  intros Hi. unfold _rotate. destruct k as [|k]; [by rewrite lookup_insert_ne by lia|].
  rewrite lookup_insert_ne by lia. by apply rotate_loop_above.
Qed.

(** What the append loop keeps true: [size] is that of the current file with the pending lines. *)
Lemma append_loop_spec k max pending lines size fs :
  0 < max → is_Some (fs !! 0%nat) → size = zlen (get fs 0) + zlen (concat pending) →
  (size < max ∨ lines ≠ []) →
  let fs' := append_loop k max pending lines size fs in
  (∃ lost, lost ++ history fs' k = history fs k ++ concat pending ++ concat lines) ∧
  zlen (get fs' 0) < max ∧ (∀ i, (k < i)%nat → fs' !! i = fs !! i).
Proof.
  intros Hmax. revert pending size fs. induction lines as [|line lines IH];
    intros pending size fs H0 Hsize Hor; cbn [append_loop].
  - destruct Hor as [Hlt|?]; [|done]. destruct pending as [|p pending].
    + split_and!; [exists []; cbn; by rewrite app_nil_r| |done]. cbn in Hsize. zlen.
    + split_and!.
      * exists []. cbn [app]. rewrite write_history. cbn. by rewrite app_nil_r.
      * unfold _write, get. rewrite lookup_insert_eq. cbn [default id concat].
        unfold get in Hsize. cbn [concat] in Hsize. rewrite !zlen_app in *. lia.
      * intros i Hi. unfold _write. by rewrite lookup_insert_ne by lia.
  - assert (is_Some (_write (pending ++ [line]) fs !! 0%nat)) as Hw
      by (unfold _write; rewrite lookup_insert_eq; by eexists).
    destruct (Z.leb_spec max (size + zlen line)).
    + destruct (rotate_history k _ Hw) as (lost1 & E1 & Er).
      destruct (IH [] 0 (_rotate k (_write (pending ++ [line]) fs))) as ((lost2 & E2) & I2 & I3).
      { by eexists. }
      { unfold get. by rewrite Er. }
      { by left. }
      split_and!; [|done|].
      * exists (lost1 ++ lost2). rewrite <- app_assoc, E2. cbn [concat app].
        rewrite app_assoc, E1, write_history, concat_app. cbn. by rewrite app_nil_r, <- !app_assoc.
      * intros i Hi. rewrite I3, rotate_above by done. unfold _write. by rewrite lookup_insert_ne by lia.
    + destruct (IH (pending ++ [line]) (size + zlen line) fs) as ((lost & E) & I2 & I3); [done| |by left|].
      { rewrite Hsize, concat_app. cbn. rewrite app_nil_r. zlen. }
      split_and!; [|done|done]. exists lost. rewrite E, concat_app. cbn.
      by rewrite app_nil_r, <- !app_assoc.
Qed.

End tracer.

Definition demo_tracer : tracer :=
  Tracer false false 8 2 {[ 0%nat := [1; 2; 3]; 1%nat := [7; 7]; 5%nat := [9] ]}.
