(* ===== verification/Config.v ===== *)
(** * Configuration model and validation (app/config.py, up to the store)

    Values come from JSON or a form, so the fields of every settings object are Python values
    ([pyval]) and validation tests their types as the code does, TypeError and AttributeError
    included. [isfile] is the file system's answer, [fresh] a generated id. *)
From Stdlib Require Import SpecFloat.
From S2P Require Import Prelude PyFloat PyStr PyVal IpAddr PyNum Json Modbus.
#[local] Open Scope Z_scope.

(** ** Python operations on values *)
(** [v in (s1, s2, ...)] for string members. *)
Definition in_strs (v : pyval) (l : list pystr) : bool := existsb (eq_str v) l.
(** [v.strip()] *)
Definition strip_of (v : pyval) : res pystr :=
  match v with
  | VStr s => Ok (strip s)
  | _ => raise AttributeError "object has no attribute 'strip'"
  end.
(** [lo <= v <= hi] *)
Definition in_bounds (lo : Z) (v : pyval) (hi : Z) : res bool :=
  match v with
  | VInt _ | VBool _ | VFloat _ => Ok (between lo v hi)
  | _ => raise TypeError "'<=' not supported"
  end.
(** [v <= hi] / [v < lo] on a number. *)
Definition at_most (v : pyval) (hi : Z) : res bool :=
  match v with
  | VInt _ | VBool _ => Ok (int_of v <=? hi)
  | VFloat f => Ok (match fcompare_Z f hi with Some (Eq | Lt) => true | _ => false end)
  | _ => raise TypeError "'<=' not supported"
  end.
Definition _is_int (v : pyval) : bool := is_int v && negb (is_bool v).
Definition _is_number (v : pyval) : bool := (is_int v || is_float v) && negb (is_bool v).
Definition is_empty (s : pystr) : bool := match s with [] => true | _ => false end.

(** [a == b]: numbers compare by value across types, dicts regardless of order. *)
Definition num_of (v : pyval) : option num :=
  match v with
  | VBool b => Some (NInt (Z.b2z b))
  | VInt z => Some (NInt z)
  | VFloat f => Some (NFloat f)
  | _ => None
  end.
Definition num_eq (a b : num) : bool :=
  match a, b with
  | NInt x, NInt y => x =? y
  | NFloat x, NFloat y => feqb x y
  | NInt x, NFloat f | NFloat f, NInt x =>
      match fcompare_Z f x with Some Eq => true | _ => false end
  end.
Fixpoint py_eq (a b : pyval) {struct a} : bool :=
  match a, b with
  | VNone, VNone => true
  | VStr s, VStr t => str_eqb s t
  | VBytes s, VBytes t => str_eqb s t
  | VList l, VList k =>
      (fix go (l k : list pyval) : bool :=
         match l, k with
         | [], [] => true
         | x :: l', y :: k' => py_eq x y && go l' k'
         | _, _ => false
         end) l k
  | VDict d, VDict e =>
      (length d =? length e)%nat &&
      (fix go (d : list (pystr * pyval)) : bool :=
         match d with
         | [] => true
         | (k, v) :: d' => match assoc k e with Some w => py_eq v w | None => false end && go d'
         end) d
  | _, _ => match num_of a, num_of b with Some x, Some y => num_eq x y | _, _ => false end
  end.
(** Values that can be dict keys. *)
Definition hashable (v : pyval) : bool := match v with VList _ | VDict _ => false | _ => true end.
Fixpoint vassoc {A} (k : pyval) (l : list (pyval * A)) : option A :=
  match l with
  | [] => None
  | (k', a) :: l' => if py_eq k k' then Some a else vassoc k l'
  end.

(** [dict(d or {})]: a sequence is read as key and value pairs; only text keys can name a field. *)
Definition pair_of (v : pyval) : res (option (pystr * pyval)) :=
  match v with
  | VList [VStr k; w] => Ok (Some (k, w))
  | VList [k; _] => if hashable k then Ok None else raise TypeError "unhashable type"
  | VStr [k; w] => Ok (Some ([k], VStr [w]))
  | VDict [(k, _); (w, _)] => Ok (Some (k, VStr w))
  | VList _ | VStr _ | VDict _ => raise ValueError "dictionary update sequence element has the wrong length"
  | _ => raise TypeError "cannot convert dictionary update sequence element to a sequence"
  end.
Definition as_dict (v : pyval) : res (list (pystr * pyval)) :=
  match v with
  | VDict d => Ok d
  | VList l => ps ← mapr pair_of l; Ok (dict_update (omap id ps) [])
  | VStr (_ :: _) => raise ValueError "dictionary update sequence element has the wrong length"
  | _ => if truthy v then raise TypeError "object is not iterable" else Ok []
  end.
(** [for x in v] *)
Definition iter_of (v : pyval) : res (list pyval) :=
  match v with
  | VList l => Ok l
  | VStr s => Ok ((λ c, VStr [c]) <$> s)
  | VDict d => Ok ((λ kv, VStr kv.1) <$> d)
  | VBytes b => Ok (VInt <$> b)
  | _ => raise TypeError "object is not iterable"
  end.
(** [float(v)] *)
Definition float_of_val (v : pyval) : res pyfloat :=
  match v with
  | VFloat f => Ok f
  | VInt _ | VBool _ => float_of_Z (int_of v)
  | VStr s | VBytes s =>
      match float_of_text s with Some f => Ok f | None => raise ValueError "could not convert string to float" end
  | _ => raise TypeError "float() argument must be a string or a real number"
  end.
(** [int(v)] *)
Definition int_of_val (v : pyval) : res Z :=
  match v with
  | VInt z => Ok z
  | VBool b => Ok (Z.b2z b)
  | VFloat f => py_trunc f
  | VStr s | VBytes s =>
      match int_of_text s with Some z => Ok z | None => raise ValueError "invalid literal for int()" end
  | _ => raise TypeError "int() argument must be a string or a real number"
  end.
(** [str(v)]; [repr] prints the containers. *)
Definition str_of_val (repr : pyval → pystr) (v : pyval) : pystr :=
  match v with
  | VNone => str "None"
  | VBool b => if b then str "True" else str "False"
  | VInt z => str_of_Z z
  | VFloat f => str_of_float f
  | VStr s => s
  | _ => repr v
  end.
(** A field given as a keyword, else its default. *)
Definition get (d : list (pystr * pyval)) (k : string) (default : pyval) : pyval :=
  match assoc (str k) d with Some v => v | None => default end.
Arguments get d k%_string default.
Abbreviation vstr s := (VStr (str s)).

(** ** Constants *)
Definition BYTESIZES : list Z := [5; 6; 7; 8].
Definition PARITIES : list pystr := str <$> ["N"; "E"; "O"; "M"; "S"]%string.
Definition FLOWCONTROLS : list pystr := str <$> ["none"; "rtscts"; "xonxoff"; "dsrdtr"]%string.
Definition LINE_STATES : list pystr := str <$> ["on"; "off"; "keep"]%string.
Definition PROTOCOLS : list pystr := str <$> ["raw"; "telnet"; "rfc2217"; "modbus"]%string.
Definition NET_MODES : list pystr := str <$> ["server"; "client"; "udp"]%string.
Definition MAX_TIMER_S : Z := 365 * 86400.
Definition SESSION_TIMEOUT_DEFAULT_S : Z := 8 * 3600.
Definition SESSION_TIMEOUT_MIN_S : Z := 5 * 60.
Definition SESSION_TIMEOUT_MAX_S : Z := 30 * 86400.
Definition MQTT_FORMATS : list pystr := str <$> ["plain"; "sparkplug_b"]%string.
Definition MODBUS_DTYPES : list pystr :=
  str <$> ["uint16"; "int16"; "uint32"; "int32"; "float32"; "bool"]%string.
Definition MAPPING_KINDS : list pystr := str <$> ["net"; "serialbridge"]%string.
Definition UI_LANGUAGES : list pystr := str <$> ["auto"; "en"; "tr"]%string.
Definition ROLES : list pystr := str <$> ["admin"; "operator"; "viewer"]%string.
Definition NOTIFY_EVENTS : list pystr :=
  str <$> ["device_lost"; "device_back"; "start_failed"; "client_connected"; "client_disconnected";
           "login_failed"]%string.
Definition WEBHOOK_FORMATS : list pystr :=
  str <$> ["json"; "slack"; "teams"; "discord"; "telegram"]%string.
Definition SMTP_SECURITY : list pystr := str <$> ["starttls"; "ssl"; "none"]%string.

(** ** Values from older configurations *)
(** [min(value, MAX_TIMER_S)] of a finite number that is not negative. *)
Definition cap_timer (v : pyval) : res pyval :=
  match v with
  | VFloat f => match fcompare_Z f MAX_TIMER_S with
                | Some Gt => Ok (VInt MAX_TIMER_S)
                | _ => Ok v
                end
  | VInt z => Ok (VInt (Z.min z MAX_TIMER_S))
  | _ => raise TypeError "'<' not supported"
  end.
Definition finite_number (v : pyval) : res bool :=
  match v with
  | VFloat f => Ok (is_finite f)
  | VInt z => isfinite (NInt z)
  | _ => Ok false
  end.
Definition negative (v : pyval) : bool :=
  match v with
  | VFloat f => match fcompare_Z f 0 with Some Lt => true | _ => false end
  | VInt z => z <? 0
  | _ => false
  end.
Definition _legacy_seconds (value : pyval) : res pyval :=
  v ← (match value with
       | VStr s =>
           match float_of_text (strip s) with
           | None => Ok None
           | Some f => if float_is_integer f then n ← py_trunc f; Ok (Some (VInt n))
                       else Ok (Some (VFloat f))
           end
       | _ => Ok (Some value)
       end);
  match v with
  | None => Ok (VInt 0)
  | Some v =>
      if negb (_is_number v) then Ok (VInt 0)
      else fin ← finite_number v;
           if negb fin || negative v then Ok (VInt 0) else cap_timer v
  end.

(** [int(float(value))], clamped; unreadable values give the default. *)
Definition _session_timeout (value : pyval) : res Z :=
  let seconds :=
    match value with
    | VStr s => match float_of_text s with Some f => py_trunc f | None => raise ValueError "" end
    | VFloat f => py_trunc f
    | VInt z => f ← float_of_Z z; py_trunc f
    | VBool b => Ok (Z.b2z b)
    | _ => raise TypeError ""
    end in
  match seconds with
  | Ok s => Ok (Z.min (Z.max s SESSION_TIMEOUT_MIN_S) SESSION_TIMEOUT_MAX_S)
  | Raise (Exn (TypeError | ValueError | OverflowError) _) => Ok SESSION_TIMEOUT_DEFAULT_S
  | Raise e => Raise e
  end.

(** ** Trace file names *)
Definition TRACE_DEFAULT_NAME : pystr := str "trace.log".
(** [\w], "." or "-"; [word] tells which non-ASCII characters are letters or digits. *)
Section trace_name.
Context (word : Z → bool).

Definition name_char (c : Z) : bool :=
  in_range 48 57 c || in_range 65 90 c || in_range 97 122 c || (c =? 95) || (c =? 46) || (c =? 45)
  || ((127 <? c) && word c).
(** [_TRACE_NAME_BAD.sub("_", name)]: each run of bad characters becomes one underscore. *)
Fixpoint sub_bad (in_run : bool) (s : pystr) : pystr :=
  match s with
  | [] => []
  | c :: s' =>
      if name_char c then c :: sub_bad false s'
      else if in_run then sub_bad true s' else 95 :: sub_bad true s'
  end.
Definition dot_space (c : Z) : bool := (c =? 46) || (c =? 32).
(** [re.split(r"[\\/]", raw)[-1]] *)
Fixpoint after_sep (acc s : pystr) : pystr :=
  match s with
  | [] => acc
  | c :: s' => if (c =? 47) || (c =? 92) then after_sep s' s' else after_sep acc s'
  end.
Definition trace_file_name (value : pystr) : pystr :=
  let raw := strip value in
  match raw with
  | [] => []
  | _ =>
      let name := sub_bad false (after_sep raw raw) in
      let name := rstrip_by dot_space (take 80 (strip_by dot_space name)) in
      match name with [] => TRACE_DEFAULT_NAME | _ => name end
  end.
End trace_name.

(** ** Serial side *)
Record SerialAdvanced := mkAdvanced {
  rs485_enabled : pyval;
  rs485_delay_before_tx_ms : pyval;
  rs485_delay_after_tx_ms : pyval;
  rs485_rts_level_for_tx : pyval;
  hangup_when_done : pyval;
  nobreak : pyval;
}.
Record SerialSettings := mkSerial {
  s_port : pyval;
  s_match : pyval;
  baudrate : pyval;
  bytesize : pyval;
  parity : pyval;
  stopbits : pyval;
  flowcontrol : pyval;
  rts_on_open : pyval;
  dtr_on_open : pyval;
  exclusive : pyval;
  advanced : SerialAdvanced;
}.
Definition SerialSettings_from_dict (v : pyval) : res SerialSettings :=
  d ← as_dict v;
  let adv := get d "advanced" (VDict []) in
  a ← (if truthy adv then
         match adv with VDict a => Ok a | _ => raise AttributeError "object has no attribute 'items'" end
       else Ok []);
  Ok (mkSerial (get d "port" (vstr "")) (get d "match" (VDict [])) (get d "baudrate" (VInt 9600))
        (get d "bytesize" (VInt 8)) (get d "parity" (vstr "N")) (get d "stopbits" (VInt 1))
        (get d "flowcontrol" (vstr "none")) (get d "rts_on_open" (vstr "keep"))
        (get d "dtr_on_open" (vstr "keep")) (get d "exclusive" (VBool true))
        (mkAdvanced (get a "rs485_enabled" (VBool false))
           (get a "rs485_delay_before_tx_ms" (VFloat (S754_zero false)))
           (get a "rs485_delay_after_tx_ms" (VFloat (S754_zero false)))
           (get a "rs485_rts_level_for_tx" (VBool true)) (get a "hangup_when_done" (VBool false))
           (get a "nobreak" (VBool false)))).

Definition is_stopbits (v : pyval) : bool :=
  eq_Z v 1 || eq_Z v 2 || match v with VFloat f => feqb f f1_5 | _ => false end.
Definition serial_validate (s : SerialSettings) : res unit :=
  _ ← raise_if (negb (truthy (s_port s))) ConfigError "Serial port is required.";
  _ ← raise_if (negb (is_int (baudrate s)) || (int_of (baudrate s) <=? 0)) ConfigError
               "Baud rate must be a positive integer.";
  _ ← raise_if (negb (existsb (eq_Z (bytesize s)) BYTESIZES)) ConfigError "Data bits must be one of {0}.";
  _ ← raise_if (negb (in_strs (parity s) PARITIES)) ConfigError "Parity must be one of {0}.";
  _ ← raise_if (negb (is_stopbits (stopbits s))) ConfigError "Stop bits must be one of {0}.";
  _ ← raise_if (negb (in_strs (flowcontrol s) FLOWCONTROLS)) ConfigError
               "Flow control must be one of {0}.";
  _ ← raise_if (negb (in_strs (rts_on_open s) LINE_STATES) || negb (in_strs (dtr_on_open s) LINE_STATES))
               ConfigError "RTS/DTR on open must be on|off|keep.";
  raise_if (truthy (rs485_enabled (advanced s)) && eq_str (flowcontrol s) (str "rtscts")) ConfigError
           "RS-485 RTS toggling conflicts with RTS/CTS flow control.".

(** ** Network side *)
Record NetworkSettings := mkNetwork {
  mode : pyval;
  protocol : pyval;
  bind_ip : pyval;
  port : pyval;
  remote_host : pyval;
  remote_port : pyval;
  max_connections : pyval;
  kick_old_user : pyval;
  allowed_client_ips : pyval;
  priority_client_ips : pyval;
  read_only : pyval;
  client_queue_max : pyval;
  tcp_keepalive : pyval;
  keepalive_idle_s : pyval;
  keepalive_interval_s : pyval;
  keepalive_count : pyval;
  connect_timeout_s : pyval;
  tls : pyval;
  tls_cert : pyval;
  tls_key : pyval;
}.
Definition f10 : pyfloat := S754_finite false 5629499534213120 (-49).
Definition NetworkSettings_from_dict (v : pyval) : res NetworkSettings :=
  d ← as_dict v;
  Ok (mkNetwork (get d "mode" (vstr "server")) (get d "protocol" (vstr "raw"))
        (get d "bind_ip" (vstr "0.0.0.0")) (get d "port" (VInt 4001)) (get d "remote_host" (vstr ""))
        (get d "remote_port" (VInt 0)) (get d "max_connections" (VInt 1))
        (get d "kick_old_user" (VBool false)) (get d "allowed_client_ips" (VList []))
        (get d "priority_client_ips" (VList [])) (get d "read_only" (VBool false))
        (get d "client_queue_max" (VInt 2048)) (get d "tcp_keepalive" (VBool true))
        (get d "keepalive_idle_s" (VInt 60)) (get d "keepalive_interval_s" (VInt 10))
        (get d "keepalive_count" (VInt 3)) (get d "connect_timeout_s" (VFloat f10))
        (get d "tls" (VBool false)) (get d "tls_cert" (vstr "")) (get d "tls_key" (vstr ""))).

Definition listens (n : NetworkSettings) : bool := in_strs (mode n) [str "server"; str "udp"].

(** [ipaddress.ip_address(v)] of a value: an int is an address too. *)
Definition address_of (v : pyval) : option ip :=
  match v with
  | VStr s => ip_address s
  | VInt _ | VBool _ =>
      let z := int_of v in
      if (0 <=? z) && (z <? 2 ^ 32) then Some (V4 z)
      else if (0 <=? z) && (z <? 2 ^ 128) then Some (V6 z) else None
  | VBytes b => if zlen b =? 4 then Some (V4 (of_be b))
                else if zlen b =? 16 then Some (V6 (of_be b)) else None
  | _ => None
  end.
Definition is_multicast (a : ip) : bool :=
  match a with V4 v => in_net a (Net false 4 (224 * 2 ^ 24)) | V6 v => in_net a (Net true 8 (255 * 2 ^ 120)) end.
Definition is_reserved (a : ip) : bool :=
  match a with
  | V4 _ => in_net a (Net false 4 (240 * 2 ^ 24))
  | V6 _ =>
      existsb (λ '(p, hi), in_net a (Net true p (hi * 2 ^ 112)))
        [(8, 0); (8, 256); (7, 512); (6, 1024); (5, 2048); (4, 4096); (3, 16384); (3, 24576);
         (3, 32768); (3, 40960); (3, 49152); (4, 57344); (5, 61440); (6, 63488); (9, 65024)]
  end.
Definition is_wildcard (a : ip) : bool := match a with V4 v | V6 v => v =? 0 end.

(** [isinstance(v, int) and lo <= v <= hi] *)
Definition int_between (lo : Z) (v : pyval) (hi : Z) : bool := is_int v && between lo v hi.

Section validation.
Context (isfile : pystr → bool).

Definition file_missing (v : pyval) : bool := match v with VStr p => negb (isfile p) | _ => true end.

(** [for cidr in lst: ip_network(normalize_cidr(cidr), strict=False)] *)
Definition validate_cidrs (lst : pyval) : res unit :=
  match lst with
  | VList l =>
      _ ← mapr (λ c, match c with
                     | VStr s => match ip_network (normalize_cidr s) with
                                 | Some _ => Ok tt
                                 | None => raise ConfigError "Invalid {0} client IP/CIDR: {1}."
                                 end
                     | _ => raise AttributeError "object has no attribute 'strip'"
                     end) l;
      Ok tt
  | VStr s => _ ← mapr (λ c, match ip_network (normalize_cidr [c]) with
                             | Some _ => Ok tt
                             | None => raise ConfigError "Invalid {0} client IP/CIDR: {1}."
                             end) s; Ok tt
  | VDict d => _ ← mapr (λ '(k, _), match ip_network (normalize_cidr k) with
                                    | Some _ => Ok tt
                                    | None => raise ConfigError "Invalid {0} client IP/CIDR: {1}."
                                    end) d; Ok tt
  | VBytes [] => Ok tt
  | VBytes _ => raise AttributeError "object has no attribute 'strip'"
  | _ => raise TypeError "object is not iterable"
  end.

Definition network_validate (n : NetworkSettings) : res unit :=
  _ ← raise_if (negb (in_strs (mode n) NET_MODES)) ConfigError "Network mode must be one of {0}.";
  _ ← raise_if (negb (in_strs (protocol n) PROTOCOLS)) ConfigError "Protocol must be one of {0}.";
  _ ← (if listens n then
         match address_of (bind_ip n) with
         | None => raise ConfigError "Invalid bind IP: {0}."
         | Some ip =>
             _ ← raise_if (is_multicast ip || (is_reserved ip && negb (is_wildcard ip))) ConfigError
                          "Bind IP cannot be a multicast/reserved address.";
             raise_if (negb (int_between 1 (port n) 65535)) ConfigError
                      "TCP/UDP port must be between 1 and 65535."
         end
       else
         h ← strip_of (remote_host n);
         _ ← raise_if (is_empty h) ConfigError "Connect-out mode requires a remote host.";
         raise_if (negb (int_between 1 (remote_port n) 65535)) ConfigError
                  "Remote port must be between 1 and 65535.");
  _ ← raise_if (negb (is_int (max_connections n)) || (int_of (max_connections n) <? 1)) ConfigError
               "Max connections must be >= 1.";
  _ ← raise_if (negb (is_int (client_queue_max n)) || (int_of (client_queue_max n) <? 16)) ConfigError
               "Client queue size must be an integer >= 16.";
  _ ← mapr (λ '(value, high), raise_if (negb (_is_int value) || negb (between 1 value high)) ConfigError
                                       "{0} must be an integer between 1 and {1}.")
           [(keepalive_idle_s n, 32767); (keepalive_interval_s n, 32767); (keepalive_count n, 127)];
  _ ← raise_if (negb (_is_number (connect_timeout_s n)) || negb (between 0 (connect_timeout_s n) 3600))
               ConfigError "Connect timeout must be between 0 and 3600 seconds (0 = OS default).";
  let proto p := eq_str (protocol n) p in
  let md m := eq_str (mode n) m in
  _ ← raise_if (proto (str "rfc2217") && md (str "udp")) ConfigError
               "RFC2217 requires a TCP (server/client) connection, not UDP.";
  _ ← raise_if (proto (str "modbus") && negb (md (str "server"))) ConfigError
               "Modbus gateway requires TCP server mode (masters connect in).";
  _ ← raise_if (proto (str "rfc2217") && (1 <? int_of (max_connections n))) ConfigError
               "RFC2217 supports a single connection (clients share one serial port's settings).";
  _ ← (if truthy (tls n) then
         _ ← raise_if (md (str "udp")) ConfigError "TLS is not applicable to UDP mappings.";
         _ ← raise_if (negb (truthy (tls_cert n) && truthy (tls_key n))) ConfigError
                      "Enable TLS requires both a certificate and a key.";
         raise_if (file_missing (tls_cert n) || file_missing (tls_key n)) ConfigError
                  "TLS file not found: {0}"
       else Ok tt);
  _ ← validate_cidrs (allowed_client_ips n);
  validate_cidrs (priority_client_ips n).

(** ** Options, MQTT, polling *)
Record MappingOptions := mkOptions {
  banner : pyval;
  openstr : pyval;
  closestr : pyval;
  closeon : pyval;
  idle_timeout_s : pyval;
  max_connection_time_s : pyval;
  trace_both : pystr;
  trace_hexdump : pyval;
  trace_timestamp : pyval;
  trace_max_mb : pyval;
  trace_keep : pyval;
  rfc2217_poll_modem_interval_s : pyval;
  rfc2217_net_timeout_s : pyval;
  modbus_response_timeout_s : pyval;
}.
(** [0.1 <= v <= 1024] *)
Definition f0_1 : pyfloat := S754_finite false 7205759403792794 (-56).
Definition mb_ok (v : pyval) : bool :=
  match v with
  | VInt z => (1 <=? z) && (z <=? 1024)
  | VFloat f => match SFcompare f f0_1, fcompare_Z f 1024 with
                | Some (Eq | Gt), Some (Eq | Lt) => true
                | _, _ => false
                end
  | _ => false
  end.
Definition options_validate (o : MappingOptions) : res unit :=
  _ ← mapr (λ value, raise_if (negb (_is_number value) || negb (between 0 value MAX_TIMER_S)) ConfigError
                              "{0} must be between 0 (off) and {1} seconds.")
           [idle_timeout_s o; max_connection_time_s o];
  _ ← raise_if (negb (_is_number (trace_max_mb o)) || negb (mb_ok (trace_max_mb o))) ConfigError
               "Trace file size must be between 0.1 and 1024 MB.";
  raise_if (negb (_is_int (trace_keep o)) || negb (between 0 (trace_keep o) 50)) ConfigError
           "Rotated trace files kept must be between 0 and 50.".

Record MqttSettings := mkMqtt {
  mq_enabled : pyval;
  mq_host : pyval;
  mq_port : pyval;
  base_topic : pyval;
  mq_qos : pyval;
  mq_tls : pyval;
  mq_username : pyval;
  mq_password : pyval;
  mq_client_id : pyval;
  payload_format : pyval;
  sparkplug_group_id : pyval;
  sparkplug_node_id : pyval;
}.
(** [any(c in value for c in "/+#")] *)
Definition has_topic_char (v : pyval) : res bool :=
  match v with
  | VStr s => Ok (existsb (λ c, existsb (Z.eqb c) s) (str "/+#"))
  | VList l => Ok (existsb (λ c, existsb (λ x, eq_str x [c]) l) (str "/+#"))
  | VDict d => Ok (existsb (λ c, existsb (λ x, str_eqb x.1 [c]) d) (str "/+#"))
  | _ => raise TypeError "argument is not iterable"
  end.
Definition mqtt_validate (m : MqttSettings) : res unit :=
  if negb (truthy (mq_enabled m)) then Ok tt
  else
    h ← strip_of (mq_host m);
    _ ← raise_if (is_empty h) ConfigError "MQTT is enabled but no broker host is set.";
    b ← strip_of (base_topic m);
    _ ← raise_if (is_empty b) ConfigError "MQTT is enabled but no base topic is set.";
    _ ← raise_if (negb (int_between 1 (mq_port m) 65535)) ConfigError
                 "MQTT port must be between 1 and 65535.";
    _ ← raise_if (negb (existsb (eq_Z (mq_qos m)) [0; 1; 2])) ConfigError "MQTT QoS must be 0, 1 or 2.";
    _ ← raise_if (negb (in_strs (payload_format m) MQTT_FORMATS)) ConfigError
                 "MQTT payload format must be one of {0}.";
    if eq_str (payload_format m) (str "sparkplug_b") then
      _ ← mapr (λ v, bad ← has_topic_char v;
                     raise_if bad ConfigError "Sparkplug {0} must not contain '/', '+' or '#'.")
               [sparkplug_group_id m; sparkplug_node_id m];
      g ← strip_of (sparkplug_group_id m);
      raise_if (is_empty g) ConfigError "Sparkplug B needs a group ID."
    else Ok tt.

(** A poll point as read from a configuration (before validation). *)
Record PollPoint := mkPollPoint {
  pp_name : pyval;
  pp_unit : pyval;
  pp_fn : pyval;
  pp_address : pyval;
  pp_dtype : pyval;
  pp_scale : pyval;
  pp_writable : pyval;
}.
Record ModbusPoll := mkPoll { interval_s : pyfloat; poll_points : list PollPoint }.

Fixpoint validate_points (seen : list pystr) (l : list PollPoint) : res unit :=
  match l with
  | [] => Ok tt
  | p :: l' =>
      name ← strip_of (pp_name p);
      _ ← raise_if (is_empty name) ConfigError "Each Modbus poll point needs a name.";
      let key := match pp_name p with VStr s => s | _ => [] end in
      _ ← raise_if (existsb (str_eqb key) seen) ConfigError "Duplicate Modbus poll point name: {0}.";
      u ← in_bounds 0 (pp_unit p) 255;
      _ ← raise_if (negb u) ConfigError "Point {0}: unit must be 0-255.";
      _ ← raise_if (negb (existsb (eq_Z (pp_fn p)) [1; 2; 3; 4])) ConfigError
                   "Point {0}: function must be 1, 2, 3 or 4.";
      a ← in_bounds 0 (pp_address p) 65535;
      _ ← raise_if (negb a) ConfigError "Point {0}: address must be 0-65535.";
      _ ← raise_if (negb (in_strs (pp_dtype p) MODBUS_DTYPES)) ConfigError
                   "Point {0}: dtype must be one of {1}.";
      _ ← raise_if (xorb (existsb (eq_Z (pp_fn p)) [1; 2]) (eq_str (pp_dtype p) (str "bool")))
                   ConfigError "Point {0}: coils / discrete inputs (fn 1, 2) use dtype 'bool'.";
      _ ← raise_if (truthy (pp_writable p) && negb (existsb (eq_Z (pp_fn p)) [1; 3])) ConfigError
                   "Point {0}: only coils (fn 1) and holding registers (fn 3) can be written.";
      validate_points (key :: seen) l'
  end.
Definition poll_validate (p : ModbusPoll) : res unit :=
  match poll_points p with
  | [] => Ok tt
  | l =>
      _ ← raise_if (match fcompare_Z (interval_s p) 0 with Some (Eq | Lt) => true | _ => false end)
                   ConfigError "Modbus poll interval must be > 0 seconds.";
      validate_points [] l
  end.

(** ** A mapping *)
Record MappingConfig := mkMapping {
  id : pyval;
  name : pyval;
  enabled : bool;
  kind : pyval;
  serial : SerialSettings;
  serial_b : SerialSettings;
  network : NetworkSettings;
  options : MappingOptions;
  mqtt : MqttSettings;
  modbus_poll : ModbusPoll;
}.
Definition mapping_validate (m : MappingConfig) : res unit :=
  nm ← strip_of (name m);
  _ ← raise_if (is_empty nm) ConfigError "Mapping name is required.";
  _ ← raise_if (negb (in_strs (kind m) MAPPING_KINDS)) ConfigError "Mapping kind must be one of {0}.";
  _ ← serial_validate (serial m);
  _ ← (if eq_str (kind m) (str "serialbridge") then
         _ ← serial_validate (serial_b m);
         raise_if (py_eq (s_port (serial_b m)) (s_port (serial m))) ConfigError
                  "Serial-to-serial bridge needs two different ports."
       else network_validate (network m));
  _ ← options_validate (options m);
  _ ← mqtt_validate (mqtt m);
  _ ← poll_validate (modbus_poll m);
  let has_points := match poll_points (modbus_poll m) with [] => false | _ => true end in
  _ ← raise_if (has_points && negb (eq_str (kind m) (str "net")
                                    && eq_str (protocol (network m)) (str "modbus"))) ConfigError
               "Modbus register polling requires a Modbus-gateway mapping (protocol = modbus).";
  raise_if (truthy (mq_enabled (mqtt m)) && eq_str (payload_format (mqtt m)) (str "sparkplug_b")
            && negb has_points) ConfigError
           "Sparkplug B publishes Modbus poll points: add points, or use the plain MQTT format.".

(** ** Invariants across mappings *)
Definition _ip_overlaps (a b : pyval) : bool :=
  if py_eq a b then true
  else
    let wildcards := [str "0.0.0.0"; str "::"] in
    in_strs a wildcards || in_strs b wildcards.

(** The device paths an enabled mapping claims (its dynamic [match] entries aside). *)
Definition devices_of (m : MappingConfig) : list pyval :=
  (if truthy (s_port (serial m)) && negb (truthy (s_match (serial m)))
   then [s_port (serial m)] else []) ++
  (if eq_str (kind m) (str "serialbridge") && truthy (s_port (serial_b m))
      && negb (truthy (s_match (serial_b m)))
   then [s_port (serial_b m)] else []).

(** [serial_owner]: device -> owning mapping id (the latest assignment first). *)
Fixpoint claim_devices (m : MappingConfig) (devs : list pyval) (owner : list (pyval * pyval))
    : res (list (pyval * pyval)) :=
  match devs with
  | [] => Ok owner
  | dev :: devs' =>
      _ ← raise_if (negb (hashable dev)) TypeError "unhashable type";
      _ ← raise_if (match vassoc dev owner with Some o => negb (py_eq o (id m)) | None => false end)
                   ConfigError "Mappings '{0}' and '{1}' both use serial port {2}";
      claim_devices m devs' ((dev, id m) :: owner)
  end.

(** A listening socket: transport (UDP or TCP), address, port. *)
Definition endpoint : Type := bool * pyval * Z.
Definition binds (m : MappingConfig) : option endpoint :=
  if eq_str (kind m) (str "net") && listens (network m)
  then Some (eq_str (mode (network m)) (str "udp"), bind_ip (network m), int_of (port (network m)))
  else None.
Definition clashes (a b : endpoint) : bool :=
  Bool.eqb a.1.1 b.1.1 && (a.2 =? b.2) && _ip_overlaps a.1.2 b.1.2.

Fixpoint validate_mappings (ms : list MappingConfig) (owner : list (pyval * pyval))
    (seen : list endpoint) : res unit :=
  match ms with
  | [] => Ok tt
  | m :: ms' =>
      _ ← mapping_validate m;
      owner ← (if enabled m then claim_devices m (devices_of m) owner else Ok owner);
      match binds m with
      | None => validate_mappings ms' owner seen
      | Some e =>
          _ ← raise_if (existsb (λ s, clashes s e) seen) ConfigError
                       "Mappings '{0}' and '{1}' both use {2} port {3} on overlapping addresses";
          validate_mappings ms' owner (e :: seen)
      end
  end.
End validation.

(** ** Cluster peers *)
Definition split_scheme (s : pystr) : option (pystr * pystr) :=
  (fix go (pre : pystr) (t : pystr) : option (pystr * pystr) :=
     if is_prefix (str "://") t then Some (rev pre, drop 3 t)
     else match t with [] => None | c :: t' => go (c :: pre) t' end) [] s.
Definition parse_cluster_peer (entry : pystr) : res (pystr * pystr * Z) :=
  let s := strip entry in
  let '(scheme, s) := match split_scheme s with
                      | Some (a, b) => (lower a, b)
                      | None => (str "http", s)
                      end in
  _ ← raise_if (negb (existsb (str_eqb scheme) [str "http"; str "https"])) ConfigError
               "Cluster peer scheme must be http or https: {0}";
  match split_last 58 s with
  | None | Some ([], _) => raise ConfigError "Cluster peer must be host:port"
  | Some (host, port_s) =>
      match int_of_text port_s with
      | None => raise ConfigError "Cluster peer port is not a number: {0}"
      | Some port =>
          _ ← raise_if (negb ((1 <=? port) && (port <=? 65535))) ConfigError
                       "Cluster peer port must be 1..65535: {0}";
          Ok (scheme, host, port)
      end
  end.

(** ** Validated mappings do not compete *)
Lemma py_eq_str s v : py_eq (VStr s) v = true ↔ v = VStr s.
Proof. destruct v; cbn; try (by split). rewrite str_eqb_eq. split; congruence. Qed.

(** Every owner recorded for a device path is the same mapping; ids are text. *)
Definition owners_ok (owner : list (pyval * pyval)) : Prop :=
  (∀ s i j, (VStr s, i) ∈ owner → (VStr s, j) ∈ owner → i = j) ∧
  (∀ d i, (d, i) ∈ owner → is_str i = true).

Lemma vassoc_str {A} s (l : list (pyval * A)) a :
  vassoc (VStr s) l = Some a → (VStr s, a) ∈ l.
Proof.
  induction l as [|[k b] l IH]; [done|]. cbn [vassoc]. destruct (py_eq (VStr s) k) eqn:E.
  - apply py_eq_str in E as ->. intros [= ->]. left.
  - intros H. right. auto.
Qed.
Lemma vassoc_str_none {A} s (l : list (pyval * A)) a : vassoc (VStr s) l = None → (VStr s, a) ∉ l.
Proof.
  induction l as [|[k b] l IH]; [by intros _ ?%not_elem_of_nil|]. cbn [vassoc].
  destruct (py_eq (VStr s) k) eqn:E; [done|]. intros H [[= <- _]|Hin]%elem_of_cons.
  - by rewrite (proj2 (py_eq_str s (VStr s)) eq_refl) in E.
  - by apply IH.
Qed.

Lemma claim_devices_ok m devs owner owner' :
  is_str (id m) = true →
  claim_devices m devs owner = Ok owner' → owners_ok owner →
  owners_ok owner' ∧ (∀ x, x ∈ owner → x ∈ owner') ∧
  (∀ s, VStr s ∈ devs → (VStr s, id m) ∈ owner').
Proof.
  intros Hid. revert owner. induction devs as [|dev devs IH]; intros owner H Hok; cbn [claim_devices] in H.
  { injection H as <-. split_and!; [done..|]. by intros s ?%not_elem_of_nil. }
  apply res_bind_Ok in H as (u1 & _ & H). apply res_bind_Ok in H as (u2 & Hu%raise_if_Ok & H).
  assert (owners_ok ((dev, id m) :: owner)) as Hok'.
  { destruct Hok as [Hok Hstr].
    assert (∀ s i, dev = VStr s → (VStr s, i) ∈ owner → i = id m) as Hdev.
    { intros s i -> Hi. destruct (vassoc (VStr s) owner) as [o|] eqn:E.
      - apply negb_false_iff in Hu. apply vassoc_str in E. pose proof (Hstr _ _ E) as Ho.
        destruct o as [| | | |o| | |]; try done. apply py_eq_str in Hu. rewrite Hu. by eapply Hok.
      - by apply (vassoc_str_none s owner i) in E. }
    split; [|by intros d i [[= -> ->]|Hi]%elem_of_cons; [|eapply Hstr]].
    intros s i j [[= E1 E2]|Hi]%elem_of_cons [[= E3 E4]|Hj]%elem_of_cons; subst.
    - done.
    - symmetry. by eapply Hdev.
    - by eapply Hdev.
    - by eapply Hok. }
  destruct (IH _ H Hok') as (I1 & I2 & I3). split_and!; [done| |].
  - intros x Hx. apply I2. by right.
  - intros s [<-|Hs]%elem_of_cons; [apply I2; left|by apply I3].
Qed.

Lemma validate_mappings_devices isfile ms owner seen :
  Forall (λ m, is_str (id m) = true) ms →
  validate_mappings isfile ms owner seen = Ok tt → owners_ok owner →
  ∃ owner', owners_ok owner' ∧ (∀ x, x ∈ owner → x ∈ owner') ∧
    ∀ m s, m ∈ ms → enabled m = true → VStr s ∈ devices_of m → (VStr s, id m) ∈ owner'.
Proof.
  intros Hids. revert owner seen. induction Hids as [|m ms Hm _ IH]; intros owner seen H Hok;
    cbn [validate_mappings] in H.
  { exists owner. split_and!; [done..|]. by intros m s ?%not_elem_of_nil. }
  apply res_bind_Ok in H as (u & _ & H). apply res_bind_Ok in H as (owner1 & Hc & H).
  assert (owners_ok owner1 ∧ (∀ x, x ∈ owner → x ∈ owner1) ∧
    (enabled m = true → ∀ s, VStr s ∈ devices_of m → (VStr s, id m) ∈ owner1)) as (H1 & H2 & H3).
  { destruct (enabled m); [|injection Hc as <-; by split_and!].
    apply claim_devices_ok in Hc as (? & ? & ?); [|done..]. by split_and!. }
  assert (∃ seen', validate_mappings isfile ms owner1 seen' = Ok tt) as [seen' H'].
  { destruct (binds m); [|by eauto]. apply res_bind_Ok in H as (? & _ & H). by eauto. }
  destruct (IH _ _ H' H1) as (owner2 & I1 & I2 & I3). exists owner2. split_and!; [done|by auto|].
  intros m' s [->|Hm']%elem_of_cons He Hs; [by apply I2, H3|by eapply I3].
Qed.

Lemma validate_mappings_ports isfile ms owner seen :
  validate_mappings isfile ms owner seen = Ok tt →
  (∀ m e s, m ∈ ms → binds m = Some e → s ∈ seen → clashes s e = false) ∧
  ∀ i j a b e f, (i < j)%nat → ms !! i = Some a → ms !! j = Some b →
    binds a = Some e → binds b = Some f → clashes e f = false.
Proof.
  revert owner seen. induction ms as [|m ms IH]; intros owner seen H; cbn [validate_mappings] in H.
  { split; [by intros m e s ?%not_elem_of_nil|done]. }
  apply res_bind_Ok in H as (u & _ & H). apply res_bind_Ok in H as (owner1 & _ & H).
  destruct (binds m) as [e0|] eqn:Eb.
  - apply res_bind_Ok in H as (? & Hc%raise_if_Ok & H). destruct (IH _ _ H) as [I1 I2]. split.
    + intros m' e s [->|Hm]%elem_of_cons He Hs.
      * rewrite Eb in He. injection He as <-. destruct (clashes s e0) eqn:E; [|done].
        rewrite <- Hc. symmetry. apply existsb_exists. exists s. split; [by apply list_elem_of_In|done].
      * apply (I1 m' e s); [done..|by right].
    + intros [|i] [|j] a b e f Hij Ha Hb He Hf; try lia; cbn in Ha, Hb.
      * injection Ha as <-. rewrite Eb in He. injection He as <-.
        apply (I1 b f e0); [by eapply list_elem_of_lookup_2|done|left].
      * by apply (I2 i j a b e f); [lia|..].
  - destruct (IH _ _ H) as [I1 I2]. split.
    + intros m' e s [->|Hm]%elem_of_cons He Hs; [congruence|by apply (I1 m' e s)].
    + intros [|i] [|j] a b e f Hij Ha Hb He Hf; try lia; cbn in Ha, Hb.
      * injection Ha as <-. congruence.
      * by apply (I2 i j a b e f); [lia|..].
Qed.

Lemma no_overlap udp x y p : clashes (udp, x, p) (udp, y, p) = false →
  py_eq x y = false ∧ ∀ w, w ∈ [vstr "0.0.0.0"; vstr "::"] → x ≠ w ∧ y ≠ w.
Proof.
  unfold clashes, _ip_overlaps. cbn [fst snd]. rewrite Bool.eqb_reflx, Z.eqb_refl. cbn [andb].
  destruct (py_eq x y); [done|]. intros [H1 H2]%orb_false_iff. split; [done|].
  intros w Hw. split; intros ->; apply elem_of_cons in Hw as [-> | ->%list_elem_of_singleton]; done.
Qed.

(** C16: what a list of mappings with text ids that validates rules out: a device path claimed by two enabled mappings
    means they are the same mapping (same id), and two listening mappings with the same transport and port are bound to
    addresses with different texts, neither of which is a wildcard. A device found by its [match] claims no path, and
    addresses are compared as written ([AppConfig.what_validation_lets_through]). *)
Theorem mappings_do_not_conflict isfile ms :
  Forall (λ m, is_str (id m) = true) ms →
  validate_mappings isfile ms [] [] = Ok tt →
  (∀ a b dev, a ∈ ms → b ∈ ms → enabled a = true → enabled b = true →
     VStr dev ∈ devices_of a → VStr dev ∈ devices_of b → id a = id b) ∧
  (∀ i j a b udp x y p, (i < j)%nat → ms !! i = Some a → ms !! j = Some b →
     binds a = Some (udp, x, p) → binds b = Some (udp, y, p) →
     py_eq x y = false ∧ ∀ w, w ∈ [vstr "0.0.0.0"; vstr "::"] → x ≠ w ∧ y ≠ w).
Proof.
  intros Hids H. split.
  2: { intros i j a b udp x y p Hij Ha Hb Hba Hbb.
       eapply no_overlap, (proj2 (validate_mappings_ports _ _ _ _ H)); [exact Hij|exact Ha|exact Hb|exact Hba|exact Hbb]. }
  destruct (validate_mappings_devices _ _ _ _ Hids H) as (owner & [Hok _] & _ & Hin).
  { by split; [intros s i j ?%not_elem_of_nil|intros d i ?%not_elem_of_nil]. }
  intros a b dev Ha Hb Hea Heb Hda Hdb. by eapply Hok; apply Hin.
Qed.

(** The defaults of the dataclasses, for concrete configurations. *)
Definition default_advanced : SerialAdvanced :=
  mkAdvanced (VBool false) (VFloat (S754_zero false)) (VFloat (S754_zero false)) (VBool true)
    (VBool false) (VBool false).
Definition default_serial (p : pyval) : SerialSettings :=
  mkSerial p (VDict []) (VInt 9600) (VInt 8) (vstr "N") (VInt 1) (vstr "none") (vstr "keep")
    (vstr "keep") (VBool true) default_advanced.
Definition default_network (m : pyval) (p : Z) : NetworkSettings :=
  match NetworkSettings_from_dict (VDict [(str "mode", m); (str "port", VInt p)]) with
  | Ok n => n
  | Raise _ => mkNetwork m VNone VNone VNone VNone VNone VNone VNone VNone VNone VNone VNone VNone
                 VNone VNone VNone VNone VNone VNone VNone
  end.
Definition default_options : MappingOptions :=
  mkOptions (vstr "") (vstr "") (vstr "") (vstr "") (VInt 0) (VInt 0) [] (VBool false) (VBool true)
    (VFloat f10) (VInt 3) (VFloat f1) (VInt 3) (VFloat f1).
Definition default_mqtt : MqttSettings :=
  mkMqtt (VBool false) (vstr "") (VInt 1883) (vstr "") (VInt 0) (VBool false) (vstr "") (vstr "")
    (vstr "") (vstr "plain") (vstr "ser2net") (vstr "").
Definition demo_mapping (i dev : string) (m : string) (p : Z) : MappingConfig :=
  mkMapping (vstr i) (vstr "m") true (vstr "net") (default_serial (vstr dev)) (default_serial (vstr ""))
    (default_network (vstr m) p) default_options default_mqtt (mkPoll (S754_zero false) []).
Definition demo_mappings : list MappingConfig :=
  [demo_mapping "a" "/dev/ttyUSB0" "server" 4001; demo_mapping "b" "/dev/ttyUSB1" "udp" 4001;
   demo_mapping "c" "COM3" "server" 4002].
Lemma mappings_do_not_conflict_witness :
  (∀ a b dev, a ∈ demo_mappings → b ∈ demo_mappings → enabled a = true → enabled b = true →
     VStr dev ∈ devices_of a → VStr dev ∈ devices_of b → id a = id b) ∧
  (∀ i j a b udp x y p, (i < j)%nat → demo_mappings !! i = Some a → demo_mappings !! j = Some b →
     binds a = Some (udp, x, p) → binds b = Some (udp, y, p) →
     py_eq x y = false ∧ ∀ w, w ∈ [vstr "0.0.0.0"; vstr "::"] → x ≠ w ∧ y ≠ w).
Proof. apply (mappings_do_not_conflict (λ _, true)); [by repeat constructor|]. vm_compute. reflexivity. Defined.

(** ** Values older configurations hold *)
Lemma cap_timer_valid v v' :
  _is_number v = true → finite_number v = Ok true → negative v = false → cap_timer v = Ok v' →
  _is_number v' = true ∧ between 0 v' MAX_TIMER_S = true ∧ (between 0 v MAX_TIMER_S = true → v' = v).
Proof.
  destruct v as [| |z|f| | | |]; try done; intros _ Hfin Hneg; cbn [cap_timer].
  - intros [= <-]. cbn [negative] in Hneg. zbool. split; [done|].
    cbn [between int_of]. rewrite !andb_true_iff, !Z.leb_le. unfold MAX_TIMER_S in *.
    split; [lia|]. intros ?. f_equal. lia.
  - cbn [negative between] in *. intros H.
    assert (∃ c, fcompare_Z f 0 = Some c) as [c0 E0] by (destruct f; try done; by eexists).
    assert (∃ c, fcompare_Z f MAX_TIMER_S = Some c) as [c1 E1] by (destruct f; try done; by eexists).
    rewrite E1 in H. rewrite E0 in Hneg.
    destruct c1; injection H as <-; cbn [between]; rewrite ?E0, ?E1; destruct c0; try done; by vm_compute.
Qed.

Lemma isfinite_cases z : (∃ b, isfinite (NInt z) = Ok b) ∨ ∃ m, isfinite (NInt z) = raise OverflowError m.
Proof.
  unfold isfinite, to_float, float_of_Z.
  destruct (binary_normalize 53 1024 z 0 false); cbn; eauto.
Qed.
Lemma isfinite_small z : 0 <= z <= MAX_TIMER_S → isfinite (NInt z) = Ok true.
Proof.
  unfold MAX_TIMER_S. intros Hz. destruct (float_of_Z_small z) as (x & Hx & Hf & _); [lia|].
  unfold isfinite, to_float. rewrite Hx. cbn. by rewrite Hf.
Qed.

(** The part of [_legacy_seconds] after strings were parsed. *)
Definition legacy_tail (v : pyval) : res pyval :=
  if negb (_is_number v) then Ok (VInt 0)
  else fin ← finite_number v; if negb fin || negative v then Ok (VInt 0) else cap_timer v.

Lemma legacy_tail_spec v :
  match legacy_tail v with
  | Ok v' => _is_number v' = true ∧ between 0 v' MAX_TIMER_S = true
             ∧ (_is_number v = true → between 0 v MAX_TIMER_S = true → v' = v)
  | Raise e => exn_cls e = OverflowError ∧ ∃ z, v = VInt z ∧ isfinite (NInt z) = Raise e
  end.
Proof.
  unfold legacy_tail. destruct (_is_number v) eqn:En; [|by split_and!].
  cbn [negb]. destruct v as [| |z|f| | | |]; try done; cbn [finite_number].
  - destruct (isfinite_cases z) as [[b E]|[m E]]; rewrite E; cbn; [|split; [done|by exists z]].
    destruct (negb b || (z <? 0)) eqn:Eb.
    + split_and!; [done|done|]. intros _ Hz. zbool.
      assert (b = true) as ->; [|cbn in Eb; zbool; f_equal; lia].
      rewrite isfinite_small in E by lia. congruence.
    + zbool. destruct b; [|done]. destruct (cap_timer_valid (VInt z) (VInt (z `min` MAX_TIMER_S)))
        as (? & ? & ?); [done|done|cbn; by apply Z.ltb_ge|done|done].
  - cbn. destruct (negb (is_finite f) || _) eqn:Eb.
    + split_and!; [done|done|]. intros _ Hb. exfalso. cbn [between] in Hb.
      destruct f as [| []| |]; try done; cbn in Eb, Hb.
      all: repeat case_match; done.
    + zbool. destruct (is_finite f) eqn:Ef; [|done].
      change (match cap_timer (VFloat f) with
              | Ok v' => _is_number v' = true ∧ between 0 v' MAX_TIMER_S = true
                         ∧ (true = true → between 0 (VFloat f) MAX_TIMER_S = true → v' = VFloat f)
              | Raise e => exn_cls e = OverflowError ∧ ∃ z, VFloat f = VInt z ∧ isfinite (NInt z) = Raise e
              end).
      destruct (cap_timer (VFloat f)) as [v'|e] eqn:Ec.
      * destruct (cap_timer_valid (VFloat f) v') as (? & ? & ?); [done|by cbn; rewrite Ef|done|done|].
        done.
      * cbn in Ec. by repeat case_match.
Qed.

Lemma session_timeout_valid v :
  ∃ s, _session_timeout v = Ok s ∧ SESSION_TIMEOUT_MIN_S <= s <= SESSION_TIMEOUT_MAX_S.
Proof.
  assert (∀ m, (∃ z, m = Ok z) ∨ (∃ e, m = Raise e ∧ exn_cls e ∈ [TypeError; ValueError; OverflowError]) →
    ∃ s, match m with
         | Ok s => Ok (Z.min (Z.max s SESSION_TIMEOUT_MIN_S) SESSION_TIMEOUT_MAX_S)
         | Raise (Exn (TypeError | ValueError | OverflowError) _) => Ok SESSION_TIMEOUT_DEFAULT_S
         | Raise e => Raise e
         end = Ok s ∧ SESSION_TIMEOUT_MIN_S <= s <= SESSION_TIMEOUT_MAX_S) as Hm.
  { unfold SESSION_TIMEOUT_MIN_S, SESSION_TIMEOUT_MAX_S, SESSION_TIMEOUT_DEFAULT_S.
    intros m [[z ->]|[[c t] [-> H]]]; [eexists; split; [done|lia]|].
    cbn in H. rewrite !elem_of_cons, elem_of_nil in H. destruct H as [->|[->|[->|[]]]];
      eexists; (split; [done|lia]). }
  assert (∀ f, (∃ z, py_trunc f = Ok z) ∨ ∃ e, py_trunc f = Raise e ∧ exn_cls e ∈ [TypeError; ValueError; OverflowError]) as Ht.
  { intros []; cbn; try (by left; eexists); right; eexists; (split; [done|]); cbn; set_solver. }
  unfold _session_timeout. apply Hm. destruct v as [|b|z|f|s| | |]; try (by right; eexists; split; [done|]; cbn; set_solver).
  - by left; eexists.
  - unfold float_of_Z. destruct (binary_normalize 53 1024 z 0 false); try apply Ht.
    right. eexists. split; [done|]. cbn. set_solver.
  - apply Ht.
  - destruct (float_of_text s); [apply Ht|]. right. eexists. split; [done|]. cbn. set_solver.
Qed.

Lemma legacy_seconds_spec v :
  match _legacy_seconds v with
  | Ok v' => _is_number v' = true ∧ between 0 v' MAX_TIMER_S = true
             ∧ (_is_number v = true → between 0 v MAX_TIMER_S = true → v' = v)
  | Raise e => exn_cls e = OverflowError
               ∧ ∃ z, isfinite (NInt z) = Raise e
                      ∧ (v = VInt z ∨ ∃ s f, v = VStr s ∧ float_of_text (strip s) = Some f ∧ py_trunc f = Ok z)
  end.
Proof.
  destruct (is_str v) eqn:Es.
  - destruct v as [| | | |s| | |]; try done.
    destruct (float_of_text (strip s)) as [f|] eqn:Ef; [|unfold _legacy_seconds; rewrite Ef; by split_and!].
    destruct (float_is_integer f) eqn:Ei.
    * assert (∃ n, py_trunc f = Ok n) as [n En] by (destruct f; try done; by eexists).
      replace (_legacy_seconds (VStr s)) with (legacy_tail (VInt n))
        by (unfold _legacy_seconds; rewrite Ef, Ei, En; done).
       pose proof (legacy_tail_spec (VInt n)) as H.
      destruct (legacy_tail (VInt n)) as [v'|e]; [naive_solver|].
      destruct H as (? & z & [= ->] & ?). naive_solver.
    * replace (_legacy_seconds (VStr s)) with (legacy_tail (VFloat f))
        by (unfold _legacy_seconds; rewrite Ef, Ei; done).
       pose proof (legacy_tail_spec (VFloat f)) as H.
      destruct (legacy_tail (VFloat f)) as [v'|e]; naive_solver.
  - replace (_legacy_seconds v) with (legacy_tail v) by (by destruct v).
    pose proof (legacy_tail_spec v) as H. destruct (legacy_tail v) as [v'|e]; naive_solver.
Qed.

(** an idle timer taken from an older configuration (any JSON value) becomes a number the
    validation accepts, a value the validation accepts is kept as it is, and loading fails only
    with OverflowError on an integer no double can hold; a session lifetime always loads and lies
    within the supported range. *)
Theorem legacy_values_valid (v : pyval) :
  match _legacy_seconds v with
  | Ok v' => _is_number v' = true ∧ between 0 v' MAX_TIMER_S = true
             ∧ (_is_number v = true → between 0 v MAX_TIMER_S = true → v' = v)
  | Raise e => exn_cls e = OverflowError
               ∧ ∃ z, isfinite (NInt z) = Raise e
                      ∧ (v = VInt z ∨ ∃ s f, v = VStr s ∧ float_of_text (strip s) = Some f ∧ py_trunc f = Ok z)
  end
  ∧ ∃ s, _session_timeout v = Ok s ∧ SESSION_TIMEOUT_MIN_S <= s <= SESSION_TIMEOUT_MAX_S.
Proof. split; [apply legacy_seconds_spec|apply session_timeout_valid]. Qed.

(** ** Trace file names stay inside the trace directory *)
Section trace_name_proof.
Context (word : Z → bool).

Lemma sub_bad_chars s b : Forall (λ c, name_char word c = true) (sub_bad word b s).
Proof.
  revert b. induction s as [|c s IH]; intros b; cbn; [done|].
  destruct (name_char word c) eqn:E; [by constructor|]. destruct b; [done|]. by constructor.
Qed.
Lemma sub_bad_id s b : Forall (λ c, name_char word c = true) s → sub_bad word b s = s.
Proof. intros H. revert b. induction H as [|c s Hc _ IH]; intros b; cbn; [done|]. by rewrite Hc, IH. Qed.
Lemma after_sep_id acc s : 47 ∉ s → 92 ∉ s → after_sep acc s = acc.
Proof.
  revert acc. induction s as [|c s IH]; intros acc; cbn; [done|].
  rewrite !not_elem_of_cons. intros [H1 H1'] [H2 H2'].
  rewrite (proj2 (Z.eqb_neq c 47)), (proj2 (Z.eqb_neq c 92)) by done. cbn. by apply IH.
Qed.
Lemma name_char_no_sep s : Forall (λ c, name_char word c = true) s → 47 ∉ s ∧ 92 ∉ s.
Proof. intros H. split; intros Hin; rewrite Forall_forall in H; by apply H in Hin. Qed.

(** A component that stays one: only name characters, at most 80, no dot or space at the ends. *)
Definition safe_name (s : pystr) : Prop :=
  Forall (λ c, name_char word c = true) s ∧ zlen s <= 80 ∧ s ≠ []
  ∧ (∀ c r, s = c :: r → dot_space c = false) ∧ (∀ c r, s = r ++ [c] → dot_space c = false).

Lemma trace_name_safe value :
  let n := trace_file_name word value in (n = [] ∧ strip value = []) ∨ (safe_name n ∧ strip value ≠ []).
Proof.
  unfold trace_file_name. destruct (strip value) as [|x raw] eqn:Eraw; [by left|right].
  split; [|done].
  set (nm := sub_bad word false (after_sep (x :: raw) (x :: raw))).
  pose proof (sub_bad_chars (after_sep (x :: raw) (x :: raw)) false) as Hnm. fold nm in Hnm. clearbody nm.
  destruct (rstrip_by dot_space (take 80 (strip_by dot_space nm))) as [|c r] eqn:E.
  { unfold safe_name. split_and!; [by repeat constructor|by vm_compute|done|..].
    - by intros c r [= <- _].
    - intros c r Er. apply (f_equal (@rev Z)) in Er. rewrite rev_app_distr in Er. by injection Er as <- _. }
  assert (Forall (λ c, name_char word c = true) (c :: r)) as Hc.
  { rewrite <- E. apply Forall_rstrip, Forall_take. unfold strip_by. by apply Forall_rstrip, Forall_lstrip. }
  split_and!; [done| |done| |].
  - destruct (rstrip_by_prefix dot_space (take 80 (strip_by dot_space nm))) as [post Ep].
    assert (zlen (take 80 (strip_by dot_space nm)) <= 80) as Hl by (unfold zlen; rewrite length_take; lia).
    rewrite Ep, E, zlen_app in Hl. pose proof (zlen_nonneg post). lia.
  - intros c' r' [= <- <-]. apply rstrip_by_head in E as [r' E].
    destruct (strip_by dot_space nm) as [|y z] eqn:Es; [done|]. cbn in E. injection E as -> _.
    unfold strip_by in Es. apply rstrip_by_head in Es as [r'' Es]. by apply lstrip_by_head in Es.
  - intros c' r' E'. rewrite E' in E. by apply rstrip_by_last in E.
Qed.

Lemma trace_name_stable n :
  (∀ c, is_space c = true → name_char word c = false) → safe_name n → trace_file_name word n = n.
Proof.
  intros Hsp (Hc & Hl & Hn & Hh & Ht). destruct (name_char_no_sep n Hc) as [H1 H2].
  assert (∀ c, c ∈ n → is_space c = false) as Hns.
  { intros c Hin. rewrite Forall_forall in Hc. apply Hc in Hin.
    destruct (is_space c) eqn:E; [|done]. by rewrite Hsp in Hin. }
  assert (strip n = n) as Es.
  { unfold strip, strip_by. rewrite lstrip_by_id; [apply rstrip_by_id|].
    - intros r c ->. apply Hns. set_solver.
    - intros c r ->. apply Hns. set_solver. }
  unfold trace_file_name. rewrite Es, after_sep_id, sub_bad_id by done.
  unfold strip_by. rewrite (lstrip_by_id _ n) by done.
  rewrite (rstrip_by_id _ n) by naive_solver.
  rewrite take_ge by (unfold zlen in Hl; lia). rewrite rstrip_by_id by naive_solver.
  by destruct n.
Qed.

(** for every value a configuration may hold, the trace file name is off exactly when the
    value is blank, and otherwise is one path component (no separator, not "." or "..") of at most
    80 name characters; loading a saved name gives it back, so a mapping's trace is never renamed
    by saving its configuration. *)
Theorem trace_file_name_contained value :
  (∀ c, is_space c = true → name_char word c = false) →
  let n := trace_file_name word value in
  (n = [] ↔ strip value = []) ∧ zlen n <= 80 ∧ 47 ∉ n ∧ 92 ∉ n ∧ n ≠ str "." ∧ n ≠ str ".."
  ∧ trace_file_name word n = n.
Proof.
  intros Hsp n. destruct (trace_name_safe value) as [[E E']|[Hs E']]; fold n in E || fold n in Hs.
  - rewrite E. by split_and!; try apply not_elem_of_nil.
  - pose proof (trace_name_stable n Hsp Hs). destruct Hs as (Hc & Hl & Hn & Hh & _).
    destruct (name_char_no_sep n Hc). split_and!; try done.
    + intros En. by specialize (Hh 46 [] En).
    + intros En. by specialize (Hh 46 [46] En).
Qed.
End trace_name_proof.

Definition ascii_word (c : Z) : bool := false.
Lemma ascii_word_no_space c : is_space c = true → name_char ascii_word c = false.
Proof.
  intros H. unfold name_char, ascii_word. rewrite andb_false_r, orb_false_r.
  unfold is_space in H. rewrite !orb_true_iff in H. destruct H as [[[H|H]|H]|H].
  1-3: unfold in_range in *; zbool; repeat (apply orb_false_iff; split); try (apply andb_false_iff);
    rewrite ?Z.leb_gt, ?Z.eqb_neq; lia.
  apply existsb_exists in H as (x & Hx & ->%Z.eqb_eq). cbn in Hx. by repeat destruct Hx as [<-|Hx].
Qed.
Lemma trace_file_name_contained_witness :
  let n := trace_file_name ascii_word (str " ../../etc/cron.d/my job?.log. ") in
  (n = [] ↔ strip (str " ../../etc/cron.d/my job?.log. ") = []) ∧ zlen n <= 80 ∧ 47 ∉ n ∧ 92 ∉ n
  ∧ n ≠ str "." ∧ n ≠ str ".." ∧ trace_file_name ascii_word n = n.
Proof.
  apply trace_file_name_contained. apply ascii_word_no_space.
Defined.
