(* ===== verification/AppConfig.v ===== *)
(** * Mappings and the application configuration as JSON documents (app/config.py)

    [*_from_dict] builds a settings object from a JSON value, [*_to_dict] is [asdict]: loading
    what was saved gives the same mapping back. Then the application configuration itself: its
    settings groups, its users, its validation. [word] is the Unicode part of [\w], [repr] the
    text Python gives a list or dict, [fresh] a generated id, [isfile] the file system's answer. *)
From Stdlib Require Import SpecFloat.
From S2P Require Import Prelude PyFloat PyStr PyVal IpAddr PyNum Json JsonOut Modbus Config.
#[local] Open Scope Z_scope.

Definition f3 : pyfloat := S754_finite false 6755399441055744 (-51).
Definition f5 : pyfloat := S754_finite false 5629499534213120 (-50).

(** ** Mappings to documents *)
Definition key (k : string) (v : pyval) : pystr * pyval := (str k, v).
Arguments key k%_string v.

Definition serial_to_dict (s : SerialSettings) : pyval :=
  let a := advanced s in
  VDict [key "port" (s_port s); key "match" (s_match s); key "baudrate" (baudrate s);
         key "bytesize" (bytesize s); key "parity" (parity s); key "stopbits" (stopbits s);
         key "flowcontrol" (flowcontrol s); key "rts_on_open" (rts_on_open s);
         key "dtr_on_open" (dtr_on_open s); key "exclusive" (exclusive s);
         key "advanced" (VDict [key "rs485_enabled" (rs485_enabled a);
                                key "rs485_delay_before_tx_ms" (rs485_delay_before_tx_ms a);
                                key "rs485_delay_after_tx_ms" (rs485_delay_after_tx_ms a);
                                key "rs485_rts_level_for_tx" (rs485_rts_level_for_tx a);
                                key "hangup_when_done" (hangup_when_done a);
                                key "nobreak" (nobreak a)])].
Definition network_to_dict (n : NetworkSettings) : pyval :=
  VDict [key "mode" (mode n); key "protocol" (protocol n); key "bind_ip" (bind_ip n);
         key "port" (port n); key "remote_host" (remote_host n); key "remote_port" (remote_port n);
         key "max_connections" (max_connections n); key "kick_old_user" (kick_old_user n);
         key "allowed_client_ips" (allowed_client_ips n);
         key "priority_client_ips" (priority_client_ips n); key "read_only" (read_only n);
         key "client_queue_max" (client_queue_max n); key "tcp_keepalive" (tcp_keepalive n);
         key "keepalive_idle_s" (keepalive_idle_s n);
         key "keepalive_interval_s" (keepalive_interval_s n);
         key "keepalive_count" (keepalive_count n); key "connect_timeout_s" (connect_timeout_s n);
         key "tls" (tls n); key "tls_cert" (tls_cert n); key "tls_key" (tls_key n)].
Definition options_to_dict (o : MappingOptions) : pyval :=
  VDict [key "banner" (banner o); key "openstr" (openstr o); key "closestr" (closestr o);
         key "closeon" (closeon o); key "idle_timeout_s" (idle_timeout_s o);
         key "max_connection_time_s" (max_connection_time_s o);
         key "trace_both" (VStr (trace_both o)); key "trace_hexdump" (trace_hexdump o);
         key "trace_timestamp" (trace_timestamp o); key "trace_max_mb" (trace_max_mb o);
         key "trace_keep" (trace_keep o);
         key "rfc2217_poll_modem_interval_s" (rfc2217_poll_modem_interval_s o);
         key "rfc2217_net_timeout_s" (rfc2217_net_timeout_s o);
         key "modbus_response_timeout_s" (modbus_response_timeout_s o)].
Definition mqtt_to_dict (m : MqttSettings) : pyval :=
  VDict [key "enabled" (mq_enabled m); key "host" (mq_host m); key "port" (mq_port m);
         key "base_topic" (base_topic m); key "qos" (mq_qos m); key "tls" (mq_tls m);
         key "username" (mq_username m); key "password" (mq_password m);
         key "client_id" (mq_client_id m); key "payload_format" (payload_format m);
         key "sparkplug_group_id" (sparkplug_group_id m);
         key "sparkplug_node_id" (sparkplug_node_id m)].
Definition point_to_dict (p : PollPoint) : pyval :=
  VDict [key "name" (pp_name p); key "unit" (pp_unit p); key "fn" (pp_fn p);
         key "address" (pp_address p); key "dtype" (pp_dtype p); key "scale" (pp_scale p);
         key "writable" (pp_writable p)].
Definition poll_to_dict (p : ModbusPoll) : pyval :=
  VDict [key "interval_s" (VFloat (interval_s p)); key "points" (VList (point_to_dict <$> poll_points p))].
Definition mapping_to_dict (m : MappingConfig) : pyval :=
  VDict [key "id" (id m); key "name" (name m); key "enabled" (VBool (enabled m));
         key "kind" (kind m); key "serial" (serial_to_dict (serial m));
         key "serial_b" (serial_to_dict (serial_b m)); key "network" (network_to_dict (network m));
         key "options" (options_to_dict (options m)); key "mqtt" (mqtt_to_dict (mqtt m));
         key "modbus_poll" (poll_to_dict (modbus_poll m))].

(** [v or default] *)
Definition or_else (v default : pyval) : pyval := if truthy v then v else default.

(** ** Documents to mappings *)
Section from_dict.
Context (word : Z → bool) (repr : pyval → pystr).

Definition options_from_dict (v : pyval) : res MappingOptions :=
  d ← as_dict v;
  idle ← _legacy_seconds (get d "idle_timeout_s" (VInt 0));
  let tb := get d "trace_both" (vstr "") in
  Ok (mkOptions (get d "banner" (vstr "")) (get d "openstr" (vstr "")) (get d "closestr" (vstr ""))
        (get d "closeon" (vstr "")) idle (get d "max_connection_time_s" (VInt 0))
        (trace_file_name word (str_of_val repr (or_else tb (vstr ""))))
        (get d "trace_hexdump" (VBool false)) (get d "trace_timestamp" (VBool true))
        (get d "trace_max_mb" (VFloat f10)) (get d "trace_keep" (VInt 3))
        (get d "rfc2217_poll_modem_interval_s" (VFloat f1)) (get d "rfc2217_net_timeout_s" (VFloat f3))
        (get d "modbus_response_timeout_s" (VFloat f1))).
Definition mqtt_from_dict (v : pyval) : res MqttSettings :=
  d ← as_dict v;
  Ok (mkMqtt (get d "enabled" (VBool false)) (get d "host" (vstr "")) (get d "port" (VInt 1883))
        (get d "base_topic" (vstr "")) (get d "qos" (VInt 0)) (get d "tls" (VBool false))
        (get d "username" (vstr "")) (get d "password" (vstr "")) (get d "client_id" (vstr ""))
        (get d "payload_format" (vstr "plain")) (get d "sparkplug_group_id" (vstr "ser2net"))
        (get d "sparkplug_node_id" (vstr ""))).
Definition point_from_dict (v : pyval) : res PollPoint :=
  d ← as_dict v;
  Ok (mkPollPoint (get d "name" (vstr "")) (get d "unit" (VInt 1)) (get d "fn" (VInt 3))
        (get d "address" (VInt 0)) (get d "dtype" (vstr "uint16")) (get d "scale" (VFloat f1))
        (get d "writable" (VBool false))).
Definition poll_from_dict (v : pyval) : res ModbusPoll :=
  d ← as_dict v;
  i ← float_of_val (or_else (get d "interval_s" (VFloat f5)) (VFloat f5));
  l ← iter_of (get d "points" (VList []));
  ps ← mapr point_from_dict l;
  Ok (mkPoll i ps).
Definition mapping_from_dict (fresh : pystr) (v : pyval) : res MappingConfig :=
  d ← as_dict v;
  s ← SerialSettings_from_dict (get d "serial" (VDict []));
  sb ← SerialSettings_from_dict (get d "serial_b" (VDict []));
  n ← NetworkSettings_from_dict (get d "network" (VDict []));
  o ← options_from_dict (get d "options" (VDict []));
  mq ← mqtt_from_dict (get d "mqtt" (VDict []));
  p ← poll_from_dict (get d "modbus_poll" (VDict []));
  Ok (mkMapping (or_else (get d "id" VNone) (VStr fresh)) (get d "name" (vstr ""))
        (truthy (get d "enabled" (VBool true))) (get d "kind" (vstr "net")) s sb n o mq p).

(** ** Settings groups *)
Record AdminUI := mkAdmin {
  ui_bind_ip : pyval;
  ui_port : pyval;
  ui_tls_cert : pyval;
  ui_tls_key : pyval;
  require_login : pyval;
  anonymous_role : pyval;
  language : pyval;
}.
Definition AdminUI_from_dict (a : list (pystr * pyval)) : AdminUI :=
  mkAdmin (get a "bind_ip" (vstr "127.0.0.1")) (get a "port" (VInt 8080)) (get a "tls_cert" (vstr ""))
    (get a "tls_key" (vstr "")) (get a "require_login" (VBool true))
    (get a "anonymous_role" (vstr "viewer")) (get a "language" (vstr "auto")).
Definition tls_enabled (u : AdminUI) : bool := truthy (ui_tls_cert u) && truthy (ui_tls_key u).

Definition blank (v : pyval) : res bool := s ← strip_of v; Ok (is_empty s).

Record LdapSettings := mkLdap {
  ld_enabled : pyval;
  server_uri : pyval;
  start_tls : pyval;
  user_dn_template : pyval;
  bind_dn : pyval;
  bind_password : pyval;
  user_search_base : pyval;
  user_search_filter : pyval;
  group_attr : pyval;
  ld_admin_group : pyval;
  ld_operator_group : pyval;
  ld_viewer_group : pyval;
  ld_default_role : pyval;
}.
Definition LdapSettings_from_dict (v : pyval) : res LdapSettings :=
  d ← as_dict v;
  Ok (mkLdap (get d "enabled" (VBool false)) (get d "server_uri" (vstr "")) (get d "start_tls" (VBool false))
        (get d "user_dn_template" (vstr "")) (get d "bind_dn" (vstr "")) (get d "bind_password" (vstr ""))
        (get d "user_search_base" (vstr "")) (get d "user_search_filter" (vstr "(uid={username})"))
        (get d "group_attr" (vstr "memberOf")) (get d "admin_group" (vstr ""))
        (get d "operator_group" (vstr "")) (get d "viewer_group" (vstr "")) (get d "default_role" (vstr ""))).
Definition ldap_validate (l : LdapSettings) : res unit :=
  if negb (truthy (ld_enabled l)) then Ok tt
  else
    u ← blank (server_uri l);
    _ ← raise_if u ConfigError "LDAP is enabled but no server URI is set.";
    t ← blank (user_dn_template l);
    bound ← (if (t : bool) then
               b ← blank (bind_dn l);
               if (b : bool) then Ok false else (x ← blank (user_search_base l); Ok (negb x))
             else Ok true : res bool);
    _ ← raise_if (negb bound) ConfigError "LDAP needs either a user DN template or a bind DN + user search base.";
    raise_if (truthy (ld_default_role l) && negb (in_strs (ld_default_role l) ROLES)) ConfigError
             "LDAP default role must be one of {0} or blank.".

Record OidcSettings := mkOidc {
  oi_enabled : pyval;
  issuer : pyval;
  oi_client_id : pyval;
  client_secret : pyval;
  redirect_uri : pyval;
  scopes : pyval;
  username_claim : pyval;
  groups_claim : pyval;
  oi_admin_group : pyval;
  oi_operator_group : pyval;
  oi_viewer_group : pyval;
  oi_default_role : pyval;
}.
Definition OidcSettings_from_dict (v : pyval) : res OidcSettings :=
  d ← as_dict v;
  Ok (mkOidc (get d "enabled" (VBool false)) (get d "issuer" (vstr "")) (get d "client_id" (vstr ""))
        (get d "client_secret" (vstr "")) (get d "redirect_uri" (vstr ""))
        (get d "scopes" (vstr "openid email profile")) (get d "username_claim" (vstr "preferred_username"))
        (get d "groups_claim" (vstr "groups")) (get d "admin_group" (vstr ""))
        (get d "operator_group" (vstr "")) (get d "viewer_group" (vstr "")) (get d "default_role" (vstr ""))).
Definition oidc_validate (o : OidcSettings) : res unit :=
  if negb (truthy (oi_enabled o)) then Ok tt
  else
    i ← strip_of (issuer o);
    missing ← (if is_empty i then Ok true
               else c ← blank (oi_client_id o); if (c : bool) then Ok true else blank (client_secret o) : res bool);
    _ ← raise_if missing ConfigError "OIDC needs an issuer, client ID and client secret.";
    _ ← raise_if (negb (starts_with (lower i) (str "https://"))) ConfigError
                 "OIDC issuer must be an https:// URL.";
    raise_if (truthy (oi_default_role o) && negb (in_strs (oi_default_role o) ROLES)) ConfigError
             "OIDC default role must be one of {0} or blank.".

Record ClusterSettings := mkCluster {
  cl_enabled : pyval;
  cl_key : pyval;
  discovery_port : pyval;
  advertise_ip : pyval;
  peers : list pystr;
}.
Definition ClusterSettings_from_dict (v : pyval) : res ClusterSettings :=
  d ← as_dict v;
  l ← iter_of (or_else (get d "peers" (VList [])) (VList []));
  let ps := List.filter (λ s, negb (is_empty s)) ((λ p, strip (str_of_val repr p)) <$> l) in
  Ok (mkCluster (get d "enabled" (VBool false)) (get d "key" (vstr "")) (get d "discovery_port" (VInt 41750))
        (get d "advertise_ip" (vstr "")) ps).
Definition cluster_active (c : ClusterSettings) : res bool :=
  if truthy (cl_enabled c) then (b ← blank (cl_key c); Ok (negb b)) else Ok false.
Definition cluster_validate (c : ClusterSettings) : res unit :=
  if negb (truthy (cl_enabled c)) then Ok tt
  else
    k ← blank (cl_key c);
    _ ← raise_if k ConfigError "Cluster is enabled but no shared key is set.";
    port ← (match int_of_val (discovery_port c) with
            | Raise (Exn (TypeError | ValueError) _) =>
                raise ConfigError "Cluster discovery port must be a number."
            | r => r
            end);
    _ ← raise_if (negb ((1 <=? port) && (port <=? 65535))) ConfigError
                 "Cluster discovery port must be 1..65535.";
    ip ← strip_of (advertise_ip c);
    _ ← raise_if (negb (is_empty ip) && match ip_address ip with Some _ => false | None => true end)
                 ConfigError "Cluster advertise IP is not a valid address: {0}";
    _ ← mapr parse_cluster_peer (peers c);
    Ok tt.

Record NotificationSettings := mkNotify {
  nt_enabled : pyval;
  events : list pystr;
  repeat_s : pyval;
  webhook_url : pyval;
  webhook_format : pyval;
  telegram_chat_id : pyval;
  email_to : pyval;
  email_from : pyval;
  smtp_host : pyval;
  smtp_port : pyval;
  smtp_security : pyval;
  smtp_username : pyval;
  smtp_password : pyval;
}.
Definition NOTIFY_DEFAULT_EVENTS : list pystr := str <$> ["device_lost"; "device_back"; "start_failed"]%string.
Definition text_of (v : pyval) : option pystr := match v with VStr s => Some s | _ => None end.
Definition NotificationSettings_from_dict (v : pyval) : res NotificationSettings :=
  d ← as_dict v;
  l ← iter_of (or_else (get d "events" (VList (VStr <$> NOTIFY_DEFAULT_EVENTS))) (VList []));
  let evs := List.filter (λ s, existsb (str_eqb s) NOTIFY_EVENTS) (omap text_of l) in
  Ok (mkNotify (get d "enabled" (VBool false)) evs (get d "repeat_s" (VInt 300))
        (get d "webhook_url" (vstr "")) (get d "webhook_format" (vstr "json"))
        (get d "telegram_chat_id" (vstr "")) (get d "email_to" (vstr "")) (get d "email_from" (vstr ""))
        (get d "smtp_host" (vstr "")) (get d "smtp_port" (VInt 587)) (get d "smtp_security" (vstr "starttls"))
        (get d "smtp_username" (vstr "")) (get d "smtp_password" (vstr ""))).
Definition recipients (n : NotificationSettings) : res (list pystr) :=
  match email_to n with
  | VStr s => Ok (List.filter (λ a, negb (is_empty a)) (strip <$> split_on 44 (replace_all [59] [44] s)))
  | _ => raise AttributeError "object has no attribute 'replace'"
  end.
Definition notification_validate (n : NotificationSettings) : res unit :=
  if negb (truthy (nt_enabled n)) then Ok tt
  else
    u ← strip_of (webhook_url n);
    r ← recipients n;
    let has_r := match r with [] => false | _ => true end in
    _ ← raise_if (is_empty u && negb has_r) ConfigError
                 "Notifications need a webhook URL or e-mail recipients.";
    _ ← (if is_empty u then Ok tt else
           _ ← raise_if (negb (starts_with (lower u) (str "https://") || starts_with (lower u) (str "http://")))
                        ConfigError "The webhook URL must start with https:// (or http://).";
           _ ← raise_if (negb (in_strs (webhook_format n) WEBHOOK_FORMATS)) ConfigError
                        "Webhook format must be one of {0}.";
           raise_if (eq_str (webhook_format n) (str "telegram")
                     && is_empty (strip (str_of_val repr (telegram_chat_id n)))) ConfigError
                    "Telegram needs a chat ID.");
    _ ← (if negb has_r then Ok tt else
           h ← blank (smtp_host n);
           _ ← raise_if h ConfigError "E-mail notifications need an SMTP server.";
           _ ← raise_if (negb (_is_int (smtp_port n)) || negb (between 1 (smtp_port n) 65535)) ConfigError
                        "SMTP port must be between 1 and 65535.";
           _ ← raise_if (negb (in_strs (smtp_security n) SMTP_SECURITY)) ConfigError
                        "SMTP security must be one of {0}.";
           raise_if (existsb (λ a, negb (existsb (Z.eqb 64) a)) r) ConfigError
                    "Each e-mail recipient needs an @.");
    raise_if (negb (_is_int (repeat_s n)) || negb (between 0 (repeat_s n) 86400)) ConfigError
             "The repeat interval must be between 0 and 86400 seconds.".

(** ** Users *)
Record User := mkUser {
  username : pyval;
  password_hash : pyval;
  role : pyval;
  pwd_version : pyval;
  source : pyval;
}.
Definition SOURCES : list pystr := str <$> ["local"; "ldap"; "oidc"]%string.
Definition User_from_dict (v : pyval) : res User :=
  d ← as_dict v;
  let r := get d "role" (vstr "admin") in
  let s := get d "source" (vstr "local") in
  Ok (mkUser (get d "username" (vstr "")) (get d "password_hash" (vstr ""))
        (if in_strs r ROLES then r else vstr "viewer") (get d "pwd_version" (VInt 0))
        (if in_strs s SOURCES then s else vstr "local")).

(** ** The application configuration *)
Record AppConfig := mkApp {
  version : Z;
  admin_ui : AdminUI;
  secret_key : pyval;
  api_token_hash : pyval;
  api_token_role : pyval;
  session_timeout_s : Z;
  users : list User;
  ldap : LdapSettings;
  oidc : OidcSettings;
  cluster : ClusterSettings;
  notifications : NotificationSettings;
  instance_id : pyval;
  defaults : pyval;
  mappings : list MappingConfig;
}.

(** [MappingConfig.from_dict] on each document, a fresh id at hand for each. *)
Fixpoint mappings_from (fresh : nat → pystr) (i : nat) (l : list pyval) : res (list MappingConfig) :=
  match l with
  | [] => Ok []
  | v :: l' => m ← mapping_from_dict (fresh i) v; ms ← mappings_from fresh (S i) l'; Ok (m :: ms)
  end.

(** [secret], [instance] and [fresh] are what [secrets.token_hex] would generate. *)
Definition AppConfig_from_dict (secret instance : pystr) (fresh : nat → pystr) (v : pyval) : res AppConfig :=
  d ← as_dict v;
  let admin := or_else (get d "admin_ui" (VDict [])) (VDict []) in
  a ← (match admin with VDict a => Ok a | _ => raise AttributeError "object has no attribute 'items'" end);
  ul ← iter_of (get d "users" (VList []));
  us ← mapr User_from_dict ul;
  us ← (match us with
        | [] => if truthy (get d "password_hash" VNone) then
                  n ← int_of_val (get d "pwd_version" (VInt 0));
                  Ok [mkUser (vstr "admin") (get d "password_hash" VNone) (vstr "admin") (VInt n) (vstr "local")]
                else Ok []
        | _ => Ok us
        end);
  ver ← int_of_val (get d "version" (VInt 1));
  let tr := get d "api_token_role" (vstr "admin") in
  timeout ← _session_timeout (get d "session_timeout_s" VNone);
  ld ← LdapSettings_from_dict (get d "ldap" (VDict []));
  oi ← OidcSettings_from_dict (get d "oidc" (VDict []));
  cl ← ClusterSettings_from_dict (get d "cluster" (VDict []));
  no ← NotificationSettings_from_dict (get d "notifications" (VDict []));
  ml ← iter_of (get d "mappings" (VList []));
  ms ← mappings_from fresh 0 ml;
  Ok (mkApp ver (AdminUI_from_dict a) (or_else (get d "secret_key" VNone) (VStr secret))
        (get d "api_token_hash" (vstr "")) (if in_strs tr ROLES then tr else vstr "admin") timeout us
        ld oi cl no (or_else (get d "instance_id" VNone) (VStr instance))
        (or_else (get d "defaults" (VDict [])) (VDict [])) ms).
End from_dict.

Definition password_set (c : AppConfig) : bool := match users c with [] => false | _ => true end.
Definition get_user (n : pyval) (us : list User) : option User :=
  List.find (λ u, py_eq (username u) n) us.
Definition admin_count (us : list User) : nat :=
  length (List.filter (λ u, eq_str (role u) (str "admin")) us).
Definition get_mapping (i : pyval) (ms : list MappingConfig) : option MappingConfig :=
  List.find (λ m, py_eq (id m) i) ms.

(** [v + 1] *)
Definition bump (v : pyval) : res pyval :=
  match v with
  | VInt _ | VBool _ => Ok (VInt (int_of v + 1))
  | VFloat f => Ok (VFloat (SFadd 53 1024 f f1))
  | _ => raise TypeError "unsupported operand type(s) for +="
  end.
(** Update the first user with the name, in place. *)
Fixpoint update_user (n : pyval) (u : User) (us : list User) : list User :=
  match us with
  | [] => []
  | x :: us' => if py_eq (username x) n then u :: us' else x :: update_user n u us'
  end.
Definition upsert_external_user (n r src : pyval) (us : list User) : res (User * list User) :=
  match get_user n us with
  | None => let u := mkUser n (vstr "") r (VInt 1) src in Ok (u, us ++ [u])
  | Some u =>
      if negb (py_eq (role u) r) || negb (py_eq (source u) src) then
        v ← bump (pwd_version u);
        let u' := mkUser (username u) (password_hash u) r v src in
        Ok (u', update_user n u' us)
      else Ok (u, us)
  end.

Section app_validate.
Context (repr : pyval → pystr) (isfile : pystr → bool).

Definition admin_validate (u : AdminUI) : res unit :=
  let cert := ui_tls_cert u in
  let key := ui_tls_key u in
  _ ← raise_if (xorb (truthy cert) (truthy key)) ConfigError "Set both TLS certificate and key, or neither.";
  _ ← raise_if (existsb (file_missing isfile) (List.filter truthy [cert; key])) ConfigError
               "TLS file not found or not readable: {0}";
  _ ← raise_if (truthy (ui_bind_ip u) && match address_of (ui_bind_ip u) with Some _ => false | None => true end)
               ConfigError "Invalid admin UI bind IP: {0}";
  _ ← raise_if (negb (in_strs (language u) UI_LANGUAGES)) ConfigError
               "The default language must be one of {0}.";
  raise_if (negb (in_strs (anonymous_role u) ROLES)) ConfigError
           "Role for visitors without login must be one of {0}.".

Definition app_validate (c : AppConfig) : res unit :=
  _ ← admin_validate (admin_ui c);
  _ ← raise_if (negb ((SESSION_TIMEOUT_MIN_S <=? session_timeout_s c)
                      && (session_timeout_s c <=? SESSION_TIMEOUT_MAX_S))) ConfigError
               "Session lifetime must be between {0} minutes and {1} days.";
  _ ← ldap_validate (ldap c);
  _ ← oidc_validate (oidc c);
  _ ← cluster_validate (cluster c);
  _ ← notification_validate repr (notifications c);
  validate_mappings isfile (mappings c) [] [].
End app_validate.

Section reload.
Context (word : Z → bool) (repr : pyval → pystr).

(** ** Loading what was saved *)
Lemma serial_reload s : SerialSettings_from_dict (serial_to_dict s) = Ok s.
Proof. by destruct s as [? ? ? ? ? ? ? ? ? ? []]. Qed.
Lemma network_reload n : NetworkSettings_from_dict (network_to_dict n) = Ok n.
Proof. by destruct n. Qed.
Lemma mqtt_reload m : mqtt_from_dict (mqtt_to_dict m) = Ok m.
Proof. by destruct m. Qed.
Lemma points_reload l : mapr point_from_dict (point_to_dict <$> l) = Ok l.
Proof. induction l as [|[] l IH]; [done|]. cbn -[point_from_dict]. cbn. by rewrite IH. Qed.
Lemma poll_reload p : ftruthy (interval_s p) = true → poll_from_dict (poll_to_dict p) = Ok p.
Proof.
  destruct p as [i ps]. intros Hi. unfold poll_from_dict, poll_to_dict.
  change (as_dict _) with (Ok [key "interval_s" (VFloat i); key "points" (VList (point_to_dict <$> ps))]).
  cbn [mbind res_bind interval_s poll_points]. cbn in Hi.
  assert (or_else (get [key "interval_s" (VFloat i); key "points" (VList (point_to_dict <$> ps))]
            "interval_s" (VFloat f5)) (VFloat f5) = VFloat i) as -> by by destruct i.
  cbn [float_of_val mbind res_bind].
  change (iter_of _) with (Ok (point_to_dict <$> ps)). cbn [mbind res_bind]. by rewrite points_reload.
Qed.

(** Options whose timer is in range and whose trace name is a stored one. *)
Lemma options_reload o :
  _legacy_seconds (idle_timeout_s o) = Ok (idle_timeout_s o) →
  trace_file_name word (trace_both o) = trace_both o →
  options_from_dict word repr (options_to_dict o) = Ok o.
Proof.
  intros Hi Ht. destruct o as [b os cs co idle mx tb hx ts mb kp pm nt rt]. cbn [idle_timeout_s trace_both] in Hi, Ht.
  unfold options_from_dict. cbn [options_to_dict as_dict mbind res_bind].
  cbn [banner openstr closestr closeon idle_timeout_s max_connection_time_s trace_both trace_hexdump
       trace_timestamp trace_max_mb trace_keep rfc2217_poll_modem_interval_s rfc2217_net_timeout_s
       modbus_response_timeout_s].
  change (get _ "idle_timeout_s" _) with idle. rewrite Hi. cbn [mbind res_bind].
  change (get _ "trace_both" _) with (VStr tb).
  replace (str_of_val repr (or_else (VStr tb) (vstr ""))) with tb by by destruct tb.
  by rewrite Ht.
Qed.

(** What [options_from_dict] builds satisfies both conditions. *)
Lemma legacy_idempotent v v' : _legacy_seconds v = Ok v' → _legacy_seconds v' = Ok v'.
Proof.
  intros H. pose proof (legacy_seconds_spec v) as Hv. rewrite H in Hv. destruct Hv as (Hn & Hb & _).
  pose proof (legacy_seconds_spec v') as Hv'. destruct (_legacy_seconds v') as [v''|e].
  - destruct Hv' as (_ & _ & E). by rewrite E.
  - destruct Hv' as (_ & z & Hz & [->|(s & f & -> & _)]); [|done]. cbn in Hb. zbool.
    rewrite isfinite_small in Hz by lia. done.
Qed.

Lemma options_normal v o :
  (∀ c, is_space c = true → name_char word c = false) → options_from_dict word repr v = Ok o →
  _legacy_seconds (idle_timeout_s o) = Ok (idle_timeout_s o)
  ∧ trace_file_name word (trace_both o) = trace_both o.
Proof.
  intros Hw H. unfold options_from_dict in H. apply res_bind_Ok in H as (d & _ & H).
  apply res_bind_Ok in H as (idle & Hi & H). injection H as <-. cbn [idle_timeout_s trace_both].
  split; [by eapply legacy_idempotent|].
  destruct (trace_name_safe word (str_of_val repr (or_else (get d "trace_both" (vstr "")) (vstr ""))))
    as [[E _]|[Hs _]]; [by rewrite E|by apply trace_name_stable].
Qed.

Lemma mapping_reload fresh fresh' v m :
  (∀ c, is_space c = true → name_char word c = false) → fresh ≠ [] →
  mapping_from_dict word repr fresh v = Ok m → ftruthy (interval_s (modbus_poll m)) = true →
  mapping_from_dict word repr fresh' (mapping_to_dict m) = Ok m.
Proof.
  intros Hw Hf H Hi. unfold mapping_from_dict in H.
  apply res_bind_Ok in H as (d & _ & H). apply res_bind_Ok in H as (s & _ & H).
  apply res_bind_Ok in H as (sb & _ & H). apply res_bind_Ok in H as (n & _ & H).
  apply res_bind_Ok in H as (o & Ho & H). apply res_bind_Ok in H as (mq & _ & H).
  apply res_bind_Ok in H as (p & _ & H).
  destruct (options_normal _ _ Hw Ho) as [Hidle Htrace].
  assert (∃ i, id m = i ∧ or_else i (VStr fresh') = i) as (i & Ei & Hid).
  { injection H as <-. eexists. split; [done|]. cbn [id]. unfold or_else.
    destruct (truthy (get d "id" VNone)) eqn:E; [by rewrite E|]. by destruct fresh. }
  assert (serial m = s ∧ serial_b m = sb ∧ network m = n ∧ options m = o ∧ mqtt m = mq ∧ modbus_poll m = p)
    as (E1 & E2 & E3 & E4 & E5 & E6) by (injection H as <-; by split_and!).
  clear H Ho. destruct m as [mi mn me mk s' sb' n' o' mq' p']. cbn in Hi, Ei, E1, E2, E3, E4, E5, E6. subst.
  unfold mapping_from_dict. cbn [mapping_to_dict as_dict mbind res_bind].
  cbn [id name enabled kind serial serial_b network options mqtt modbus_poll].
  change (get _ "serial" _) with (serial_to_dict s). rewrite serial_reload. cbn [mbind res_bind].
  change (get _ "serial_b" _) with (serial_to_dict sb). rewrite serial_reload. cbn [mbind res_bind].
  change (get _ "network" _) with (network_to_dict n). rewrite network_reload. cbn [mbind res_bind].
  change (get _ "options" _) with (options_to_dict o). rewrite options_reload by done. cbn [mbind res_bind].
  change (get _ "mqtt" _) with (mqtt_to_dict mq). rewrite mqtt_reload. cbn [mbind res_bind].
  change (get _ "modbus_poll" _) with (poll_to_dict p). rewrite poll_reload by done. cbn [mbind res_bind].
  change (get _ "id" _) with i. by rewrite Hid.
Qed.

Lemma mappings_reload fresh fresh' i j vs ms :
  (∀ c, is_space c = true → name_char word c = false) → (∀ k, fresh k ≠ []) →
  mappings_from word repr fresh i vs = Ok ms →
  Forall (λ m, ftruthy (interval_s (modbus_poll m)) = true) ms →
  mappings_from word repr fresh' j (mapping_to_dict <$> ms) = Ok ms.
Proof.
  intros Hw Hf. revert i j ms. induction vs as [|v vs IH]; intros i j ms H Hi; cbn [mappings_from] in H.
  { by injection H as <-. }
  apply res_bind_Ok in H as (m & Hm & H). apply res_bind_Ok in H as (ms' & Hms & H). injection H as <-.
  apply Forall_cons in Hi as [Hi His]. cbn [fmap list_fmap mappings_from].
  rewrite (mapping_reload (fresh i) (fresh' j) v m) by done. cbn [mbind res_bind].
  by rewrite (IH (S i) (S j) ms').
Qed.

(** loading what was saved: mappings built from any documents, written out and loaded again (with
    whatever fresh ids are at hand) are the same mappings — legacy timers and trace names included,
    which are normalised only once — and when their values are ones JSON carries, the text on disk
    reads back as the documents written, in every style of the printer. *)
Theorem saved_mappings_reload fresh fresh' vs ms :
  (∀ c, is_space c = true → name_char word c = false) → (∀ k, fresh k ≠ []) →
  mappings_from word repr fresh 0 vs = Ok ms →
  Forall (λ m, ftruthy (interval_s (modbus_poll m)) = true) ms →
  mappings_from word repr fresh' 0 (mapping_to_dict <$> ms) = Ok ms
  ∧ ∀ st, plain (VList (mapping_to_dict <$> ms)) = true →
      json_loads (dumps st 0 (VList (mapping_to_dict <$> ms))) = Some (VList (mapping_to_dict <$> ms)).
Proof.
  intros Hw Hf H Hi. split; [by eapply mappings_reload|]. intros st. apply json_roundtrip.
Qed.
End reload.

Definition demo_docs : list pyval :=
  [VDict [key "name" (vstr "plc"); key "serial" (VDict [key "port" (vstr "COM3")]);
          key "options" (VDict [key "idle_timeout_s" (vstr "1e9"); key "trace_both" (vstr "/var/log/plc.log")])]].
Definition demo_fresh (k : nat) : pystr := str "m" ++ str_of_Z (Z.of_nat k).
Definition demo_loaded : list MappingConfig :=
  match mappings_from ascii_word (λ _, []) demo_fresh 0 demo_docs with Ok ms => ms | Raise _ => [] end.
Lemma saved_mappings_reload_witness :
  mappings_from ascii_word (λ _, []) demo_fresh 0 (mapping_to_dict <$> demo_loaded) = Ok demo_loaded
  ∧ ∀ st, plain (VList (mapping_to_dict <$> demo_loaded)) = true →
      json_loads (dumps st 0 (VList (mapping_to_dict <$> demo_loaded))) = Some (VList (mapping_to_dict <$> demo_loaded)).
Proof.
  apply (saved_mappings_reload ascii_word (λ _, []) demo_fresh demo_fresh demo_docs).
  - apply ascii_word_no_space.
  - intros k. by unfold demo_fresh.
  - vm_compute. reflexivity.
  - vm_compute. repeat constructor.
Defined.
Example demo_loaded_plain : plain (VList (mapping_to_dict <$> demo_loaded)) = true.
Proof. vm_compute. reflexivity. Qed.
Example demo_loaded_normal :
  (λ m, (idle_timeout_s (options m), trace_both (options m), id m)) <$> demo_loaded
  = [(VInt MAX_TIMER_S, str "plc.log", vstr "m0")].
Proof. vm_compute. reflexivity. Qed.

(** Two mappings that pick their device by the same [match], the second with a port it had before, and two addresses that are one, written in two ways. *)
Definition lax_doc (n dev vid ip : string) : pyval :=
  VDict [(str "id", vstr n); (str "name", vstr n);
         (str "serial", VDict ((str "port", vstr dev) :: match vid with EmptyString => [] | _ => [(str "match", VDict [(str "vid", vstr vid)])] end));
         (str "network", VDict [(str "bind_ip", vstr ip); (str "port", VInt 4001)])].
Definition lax_mappings : res (list MappingConfig) :=
  mappings_from (λ _, false) (λ _, []) (λ _, str "f") 0
    [lax_doc "a" "COM3" "0403" "10.0.0.1"; lax_doc "b" "COM3" "0403" "fd00::1"; lax_doc "c" "COM4" "" "fd00:0::1"].
Example what_validation_lets_through :
  match lax_mappings with
  | Ok ms => validate_mappings (λ _, true) ms [] [] = Ok tt ∧ (devices_of <$> ms) = [[]; []; [vstr "COM4"]]
             ∧ ip_address (str "fd00::1") = ip_address (str "fd00:0::1")
  | Raise _ => False
  end.
Proof. vm_compute. done. Qed.
