(* ===== verification/Auth.v ===== *)
(** * Sessions, anonymous access, API tokens and the login rate limiter (app/web/auth.py)

    HMAC-SHA256, SHA-256 and scrypt are parameters; the machine's host name is a parameter; times
    are the integers the code compares. Roles and client addresses are those of
    app/web/routes/common.py. *)
From Stdlib Require Import Sorting.Sorted.
From S2P Require Import Prelude PyFloat PyStr PyVal IpAddr PyNum Json JsonOut Base64 Config AppConfig.
#[local] Open Scope Z_scope.

(** [hmac.compare_digest] of two strings. *)
Definition compare_digest (a b : pystr) : res bool :=
  if is_ascii a && is_ascii b then Ok (str_eqb a b)
  else raise TypeError "comparing strings with non-ASCII characters is not supported".
Definition hex_text (b : bytes) : pystr := b ≫= λ x, [hex_char (x / 16); hex_char (x mod 16)].

(** ** Signed tokens *)
Section tokens.
Context (hmac_sha256 : bytes → bytes → bytes) (repr : pyval → pystr).

Definition _sign (secret : pyval) (payload : pystr) : res pystr :=
  match secret with
  | VStr s =>
      k ← utf8_encode s;
      if negb (is_ascii payload) then raise ValueError "'ascii' codec can't encode character"
      else Ok (_b64e (hmac_sha256 k payload))
  | _ => raise AttributeError "object has no attribute 'encode'"
  end.
Definition token_of (secret : pyval) (data : pyval) : res pystr :=
  text ← json_dumps default_style data;
  b ← utf8_encode text;
  let payload := _b64e b in
  sig ← _sign secret payload;
  Ok (payload ++ 46 :: sig).
(** The signed dict of a token, once its signature and its time of expiry are checked. *)
Definition payload_of (secret : pyval) (token : option pystr) (now : Z) : res (option (list (pystr * pyval))) :=
  match token with
  | None => Ok None
  | Some t =>
      match split_last 46 t with
      | None => Ok None
      | Some (payload, sig) =>
          expected ← _sign secret payload;
          same ← compare_digest sig expected;
          if negb same then Ok None
          else
            match _b64d payload with
            | Raise (Exn ValueError _) => Ok None
            | Raise e => Raise e
            | Ok b =>
                match json_loads_bytes b with
                | None => Ok None
                | Some (VDict data) =>
                    e ← int_of_val (get data "exp" (VInt 0));
                    if e <=? now then Ok None else Ok (Some data)
                | Some _ => raise AttributeError "object has no attribute 'get'"
                end
            end
      end
  end.

Definition issue_session (secret : pyval) (ttl : Z) (user version : pyval) (now : Z) : res pystr :=
  v ← int_of_val version;
  token_of secret (VDict [key "exp" (VInt (now + ttl)); key "u" user; key "v" (VInt v)]).
Definition decode_session (secret : pyval) (token : option pystr) (now : Z) : res (option (pystr * Z)) :=
  p ← payload_of secret token now;
  match p with
  | None => Ok None
  | Some data =>
      v ← int_of_val (get data "v" (VInt 0));
      Ok (Some (str_of_val repr (get data "u" (vstr "")), v))
  end.
Definition sign_payload (secret : pyval) (data : list (pystr * pyval)) (ttl now : Z) : res pystr :=
  token_of secret (VDict (dict_set (str "exp") (VInt (now + ttl)) data)).
Definition read_payload (secret : pyval) (token : option pystr) (now : Z) := payload_of secret token now.

(** [user.pwd_version != data["v"]] *)
Definition session_user (c : AppConfig) (token : option pystr) (now : Z) : res (option User) :=
  d ← decode_session (secret_key c) token now;
  match d with
  | None => Ok None
  | Some (u, v) =>
      match get_user (VStr u) (users c) with
      | Some x => if py_eq (pwd_version x) (VInt v) then Ok (Some x) else Ok None
      | None => Ok None
      end
  end.

(** ** Anonymous access *)
Context (hostname : pystr).

Definition ANONYMOUS_USERNAME : pystr := str "(anonymous)".
Definition _own_host_names : list pystr :=
  let full := lower (strip hostname) in
  let short := match split_first 46 full with Some (a, _) => a | None => full end in
  List.filter (λ n, negb (is_empty n))
    [full; short; if is_empty short then [] else short ++ str ".local"].
Definition _host_only (host_header : option pystr) : pystr :=
  let h := lower (strip (default [] host_header)) in
  match h with
  | 91 :: t => match split_first 93 t with Some (a, _) => a | None => [] end
  | _ =>
      match split_last 58 h with
      | Some (a, b) => if existsb (Z.eqb 58) a then h else a
      | None => h
      end
  end.
Definition is_own_host (host_header : option pystr) : bool :=
  let name := _host_only host_header in
  negb (is_empty name) &&
  match ip_address name with
  | Some _ => true
  | None => str_eqb name (str "localhost") || existsb (str_eqb name) _own_host_names
  end.

(** [(?:^|[;,\s])host=\"?([^\";,\s]+)], ignoring case: the host named by a match at this point. *)
Definition fold_char (c : Z) : Z := if c =? 383 then 115 else lower_char c.
Definition host_char (c : Z) : bool := negb ((c =? 34) || (c =? 59) || (c =? 44) || is_space c).
Fixpoint span_by (p : Z → bool) (s : pystr) : pystr * pystr :=
  match s with
  | c :: r => if p c then let '(a, b) := span_by p r in (c :: a, b) else ([], s)
  | [] => ([], [])
  end.
Definition host_here (s : pystr) : option (pystr * pystr) :=
  if str_eqb (fold_char <$> take 5 s) (str "host=") then
    let r := match drop 5 s with 34 :: r => r | r => r end in
    match span_by host_char r with
    | ([], _) => None
    | p => Some p
    end
  else None.
Fixpoint find_hosts (fuel : nat) (start : bool) (s : pystr) : list pystr :=
  match fuel with
  | O => []
  | S f =>
      match (if start then host_here s else None) with
      | Some (h, r) => h :: find_hosts f false r
      | None =>
          match s with
          | [] => []
          | c :: s' =>
              match (if (c =? 59) || (c =? 44) || is_space c then host_here s' else None) with
              | Some (h, r) => h :: find_hosts f false r
              | None => find_hosts f false s'
              end
          end
      end
  end.
Definition forwarded_hosts (s : pystr) : list pystr := find_hosts (S (length s)) true s.

(** A header that is present and not empty. *)
Definition header (headers : string → option pystr) (n : string) : option pystr :=
  match headers n with Some [] | None => None | Some v => Some v end.
Arguments header headers n%_string.
Definition _claimed_hosts (headers : string → option pystr) : list pystr :=
  default [] (headers "host"%string)
  :: match header headers "x-forwarded-host" with Some x => strip <$> split_on 44 x | None => [] end
  ++ match header headers "forwarded" with Some f => forwarded_hosts f | None => [] end.
Definition anonymous_user (c : AppConfig) (headers : string → option pystr) : option User :=
  if truthy (require_login (admin_ui c)) || negb (password_set c) then None
  else if negb (forallb (λ h, is_own_host (Some h)) (_claimed_hosts headers)) then None
  else Some (mkUser (VStr ANONYMOUS_USERNAME) (vstr "") (anonymous_role (admin_ui c)) (VInt 0)
                    (vstr "anonymous")).
Definition request_user (c : AppConfig) (token : option pystr) (headers : string → option pystr) (now : Z)
    : res (option User) :=
  u ← session_user c token now;
  Ok (match u with Some x => Some x | None => anonymous_user c headers end).
End tokens.

(** ** Passwords and API tokens *)
Section secrets.
Context (sha256 : bytes → bytes) (scrypt : bytes → bytes → Z → res bytes).

Definition _DKLEN : Z := 32.
(** [salt] is what [secrets.token_bytes(16)] returned. *)
Definition hash_password (salt : bytes) (password : pystr) : res pystr :=
  p ← utf8_encode password;
  dk ← scrypt p salt _DKLEN;
  Ok (str "scrypt$" ++ hex_text salt ++ str "$" ++ hex_text dk).
(** [bytes.fromhex]: pairs of digits, ASCII white space between pairs skipped. *)
Definition hex_space (c : Z) : bool := in_range 9 13 c || (c =? 32).
Fixpoint fromhex (s : pystr) : option bytes :=
  match s with
  | [] => Some []
  | c :: r =>
      if hex_space c then fromhex r
      else match r with
           | d :: r' => x ← hex_digit c; y ← hex_digit d; cons (x * 16 + y) <$> fromhex r'
           | [] => None
           end
  end.
Definition value_or_false (m : res bool) : res bool :=
  match m with Raise (Exn (ValueError | AttributeError) _) => Ok false | _ => m end.
Definition verify_password (password : pystr) (stored : pyval) : res bool :=
  value_or_false
    (match stored with
     | VStr s =>
         match split_first 36 s with
         | None => raise ValueError "not enough values to unpack"
         | Some (scheme, rest) =>
             match split_first 36 rest with
             | None => raise ValueError "not enough values to unpack"
             | Some (salt_hex, hash_hex) =>
                 if negb (str_eqb scheme (str "scrypt")) then Ok false
                 else match fromhex salt_hex, fromhex hash_hex with
                      | Some salt, Some expected =>
                          p ← utf8_encode password;
                          dk ← scrypt p salt (zlen expected);
                          Ok (str_eqb dk expected)
                      | _, _ => raise ValueError "non-hexadecimal number found in fromhex() arg"
                      end
             end
         end
     | _ => raise AttributeError "object has no attribute 'split'"
     end).

Definition hash_token (token : pystr) : res pystr := b ← utf8_encode token; Ok (hex_text (sha256 b)).
Definition verify_token (token stored_hash : pystr) : res bool :=
  if is_empty token || is_empty stored_hash then Ok false
  else h ← hash_token token; compare_digest h stored_hash.
Definition bearer_token (authorization : pystr) : pystr :=
  if str_eqb (lower (take 7 authorization)) (str "bearer ") then strip (drop 7 authorization) else [].
Definition csrf_token_matches (cookie token : option pystr) : res bool :=
  match cookie, token with
  | Some ((_ :: _) as c), Some ((_ :: _) as t) => compare_digest t c
  | _, _ => Ok false
  end.
End secrets.

(** ** Roles *)
Definition ROLE_RANK (r : pyval) : Z :=
  match r with
  | VStr s => default 0 (assoc s [(str "viewer", 1); (str "operator", 2); (str "admin", 3)])
  | _ => 0
  end.
(** [None] lets the request through, otherwise it is answered 403. *)
Definition require_role (u : option User) (r : string) : option Z :=
  match u with
  | Some x => if ROLE_RANK (role x) <? ROLE_RANK (VStr (str r)) then Some 403 else None
  | None => Some 403
  end.
Arguments require_role u r%_string.
Definition can_edit (u : option User) : bool :=
  match u with Some x => ROLE_RANK (vstr "operator") <=? ROLE_RANK (role x) | None => false end.
Definition is_anonymous (u : option User) : bool :=
  match u with Some x => eq_str (source x) (str "anonymous") | None => false end.
Definition require_peer_access (u : option User) : option Z :=
  if is_anonymous u then Some 403 else require_role u "operator".
(** IPv4-mapped IPv6 addresses are one rate-limiter key with their IPv4 form. *)
Definition client_ip (host : option pystr) : pystr :=
  match host with
  | None => str "?"
  | Some ip => if starts_with ip (str "::ffff:") && existsb (Z.eqb 46) ip then drop 7 ip else ip
  end.

(** ** Login rate limiter *)
Record LoginRateLimiter := mkLimiter {
  max_attempts : Z;
  window_s : Z;
  _fails : gmap pystr (list Z);
}.
Definition set_fails (ip : pystr) (q : list Z) (l : LoginRateLimiter) : LoginRateLimiter :=
  mkLimiter (max_attempts l) (window_s l) (<[ip := q]> (_fails l)).
Fixpoint expire (window now : Z) (q : list Z) : list Z :=
  match q with
  | t :: q' => if window <? now - t then expire window now q' else q
  | [] => []
  end.
Definition blocked (ip : pystr) (now : Z) (l : LoginRateLimiter) : bool * LoginRateLimiter :=
  let q := expire (window_s l) now (default [] (_fails l !! ip)) in
  (max_attempts l <=? zlen q, set_fails ip q l).
Definition record_failure (ip : pystr) (now : Z) (l : LoginRateLimiter) : LoginRateLimiter :=
  set_fails ip (default [] (_fails l !! ip) ++ [now]) l.
Definition reset (ip : pystr) (l : LoginRateLimiter) : LoginRateLimiter :=
  mkLimiter (max_attempts l) (window_s l) (delete ip (_fails l)).

(** ** Issued tokens are printable and read back *)
Definition printable (c : Z) : Prop := 32 <= c < 127.
Lemma hex_char_printable d : 0 <= d < 16 → printable (hex_char d).
Proof. unfold hex_char, printable. intros. destruct (Z.ltb_spec d 10); lia. Qed.
Lemma u_escape_printable v : Forall printable (u_escape v).
Proof.
  unfold u_escape, hex4_text.
  repeat (constructor; [first [unfold printable; lia|apply hex_char_printable, Z.mod_pos_bound; lia]|]). done.
Qed.
Lemma escape_printable c : is_cp c → Forall printable (escape true c).
Proof.
  intros [Hc _]. unfold escape, short_escape.
  repeat match goal with |- context [c =? ?k] => destruct (Z.eqb_spec c k) as [->|]; [by repeat constructor|] end.
  destruct ((c <? 32) || _) eqn:E; [apply u_escape_printable|].
  destruct (true && (65536 <=? c)) eqn:E2; [apply Forall_app; split; apply u_escape_printable|].
  apply Forall_singleton. unfold printable. cbn [andb] in *. zbool. destruct H0; zbool; lia.
Qed.
Lemma quoted_printable st s : ensure_ascii st = true → Forall is_cp s → Forall printable (quoted st s).
Proof.
  intros E Hs. unfold quoted. rewrite E. constructor; [unfold printable; lia|]. apply Forall_app. split.
  - apply Forall_bind. eapply Forall_impl; [exact Hs|]. apply escape_printable.
  - by repeat constructor.
Qed.
Lemma str_of_Z_printable z : Forall printable (str_of_Z z).
Proof.
  assert (∀ p, Forall printable (str (pretty (p : positive)))) as Hp.
  { intros p. destruct (str_pretty_pos p) as (ds & -> & H & _). unfold digit_chars. apply Forall_fmap.
    eapply Forall_impl; [exact H|]. unfold is_dec, printable. cbn. lia. }
  destruct z as [|p|p]; [by repeat constructor|apply Hp|].
  unfold str_of_Z. change (pretty (Z.neg p)) with ("-" +:+ pretty p). rewrite str_app.
  apply Forall_app. split; [by repeat constructor|apply Hp].
Qed.

(** A document of printable parts prints as printable ASCII, and reads back. *)
Ltac json_printable :=
  cbn [dumps List.map key]; unfold bracketed, join; cbn [mbind list_bind]; unfold newline, item_sep, key_sep;
  cbn [indent default_style compact item_space key_space];
  repeat first [rewrite Forall_app; split
               | apply str_of_Z_printable
               | apply quoted_printable; [done|first [done|apply (bool_decide_unpack _); vm_compute; exact I]]
               | constructor; [unfold printable; lia|] | constructor].
Ltac json_plain :=
  cbn [plain key forallb fmap list_fmap fst];
  repeat (rewrite bool_decide_true by first [done|apply (bool_decide_unpack _); vm_compute; exact I]); done.

(** The payload of a session token. *)
Definition session_data (e : Z) (u : pystr) (v : Z) : pyval :=
  VDict [key "exp" (VInt e); key "u" (VStr u); key "v" (VInt v)].
Lemma session_text_printable e u v :
  Forall is_cp u → Forall printable (dumps default_style 0 (session_data e u v)).
Proof. intros Hu. unfold session_data. json_printable. Qed.
Lemma session_data_plain e u v : Forall is_cp u → plain (session_data e u v) = true.
Proof. intros Hu. unfold session_data. json_plain. Qed.

Lemma printable_utf8 s : Forall printable s → utf8_encode s = Ok s.
Proof.
  intros Hs. unfold utf8_encode.
  assert (existsb is_surrogate s = false ∧ s ≫= utf8_char = s) as [-> ->]; [|done].
  induction Hs as [|c s Hc _ [IH1 IH2]]; [done|]. unfold printable in Hc. split.
  - cbn. rewrite IH1. unfold is_surrogate. by rewrite in_range_false by lia.
  - rewrite bind_cons, IH2. unfold utf8_char. by rewrite (proj2 (Z.ltb_lt c 128)) by lia.
Qed.
Lemma printable_bytes s : Forall printable s → is_bytes s.
Proof. intros H. eapply Forall_impl; [exact H|]. unfold printable, is_byte. lia. Qed.
Lemma split_last_app c s t : Forall (λ x, x ≠ c) t → split_last c (s ++ c :: t) = Some (s, t).
Proof.
  intros Ht. unfold split_last. rewrite rev_app_distr. cbn [rev]. rewrite <- (assoc_L (++)). cbn [app].
  assert (∀ a b : pystr, Forall (λ x, x ≠ c) a → split_first c (a ++ c :: b) = Some (a, b)) as Hf.
  { intros a b. induction 1 as [|x a Hx _ IH]; cbn; [by rewrite Z.eqb_refl|].
    by rewrite (proj2 (Z.eqb_neq x c) Hx), IH. }
  rewrite Hf by by apply Forall_rev. cbn. by rewrite !rev_involutive.
Qed.

Section sessions.
Context (hmac_sha256 : bytes → bytes → bytes) (repr : pyval → pystr).
Context (hmac_bytes : ∀ k m, is_bytes (hmac_sha256 k m)).

Lemma compare_digest_refl s : is_ascii s = true → compare_digest s s = Ok true.
Proof. intros H. unfold compare_digest. rewrite H. cbn. by rewrite str_eqb_refl. Qed.

Lemma dict_text_long (d : list (pystr * pyval)) :
  d ≠ [] → ∃ c x y r, dumps default_style 0 (VDict d) = c :: x :: y :: r.
Proof.
  destruct d as [|[k v] d]; [done|]. intros _. cbn [dumps List.map]. unfold bracketed, quoted, join.
  cbn [newline default_style indent app ensure_ascii].
  destruct (k ≫= escape true); cbn [app]; by eexists _, _, _, _.
Qed.

(** The token of a printable, plain payload is accepted until it expires, and gives the payload back. *)
Lemma token_accepted secret s data d now :
  utf8_encode secret = Ok s → data = VDict d → d ≠ [] → plain data = true → serializable data = true →
  Forall printable (dumps default_style 0 data) →
  ∃ t, token_of hmac_sha256 (VStr secret) data = Ok t ∧
       payload_of hmac_sha256 (VStr secret) (Some t) now
       = (e ← int_of_val (get d "exp" (VInt 0)); Ok (if e <=? now then None else Some d)).
Proof.
  intros Hs Ed Hd0 Hp Hser Ht. unfold token_of, json_dumps. rewrite Hser. cbn [mbind res_bind].
  set (text := dumps default_style 0 data) in *.
  rewrite (printable_utf8 _ Ht). cbn [mbind res_bind].
  destruct (b64_roundtrip text (printable_bytes _ Ht)) as (Hd & Ha & _).
  unfold _sign at 1. rewrite Hs. cbn [mbind res_bind]. rewrite Ha. cbn [negb].
  destruct (b64_roundtrip (hmac_sha256 s (_b64e text)) (hmac_bytes _ _)) as (_ & Hsa & Hsd).
  eexists. split; [done|]. unfold payload_of. rewrite split_last_app by done.
  unfold _sign. rewrite Hs. cbn [mbind res_bind]. rewrite Ha. cbn [negb mbind res_bind].
  rewrite compare_digest_refl by done. cbn [mbind res_bind negb]. rewrite Hd.
  assert (json_loads_bytes text = Some data) as ->.
  { unfold json_loads_bytes. replace (decode_detected text) with (Some text).
    - cbn [mbind option_bind]. by apply json_roundtrip.
    - destruct (dict_text_long d Hd0) as (c & x & y & r & Er). unfold text. rewrite Ed, Er.
      symmetry. apply decode_detected_ascii. rewrite <- Er, <- Ed.
      eapply Forall_impl; [exact Ht|]. unfold printable. lia. }
  rewrite Ed. destruct (int_of_val _) as [e|]; cbn [mbind res_bind]; [by destruct (e <=? now)|done].
Qed.

Lemma session_token secret s e u v ttl now :
  utf8_encode secret = Ok s → Forall is_cp u → e = now + ttl →
  ∃ t, issue_session hmac_sha256 (VStr secret) ttl (VStr u) (VInt v) now = Ok t ∧
       ∀ now', decode_session hmac_sha256 repr (VStr secret) (Some t) now'
               = Ok (if now' <? e then Some (u, v) else None).
Proof.
  intros Hs Hu ->. unfold issue_session. cbn [int_of_val mbind res_bind].
  change (VDict _) with (session_data (now + ttl) u v).
  pose proof (session_text_printable (now + ttl) u v Hu) as Ht.
  pose proof (session_data_plain (now + ttl) u v Hu) as Hp.
  destruct (token_accepted secret s (session_data (now + ttl) u v) _ 0 Hs eq_refl ltac:(done) Hp eq_refl Ht)
    as (t & Et & _).
  exists t. split; [done|]. intros now'.
  destruct (token_accepted secret s (session_data (now + ttl) u v) _ now' Hs eq_refl ltac:(done) Hp eq_refl Ht)
    as (t' & Et' & Hd). rewrite Et in Et'. injection Et' as <-.
  unfold decode_session. rewrite Hd. change (get _ "exp" _) with (VInt (now + ttl)). cbn [int_of_val mbind res_bind].
  destruct (Z.leb_spec (now + ttl) now'), (Z.ltb_spec now' (now + ttl)); try lia; done.
Qed.

Lemma split_last_inv c s a b : split_last c s = Some (a, b) → s = a ++ c :: b.
Proof.
  unfold split_last. destruct (split_first c (rev s)) as [[x y]|] eqn:E; [|done]. intros [= <- <-].
  apply split_first_inv in E. rewrite <- (rev_involutive s), E, rev_app_distr. cbn.
  by rewrite <- (assoc_L (++)).
Qed.

(** Only tokens carrying the secret's signature are ever accepted. *)
Lemma accepted_is_signed secret t now d :
  payload_of hmac_sha256 secret (Some t) now = Ok (Some d) →
  ∃ payload sig, t = payload ++ 46 :: sig ∧ _sign hmac_sha256 secret payload = Ok sig.
Proof.
  unfold payload_of. destruct (split_last 46 t) as [[payload sig]|] eqn:E; [|done].
  intros H. apply res_bind_Ok in H as (x & Hx & H). apply res_bind_Ok in H as (same & Hc & H).
  destruct same; [|done]. exists payload, sig. split; [by apply split_last_inv|].
  unfold compare_digest in Hc. destruct (is_ascii sig && is_ascii x); [|done].
  injection Hc as Hc. apply str_eqb_eq in Hc as ->. done.
Qed.

Definition set_users (us : list User) (c : AppConfig) : AppConfig :=
  mkApp (version c) (admin_ui c) (secret_key c) (api_token_hash c) (api_token_role c)
    (session_timeout_s c) us (ldap c) (oidc c) (cluster c) (notifications c) (instance_id c)
    (defaults c) (mappings c).

Lemma get_update_user n u us x :
  get_user n us = Some x → py_eq (username u) n = true → get_user n (update_user n u us) = Some u.
Proof.
  unfold get_user. induction us as [|y us IH]; cbn; [done|]. destruct (py_eq (username y) n) eqn:E; cbn.
  - by intros _ ->.
  - rewrite E. auto.
Qed.
Lemma get_user_name n us x : get_user n us = Some x → py_eq (username x) n = true ∧ x ∈ us.
Proof. unfold get_user. intros [H1 H2]%List.find_some. split; [done|by apply list_elem_of_In]. Qed.

(** C34: a session cookie issued to an account authenticates exactly that account, until it
    expires; once the account's role or source is changed by an external sign-in the cookie no
    longer authenticates anyone; and every token that authenticates some account of the
    configuration carries the signature of the configuration's secret. *)
Theorem session_lifecycle c secret s u v x ttl now :
  secret_key c = VStr secret → utf8_encode secret = Ok s → Forall is_cp u →
  get_user (VStr u) (users c) = Some x → pwd_version x = VInt v →
  ∃ t, issue_session hmac_sha256 (secret_key c) ttl (VStr u) (pwd_version x) now = Ok t
  ∧ (∀ now', session_user hmac_sha256 repr c (Some t) now'
             = Ok (if now' <? now + ttl then Some x else None))
  ∧ (∀ r src y us now', upsert_external_user (VStr u) r src (users c) = Ok (y, us) →
       (py_eq (role x) r && py_eq (source x) src = false) →
       session_user hmac_sha256 repr (set_users us c) (Some t) now' = Ok None)
  ∧ (∀ t' now' y, session_user hmac_sha256 repr c (Some t') now' = Ok (Some y) →
       y ∈ users c ∧ ∃ payload sig, t' = payload ++ 46 :: sig
                                   ∧ _sign hmac_sha256 (secret_key c) payload = Ok sig).
Proof.
  intros Hk Hs Hu Hx Hv. rewrite Hv, Hk.
  destruct (session_token secret s _ u v ttl now Hs Hu eq_refl) as (t & Ht & Hd).
  exists t. split_and!; [done|..].
  - intros now'. unfold session_user. rewrite Hk, Hd. cbn [mbind res_bind].
    destruct (now' <? now + ttl); [|done]. rewrite Hx, Hv. cbn. by rewrite Z.eqb_refl.
  - intros r src y us now' Hup Hne. destruct (get_user_name _ _ _ Hx) as [Hn _].
    unfold upsert_external_user in Hup. rewrite Hx, <- negb_andb, Hne in Hup. cbn [negb] in Hup.
    rewrite Hv in Hup. cbn [bump mbind res_bind int_of] in Hup. injection Hup as <- <-.
    unfold session_user. cbn [set_users secret_key users]. rewrite Hk, Hd. cbn [mbind res_bind].
    destruct (now' <? now + ttl); [|done].
    rewrite (get_update_user _ _ _ x) by done. cbn [pwd_version py_eq num_of num_eq].
    by rewrite (proj2 (Z.eqb_neq (v + 1) v)) by lia.
  - intros t' now' y H. unfold session_user in H. rewrite Hk in H. apply res_bind_Ok in H as (d & Hdec & H).
    destruct d as [[u' v']|]; [|done]. destruct (get_user (VStr u') (users c)) as [z|] eqn:Ez; [|done].
    destruct (py_eq (pwd_version z) (VInt v')); [|done]. injection H as ->. split; [by eapply get_user_name|].
    unfold decode_session in Hdec. apply res_bind_Ok in Hdec as (p & Hp & Hdec).
    destruct p as [data|]; [|done]. by eapply accepted_is_signed.
Qed.
End sessions.

Definition demo_hmac (k m : bytes) : bytes := (λ x, x mod 256) <$> (k ++ m).
Definition demo_repr (v : pyval) : pystr := [].
Definition demo_config : AppConfig :=
  match AppConfig_from_dict ascii_word demo_repr (str "s3cret") (str "node") demo_fresh
          (VDict [key "users" (VList [VDict [key "username" (VStr [233; 122; 101]); key "role" (vstr "viewer");
                                             key "source" (vstr "ldap"); key "pwd_version" (VInt 1)]])]) with
  | Ok c => c
  | Raise _ => mkApp 0 (AdminUI_from_dict []) VNone VNone VNone 0 [] (mkLdap VNone VNone VNone VNone VNone VNone VNone VNone VNone VNone VNone VNone VNone)
                 (mkOidc VNone VNone VNone VNone VNone VNone VNone VNone VNone VNone VNone VNone)
                 (mkCluster VNone VNone VNone VNone []) (mkNotify VNone [] VNone VNone VNone VNone VNone VNone VNone VNone VNone VNone VNone)
                 VNone VNone []
  end.
Lemma session_lifecycle_witness :
  ∃ t, issue_session demo_hmac (secret_key demo_config) 600 (VStr [233; 122; 101]) (VInt 1) 1000 = Ok t
  ∧ (∀ now', session_user demo_hmac demo_repr demo_config (Some t) now'
             = Ok (if now' <? 1000 + 600 then Some (mkUser (VStr [233; 122; 101]) (vstr "") (vstr "viewer") (VInt 1) (vstr "ldap")) else None))
  ∧ (∀ r src y us now', upsert_external_user (VStr [233; 122; 101]) r src (users demo_config) = Ok (y, us) →
       (py_eq (vstr "viewer") r && py_eq (vstr "ldap") src = false) →
       session_user demo_hmac demo_repr (set_users us demo_config) (Some t) now' = Ok None)
  ∧ (∀ t' now' y, session_user demo_hmac demo_repr demo_config (Some t') now' = Ok (Some y) →
       y ∈ users demo_config ∧ ∃ payload sig, t' = payload ++ 46 :: sig
                                   ∧ _sign demo_hmac (secret_key demo_config) payload = Ok sig).
Proof.
  apply (session_lifecycle demo_hmac demo_repr) with (secret := str "s3cret") (s := str "s3cret") (v := 1)
    (x := mkUser (VStr [233; 122; 101]) (vstr "") (vstr "viewer") (VInt 1) (vstr "ldap")).
  - intros k m. unfold demo_hmac, is_bytes. apply Forall_fmap, Forall_true. intros a. apply Z.mod_pos_bound. lia.
  - vm_compute. reflexivity.
  - vm_compute. reflexivity.
  - apply (bool_decide_unpack _). vm_compute. exact I.
  - vm_compute. reflexivity.
  - reflexivity.
Defined.

(** ** The login rate limiter counts failures in a sliding window *)
Inductive login_event :=
  | Checked (ip : pystr) (t : Z)
  | Failed (ip : pystr) (t : Z)
  | SignedIn (ip : pystr).
Definition login_step (l : LoginRateLimiter) (e : login_event) : LoginRateLimiter :=
  match e with
  | Checked ip t => (blocked ip t l).2
  | Failed ip t => record_failure ip t l
  | SignedIn ip => reset ip l
  end.
(** Events in the order of a clock that never goes back, none after [now]. *)
Fixpoint in_order (t0 : Z) (es : list login_event) (now : Z) : Prop :=
  match es with
  | [] => t0 <= now
  | (Checked _ t | Failed _ t) :: es' => t0 <= t ∧ in_order t es' now
  | SignedIn _ :: es' => in_order t0 es' now
  end.
(** Every failure from the address since its last sign-in, oldest first. *)
Fixpoint failures (ip : pystr) (acc : list Z) (es : list login_event) : list Z :=
  match es with
  | [] => acc
  | Checked _ _ :: es' => failures ip acc es'
  | Failed ip' t :: es' => failures ip (if str_eqb ip' ip then acc ++ [t] else acc) es'
  | SignedIn ip' :: es' => failures ip (if str_eqb ip' ip then [] else acc) es'
  end.
Definition recent (window now : Z) (l : list Z) : list Z := List.filter (λ t, now - t <=? window) l.

(** The queue of an address: the failures in time order, without some that left the window. *)
Definition queue_of (window t0 : Z) (q all : list Z) : Prop :=
  ∃ old, all = old ++ q ∧ Forall (λ t, window < t0 - t) old ∧ Forall (λ t, t <= t0) q ∧ StronglySorted Z.le q.

Lemma expire_suffix window now q :
  ∃ pre, q = pre ++ expire window now q ∧ Forall (λ t, window < now - t) pre.
Proof.
  induction q as [|t q [pre [E IH]]]; [by exists []|]. cbn [expire].
  destruct (Z.ltb_spec window (now - t)); [|by exists []]. exists (t :: pre). split.
  - cbn. by rewrite <- E.
  - by constructor.
Qed.
Lemma recent_old window now old : Forall (λ t, window < now - t) old → recent window now old = [].
Proof. induction 1 as [|t old Ht _ IH]; [done|]. cbn. by rewrite (proj2 (Z.leb_gt _ _) Ht). Qed.
Lemma recent_new window now t q :
  now - t <= window → Forall (Z.le t) q → recent window now q = q.
Proof.
  intros Ht. induction 1 as [|x q Hx _ IH]; [done|]. cbn. rewrite (proj2 (Z.leb_le _ _)) by lia. by f_equal.
Qed.
Lemma expire_recent window now q : StronglySorted Z.le q → expire window now q = recent window now q.
Proof.
  induction 1 as [|t q Hs IH Ht]; [done|]. cbn [expire].
  destruct (Z.ltb_spec window (now - t)).
  - rewrite IH. cbn. by rewrite (proj2 (Z.leb_gt _ _)) by lia.
  - symmetry. apply (recent_new window now t); [lia|]. by constructor; [lia|].
Qed.
Lemma sorted_suffix (pre q : list Z) : StronglySorted Z.le (pre ++ q) → StronglySorted Z.le q.
Proof. induction pre as [|x pre IH]; [done|]. cbn. by intros [? _]%StronglySorted_inv; auto. Qed.
Lemma sorted_snoc q (t : Z) : Forall (λ x, x <= t) q → StronglySorted Z.le q → StronglySorted Z.le (q ++ [t]).
Proof.
  intros Hq. induction 1 as [|x q Hs IH Hx]; [by repeat constructor|]. apply Forall_cons in Hq as [Hxt Hq].
  cbn. constructor; [by apply IH|]. apply Forall_app. split; [done|by apply Forall_singleton].
Qed.

Lemma queue_expire window t0 now q all :
  t0 <= now → queue_of window t0 q all → queue_of window now (expire window now q) all.
Proof.
  intros Hle (old & -> & Hold & Hq & Hs). destruct (expire_suffix window now q) as (pre & E & Hpre).
  exists (old ++ pre). rewrite <- (assoc_L (++)), <- E. split_and!; [done| | |].
  - apply Forall_app. split; [|done]. eapply Forall_impl; [exact Hold|]. cbn. lia.
  - rewrite E in Hq. apply Forall_app in Hq as [_ Hq]. eapply Forall_impl; [exact Hq|]. cbn. lia.
  - rewrite E in Hs. by apply sorted_suffix in Hs.
Qed.
Lemma queue_later window t0 t q all : t0 <= t → queue_of window t0 q all → queue_of window t q all.
Proof.
  intros Hle (old & -> & Hold & Hq & Hs). exists old. split_and!; [done| | |done].
  - eapply Forall_impl; [exact Hold|]. cbn. lia.
  - eapply Forall_impl; [exact Hq|]. cbn. lia.
Qed.

Lemma login_run_queue ip es t0 now l all :
  in_order t0 es now → queue_of (window_s l) t0 (default [] (_fails l !! ip)) all →
  let l' := foldl login_step l es in
  queue_of (window_s l) now (default [] (_fails l' !! ip)) (failures ip all es)
  ∧ window_s l' = window_s l ∧ max_attempts l' = max_attempts l.
Proof.
  revert t0 l all. induction es as [|e es IH]; intros t0 l all Ho Hq; cbn [foldl].
  { split; [|done]. by eapply queue_later. }
  destruct e as [ip' t|ip' t|ip']; cbn [failures login_step in_order] in *.
  - destruct Ho as [Ht Ho]. apply (IH t (blocked ip' t l).2); [done|]. cbn [blocked set_fails _fails window_s snd].
    destruct (decide (ip' = ip)) as [->|Hne].
    + rewrite lookup_insert_eq. cbn. by apply (queue_expire _ t0).
    + rewrite lookup_insert_ne by done. by eapply queue_later.
  - destruct Ho as [Ht Ho]. apply (IH t (record_failure ip' t l)); [done|]. cbn [record_failure set_fails _fails window_s].
    destruct (str_eqb ip' ip) eqn:E.
    + apply str_eqb_eq in E as ->. rewrite lookup_insert_eq. cbn.
      destruct (queue_later _ t0 t _ _ Ht Hq) as (old & -> & Hold & Hle & Hs).
      exists old. rewrite <- (assoc_L (++)). split_and!; [done|done| |by apply sorted_snoc].
      apply Forall_app. split; [done|by apply Forall_singleton].
    + apply str_eqb_neq in E. rewrite lookup_insert_ne by done. by eapply queue_later.
  - apply (IH t0 (reset ip' l)); [done|]. cbn [reset _fails window_s]. destruct (str_eqb ip' ip) eqn:E.
    + apply str_eqb_eq in E as ->. rewrite lookup_delete_eq. exists []. by split_and!; [|done|done|constructor].
    + apply str_eqb_neq in E. by rewrite lookup_delete_ne.
Qed.

(** the login limiter refuses an address exactly when at least [max_attempts] failed sign-ins
    came from that address since its last successful one and within the last [window_s] seconds:
    checks in between, other addresses and the queues kept for them make no difference. *)
Theorem limiter_exact mx window t0 es now ip :
  in_order t0 es now →
  (blocked ip now (foldl login_step (mkLimiter mx window ∅) es)).1
  = (mx <=? zlen (recent window now (failures ip [] es))).
Proof.
  intros Ho. destruct (login_run_queue ip es t0 now (mkLimiter mx window ∅) [] Ho) as (Hq & Hw & Hm).
  { cbn [_fails]. rewrite lookup_empty. exists []. by split_and!; [|done|done|constructor]. }
  unfold blocked. cbn [fst]. rewrite Hw, Hm. cbn [window_s max_attempts] in *.
  destruct Hq as (old & -> & Hold & _ & Hs). rewrite expire_recent by done.
  unfold recent at 2. rewrite List.filter_app. fold (recent window now old).
  by rewrite (recent_old window now old).
Qed.
Definition demo_logins : list login_event :=
  [Failed (str "10.0.0.7") 0; Failed (str "10.0.0.7") 250; Failed (str "10.0.0.8") 251;
   Checked (str "10.0.0.7") 301; Failed (str "10.0.0.7") 302].
Lemma limiter_exact_witness :
  (blocked (str "10.0.0.7") 310 (foldl login_step (mkLimiter 2 300 ∅) demo_logins)).1
  = (2 <=? zlen (recent 300 310 (failures (str "10.0.0.7") [] demo_logins))).
Proof. apply (limiter_exact 2 300 0 demo_logins 310). cbn. lia. Defined.

(** ** The DNS-rebinding guard *)
Section guard.
Context (hmac_sha256 : bytes → bytes → bytes) (repr : pyval → pystr) (hostname : pystr).

(** A DNS name that is not this machine's: letters, digits, dots and dashes, in lower case. *)
Definition foreign_name (name : pystr) : Prop :=
  name ≠ [] ∧ Forall (λ c, in_range 48 57 c || in_range 97 122 c || (c =? 46) || (c =? 45) = true) name
  ∧ ip_address name = None ∧ name ≠ str "localhost" ∧ name ∉ _own_host_names hostname.
(** A header value that addresses it: in any case, with blanks around it, with or without a port. *)
Definition addresses (name : pystr) (h : pystr) : Prop :=
  lower (strip h) = name
  ∨ ∃ port, lower (strip h) = name ++ 58 :: port ∧ Forall (λ c, is_digit c = true) port.

Lemma split_last_none c s : Forall (λ x, x ≠ c) s → split_last c s = None.
Proof.
  intros H. unfold split_last. assert (split_first c (rev s) = None) as ->; [|done].
  apply Forall_rev in H. induction H as [|x l Hx _ IH]; [done|]. cbn.
  by rewrite (proj2 (Z.eqb_neq x c) Hx), IH.
Qed.
Lemma existsb_none c s : Forall (λ x, x ≠ c) s → existsb (Z.eqb c) s = false.
Proof.
  induction 1 as [|x s Hx _ IH]; [done|]. cbn. rewrite IH. by rewrite (proj2 (Z.eqb_neq c x)).
Qed.

Lemma host_only_foreign name h : foreign_name name → addresses name h → _host_only (Some h) = name.
Proof.
  intros (Hne & Hc & _) Ha. unfold _host_only. change (default [] (Some h)) with h.
  assert (Forall (λ x, x ≠ 58) name) as Hcolon.
  { eapply Forall_impl; [exact Hc|]. intros c H ->. done. }
  assert (∀ t, name ++ t = [] → False) as Hnil by (intros t; by destruct name).
  assert (∀ c r t, name ++ t = c :: r → c ≠ 91) as Hbr.
  { intros c r t. destruct Hc as [|x name Hx _]; [done|]. intros [= -> _] ->. done. }
  destruct Ha as [E|(port & E & Hp)]; rewrite E.
  - rewrite (split_last_none 58) by done. specialize (Hbr) with (t := []). rewrite app_nil_r in Hbr.
    destruct name as [|c r] eqn:En; [done|]. specialize (Hbr c r eq_refl). clear -Hbr. not_char c.
  - assert (Forall (λ x, x ≠ 58) port) as Hpc.
    { eapply Forall_impl; [exact Hp|]. intros c H ->. done. }
    rewrite split_last_app by done. rewrite (existsb_none 58 name) by done.
    specialize (Hbr) with (t := 58 :: port).
    destruct (name ++ 58 :: port) as [|c r] eqn:En; [by destruct name|]. specialize (Hbr c r eq_refl).
    clear -Hbr. not_char c.
Qed.

Lemma foreign_not_own name h : foreign_name name → addresses name h → is_own_host hostname (Some h) = false.
Proof.
  intros Hf Ha. unfold is_own_host. rewrite (host_only_foreign name h) by done.
  destruct Hf as (_ & _ & Hip & Hl & Hown). rewrite Hip. apply andb_false_iff. right.
  apply orb_false_iff. split; [by apply str_eqb_neq|].
  destruct (existsb (str_eqb name) (_own_host_names hostname)) eqn:E; [|done].
  apply existsb_exists in E as (x & Hx & ->%str_eqb_eq). by apply list_elem_of_In in Hx.
Qed.

(** The ways a request can claim a host name. *)
Definition claims (headers : string → option pystr) (h : pystr) : Prop :=
  headers "host"%string = Some h
  ∨ (∃ before after, headers "x-forwarded-host"%string = Some (join [44] (before ++ h :: after))
                     ∧ Forall (Forall (λ c, c ≠ 44)) (before ++ h :: after))
  ∨ (∃ rest, headers "forwarded"%string = Some (str "host=" ++ h ++ rest)
             ∧ h ≠ [] ∧ Forall (λ c, host_char c = true) h
             ∧ match rest with [] => True | c :: _ => host_char c = false end).

Lemma span_by_app p s t : Forall (λ c, p c = true) s → match t with [] => True | c :: _ => p c = false end →
  span_by p (s ++ t) = (s, t).
Proof.
  intros Hs Ht. induction Hs as [|c s Hc _ IH]; cbn.
  - destruct t as [|c t]; [done|]. cbn. by rewrite Ht.
  - by rewrite Hc, IH.
Qed.
Lemma strip_idem h : strip (strip h) = strip h.
Proof.
  unfold strip at 1, strip_by. rewrite lstrip_by_id; [apply rstrip_by_id|]; unfold strip, strip_by.
  - intros r c. apply rstrip_by_last.
  - intros c r E. apply rstrip_by_head in E as [r' E]. by eapply lstrip_by_head.
Qed.
Lemma addresses_strip name h : addresses name h → addresses name (strip h).
Proof. unfold addresses. by rewrite strip_idem. Qed.

(** A claimed host name is among those the guard looks at, up to the blanks around it. *)
Lemma claims_claimed headers h :
  claims headers h → h ≠ [] → h ∈ _claimed_hosts headers ∨ strip h ∈ _claimed_hosts headers.
Proof.
  intros [E|[(before & after & E & Hc)|(rest & E & _ & Hh & Hr)]] Hne; unfold _claimed_hosts.
  - left. rewrite E. left.
  - right. right. apply elem_of_app. left. unfold header. rewrite E.
    assert (before ++ h :: after ≠ []) as Hl by by destruct before.
    assert (join [44] (before ++ h :: after) ≠ []) as Hj.
    { destruct before as [|b before]; [by destruct h|]. cbn. intros [_ Hb]%app_eq_nil. cbn in Hb.
      by destruct before. }
    destruct (join [44] (before ++ h :: after)) as [|x r] eqn:Ej; [done|]. rewrite <- Ej.
    rewrite split_on_join by done. rewrite fmap_app. apply elem_of_app. right. left.
  - left. right. apply elem_of_app. right. unfold header. rewrite E.
    change (str "host=" ++ h ++ rest) with (104 :: str "ost=" ++ h ++ rest). cbv iota beta.
    unfold forwarded_hosts. cbn [find_hosts].
    assert (host_here (104 :: str "ost=" ++ h ++ rest) = Some (h, rest)) as ->; [|left].
    unfold host_here.
    change (take 5 (104 :: str "ost=" ++ h ++ rest)) with (str "host=").
    change (drop 5 (104 :: str "ost=" ++ h ++ rest)) with (h ++ rest).
    change (str_eqb (fold_char <$> str "host=") (str "host=")) with true. cbv iota.
    assert (match h ++ rest with 34 :: r => r | r => r end = h ++ rest) as ->.
    { destruct Hh as [|c h Hc _]; [done|]. cbn [app]. unfold host_char in Hc.
      destruct (Z.eqb_spec c 34) as [->|Hq]; [done|]. clear -Hq. not_char c. }
    rewrite span_by_app by done. by destruct h.
Qed.

(** with the login requirement off, a page on a foreign DNS name that rebinds to this machine gets
    no anonymous access: when a request claims such a name, in any letter case and with or without
    a port, in Host, in a list in X-Forwarded-Host or in Forwarded, it acts as the user of its
    session cookie or as nobody. Anonymous visitors never pass the check for peer actions, whatever
    role they were given. *)
Theorem rebinding_refused c headers name h :
  foreign_name name → addresses name h → claims headers h →
  anonymous_user hostname c headers = None
  ∧ (∀ token now, request_user hmac_sha256 repr hostname c token headers now
                  = session_user hmac_sha256 repr c token now)
  ∧ ∀ headers', require_peer_access (anonymous_user hostname c headers') = Some 403.
Proof.
  intros Hf Ha Hc.
  assert (h ≠ []) as Hne.
  { intros ->. destruct Hf as (Hn & _). destruct Ha as [<-|(port & E & _)]; [done|]. by destruct name. }
  assert (∀ hs, (h ∈ hs ∨ strip h ∈ hs) → forallb (λ h, is_own_host hostname (Some h)) hs = false) as Hall.
  { intros hs Hin. destruct (forallb _ hs) eqn:E; [|done]. rewrite forallb_forall in E.
    destruct Hin as [Hin%list_elem_of_In|Hin%list_elem_of_In]; apply E in Hin.
    - by rewrite (foreign_not_own name) in Hin.
    - by rewrite (foreign_not_own name) in Hin by (done || by apply addresses_strip). }
  assert (anonymous_user hostname c headers = None) as Hnone.
  { unfold anonymous_user. destruct (_ || _); [done|]. rewrite Hall by by apply claims_claimed. done. }
  split_and!; [done| |].
  - intros token now. unfold request_user. rewrite Hnone.
    by destruct (session_user hmac_sha256 repr c token now) as [[]|].
  - intros headers'. unfold anonymous_user. destruct (truthy _ || negb _); [done|]. by destruct (negb (forallb _ _)).
Qed.
End guard.

Definition demo_headers (n : string) : option pystr :=
  if String.eqb n "host" then Some (str "192.168.1.5:8080")
  else if String.eqb n "x-forwarded-host" then Some (str "gateway, Evil.example.COM:80") else None.
Lemma rebinding_refused_witness :
  anonymous_user (str "gateway") demo_config demo_headers = None
  ∧ (∀ token now, request_user demo_hmac demo_repr (str "gateway") demo_config token demo_headers now
                  = session_user demo_hmac demo_repr demo_config token now)
  ∧ ∀ headers', require_peer_access (anonymous_user (str "gateway") demo_config headers') = Some 403.
Proof.
  apply (rebinding_refused demo_hmac demo_repr (str "gateway")) with (name := str "evil.example.com")
    (h := str " Evil.example.COM:80").
  - split_and!; [done|apply (bool_decide_unpack _); vm_compute; exact I|vm_compute; reflexivity|done|].
    apply (bool_decide_unpack _). vm_compute. exact I.
  - right. exists (str "80"). split; [vm_compute; reflexivity|by repeat constructor].
  - right. left. exists [str "gateway"], []. split; [vm_compute; reflexivity|].
    apply (bool_decide_unpack _). vm_compute. exact I.
Defined.

(** A cookie with a character outside ASCII raises (the docstring promises None). *)
Example non_ascii_token_raises :
  decode_session demo_hmac demo_repr (vstr "s3cret") (Some ([233] ++ str ".sig")) 0
  = raise ValueError "'ascii' codec can't encode character"
  ∧ decode_session demo_hmac demo_repr (vstr "s3cret") (Some (str "abc." ++ [233])) 0
  = raise TypeError "comparing strings with non-ASCII characters is not supported".
Proof. by vm_compute. Qed.

(** Passwords: what [hash_password] stores is verified for the same password. *)
Example password_roundtrip :
  let scrypt (p salt : bytes) (n : Z) : res bytes := Ok (take (Z.to_nat n) (p ++ salt ++ repeat 0 32)) in
  ∃ h, hash_password scrypt (repeat 171 16) (str "hunter2") = Ok h
       ∧ verify_password scrypt (str "hunter2") (VStr h) = Ok true
       ∧ verify_password scrypt (str "hunter3") (VStr h) = Ok false.
Proof. eexists. split; [reflexivity|]. split; vm_compute; reflexivity. Qed.
