(* ===== verification/Supervisor.v ===== *)
(** * The supervisor of the mapping runners (app/engine/supervisor.py)

    Every method is a coroutine: [task] holds what is left of a call, and one step of a task is the
    code between two of its awaits. The one lock of the supervisor is not a state here: no block under it awaits anything, so an
    [asyncio.Lock] is free whenever a task runs, and acquiring it neither waits nor lets another task run. [live]
    runners hold their serial port and sockets: they are starting, running or
    not yet completely stopped. The start and the stop of a runner are one await each: what happens inside is in [Runner] and
    [GatewayRunner] ([Runner.stop_completes]: the stop of a bridge ends). [start_all] and [stop_all], which run before the first and after the last
    request, are given as whole calls. *)
From S2P Require Import Prelude PyStr.
#[local] Open Scope Z_scope.

(** What the supervisor uses of a mapping. *)
Class Mapping (M : Type) := {
  mid : M → pystr;
  menabled : M → bool;
}.

Inductive rstate := Fresh | Starting | Running | Stopping | Stopped | Error.
#[export] Instance rstate_eq_dec : EqDecision rstate.
Proof. solve_decision. Defined.
Definition live (st : rstate) : bool := match st with Starting | Running | Stopping => true | _ => false end.

Section supervisor.
Context {M : Type} `{Mapping M}.

(** A runner object, with the mapping it was made for. *)
Record runner := mkRunner { r_mapping : M; r_state : rstate }.
Record sup := mkSup {
  _runners : gmap pystr nat;      (* mapping id -> runner object *)
  _order : list pystr;
  objects : gmap nat runner;      (* every runner ever made *)
  next : nat;
}.
Definition sup0 : sup := mkSup ∅ [] ∅ 0.

Definition set_runners f (s : sup) : sup := mkSup (f (_runners s)) (_order s) (objects s) (next s).
Definition set_order f (s : sup) : sup := mkSup (_runners s) (f (_order s)) (objects s) (next s).
Definition set_state (i : nat) (st : rstate) (s : sup) : sup :=
  mkSup (_runners s) (_order s)
    (alter (λ r, mkRunner (r_mapping r) st) i (objects s)) (next s).
(** [make_runner]: a new object, not yet started. *)
Definition make_runner (m : M) (s : sup) : nat * sup :=
  (next s, mkSup (_runners s) (_order s) (<[next s := mkRunner m Fresh]> (objects s)) (S (next s))).
Definition add_order (k : pystr) (o : list pystr) : list pystr :=
  if existsb (str_eqb k) o then o else o ++ [k].
Fixpoint remove_order (k : pystr) (o : list pystr) : list pystr :=
  match o with
  | [] => []
  | x :: o' => if str_eqb x k then o' else x :: remove_order k o'
  end.
Definition state_of (i : nat) (s : sup) : option rstate := r_state <$> objects s !! i.

(** What is left of a call. *)
Inductive task :=
  | Apply (m : M)                       (* apply_mapping, from its beginning *)
  | ApplyStop (m : M) (old : nat)       (* await old.stop() *)
  | ApplyInstall (m : M)                (* make_runner .. the new runner is registered *)
  | ApplyStart (m : M) (i : nat)        (* await runner.start() *)
  | Stop (k : pystr)                    (* stop_mapping *)
  | StopWait (k : pystr) (i : nat)      (* await runner.stop() *)
  | StopThen (k : pystr) (m : M)        (* restart_mapping: stop, then apply *)
  | StopThenWait (k : pystr) (i : nat) (m : M)
  | Remove (k : pystr)                  (* remove_mapping *)
  | RemoveWait (k : pystr) (i : nat).
Definition task_id (t : task) : pystr :=
  match t with
  | Apply m | ApplyStop m _ | ApplyInstall m | ApplyStart m _ => mid m
  | Stop k | StopWait k _ | StopThen k _ | StopThenWait k _ _ | Remove k | RemoveWait k _ => k
  end.

(** [runner.stop()]: a runner that holds its port lets it go, and every runner ends up stopped. *)
Definition begin_stop (i : nat) (s : sup) : sup :=
  match state_of i s with
  | Some (Starting | Running) => set_state i Stopping s
  | _ => s
  end.
Definition end_stop (i : nat) (s : sup) : sup := set_state i Stopped s.

(** One step of a call: [ok] tells whether a start succeeds. *)
Definition advance (ok : bool) (t : task) (s : sup) : option task * sup :=
  match t with
  | Apply m =>
      match _runners s !! mid m with
      | Some i => (Some (ApplyStop m i), begin_stop i (set_runners (delete (mid m)) s))
      | None => (Some (ApplyInstall m), s)
      end
  | ApplyStop m i => (Some (ApplyInstall m), end_stop i s)
  | ApplyInstall m =>
      let '(i, s) := make_runner m s in
      let s := set_runners (insert (mid m) i) (set_order (add_order (mid m)) s) in
      if menabled m then (Some (ApplyStart m i), set_state i Starting s)
      else (None, set_state i Stopped s)
  | ApplyStart m i => (None, set_state i (if ok then Running else Error) s)
  | Stop k =>
      match _runners s !! k with
      | Some i => (Some (StopWait k i), begin_stop i s)
      | None => (None, s)
      end
  | StopWait k i => (None, end_stop i s)
  | StopThen k m =>
      match _runners s !! k with
      | Some i => (Some (StopThenWait k i m), begin_stop i s)
      | None => (Some (Apply m), s)
      end
  | StopThenWait k i m => (Some (Apply m), end_stop i s)
  | Remove k =>
      let s' := set_order (remove_order k) (set_runners (delete k) s) in
      match _runners s !! k with
      | Some i => (Some (RemoveWait k i), begin_stop i s')
      | None => (None, s')
      end
  | RemoveWait k i => (None, end_stop i s)
  end.

(** The registration of a disabled mapping at start-up. *)
Definition _ensure_stopped_placeholder (m : M) (s : sup) : sup :=
  match _runners s !! mid m with
  | Some _ => s
  | None =>
      let '(i, s) := make_runner m s in
      set_runners (insert (mid m) i) (set_order (add_order (mid m)) (set_state i Stopped s))
  end.

(** ** Calls run one after the other *)
Fixpoint run_task (fuel : nat) (oks : M → bool) (t : task) (s : sup) : sup :=
  match fuel with
  | O => s
  | S f =>
      let ok := match t with ApplyStart m _ => oks m | _ => true end in
      match advance ok t s with
      | (Some t', s') => run_task f oks t' s'
      | (None, s') => s'
      end
  end.
(** No call takes more than six steps. *)
Definition call (oks : M → bool) (t : task) (s : sup) : sup := run_task 6 oks t s.
Definition apply_mapping (oks : M → bool) (m : M) (s : sup) : sup := call oks (Apply m) s.
Definition start_mapping := apply_mapping.
Definition stop_mapping (oks : M → bool) (k : pystr) (s : sup) : sup := call oks (Stop k) s.
Definition restart_mapping (oks : M → bool) (m : M) (s : sup) : sup := call oks (StopThen (mid m) m) s.
Definition remove_mapping (oks : M → bool) (k : pystr) (s : sup) : sup := call oks (Remove k) s.
Definition start_all (oks : M → bool) (ms : list M) (s : sup) : sup :=
  foldl (λ s m, if menabled m then apply_mapping oks m s else _ensure_stopped_placeholder m s)
    (set_order (λ _, mid <$> ms) s) ms.
(** Every registered runner is stopped, one after the other. *)
Definition stop_all (s : sup) : sup :=
  foldl (λ s i, end_stop i (begin_stop i s)) (set_runners (λ _, ∅) s) ((map_to_list (_runners s)).*2).

Definition get_runner (k : pystr) (s : sup) : option runner := _runners s !! k ≫= λ i, objects s !! i.

(** ** Calls interleaved *)
Record sys := mkSys { engine : sup; tasks : list task }.
(** A request starts a call. *)
Definition begins (t : task) : bool :=
  match t with Apply _ | Stop _ | StopThen _ _ | Remove _ => true | _ => false end.
Definition well_formed (t : task) : Prop :=
  match t with StopThen k m | StopThenWait k _ m => k = mid m | _ => True end.

Definition finish (k : nat) (t : option task) (l : list task) : list task :=
  match t with Some t' => <[k := t']> l | None => delete k l end.
Inductive step : sys → sys → Prop :=
  | step_spawn t s l : begins t = true → well_formed t → step (mkSys s l) (mkSys s (t :: l))
  | step_run k t ok t' s s' l :
      l !! k = Some t → advance ok t s = (t', s') → step (mkSys s l) (mkSys s' (finish k t' l)).
(** The discipline under which nothing goes wrong: no two calls for one mapping at a time. *)
Definition one_per_mapping (x : sys) : Prop := NoDup (task_id <$> tasks x).
Inductive reach (P : sys → Prop) : sys → Prop :=
  | reach_init : reach P (mkSys sup0 [])
  | reach_step x y : reach P x → step x y → P y → reach P y.
End supervisor.

(** ** No runner is ever lost *)
Section no_leak.
Context {M : Type} `{Mapping M}.
#[local] Abbreviation sup := (sup (M:=M)).
#[local] Abbreviation task := (task (M:=M)).
#[local] Abbreviation sys := (sys (M:=M)).

(** The runner a call has taken out of the table and not yet stopped. *)
Definition held (t : task) : option nat :=
  match t with ApplyStop _ i | RemoveWait _ i => Some i | _ => None end.
(** Where a call stands with respect to the table. *)
Definition task_ok (s : sup) (t : task) : Prop :=
  well_formed t ∧
  match t with
  | ApplyStop _ i | RemoveWait _ i =>
      _runners s !! task_id t = None ∧ ∃ r, objects s !! i = Some r ∧ mid (r_mapping r) = task_id t
  | ApplyInstall _ => _runners s !! task_id t = None
  | ApplyStart m i => _runners s !! mid m = Some i ∧ r_mapping <$> objects s !! i = Some m
  | StopWait k i | StopThenWait k i _ => _runners s !! k = Some i
  | _ => True
  end.
(** The table entry of a mapping is a runner of that mapping; its live runners are that one, or the
    one a call holds. *)
Record local_ok (s : sup) (k : pystr) (h : option nat) : Prop := {
  local_table i : _runners s !! k = Some i → ∃ r, objects s !! i = Some r ∧ mid (r_mapping r) = k;
  local_live i r : objects s !! i = Some r → mid (r_mapping r) = k → live (r_state r) = true →
    _runners s !! k = Some i ∨ h = Some i;
}.
Definition fresh_ok (s : sup) : Prop := ∀ i r, objects s !! i = Some r → (i < next s)%nat.
(** A step of a call for mapping [k] leaves every other mapping as it was. *)
Record frame (k : pystr) (s s' : sup) : Prop := {
  frame_runners k' : k' ≠ k → _runners s' !! k' = _runners s !! k';
  frame_new i r' : objects s' !! i = Some r' → mid (r_mapping r') = k ∨ objects s !! i = Some r';
  frame_old i r : objects s !! i = Some r → ∃ r', objects s' !! i = Some r' ∧ r_mapping r' = r_mapping r
                                                  ∧ (mid (r_mapping r) ≠ k → r' = r);
}.

Lemma set_state_lookup i st (s : sup) j :
  objects (set_state i st s) !! j
  = if decide (i = j) then (λ r, @mkRunner M (r_mapping r) st) <$> objects s !! j else objects s !! j.
Proof.
  cbn. destruct (decide (i = j)) as [->|Hne]; [by rewrite lookup_alter_eq|by rewrite lookup_alter_ne].
Qed.
(** What [runner.stop()] does, whichever half: at most one runner changes, and none becomes live. *)
Lemma stop_cases i (s s' : sup) :
  s' = begin_stop i s ∨ s' = end_stop i s →
  _runners s' = _runners s ∧ next s' = next s ∧
  ∀ j, objects s' !! j = objects s !! j
       ∨ j = i ∧ ∃ r st, objects s !! j = Some r ∧ objects s' !! j = Some (mkRunner (r_mapping r) st)
                         ∧ (live st = true → live (r_state r) = true).
Proof.
  assert (∀ st, (∀ r, objects s !! i = Some r → live st = true → live (r_state r) = true) →
    _runners (set_state i st s) = _runners s ∧ next (set_state i st s) = next s ∧
    ∀ j, objects (set_state i st s) !! j = objects s !! j
       ∨ j = i ∧ ∃ r st', objects s !! j = Some r ∧ objects (set_state i st s) !! j = Some (mkRunner (r_mapping r) st')
                         ∧ (live st' = true → live (r_state r) = true)) as Hset.
  { intros st Hst. split_and!; [done|done|]. intros j. rewrite set_state_lookup.
    destruct (decide (i = j)) as [->|]; [|by left].
    destruct (objects s !! j) as [r|] eqn:E; [|by left]. right. split; [done|].
    exists r, st. split_and!; [done|done|by apply Hst]. }
  intros [-> | ->]; [unfold begin_stop|by apply Hset].
  destruct (state_of i s) as [[]|] eqn:E; try (split_and!; [done|done|by left]);
    apply Hset; intros r Hr _; unfold state_of in E; rewrite Hr in E; injection E as ->; done.
Qed.

Lemma stop_frame i s s' k :
  s' = begin_stop i s ∨ s' = end_stop i s →
  (∀ r, objects s !! i = Some r → mid (r_mapping r) = k) → frame k s s'.
Proof.
  intros Hs Hk. destruct (stop_cases i s s' Hs) as (Hr & _ & Ho). constructor.
  - intros k' _. by rewrite Hr.
  - intros j r' Hj. destruct (Ho j) as [E|(-> & r & st & E & E' & _)]; [right; congruence|].
    left. rewrite E' in Hj. injection Hj as <-. exact (Hk r E).
  - intros j r Hj. destruct (Ho j) as [E|(-> & r0 & st & E & E' & _)].
    + exists r. by rewrite E.
    + rewrite E in Hj. injection Hj as ->. exists (mkRunner (r_mapping r) st).
      split_and!; [done|done|]. intros Hne. destruct Hne. by apply Hk.
Qed.
Lemma stop_fresh i s s' : s' = begin_stop i s ∨ s' = end_stop i s → fresh_ok s → fresh_ok s'.
Proof.
  intros Hs Hf j r Hj. destruct (stop_cases i s s' Hs) as (_ & -> & Ho).
  destruct (Ho j) as [E|(-> & r0 & st & E & _)]; [rewrite E in Hj; by eapply Hf|by eapply Hf].
Qed.
(** Stopping the registered (or held) runner keeps the mapping's runners accounted for. *)
Lemma stop_local i s s' k h :
  s' = begin_stop i s ∨ s' = end_stop i s → local_ok s k h → local_ok s' k h.
Proof.
  intros Hs [Ht Hl]. destruct (stop_cases i s s' Hs) as (Hr & _ & Ho). constructor; rewrite Hr.
  - intros j Hj. destruct (Ht j Hj) as (r & Hr' & Hm).
    destruct (Ho j) as [E|(-> & r0 & st & E & E' & _)]; [rewrite E; eauto|].
    rewrite Hr' in E. injection E as <-. by exists (mkRunner (r_mapping r) st).
  - intros j r Hj Hm Hlive. destruct (Ho j) as [E|(-> & r0 & st & E & E' & Hst)].
    + rewrite E in Hj. by eapply Hl.
    + rewrite E' in Hj. injection Hj as <-. eapply Hl; [done|done|by apply Hst].
Qed.
(** Once stopped, the held runner is not live any more. *)
Lemma end_stop_held i s k : local_ok s k (Some i) → _runners s !! k = None → local_ok (end_stop i s) k None.
Proof.
  intros Hl Hn. pose proof (stop_local i s _ k _ (or_intror eq_refl) Hl) as [Ht' Hl'].
  constructor; [done|]. intros j r Hj Hm Hlive. destruct (Hl' j r Hj Hm Hlive) as [E|[= ->]]; [by left|].
  unfold end_stop in Hj. rewrite set_state_lookup, decide_True in Hj by done.
  destruct (objects s !! j); [|done]. by injection Hj as <-.
Qed.
Lemma take_local k i s : local_ok s k None → _runners s !! k = Some i →
  local_ok (set_runners (delete k) s) k (Some i).
Proof.
  intros [Ht Hl] Hi. constructor; cbn; [by rewrite lookup_delete_eq|].
  intros j r Hj Hm Hlive. right. destruct (Hl j r Hj Hm Hlive) as [E|E]; [|done]. congruence.
Qed.

Lemma mid_of_ok s t i (Hok : task_ok s t) :
  match t with ApplyStop _ j | RemoveWait _ j => j = i | _ => False end →
  ∀ r, objects s !! i = Some r → mid (r_mapping r) = task_id t.
Proof. destruct t; try done; intros <- r Hr; destruct Hok as [_ [_ (r' & Hr' & Hm)]]; congruence. Qed.
Lemma table_mid s k i h : local_ok s k h → _runners s !! k = Some i →
  ∀ r, objects s !! i = Some r → mid (r_mapping r) = k.
Proof. intros [Ht _] Hi r Hr. destruct (Ht i Hi) as (r' & Hr' & Hm). congruence. Qed.

Lemma frame_refl k s : frame k s s.
Proof. constructor; [done|by right|]. intros i r Hr. by exists r. Qed.
Lemma frame_trans k s1 s2 s3 : frame k s1 s2 → frame k s2 s3 → frame k s1 s3.
Proof.
  intros [A1 A2 A3] [B1 B2 B3]. constructor.
  - intros k' Hk. rewrite B1, A1; done.
  - intros i r Hi. destruct (B2 i r Hi) as [?|?]; [by left|by apply A2].
  - intros i r Hi. destruct (A3 i r Hi) as (r1 & H1 & E1 & F1). destruct (B3 i r1 H1) as (r2 & H2 & E2 & F2).
    exists r2. split_and!; [done|congruence|]. intros Hne. rewrite <- (F1 Hne) at 1. apply F2. congruence.
Qed.
Lemma frame_table f k s :
  (∀ g k', k' ≠ k → f g !! k' = (g : gmap pystr nat) !! k') → frame k s (set_runners f s).
Proof. intros Hf. constructor; cbn; [intros k' Hk; by apply Hf|by right|]. intros i r Hr. by exists r. Qed.
Lemma frame_order f k s : frame k s (set_order f s).
Proof. constructor; cbn; [done|by right|]. intros i r Hr. by exists r. Qed.

(** A new runner for the mapping, registered in place of none. *)
Lemma install_ok m st s s' :
  fresh_ok s → local_ok s (mid m) None → _runners s !! mid m = None →
  s' = set_state (next s) st (set_runners (insert (mid m) (next s)) (set_order (add_order (mid m)) (make_runner m s).2)) →
  frame (mid m) s s' ∧ fresh_ok s' ∧ local_ok s' (mid m) None
  ∧ _runners s' !! mid m = Some (next s) ∧ objects s' !! next s = Some (mkRunner m st).
Proof.
  intros Hf [Ht Hl] Hn ->. set (s' := set_state _ _ _).
  assert (objects s !! next s = None) as Hnew.
  { destruct (objects s !! next s) as [r|] eqn:E; [|done]. apply Hf in E. lia. }
  assert (objects s' !! next s = Some (mkRunner m st)) as Hi.
  { unfold s'. rewrite set_state_lookup, decide_True by done. cbn. by rewrite lookup_insert_eq. }
  assert (∀ j, j ≠ next s → objects s' !! j = objects s !! j) as Ho.
  { intros j Hj. unfold s'. rewrite set_state_lookup, decide_False by done. cbn. by rewrite lookup_insert_ne. }
  assert (∀ k, _runners s' !! k = if decide (mid m = k) then Some (next s) else _runners s !! k) as Hr.
  { intros k. cbn. destruct (decide (mid m = k)) as [->|]; [by rewrite lookup_insert_eq|by rewrite lookup_insert_ne]. }
  split_and!; [constructor|..|constructor| |done].
  - intros k Hk. by rewrite Hr, decide_False.
  - intros j r Hj. destruct (decide (j = next s)) as [->|]; [left; rewrite Hi in Hj; by injection Hj as <-|right; by rewrite <- Ho].
  - intros j r Hj. exists r. rewrite Ho; [done|]. intros ->. congruence.
  - intros j r Hj. destruct (decide (j = next s)) as [->|]; cbn; [lia|]. rewrite Ho in Hj by done. apply Hf in Hj. lia.
  - intros j Hj. rewrite Hr, decide_True in Hj by done. injection Hj as <-. by eexists.
  - intros j r Hj Hm Hlive. rewrite Hr, decide_True by done. destruct (decide (j = next s)) as [->|]; [by left|].
    rewrite Ho in Hj by done. destruct (Hl j r Hj Hm Hlive) as [E|E]; [|done]. congruence.
  - by rewrite Hr, decide_True.
Qed.

(** Any change of the registered runner's state. *)
Lemma set_state_ok k i st s :
  fresh_ok s → local_ok s k None → _runners s !! k = Some i →
  frame k s (set_state i st s) ∧ fresh_ok (set_state i st s) ∧ local_ok (set_state i st s) k None.
Proof.
  intros Hf Hl Hi. pose proof (table_mid s k i None Hl Hi) as Hmid. destruct Hl as [Ht Hl].
  assert (∀ j r, objects (set_state i st s) !! j = Some r →
    ∃ r0, objects s !! j = Some r0 ∧ r_mapping r = r_mapping r0 ∧ (j ≠ i → r = r0)) as Hinv.
  { intros j r Hj. rewrite set_state_lookup in Hj. destruct (decide (i = j)) as [->|]; [|by eexists].
    destruct (objects s !! j) as [r0|]; [|done]. injection Hj as <-. by exists r0. }
  split_and!; [constructor; [done|..]|..|constructor].
  - intros j r Hj. destruct (Hinv j r Hj) as (r0 & H0 & E & Hne). destruct (decide (j = i)) as [->|].
    + left. rewrite E. by apply Hmid.
    + right. by rewrite Hne.
  - intros j r Hj. rewrite set_state_lookup. destruct (decide (i = j)) as [->|]; [|by exists r].
    rewrite Hj. exists (mkRunner (r_mapping r) st). split_and!; [done|done|]. intros Hne. destruct Hne. by apply Hmid.
  - intros j r Hj. destruct (Hinv j r Hj) as (r0 & H0 & _). by eapply Hf.
  - intros j Hj. cbn in Hj. destruct (Ht j Hj) as (r & Hr & Hm). rewrite set_state_lookup.
    destruct (decide (i = j)) as [->|]; [|by eexists]. rewrite Hr. by exists (mkRunner (r_mapping r) st).
  - intros j r Hj Hm Hlive. cbn. destruct (decide (j = i)) as [->|]; [by left|].
    destruct (Hinv j r Hj) as (r0 & H0 & E & Hne). rewrite Hne in Hm, Hlive by done. by eapply Hl.
Qed.
Lemma end_stop_registered k i s :
  fresh_ok s → local_ok s k None → _runners s !! k = Some i →
  frame k s (end_stop i s) ∧ fresh_ok (end_stop i s) ∧ local_ok (end_stop i s) k None.
Proof. apply set_state_ok. Qed.
Lemma begin_stop_registered k i s :
  fresh_ok s → local_ok s k None → _runners s !! k = Some i →
  frame k s (begin_stop i s) ∧ fresh_ok (begin_stop i s) ∧ local_ok (begin_stop i s) k None.
Proof.
  intros. unfold begin_stop. destruct (state_of i s) as [[]|]; try (by apply set_state_ok);
    split_and!; try done; apply frame_refl.
Qed.
Lemma begin_stop_runners i (s : sup) : _runners (begin_stop i s) = _runners s.
Proof. unfold begin_stop. by destruct (state_of i s) as [[]|]. Qed.

(** Taking the registered runner out of the table and starting to stop it. *)
Lemma take_ok k i (s : sup) f :
  fresh_ok s → local_ok s k None → _runners s !! k = Some i →
  let s' := begin_stop i (set_order f (set_runners (delete k) s)) in
  frame k s s' ∧ fresh_ok s' ∧ local_ok s' k (Some i)
  ∧ _runners s' !! k = None ∧ ∃ r, objects s' !! i = Some r ∧ mid (r_mapping r) = k.
Proof.
  intros Hf Hl Hi s'. pose proof (table_mid s k i None Hl Hi) as Hmid.
  destruct (local_table _ _ _ Hl i Hi) as (r & Hr & Hm).
  assert (frame k s (set_order f (set_runners (delete k) s))) as Hfr.
  { eapply frame_trans; [apply frame_table|apply frame_order]. intros g k' Hk. by apply lookup_delete_ne. }
  assert (frame k (set_order f (set_runners (delete k) s)) s') as Hfr'.
  { eapply stop_frame; [by left|]. intros r' Hr'. by apply Hmid. }
  split_and!.
  - by eapply frame_trans.
  - eapply stop_fresh; [by left|]. exact Hf.
  - eapply stop_local; [by left|]. destruct (take_local k i s Hl Hi) as [A B]. constructor; [exact A|exact B].
  - unfold s'. rewrite begin_stop_runners. cbn. by rewrite lookup_delete_eq.
  - destruct (frame_old _ _ _ Hfr' i r Hr) as (r' & Hr' & E & _). exists r'. split; [done|congruence].
Qed.

(** Every step of a call keeps its own mapping in order and the others untouched. *)
Lemma advance_ok ok t s t' s' :
  fresh_ok s → local_ok s (task_id t) (held t) → task_ok s t → advance ok t s = (t', s') →
  frame (task_id t) s s' ∧ fresh_ok s'
  ∧ local_ok s' (task_id t) (t' ≫= held)
  ∧ ∀ t1, t' = Some t1 → task_ok s' t1 ∧ task_id t1 = task_id t.
Proof.
  intros Hf Hl [Hwf Hok] Ha. destruct t; cbn [advance task_id held] in *.
  - (* Apply *) destruct (_runners s !! mid m) as [i|] eqn:Ei; injection Ha as <- <-.
    + destruct (take_ok (mid m) i s (λ o, o) Hf Hl Ei) as (? & ? & ? & ? & ?).
      split_and!; [done..|]. intros t1 [= <-]. by repeat split.
    + split_and!; [apply frame_refl|done|done|]. intros t1 [= <-]. by repeat split.
  - (* ApplyStop *) injection Ha as <- <-. destruct Hok as [Hn (r' & Hr' & Hm)].
    split_and!; [eapply stop_frame; [by right|intros r Hr; congruence]|by eapply stop_fresh; [by right|]|by apply end_stop_held|].
    intros t1 [= <-]. by repeat split.
  - (* ApplyInstall *) destruct (menabled m); injection Ha as <- <-.
    + edestruct (install_ok m Starting) as (? & ? & ? & ? & Ho); [done..|].
      split_and!; [done..|]. intros t1 [= <-]. repeat split; [done|]. unfold make_runner in Ho. cbn [snd] in Ho.
      by rewrite Ho.
    + edestruct (install_ok m Stopped) as (? & ? & ? & ? & Ho); [done..|]. by split_and!.
  - (* ApplyStart *) injection Ha as <- <-. destruct Hok as [Hi _].
    edestruct (set_state_ok (mid m)) as (? & ? & ?); [done..|]. by split_and!.
  - (* Stop *) destruct (_runners s !! k) as [i|] eqn:Ei; injection Ha as <- <-.
    + destruct (begin_stop_registered k i s Hf Hl Ei) as (? & ? & ?).
      split_and!; [done..|]. intros t1 [= <-]. repeat split. by rewrite begin_stop_runners.
    + by split_and!; [apply frame_refl|..].
  - (* StopWait *) injection Ha as <- <-. destruct (end_stop_registered k i s Hf Hl Hok) as (? & ? & ?). by split_and!.
  - (* StopThen *) destruct (_runners s !! k) as [i|] eqn:Ei; injection Ha as <- <-.
    + destruct (begin_stop_registered k i s Hf Hl Ei) as (? & ? & ?).
      split_and!; [done..|]. intros t1 [= <-]. repeat split; [done|]. by rewrite begin_stop_runners.
    + split_and!; [apply frame_refl|done|done|]. intros t1 [= <-]. by repeat split.
  - (* StopThenWait *) injection Ha as <- <-. destruct (end_stop_registered k i s Hf Hl Hok) as (? & ? & ?).
    split_and!; [done..|]. intros t1 [= <-]. by repeat split.
  - (* Remove *) destruct (_runners s !! k) as [i|] eqn:Ei; injection Ha as <- <-.
    + destruct (take_ok k i s (remove_order k) Hf Hl Ei) as (? & ? & ? & ? & ?).
      split_and!; [done..|]. intros t1 [= <-]. by repeat split.
    + split_and!; [|done| |done].
      * eapply frame_trans; [apply frame_table|apply frame_order]. intros g k' Hk. by apply lookup_delete_ne.
      * destruct Hl as [Ht Hl]. constructor; cbn; [by rewrite lookup_delete_eq|].
        intros j r Hj Hm Hlive. destruct (Hl j r Hj Hm Hlive); congruence.
  - (* RemoveWait *) injection Ha as <- <-. destruct Hok as [Hn (r' & Hr' & Hm)].
    split_and!; [eapply stop_frame; [by right|intros r Hr; congruence]|by eapply stop_fresh; [by right|]|by apply end_stop_held|done].
Qed.

(** *** Interleaved calls for different mappings *)
Lemma in_finish i t' (l : list task) t2 :
  t2 ∈ finish i t' l → t' = Some t2 ∨ ∃ j, j ≠ i ∧ l !! j = Some t2.
Proof.
  destruct t' as [t1|]; cbn [finish]; intros [j Hj]%list_elem_of_lookup.
  - destruct (decide (j = i)) as [->|Hne].
    + left. apply list_lookup_insert_Some in Hj as [(_ & -> & _)|(? & _)]; done.
    + right. exists j. by rewrite list_lookup_insert_ne in Hj.
  - right. destruct (decide (j < i)%nat).
    + exists j. rewrite list_lookup_delete_lt in Hj by done. split; [lia|done].
    + exists (S j). rewrite list_lookup_delete_ge in Hj by lia. split; [lia|done].
Qed.
Lemma finish_in i t' (l : list task) j t2 : l !! j = Some t2 → j ≠ i → t2 ∈ finish i t' l.
Proof.
  intros Hj Hne. destruct t' as [t1|]; cbn [finish]; apply list_elem_of_lookup.
  - exists j. by rewrite list_lookup_insert_ne.
  - destruct (decide (j < i)%nat).
    + exists j. by rewrite list_lookup_delete_lt.
    + exists (j - 1)%nat. rewrite list_lookup_delete_ge by lia. by replace (S (j - 1)) with j by lia.
Qed.
Lemma ids_distinct (l : list task) i j t t2 :
  NoDup (task_id <$> l) → l !! i = Some t → l !! j = Some t2 → task_id t = task_id t2 → i = j.
Proof.
  intros Hnd Hi Hj E. apply (NoDup_lookup (task_id <$> l) i j (task_id t)); [done|..]; rewrite list_lookup_fmap, ?Hi, ?Hj; cbn; congruence.
Qed.

(** What the calls in progress hold of a mapping's runners. *)
Definition holder (l : list task) (k : pystr) (h : option nat) : Prop :=
  (∀ t, t ∈ l → task_id t = k → held t = h) ∧ ((∀ t, t ∈ l → task_id t ≠ k) → h = None).
Lemma holder_exists (l : list task) k : NoDup (task_id <$> l) → ∃ h, holder l k h.
Proof.
  induction l as [|t l IH]; cbn; [intros _; exists None; split; [by intros t ?%not_elem_of_nil|done]|].
  intros [Hn Hnd]%NoDup_cons. destruct (decide (task_id t = k)) as [<-|Hne].
  - exists (held t). split.
    + intros t2 [->|Hin]%elem_of_cons E; [done|]. destruct Hn. rewrite <- E. by apply list_elem_of_fmap_2.
    + intros Hno. by destruct (Hno t ltac:(left)).
  - destruct (IH Hnd) as [h [H1 H2]]. exists h. split.
    + intros t2 [->|Hin]%elem_of_cons E; [done|by apply H1].
    + intros Hno. apply H2. intros t2 Hin. apply Hno. by right.
Qed.

Record inv (x : sys) : Prop := {
  inv_fresh : fresh_ok (engine x);
  inv_local k h : holder (tasks x) k h → local_ok (engine x) k h;
  inv_tasks t : t ∈ tasks x → task_ok (engine x) t;
}.

Lemma frame_local k k' h s s' : frame k s s' → k' ≠ k → local_ok s k' h → local_ok s' k' h.
Proof.
  intros [F1 F2 F3] Hne [Ht Hl]. constructor; rewrite F1 by done.
  - intros i Hi. destruct (Ht i Hi) as (r & Hr & Hm). destruct (F3 i r Hr) as (r' & Hr' & E & _).
    exists r'. split; [done|congruence].
  - intros i r Hi Hm Hlive. destruct (F2 i r Hi) as [?|?]; [congruence|by eapply Hl].
Qed.
Lemma frame_task k s s' t : frame k s s' → task_id t ≠ k → task_ok s t → task_ok s' t.
Proof.
  intros [F1 F2 F3] Hne [Hwf Hok]. split; [done|].
  destruct t; cbn [task_id] in *; rewrite ?F1 by done; try done.
  - destruct Hok as [Hn (r & Hr & Hm)]. split; [done|]. destruct (F3 _ r Hr) as (r' & Hr' & E & _).
    exists r'. split; [done|congruence].
  - destruct Hok as [Hi Hm]. split; [done|]. destruct (objects s !! i) as [r|] eqn:Hr; [|done].
    destruct (F3 _ r Hr) as (r' & Hr' & E & _). rewrite Hr'. cbn in *. congruence.
  - destruct Hok as [Hn (r & Hr & Hm)]. split; [done|]. destruct (F3 _ r Hr) as (r' & Hr' & E & _).
    exists r'. split; [done|congruence].
Qed.

Lemma inv_spawn t s l :
  inv (mkSys s l) → begins t = true → well_formed t → NoDup (task_id <$> (t :: l)) → inv (mkSys s (t :: l)).
Proof.
  intros [I1 I2 I3] Hb Hwf Hnd. cbn in Hnd. apply NoDup_cons in Hnd as [Hn Hnd]. constructor; cbn in *; [done|..].
  - intros k h [H1 H2]. apply I2. split; [intros t2 Hin; apply H1; by right|].
    intros Hno. destruct (decide (task_id t = k)) as [<-|Hne].
    + rewrite <- (H1 t ltac:(left) eq_refl). by destruct t.
    + apply H2. intros t2 [->|Hin]%elem_of_cons; [done|by apply Hno].
  - intros t2 [->|Hin]%elem_of_cons; [|by apply I3]. split; [done|]. by destruct t.
Qed.

Lemma inv_run i t ok t' s s' l :
  inv (mkSys s l) → NoDup (task_id <$> l) → l !! i = Some t → advance ok t s = (t', s') →
  inv (mkSys s' (finish i t' l)).
Proof.
  intros [I1 I2 I3] Hnd Hi Ha. cbn in *.
  assert (holder l (task_id t) (held t)) as Hh.
  { split.
    - intros t2 [j Hj]%list_elem_of_lookup E. by rewrite (ids_distinct l j i t2 t Hnd Hj Hi E), Hi in Hj; injection Hj as ->.
    - intros Hno. by destruct (Hno t (list_elem_of_lookup_2 _ _ _ Hi)). }
  destruct (advance_ok ok t s t' s' I1 (I2 _ _ Hh) (I3 t (list_elem_of_lookup_2 _ _ _ Hi)) Ha)
    as (Hfr & Hf & Hl & Ht').
  constructor; cbn; [done|..].
  - intros k h [H1 H2]. destruct (decide (k = task_id t)) as [->|Hne].
    + assert (h = t' ≫= held) as ->; [|done]. destruct t' as [t1|].
      * destruct (Ht' t1 eq_refl) as [_ E]. symmetry. apply (H1 t1); [|done].
        apply list_elem_of_lookup. exists i. cbn. apply list_lookup_insert_eq. by eapply lookup_lt_Some.
      * apply H2. intros t2 [?|(j & Hne & Hj)]%in_finish E; [done|]. by destruct Hne; eapply ids_distinct.
    + apply (frame_local _ _ _ _ _ Hfr Hne), I2. split.
      * intros t2 [j Hj]%list_elem_of_lookup E. apply H1; [|done]. eapply finish_in; [done|].
        intros ->. congruence.
      * intros Hno. apply H2. intros t2 [->|(j & _ & Hj)]%in_finish.
        -- destruct (Ht' t2 eq_refl) as [_ E]. congruence.
        -- apply Hno. by eapply list_elem_of_lookup_2.
  - intros t2 [->|(j & Hne & Hj)]%in_finish; [by apply Ht'|].
    apply (frame_task _ _ _ _ Hfr); [|apply I3; by eapply list_elem_of_lookup_2].
    intros E. by destruct Hne; eapply ids_distinct.
Qed.

Lemma reach_inv x : reach one_per_mapping x → inv x ∧ one_per_mapping x.
Proof.
  induction 1 as [|x y Hx [IH Hnd] Hs Hy].
  - split; [|constructor]. constructor; cbn.
    + intros i r Hi. cbn in Hi. by rewrite lookup_empty in Hi.
    + intros k h _. constructor; [intros i Hi|intros i r Hi]; cbn in Hi; by rewrite lookup_empty in Hi.
    + by intros t ?%not_elem_of_nil.
  - split; [|done]. destruct Hs as [t s l Hb Hwf|i t ok t' s s' l Hi Ha]; [by apply inv_spawn|by eapply inv_run].
Qed.

(** C11: no runner is ever lost. As long as no two calls (apply, start, stop, restart, remove) work on the same mapping at a time, at every moment of every interleaving of the
    calls for different mappings and whatever starts fail: a mapping never has two live runners
    (so its serial port and listening socket are never contended by its own old runner), and every live runner is
    the one registered for its mapping, so the next apply, stop or delete of the mapping reaches it, or the one that a call in progress for
    this mapping has taken from the table and is stopping. In particular, when no call is in progress all are registered. *)
Theorem no_runner_lost x :
  reach one_per_mapping x →
  (∀ i j ri rj, objects (engine x) !! i = Some ri → objects (engine x) !! j = Some rj →
     live (r_state ri) = true → live (r_state rj) = true → mid (r_mapping ri) = mid (r_mapping rj) → i = j)
  ∧ (∀ i r, objects (engine x) !! i = Some r → live (r_state r) = true →
       _runners (engine x) !! mid (r_mapping r) = Some i
       ∨ ∃ t, t ∈ tasks x ∧ task_id t = mid (r_mapping r) ∧ held t = Some i ∧ _runners (engine x) !! mid (r_mapping r) = None
           ∧ ∀ ok, state_of i (advance ok t (engine x)).2 = Some Stopped).
Proof.
  intros Hx. destruct (reach_inv x Hx) as [[I1 I2 I3] Hnd].
  assert (∀ k h, holder (tasks x) k h → ∀ a, h = Some a → ∃ t, t ∈ tasks x ∧ task_id t = k ∧ held t = Some a ∧ _runners (engine x) !! k = None) as Hholds.
  { intros k h [H1 H2] a ->. destruct (decide (Exists (λ t, task_id t = k) (tasks x))) as [Hex|Hno].
    - apply Exists_exists in Hex as (t & Hin & Ek). pose proof (H1 t Hin Ek) as Hheld. exists t. split_and!; [done..|].
      destruct (I3 t Hin) as [_ Hok]. destruct t; try done; cbn [task_id] in *; destruct Hok as [Hn _]; by rewrite <- Ek.
    - apply not_Exists_Forall in Hno; [|apply _]. rewrite Forall_forall in Hno. discriminate (H2 Hno). }
  split.
  - intros i j ri rj Hi Hj Li Lj E. destruct (holder_exists (tasks x) (mid (r_mapping ri)) Hnd) as [h Hh].
    pose proof (I2 _ _ Hh) as [Ht Hl].
    assert (∀ a r, h = Some a → _runners (engine x) !! mid (r_mapping ri) = Some r → a = r) as Hex.
    { intros a r Ha Hr. destruct (Hholds _ _ Hh a Ha) as (_ & _ & _ & _ & Hn). congruence. }
    destruct (Hl i ri Hi eq_refl Li) as [Ri|Hi']; destruct (Hl j rj Hj (eq_sym E) Lj) as [Rj|Hj'].
    + congruence.
    + symmetry. by eapply Hex.
    + by eapply Hex.
    + congruence.
  - intros i r Hi Li. destruct (holder_exists (tasks x) (mid (r_mapping r)) Hnd) as [h Hh].
    pose proof (I2 _ _ Hh) as [_ Hl]. destruct (Hl i r Hi eq_refl Li) as [?|Hi']; [by left|right].
    destruct (Hholds _ _ Hh i Hi') as (t & Hin & Ek & Hheld & Hn). exists t. split_and!; [done..|].
    intros ok. destruct t; try done; injection Hheld as ->; cbn [advance snd]; unfold state_of, end_stop;
      rewrite set_state_lookup, decide_True by done; by rewrite Hi.
Qed.

(** *** Every call ends *)
Definition work (t : task) : nat :=
  match t with
  | StopThen _ _ => 6
  | StopThenWait _ _ _ => 5
  | Apply _ => 4
  | ApplyStop _ _ => 3
  | ApplyInstall _ | Stop _ | Remove _ => 2
  | ApplyStart _ _ | StopWait _ _ | RemoveWait _ _ => 1
  end.
Definition total (l : list task) : nat := sum_list (work <$> l).
(** A step of some call in progress (no new call arrives). *)
Definition run_step (x y : sys) : Prop :=
  ∃ k t ok t' s', tasks x !! k = Some t ∧ advance ok t (engine x) = (t', s') ∧ y = mkSys s' (finish k t' (tasks x)).

Lemma advance_work ok t s t' s' :
  advance ok t s = (t', s') → (match t' with Some t1 => work t1 | None => 0 end < work t)%nat.
Proof.
  destruct t; cbn [advance]; try destruct (_runners s !! _); try destruct (menabled m);
    intros [= <- _]; cbn; lia.
Qed.
Lemma total_finish k t t' (l : list task) :
  l !! k = Some t →
  (total (finish k t' l) + work t = total l + match t' with Some t1 => work t1 | None => 0 end)%nat.
Proof.
  revert k. induction l as [|x l IH]; intros k Hk; [done|]. destruct k as [|k].
  - injection Hk as ->. destruct t'; cbn; unfold total; lia.
  - cbn in Hk. specialize (IH k Hk). unfold total in *. destruct t' as [t1|]; cbn [finish] in *.
    + change (<[S k := t1]> (x :: l)) with (x :: <[k := t1]> l). rewrite !fmap_cons. cbn [sum_list sum_list_with id] in *.
      unfold sum_list in *. cbn [sum_list_with]. lia.
    + change (delete (S k) (x :: l)) with (x :: delete k l). rewrite !fmap_cons. unfold sum_list in *.
      cbn [sum_list_with]. lia.
Qed.
Lemma run_step_work x y : run_step x y → (total (tasks y) < total (tasks x))%nat.
Proof.
  intros (k & t & ok & t' & s' & Hk & Ha & ->). cbn [tasks]. pose proof (total_finish k t t' _ Hk).
  pose proof (advance_work _ _ _ _ _ Ha). lia.
Qed.

(** Every call comes to an end, in every interleaving and whichever starts fail, given that the starts and stops of runners do
    ([Runner.stop_completes]): as long as a call is in progress some call can take its next step, and without new calls there are at most
    six steps for each call in progress before none is left; six are enough fuel for [run_task]. *)
Lemma calls_terminate (x : sys) :
  (tasks x ≠ [] → ∃ y, run_step x y)
  ∧ ∀ n y, nsteps run_step n x y → (n + total (tasks y) <= total (tasks x) <= 6 * length (tasks x))%nat.
Proof.
  split.
  - intros Hne. destruct (tasks x) as [|t l] eqn:E; [done|].
    destruct (advance true t (engine x)) as [t' s'] eqn:Ea.
    exists (mkSys s' (finish 0 t' (tasks x))), 0%nat, t, true, t', s'. by rewrite E.
  - assert (∀ l : list task, (total l <= 6 * length l)%nat) as Hmax.
    { induction l as [|t l IH]; [done|]. unfold total in *. cbn. destruct t; cbn; lia. }
    intros n y Hn. pose proof (Hmax (tasks x)).
    enough (n + total (tasks y) <= total (tasks x))%nat by lia.
    clear -Hn. induction Hn as [|n x y z Hxy _ IH]; [done|]. apply run_step_work in Hxy. lia.
Qed.

(** *** What the calls do, run one after the other *)
Record quiet (s : sup) : Prop := { quiet_fresh : fresh_ok s; quiet_local k : local_ok s k None }.
Lemma quiet0 : quiet sup0.
Proof.
  constructor; [|intros k; constructor]; cbn; intros i; [intros r Hi|intros Hi|intros r Hi]; cbn in Hi;
    by rewrite lookup_empty in Hi.
Qed.

Lemma frame_quiet k s s' : frame k s s' → quiet s → fresh_ok s' → local_ok s' k None → quiet s'.
Proof.
  intros Hfr [Hf Hl] Hf' Hl'. constructor; [done|]. intros k'.
  destruct (decide (k' = k)) as [->|Hne]; [done|by eapply frame_local].
Qed.
Lemma frame_runner k k' s s' : frame k s s' → quiet s → k' ≠ k → get_runner k' s' = get_runner k' s.
Proof.
  intros [F1 F2 F3] [Hf Hl] Hne. unfold get_runner. rewrite F1 by done.
  destruct (_runners s !! k') as [i|] eqn:Ei; [|done]. cbn.
  destruct (local_table _ _ _ (Hl k') i Ei) as (r & Hr & Hm). destruct (F3 i r Hr) as (r' & Hr' & _ & E).
  rewrite Hr, Hr'. f_equal. apply E. congruence.
Qed.

Lemma get_runner_at k i (s : sup) r :
  _runners s !! k = Some i → objects s !! i = Some r → get_runner k s = Some r.
Proof. intros Hk Hi. unfold get_runner. by rewrite Hk. Qed.

(** A whole call, from any of its points. *)
Definition result_of (oks : M → bool) (m : M) : rstate :=
  if menabled m then if oks m then Running else Error else Stopped.
Lemma run_install oks m s f :
  quiet s → _runners s !! mid m = None →
  let s' := run_task (S (S f)) oks (ApplyInstall m) s in
  quiet s' ∧ frame (mid m) s s' ∧ get_runner (mid m) s' = Some (mkRunner m (result_of oks m)).
Proof.
  intros Hq Hn. cbn [run_task advance]. unfold result_of. destruct (menabled m) eqn:He.
  - destruct (install_ok m Starting s _ (quiet_fresh _ Hq) (quiet_local _ Hq _) Hn eq_refl)
      as (Hfr & Hf & Hl & Hr & Ho).
    unfold make_runner in *. cbn [snd] in *.
    destruct (set_state_ok (mid m) (next s) (if oks m then Running else Error) _ Hf Hl Hr) as (Hfr2 & Hf2 & Hl2).
    pose proof (frame_trans _ _ _ _ Hfr Hfr2) as Hfr3.
    split_and!; [by eapply frame_quiet|done|]. apply (get_runner_at _ (next s)); [exact Hr|].
    refine (eq_trans (set_state_lookup (next s) (if oks m then Running else Error) _ (next s)) _).
    rewrite decide_True by done. by rewrite Ho.
  - destruct (install_ok m Stopped s _ (quiet_fresh _ Hq) (quiet_local _ Hq _) Hn eq_refl)
      as (Hfr & Hf & Hl & Hr & Ho).
    unfold make_runner in *. cbn [snd] in *.
    split_and!; [by eapply frame_quiet|done|]. by eapply get_runner_at.
Qed.

Lemma run_apply oks m s f :
  quiet s → let s' := run_task (S (S (S (S f)))) oks (Apply m) s in
  quiet s' ∧ frame (mid m) s s' ∧ get_runner (mid m) s' = Some (mkRunner m (result_of oks m)).
Proof.
  intros Hq. change (run_task (S (S (S (S f)))) oks (Apply m) s) with
    (match advance true (Apply m) s with
     | (Some t', s') => run_task (S (S (S f))) oks t' s' | (None, s') => s' end).
  cbn [advance]. destruct (_runners s !! mid m) as [i|] eqn:Ei.
  - destruct (take_ok (mid m) i s (λ o, o) (quiet_fresh _ Hq) (quiet_local _ Hq _) Ei) as (Hfr & Hf & Hl & Hn & r & Hr & Hm).
    set (s1 := begin_stop i _) in *. cbn zeta.
    change (run_task (S (S (S f))) oks (ApplyStop m i) s1) with (run_task (S (S f)) oks (ApplyInstall m) (end_stop i s1)).
    assert (frame (mid m) s1 (end_stop i s1)) as Hfr2 by (eapply stop_frame; [by right|intros; congruence]).
    pose proof (frame_trans _ _ _ _ Hfr Hfr2) as Hfr3.
    assert (quiet (end_stop i s1)) as Hq2.
    { eapply frame_quiet; [exact Hfr3|done|by eapply stop_fresh; [by right|]|by apply end_stop_held]. }
    destruct (run_install oks m (end_stop i s1) f Hq2 Hn) as (H1 & H2 & H3).
    split_and!; [done|by eapply frame_trans|done].
  - exact (run_install oks m s (S f) Hq Ei).
Qed.
Lemma apply_spec oks m s :
  quiet s → let s' := apply_mapping oks m s in
  quiet s' ∧ get_runner (mid m) s' = Some (mkRunner m (result_of oks m))
  ∧ ∀ k, k ≠ mid m → get_runner k s' = get_runner k s.
Proof.
  intros Hq s'. destruct (run_apply oks m s 2 Hq) as (H1 & H2 & H3). split_and!; [done|done|].
  intros k Hk. by eapply frame_runner.
Qed.

Lemma stop_spec oks k s :
  quiet s → let s' := stop_mapping oks k s in
  quiet s' ∧ get_runner k s' = (λ r, mkRunner (r_mapping r) Stopped) <$> get_runner k s
  ∧ ∀ k', k' ≠ k → get_runner k' s' = get_runner k' s.
Proof.
  intros Hq s'. assert (quiet s' ∧ frame k s s' ∧ get_runner k s' = (λ r, mkRunner (r_mapping r) Stopped) <$> get_runner k s)
    as (H1 & H2 & H3); [|split_and!; [done|done|]; intros k' Hk; by eapply frame_runner].
  unfold s', stop_mapping, call. cbn [run_task advance].
  destruct (_runners s !! k) as [i|] eqn:Ei; cbn [run_task advance].
  - destruct (begin_stop_registered k i s (quiet_fresh _ Hq) (quiet_local _ Hq _) Ei) as (F1 & Hf & Hl).
    assert (_runners (begin_stop i s) !! k = Some i) as Ei' by by rewrite begin_stop_runners.
    destruct (end_stop_registered k i _ Hf Hl Ei') as (F2 & Hf2 & Hl2).
    pose proof (frame_trans _ _ _ _ F1 F2) as F3. split_and!; [by eapply frame_quiet|done|].
    destruct (local_table _ _ _ (quiet_local _ Hq k) i Ei) as (r & Hr & _).
    destruct (frame_old _ _ _ F1 i r Hr) as (r1 & Hr1 & Em & _).
    unfold get_runner. rewrite Ei. change (_runners (end_stop i (begin_stop i s))) with (_runners (begin_stop i s)).
    rewrite Ei'. cbn [mbind option_bind]. rewrite Hr. unfold end_stop. rewrite set_state_lookup, decide_True by done.
    rewrite Hr1. cbn. by rewrite Em.
  - split_and!; [done|apply frame_refl|]. unfold get_runner. by rewrite Ei.
Qed.

Lemma remove_spec oks k s :
  quiet s → let s' := remove_mapping oks k s in
  quiet s' ∧ get_runner k s' = None ∧ ∀ k', k' ≠ k → get_runner k' s' = get_runner k' s.
Proof.
  intros Hq s'. assert (quiet s' ∧ frame k s s' ∧ get_runner k s' = None) as (H1 & H2 & H3);
    [|split_and!; [done|done|]; intros k' Hk; by eapply frame_runner].
  unfold s', remove_mapping, call. cbn [run_task advance].
  destruct (_runners s !! k) as [i|] eqn:Ei; cbn [run_task advance].
  - destruct (take_ok k i s (remove_order k) (quiet_fresh _ Hq) (quiet_local _ Hq _) Ei) as (Hfr & Hf & Hl & Hn & r & Hr & Hm).
    set (s1 := begin_stop i _) in *.
    assert (frame k s1 (end_stop i s1)) as Hfr2 by (eapply stop_frame; [by right|intros; congruence]).
    pose proof (frame_trans _ _ _ _ Hfr Hfr2) as Hfr3.
    split_and!; [|done|].
    + eapply frame_quiet; [exact Hfr3|done|by eapply stop_fresh; [by right|]|by apply end_stop_held].
    + unfold get_runner. change (_runners (end_stop i s1)) with (_runners s1). by rewrite Hn.
  - assert (frame k s (set_order (remove_order k) (set_runners (delete k) s))) as Hfr.
    { eapply frame_trans; [apply frame_table|apply frame_order]. intros g k' Hk. by apply lookup_delete_ne. }
    split_and!; [|done|].
    + eapply frame_quiet; [done|done|exact (quiet_fresh _ Hq)|].
      destruct (quiet_local _ Hq k) as [Ht Hl]. constructor; cbn; [by rewrite lookup_delete_eq|].
      intros j r Hj Hm Hlive. destruct (Hl j r Hj Hm Hlive); congruence.
    + unfold get_runner. cbn. by rewrite lookup_delete_eq.
Qed.

(** A restart is a stop and then an apply. *)
Lemma restart_spec oks m s :
  quiet s → let s' := restart_mapping oks m s in
  quiet s' ∧ get_runner (mid m) s' = Some (mkRunner m (result_of oks m))
  ∧ ∀ k, k ≠ mid m → get_runner k s' = get_runner k s.
Proof.
  intros Hq s'. destruct (stop_spec oks (mid m) s Hq) as (Hq1 & _ & Ho1).
  assert (∃ f, s' = run_task (S (S (S (S f)))) oks (Apply m) (stop_mapping oks (mid m) s)) as [f ->].
  { unfold s', restart_mapping, stop_mapping, call.
    change (run_task 6 oks (StopThen (mid m) m) s) with
      (match advance true (StopThen (mid m) m) s with (Some t', s') => run_task 5 oks t' s' | (None, s') => s' end).
    cbn [run_task advance]. destruct (_runners s !! mid m) as [i|] eqn:Ei; [by exists 0%nat|by exists 1%nat]. }
  destruct (run_apply oks m _ f Hq1) as (H1 & H2 & H3). split_and!; [done|done|].
  intros k Hk. rewrite (frame_runner _ _ _ _ H2 Hq1 Hk). by apply Ho1.
Qed.

(** Stopping every runner of a list. *)
Lemma stop_list_spec l s :
  fresh_ok s →
  let s' := foldl (λ s i, end_stop i (begin_stop i s)) s l in
  _runners s' = _runners s ∧ fresh_ok s' ∧
  ∀ j r, objects s' !! j = Some r → live (r_state r) = true → j ∉ l ∧ objects s !! j = Some r.
Proof.
  revert s. induction l as [|i l IH]; intros s Hf; cbn [foldl].
  { split_and!; [done|done|]. intros j r Hj _. split; [by apply not_elem_of_nil|done]. }
  destruct (stop_cases i s (begin_stop i s) (or_introl eq_refl)) as (Hr1 & _ & Ho1).
  set (s1 := begin_stop i s) in *.
  destruct (IH (end_stop i s1)) as (Hr & Hf' & Hlive).
  { eapply stop_fresh; [by right|]. by eapply stop_fresh; [by left|]. }
  split_and!; [by rewrite Hr|done|]. intros j r Hj Hl. destruct (Hlive j r Hj Hl) as [Hnin Hj'].
  unfold end_stop in Hj'. rewrite set_state_lookup in Hj'. destruct (decide (i = j)) as [->|Hne].
  - destruct (objects s1 !! j); [|done]. by injection Hj' as <-.
  - split; [by apply not_elem_of_cons|]. destruct (Ho1 j) as [E|[-> _]]; [congruence|done].
Qed.
Lemma stop_all_spec s :
  quiet s → quiet (stop_all s) ∧ (∀ k, _runners (stop_all s) !! k = None)
  ∧ ∀ i r, objects (stop_all s) !! i = Some r → live (r_state r) = false.
Proof.
  intros [Hf Hl]. unfold stop_all.
  destruct (stop_list_spec ((map_to_list (_runners s)).*2) (set_runners (λ _, ∅) s) Hf) as (Hr & Hf' & Hlive).
  set (s' := foldl _ _ _) in *.
  assert (∀ k, _runners s' !! k = None) as Hn by (intros k; rewrite Hr; apply lookup_empty).
  assert (∀ i r, objects s' !! i = Some r → live (r_state r) = false) as Hd.
  { intros i r Hi. destruct (live (r_state r)) eqn:E; [|done]. destruct (Hlive i r Hi E) as [Hnin Ho].
    destruct (local_live _ _ _ (Hl (mid (r_mapping r))) i r Ho eq_refl E) as [Hk|]; [|done].
    destruct Hnin. apply (list_elem_of_fmap_2 snd _ (mid (r_mapping r), i)). by apply elem_of_map_to_list. }
  split_and!; [constructor; [done|]; intros k; constructor|done|done].
  - intros i Hi. by rewrite Hn in Hi.
  - intros i r Hi _ E. by rewrite (Hd i r Hi) in E.
Qed.

Lemma placeholder_spec m s :
  quiet s → _runners s !! mid m = None →
  let s' := _ensure_stopped_placeholder m s in
  quiet s' ∧ frame (mid m) s s' ∧ get_runner (mid m) s' = Some (mkRunner m Stopped).
Proof.
  intros Hq Hn. unfold _ensure_stopped_placeholder. rewrite Hn.
  destruct (install_ok m Stopped s _ (quiet_fresh _ Hq) (quiet_local _ Hq _) Hn eq_refl) as (Hfr & Hf & Hl & Hr & Ho).
  change (set_runners (insert (mid m) (next s)) (set_order (add_order (mid m)) (set_state (next s) Stopped (make_runner m s).2)))
    with (set_state (next s) Stopped (set_runners (insert (mid m) (next s)) (set_order (add_order (mid m)) (make_runner m s).2))).
  split_and!; [by eapply frame_quiet|done|by eapply get_runner_at].
Qed.
Lemma get_runner_none k s : quiet s → get_runner k s = None → _runners s !! k = None.
Proof.
  intros Hq. unfold get_runner. destruct (_runners s !! k) as [i|] eqn:Ei; [|done]. cbn.
  destruct (local_table _ _ _ (quiet_local _ Hq k) i Ei) as (r & -> & _). done.
Qed.
Lemma set_order_quiet f s : quiet s → quiet (set_order f s).
Proof. intros [Hf Hl]. constructor; [exact Hf|]. intros k. destruct (Hl k) as [A B]. by constructor. Qed.

Lemma start_all_spec oks ms s :
  quiet s → NoDup (mid <$> ms) → (∀ m, m ∈ ms → get_runner (mid m) s = None) →
  let s' := start_all oks ms s in
  quiet s' ∧ (∀ m, m ∈ ms → get_runner (mid m) s' = Some (mkRunner m (result_of oks m)))
  ∧ ∀ k, k ∉ mid <$> ms → get_runner k s' = get_runner k s.
Proof.
  intros Hq. unfold start_all.
  change (get_runner ?k s) with (get_runner k (set_order (λ _, mid <$> ms) s)).
  apply (set_order_quiet (λ _, mid <$> ms)) in Hq. revert Hq. generalize (set_order (λ _, mid <$> ms) s).
  clear s. intros s. revert s. induction ms as [|m ms IH]; intros s Hq Hnd Hno.
  { split_and!; [done|by intros m ?%not_elem_of_nil|done]. }
  cbn [foldl]. set (s1 := if menabled m then apply_mapping oks m s else _ensure_stopped_placeholder m s).
  cbn in Hnd. apply NoDup_cons in Hnd as [Hm Hnd].
  assert (quiet s1 ∧ get_runner (mid m) s1 = Some (mkRunner m (result_of oks m))
          ∧ ∀ k, k ≠ mid m → get_runner k s1 = get_runner k s) as (Hq1 & Hr1 & Ho1).
  { unfold s1. destruct (menabled m) eqn:E; [by apply apply_spec|].
    destruct (placeholder_spec m s Hq) as (H1 & H2 & H3).
    { apply get_runner_none; [done|]. apply Hno. left. }
    split_and!; [done| |]; [unfold result_of; by rewrite E|]. intros k Hk. by eapply frame_runner. }
  assert (∀ m', m' ∈ ms → mid m' ≠ mid m) as Hne.
  { intros m' Hin E. apply Hm. rewrite <- E. by apply list_elem_of_fmap_2. }
  destruct (IH s1 Hq1 Hnd) as (Hq' & Hr' & Ho').
  { intros m' Hin. rewrite Ho1 by by apply Hne. apply Hno. by right. }
  split_and!; [done|..].
  - intros m' [->|Hin]%elem_of_cons; [by rewrite Ho'|by apply Hr'].
  - intros k [Hk1 Hk2]%not_elem_of_cons. by rewrite Ho', Ho1.
Qed.
End no_leak.

(** ** Concrete schedules *)
Section schedule.
Context {M : Type} `{Mapping M}.
(** The choices of a scheduler: a request arrives, or a call in progress takes its next step. *)
Inductive choice := Arrive (t : task (M:=M)) | Advance (k : nat) (ok : bool).
Definition well_formedb (t : task (M:=M)) : bool :=
  match t with StopThen k m | StopThenWait k _ m => bool_decide (k = mid m) | _ => true end.
Definition exec1 (c : choice) (x : sys (M:=M)) : option (sys (M:=M)) :=
  match c with
  | Arrive t => if begins t && well_formedb t then Some (mkSys (engine x) (t :: tasks x)) else None
  | Advance k ok =>
      t ← tasks x !! k;
      let '(t', s') := advance ok t (engine x) in
      Some (mkSys s' (finish k t' (tasks x)))
  end.
Fixpoint exec (okay : sys (M:=M) → bool) (cs : list choice) (x : sys (M:=M)) : option (sys (M:=M)) :=
  match cs with
  | [] => Some x
  | c :: cs' => y ← exec1 c x; if okay y then exec okay cs' y else None
  end.
Lemma exec_reach (P : sys (M:=M) → Prop) okay cs x y :
  (∀ z, okay z = true → P z) → exec okay cs x = Some y → reach P x → reach P y.
Proof.
  intros HP. revert x. induction cs as [|c cs IH]; intros x; cbn [exec]; [by intros [= ->]|].
  destruct (exec1 c x) as [z|] eqn:E; [|done]. cbn [mbind option_bind]. destruct (okay z) eqn:Ez; [|done].
  intros Hcs Hx. apply (IH z Hcs), (reach_step _ x z Hx); [|by apply HP].
  destruct x as [s l], c as [t|k ok]; cbn [exec1 engine tasks] in E.
  - destruct (begins t && well_formedb t) eqn:Eb; [|done]. injection E as <-.
    apply andb_true_iff in Eb as [Hb Hw]. apply step_spawn; [done|].
    by destruct t; try apply bool_decide_eq_true in Hw.
  - destruct (l !! k) as [t|] eqn:Et; [|done]. cbn [mbind option_bind] in E.
    destruct (advance ok t s) as [t' s'] eqn:Ea. injection E as <-. by eapply step_run.
Qed.
End schedule.

(** Mappings for the examples: an id, whether enabled, and a version of the settings. *)
#[local] Instance demo_Mapping : Mapping (pystr * bool * Z) := {| mid := λ m, m.1.1; menabled := λ m, m.1.2 |}.
Definition demo_m (i : string) (v : Z) : pystr * bool * Z := (str i, true, v).
Definition distinct_ids (x : sys (M := pystr * bool * Z)) : bool := bool_decide (NoDup (task_id <$> tasks x)).
Definition demo_schedule : list (choice (M := pystr * bool * Z)) :=
  [Arrive (Apply (demo_m "a" 1)); Arrive (Apply (demo_m "b" 1)); Advance 1 true; Advance 0 true;
   Advance 0 true; Advance 1 true; Advance 0 true; Advance 0 true;
   Arrive (Remove (str "a")); Arrive (Apply (demo_m "b" 2)); Advance 0 true; Advance 1 true; Advance 0 true].
Definition demo_sys : sys (M := pystr * bool * Z) :=
  default (mkSys sup0 []) (exec distinct_ids demo_schedule (mkSys sup0 [])).
Lemma no_runner_lost_witness :
  (∀ i j ri rj, objects (engine demo_sys) !! i = Some ri → objects (engine demo_sys) !! j = Some rj →
     live (r_state ri) = true → live (r_state rj) = true → mid (r_mapping ri) = mid (r_mapping rj) → i = j)
  ∧ (∀ i r, objects (engine demo_sys) !! i = Some r → live (r_state r) = true →
       _runners (engine demo_sys) !! mid (r_mapping r) = Some i
       ∨ ∃ t, t ∈ tasks demo_sys ∧ task_id t = mid (r_mapping r) ∧ held t = Some i ∧ _runners (engine demo_sys) !! mid (r_mapping r) = None
           ∧ ∀ ok, state_of i (advance ok t (engine demo_sys)).2 = Some Stopped).
Proof.
  apply (no_runner_lost demo_sys).
  apply (exec_reach _ distinct_ids demo_schedule (mkSys sup0 [])).
  - intros z Hz. by apply bool_decide_eq_true in Hz.
  - vm_compute. reflexivity.
  - constructor.
Defined.
Example demo_sys_busy : length (tasks demo_sys) = 2%nat ∧ tasks demo_sys ≠ [].
Proof. split; [vm_compute; reflexivity|]. vm_compute. discriminate. Qed.

(** Without that discipline a runner is lost: two saves of one mapping at the same time (nothing in
    the web layer keeps them apart) leave a running runner that no later call can reach. *)
Definition lost_schedule : list (choice (M := pystr * bool * Z)) :=
  [Arrive (Apply (demo_m "a" 1)); Arrive (Apply (demo_m "a" 2)); Advance 0 true; Advance 1 true;
   Advance 0 true; Advance 0 true; Advance 0 true; Advance 0 true].
Example concurrent_apply_loses_runner :
  ∃ x, reach (λ _, True) x ∧ tasks x = [] ∧
  (r_state <$> objects (engine x) !! 0%nat) = Some Running ∧ (r_state <$> objects (engine x) !! 1%nat) = Some Running
  ∧ _runners (engine x) !! str "a" = Some 1%nat.
Proof.
  exists (default (mkSys sup0 []) (exec (λ _, true) lost_schedule (mkSys sup0 []))).
  split; [|by vm_compute].
  apply (exec_reach _ (λ _, true) lost_schedule (mkSys sup0 [])); [done|vm_compute; reflexivity|constructor].
Qed.
