(* ===== verification/Console.v ===== *)
(** * Live traffic in the browser (app/web/routes/console.py)

    The console and the hex view: who may open one, the queues between a runner and a browser, and the relay's
    three tasks as steps. Sockets are starlette's: a message is an event. *)
From S2P Require Import Prelude PyFloat PyStr PyVal IpAddr PyNum Json Config AppConfig Auth.
#[local] Open Scope Z_scope.

(** ** Monitors *)
(** A queue of [asyncio.Queue(maxsize)]; [None] tells the sender that the mapping stopped. *)
Definition MONITOR_MAX : Z := 2048.
Definition TRAFFIC_MAX : Z := 4096.
Definition full {A} (max : Z) (q : list A) : bool := max <=? zlen q.
(** [_Monitor.feed], [_TrafficMonitor.feed_traffic]: when full the oldest item makes room. *)
Definition feed {A} (max : Z) (x : A) (q : list (option A)) : list (option A) :=
  if full max q then drop 1 q ++ [Some x] else q ++ [Some x].
(** [close]: the sentinel is lost when the queue is full. *)
Definition close {A} (max : Z) (q : list (option A)) : list (option A) := if full max q then q else q ++ [None].
(** A frame of the hex view: [struct.pack(">Bd", direction, ts) + data]. *)
Definition traffic_frame (direction : Z) (ts : pyfloat) (data : bytes) : bytes := [direction] ++ to_be 8 (pack_d ts) ++ data.

(** ** Who may open one *)
(** [urlparse(origin).netloc]; the NFKC check of hosts that are not ASCII is left out. *)
Definition scheme_char (c : Z) : bool :=
  in_range 97 122 c || in_range 65 90 c || in_range 48 57 c || existsb (Z.eqb c) (str "+-.").
Definition without_scheme (url : pystr) : pystr :=
  match split_first 58 url with
  | Some ((c :: _) as scheme, rest) =>
      if (in_range 97 122 c || in_range 65 90 c) && forallb scheme_char scheme then rest else url
  | _ => url
  end.
Fixpoint until_delim (s : pystr) : pystr :=
  match s with
  | c :: s => if existsb (Z.eqb c) (str "/?#") then [] else c :: until_delim s
  | [] => []
  end.
Definition netloc (url : pystr) : res pystr :=
  let url := List.filter (λ c, negb (existsb (Z.eqb c) [9; 10; 13])) (lstrip_by (λ c, c <=? 32) url) in
  match without_scheme url with
  | 47 :: 47 :: rest =>
      let n := until_delim rest in
      _ ← raise_if (xorb (existsb (Z.eqb 91) n) (existsb (Z.eqb 93) n)) ValueError "Invalid IPv6 URL";
      Ok n
  | _ => Ok []
  end.

(** What a WebSocket request brings. *)
Record ws_request := mkWs { ws_token : option pystr; ws_headers : string → option pystr; ws_mid : pystr }.

Section console.
Context (hmac_sha256 : bytes → bytes → bytes) (repr : pyval → pystr) (hostname : pystr).

Definition user_at (c : AppConfig) (r : ws_request) (now : Z) : res (option User) :=
  request_user hmac_sha256 repr hostname c (ws_token r) (ws_headers r) now.
(** [_authorize]: the user, or [None] after closing with 1008. *)
Definition _authorize (c : AppConfig) (r : ws_request) (now : Z) : res (option User) :=
  u ← user_at c r now;
  match u with
  | None => Ok None
  | Some x =>
      match header (ws_headers r) "origin" with
      | None => Ok (Some x)
      | Some origin =>
          n ← netloc origin;
          Ok (if match ws_headers r "host"%string with Some h => str_eqb n h | None => false end then Some x else None)
      end
  end.

(** A console: what the browser was sent, what reached the runner's [serial_write]. [watching]: the runner still
    feeds the monitor. *)
Record console := mkConsole {
  mapping_name : pyval; as_user : User; as_request : ws_request; interactive : bool;
  watching : bool; queue : list (option bytes); connected : bool; shown : list bytes; typed : list bytes;
}.
Inductive answer := Closed (code : Z) | Opened (k : console).
(** The handler up to its tasks; [running]: the supervisor has a runner for the mapping. *)
Definition console_ws (c : AppConfig) (running : bool) (r : ws_request) (now : Z) : res answer :=
  u ← _authorize c r now;
  match u with
  | None => Ok (Closed 1008)
  | Some x =>
      match get_mapping (VStr (ws_mid r)) (mappings c) with
      | Some m =>
          if running then
            let can_write := ROLE_RANK (vstr "operator") <=? ROLE_RANK (role x) in
            Ok (Opened (mkConsole (name m) x r (eq_str (kind m) (str "net") && negb (truthy (read_only (network m))) && can_write)
                          true [] true [] []))
          else Ok (Closed 1011)
      | None => Ok (Closed 1011)
      end
  end.
(** Whether the access a console was opened with is still there; the configuration may have changed since. *)
Definition still_allowed (c : AppConfig) (now : Z) (k : console) : res bool :=
  u ← user_at c (as_request k) now;
  Ok (match u with Some x => py_eq (role x) (role (as_user k)) | None => false end).

Inductive message := Text (t : pystr) | Bytes (b : bytes) | Disconnect.
(** [Recheck]: the access watcher wakes, every two seconds, at the time [now] and under the configuration of then. *)
Inductive event := Fed (data : bytes) | Stopped | Sent | Received (m : message) | Recheck (c : AppConfig) (now : Z).
(** The first task to end ends the console. *)
Definition finish (k : console) : console :=
  mkConsole (mapping_name k) (as_user k) (as_request k) (interactive k) false (queue k) false (shown k) (typed k).
Definition step (e : event) (k : console) : console :=
  if negb (connected k) then k
  else
    let set_queue w q := mkConsole (mapping_name k) (as_user k) (as_request k) (interactive k) w q true (shown k) (typed k) in
    match e with
    | Fed data => if watching k then set_queue true (feed MONITOR_MAX data (queue k)) else k
    | Stopped => if watching k then set_queue false (close MONITOR_MAX (queue k)) else k
    | Sent =>
        match queue k with
        | [] => k
        | Some data :: q => mkConsole (mapping_name k) (as_user k) (as_request k) (interactive k) (watching k) q true (shown k ++ [data]) (typed k)
        | None :: q => finish (mkConsole (mapping_name k) (as_user k) (as_request k) (interactive k) (watching k) q true (shown k) (typed k))
        end
    | Received Disconnect => finish k
    | Received m =>
        let data := match m with Text t => utf8_encode_replace t | Bytes b => b | Disconnect => [] end in
        match data with
        | [] => k
        | _ => if interactive k
               then mkConsole (mapping_name k) (as_user k) (as_request k) true (watching k) (queue k) true (shown k) (typed k ++ [data])
               else k
        end
    | Recheck c now => match still_allowed c now k with Ok true => k | _ => finish k end
    end.
Definition run (l : list event) (k : console) : console := foldl (λ k e, step e k) k l.
Definition fed (l : list event) : list bytes := omap (λ e, match e with Fed d => Some d | _ => None end) l.

Lemma finished_stays l k : connected k = false → run l k = k.
Proof.
  intros Hk. induction l as [|e l IH]; [done|]. change (run l (step e k) = k).
  assert (step e k = k) as -> by (unfold step; by rewrite Hk). done.
Qed.
Lemma step_keeps e k : interactive (step e k) = interactive k ∧ (interactive k = false → typed (step e k) = typed k).
Proof.
  unfold step. destruct (connected k); [|done]. cbn [negb].
  destruct e as [d| | |[t|b|]|c now]; try done; try (by destruct (watching k)); try (by destruct (still_allowed c now k) as [[]|]).
  - by destruct (queue k) as [|[]].
  - destruct (utf8_encode_replace t); [done|]. by destruct (interactive k) eqn:E; split.
  - destruct b; [done|]. by destruct (interactive k) eqn:E; split.
Qed.
Lemma console_keeps l k : interactive (run l k) = interactive k ∧ (interactive k = false → typed (run l k) = typed k).
Proof.
  revert k. induction l as [|e l IH]; intros k; [done|]. destruct (step_keeps e k) as [H1 H2], (IH (step e k)) as [H3 H4].
  change (run (e :: l) k) with (run l (step e k)). split; [by rewrite H3|]. intros Hi. rewrite H4, H2; [done..|by rewrite H1].
Qed.

(** Who a console acts for does not change. *)
Lemma run_user l k : as_user (run l k) = as_user k ∧ as_request (run l k) = as_request k.
Proof.
  revert k. induction l as [|e l IH]; intros k; [done|]. change (run (e :: l) k) with (run l (step e k)). destruct (IH (step e k)) as [-> ->].
  unfold step. destruct (connected k); [|done]. cbn [negb].
  destruct e as [d| | |[t|b|]|c now]; try done; try (by destruct (watching k)).
  - by destruct (queue k) as [|[]].
  - destruct (utf8_encode_replace t); [done|]. by destruct (interactive k).
  - destruct b; [done|]. by destruct (interactive k).
  - by destruct (still_allowed c now k) as [[]|].
Qed.
(** C15: only someone who may edit writes to a device from a browser: a console is opened for a user the gate knows,
    from a page of the same host, and what is typed reaches the serial port only when that user is an operator of a
    network mapping that is not read-only. The access is checked again every two seconds against the configuration of then: from the first check on that does not find
    a user of the same role for the session or the visitor (removed, revoked, expired, another role, an error),
    nothing more is shown or written, whatever the browser goes on to send. *)
Theorem console_guarded c running r now k before c' now' behind :
  console_ws c running r now = Ok (Opened k) →
  (∃ x, user_at c r now = Ok (Some x) ∧ as_user k = x
     ∧ (∀ origin, header (ws_headers r) "origin" = Some origin → ∃ h, ws_headers r "host"%string = Some h ∧ netloc origin = Ok h))
  ∧ (typed (run before k) ≠ [] → ROLE_RANK (vstr "operator") <= ROLE_RANK (role (as_user k))
     ∧ ∃ m, get_mapping (VStr (ws_mid r)) (mappings c) = Some m ∧ eq_str (kind m) (str "net") = true ∧ truthy (read_only (network m)) = false)
  ∧ ((∀ y, user_at c' r now' = Ok (Some y) → py_eq (role y) (role (as_user k)) = false) →
     shown (run (before ++ Recheck c' now' :: behind) k) = shown (run before k)
     ∧ typed (run (before ++ Recheck c' now' :: behind) k) = typed (run before k)).
Proof.
  intros Ho. unfold console_ws, _authorize in Ho. destruct (user_at c r now) as [[x|]|e] eqn:Eu; cbn [mbind res_bind] in Ho; try done.
  assert (∃ m, get_mapping (VStr (ws_mid r)) (mappings c) = Some m ∧ as_user k = x ∧ as_request k = r ∧ typed k = []
    ∧ interactive k = eq_str (kind m) (str "net") && negb (truthy (read_only (network m))) && (ROLE_RANK (vstr "operator") <=? ROLE_RANK (role x))
    ∧ (∀ origin, header (ws_headers r) "origin" = Some origin → ∃ h, ws_headers r "host"%string = Some h ∧ netloc origin = Ok h))
    as (m & Em & Ek & Er & Et & Ei & Eor).
  { destruct (header (ws_headers r) "origin") as [origin|].
    - destruct (netloc origin) as [n|e] eqn:En; cbn [mbind res_bind] in Ho; [|done].
      destruct (ws_headers r "host"%string) as [h|]; [|done]. destruct (str_eqb n h) eqn:Eh; [|done]. apply str_eqb_eq in Eh as ->.
      destruct (get_mapping _ _) as [m|]; [|done]. destruct running; [|done]. injection Ho as <-. exists m. split_and!; try done.
      intros o [= <-]. by exists h.
    - destruct (get_mapping _ _) as [m|]; [|done]. destruct running; [|done]. injection Ho as <-. by exists m. }
  split_and!.
  - by exists x.
  - intros Hty. destruct (console_keeps before k) as [_ H2]. destruct (interactive k) eqn:Ein; [|by rewrite H2, Et in Hty].
    symmetry in Ei. rewrite !andb_true_iff, negb_true_iff in Ei. destruct Ei as [[H3 H4] H5]. rewrite Ek. split; [zbool; lia|by exists m].
  - intros Hgone. assert (∀ k2, connected k2 = false → run behind k2 = k2) as Hs by (intros k2; apply finished_stays).
    assert (∃ k2, run (before ++ Recheck c' now' :: behind) k = run behind k2 ∧ connected k2 = false ∧ shown k2 = shown (run before k) ∧ typed k2 = typed (run before k)) as (k2 & -> & Hc2 & E1 & E2).
    { exists (step (Recheck c' now') (run before k)). unfold run. rewrite foldl_app. split; [done|]. fold (run before k). destruct (run_user before k) as [Eu1 Eu2].
      destruct (connected (run before k)) eqn:Ec; unfold step; rewrite Ec; cbn [negb]; [|by rewrite Ec].
      assert (still_allowed c' now' (run before k) ≠ Ok true) as Hno.
      { unfold still_allowed. rewrite Eu1, Eu2, Er. destruct (user_at c' r now') as [[y|]|] eqn:Ey; cbn; [|done..]. rewrite (Hgone y eq_refl). done. }
      by destruct (still_allowed _ _ _) as [[]|]. }
    by rewrite Hs.
Qed.

(** ** What a viewer sees *)
(** The chunks a queue holds. *)
Definition pending {A} (q : list (option A)) : list A := omap (λ x, x) q.
Definition seen (k : console) : list bytes := shown k ++ pending (queue k).
Definition queue_ok (k : console) : Prop := zlen (queue k) <= MONITOR_MAX.
Lemma pending_snoc {A} (q : list (option A)) x : pending (q ++ [x]) = pending q ++ match x with Some y => [y] | None => [] end.
Proof. unfold pending. rewrite omap_app. by destruct x. Qed.
Lemma pending_drop {A} n (q : list (option A)) : pending (drop n q) `sublist_of` pending q.
Proof.
  revert n. induction q as [|[x|] q IH]; intros [|n]; try done; [apply sublist_cons, IH|apply IH].
Qed.
Lemma step_seen e k acc :
  queue_ok k → seen k `sublist_of` acc →
  queue_ok (step e k) ∧ seen (step e k) `sublist_of` acc ++ match e with Fed d => [d] | _ => [] end.
Proof.
  intros Hq Hs. assert (queue_ok k ∧ seen k `sublist_of` acc ++ match e with Fed d => [d] | _ => [] end) as Hsame.
  { split; [done|]. by apply sublist_inserts_r. }
  unfold step. destruct (connected k); [|done]. cbn [negb].
  destruct e as [d| | |[t|b|]|c now]; try done; try (by destruct (watching k)); try (by destruct (still_allowed c now k) as [[]|]).
  - destruct (watching k); [|done]. unfold seen, queue_ok, feed in *. cbn [shown queue]. destruct (full _ _) eqn:Ef.
    + split; [unfold full, MONITOR_MAX, zlen in *; rewrite length_app, length_drop; cbn [length]; zbool; lia|]. rewrite pending_snoc, app_assoc. apply sublist_app; [|done].
      etransitivity; [|exact Hs]. apply sublist_app; [done|apply pending_drop].
    + split; [unfold full in Ef; zbool; zlen|]. rewrite pending_snoc, app_assoc. by apply sublist_app.
  - destruct (watching k); [|done]. unfold seen, queue_ok, close in *. cbn [shown queue]. destruct (full _ _) eqn:Ef; [done|].
    split; [unfold full in Ef; zbool; zlen|]. by rewrite pending_snoc, !app_nil_r.
  - destruct (queue k) as [|[d|] q] eqn:Eq; [exact Hsame|..]; clear Hsame; rewrite app_nil_r; unfold seen, queue_ok in *; rewrite Eq in *;
      cbn [shown queue finish]; (split; [rewrite zlen_cons in Hq; lia|]); [by rewrite <- app_assoc|done].
  - destruct (utf8_encode_replace t); [done|]. by destruct (interactive k).
  - destruct b; [done|]. by destruct (interactive k).
Qed.
Lemma run_seen l k acc : queue_ok k → seen k `sublist_of` acc → queue_ok (run l k) ∧ seen (run l k) `sublist_of` acc ++ fed l.
Proof.
  revert k acc. induction l as [|e l IH]; intros k acc Hq Hs; [cbn; by rewrite app_nil_r|].
  destruct (step_seen e k acc Hq Hs) as [Hq' Hs']. destruct (IH _ _ Hq' Hs') as [H1 H2]. split; [done|].
  change (run (e :: l) k) with (run l (step e k)). etransitivity; [exact H2|]. rewrite <- app_assoc. by destruct e.
Qed.
(** Nothing is lost while the queue has room. *)
Lemma run_all l k :
  connected (run l k) = true → watching (run l k) = true →
  Forall is_Some (queue k) → zlen (queue k) + zlen (fed l) <= MONITOR_MAX → seen (run l k) = seen k ++ fed l.
Proof.
  revert k. induction l as [|e l IH]; intros k Hc Hw Hq Hl; [cbn; by rewrite app_nil_r|].
  change (run (e :: l) k) with (run l (step e k)) in *.
  assert (∀ k, connected k = false → connected (run l k) = false) as Hmono by (intros k0 H0; by rewrite finished_stays).
  destruct (connected k) eqn:Ek; [|by rewrite Hmono in Hc by (unfold step; by rewrite Ek)].
  assert (∀ l k, watching k = false → watching (run l k) = false) as Hmw.
  { clear. intros l. induction l as [|e l IH]; intros k Hk; [done|]. change (run (e :: l) k) with (run l (step e k)). apply IH.
    unfold step. destruct (connected k); [|done]. cbn [negb]. rewrite Hk.
    destruct e as [d| | |[t|b|]|c now]; try done; [by destruct (queue k) as [|[]]|by destruct (utf8_encode_replace t); [|destruct (interactive k)]|by destruct b; [|destruct (interactive k)]|by destruct (still_allowed c now k) as [[]|]]. }
  destruct (watching k) eqn:Ew.
  2:{ rewrite Hmw in Hw; [done|]. apply (Hmw [e] k Ew). }
  assert (seen (step e k) = seen k ++ match e with Fed d => [d] | _ => [] end ∧ Forall is_Some (queue (step e k))
    ∧ zlen (queue (step e k)) + zlen (fed l) <= MONITOR_MAX ∨ connected (step e k) = false ∨ watching (step e k) = false) as Hstep.
  { unfold step. rewrite Ek. cbn [negb]. unfold seen, fed in *. cbn [omap list_omap] in Hl.
    destruct e as [d| | |[t|b|]|c now]; cbn [omap list_omap] in Hl; try (rewrite Ew); try (by right; left); try (by right; right).
    - left. unfold feed, full. destruct (Z.leb_spec MONITOR_MAX (zlen (queue k))).
      { pose proof (zlen_nonneg (omap (λ e, match e with Fed d => Some d | _ => None end) l)). exfalso. rewrite zlen_cons in Hl. lia. }
      cbn [shown queue]. rewrite pending_snoc, app_assoc. split_and!; [done|apply Forall_app; split; [done|by constructor; [eexists|]]|].
      rewrite zlen_cons in Hl. zlen.
    - destruct (queue k) as [|[d|] q] eqn:Eq.
      + left. rewrite Eq. split_and!; [by rewrite (app_nil_r (shown k ++ pending [])) |by constructor|done].
      + left. cbn [shown queue]. rewrite app_nil_r, <- app_assoc. apply Forall_cons in Hq as [_ Hq]. rewrite zlen_cons in Hl. split_and!; [done..|lia].
      + apply Forall_cons in Hq as [[? ?] _]. done.
    - left. rewrite app_nil_r. destruct (utf8_encode_replace t); [done|]. by destruct (interactive k).
    - left. rewrite app_nil_r. destruct b; [done|]. by destruct (interactive k).
    - destruct (still_allowed c now k) as [[]|]; [left; by rewrite app_nil_r|by right; left..]. }
  destruct Hstep as [(H1 & H2 & H3)|[H1|H1]]; [|by rewrite Hmono in Hc|by rewrite Hmw in Hw].
  rewrite IH by done. rewrite H1, <- app_assoc. by destruct e.
Qed.
(** C38: what a browser is shown, with what is still waiting for it, is always a part of what the device sent, in
    order and without repetition; at most 2048 chunks wait, so a slow viewer costs the bridge nothing;
    and as long as no more than those were sent the viewer misses none of them. *)
Theorem viewer_sees l k :
  queue k = [] → shown k = [] →
  (shown (run l k) ++ pending (queue (run l k))) `sublist_of` fed l ∧ zlen (queue (run l k)) <= MONITOR_MAX
  ∧ (zlen (fed l) <= MONITOR_MAX → connected (run l k) = true → watching (run l k) = true →
     shown (run l k) ++ pending (queue (run l k)) = fed l).
Proof.
  intros Hq Hs. assert (seen k = []) as Hk by (unfold seen; by rewrite Hq, Hs).
  destruct (run_seen l k []) as [H1 H2]; [unfold queue_ok; rewrite Hq; by vm_compute|by rewrite Hk|]. split_and!; [done..|].
  intros Hl Hc Hw. fold (seen (run l k)). rewrite run_all; try done; [by rewrite Hk|by rewrite Hq|by rewrite Hq, zlen_nil].
Qed.
End console.

(** ** Sessions *)
Definition console_config : AppConfig :=
  match AppConfig_from_dict ascii_word demo_repr (str "s3cret") (str "node") demo_fresh
          (VDict [key "mappings" (VList [VDict [key "id" (VStr (str "m1")); key "name" (VStr (str "PLC"))]]);
                  key "users" (VList [VDict [key "username" (VStr (str "ann")); key "password_hash" (VStr (str "x")); key "role" (VStr (str "admin"))]]);
                  key "admin_ui" (VDict [key "require_login" (VBool false); key "anonymous_role" (VStr (str "operator"))])]) with
  | Ok c => c
  | Raise _ => demo_config
  end.
Definition console_request : ws_request :=
  mkWs None (λ n, if String.eqb n "host" then Some (str "10.0.0.5:8080") else if String.eqb n "origin" then Some (str "http://10.0.0.5:8080") else None)
    (str "m1").
Definition open_console : console :=
  match console_ws demo_hmac demo_repr (str "gateway") console_config true console_request 0 with
  | Ok (Opened k) => k
  | _ => mkConsole VNone (mkUser VNone VNone VNone VNone VNone) console_request false false [] false [] []
  end.
#[local] Abbreviation demo_run := (run demo_hmac demo_repr (str "gateway")).
Definition console_events : list event := [Fed (str "> "); Sent; Received (Text (str "reset"))].
Example console_typed : typed (demo_run console_events open_console) = [str "reset"] ∧ shown (demo_run console_events open_console) = [str "> "].
Proof. vm_compute. split; reflexivity. Qed.
(** The same configuration after an admin made visitors viewers. *)
Definition console_config_later : AppConfig :=
  match AppConfig_from_dict ascii_word demo_repr (str "s3cret") (str "node") demo_fresh
          (VDict [key "mappings" (VList [VDict [key "id" (VStr (str "m1")); key "name" (VStr (str "PLC"))]]);
                  key "users" (VList [VDict [key "username" (VStr (str "ann")); key "password_hash" (VStr (str "x")); key "role" (VStr (str "admin"))]]);
                  key "admin_ui" (VDict [key "require_login" (VBool false); key "anonymous_role" (VStr (str "viewer"))])]) with
  | Ok c => c
  | Raise _ => demo_config
  end.
Lemma console_guarded_witness :
  let k := open_console in let r := console_request in let before := console_events in
  let behind := [Received (Text (str "halt"))] in
  typed (demo_run (before ++ behind) k) = [str "reset"; str "halt"] ∧
  (∃ x, user_at demo_hmac demo_repr (str "gateway") console_config r 0 = Ok (Some x) ∧ as_user k = x
     ∧ (∀ origin, header (ws_headers r) "origin" = Some origin → ∃ h, ws_headers r "host"%string = Some h ∧ netloc origin = Ok h))
  ∧ (typed (demo_run before k) ≠ [] → ROLE_RANK (vstr "operator") <= ROLE_RANK (role (as_user k))
     ∧ ∃ m, get_mapping (VStr (ws_mid r)) (mappings console_config) = Some m ∧ eq_str (kind m) (str "net") = true ∧ truthy (read_only (network m)) = false)
  ∧ shown (demo_run (before ++ Recheck console_config_later 2 :: behind) k) = shown (demo_run before k)
  ∧ typed (demo_run (before ++ Recheck console_config_later 2 :: behind) k) = typed (demo_run before k).
Proof.
  cbv zeta. split; [vm_compute; reflexivity|].
  destruct (console_guarded demo_hmac demo_repr (str "gateway") console_config true console_request 0 open_console console_events console_config_later 2 [Received (Text (str "halt"))])
    as (H1 & H2 & H3); [vm_compute; reflexivity|].
  split; [exact H1|]. split; [exact H2|]. apply H3. intros y Hy. vm_compute in Hy. injection Hy as <-. vm_compute. reflexivity.
Defined.
Lemma viewer_sees_witness :
  let k := open_console in let l := console_events ++ [Fed (str "ok"); Fed (str "> ")] in
  (shown (demo_run l k) ++ pending (queue (demo_run l k))) `sublist_of` fed l ∧ zlen (queue (demo_run l k)) <= MONITOR_MAX
  ∧ (zlen (fed l) <= MONITOR_MAX → connected (demo_run l k) = true → watching (demo_run l k) = true →
     shown (demo_run l k) ++ pending (queue (demo_run l k)) = fed l).
Proof. apply viewer_sees; vm_compute; reflexivity. Defined.

(** A viewer whose queue is full when its mapping stops is never told: the sender shows what is queued and then waits,
    and the browser keeps an open console that will never show anything again. *)
Definition fill (n : nat) : list event := repeat (Fed [88]) n.
Example stop_goes_unseen :
  let k := demo_run (fill 2048 ++ [Stopped] ++ repeat Sent 2048) open_console in
  (connected k, watching k, queue k, zlen (shown k)) = (true, false, [], 2048).
Proof. vm_compute. reflexivity. Qed.

(** ** The hex view
    Both directions of the traffic, read-only: nothing that comes from the browser reaches the device. *)
Abbreviation traffic_item := (Z * pyfloat * bytes)%type.
Record hex_view := mkHex {
  hx_user : User; hx_request : ws_request; hx_fed : bool; hx_queue : list (option traffic_item); hx_open : bool; hx_frames : list bytes;
}.
Section hex_view.
Context (hmac_sha256 : bytes → bytes → bytes) (repr : pyval → pystr) (hostname : pystr).
(** The handler up to its tasks: the code it closes with, or the view; [taps]: the runner offers its traffic (a gateway does not). *)
Definition traffic_ws (c : AppConfig) (running taps : bool) (r : ws_request) (now : Z) : res (Z + hex_view) :=
  u ← _authorize hmac_sha256 repr hostname c r now;
  Ok (match u with
      | None => inl 1008
      | Some x =>
          match get_mapping (VStr (ws_mid r)) (mappings c) with
          | Some _ => if running && taps then inr (mkHex x r true [] true []) else inl 1011
          | None => inl 1011
          end
      end).
Inductive hex_event := HFed (x : traffic_item) | HStopped | HSent | HMessage (disconnect : bool) | HRecheck (c : AppConfig) (now : Z).
Definition frame_of (x : traffic_item) : bytes := let '(direction, ts, data) := x in traffic_frame direction ts data.
Definition hex_finish (h : hex_view) : hex_view := mkHex (hx_user h) (hx_request h) false (hx_queue h) false (hx_frames h).
Definition hex_step (e : hex_event) (h : hex_view) : hex_view :=
  if negb (hx_open h) then h
  else
    match e with
    | HFed x => if hx_fed h then mkHex (hx_user h) (hx_request h) true (feed TRAFFIC_MAX x (hx_queue h)) true (hx_frames h) else h
    | HStopped => if hx_fed h then mkHex (hx_user h) (hx_request h) false (close TRAFFIC_MAX (hx_queue h)) true (hx_frames h) else h
    | HSent =>
        match hx_queue h with
        | [] => h
        | Some x :: q => mkHex (hx_user h) (hx_request h) (hx_fed h) q true (hx_frames h ++ [frame_of x])
        | None :: q => hex_finish (mkHex (hx_user h) (hx_request h) (hx_fed h) q true (hx_frames h))
        end
    | HMessage true => hex_finish h
    | HMessage false => h
    | HRecheck c now =>
        match user_at hmac_sha256 repr hostname c (hx_request h) now with
        | Ok (Some x) => if py_eq (role x) (role (hx_user h)) then h else hex_finish h
        | _ => hex_finish h
        end
    end.
Definition hex_run (l : list hex_event) (h : hex_view) : hex_view := foldl (λ h e, hex_step e h) h l.
Definition hex_fed (l : list hex_event) : list traffic_item := omap (λ e, match e with HFed x => Some x | _ => None end) l.
(** What was shown and what waits to be. *)
Definition hex_seen (h : hex_view) : list bytes := hx_frames h ++ (frame_of <$> pending (hx_queue h)).
Lemma hex_step_seen e h acc :
  zlen (hx_queue h) <= TRAFFIC_MAX → hex_seen h `sublist_of` frame_of <$> acc →
  zlen (hx_queue (hex_step e h)) <= TRAFFIC_MAX ∧ hex_seen (hex_step e h) `sublist_of` frame_of <$> (acc ++ match e with HFed x => [x] | _ => [] end).
Proof.
  intros Hq Hs. rewrite fmap_app.
  assert (zlen (hx_queue h) <= TRAFFIC_MAX ∧ hex_seen h `sublist_of` (frame_of <$> acc) ++ (frame_of <$> match e with HFed x => [x] | _ => [] end)) as Hsame
    by (split; [done|by apply sublist_inserts_r]).
  unfold hex_step. destruct (hx_open h); [|done]. cbn [negb]. destruct e as [x| | |[]|c now]; try done; try (destruct (user_at _ _ _ c _ now) as [[y|]|]; [destruct (py_eq _ _)|..]; done).
  - destruct (hx_fed h); [|done]. unfold hex_seen, feed in *. cbn [hx_queue hx_frames]. destruct (full _ _) eqn:Ef.
    + split; [unfold full, TRAFFIC_MAX, zlen in *; rewrite length_app, length_drop; cbn [length]; zbool; lia|].
      rewrite pending_snoc, fmap_app, app_assoc. apply sublist_app; [|done]. etransitivity; [|exact Hs]. apply sublist_app; [done|]. apply fmap_sublist, pending_drop.
    + split; [unfold full in Ef; zbool; zlen|]. rewrite pending_snoc, fmap_app, app_assoc. by apply sublist_app.
  - destruct (hx_fed h); [|done]. unfold hex_seen, close in *. cbn [hx_queue hx_frames]. destruct (full _ _) eqn:Ef; [done|].
    split; [unfold full in Ef; zbool; zlen|]. cbn [fmap list_fmap]. by rewrite pending_snoc, !app_nil_r.
  - destruct (hx_queue h) as [|[x|] q] eqn:Eq; [by rewrite Eq|..]; unfold hex_seen in *; rewrite Eq in *; cbn in *; (split; [rewrite zlen_cons in Hq; lia|]); rewrite app_nil_r in *; [by rewrite <- app_assoc|done].
Qed.
(** A hex view shows frames of what passed, in order and without repetition, and at most 4096 wait. *)
Lemma hex_view_sees l h :
  hx_queue h = [] → hx_frames h = [] →
  zlen (hx_queue (hex_run l h)) <= TRAFFIC_MAX ∧ hex_seen (hex_run l h) `sublist_of` frame_of <$> hex_fed l.
Proof.
  intros Hq Hf. assert (zlen (hx_queue h) <= TRAFFIC_MAX ∧ hex_seen h `sublist_of` frame_of <$> []) as [H1 H2].
  { unfold hex_seen. rewrite Hq, Hf. split; [by vm_compute|done]. }
  change (hex_fed l) with ([] ++ hex_fed l). clear Hq Hf. revert h H1 H2. generalize (@nil traffic_item) as acc. induction l as [|e l IH]; intros acc h H1 H2; [cbn; by rewrite app_nil_r|].
  destruct (hex_step_seen e h acc H1 H2) as [H3 H4]. change (hex_run (e :: l) h) with (hex_run l (hex_step e h)). destruct (IH _ _ H3 H4) as [H5 H6]. split; [done|].
  rewrite <- app_assoc in H6. by destruct e.
Qed.
End hex_view.
Example hex_views :
  match traffic_ws demo_hmac demo_repr (str "gateway") console_config true true console_request 0, traffic_ws demo_hmac demo_repr (str "gateway") console_config true false console_request 0 with
  | Ok (inr h), Ok (inl 1011) => hx_frames (hex_run demo_hmac demo_repr (str "gateway") [HFed (1, SpecFloat.S754_zero false, [65; 66]); HMessage false; HSent; HRecheck console_config_later 2; HFed (0, SpecFloat.S754_zero false, [67]); HSent] h) = [[1; 0; 0; 0; 0; 0; 0; 0; 0; 65; 66]]
  | _, _ => False
  end.
Proof. vm_compute. reflexivity. Qed.
