(* ===== verification/Importer.v ===== *)
(** * Importing mappings (app/importer.py)

    A file is parsed to a plan, previewed row by row and applied, by merging with or replacing the
    current mappings. [copy] is the code's round trip through a dict; [fresh] supplies the ids that
    would be generated, [classic] is the converter of classic ser2net files (with its warnings). *)
From Stdlib Require Import SpecFloat.
From S2P Require Import Prelude PyFloat PyStr PyVal IpAddr PyNum Json Config AppConfig.
#[local] Open Scope Z_scope.

Definition MODES : list pystr := [str "merge"; str "replace"].
Record ImportPlan := mkPlan {
  plan_source : string;
  plan_mappings : list MappingConfig;
  warnings : list pystr;
}.

Section importer.
Context (word : Z → bool) (repr : pyval → pystr).

Definition set_id (i : pyval) (m : MappingConfig) : MappingConfig :=
  mkMapping i (name m) (enabled m) (kind m) (serial m) (serial_b m) (network m) (options m) (mqtt m)
    (modbus_poll m).
Definition copy (fresh : pystr) (m : MappingConfig) : res MappingConfig :=
  mapping_from_dict word repr fresh (mapping_to_dict m).
Fixpoint copies (fresh : nat → pystr) (i : nat) (l : list MappingConfig) : res (list MappingConfig) :=
  match l with
  | [] => Ok []
  | m :: l' => m ← copy (fresh i) m; ms ← copies fresh (S i) l'; Ok (m :: ms)
  end.
Definition same_dict (a b : MappingConfig) : bool := py_eq (mapping_to_dict a) (mapping_to_dict b).

(** ** Parsing *)
Definition type_or_value (e : exn) : bool :=
  match exn_cls e with TypeError | ValueError | ConfigError => true | _ => false end.
Fixpoint parse_items (fresh : nat → pystr) (i : nat) (l : list pyval) : res (list MappingConfig) :=
  match l with
  | [] => Ok []
  | item :: l' =>
      match item with
      | VDict _ =>
          match mapping_from_dict word repr (fresh i) item with
          | Ok m => ms ← parse_items fresh (S i) l'; Ok (m :: ms)
          | Raise e => if type_or_value e then raise ConfigError "Mapping #{0} ({1}): {2}" else Raise e
          end
      | _ => raise ConfigError "Mapping #{0} is not an object."
      end
  end.
(** [s.lstrip()] *)
Definition lstrip (s : pystr) : pystr := lstrip_by is_space s.
Definition decode_utf8_sig (raw : bytes) : option pystr :=
  match raw with
  | 239 :: 187 :: 191 :: r => utf8_decode_gen Strict r
  | _ => utf8_decode_gen Strict raw
  end.
Definition parse_mappings_file (classic : pystr → res (list pyval * list pystr * string)) (fresh : nat → pystr)
    (raw : bytes) : res ImportPlan :=
  match decode_utf8_sig raw with
  | None => raise ConfigError "The file is not UTF-8 text."
  | Some text =>
      if negb (starts_with (lstrip text) (str "{") || starts_with (lstrip text) (str "[")) then
        '(dicts, ws, src) ← classic text;
        match dicts with
        | [] => raise ConfigError "The file has no ser2net connections to import."
        | _ => ms ← mappings_from word repr fresh 0 dicts; Ok (mkPlan src ms ws)
        end
      else
        match json_loads text with
        | None => raise ConfigError "The file is not valid JSON ({0})."
        | Some (VDict doc) =>
            match get doc "mappings" VNone with
            | VList items =>
                ms ← parse_items fresh 0 items;
                let whole := match assoc (str "users") doc, assoc (str "admin_ui") doc with
                             | None, None => false | _, _ => true end in
                Ok (mkPlan (if whole then "ser2net config.json" else "ser2net export") ms
                      (if whole then [str "Only the mappings are imported from a config.json"] else []))
            | _ => raise ConfigError "Expected a ser2net export"
            end
        | Some _ => raise ConfigError "Expected a ser2net export"
        end
  end.

(** ** Applying *)
(** The position of the first element that satisfies the test. *)
Fixpoint find_pos {A} (p : A → bool) (l : list A) : option nat :=
  match l with
  | [] => None
  | x :: l' => if p x then Some O else S <$> find_pos p l'
  end.
Definition same_id (m e : MappingConfig) : bool := py_eq (id e) (id m).
Definition same_name (m e : MappingConfig) : bool := py_eq (name e) (name m).
(** [_match]: by id, else by name. *)
Definition _match (existing : list MappingConfig) (m : MappingConfig) : option nat :=
  match find_pos (same_id m) existing with
  | Some i => Some i
  | None => find_pos (same_name m) existing
  end.

Fixpoint replace_all_mappings (fresh : nat → pystr) (i : nat) (seen : list pyval) (l : list MappingConfig)
    : res (list MappingConfig) :=
  match l with
  | [] => Ok []
  | m :: l' =>
      m ← copy (fresh i) m;
      _ ← raise_if (negb (hashable (id m))) TypeError "unhashable type";
      let m := if existsb (py_eq (id m)) seen then set_id (VStr (fresh (S i))) m else m in
      ms ← replace_all_mappings fresh (2 + i) (id m :: seen) l';
      Ok (m :: ms)
  end.
Fixpoint merge_mappings (fresh : nat → pystr) (i : nat) (result touched : list MappingConfig)
    (l : list MappingConfig) : res (list MappingConfig * list MappingConfig) :=
  match l with
  | [] => Ok (result, touched)
  | m :: l' =>
      m ← copy (fresh i) m;
      match _match result m with
      | Some p =>
          match result !! p with
          | Some target =>
              let m := set_id (id target) m in
              if same_dict m target then merge_mappings fresh (2 + i) result touched l'
              else merge_mappings fresh (2 + i) (<[p := m]> result) (touched ++ [m]) l'
          | None => merge_mappings fresh (2 + i) result touched l'
          end
      | None =>
          let m := if existsb (same_id m) result then set_id (VStr (fresh (S i))) m else m in
          merge_mappings fresh (2 + i) (result ++ [m]) (touched ++ [m]) l'
      end
  end.
Definition apply_import (fresh : nat → pystr) (current incoming : list MappingConfig) (mode : pystr)
    : res (list MappingConfig * list MappingConfig) :=
  if str_eqb mode (str "replace") then
    out ← replace_all_mappings fresh 0 [] incoming; Ok (out, out)
  else if str_eqb mode (str "merge") then
    result ← copies fresh 0 current;
    merge_mappings fresh (length current) result [] incoming
  else raise ConfigError "Import mode must be one of {0}.".

(** ** The preview *)
Inductive action := Add | Update | Same | RemoveRow.
Record row := mkRow { row_name : pyval; row_action : action; row_target : pyval }.
Definition plan_row (fresh : pystr) (current : list MappingConfig) (merge : bool) (m : MappingConfig) : res row :=
  match (if merge then _match current m ≫= λ p, current !! p else None) with
  | None => Ok (mkRow (name m) Add (vstr ""))
  | Some target =>
      probe ← copy fresh (set_id (id target) m);
      Ok (mkRow (name m) (if same_dict probe target then Same else Update) (name target))
  end.
Definition plan_rows (fresh : pystr) (current incoming : list MappingConfig) (mode : pystr) : res (list row) :=
  rows ← mapr (plan_row fresh current (str_eqb mode (str "merge"))) incoming;
  Ok (rows ++ if str_eqb mode (str "replace") then (λ e, mkRow (name e) RemoveRow (vstr "")) <$> current else []).

(** ** What a merge keeps *)
(** A mapping that was loaded: copying it gives it back. *)
Definition loaded (m : MappingConfig) : Prop := ∀ f, copy f m = Ok m.
Definition str_id (m : MappingConfig) : Prop := is_str (id m) = true.
(** The last of the mappings with an id: what the engine runs when they are applied in order. *)
Definition final (k : pyval) (l : list MappingConfig) : option MappingConfig :=
  foldl (λ o t, if py_eq (id t) k then Some t else o) None l.

Lemma loaded_from_dict fresh v m :
  (∀ c, is_space c = true → name_char word c = false) → fresh ≠ [] →
  mapping_from_dict word repr fresh v = Ok m → ftruthy (interval_s (modbus_poll m)) = true → loaded m.
Proof. intros Hw Hf H Hi f. by eapply mapping_reload. Qed.

Lemma find_pos_Some {A} p (l : list A) i : find_pos p l = Some i → ∃ x, l !! i = Some x ∧ p x = true.
Proof.
  revert i. induction l as [|x l IH]; intros i H; [done|]. cbn in H. destruct (p x) eqn:E.
  - injection H as <-. by exists x.
  - destruct (find_pos p l) as [j|]; [|done]. injection H as <-. by apply IH.
Qed.
Lemma find_pos_None {A} p (l : list A) x : find_pos p l = None → x ∈ l → p x = false.
Proof.
  induction l as [|y l IH]; [by intros _ ?%not_elem_of_nil|]. cbn. destruct (p y) eqn:E; [done|].
  intros H [-> |Hx]%elem_of_cons; [done|]. apply IH; [|done]. by destruct (find_pos p l).
Qed.
Lemma match_Some l m p :
  _match l m = Some p → ∃ e, l !! p = Some e ∧ (same_id m e = true ∨ same_name m e = true).
Proof.
  unfold _match. destruct (find_pos (same_id m) l) as [i|] eqn:E.
  - intros [= <-]. apply find_pos_Some in E as (e & He & H). eauto.
  - intros (e & He & H)%find_pos_Some. eauto.
Qed.
Lemma match_None l m e : _match l m = None → e ∈ l → same_id m e = false.
Proof.
  unfold _match. destruct (find_pos (same_id m) l) as [i|] eqn:E; [done|]. intros _. by apply find_pos_None.
Qed.
Lemma py_eq_id a b : str_id a → py_eq (id a) (id b) = true ↔ id a = id b.
Proof.
  unfold str_id. destruct (id a) as [| | | |s| | |]; intros H; try done. rewrite py_eq_str. naive_solver.
Qed.
Lemma final_snoc k l m : final k (l ++ [m]) = if py_eq (id m) k then Some m else final k l.
Proof. unfold final. by rewrite foldl_app. Qed.
Lemma id_set_id i m : id (set_id i m) = i.
Proof. done. Qed.
Lemma copies_loaded fresh i l : Forall loaded l → copies fresh i l = Ok l.
Proof. intros H. revert i. induction H as [|m l Hm _ IH]; intros i; [done|]. cbn [copies]. rewrite Hm.
  cbn [mbind res_bind]. by rewrite IH. Qed.

Record merged (current result touched : list MappingConfig) : Prop := {
  merged_ids : ∃ added, id <$> result = (id <$> current) ++ added;
  merged_nodup : NoDup (id <$> result);
  merged_str : Forall str_id result;
  merged_from m : m ∈ result →
    final (id m) touched = Some m ∨ (final (id m) touched = None ∧ m ∈ current);
  merged_touched t : t ∈ touched → id t ∈ id <$> result;
}.

Lemma final_other l m k : str_id m → id m ≠ k → final k (l ++ [m]) = final k l.
Proof.
  intros Hs Hne. rewrite final_snoc. unfold str_id in Hs. destruct (id m) as [| | | |s| | |] eqn:E; try done.
  destruct (py_eq (VStr s) k) eqn:Ek; [|done]. by apply py_eq_str in Ek as ->.
Qed.
Lemma final_same l m : str_id m → final (id m) (l ++ [m]) = Some m.
Proof. intros Hs. rewrite final_snoc. by rewrite (proj2 (py_eq_id m m Hs)). Qed.

Lemma merged_update current result touched p t m :
  merged current result touched → result !! p = Some t → id m = id t →
  merged current (<[p := m]> result) (touched ++ [m]).
Proof.
  intros [(added & Hadd) Hnd Hstr Hfrom Htch] Hp Hid.
  assert (id <$> <[p := m]> result = id <$> result) as Eids.
  { rewrite list_fmap_insert, Hid. apply list_insert_id. by rewrite list_lookup_fmap, Hp. }
  assert (str_id m) as Hm.
  { unfold str_id. rewrite Hid. eapply (Forall_lookup_1 _ _ _ _ Hstr Hp). }
  constructor; rewrite ?Eids; [by exists added|done| | |].
  - apply Forall_insert; done.
  - intros x (i & Hi)%list_elem_of_lookup_1. apply list_lookup_insert_Some in Hi as [(-> & -> & _)|[Hne Hi]].
    + left. by apply final_same.
    + assert (id x ≠ id m) as Hx.
      { rewrite Hid. intros E. apply Hne.
        apply (NoDup_lookup (id <$> result) p i (id t)); [done|by rewrite list_lookup_fmap, Hp|].
        by rewrite list_lookup_fmap, Hi, <- E. }
      rewrite final_other by done. apply Hfrom. by eapply list_elem_of_lookup_2.
  - intros x [Hx|Hx]%elem_of_app; [by apply Htch|]. apply list_elem_of_singleton in Hx as ->.
    rewrite Hid. apply list_elem_of_fmap. exists t. split; [done|by eapply list_elem_of_lookup_2].
Qed.
Lemma merged_add current result touched m :
  merged current result touched → str_id m → id m ∉ id <$> result →
  merged current (result ++ [m]) (touched ++ [m]).
Proof.
  intros [(added & Hadd) Hnd Hstr Hfrom Htch] Hm Hnew.
  constructor; rewrite ?fmap_app, ?Hadd, <- ?(assoc_L (++)); cbn [fmap list_fmap].
  - eauto.
  - rewrite (assoc_L (++)), <- Hadd. apply NoDup_app. split_and!; [done| |by apply NoDup_singleton].
    intros x Hx Hy%list_elem_of_singleton. by subst.
  - apply Forall_app. by split; [|apply Forall_singleton].
  - intros x [Hx|Hx]%elem_of_app.
    + assert (id m ≠ id x) by (intros E; apply Hnew; rewrite E; by apply list_elem_of_fmap_2).
      rewrite final_other by done. by apply Hfrom.
    + apply list_elem_of_singleton in Hx as ->. left. by apply final_same.
  - intros x [Hx|Hx]%elem_of_app.
    + rewrite (assoc_L (++)), <- Hadd. apply elem_of_app. left. by apply Htch.
    + apply list_elem_of_singleton in Hx as ->. set_solver.
Qed.
Lemma merge_step fresh i current result touched incoming :
  merged current result touched → Forall loaded incoming → Forall str_id incoming →
  ∃ result' touched', merge_mappings fresh i result touched incoming = Ok (result', touched')
                      ∧ merged current result' touched'.
Proof.
  revert i result touched. induction incoming as [|m l IH]; intros i result touched Hm Hl Hs; [by eauto|].
  apply Forall_cons in Hl as [Hl1 Hl], Hs as [Hs1 Hs]. cbn [merge_mappings]. rewrite Hl1. cbn [mbind res_bind].
  destruct (_match result m) as [p|] eqn:Em.
  - apply match_Some in Em as (t & Hp & _). rewrite Hp. cbn zeta.
    destruct (same_dict _ t); [by apply IH|]. apply IH; [|done..]. by eapply merged_update.
  - destruct (existsb (same_id m) result) eqn:Ex.
    + apply existsb_exists in Ex as (e & He & H). apply list_elem_of_In in He.
      by rewrite (match_None _ _ _ Em He) in H.
    + apply IH; [|done..]. apply merged_add; [done..|]. intros (e & Eid & He)%list_elem_of_fmap.
      pose proof (match_None _ _ _ Em He) as H. unfold same_id in H. unfold str_id in Hs1. rewrite Eid in Hs1, H.
      destruct (id e) as [| | | |s| | |]; try done. by rewrite (proj2 (py_eq_str s (VStr s))) in H.
Qed.
(** A mapping that nothing in the file names stays. *)
Lemma merge_untouched fresh i e result touched incoming result' touched' :
  Forall loaded incoming → (∀ m, m ∈ incoming → same_id m e = false ∧ same_name m e = false) →
  merge_mappings fresh i result touched incoming = Ok (result', touched') → e ∈ result → e ∈ result'.
Proof.
  revert i result touched. induction incoming as [|m l IH]; intros i result touched Hl Hno H He.
  { cbn in H. by injection H as <- _. }
  apply Forall_cons in Hl as [Hl1 Hl]. cbn [merge_mappings] in H. rewrite Hl1 in H. cbn [mbind res_bind] in H.
  assert (∀ m, m ∈ l → same_id m e = false ∧ same_name m e = false) as Hno' by (intros; apply Hno; by right).
  destruct (_match result m) as [p|] eqn:Em.
  - apply match_Some in Em as (t & Hp & Ht). rewrite Hp in H. cbn zeta in H.
    destruct (same_dict _ t); eapply IH; eauto.
    apply list_elem_of_lookup_1 in He as [j Hj]. apply (list_elem_of_lookup_2 _ j).
    rewrite list_lookup_insert_ne; [done|]. intros ->. rewrite Hj in Hp. injection Hp as <-.
    destruct (Hno m) as [H1 H2]; [left|]. destruct Ht; congruence.
  - eapply IH; eauto. set_solver.
Qed.
(** Mappings the configuration already has change nothing. *)
Lemma merge_own fresh i result touched incoming :
  Forall loaded incoming → NoDup (id <$> result) → Forall str_id result →
  (∀ m, m ∈ incoming → m ∈ result ∧ same_dict m m = true) →
  merge_mappings fresh i result touched incoming = Ok (result, touched).
Proof.
  intros Hl Hnd Hstr. revert i. induction Hl as [|m l Hm _ IH]; intros i Hin; [done|].
  cbn [merge_mappings]. rewrite Hm. cbn [mbind res_bind].
  destruct (Hin m) as [Hmr Hmm]; [left|].
  assert (str_id m) as Hs by (by eapply Forall_forall).
  assert (∃ p, find_pos (same_id m) result = Some p) as [p Hp].
  { destruct (find_pos (same_id m) result) eqn:E; [eauto|]. pose proof (find_pos_None _ _ _ E Hmr) as H.
    unfold same_id in H. by rewrite (proj2 (py_eq_id m m Hs)) in H. }
  unfold _match. rewrite Hp. apply find_pos_Some in Hp as (t & Ht & E). rewrite Ht. cbn zeta.
  assert (t = m) as ->.
  { apply py_eq_id in E; [|eapply (Forall_lookup_1 _ _ _ _ Hstr Ht)].
    apply list_elem_of_lookup_1 in Hmr as [j Hj].
    assert (p = j) as -> by (eapply (NoDup_lookup (id <$> result) p j (id m)); [done|..];
      by rewrite list_lookup_fmap, ?Ht, ?Hj; cbn; rewrite ?E).
    congruence. }
  assert (set_id (id m) m = m) as -> by (by destruct m). rewrite Hmm. apply IH. intros. apply Hin. by right.
Qed.
(** A loaded mapping keeps every other field under another id. *)
Lemma loaded_set_id i m : loaded m → truthy i = true → loaded (set_id i m).
Proof.
  intros Hl Hi f. specialize (Hl f). destruct m as [mi mn me mk s' sb' n' o' mq' p'].
  unfold copy, mapping_from_dict in *. cbn [mapping_to_dict set_id as_dict mbind res_bind
    id name enabled kind serial serial_b network options mqtt modbus_poll] in *.
  change (get _ "serial" _) with (serial_to_dict s') in *. change (get _ "serial_b" _) with (serial_to_dict sb') in *.
  change (get _ "network" _) with (network_to_dict n') in *. change (get _ "options" _) with (options_to_dict o') in *.
  change (get _ "mqtt" _) with (mqtt_to_dict mq') in *. change (get _ "modbus_poll" _) with (poll_to_dict p') in *.
  destruct (SerialSettings_from_dict (serial_to_dict s')) as [?|]; [|done].
  destruct (SerialSettings_from_dict (serial_to_dict sb')) as [?|]; [|done].
  destruct (NetworkSettings_from_dict (network_to_dict n')) as [?|]; [|done].
  destruct (options_from_dict word repr (options_to_dict o')) as [?|]; [|done].
  destruct (mqtt_from_dict (mqtt_to_dict mq')) as [?|]; [|done].
  destruct (poll_from_dict (poll_to_dict p')) as [?|]; [|done].
  cbn [mbind res_bind] in *. injection Hl as _ -> -> -> -> -> ->.
  change (get _ "id" _) with i. unfold or_else. by rewrite Hi.
Qed.

Lemma row_same_inv fresh current m e :
  plan_row fresh current true m = Ok e → row_action e = Same →
  ∃ p t, _match current m = Some p ∧ current !! p = Some t
         ∧ ∃ m', copy fresh (set_id (id t) m) = Ok m' ∧ same_dict m' t = true.
Proof.
  unfold plan_row. destruct (_match current m) as [p|] eqn:E0; [|cbn; intros [= <-]; cbn; discriminate]. cbn [mbind option_bind].
  destruct (current !! p) as [t|] eqn:E1; [|cbn; intros [= <-]; cbn; discriminate]. intros H Hs. apply res_bind_Ok in H as (m' & Hm' & H).
  injection H as <-. cbn [row_action] in Hs. destruct (same_dict m' t) eqn:E; [|done]. exists p, t. split_and!; eauto.
Qed.

(** ** What a merge does, mapping by mapping *)
(** [e], at place [p], is the first of the list that the test picks. *)
Definition first_such (test : MappingConfig → Prop) (l : list MappingConfig) (p : nat) (e : MappingConfig) : Prop :=
  l !! p = Some e ∧ test e ∧ ∀ q u, (q < p)%nat → l !! q = Some u → ¬ test u.
Definition has_id (m e : MappingConfig) : Prop := py_eq (id e) (id m) = true.
Definition has_name (m e : MappingConfig) : Prop := py_eq (name e) (name m) = true.
(** The mapping of the list that [m] stands for: the first with its id, and when no mapping has its id
    the first with its name. *)
Definition stands_for (l : list MappingConfig) (m : MappingConfig) (p : nat) (e : MappingConfig) : Prop :=
  first_such (has_id m) l p e ∨ ((∀ u, u ∈ l → ¬ has_id m u) ∧ first_such (has_name m) l p e).
(** One mapping of the file, from the list [l] to the list [l'], reporting [out]. *)
Inductive lands (l : list MappingConfig) (m : MappingConfig) : list MappingConfig → list MappingConfig → Prop :=
  | lands_same p e : stands_for l m p e → py_eq (mapping_to_dict (set_id (id e) m)) (mapping_to_dict e) = true →
      lands l m l []
  | lands_update p e : stands_for l m p e → py_eq (mapping_to_dict (set_id (id e) m)) (mapping_to_dict e) = false →
      lands l m (<[p := set_id (id e) m]> l) [set_id (id e) m]
  | lands_new : (∀ u, u ∈ l → ¬ has_id m u ∧ ¬ has_name m u) → lands l m (l ++ [m]) [m].
Inductive lands_all : list MappingConfig → list MappingConfig → list MappingConfig → list MappingConfig → Prop :=
  | lands_all_nil l : lands_all l [] l []
  | lands_all_cons l m file l' l'' out outs : lands l m l' out → lands_all l' file l'' outs →
      lands_all l (m :: file) l'' (out ++ outs).

Lemma find_pos_first p l i :
  find_pos p l = Some i → ∃ e, first_such (λ u, p u = true) l i e.
Proof.
  revert i. induction l as [|x l IH]; intros i H; [done|]. cbn in H. destruct (p x) eqn:E.
  - injection H as <-. exists x. split_and!; [done|done|lia].
  - destruct (find_pos p l) as [j|]; [|done]. injection H as <-. destruct (IH j) as (e & H1 & H2 & H3); [done|].
    exists e. split_and!; [done|done|]. intros [|q] u Hq Hu; [injection Hu as ->; congruence|].
    apply (H3 q); [lia|done].
Qed.
Lemma match_stands_for l m p : _match l m = Some p → ∃ e, stands_for l m p e.
Proof.
  unfold _match. destruct (find_pos (same_id m) l) as [i|] eqn:E.
  - intros [= <-]. apply find_pos_first in E as (e & He). exists e. by left.
  - intros (e & He)%find_pos_first. exists e. right. split; [|done].
    intros u Hu. unfold has_id. pose proof (find_pos_None _ _ _ E Hu) as H. unfold same_id in H. by rewrite H.
Qed.
Lemma match_nothing l m u : _match l m = None → u ∈ l → ¬ has_id m u ∧ ¬ has_name m u.
Proof.
  unfold _match. destruct (find_pos (same_id m) l) as [i|] eqn:E; [done|]. intros E' Hu.
  pose proof (find_pos_None _ _ _ E Hu) as H. pose proof (find_pos_None _ _ _ E' Hu) as H'.
  unfold has_id, has_name, same_id, same_name in *. by rewrite H, H'.
Qed.
Lemma stands_for_lookup l m p e : stands_for l m p e → l !! p = Some e.
Proof. by intros [(H & _)|(_ & H & _)]. Qed.

Lemma merge_lands fresh i result touched incoming result' touched' :
  Forall loaded incoming → Forall str_id incoming →
  merge_mappings fresh i result touched incoming = Ok (result', touched') →
  ∃ outs, touched' = touched ++ outs ∧ lands_all result incoming result' outs.
Proof.
  revert i result touched. induction incoming as [|m l IH]; intros i result touched Hl Hs H.
  { injection H as <- <-. exists []. rewrite app_nil_r. split; [done|constructor]. }
  apply Forall_cons in Hl as [Hl1 Hl], Hs as [Hs1 Hs]. cbn [merge_mappings] in H. rewrite Hl1 in H.
  cbn [mbind res_bind] in H. destruct (_match result m) as [p|] eqn:Em.
  - destruct (match_stands_for _ _ _ Em) as [t Ht]. rewrite (stands_for_lookup _ _ _ _ Ht) in H. cbn zeta in H.
    unfold same_dict in H. destruct (py_eq _ _) eqn:Eq; (apply IH in H as (outs & -> & Ho); [|done..]).
    + exists outs. split; [done|]. change outs with ([] ++ outs). econstructor; [by eapply lands_same|done].
    + eexists. split; [by rewrite <- (assoc_L (++))|]. econstructor; [|done]. by eapply lands_update.
  - assert (existsb (same_id m) result = false) as Ex.
    { apply not_true_is_false. intros (e & He & H')%existsb_exists. apply list_elem_of_In in He.
      by rewrite (match_None _ _ _ Em He) in H'. }
    rewrite Ex in H. apply IH in H as (outs & -> & Ho); [|done..].
    eexists. split; [by rewrite <- (assoc_L (++))|]. econstructor; [|done]. apply lands_new.
    intros u Hu. by apply match_nothing with result.
Qed.

(** C20: merging a file into loaded mappings succeeds, whatever mappings the file holds, and does exactly
    this, mapping by mapping: one that stands for a mapping of the list (by id, else by name) takes its
    place and its id, and is reported, unless it is equal to it, which changes and reports nothing; any
    other is added at the end and reported. So every current mapping keeps its place and its id (its log
    and traces stay attached) and the ids stay distinct; a mapping that no mapping of the file matches by
    id or name is left as it is; and applying the mappings reported as changed, in order, brings the engine
    to the new list: each mapping of it is the last one reported with its id, or was there before and none
    was reported for it. *)
Theorem merge_keeps fresh current incoming :
  Forall loaded current → Forall str_id current → NoDup (id <$> current) →
  Forall loaded incoming → Forall str_id incoming →
  ∃ result touched, apply_import fresh current incoming (str "merge") = Ok (result, touched)
  ∧ lands_all current incoming result touched
  ∧ (∃ added, id <$> result = (id <$> current) ++ added) ∧ NoDup (id <$> result)
  ∧ (∀ e, e ∈ current → (∀ m, m ∈ incoming → ¬ has_id m e ∧ ¬ has_name m e) → e ∈ result)
  ∧ ∀ m, m ∈ result → final (id m) touched = Some m ∨ (final (id m) touched = None ∧ m ∈ current).
Proof.
  intros Hl Hs Hnd Hl' Hs'. destruct (merge_step fresh (length current) current current [] incoming) as (r & t & E & Hm); [|done..|].
  { constructor; [exists []; by rewrite app_nil_r|done|done| |by intros t ?%not_elem_of_nil].
    intros m Hin. by right. }
  exists r, t. unfold apply_import. change (str_eqb (str "merge") (str "replace")) with false.
  change (str_eqb (str "merge") (str "merge")) with true. cbv iota. rewrite copies_loaded by done.
  cbn [mbind res_bind]. split; [done|].
  destruct (merge_lands _ _ _ _ _ _ _ Hl' Hs' E) as (outs & -> & Hall).
  destruct Hm as [H1 H2 _ H4 _]. split; [done|]. split; [done|]. split; [done|]. split; [|done].
  intros e He Hno. eapply merge_untouched; [done| |done..]. intros m Hm. destruct (Hno m Hm) as [Hi Hn].
  by split; apply not_true_is_false.
Qed.

(** the preview is honest about nothing happening: when every row of a merge preview says
    "same", applying the import changes no mapping and restarts nothing. *)
Theorem preview_same_changes_nothing fresh fresh' current incoming rows :
  Forall loaded current → Forall (λ m, truthy (id m) = true) current → Forall loaded incoming →
  plan_rows fresh' current incoming (str "merge") = Ok rows → Forall (λ r, row_action r = Same) rows →
  apply_import fresh current incoming (str "merge") = Ok (current, []).
Proof.
  intros Hl Ht Hl' Hp Hr. unfold apply_import. change (str_eqb (str "merge") (str "replace")) with false.
  change (str_eqb (str "merge") (str "merge")) with true. cbv iota. rewrite copies_loaded by done.
  cbn [mbind res_bind]. unfold plan_rows in Hp. apply res_bind_Ok in Hp as (rs & Hrs%mapr_inv & Hp).
  change (str_eqb (str "merge") (str "replace")) with false in Hp. rewrite app_nil_r in Hp. injection Hp as ->.
  change (str_eqb (str "merge") (str "merge")) with true in Hrs. generalize (length current) as i.
  revert rows Hr Hrs. induction Hl' as [|m l Hm _ IH]; intros rows Hr Hrs i; [done|].
  apply Forall2_cons_inv_l in Hrs as (r & rs' & Hrow & Hrs & ->). apply Forall_cons in Hr as [Hr1 Hr].
  destruct (row_same_inv _ _ _ _ Hrow Hr1) as (p & t & Em & Hpt & m' & Hm' & Hsame).
  cbn [merge_mappings]. rewrite Hm. cbn [mbind res_bind]. rewrite Em, Hpt. cbn zeta.
  assert (truthy (id t) = true) as Htt by (eapply (Forall_lookup_1 _ _ _ _ Ht Hpt)).
  rewrite (loaded_set_id (id t) m Hm Htt) in Hm'. injection Hm' as <-. rewrite Hsame. by eapply IH.
Qed.
End importer.

(** Two loaded mappings; a file that renames the first and moves the second to a new id. *)
Definition demo_doc (i n : string) (p : Z) : pyval :=
  VDict [key "id" (vstr i); key "name" (vstr n); key "serial" (VDict [key "port" (vstr "COM3")]);
         key "network" (VDict [key "port" (VInt p)])].
Definition no_repr (_ : pyval) : pystr := [].
Definition load_demo (docs : list pyval) : list MappingConfig :=
  match mappings_from ascii_word no_repr (λ _, str "f") 0 docs with Ok l => l | Raise _ => [] end.
Definition demo_current : list MappingConfig := load_demo [demo_doc "a" "plc" 4001; demo_doc "b" "scale" 4002].
Definition demo_file : list MappingConfig :=
  load_demo [demo_doc "a" "line 1" 4001; demo_doc "c" "scale" 4003; demo_doc "d" "door" 4004].
Lemma merge_keeps_witness :
  ∃ result touched,
    apply_import ascii_word no_repr (λ _, str "new") demo_current demo_file (str "merge") = Ok (result, touched)
  ∧ lands_all demo_current demo_file result touched
  ∧ (∃ added, id <$> result = (id <$> demo_current) ++ added) ∧ NoDup (id <$> result)
  ∧ (∀ e, e ∈ demo_current → (∀ m, m ∈ demo_file → ¬ has_id m e ∧ ¬ has_name m e) → e ∈ result)
  ∧ ∀ m, m ∈ result → final (id m) touched = Some m ∨ (final (id m) touched = None ∧ m ∈ demo_current).
Proof.
  apply merge_keeps; [repeat (constructor; [intros f; vm_compute; reflexivity|]); constructor|by repeat constructor|
    |repeat (constructor; [intros f; vm_compute; reflexivity|]); constructor|by repeat constructor].
  vm_compute. repeat constructor; set_solver.
Defined.
Lemma preview_same_changes_nothing_witness :
  apply_import ascii_word no_repr (λ _, str "new") demo_current demo_current (str "merge") = Ok (demo_current, []).
Proof.
  eapply (preview_same_changes_nothing ascii_word no_repr _ (str "new"));
    [repeat (constructor; [intros f; vm_compute; reflexivity|]); constructor|by repeat constructor|
    |vm_compute; reflexivity|by repeat constructor].
  repeat (constructor; [intros f; vm_compute; reflexivity|]); constructor.
Defined.

(** The preview compares every mapping of the file with the current ones, the import with the
    result so far: for a file that renames a mapping and then reuses its old name, the preview announces
    two updates of one mapping, the import updates one and adds another. *)
Example preview_differs_from_import :
  let file := load_demo [demo_doc "a" "line 1" 4001; demo_doc "c" "plc" 4003] in
  fmap (M:=res) (fmap (M:=list) row_action)
    (plan_rows ascii_word no_repr (str "new") demo_current file (str "merge")) = Ok [Update; Update]
  ∧ fmap (M:=res) (λ r, id <$> r.1) (apply_import ascii_word no_repr (λ _, str "new") demo_current file (str "merge"))
    = Ok [vstr "a"; vstr "b"; vstr "c"].
Proof. vm_compute. done. Qed.
