(* ===== verification/Classic.v ===== *)
(** * Connections of classic ser2net on their way to mappings (app/ser2net_import.py)

    [Conn] is the code's [_Conn]: what one connection of a classic file has given so far. The functions
    that the code calls for their effect on it return the new one; an exception that nothing catches (a number or a service
    name that cannot be read) leaves its mark there ([broken]), and the readers raise it at the end, since nothing that is read after it is used. [say] formats a message (it is the
    translated text, filled in), [getservbyname] is the service database of the host, [word] tells
    which non-ASCII characters are word characters. Readers of the two file formats are [ClassicV3] and
    [ClassicYaml]. *)
From S2P Require Import Prelude PyFloat PyStr PyVal IpAddr PyNum Json Config AppConfig Importer.
#[local] Open Scope Z_scope.

(** ** Text *)
Definition not_empty (s : pystr) : bool := match s with [] => false | _ => true end.
Definition one_of (c : Z) (s : string) : bool := existsb (Z.eqb c) (str s).
Definition is_one (s : pystr) (l : list string) : bool := existsb (λ k, str_eqb s (str k)) l.
(** The decimal digits of Unicode 14.0 (Python 3.11): each of these is a zero, followed by its one to nine. *)
Definition decimal_zeros : list Z :=
  [48; 1632; 1776; 1984; 2406; 2534; 2662; 2790; 2918; 3046; 3174; 3302; 3430; 3558; 3664; 3792; 3872; 4160;
   4240; 6112; 6160; 6470; 6608; 6784; 6800; 6992; 7088; 7232; 7248; 42528; 43216; 43264; 43472; 43504; 43600;
   44016; 65296; 66720; 68912; 69734; 69872; 69942; 70096; 70384; 70736; 70864; 71248; 71360; 71472; 71904;
   72016; 72784; 73040; 73120; 92768; 92864; 93008; 120782; 120792; 120802; 120812; 120822; 123200; 123632;
   125264; 130032].
Definition decimal_value (c : Z) : option Z :=
  (λ z, c - z) <$> find (λ z, in_range z (z + 9) c) decimal_zeros.
(** The other characters that [str.isdigit] takes: superscripts, subscripts, circled and rod numerals. *)
Definition digit_forms : list (Z * Z) :=
  [(178, 179); (185, 185); (4969, 4977); (6618, 6618); (8304, 8304); (8308, 8313); (8320, 8329); (9312, 9320);
   (9332, 9340); (9352, 9360); (9450, 9450); (9461, 9469); (9471, 9471); (10102, 10110); (10112, 10120);
   (10122, 10130); (68160, 68163); (69216, 69224); (69714, 69722); (127232, 127242)].
Definition is_decimal (c : Z) : bool := match decimal_value c with Some _ => true | None => false end.
Definition digit_char (c : Z) : bool := is_decimal c || existsb (λ r, in_range r.1 r.2 c) digit_forms.
(** [s.isdigit()] *)
Definition isdigit (s : pystr) : bool := match s with [] => false | _ => forallb digit_char s end.
(** [int(s)] of a text of digits: [None] is a ValueError, for a digit that is no decimal one or for more than
    4300 digits. *)
Definition int_of_digits (s : pystr) : option Z :=
  if 4300 <? zlen s then None else digits_value 10 <$> mapM decimal_value s.
(** [s.upper()]: exact for every result letter in ASCII. *)
Definition upper_char (c : Z) : pystr :=
  if in_range 97 122 c then [c - 32]
  else if c =? 305 then str "I" else if c =? 383 then str "S" else if c =? 223 then str "SS"
  else if c =? 64256 then str "FF" else if c =? 64257 then str "FI" else if c =? 64258 then str "FL"
  else if c =? 64259 then str "FFI" else if c =? 64260 then str "FFL"
  else if (c =? 64261) || (c =? 64262) then str "ST" else [c].
Definition upper (s : pystr) : pystr := s ≫= upper_char.
(** A letter for [re.I]: the long s is an s there. *)
Definition fold_case (c : Z) : Z := if c =? 383 then 115 else lower_char c.
Definition same_fold (a b : pystr) : bool := str_eqb (fold_case <$> a) (fold_case <$> b).
(** [s.partition(c)]: before, whether there is a separator, after. *)
Definition partition (c : Z) (s : pystr) : pystr * bool * pystr :=
  match split_first c s with Some (a, b) => (a, true, b) | None => (s, false, []) end.
(** The longest prefix of characters that satisfy the test, and the rest. *)
Fixpoint take_while (p : Z → bool) (s : pystr) : pystr * pystr :=
  match s with
  | c :: s' => if p c then let '(a, b) := take_while p s' in (c :: a, b) else ([], s)
  | [] => ([], [])
  end.
(** The non-empty parts between separator characters: [s.split()] for white space. *)
Fixpoint words_from (sep : Z → bool) (cur s : pystr) : list pystr :=
  match s with
  | [] => match cur with [] => [] | _ => [cur] end
  | c :: s' =>
      if sep c then match cur with [] => [] | _ => [cur] end ++ words_from sep [] s'
      else words_from sep (cur ++ [c]) s'
  end.
Definition words (sep : Z → bool) (s : pystr) : list pystr := words_from sep [] s.
(** [dict.fromkeys(l)]: the first occurrences. *)
Fixpoint uniq (seen l : list pystr) : list pystr :=
  match l with
  | [] => []
  | x :: l' => if existsb (str_eqb x) seen then uniq seen l' else x :: uniq (x :: seen) l'
  end.
Definition add_new (x : pystr) (l : list pystr) : list pystr := if existsb (str_eqb x) l then l else l ++ [x].

(** ** [str] of an address *)
Definition hex_text (z : Z) : pystr :=
  let ds := [z / 4096 mod 16; z / 256 mod 16; z / 16 mod 16; z mod 16] in
  hex_char <$> match lstrip_by (Z.eqb 0) ds with [] => [0] | l => l end.
Definition v4_text (a : Z) : pystr :=
  join (str ".") (str_of_Z <$> [a / 2 ^ 24; a / 2 ^ 16 mod 256; a / 2 ^ 8 mod 256; a mod 256]).
Definition hextets_of (a : Z) : list Z :=
  (λ i, a / 2 ^ (16 * i) mod 65536) <$> [7; 6; 5; 4; 3; 2; 1; 0].
(** The first longest run of zeros: where it starts and its length. *)
Fixpoint zero_run (i start len bstart blen : nat) (l : list Z) : nat * nat :=
  match l with
  | [] => (bstart, blen)
  | z :: l' =>
      if z =? 0 then
        let start := match len with O => i | _ => start end in
        if (blen <? S len)%nat then zero_run (S i) start (S len) start (S len) l'
        else zero_run (S i) start (S len) bstart blen l'
      else zero_run (S i) 0 0 bstart blen l'
  end.
Definition v6_text (a : Z) : pystr :=
  let hs := hextets_of a in
  let '(start, len) := zero_run 0 0 0 0 0 hs in
  let ts := hex_text <$> hs in
  if (1 <? len)%nat then
    join (str ":") ((match start with O => [[]] | _ => [] end) ++ take start ts ++ [[]] ++ drop (start + len) ts
                    ++ (if (start + len =? 8)%nat then [[]] else []))
  else join (str ":") ts.
(** [str(ip_address(h))]: an IPv6 scope is kept. *)
Definition address_text (h : pystr) (a : ip) : pystr :=
  match a with
  | V4 v => v4_text v
  | V6 v => v6_text v ++ match split_first 37 h with Some (_, z) => 37 :: z | None => [] end
  end.
(** [ip.is_loopback] of an IPv6 address. *)
Definition is_v6_loopback (a : ip) : bool := match a with V6 v => v =? 1 | V4 _ => false end.

(** ** The connection *)
(** [c.serial]: the four parameters and what else is set. *)
Record ConnSerial := mkConnSerial {
  cs_baudrate : Z;
  cs_parity : pystr;
  cs_bytesize : Z;
  cs_stopbits : Z;
  cs_more : list (pystr * pyval);
}.
(** [c.network]: four keys and the optional ones. *)
Record ConnNetwork := mkConnNetwork {
  cn_mode : pystr;
  cn_protocol : pystr;
  cn_bind_ip : pystr;
  cn_port : Z;
  cn_kick_old_user : option bool;
  cn_max_connections : option Z;
  cn_read_only : option bool;
  cn_allowed : option (list pystr);
}.
Record Conn := mkConn {
  c_name : pystr;
  c_label : pystr;
  v3 : bool;
  c_enabled : bool;
  c_device : pystr;
  c_serial : ConnSerial;
  c_advanced : list (pystr * pyval);
  c_network : ConnNetwork;
  c_options : list (pystr * pyval);
  xonxoff : bool;
  rtscts : bool;
  c_strings : list (pystr * pystr);
  traces : list (pystr * pystr);
  trace_mods : list ((pystr * pystr) * bool);
  access_given : bool;
  hold : option pystr;
  remctl : bool;
  dropped : list pystr;
  notes : list pystr;
  skipped : list pystr;
  broken : bool;
}.
Definition new_conn (nm lbl : pystr) (is_v3 : bool) : Conn :=
  mkConn nm lbl is_v3 true [] (mkConnSerial 9600 (str "N") 8 1 []) []
    (mkConnNetwork (str "server") (str "raw") (str "0.0.0.0") 0 None None None None) [] false false [] [] [] false
    None false [] [] [] false.

(** One assignment each. *)
Definition set_name x c := mkConn x (c_label c) (v3 c) (c_enabled c) (c_device c) (c_serial c) (c_advanced c) (c_network c) (c_options c) (xonxoff c) (rtscts c) (c_strings c) (traces c) (trace_mods c) (access_given c) (hold c) (remctl c) (dropped c) (notes c) (skipped c) (broken c).
Definition set_label x c := mkConn (c_name c) x (v3 c) (c_enabled c) (c_device c) (c_serial c) (c_advanced c) (c_network c) (c_options c) (xonxoff c) (rtscts c) (c_strings c) (traces c) (trace_mods c) (access_given c) (hold c) (remctl c) (dropped c) (notes c) (skipped c) (broken c).
Definition set_c_enabled x c := mkConn (c_name c) (c_label c) (v3 c) x (c_device c) (c_serial c) (c_advanced c) (c_network c) (c_options c) (xonxoff c) (rtscts c) (c_strings c) (traces c) (trace_mods c) (access_given c) (hold c) (remctl c) (dropped c) (notes c) (skipped c) (broken c).
Definition set_device x c := mkConn (c_name c) (c_label c) (v3 c) (c_enabled c) x (c_serial c) (c_advanced c) (c_network c) (c_options c) (xonxoff c) (rtscts c) (c_strings c) (traces c) (trace_mods c) (access_given c) (hold c) (remctl c) (dropped c) (notes c) (skipped c) (broken c).
Definition set_serial x c := mkConn (c_name c) (c_label c) (v3 c) (c_enabled c) (c_device c) x (c_advanced c) (c_network c) (c_options c) (xonxoff c) (rtscts c) (c_strings c) (traces c) (trace_mods c) (access_given c) (hold c) (remctl c) (dropped c) (notes c) (skipped c) (broken c).
Definition set_advanced x c := mkConn (c_name c) (c_label c) (v3 c) (c_enabled c) (c_device c) (c_serial c) x (c_network c) (c_options c) (xonxoff c) (rtscts c) (c_strings c) (traces c) (trace_mods c) (access_given c) (hold c) (remctl c) (dropped c) (notes c) (skipped c) (broken c).
Definition set_net x c := mkConn (c_name c) (c_label c) (v3 c) (c_enabled c) (c_device c) (c_serial c) (c_advanced c) x (c_options c) (xonxoff c) (rtscts c) (c_strings c) (traces c) (trace_mods c) (access_given c) (hold c) (remctl c) (dropped c) (notes c) (skipped c) (broken c).
Definition set_options x c := mkConn (c_name c) (c_label c) (v3 c) (c_enabled c) (c_device c) (c_serial c) (c_advanced c) (c_network c) x (xonxoff c) (rtscts c) (c_strings c) (traces c) (trace_mods c) (access_given c) (hold c) (remctl c) (dropped c) (notes c) (skipped c) (broken c).
Definition set_xonxoff x c := mkConn (c_name c) (c_label c) (v3 c) (c_enabled c) (c_device c) (c_serial c) (c_advanced c) (c_network c) (c_options c) x (rtscts c) (c_strings c) (traces c) (trace_mods c) (access_given c) (hold c) (remctl c) (dropped c) (notes c) (skipped c) (broken c).
Definition set_rtscts x c := mkConn (c_name c) (c_label c) (v3 c) (c_enabled c) (c_device c) (c_serial c) (c_advanced c) (c_network c) (c_options c) (xonxoff c) x (c_strings c) (traces c) (trace_mods c) (access_given c) (hold c) (remctl c) (dropped c) (notes c) (skipped c) (broken c).
Definition set_strings x c := mkConn (c_name c) (c_label c) (v3 c) (c_enabled c) (c_device c) (c_serial c) (c_advanced c) (c_network c) (c_options c) (xonxoff c) (rtscts c) x (traces c) (trace_mods c) (access_given c) (hold c) (remctl c) (dropped c) (notes c) (skipped c) (broken c).
Definition set_traces x c := mkConn (c_name c) (c_label c) (v3 c) (c_enabled c) (c_device c) (c_serial c) (c_advanced c) (c_network c) (c_options c) (xonxoff c) (rtscts c) (c_strings c) x (trace_mods c) (access_given c) (hold c) (remctl c) (dropped c) (notes c) (skipped c) (broken c).
Definition set_trace_mods x c := mkConn (c_name c) (c_label c) (v3 c) (c_enabled c) (c_device c) (c_serial c) (c_advanced c) (c_network c) (c_options c) (xonxoff c) (rtscts c) (c_strings c) (traces c) x (access_given c) (hold c) (remctl c) (dropped c) (notes c) (skipped c) (broken c).
Definition set_access x c := mkConn (c_name c) (c_label c) (v3 c) (c_enabled c) (c_device c) (c_serial c) (c_advanced c) (c_network c) (c_options c) (xonxoff c) (rtscts c) (c_strings c) (traces c) (trace_mods c) x (hold c) (remctl c) (dropped c) (notes c) (skipped c) (broken c).
Definition set_hold x c := mkConn (c_name c) (c_label c) (v3 c) (c_enabled c) (c_device c) (c_serial c) (c_advanced c) (c_network c) (c_options c) (xonxoff c) (rtscts c) (c_strings c) (traces c) (trace_mods c) (access_given c) x (remctl c) (dropped c) (notes c) (skipped c) (broken c).
Definition set_remctl x c := mkConn (c_name c) (c_label c) (v3 c) (c_enabled c) (c_device c) (c_serial c) (c_advanced c) (c_network c) (c_options c) (xonxoff c) (rtscts c) (c_strings c) (traces c) (trace_mods c) (access_given c) (hold c) x (dropped c) (notes c) (skipped c) (broken c).
Definition set_dropped x c := mkConn (c_name c) (c_label c) (v3 c) (c_enabled c) (c_device c) (c_serial c) (c_advanced c) (c_network c) (c_options c) (xonxoff c) (rtscts c) (c_strings c) (traces c) (trace_mods c) (access_given c) (hold c) (remctl c) x (notes c) (skipped c) (broken c).
Definition set_notes x c := mkConn (c_name c) (c_label c) (v3 c) (c_enabled c) (c_device c) (c_serial c) (c_advanced c) (c_network c) (c_options c) (xonxoff c) (rtscts c) (c_strings c) (traces c) (trace_mods c) (access_given c) (hold c) (remctl c) (dropped c) x (skipped c) (broken c).
Definition set_skipped x c := mkConn (c_name c) (c_label c) (v3 c) (c_enabled c) (c_device c) (c_serial c) (c_advanced c) (c_network c) (c_options c) (xonxoff c) (rtscts c) (c_strings c) (traces c) (trace_mods c) (access_given c) (hold c) (remctl c) (dropped c) (notes c) x (broken c).
(** An uncaught exception while the connection was read: the import raises it, and nothing else of what is read is used. *)
Definition set_broken c := mkConn (c_name c) (c_label c) (v3 c) (c_enabled c) (c_device c) (c_serial c) (c_advanced c) (c_network c) (c_options c) (xonxoff c) (rtscts c) (c_strings c) (traces c) (trace_mods c) (access_given c) (hold c) (remctl c) (dropped c) (notes c) (skipped c) true.

Definition n_set_mode x n := mkConnNetwork x (cn_protocol n) (cn_bind_ip n) (cn_port n) (cn_kick_old_user n) (cn_max_connections n) (cn_read_only n) (cn_allowed n).
Definition n_set_protocol x n := mkConnNetwork (cn_mode n) x (cn_bind_ip n) (cn_port n) (cn_kick_old_user n) (cn_max_connections n) (cn_read_only n) (cn_allowed n).
Definition n_set_bind x n := mkConnNetwork (cn_mode n) (cn_protocol n) x (cn_port n) (cn_kick_old_user n) (cn_max_connections n) (cn_read_only n) (cn_allowed n).
Definition n_set_port x n := mkConnNetwork (cn_mode n) (cn_protocol n) (cn_bind_ip n) x (cn_kick_old_user n) (cn_max_connections n) (cn_read_only n) (cn_allowed n).
Definition n_set_kick x n := mkConnNetwork (cn_mode n) (cn_protocol n) (cn_bind_ip n) (cn_port n) (Some x) (cn_max_connections n) (cn_read_only n) (cn_allowed n).
Definition n_set_max x n := mkConnNetwork (cn_mode n) (cn_protocol n) (cn_bind_ip n) (cn_port n) (cn_kick_old_user n) (Some x) (cn_read_only n) (cn_allowed n).
Definition n_set_read_only n := mkConnNetwork (cn_mode n) (cn_protocol n) (cn_bind_ip n) (cn_port n) (cn_kick_old_user n) (cn_max_connections n) (Some true) (cn_allowed n).
Definition n_set_allowed x n := mkConnNetwork (cn_mode n) (cn_protocol n) (cn_bind_ip n) (cn_port n) (cn_kick_old_user n) (cn_max_connections n) (cn_read_only n) (Some x).
Definition on_net (f : ConnNetwork → ConnNetwork) (c : Conn) : Conn := set_net (f (c_network c)) c.

(** [f (int(s))] *)
Definition with_int (s : pystr) (f : Z → Conn → Conn) (c : Conn) : Conn :=
  match int_of_digits s with Some n => f n c | None => set_broken c end.
Definition note (m : pystr) (c : Conn) : Conn := set_notes (add_new m (notes c)) c.
Definition note_if (b : bool) (m : pystr) (c : Conn) : Conn := if b then note m c else c.
Definition drop_option (o : pystr) (c : Conn) : Conn := set_dropped (add_new o (dropped c)) c.
Definition advance (k : string) (b : bool) (c : Conn) : Conn := set_advanced (dict_set (str k) (VBool b) (c_advanced c)) c.
Definition serial_key (k : pystr) (v : pyval) (c : Conn) : Conn :=
  let s := c_serial c in
  set_serial (mkConnSerial (cs_baudrate s) (cs_parity s) (cs_bytesize s) (cs_stopbits s) (dict_set k v (cs_more s))) c.
Definition option_key (k : pystr) (v : pyval) (c : Conn) : Conn := set_options (dict_set k v (c_options c)) c.
Definition set_baud z c := set_serial (let s := c_serial c in mkConnSerial z (cs_parity s) (cs_bytesize s) (cs_stopbits s) (cs_more s)) c.
Definition set_parity p c := set_serial (let s := c_serial c in mkConnSerial (cs_baudrate s) p (cs_bytesize s) (cs_stopbits s) (cs_more s)) c.
Definition set_bits z c := set_serial (let s := c_serial c in mkConnSerial (cs_baudrate s) (cs_parity s) z (cs_stopbits s) (cs_more s)) c.
Definition set_stop z c := set_serial (let s := c_serial c in mkConnSerial (cs_baudrate s) (cs_parity s) (cs_bytesize s) z (cs_more s)) c.

Definition serial_text (c : Conn) : pystr :=
  let s := c_serial c in
  str_of_Z (cs_baudrate s) ++ cs_parity s ++ str_of_Z (cs_bytesize s) ++ str_of_Z (cs_stopbits s).
Definition opt_key {A} (k : string) (f : A → pyval) (o : option A) : list (pystr * pyval) :=
  match o with Some a => [(str k, f a)] | None => [] end.
Definition serial_dict (c : Conn) : pyval :=
  let s := c_serial c in
  VDict ([key "port" (VStr (c_device c)); key "baudrate" (VInt (cs_baudrate s)); key "parity" (VStr (cs_parity s));
          key "bytesize" (VInt (cs_bytesize s)); key "stopbits" (VInt (cs_stopbits s))] ++ cs_more s ++
         match c_advanced c with [] => [] | a => [key "advanced" (VDict a)] end).
Definition network_dict (n : ConnNetwork) : pyval :=
  VDict ([key "mode" (VStr (cn_mode n)); key "protocol" (VStr (cn_protocol n)); key "bind_ip" (VStr (cn_bind_ip n));
          key "port" (VInt (cn_port n))] ++ opt_key "kick_old_user" VBool (cn_kick_old_user n)
         ++ opt_key "max_connections" VInt (cn_max_connections n) ++ opt_key "read_only" VBool (cn_read_only n)
         ++ opt_key "allowed_client_ips" (λ l, VList (VStr <$> l)) (cn_allowed n)).
Definition conn_to_dict (c : Conn) : pyval :=
  VDict [key "name" (VStr (c_name c)); key "enabled" (VBool (c_enabled c)); key "kind" (vstr "net");
         key "serial" (serial_dict c); key "network" (network_dict (c_network c)); key "options" (VDict (c_options c))].

Definition _bool (value : pystr) : option bool :=
  let v := lower (strip value) in
  if is_one v ["true"; "yes"; "on"; "1"] then Some true
  else if is_one v ["false"; "no"; "off"; "0"] then Some false else None.

(** [_split_gensio]: [buf], [depth] and [quote] are the loop's variables; a backslash takes the next
    character along. *)
Fixpoint split_gensio_from (buf : pystr) (depth : nat) (quote : option Z) (s : pystr) : list pystr :=
  match s with
  | [] => [strip buf]
  | ch :: s' =>
      match quote with
      | Some q => split_gensio_from (buf ++ [ch]) depth (if ch =? q then None else quote) s'
      | None =>
          match s' with
          | e :: s'' =>
              if ch =? 92 then split_gensio_from (buf ++ [ch; e]) depth None s''
              else if one_of ch "'" || (ch =? 34) then split_gensio_from (buf ++ [ch]) depth (Some ch) s'
              else if ch =? 40 then split_gensio_from (buf ++ [ch]) (S depth) None s'
              else if ch =? 41 then split_gensio_from (buf ++ [ch]) (pred depth) None s'
              else if (ch =? 44) && (depth =? 0)%nat then strip buf :: split_gensio_from [] depth None s'
              else split_gensio_from (buf ++ [ch]) depth None s'
          | [] => if (ch =? 44) && (depth =? 0)%nat then [strip buf; []] else [strip (buf ++ [ch])]
          end
      end
  end.
Definition _split_gensio (spec : pystr) : list pystr := List.filter not_empty (split_gensio_from [] 0 None spec).

Definition layer_char (c : Z) : bool :=
  in_range 65 90 c || in_range 97 122 c || in_range 48 57 c || (c =? 95) || (c =? 45).
(** [_layer]: a part is stripped, so [$] is its end. *)
Definition _layer (part : pystr) : pystr * list pystr :=
  let '(nm, r) := take_while layer_char part in
  match nm, lstrip_by is_space r with
  | _ :: _, 40 :: inner =>
      match rev inner with
      | 41 :: r => (nm, _split_gensio (rev r))
      | _ => (part, [])
      end
  | _, _ => (part, [])
  end.

(** [None] when it is no number, name or symbol below: the pattern of [_SPEED]. *)
Record speed := mkSpeed { sp_baud : option Z; sp_parity : option pystr; sp_bits : option Z; sp_stop : option Z }.
Definition _speed (tok : pystr) : option speed :=
  let body := if same_fold (take 6 tok) (str "speed=") then drop 6 tok else tok in
  let '(ds, r) := take_while is_decimal body in
  match ds with
  | [] => None
  | _ =>
      let b := int_of_digits ds in
      match r with
      | [] => Some (mkSpeed b None None None)
      | p :: r =>
          let p := fold_case p in
          if one_of p "neoms" then
            let p := Some [p - 32] in
            match r with
            | [] => Some (mkSpeed b p None None)
            | [x] => if in_range 53 56 x then Some (mkSpeed b p (Some (x - 48)) None)
                     else if in_range 49 50 x then Some (mkSpeed b p None (Some (x - 48))) else None
            | [x; y] => if in_range 53 56 x && in_range 49 50 y
                        then Some (mkSpeed b p (Some (x - 48)) (Some (y - 48))) else None
            | _ => None
            end
          else None
      end
  end.
Definition _windows_device (device : pystr) : pystr :=
  let com := drop 4 device in
  if (str_eqb (take 4 device) (str "\\.\") || str_eqb (take 4 device) (str "//./"))
     && same_fold (take 3 com) (str "com") && not_empty (drop 3 com) && forallb is_decimal (drop 3 com)
  then upper com else device.
Definition _NET_TERMINALS : list string := ["tcp"; "udp"; "sctp"].
Definition _OTHER_TERMINALS : list string :=
  ["unix"; "unixdgram"; "stdio"; "pty"; "file"; "echo"; "dummy"; "conacc"; "ipmisol"; "serialdev"; "sdev";
   "dev"; "sound"; "mdns"; "net"; "telnet"; "ssl"; "certauth"; "mux"].
Definition _SERIAL_FLAGS : list string :=
  ["xonxoff"; "rtscts"; "hangup-when-done"; "hangup_when_done"; "hupcl"; "nobreak"; "rdonly"; "local"].

Section conversion.
Context (say : string → list pystr → pystr) (getservbyname : pystr → option Z) (word : Z → bool).

Definition skip (why : pystr) (c : Conn) : Conn :=
  let m := say "skipped: {0}" [why] in
  note m (set_skipped (add_new m (skipped c)) c).

(** ** The listening side *)
(** [None] when there is no such service; a text that has no UTF-8 form is none, one with a NUL raises. *)
Definition _port_number (text : pystr) : res (option Z) :=
  let text := strip text in
  if isdigit text then
    match int_of_digits text with
    | Some n => Ok (if (1 <=? n) && (n <=? 65535) then Some n else None)
    | None => raise ValueError "invalid literal for int()"
    end
  else match utf8_encode text with
  | Raise _ => Ok None
  | Ok _ => if existsb (Z.eqb 0) text then raise ValueError "embedded null character" else Ok (getservbyname text)
  end.
(** [_bind_ip], with what it sets. *)
Definition _bind_ip (c : Conn) (host family : pystr) : pystr * Conn :=
  let h := strip_by (λ x, one_of x "[]") host in
  match h with
  | [] => ((if str_eqb family (str "ipv6") then str "::" else str "0.0.0.0"), c)
  | _ =>
      if str_eqb (lower h) (str "localhost") then (str "127.0.0.1", c)
      else
        let unusable :=
          (str "0.0.0.0", set_hold (Some (say "listen address '{0}' cannot be used as a bind IP here" [host])) c) in
        match ip_address h with
        | None => unusable
        | Some ip =>
            if is_v6_loopback ip then
              (str "127.0.0.1", note (say "listen address {0} (IPv6 loopback) is not accepted as a bind IP here" [host]) c)
            else if negb (is_multicast ip)
                    && negb (is_reserved ip && negb (is_one (address_text h ip) ["0.0.0.0"; "::"]))
            then (address_text h ip, c)
            else unusable
        end
  end.
Fixpoint families (family : pystr) (fields : list pystr) : pystr * list pystr :=
  match fields with
  | f :: fs => if is_one (lower f) ["ipv4"; "ipv6"; "ipv6n4"] then families (lower f) fs else (family, fields)
  | [] => (family, [])
  end.
Definition _listen_address (fields : list pystr) (c : Conn) : bool * Conn :=
  let '(family, fields) := families [] (List.filter not_empty (strip <$> fields)) in
  match fields with
  | [] => (false, skip (say "the accepter has no port" []) c)
  | f0 :: fs =>
      let '(host, port_s) := match fs with [] => ([], f0) | f1 :: _ => (f0, f1) end in
      let c := match fs with
               | _ :: _ :: _ => note (say "only the first listen address is imported: {0}" [join (str ",") (take 2 fields)]) c
               | _ => c
               end in
      match _port_number port_s with
      | Raise _ => (false, set_broken c)
      | Ok None => (false, skip (say "listen port '{0}' is not a port number between 1 and 65535" [port_s]) c)
      | Ok (Some p) =>
          let c := on_net (n_set_port p) c in
          let '(ip, c) := _bind_ip c host family in
          (true, on_net (n_set_bind ip) c)
      end
  end.

(** [telnet(rfc2217)], [telnet(rfc2217=true)] *)
Definition is_rfc2217 (o : pystr) : bool :=
  let '(k, eq, v) := partition 61 o in
  str_eqb (lower (strip k)) (str "rfc2217")
  && match _bool (if eq then v else str "true") with Some b => b | None => false end.
Fixpoint accepter_layers (spec : pystr) (layers : list pystr) (c : Conn) : bool * Conn :=
  let refuse c := (false, skip (say "accepter '{0}' is not a TCP/UDP port" [spec]) c) in
  match layers with
  | [] => refuse c
  | part :: rest =>
      let '(nm, opts) := _layer part in
      let low := lower nm in
      if is_one low _NET_TERMINALS then
        let c := if str_eqb low (str "udp") then on_net (n_set_mode (str "udp")) c
                 else if str_eqb low (str "sctp") then
                   note (say "SCTP is not supported here: the mapping listens on TCP instead" []) c
                 else c in
        _listen_address rest c
      else if str_eqb low (str "telnet") then
        accepter_layers spec rest
          (on_net (n_set_protocol (if existsb is_rfc2217 opts then str "rfc2217" else str "telnet")) c)
      else if str_eqb low (str "ssl") then
        accepter_layers spec rest (note (say "TLS (ssl) is not imported: the mapping listens without TLS" []) c)
      else if str_eqb low (str "certauth") then
        accepter_layers spec rest (note (say "certauth (gtlssh login) is not imported" []) c)
      else if str_eqb low (str "mux") then accepter_layers spec rest c
      else if is_one low _OTHER_TERMINALS then refuse c
      else accepter_layers spec rest (note (say "accepter layer '{0}' is not imported" [nm]) c)
  end.
Definition _accepter (spec : pystr) (c : Conn) : bool * Conn := accepter_layers spec (_split_gensio spec) c.

(** ** The device side *)
Definition apply_speed (s : speed) (c : Conn) : Conn :=
  let c := match sp_baud s with Some b => set_baud b c | None => set_broken c end in
  let c := match sp_parity s with Some p => set_parity p c | None => c end in
  let c := match sp_bits s with Some b => set_bits b c | None => c end in
  match sp_stop s with Some b => set_stop b c | None => c end.
Definition apply_flag (tok low value : pystr) (flag : bool) (c : Conn) : Conn :=
  if str_eqb low (str "xonxoff") then set_xonxoff flag c
  else if str_eqb low (str "rtscts") then set_rtscts flag c
  else if is_one low ["hangup-when-done"; "hangup_when_done"; "hupcl"] then advance "hangup_when_done" flag c
  else if str_eqb low (str "nobreak") then advance "nobreak" flag c
  else if is_one low ["dtr"; "rts"] then
    let state := if flag then lower (strip (if not_empty value then value else str "on")) else str "off" in
    if is_one state ["on"; "off"] then serial_key (low ++ str "_on_open") (VStr state) c
    else note (say "serial option '{0}' is not on/off, ignored" [tok]) c
  else if str_eqb low (str "rs485") then
    if is_one (lower (strip value)) [EmptyString; "off"%string] then c
    else note (say "{0} is not imported: set RS-485 in the mapping's serial settings" [tok]) c
  else if str_eqb low (str "rdonly") then if flag then on_net n_set_read_only c else c
  else if str_eqb low (str "local") && negb flag then
    note (say "local=false (watching the modem control lines) is not imported" []) c
  else c.
Definition _serial_option (tok : pystr) (c : Conn) : Conn :=
  match _speed tok with
  | Some s => apply_speed s c
  | None =>
      let '(nm, eq, value) := partition 61 tok in
      let low := lower nm in
      let '(low, flag) := if starts_with low (str "-") then (drop 1 low, false) else (low, true) in
      if negb (is_one low (_SERIAL_FLAGS ++ ["dtr"; "rts"; "rs485"])) then
        if is_one low ["custspeed"; "uucplock"; "flock"; "readbuf"] then c else drop_option tok c
      else if eq && flag && is_one low _SERIAL_FLAGS then
        match _bool value with
        | None => note (say "serial option '{0}' has no true/false value, ignored" [tok]) c
        | Some flag => apply_flag tok low value flag c
        end
      else apply_flag tok low value flag c
  end.
Definition serial_options (toks : list pystr) (c : Conn) : Conn := foldl (λ c t, _serial_option t c) c toks.
Fixpoint connector_layers (spec : pystr) (defaults layers : list pystr) (c : Conn) : bool * Conn :=
  let refuse c := (false, skip (say "connector '{0}' is not a local serial port" [spec]) c) in
  match layers with
  | [] => refuse c
  | part :: rest =>
      let '(nm, opts) := _layer part in
      let low := lower nm in
      if is_one low ["serialdev"; "sdev"; "dev"] then
        match rest ≫= words is_space with
        | [] => (false, skip (say "the connector names no device" []) c)
        | dev :: toks =>
            let c := set_device (_windows_device dev) c in
            let c := if str_eqb low (str "dev") then
                       note (say "'dev' (a device without serial settings) is imported as a serial port" []) c
                     else c in
            (true, serial_options (defaults ++ opts ++ toks) c)
        end
      else if is_one low _NET_TERMINALS || is_one low _OTHER_TERMINALS then refuse c
      else connector_layers spec defaults rest (note (say "connector layer '{0}' is not imported" [nm]) c)
  end.
Definition _connector (spec : pystr) (defaults : list pystr) (c : Conn) : bool * Conn :=
  connector_layers spec defaults (_split_gensio spec) c.

(** ** Escapes in strings *)
Inductive piece := Lit (c : Z) | Esc (e : pystr).
Definition is_hex (c : Z) : bool := match hex_digit c with Some _ => true | None => false end.
Definition is_octal (c : Z) : bool := in_range 48 55 c.
(** The matches of [_ESCAPE] and the characters between them. *)
Fixpoint escapes (s : pystr) : list piece :=
  match s with
  | 92 :: s1 =>
      match s1 with
      | [] => [Lit 92]
      | a :: s2 =>
          match s2 with
          | b :: s3 =>
              match s3 with
              | d :: s4 =>
                  if (a =? 120) && is_hex b then
                    if is_hex d then Esc [a; b; d] :: escapes s4 else Esc [a; b] :: escapes s3
                  else if is_octal a && is_octal b then
                    if is_octal d then Esc [a; b; d] :: escapes s4 else Esc [a; b] :: escapes s3
                  else Esc [a] :: escapes s2
              | [] => if ((a =? 120) && is_hex b) || (is_octal a && is_octal b) then [Esc [a; b]]
                      else Esc [a] :: escapes s2
              end
          | [] => [Esc [a]]
          end
      end
  | c :: s' => Lit c :: escapes s'
  | [] => []
  end.
Inductive text_kind := Banner | Bytes | File.
Definition is_banner (k : text_kind) : bool := match k with Banner => true | _ => false end.
Definition is_file (k : text_kind) : bool := match k with File => true | _ => false end.
Definition _C_ESCAPES : list (Z * Z) :=
  [(97, 7); (98, 8); (102, 12); (116, 9); (118, 11); (92, 92); (63, 63); (39, 39); (34, 34)].
Definition _TIME_ESCAPES : string := "YyMmADeUHhiSqPT".
Definition _GONE : Z := 57344.
Definition digits_in (base : Z) (s : pystr) : Z :=
  fold_left (λ acc c, acc * base + default 0 (hex_digit c)) s 0.
Definition last_part (device : pystr) : pystr := match split_last 47 device with Some (_, b) => b | None => device end.
(** [one]: the text, and what it adds to [fixed] and to [dropped]. *)
Definition escape_text (c : Conn) (kind : text_kind) (e : pystr) : pystr * list pystr * list pystr :=
  match e with
  | [] => ([], [], [])
  | ch :: more =>
      let plain s := (s, [], []) in
      if (ch =? 120) && not_empty more then plain [digits_in 16 more]
      else if is_octal ch then plain [Z.land (digits_in 8 e) 255]
      else match find (λ p, p.1 =? ch) _C_ESCAPES with
      | Some (_, r) => plain [r]
      | None =>
          if one_of ch "rn" then plain (if is_banner kind then [92; ch] else if ch =? 114 then [13] else [10])
          else if one_of ch "do" then
            plain (if is_banner kind then str "\d" else if is_file kind then last_part (c_device c) else c_device c)
          else if ch =? 112 then plain (if is_banner kind then str "\p" else str_of_Z (cn_port (c_network c)))
          else if (ch =? 78) && negb (v3 c) then plain (if is_banner kind then str "\N" else c_name c)
          else if (ch =? 73) && is_banner kind then plain (str "\I")
          else if (ch =? 66) || ((ch =? 115) && negb (is_file kind)) then (serial_text c, [[92; ch]], [])
          else if one_of ch _TIME_ESCAPES || one_of ch "Is" then ([_GONE], [], [[92; ch]])
          else plain [ch]
      end
  end.
Definition piece_text (c : Conn) (kind : text_kind) (p : piece) : pystr * list pystr * list pystr :=
  match p with Lit ch => ([ch], [], []) | Esc e => escape_text c kind e end.
(** A dropped part; in a file name its separator goes too. *)
Fixpoint drop_gone (file : bool) (s : pystr) : pystr :=
  match s with
  | x :: s' =>
      if x =? _GONE then drop_gone file s'
      else if file && one_of x "-_.: " then
        match s' with
        | g :: s'' => if g =? _GONE then drop_gone file s'' else x :: drop_gone file s'
        | [] => [x]
        end
      else x :: drop_gone file s'
  | [] => []
  end.
Definition banner_lines (s : pystr) : pystr :=
  replace_all [10] (str "\n") (replace_all [13] (str "\r") s).
Definition _convert (text : pystr) (kind : text_kind) (what : pystr) (c : Conn) : pystr * Conn :=
  let text := if is_banner kind then banner_lines text else text in
  let ps := piece_text c kind <$> escapes text in
  let out := drop_gone (is_file kind) (ps ≫= λ p, p.1.1) in
  let fixed := ps ≫= λ p, p.1.2 in
  let gone := ps ≫= λ p, p.2 in
  let c1 := if match fixed with [] => false | _ => true end
            then note (say "{0}: {1} (serial parameters) is written as the fixed text {2}"
                           [what; join (str "/") (uniq [] fixed); serial_text c]) c else c in
  let c2 := if match gone with [] => false | _ => true end
            then note (say (if is_file kind then "{0}: {1} in the file name left out"
                            else "{0}: {1} not supported here, left out")
                           [what; join (str " ") (uniq [] gone)]) c1 else c1 in
  (out, c2).

(** ** Options of a connection *)
Definition _flag (k value : pystr) (c : Conn) : option bool * Conn :=
  match _bool value with
  | None => (None, note (say "{0}: '{1}' is not true/false, ignored" [k; value]) c)
  | b => (b, c)
  end.
Definition _idle_timeout (value : pystr) (c : Conn) : Conn :=
  let v := strip value in
  if isdigit v then
    with_int v (λ n c,
      let c := option_key (str "idle_timeout_s") (VInt (Z.min n MAX_TIMER_S)) c in
      if MAX_TIMER_S <? n then
        note (say "timeout {0} s is longer than the maximum here: set to {1} s" [v; str_of_Z MAX_TIMER_S]) c
      else c) c
  else if not_empty v then note (say "timeout '{0}' is not a number of seconds, ignored" [value]) c
  else c.
Fixpoint drop_families (fields : list pystr) : list pystr :=
  match fields with
  | f :: fs => if is_one (lower f) ["ipv4"; "ipv6"; "ipv6n4"; "tcp"; "udp"; "sctp"] then drop_families fs else fields
  | [] => []
  end.
Definition remaddr_entry (c : Conn) (entry : pystr) : Conn :=
  if starts_with entry (str "!") then note (say "remaddr {0}: connect-back addresses are not imported" [entry]) c
  else
    let fields := drop_families (List.filter not_empty (strip <$> split_on 44 entry)) in
    let host := match fields with f :: _ => f | [] => [] end in
    match ip_network host with
    | None => note (say "remaddr {0}: only IP addresses and subnets can be imported" [entry]) c
    | Some _ =>
        let c := match fields with
                 | _ :: f :: _ => note_if (negb (str_eqb f (str "0")))
                                    (say "remaddr {0}: only the client address is checked here, not its port" [entry]) c
                 | _ => c
                 end in
        on_net (λ n, n_set_allowed (add_new host (default [] (cn_allowed n))) n) c
    end.
Definition _remaddr (value : pystr) (c : Conn) : Conn :=
  let c := set_access true c in
  let c := on_net (λ n, n_set_allowed (default [] (cn_allowed n)) n) c in
  foldl remaddr_entry c (words (λ x, (x =? 59) || is_space x) (strip value)).
(** [_TRACE_MOD.fullmatch(k)] *)
Definition _trace_mod (k : pystr) : option (pystr * pystr) :=
  match find (λ m, str_eqb k (str "trace-" ++ str m)) ["hexdump"; "timestamp"]%string with
  | Some m => Some (str "all", str m)
  | None =>
      snd <$> find (λ p, str_eqb k p.1)
        (d ← ["both"; "read"; "write"]%string; m ← ["hexdump"; "timestamp"]%string;
         [(str "trace-" ++ str d ++ str "-" ++ str m, (str d, str m))])
  end.
Fixpoint mod_set (k : pystr * pystr) (b : bool) (l : list ((pystr * pystr) * bool)) : list ((pystr * pystr) * bool) :=
  match l with
  | [] => [(k, b)]
  | (k', b') :: l' => if bool_decide (k = k') then (k', b) :: l' else (k', b') :: mod_set k b l'
  end.
Definition mod_get (k : pystr * pystr) (l : list ((pystr * pystr) * bool)) : option bool :=
  snd <$> find (λ p, bool_decide (p.1 = k)) l.
Definition _option (ky value : pystr) (c : Conn) : Conn :=
  let k := lower (strip ky) in
  if is_one k ["timeout"; "connection timeout"] then _idle_timeout value c
  else if str_eqb k (str "kickolduser") then
    match _flag ky value c with (Some b, c) => on_net (n_set_kick b) c | (None, c) => c end
  else if str_eqb k (str "max-connections") then
    let n := strip value in
    let unusable c := note (say "max-connections '{0}' is not a number >= 1, ignored" [value]) c in
    if isdigit n then with_int n (λ k c, if 1 <=? k then on_net (n_set_max k) c else unusable c) c else unusable c
  else if is_one k ["banner"; "openstr"; "closestr"; "closeon"] then set_strings (dict_set k value (c_strings c)) c
  else if is_one k ["trace-both"; "trace-read"; "trace-write"] then
    if not_empty (strip value) then set_traces (dict_set (drop 6 k) (strip value) (traces c)) c else c
  else match _trace_mod k with
  | Some m => match _flag ky value c with (Some b, c) => set_trace_mods (mod_set m b (trace_mods c)) c | (None, c) => c end
  | None =>
      if str_eqb k (str "remaddr") then _remaddr value c
      else if str_eqb k (str "no-acc-to-con") then
        match _flag ky value c with (Some true, c) => on_net n_set_read_only c | (_, c) => c end
      else if str_eqb k (str "telnet-brk-on-sync") then
        if match _bool value with Some b => b | None => false end && negb (str_eqb (cn_protocol (c_network c)) (str "raw"))
        then drop_option ky c else c
      else if str_eqb k (str "chardelay") then c
      else drop_option ky c
  end.

(** ** The end of a connection *)
Definition finish_string (c : Conn) (k : string) : Conn :=
  match assoc (str k) (c_strings c) with
  | None => c
  | Some s =>
      let '(t, c) := _convert s (if String.eqb k "banner" then Banner else Bytes) (str k) c in
      option_key (str k) (VStr t) c
  end.
Definition DIRECTIONS : list string := ["both"; "read"; "write"].
Definition trace_label (c : Conn) (k : pystr) : pystr :=
  if v3 c then
    if str_eqb k (str "both") then str "tb" else if str_eqb k (str "read") then str "tr" else str "tw"
  else str "trace-" ++ k.
Definition finish_trace (c : Conn) : Conn :=
  match find (λ k, match assoc (str k) (traces c) with Some _ => true | None => false end) DIRECTIONS with
  | None => c
  | Some kind =>
      let k := str kind in
      let label := trace_label c k in
      let '(path, c) := _convert (default [] (assoc k (traces c))) File label c in
      let nm := trace_file_name word path in
      let c := if not_empty nm then
                 let c := option_key (str "trace_both") (VStr path) c in
                 let c := note_if (negb (String.eqb kind "both"))
                            (say "{0}: both directions are traced into one file here" [label]) c in
                 note_if (negb (str_eqb nm path))
                   (say "trace file: written as traces/<mapping id>-{0} in the data directory" [nm; path]) c
               else c in
      let c := foldl (λ c other, note_if (negb (str_eqb other k))
                        (say "{0} is not imported: one trace file per mapping" [trace_label c other]) c) c (traces c).*1 in
      foldl (λ c m, match (match mod_get (k, str m) (trace_mods c) with
                           | Some b => Some b | None => mod_get (str "all", str m) (trace_mods c) end) with
                    | Some b => option_key (str "trace_" ++ str m) (VBool b) c
                    | None => c
                    end) c ["hexdump"; "timestamp"]%string
  end.
Definition no_clients (n : ConnNetwork) : bool := match cn_allowed n with Some (_ :: _) => false | _ => true end.
Definition finish_flow (c : Conn) : Conn :=
  let c := note_if (rtscts c && xonxoff c) (say "both RTS/CTS and XON/XOFF are on: only RTS/CTS is imported" []) c in
  serial_key (str "flowcontrol") (vstr (if rtscts c then "rtscts" else if xonxoff c then "xonxoff" else "none")) c.
Definition finish_protocol (c : Conn) : Conn :=
  let net := c_network c in
  let c := if str_eqb (cn_mode net) (str "udp") && negb (str_eqb (cn_protocol net) (str "raw")) then
             on_net (n_set_protocol (str "raw"))
               (note (say "{0} over UDP is not supported here: imported as raw UDP" [cn_protocol net]) c)
           else c in
  let net := c_network c in
  if str_eqb (cn_protocol net) (str "rfc2217") && (1 <? default 1 (cn_max_connections net)) then
    on_net (n_set_max 1) (note (say "RFC2217 allows a single client here: max-connections set to 1" []) c)
  else c.
(** A connection that would be open wider than the file says comes in disabled. *)
Definition finish_hold (c : Conn) : Conn :=
  let c := if access_given c && no_clients (c_network c) then
             set_hold (Some (say "remaddr could not be imported: the mapping is imported disabled" [])) c
           else c in
  match hold c with Some m => note m (set_c_enabled false c) | None => c end.
Definition finish_dropped (c : Conn) : Conn :=
  match dropped c with
  | [] => c
  | d => note (say "not imported (no equivalent here): {0}" [join (str ", ") d]) c
  end.
Definition _finish (c : Conn) : Conn :=
  finish_dropped (finish_hold (finish_trace
    (foldl finish_string (finish_protocol (finish_flow c)) ["banner"; "openstr"; "closestr"; "closeon"]%string))).
(** [_notes]: a connection's warnings; for a skipped one only why. *)
Definition _notes (c : Conn) (imported : bool) : list pystr :=
  (λ n, c_label c ++ str ": " ++ n) <$> (if imported then notes c else skipped c).

(** ** All connections of a file *)
Section assemble.
Context (repr : pyval → pystr) (isfile : pystr → bool).

(** [MappingConfig.from_dict(c.to_dict()).validate()]; the id plays no part. *)
Definition conn_valid (c : Conn) : res unit :=
  m ← mapping_from_dict word repr (str "id") (conn_to_dict c);
  mapping_validate isfile m.
Definition over_udp (c : Conn) : bool := str_eqb (cn_mode (c_network c)) (str "udp").
Definition same_listener (c o : Conn) : bool :=
  (cn_port (c_network o) =? cn_port (c_network c)) && Bool.eqb (over_udp o) (over_udp c)
  && _ip_overlaps (VStr (cn_bind_ip (c_network o))) (VStr (cn_bind_ip (c_network c))).
Fixpoint keep_conns (kept : list Conn) (ws : list pystr) (conns : list Conn) : res (list Conn * list pystr) :=
  match conns with
  | [] => Ok (kept, ws)
  | c :: conns' =>
      match conn_valid c with
      | Raise e =>
          if type_or_value e then keep_conns kept (ws ++ [say "{0}: skipped: {1}" [c_label c; str (exn_msg e)]]) conns'
          else Raise e
      | Ok _ =>
          match find (same_listener c) kept with
          | Some other =>
              keep_conns kept
                (ws ++ [say "{0}: skipped: {1} port {2} is already used by '{3}'"
                          [c_label c; (if over_udp c then str "UDP" else str "TCP"); str_of_Z (cn_port (c_network c)); c_name other]])
                conns'
          | None => keep_conns (kept ++ [c]) ws conns'
          end
      end
  end.
Definition numbered (base : pystr) (k : Z) : pystr := base ++ str " (" ++ str_of_Z k ++ str ")".
(** [while c.name in used]: [fuel] bounds the numbers tried. *)
Fixpoint free_name (fuel : nat) (used : list pystr) (base nm : pystr) (k : Z) : res pystr :=
  if existsb (str_eqb nm) used then
    match fuel with
    | O => raise OutOfFuel ""
    | S fuel' => free_name fuel' used base (numbered base (k + 1)) (k + 1)
    end
  else Ok nm.
(** Only one connection of a device stays enabled. *)
Definition claim_device (owner : list (pystr * pystr)) (c : Conn) : Conn * list (pystr * pystr) * list pystr :=
  match c_enabled c, assoc (c_device c) owner with
  | true, Some o => (set_c_enabled false c, owner,
                     [say "{0}: imported disabled: {1} is also used by '{2}'" [c_label c; c_device c; o]])
  | true, None => (c, (c_device c, c_name c) :: owner, [])
  | false, _ => (c, owner, [])
  end.
Fixpoint settle_conns (used : list pystr) (owner : list (pystr * pystr)) (ws : list pystr) (kept : list Conn)
    : res (list Conn * list pystr) :=
  match kept with
  | [] => Ok ([], ws)
  | c :: kept' =>
      let base := c_name c in
      nm ← free_name (S (length used)) used base base 1;
      let w1 := if str_eqb nm base then []
                else [say "{0}: renamed to '{1}' (the name is used twice)" [c_label c; nm]] in
      let '(c, owner, w2) := claim_device owner (set_name nm c) in
      '(cs, ws) ← settle_conns (nm :: used) owner (ws ++ w1 ++ w2) kept';
      Ok (c :: cs, ws)
  end.
Definition _assemble (conns : list Conn) (ws : list pystr) : res (list pyval * list pystr) :=
  '(kept, ws) ← keep_conns [] ws conns;
  '(cs, ws) ← settle_conns [] [] ws kept;
  Ok (conn_to_dict <$> (cs : list Conn), ws : list pystr).
End assemble.
End conversion.

(** ** The whole import can be applied *)
Section applicable.
Context (say : string → list pystr → pystr) (word : Z → bool) (repr : pyval → pystr) (isfile : pystr → bool).

Lemma numbered_inj base j k : numbered base j = numbered base k → j = k.
Proof.
  unfold numbered. intros H%(inj (app base))%(inj (app (str " ("))). apply str_of_Z_inj.
  by apply (inj (λ l, l ++ str ")")).
Qed.
Lemma existsb_str x l : existsb (str_eqb x) l = true ↔ x ∈ l.
Proof.
  rewrite existsb_exists. split.
  - intros (y & Hy & ->%str_eqb_eq). by apply list_elem_of_In.
  - intros H. exists x. split; [by apply list_elem_of_In|by apply str_eqb_eq].
Qed.
Lemma free_name_cases fuel used base nm k :
  (∃ x, (free_name fuel used base nm k = Ok x) ∧ x ∉ used ∧ (x = nm ∨ ∃ j, x = numbered base j))
  ∨ ∀ i, 1 <= i <= Z.of_nat fuel → numbered base (k + i) ∈ used.
Proof.
  revert nm k. induction fuel as [|fuel IH]; intros nm k; cbn [free_name].
  { right. lia. }
  destruct (existsb (str_eqb nm) used) eqn:E.
  2: { left. exists nm. split_and!; [done| |by left]. intros H%existsb_str. congruence. }
  destruct (IH (numbered base (k + 1)) (k + 1)) as [(x & -> & Hx & Hc)|Hall].
  - left. exists x. split_and!; [done..|]. right. destruct Hc as [-> |?]; eauto.
  - destruct (existsb (str_eqb (numbered base (k + 1))) used) eqn:E1.
    + right. intros i Hi. destruct (Z.eq_dec i 1) as [->|Hne]; [by apply existsb_str|].
      replace (k + i) with (k + 1 + (i - 1)) by lia. apply Hall. lia.
    + left. exists (numbered base (k + 1)). split_and!; [|intros H%existsb_str; congruence|right; eauto].
      destruct fuel; cbn [free_name]; by rewrite E1.
Qed.
Lemma free_name_ok used base nm k :
  ∃ x, (free_name (S (length used)) used base nm k = Ok x) ∧ x ∉ used ∧ (x = nm ∨ ∃ j, x = numbered base j).
Proof.
  destruct (free_name_cases (S (length used)) used base nm k) as [H|H]; [done|]. exfalso.
  set (l := (λ i : nat, numbered base (k + 1 + Z.of_nat i)) <$> seq 0 (S (length used))).
  assert (l ⊆+ used) as Hs%submseteq_length.
  { apply NoDup_submseteq.
    - apply NoDup_fmap_2_strong; [|apply NoDup_seq]. intros i j _ _ ?%numbered_inj. lia.
    - intros x (i & -> & Hi%elem_of_seq)%list_elem_of_fmap.
      replace (k + 1 + Z.of_nat i) with (k + (1 + Z.of_nat i)) by lia. apply H. lia. }
  unfold l in Hs. rewrite length_fmap, length_seq in Hs. lia.
Qed.

(** What becomes of a kept connection: perhaps another name, perhaps disabled. *)
Definition settled (c c' : Conn) : Prop :=
  ∃ nm e, c' = set_c_enabled e (set_name nm c) ∧ (nm = c_name c ∨ ∃ j, nm = numbered (c_name c) j).
Definition claims (cs : list Conn) : list pystr := c_device <$> List.filter c_enabled cs.

Lemma claim_spec owner c : ∃ e owner' w, claim_device say owner c = (set_c_enabled e c, owner', w)
  ∧ (e = true → assoc (c_device c) owner = None)
  ∧ ∀ d, assoc d owner' = if e && str_eqb d (c_device c) then Some (c_name c) else assoc d owner.
Proof.
  unfold claim_device. destruct c as [nm lbl v en dev]. cbn [c_enabled c_device c_name]. destruct en.
  - destruct (assoc dev owner) as [o|] eqn:E; [by eexists false, owner, _|].
    exists true, ((dev, nm) :: owner). eexists. split_and!; [done..|]. intros d. cbn. by destruct (str_eqb d dev).
  - by exists false, owner, [].
Qed.
Lemma settle_spec used owner ws kept :
  ∃ cs ws', settle_conns say used owner ws kept = Ok (cs, ws') ∧ Forall2 settled kept cs
    ∧ NoDup (c_name <$> cs) ∧ (∀ c, c ∈ cs → c_name c ∉ used)
    ∧ NoDup (claims cs) ∧ (∀ d, d ∈ claims cs → assoc d owner = None).
Proof.
  revert used owner ws. induction kept as [|c kept IH]; intros used owner ws; cbn [settle_conns].
  { exists [], ws. split_and!; [done|constructor|constructor|set_solver|constructor|set_solver]. }
  destruct (free_name_ok used (c_name c) (c_name c) 1) as (nm & -> & Hu & Hn). cbn [mbind res_bind].
  destruct (claim_spec owner (set_name nm c)) as (e & owner' & w & -> & He & Ho).
  match goal with |- context [settle_conns _ _ _ ?w kept] => destruct (IH (nm :: used) owner' w) as (cs & ws' & -> & H2 & Hnd & Hnu & Hcl & Hco) end.
  eexists _, ws'. split; [done|]. split; [by constructor; [exists nm, e|]|]. cbn [fmap list_fmap]. split_and!.
  - constructor; [|done]. intros (x & Hx & Hin)%list_elem_of_fmap. apply (Hnu x Hin). rewrite <- Hx. by left.
  - intros x [-> | Hin]%elem_of_cons; [done|]. specialize (Hnu x Hin). set_solver.
  - unfold claims. cbn [List.filter]. change (c_enabled (set_c_enabled e _)) with e. destruct e; [|done].
    constructor; [|done]. intros Hin%Hco. rewrite Ho in Hin. cbn in Hin. by rewrite str_eqb_refl in Hin.
  - unfold claims. cbn [List.filter]. change (c_enabled (set_c_enabled e _)) with e.
    assert (∀ d, d ∈ claims cs → assoc d owner = None) as Hrest.
    { intros d Hd%Hco. rewrite Ho in Hd. destruct (e && _); done. }
    destruct e; [|done]. cbn [fmap list_fmap]. intros d [-> | Hd]%elem_of_cons; [by apply He|by apply Hrest].
Qed.

(** The listeners of the kept connections are apart. *)
Definition apart (l : list Conn) : Prop :=
  ∀ i j o c, (i < j)%nat → l !! i = Some o → l !! j = Some c → same_listener c o = false.
Lemma apart_snoc l c : apart l → find (same_listener c) l = None → apart (l ++ [c]).
Proof.
  intros Hl Hf i j o d Hij Hi Hj. apply lookup_app_Some in Hj as [Hj|[Hle Hj]].
  - apply (Hl i j); [done| |done]. rewrite lookup_app_l in Hi; [done|]. apply lookup_lt_Some in Hj. lia.
  - apply list_lookup_singleton_Some in Hj as [Hj <-]. rewrite lookup_app_l in Hi by lia.
    eapply find_none; [exact Hf|]. apply list_elem_of_In. by eapply list_elem_of_lookup_2.
Qed.
Lemma keep_spec kept ws conns kept' ws' :
  keep_conns say word repr isfile kept ws conns = Ok (kept', ws') →
  Forall (λ c, conn_valid word repr isfile c = Ok tt) kept → apart kept →
  Forall (λ c, conn_valid word repr isfile c = Ok tt) kept' ∧ apart kept'.
Proof.
  revert kept ws. induction conns as [|c conns IH]; intros kept ws; cbn [keep_conns].
  { intros [= <- <-]. done. }
  destruct (conn_valid word repr isfile c) as [[]|e] eqn:E.
  - destruct (find (same_listener c) kept) eqn:F; intros H Hv Ha; [by eapply IH|].
    eapply IH; [exact H| |by apply apart_snoc]. apply Forall_app. by split; [|apply Forall_singleton].
  - destruct (type_or_value e); [|done]. apply IH.
Qed.

Lemma lstrip_empty p s : lstrip_by p s = [] → Forall (λ c, p c = true) s.
Proof. induction s as [|c s IH]; cbn; [constructor|]. destruct (p c) eqn:E; [|done]. constructor; auto. Qed.
Lemma strip_empty s : strip s = [] → Forall (λ c, is_space c = true) s.
Proof.
  unfold strip, strip_by, rstrip_by. intros H. destruct (lstrip_by is_space s) as [|c r] eqn:E.
  { by apply lstrip_empty. }
  apply (f_equal (@rev Z)) in H. rewrite rev_involutive in H. apply lstrip_empty, Forall_rev in H.
  rewrite rev_involutive in H. apply Forall_cons in H as [H _]. apply lstrip_by_head in E. congruence.
Qed.
Lemma numbered_not_blank base j : is_empty (strip (numbered base j)) = false.
Proof.
  destruct (strip (numbered base j)) eqn:E; [|done]. apply strip_empty in E. unfold numbered in E.
  rewrite !Forall_app in E. destruct E as (_ & _ & _ & E). by apply Forall_cons in E as [? _].
Qed.

Lemma mapping_validate_body m :
  mapping_validate isfile m = Ok tt ↔
  (nm ← strip_of (name m); raise_if (is_empty nm) ConfigError "Mapping name is required.") = Ok tt
  ∧ ∀ i nm e, is_str nm = true → is_empty (strip (match nm with VStr s => s | _ => [] end)) = false →
     mapping_validate isfile (mkMapping i nm e (kind m) (serial m) (serial_b m) (network m) (options m) (mqtt m) (modbus_poll m)) = Ok tt.
Proof.
  unfold mapping_validate. destruct m as [mi mn me mk ms mb mnet mo mq mp].
  cbn [name kind serial serial_b network options mqtt modbus_poll].
  destruct (strip_of mn) as [s|e]; cbn [mbind res_bind].
  - split.
    + intros H. destruct (raise_if (is_empty s) ConfigError "Mapping name is required.") as [[]|]; [|done].
      split; [done|]. intros i nm e Hs He. destruct nm; try done. cbn [strip_of mbind res_bind]. rewrite He. exact H.
    + intros [-> H]. specialize (H VNone (vstr "x") true eq_refl eq_refl). exact H.
  - split; [done|]. by intros [? _].
Qed.
Definition mapped (c : Conn) (m : MappingConfig) : Prop :=
  mapping_validate isfile m = Ok tt ∧ name m = VStr (c_name c) ∧ enabled m = c_enabled c
  ∧ (devices_of m = [] ∨ devices_of m = [VStr (c_device c)])
  ∧ ∀ e, binds m = Some e → e = (over_udp c, VStr (cn_bind_ip (c_network c)), cn_port (c_network c)).
Lemma conn_mapping fresh c :
  mapping_from_dict word repr fresh (conn_to_dict c) =
    (s ← SerialSettings_from_dict (serial_dict c); sb ← SerialSettings_from_dict (VDict []);
     n ← NetworkSettings_from_dict (network_dict (c_network c)); o ← options_from_dict word repr (VDict (c_options c));
     mq ← mqtt_from_dict (VDict []); p ← poll_from_dict (VDict []);
     Ok (mkMapping (or_else VNone (VStr fresh)) (VStr (c_name c)) (c_enabled c) (vstr "net") s sb n o mq p)).
Proof. reflexivity. Qed.
Lemma conn_mapping_inv fresh c m :
  mapping_from_dict word repr fresh (conn_to_dict c) = Ok m →
  m = mkMapping (or_else VNone (VStr fresh)) (VStr (c_name c)) (c_enabled c) (vstr "net") (serial m) (serial_b m) (network m)
        (options m) (mqtt m) (modbus_poll m)
  ∧ SerialSettings_from_dict (serial_dict c) = Ok (serial m)
  ∧ NetworkSettings_from_dict (network_dict (c_network c)) = Ok (network m)
  ∧ ∀ fresh' nm e, mapping_from_dict word repr fresh' (conn_to_dict (set_c_enabled e (set_name nm c))) =
      Ok (mkMapping (or_else VNone (VStr fresh')) (VStr nm) e (kind m) (serial m) (serial_b m) (network m) (options m) (mqtt m)
            (modbus_poll m)).
Proof.
  rewrite conn_mapping. intros (s & Hs & H)%res_bind_Ok. apply res_bind_Ok in H as (sb & Hsb & H).
  apply res_bind_Ok in H as (n & Hn & H). apply res_bind_Ok in H as (o & Ho & H). apply res_bind_Ok in H as (q & Hq & H).
  apply res_bind_Ok in H as (p & Hp & H). injection H as <-. cbn [serial network kind serial_b options mqtt modbus_poll].
  split_and!; [done..|]. intros fresh' nm e. rewrite conn_mapping.
  change (serial_dict (set_c_enabled e (set_name nm c))) with (serial_dict c).
  change (c_network (set_c_enabled e (set_name nm c))) with (c_network c).
  change (c_options (set_c_enabled e (set_name nm c))) with (c_options c).
  by rewrite Hs, Hsb, Hn, Ho, Hq, Hp.
Qed.
Lemma conn_fields fresh c m :
  mapping_from_dict word repr fresh (conn_to_dict c) = Ok m →
  name m = VStr (c_name c) ∧ kind m = vstr "net" ∧ enabled m = c_enabled c
  ∧ s_port (serial m) = VStr (c_device c) ∧ mode (network m) = VStr (cn_mode (c_network c))
  ∧ bind_ip (network m) = VStr (cn_bind_ip (c_network c)) ∧ port (network m) = VInt (cn_port (c_network c)).
Proof.
  intros (E & Hs & Hn & _)%conn_mapping_inv. rewrite E. cbn [name kind enabled serial network].
  unfold SerialSettings_from_dict, serial_dict in Hs. cbn [as_dict mbind res_bind] in Hs.
  destruct (if truthy _ then _ else _) as [a|]; [|done]. injection Hs as <-.
  unfold NetworkSettings_from_dict, network_dict in Hn. cbn [as_dict mbind res_bind] in Hn. by injection Hn as <-.
Qed.
Lemma settled_mapped fresh c c' :
  conn_valid word repr isfile c = Ok tt → settled c c' →
  ∃ m, mapping_from_dict word repr fresh (conn_to_dict c') = Ok m ∧ mapped c' m.
Proof.
  intros (m & Hm & Hv)%res_bind_Ok (nm & e & -> & Hn).
  pose proof (conn_mapping_inv _ _ _ Hm) as (_ & _ & _ & Hm'). specialize (Hm' fresh nm e). eexists. split; [exact Hm'|].
  destruct (conn_fields _ _ _ Hm) as (Hnm & Hk & _). destruct (conn_fields _ _ _ Hm') as (Hnm' & Hk' & He & Hp & Hmo & Hb & Hpo).
  set (m' := mkMapping _ _ _ _ _ _ _ _ _ _) in *.
  apply mapping_validate_body in Hv as [Hbase Hv]. unfold mapped. split_and!; [|done..| |].
  - apply Hv; [done|]. destruct Hn as [-> | [j ->]]; [|apply numbered_not_blank].
    rewrite Hnm in Hbase. cbn [strip_of mbind res_bind] in Hbase. by apply raise_if_Ok in Hbase.
  - unfold devices_of. rewrite Hk'. change (eq_str (vstr "net") (str "serialbridge")) with false. cbn [andb].
    rewrite app_nil_r, Hp. destruct (_ && _); [by right|by left].
  - intros ep. unfold binds. rewrite Hmo, Hb, Hpo. destruct (_ && _); [|done]. by intros [= <-].
Qed.

Definition endpoint_of (c : Conn) : endpoint := (over_udp c, VStr (cn_bind_ip (c_network c)), cn_port (c_network c)).
Lemma clash_same c o : clashes (endpoint_of o) (endpoint_of c) = same_listener c o.
Proof. unfold clashes, same_listener, endpoint_of. cbn [fst snd]. by rewrite (andb_comm (Bool.eqb _ _)). Qed.
Lemma apart_cons c l : apart (c :: l) → apart l ∧ ∀ d, d ∈ l → same_listener d c = false.
Proof.
  intros H. split.
  - intros i j o d Hij Hi Hj. apply (H (S i) (S j)); [lia|done..].
  - intros d [j Hj]%list_elem_of_lookup_1. apply (H O (S j)); [lia|done..].
Qed.
Lemma claim_ok m d owner :
  vassoc (VStr d) owner = None →
  ∀ devs, devs = [] ∨ devs = [VStr d] → ∃ owner', claim_devices m devs owner = Ok owner'
    ∧ ∀ x, x ≠ d → vassoc (VStr x) owner = None → vassoc (VStr x) owner' = None.
Proof.
  intros Hd devs [-> | ->]; cbn [claim_devices hashable negb raise_if mbind res_bind]; [by exists owner|].
  rewrite Hd. cbn [raise_if mbind res_bind]. eexists. split; [done|]. intros x Hx Ho. cbn [vassoc].
  destruct (py_eq (VStr x) (VStr d)) eqn:E; [|done]. apply py_eq_str in E. by injection E as ->.
Qed.
Lemma mapped_list_valid cs ms owner seen :
  Forall2 mapped cs ms → NoDup (claims cs) → apart cs →
  (∀ d, d ∈ claims cs → vassoc (VStr d) owner = None) →
  (∀ s c, s ∈ seen → c ∈ cs → clashes s (endpoint_of c) = false) →
  validate_mappings isfile ms owner seen = Ok tt.
Proof.
  intros H. revert owner seen. induction H as [|c m cs ms (Hv & Hn & He & Hd & Hb) _ IH]; intros owner seen Hnd Ha Ho Hs; [done|].
  cbn [validate_mappings]. rewrite Hv. cbn [mbind res_bind]. apply apart_cons in Ha as [Ha Hc].
  assert (∃ owner', (if enabled m then claim_devices m (devices_of m) owner else Ok owner) = Ok owner'
            ∧ ∀ d, d ∈ claims cs → vassoc (VStr d) owner' = None) as (owner' & -> & Ho').
  { rewrite He. unfold claims in Hnd, Ho. cbn [List.filter] in Hnd, Ho. destruct (c_enabled c); [|by exists owner].
    cbn [fmap list_fmap] in Hnd, Ho. apply NoDup_cons in Hnd as [Hnew Hnd].
    destruct (claim_ok m (c_device c) owner) with (devs := devices_of m) as (owner' & -> & Hx); [apply Ho; left|done|].
    exists owner'. split; [done|]. intros d Hin. apply Hx; [intros ->; by apply Hnew|]. apply Ho. by right. }
  assert (NoDup (claims cs)) as Hnd'.
  { unfold claims in Hnd. cbn [List.filter] in Hnd. destruct (c_enabled c); [by apply NoDup_cons in Hnd as [_ ?]|done]. }
  cbn [mbind res_bind]. destruct (binds m) as [ep|] eqn:Eb.
  - rewrite (Hb _ eq_refl). change (over_udp c, _, _) with (endpoint_of c).
    assert (existsb (λ s, clashes s (endpoint_of c)) seen = false) as ->.
    { apply not_true_is_false. intros (s & Hin & Hcl)%existsb_exists. apply list_elem_of_In in Hin.
      rewrite (Hs s c) in Hcl; [done|done|left]. }
    cbn [raise_if mbind res_bind]. apply IH; [done..|]. intros s d [-> | Hin]%elem_of_cons Hd'.
    + rewrite clash_same. by apply Hc.
    + apply Hs; [done|by right].
  - apply IH; [done..|]. intros s d Hin Hd'. apply Hs; [done|by right].
Qed.
Lemma settled_same c c' : settled c c' → endpoint_of c' = endpoint_of c.
Proof. by intros (nm & e & -> & _). Qed.
Lemma settled_apart l l' : Forall2 settled l l' → apart l → apart l'.
Proof.
  intros H Ha i j o c Hij Hi Hj.
  destruct (Forall2_lookup_r _ _ _ _ _ H Hi) as (o' & Ho' & Eo). destruct (Forall2_lookup_r _ _ _ _ _ H Hj) as (c' & Hc' & Ec).
  rewrite <- clash_same, (settled_same _ _ Eo), (settled_same _ _ Ec), clash_same. by eapply Ha.
Qed.
Lemma load_settled fresh i kept cs :
  Forall (λ c, conn_valid word repr isfile c = Ok tt) kept → Forall2 settled kept cs →
  ∃ ms, mappings_from word repr fresh i (conn_to_dict <$> cs) = Ok ms ∧ Forall2 mapped cs ms.
Proof.
  intros Hv H. revert i. induction H as [|c c' kept cs Hc _ IH]; intros i.
  { exists []. by split; [|constructor]. }
  apply Forall_cons in Hv as [Hv1 Hv]. destruct (settled_mapped (fresh i) _ _ Hv1 Hc) as (m & Hm & Hmap).
  destruct (IH Hv (S i)) as (ms & Hms & HF). exists (m :: ms). split; [|by constructor].
  cbn [fmap list_fmap mappings_from]. rewrite Hm. cbn [mbind res_bind]. by rewrite Hms.
Qed.
Lemma mapped_names cs ms : Forall2 mapped cs ms → name <$> ms = VStr <$> (c_name <$> cs).
Proof. induction 1 as [|c m cs ms (_ & Hn & _) _ IH]; [done|]. cbn. by rewrite Hn, IH. Qed.

(** Whatever connections a file gave: the mappings that come out load, form together a configuration that
    validates and have distinct names. *)
Lemma assemble_applies fresh conns ws ds ws' :
  _assemble say word repr isfile conns ws = Ok (ds, ws') →
  ∃ ms, mappings_from word repr fresh 0 ds = Ok ms
    ∧ validate_mappings isfile ms [] [] = Ok tt ∧ NoDup (name <$> ms).
Proof.
  intros ([kept w] & Hk & H)%res_bind_Ok. cbn beta iota in H.
  destruct (keep_spec _ _ _ _ _ Hk) as [Hv Ha]; [apply Forall_nil_2|by intros i j o c _|].
  destruct (settle_spec [] [] w kept) as (cs & w' & Hs & H2 & Hnd & _ & Hcl & _). rewrite Hs in H.
  cbn [mbind res_bind] in H. injection H as <- <-.
  destruct (load_settled fresh 0 _ _ Hv H2) as (ms & Hms & HF). exists ms. split_and!; [done| |].
  - eapply mapped_list_valid; [done|done|by eapply settled_apart|done|by intros s c ?%not_elem_of_nil].
  - rewrite (mapped_names _ _ HF). apply NoDup_fmap_2_strong; [|done]. by intros x y _ _ [= ->].
Qed.
End applicable.

(** Messages as the format and its arguments, for concrete runs. *)
Definition plain_say (f : string) (args : list pystr) : pystr := join (str " | ") (str f :: args).
Definition demo_conn (nm dev ip : string) (p : Z) : Conn :=
  on_net (λ n, n_set_port p (n_set_bind (str ip) n)) (set_device (str dev) (new_conn (str nm) (str nm) false)).
Definition demo_conns : list Conn :=
  [demo_conn "a" "/dev/ttyS0" "127.0.0.1" 3000; demo_conn "a" "/dev/ttyS0" "0.0.0.0" 3001;
   demo_conn "b" "/dev/ttyS1" "0.0.0.0" 3000; demo_conn "a" "/dev/ttyS1" "0.0.0.0" 0;
   demo_conn "a" "/dev/ttyS2" "10.0.0.1" 3000].
Definition demo_assembled : list pyval * list pystr :=
  match _assemble plain_say ascii_word (λ _, []) (λ _, false) demo_conns [] with Ok r => r | Raise _ => ([], []) end.
(** The second is renamed and disabled, the third and the fourth are skipped. *)
Example assemble_demo : map (λ v, match v with VDict d => (assoc (str "name") d, assoc (str "enabled") d) | _ => (None, None) end)
    demo_assembled.1 =
  [(Some (vstr "a"), Some (VBool true)); (Some (vstr "a (2)"), Some (VBool false)); (Some (vstr "a (3)"), Some (VBool true))]
  ∧ length demo_assembled.2 = 5%nat.
Proof. by vm_compute. Qed.

(** ** An import never opens more than the file did *)
(** What decides who can reach a connection. *)
Definition access_of (c : Conn) : pystr * option pystr * bool * option (list pystr) * bool :=
  (cn_bind_ip (c_network c), hold c, access_given c, cn_allowed (c_network c), c_enabled c).
(** The hosts a [remaddr] value lets in. *)
Definition entry_host (entry : pystr) : option pystr :=
  if starts_with entry (str "!") then None
  else
      let host := match drop_families (List.filter not_empty (strip <$> split_on 44 entry)) with f :: _ => f | [] => [] end in
      match ip_network host with Some _ => Some host | None => None end.
Definition remaddr_hosts (value : pystr) : list pystr :=
  omap entry_host (words (λ x, (x =? 59) || is_space x) (strip value)).
Definition let_in (hosts : list pystr) (l : list pystr) : list pystr := foldl (λ l h, add_new h l) l hosts.
(** What a listen host means: [b] is the address it names, the loopback address for a loopback one, the
    wildcard of its family for no host. *)
Definition listens_as (host family b : pystr) : Prop :=
  let h := strip_by (λ x, one_of x "[]") host in
  match h with
  | [] => b = if str_eqb family (str "ipv6") then str "::" else str "0.0.0.0"
  | _ => (lower h = str "localhost" ∧ b = str "127.0.0.1")
         ∨ ∃ a, ip_address h = Some a ∧
             ((is_v6_loopback a = true ∧ b = str "127.0.0.1") ∨ (is_v6_loopback a = false ∧ b = address_text h a))
  end.
(** The host and the family of the listen fields. *)
Definition listen_host (fields : list pystr) : pystr * pystr :=
  let '(family, fields) := families [] (List.filter not_empty (strip <$> fields)) in
  (match fields with f0 :: _ :: _ => f0 | _ => [] end, family).

Section never_wider.
Context (say : string → list pystr → pystr) (getservbyname : pystr → option Z) (word : Z → bool).

Ltac same_access := repeat (case_match; simplify_eq); reflexivity.
Lemma access_fields c d : access_of d = access_of c →
  cn_bind_ip (c_network d) = cn_bind_ip (c_network c) ∧ hold d = hold c ∧ access_given d = access_given c
  ∧ cn_allowed (c_network d) = cn_allowed (c_network c) ∧ c_enabled d = c_enabled c.
Proof. unfold access_of. generalize (c_network c) (c_network d). by intros n m [= -> -> -> -> ->]. Qed.
Lemma note_if_access b m c : access_of (note_if b m c) = access_of c.
Proof. by destruct b. Qed.
Lemma foldl_access {A} (f : Conn → A → Conn) (l : list A) c :
  (∀ c a, access_of (f c a) = access_of c) → access_of (foldl f c l) = access_of c.
Proof. intros H. revert c. induction l as [|a l IH]; intros c; [done|]. cbn [foldl]. by rewrite IH, H. Qed.
Lemma flag_access k v c b d : _flag say k v c = (b, d) → access_of d = access_of c.
Proof. unfold _flag. destruct (_bool v); by intros [= <- <-]. Qed.
Lemma with_int_access t f c : (∀ n, access_of (f n c) = access_of c) → access_of (with_int t f c) = access_of c.
Proof. intros H. unfold with_int. by destruct (int_of_digits t). Qed.
Lemma idle_timeout_access v c : access_of (_idle_timeout say v c) = access_of c.
Proof. unfold _idle_timeout. cbn zeta. case_match; [apply with_int_access; intros n|]; same_access. Qed.
Lemma option_access ky v c : lower (strip ky) ≠ str "remaddr" → access_of (_option say ky v c) = access_of c.
Proof.
  intros Hk. unfold _option. case_match; [apply idle_timeout_access|]. cbn zeta. unfold with_int.
  repeat (case_match; simplify_eq; try reflexivity);
    repeat match goal with H : _flag _ _ _ _ = _ |- _ => apply flag_access in H; try exact H end.
  all: match goal with H : str_eqb _ (str "remaddr") = true |- _ => by apply str_eqb_eq in H end.
Qed.
Lemma convert_access t k w c s d : _convert say t k w c = (s, d) → access_of d = access_of c.
Proof. unfold _convert. intros [= _ <-]. by repeat case_match. Qed.

Lemma remaddr_entry_access c e :
  access_of (remaddr_entry say c e) =
    (cn_bind_ip (c_network c), hold c, access_given c,
     match entry_host e with Some h => Some (add_new h (default [] (cn_allowed (c_network c)))) | None => cn_allowed (c_network c) end,
     c_enabled c).
Proof.
  unfold remaddr_entry, entry_host. destruct (starts_with e (str "!")); [done|]. cbn zeta.
  set (fs := drop_families _). set (h := match fs with [] => _ | _ => _ end).
  destruct (ip_network h); [|done].
  set (d := match fs with [] => _ | _ => _ end).
  assert (access_of d = access_of c) as (H1 & H2 & H3 & H4 & H5)%access_fields.
  { unfold d. destruct fs as [|x [|y fs]]; [done..|]. apply note_if_access. }
  unfold access_of. cbn. by rewrite H1, H2, H3, H4, H5.
Qed.
Lemma remaddr_access v c :
  access_of (_remaddr say v c) =
    (cn_bind_ip (c_network c), hold c, true, Some (let_in (remaddr_hosts v) (default [] (cn_allowed (c_network c)))), c_enabled c).
Proof.
  unfold _remaddr, remaddr_hosts. set (ws := words _ _). cbn zeta.
  set (d := on_net _ _).
  assert (access_of d = (cn_bind_ip (c_network c), hold c, true, Some (default [] (cn_allowed (c_network c))), c_enabled c)) as Hd by done.
  clearbody d. revert d Hd. generalize (default [] (cn_allowed (c_network c))). induction ws as [|w ws IH]; intros l d Hd.
  { done. }
  cbn [foldl omap list_omap]. pose proof (remaddr_entry_access d w) as He. injection Hd as E1 E2 E3 E4 E5.
  rewrite E1, E2, E3, E4, E5 in He. destruct (entry_host w); by rewrite (IH _ _ He).
Qed.

Lemma finish_trace_access c : access_of (finish_trace say word c) = access_of c.
Proof.
  unfold finish_trace. destruct (find _ _) as [kind|]; [|done].
  destruct (_convert _ _ _ _ _) as [path d] eqn:E. apply convert_access in E. rewrite foldl_access.
  2: { intros x m. by repeat case_match. }
  rewrite foldl_access; [|intros; apply note_if_access].
  destruct (not_empty _); [|done]. by rewrite !note_if_access.
Qed.
Lemma finish_strings_access l c : access_of (foldl (finish_string say) c l) = access_of c.
Proof.
  apply foldl_access. intros d k. unfold finish_string. destruct (assoc _ _); [|done].
  destruct (_convert _ _ _ _ _) as [t e] eqn:E. by apply convert_access in E.
Qed.
Lemma finish_protocol_access c : access_of (finish_protocol say c) = access_of c.
Proof. unfold finish_protocol. by repeat case_match. Qed.
Lemma finish_flow_access c : access_of (finish_flow say c) = access_of c.
Proof. unfold finish_flow. change (access_of (serial_key _ _ ?d)) with (access_of d). apply note_if_access. Qed.
Lemma finish_dropped_access c : access_of (finish_dropped say c) = access_of c.
Proof. unfold finish_dropped. by case_match. Qed.
(** An enabled result was not held back, and lets somebody in when it lets in only some. *)
Lemma finish_access c :
  c_enabled (_finish say word c) = true →
  access_of (_finish say word c) = access_of c ∧ hold c = None ∧ c_enabled c = true
  ∧ (access_given c = true → ∃ h l, cn_allowed (c_network c) = Some (h :: l)).
Proof.
  unfold _finish. set (d := finish_trace _ _ _). intros He.
  assert (access_of d = access_of c) as Hd.
  { unfold d. by rewrite finish_trace_access, finish_strings_access, finish_protocol_access, finish_flow_access. }
  rewrite finish_dropped_access. pose proof (finish_dropped_access (finish_hold say d)) as Hx.
  apply access_fields in Hx as (_ & _ & _ & _ & Ee). rewrite Ee in He. clear Ee. clearbody d.
  rewrite <- Hd. apply access_fields in Hd as (_ & <- & <- & <- & <-).
  unfold finish_hold in *. unfold no_clients in *.
  destruct (access_given d) eqn:Eg; [destruct (cn_allowed (c_network d)) as [[|h l]|] eqn:Ew|]; cbn [andb] in *.
  all: try by cbn in He.
  all: destruct (hold d) eqn:Eo; [by cbn in He|]; split_and!; [done..|by eauto].
Qed.

Lemma bind_ip_access c host family b d :
  _bind_ip say c host family = (b, d) →
  (hold d = None → hold c = None ∧ listens_as host family b)
  ∧ cn_allowed (c_network d) = cn_allowed (c_network c) ∧ access_given d = access_given c ∧ cn_port (c_network d) = cn_port (c_network c).
Proof.
  unfold _bind_ip, listens_as. cbn zeta. destruct (strip_by _ host) as [|x h'] eqn:Eh; [by intros [= <- <-]|]. set (h := x :: h').
  destruct (str_eqb (lower h) (str "localhost")) eqn:El.
  { intros [= <- <-]. split; [|done]. intros ?. split; [done|]. left. by apply str_eqb_eq in El. }
  destruct (ip_address h) as [a|] eqn:Ea; [|by intros [= <- <-]].
  destruct (is_v6_loopback a) eqn:Eb.
  { intros [= <- <-]. split; [|done]. intros ?. split; [done|]. right. exists a. split; [done|]. by left. }
  destruct (_ && _); intros [= <- <-]; [|by split]. split; [|done]. intros ?. split; [done|]. right. exists a. split; [done|]. by right.
Qed.
Lemma listen_address_access fields c d :
  _listen_address say getservbyname fields c = (true, d) →
  (hold d = None → hold c = None ∧ listens_as (listen_host fields).1 (listen_host fields).2 (cn_bind_ip (c_network d)))
  ∧ cn_allowed (c_network d) = cn_allowed (c_network c) ∧ access_given d = access_given c.
Proof.
  unfold _listen_address, listen_host. destruct (families _ _) as [family fs]. destruct fs as [|f0 fs]; [done|].
  set (hp := match fs with [] => _ | _ => _ end).
  assert (hp.1 = match fs with [] => [] | _ => f0 end) as Hh by (unfold hp; by destruct fs). destruct hp as [host port_s].
  set (c' := match fs with [] => c | _ => _ end).
  assert (access_of c' = access_of c) as (H1 & H2 & H3 & H4 & H5)%access_fields by (unfold c'; by destruct fs as [|? [|??]]).
  destruct (_port_number _ _) as [[p|]|]; [|done..]. destruct (_bind_ip _ _ _ _) as [b e] eqn:Eb. intros [= <-].
  apply bind_ip_access in Eb as (Hb & Ha & Hg & _). cbn in Hh, Ha, Hg. subst host. split_and!.
  - cbn [hold on_net set_net]. intros Hd. destruct (Hb Hd) as [Hc Hl]. cbn in Hc. split; [by rewrite <- H2|exact Hl].
  - cbn. by rewrite Ha, H4.
  - cbn. by rewrite Hg, H3.
Qed.

(** The clients that are let in come from the values [G] of [remaddr], and nothing else has changed. *)
Definition from_given (G : pystr → Prop) (c : Conn) : Prop :=
  ∀ h, h ∈ default [] (cn_allowed (c_network c)) → ∃ v, G v ∧ h ∈ remaddr_hosts v.
Record wider (G : pystr → Prop) (c d : Conn) : Prop := {
  w_bind : cn_bind_ip (c_network d) = cn_bind_ip (c_network c);
  w_hold : hold d = hold c;
  w_enabled : c_enabled d = c_enabled c;
  w_access : access_given c = true → access_given d = true;
  w_from : from_given G c → from_given G d;
}.
Lemma wider_same G c d : access_of d = access_of c → wider G c d.
Proof. intros (H1 & H2 & H3 & H4 & H5)%access_fields. split; [done..|by rewrite H3|]. unfold from_given. by rewrite H4. Qed.
Lemma wider_trans G c d e : wider G c d → wider G d e → wider G c e.
Proof. intros [] []. split; [congruence..|auto|auto]. Qed.
Lemma wider_foldl {A} G (f : Conn → A → Conn) l c :
  (∀ c a, a ∈ l → wider G c (f c a)) → wider G c (foldl f c l).
Proof.
  revert c. induction l as [|a l IH]; intros c H; [by apply wider_same|]. cbn [foldl].
  eapply wider_trans; [apply H; left|]. apply IH. intros. apply H. by right.
Qed.
Lemma let_in_elem h hosts l : h ∈ let_in hosts l → h ∈ l ∨ h ∈ hosts.
Proof.
  revert l. induction hosts as [|x hosts IH]; intros l; cbn; [by left|]. intros [H|H]%IH.
  - unfold add_new in H. destruct (existsb _ l); [by left|]. apply elem_of_app in H as [H| ->%list_elem_of_singleton]; [by left|].
    right. left.
  - right. by right.
Qed.
Lemma wider_remaddr G c v : G v → wider G c (_remaddr say v c).
Proof.
  intros Hv. pose proof (remaddr_access v c) as H. unfold access_of in H. revert H. generalize (_remaddr say v c). intros d H.
  injection H as H1 H2 H3 H4 H5. split; [done..|]. unfold from_given. rewrite H4. cbn [default].
  intros Hc h [Hh|Hh]%let_in_elem; [by apply Hc|by exists v].
Qed.

Lemma remaddr_given v c : access_given (_remaddr say v c) = true.
Proof. pose proof (remaddr_access v c) as H. unfold access_of in H. revert H. generalize (_remaddr say v c). by intros d [= _ _ -> _ _]. Qed.
Lemma foldl_reaches {A} (P : Conn → Prop) (f : Conn → A → Conn) l a c :
  a ∈ l → (∀ c, P (f c a)) → (∀ c b, b ∈ l → P c → P (f c b)) → P (foldl f c l).
Proof.
  intros Ha Hp Hk. revert c.
  assert (∀ k c, (∀ b, b ∈ k → b ∈ l) → P c → P (foldl f c k)) as Hkeep.
  { intros k. induction k as [|b k IH]; intros c Hin Hc; [done|]. cbn. apply IH; [set_solver|]. apply Hk; [set_solver|done]. }
  apply list_elem_of_split in Ha as (l1 & l2 & ->). intros c. rewrite foldl_app. cbn. apply Hkeep; [set_solver|done].
Qed.
End never_wider.
