(* ===== verification/ClassicV3.v ===== *)
(** * ser2net 3.x configuration files (app/ser2net_import.py: [_v3_lines], [_V3], [_from_v3])

    The line reader and the parser of one line. [V3] is the state of the code's class: what the
    directives have defined, the warnings and the connections so far. *)
From S2P Require Import Prelude PyFloat PyStr PyVal IpAddr PyNum Json Config AppConfig Importer Classic.
#[local] Open Scope Z_scope.

(** ** Lines *)
Definition is_nil {A} (l : list A) : bool := match l with [] => true | _ => false end.
(** The logical lines with their numbers: [buf] and [start] are the loop's variables. *)
Fixpoint v3_lines_from (n : Z) (buf : pystr) (start : Z) (lines : list pystr) : list (Z * pystr) :=
  match lines with
  | [] => if is_nil buf then [] else [(start, buf)]
  | line :: lines' =>
      if is_nil buf && (is_nil (strip line) || starts_with (lstrip line) (str "#"))
      then v3_lines_from (n + 1) buf start lines'
      else
        let '(start, line) := if is_nil buf then (n, lstrip line) else (start, line) in
        match rev line with
        | 92 :: r => v3_lines_from (n + 1) (buf ++ rev r) start lines'
        | _ => (start, buf ++ line) :: v3_lines_from (n + 1) [] start lines'
        end
  end.
Definition _v3_lines (text : pystr) : list (Z * pystr) := v3_lines_from 1 [] 0 (split_on 10 text).

(** ** What a line is *)
Definition V3_STATES : list string := ["rawlp"; "raw"; "telnet"; "off"].
(** [_V3_STATE] at the start of the text: the state and what follows its colon. *)
Definition state_at (s : pystr) : option (pystr * pystr) :=
  match s with
  | 58 :: r =>
      match find (λ k, starts_with r (str k ++ str ":")) V3_STATES with
      | Some k => Some (str k, drop (S (length (str k))) r)
      | None => None
      end
  | _ => None
  end.
(** [_V3_STATE.search]: the text before the first match, the state, the text after. *)
Fixpoint find_state (before s : pystr) : option (pystr * pystr * pystr) :=
  match state_at s with
  | Some (k, r) => Some (before, k, r)
  | None => match s with [] => None | c :: s' => find_state (before ++ [c]) s' end
  end.
Definition V3_DIRECTIVES : list string :=
  ["BANNER"; "SIGNATURE"; "OPENSTR"; "CLOSESTR"; "CLOSEON"; "DEVICE"; "TRACEFILE"; "CONTROLPORT"; "RS485CONF";
   "DEFAULT"; "ROTATOR"; "LED"].
Definition directive_at (s : pystr) : option (string * pystr) :=
  match find (λ k, starts_with s (str k ++ str ":")) V3_DIRECTIVES with
  | Some k => Some (k, drop (S (length (str k))) s)
  | None => None
  end.
Definition _V3_PARITY : list (pystr * pystr) :=
  (l ← ["NONE"; "EVEN"; "ODD"; "MARK"; "SPACE"]%string; [(str l, take 1 (str l)); (lower (str l), take 1 (str l))]).
Definition _V3_TRACE : list (pystr * pystr) :=
  [(str "tr", str "read"); (str "tw", str "write"); (str "tb", str "both")].
Definition _V3_IGNORED_DEFAULTS : list string := ["local"; "chardelay"; "telnet_brk_on_sync"].
Definition V3_KNOWN_DEFAULTS : list string :=
  ["speed"; "databits"; "stopbits"; "parity"; "xonxoff"; "rtscts"; "hangup_when_done"; "nobreak"; "remctl";
   "kickolduser"; "max-connections"; "remaddr"].

Record V3 := mkV3 {
  v_strings : list (pystr * (string * pystr));
  v_devices : list (pystr * pystr);
  v_tracefiles : list (pystr * pystr);
  v_defaults : list (pystr * pystr);
  v_warnings : list pystr;
  v_conns : list Conn;
  v_broken : bool;
}.
Definition new_v3 : V3 := mkV3 [] [] [] [] [] [] false.
Definition warn (w : pystr) (p : V3) : V3 :=
  mkV3 (v_strings p) (v_devices p) (v_tracefiles p) (v_defaults p) (v_warnings p ++ [w]) (v_conns p) (v_broken p).
Definition define_string (n : pystr) (x : string * pystr) (p : V3) : V3 :=
  mkV3 (dict_set n x (v_strings p)) (v_devices p) (v_tracefiles p) (v_defaults p) (v_warnings p) (v_conns p) (v_broken p).

Section v3.
Context (say : string → list pystr → pystr) (getservbyname : pystr → option Z) (word : Z → bool).

Definition directive (n : Z) (kind : string) (rest : pystr) (p : V3) : V3 :=
  let '(name, _, value) := partition 58 rest in
  if String.eqb kind "CONTROLPORT" then
    warn (say "line {0}: CONTROLPORT {1} is not imported" [str_of_Z n; strip rest]) p
  else if String.eqb kind "DEFAULT" then
    if is_one name _V3_IGNORED_DEFAULTS || is_one name V3_KNOWN_DEFAULTS then
      mkV3 (v_strings p) (v_devices p) (v_tracefiles p) (dict_set name (strip value) (v_defaults p)) (v_warnings p) (v_conns p) (v_broken p)
    else warn (say "line {0}: DEFAULT {1} is not imported" [str_of_Z n; name]) p
  else if String.eqb kind "DEVICE" then
    mkV3 (v_strings p) (dict_set name (strip value) (v_devices p)) (v_tracefiles p) (v_defaults p) (v_warnings p) (v_conns p) (v_broken p)
  else if String.eqb kind "TRACEFILE" then
    mkV3 (v_strings p) (v_devices p) (dict_set name (strip value) (v_tracefiles p)) (v_defaults p) (v_warnings p) (v_conns p) (v_broken p)
  else if is_one (str kind) ["LED"; "SIGNATURE"; "ROTATOR"] then
    define_string name (kind, value)
      (warn (say "line {0}: {1} {2} is not imported ({3} are not supported here)" [str_of_Z n; str kind; name]) p)
  else define_string name (kind, value) p.

(** [lstrip("-")] and whether the token had no dash. *)
Definition undash (tok : pystr) : pystr * bool := (lstrip_by (Z.eqb 45) tok, negb (starts_with tok (str "-"))).
Definition data_bits (tok : pystr) : option Z :=
  match tok with
  | c :: r => if in_range 53 56 c && str_eqb r (str "DATABITS") then Some (c - 48) else None
  | [] => None
  end.
(** [serial]: [None] when it is no serial keyword. *)
Definition v3_serial (tok : pystr) (c : Conn) : option Conn :=
  let '(base, on) := undash tok in
  if isdigit tok then Some (with_int tok set_baud c)
  else if str_eqb tok (str "1STOPBIT") then Some (set_stop 1 c)
  else if str_eqb tok (str "2STOPBITS") then Some (set_stop 2 c)
  else match data_bits tok with
  | Some b => Some (set_bits b c)
  | None =>
      match assoc tok _V3_PARITY with
      | Some p => Some (set_parity p c)
      | None =>
          if str_eqb base (str "XONXOFF") then Some (set_xonxoff on c)
          else if str_eqb base (str "RTSCTS") then Some (set_rtscts on c)
          else if str_eqb base (str "HANGUP_WHEN_DONE") then Some (advance "hangup_when_done" on c)
          else if str_eqb base (str "NOBREAK") then Some (advance "nobreak" on c)
          else if str_eqb base (str "LOCAL") then
            Some (if on then c else note (say "-LOCAL (watching the modem control lines) is not imported" []) c)
          else None
      end
  end.
(** [(?:(tr|tw|tb)-)?(hexdump|timestamp)] *)
Definition v3_trace_mod (base : pystr) : option (pystr * pystr) :=
  match find (λ m, str_eqb base (str m)) ["hexdump"; "timestamp"]%string with
  | Some m => Some (str "all", str m)
  | None =>
      snd <$> find (λ p, str_eqb base p.1)
        ('(d, full) ← _V3_TRACE; m ← ["hexdump"; "timestamp"]%string; [(d ++ str "-" ++ str m, (full, str m))])
  end.
(** [option]: [None] when it is no keyword of a connection. *)
Definition v3_option (p : V3) (tok : pystr) (c : Conn) : option Conn :=
  let '(name, eq, value) := partition 61 tok in
  let '(base, on) := undash name in
  if negb eq then
    if str_eqb base (str "remctl") then Some (set_remctl on c)
    else if str_eqb base (str "kickolduser") then Some (on_net (n_set_kick on) c)
    else match v3_trace_mod base with
    | Some m => Some (set_trace_mods (mod_set m on (trace_mods c)) c)
    | None =>
        if str_eqb base (str "telnet_brk_on_sync") then
          Some (if on then _option say (str "telnet-brk-on-sync") (str "true") c else c)
        else if str_eqb base (str "chardelay") then Some c else None
    end
  else
    match assoc name _V3_TRACE with
    | Some full =>
        Some match assoc value (v_tracefiles p) with
             | Some f => set_traces (dict_set full f (traces c)) c
             | None => note (say "{0}: there is no TRACEFILE named {1}" [tok; value]) c
             end
    | None =>
        if str_eqb name (str "rs485") then
          Some (note (say "{0} is not imported: set RS-485 in the mapping's serial settings" [tok]) c)
        else if str_eqb name (str "max-connections") then Some (_option say name value c)
        else if str_eqb name (str "remaddr") then Some (_remaddr say value c)
        else if is_one name ["chardelay-scale"; "chardelay-min"; "chardelay-max"; "dev-to-net-bufsize";
                             "net-to-dev-bufsize"; "dev-to-tcp-bufsize"; "tcp-to-dev-bufsize"] then Some (drop_option name c)
        else if is_one name ["led-rx"; "led-tx"] then Some c else None
    end.
Definition v3_token (p : V3) (c : Conn) (tok : pystr) : Conn :=
  match v3_serial tok c with
  | Some c' => c'
  | None =>
      match v3_option p tok c with
      | Some c' => c'
      | None =>
          match assoc tok (v_strings p) with
          | Some (kind, value) =>
              if is_one (str kind) ["BANNER"; "OPENSTR"; "CLOSESTR"; "CLOSEON"] then
                set_strings (dict_set (lower (str kind)) value (c_strings c)) c
              else if String.eqb kind "RS485CONF" then
                note (say "RS485CONF {0} is not imported: set RS-485 in the mapping's serial settings" [tok]) c
              else c
          | None =>
              match v3_serial (upper tok) c with
              | Some c' => c'
              | None => note (say "unknown option '{0}' ignored" [tok]) c
              end
          end
      end
  end.
Definition v3_default (c : Conn) (d : pystr * pystr) : Conn :=
  let '(name, value) := d in
  let number f := if isdigit value then with_int value f c else c in
  if is_one name _V3_IGNORED_DEFAULTS then
    if str_eqb name (str "telnet_brk_on_sync") && match _bool value with Some b => b | None => false end
    then _option say (str "telnet-brk-on-sync") (str "true") c else c
  else if str_eqb name (str "speed") then number set_baud
  else if str_eqb name (str "databits") then number set_bits
  else if str_eqb name (str "stopbits") then number set_stop
  else if str_eqb name (str "parity") then
    match assoc (upper value) _V3_PARITY with Some p => set_parity p c | None => c end
  else if str_eqb name (str "remaddr") then if not_empty value then _remaddr say value c else c
  else if is_one name ["max-connections"; "kickolduser"] then _option say name value c
  else match _bool value with
  | Some flag =>
      if str_eqb name (str "xonxoff") then set_xonxoff flag c
      else if str_eqb name (str "rtscts") then set_rtscts flag c
      else if str_eqb name (str "remctl") then set_remctl flag c
      else set_advanced (dict_set name (VBool flag) (c_advanced c)) c
  | None => c
  end.
Definition v3_settings (p : V3) (state timeout device options : pystr) (c : Conn) : Conn :=
  let c := set_c_enabled (negb (str_eqb state (str "off"))) (set_device device c) in
  let c := on_net (n_set_protocol (if str_eqb state (str "telnet") then str "telnet" else str "raw")) c in
  let c := note_if (str_eqb state (str "rawlp"))
             (say "rawlp (a printer port without serial settings) is imported as raw" []) c in
  let c := _idle_timeout say timeout c in
  let c := foldl v3_default c (v_defaults p) in
  let c := foldl (v3_token p) c (words is_space options) in
  if remctl c then
    if str_eqb state (str "telnet") then on_net (n_set_protocol (str "rfc2217")) c
    else note (say "remctl (RFC2217) needs a telnet port: ignored" []) c
  else c.
(** The fields of the address: [tcp] and [udp] are taken out. *)
Definition v3_fields (before : pystr) (c : Conn) : list pystr * Conn :=
  let named k f := str_eqb (lower (strip f)) (str k) in
  let fields := split_on 44 before in
  (List.filter (λ f, negb (named "udp" f) && negb (named "tcp" f)) fields,
   if existsb (named "udp") fields then on_net (n_set_mode (str "udp")) c else c).
(** The connection of a line, and whether it is imported. *)
Definition v3_conn (p : V3) (n : Z) (before state after : pystr) : bool * Conn :=
  let '(timeout, _, rest) := partition 58 after in
  let '(device, _, options) := partition 58 rest in
  let device := default (strip device) (assoc (strip device) (v_devices p)) in
  let c := new_conn [] (say "line {0}" [str_of_Z n]) true in
  let '(fields, c) := v3_fields before c in
  let '(usable, c) := _listen_address say getservbyname fields c in
  if negb usable then (false, c)
  else
    let port := cn_port (c_network c) in
    let name := (if over_udp c then str "ser2net-udp-" else str "ser2net-") ++ str_of_Z port in
    let c := set_label (say "{0} (line {1})" [name; str_of_Z n]) (set_name name c) in
    if is_nil device then (false, skip say (say "no device" []) c)
    else if starts_with device (str "sol.") || contains (str " ") device then
      (false, skip say (say "IPMI serial-over-LAN connections are not imported" []) c)
    else (true, _finish say word (v3_settings p state timeout device options c)).
Definition v3_port (n : Z) (before state after : pystr) (p : V3) : V3 :=
  let '(imported, c) := v3_conn p n before state after in
  mkV3 (v_strings p) (v_devices p) (v_tracefiles p) (v_defaults p) (v_warnings p ++ _notes c imported)
    (if imported then v_conns p ++ [c] else v_conns p) (v_broken p || broken c).
Definition v3_line (p : V3) (l : Z * pystr) : V3 :=
  let '(n, line) := l in
  match directive_at line, find_state [] line with
  | Some (kind, rest), _ => directive n kind rest p
  | None, Some (before, state, after) => v3_port n before state after p
  | None, None => warn (say "line {0}: not a ser2net.conf line, ignored" [str_of_Z n]) p
  end.
(** The exception is a ValueError: of a number ([int_of_digits]) or of a service name ([_port_number]). *)
Definition unless_broken {A} (b : bool) (a : A) : res A := _ ← raise_if b ValueError "invalid literal for int()"; Ok a.
Definition _from_v3 (lines : list (Z * pystr)) : res (list Conn * list pystr) :=
  let p := foldl v3_line new_v3 lines in unless_broken (v_broken p) (v_conns p, v_warnings p).
Definition is_v3_line (line : pystr) : bool :=
  match directive_at line, find_state [] line with None, None => false | _, _ => true end.
End v3.

(** ** A 3.x line never opens more than it says *)
Section never_wider.
Context (say : string → list pystr → pystr) (getservbyname : pystr → option Z) (word : Z → bool).

(** A value of [remaddr] that counts for a line: a default, or an option of the line. *)
Definition given (p : V3) (options v : pystr) : Prop :=
  ((str "remaddr", v) ∈ v_defaults p ∧ v ≠ []) ∨ (str "remaddr=" ++ v) ∈ words is_space options.
Lemma serial_access tok c d : v3_serial say tok c = Some d → access_of d = access_of c.
Proof.
  unfold v3_serial. destruct (undash tok) as [base on]. case_match; [intros [= <-]; by apply with_int_access|].
  repeat case_match; try done; by intros [= <-].
Qed.
Lemma option_remaddr p tok c d :
  v3_option say p tok c = Some d →
  access_of d = access_of c ∨ ∃ v, tok = str "remaddr=" ++ v ∧ d = _remaddr say v c.
Proof.
  unfold v3_option, partition. destruct (split_first 61 tok) as [[name value]|] eqn:Es; cbn beta iota.
  - apply split_first_inv in Es. destruct (undash name) as [base on]. cbn [negb].
    destruct (assoc name _V3_TRACE).
    { intros [= <-]. left. by case_match. }
    destruct (str_eqb name (str "rs485")); [by intros [= <-]; left|].
    destruct (str_eqb name (str "max-connections")) eqn:En.
    { intros [= <-]. left. apply str_eqb_eq in En as ->. by apply option_access. }
    destruct (str_eqb name (str "remaddr")) eqn:Er.
    { intros [= <-]. right. exists value. apply str_eqb_eq in Er as ->. by split. }
    destruct (is_one name _); [by intros [= <-]; left|]. destruct (is_one name _); [by intros [= <-]; left|done].
  - destruct (undash tok) as [base on]. cbn [negb].
    destruct (str_eqb base _); [by intros [= <-]; left|]. destruct (str_eqb base _); [by intros [= <-]; left|].
    destruct (v3_trace_mod base); [by intros [= <-]; left|].
    destruct (str_eqb base _).
    { intros [= <-]. left. destruct on; [by apply option_access|done]. }
    destruct (str_eqb base _); [by intros [= <-]; left|done].
Qed.
Lemma token_wider p options c tok : tok ∈ words is_space options → wider (given p options) c (v3_token say p c tok).
Proof.
  intros Hin. unfold v3_token. destruct (v3_serial say tok c) as [d|] eqn:Es.
  { apply wider_same. by eapply serial_access. }
  destruct (v3_option say p tok c) as [d|] eqn:Eo.
  { apply option_remaddr in Eo as [H|(v & -> & ->)]; [by apply wider_same|]. apply wider_remaddr. by right. }
  apply wider_same. destruct (assoc tok (v_strings p)) as [[kind value]|].
  - by repeat case_match.
  - destruct (v3_serial say (upper tok) c) as [d|] eqn:Eu; [by eapply serial_access|done].
Qed.
Lemma default_wider p options c d : d ∈ v_defaults p → wider (given p options) c (v3_default say c d).
Proof.
  destruct d as [name value]. intros Hin. unfold v3_default.
  destruct (is_one name _V3_IGNORED_DEFAULTS).
  { apply wider_same. destruct (_ && _); [by apply option_access|done]. }
  do 3 (destruct (str_eqb name _); [apply wider_same; destruct (isdigit value); [by apply with_int_access|done]|]).
  destruct (str_eqb name _); [apply wider_same; by destruct (assoc _ _)|].
  destruct (str_eqb name (str "remaddr")) eqn:Er.
  { apply str_eqb_eq in Er as ->. destruct value as [|x value]; [by apply wider_same|]. apply wider_remaddr. by left. }
  destruct (is_one name ["max-connections"; "kickolduser"]%string) eqn:Ei.
  { apply wider_same. unfold is_one in Ei. cbn [existsb] in Ei. rewrite orb_false_r in Ei.
    apply orb_true_iff in Ei as [->%str_eqb_eq| ->%str_eqb_eq]; by apply option_access. }
  apply wider_same. by repeat case_match.
Qed.
Lemma token_remaddr p c v : v3_token say p c (str "remaddr=" ++ v) = _remaddr say v c.
Proof. reflexivity. Qed.
Lemma default_remaddr c v : v ≠ [] → v3_default say c (str "remaddr", v) = _remaddr say v c.
Proof. by destruct v. Qed.
Lemma settings_wider p state timeout device options c :
  access_given c = false → cn_allowed (c_network c) = None →
  let d := v3_settings say p state timeout device options c in
  cn_bind_ip (c_network d) = cn_bind_ip (c_network c) ∧ hold d = hold c
  ∧ c_enabled d = negb (str_eqb state (str "off"))
  ∧ ((∃ v, given p options v) → access_given d = true) ∧ from_given (given p options) d.
Proof.
  intros Ha Hn. cbn zeta. unfold v3_settings. set (G := given p options). cbn zeta.
  set (c0 := _idle_timeout _ _ _).
  assert (access_of c0 = access_of (set_c_enabled (negb (str_eqb state (str "off"))) c)) as (H1 & H2 & H3 & H4 & H5)%access_fields.
  { unfold c0. by rewrite idle_timeout_access, note_if_access. }
  clearbody c0. set (c1 := foldl (v3_default say) c0 (v_defaults p)). set (c2 := foldl (v3_token say p) c1 _).
  assert (wider G c0 c1) as W1 by (apply wider_foldl; intros; by apply default_wider).
  assert (wider G c1 c2) as W2 by (apply wider_foldl; intros; by apply token_wider).
  destruct (wider_trans _ _ _ _ W1 W2) as [V1 V2 V3' V4 V5].
  assert ((∃ v, G v) → access_given c2 = true) as V6.
  { intros (v & [[Hd Hv]|Ht]).
    - eapply w_access; [exact W2|]. eapply (foldl_reaches (λ c, access_given c = true)); [exact Hd| |].
      + intros x. rewrite default_remaddr by done. apply remaddr_given.
      + intros x b Hb. by eapply w_access, (default_wider p options).
    - eapply (foldl_reaches (λ c, access_given c = true)); [exact Ht| |].
      + intros x. rewrite token_remaddr. apply remaddr_given.
      + intros x b Hb. by eapply w_access, (token_wider p options). }
  assert (from_given G c2) as V7.
  { apply V5. unfold from_given. rewrite H4. cbn. rewrite Hn. by intros h ?%not_elem_of_nil. }
  assert (∀ e, access_of e = access_of c2 → cn_bind_ip (c_network e) = cn_bind_ip (c_network c) ∧ hold e = hold c
    ∧ c_enabled e = negb (str_eqb state (str "off")) ∧ ((∃ v, G v) → access_given e = true) ∧ from_given G e) as Hall.
  { intros e (E1 & E2 & E3 & E4 & E5)%access_fields. rewrite E1, E2, E3, E5, V1, V2, V3', H1, H2, H5. split_and!; [done..|].
    unfold from_given. by rewrite E4. }
  apply Hall. by repeat case_match.
Qed.
Lemma fields_access before c : access_of (v3_fields before c).2 = access_of c.
Proof. unfold v3_fields. cbn [snd]. by case_match. Qed.

(** an imported and enabled connection of a 3.x line listens on the address the line names (a loopback
    address as the loopback, no host as the wildcard) and was not off; when the line or the defaults restrict
    its clients ([remaddr]) it has a non-empty list of allowed clients, and every allowed client is a network
    that one of them names. What cannot be represented comes in disabled instead. *)
Theorem v3_never_wider p n before state after c :
  v3_conn say getservbyname word p n before state after = (true, c) → c_enabled c = true →
  let options := (partition 58 (partition 58 after).2).2 in
  let lh := listen_host (v3_fields before (new_conn [] [] true)).1 in
  state ≠ str "off"
  ∧ listens_as lh.1 lh.2 (cn_bind_ip (c_network c))
  ∧ ((∃ v, given p options v) → ∃ h l, cn_allowed (c_network c) = Some (h :: l))
  ∧ ∀ h, h ∈ default [] (cn_allowed (c_network c)) → ∃ v, given p options v ∧ h ∈ remaddr_hosts v.
Proof.
  unfold v3_conn. destruct (partition 58 after) as [[timeout s1] rest]. cbn [fst snd].
  destruct (partition 58 rest) as [[device0 s2] options] eqn:Ep. cbn [fst snd]. set (device := default _ _).
  set (c0 := new_conn [] _ true). pose proof (fields_access before c0) as Hf.
  change (v3_fields before (new_conn [] [] true)).1 with (v3_fields before c0).1.
  destruct (v3_fields before c0) as [fields c1]. cbn [fst snd] in *.
  destruct (_listen_address say getservbyname fields c1) as [[] c2] eqn:El; [|done]. cbn [negb].
  set (c3 := set_label _ _). destruct (is_nil device); [done|]. destruct (_ || _); [done|].
  intros [= <-] He. apply finish_access in He as (Ha & Hh & He & Hg). apply access_fields in Ha as (Hb & _ & _ & Hal & _).
  rewrite Hb, Hal. set (d := v3_settings _ _ _ _ _ _ _) in *.
  apply listen_address_access in El as (Hl & H1 & H2). apply access_fields in Hf as (_ & _ & E3 & E4 & _). cbn in E3, E4.
  destruct (settings_wider p state timeout device options c3) as (S1 & S2 & S3 & S4 & S5).
  { cbn. by rewrite H2, E3. }
  { cbn. by rewrite H1, E4. }
  fold d in S1, S2, S3, S4, S5. destruct Hl as [_ Hl]; [by rewrite <- Hh, S2|]. split_and!.
  - intros ->. by rewrite S3 in He.
  - by rewrite S1.
  - intros Hv. by apply Hg, S4.
  - exact S5.
Qed.
End never_wider.
Lemma v3_never_wider_witness :
  let c := (v3_conn plain_say (λ _, None) ascii_word (new_v3) 1 (str "127.0.0.1,3000") (str "telnet")
              (str "0:/dev/ttyS0:9600 remaddr=10.0.0.0/8;192.168.1.7")).2 in
  str "telnet" ≠ str "off"
  ∧ listens_as (str "127.0.0.1") [] (cn_bind_ip (c_network c))
  ∧ ((∃ v, given new_v3 (str "9600 remaddr=10.0.0.0/8;192.168.1.7") v) → ∃ h l, cn_allowed (c_network c) = Some (h :: l))
  ∧ ∀ h, h ∈ default [] (cn_allowed (c_network c)) →
      ∃ v, given new_v3 (str "9600 remaddr=10.0.0.0/8;192.168.1.7") v ∧ h ∈ remaddr_hosts v.
Proof.
  apply (v3_never_wider plain_say (λ _, None) ascii_word new_v3 1 (str "127.0.0.1,3000") (str "telnet")
           (str "0:/dev/ttyS0:9600 remaddr=10.0.0.0/8;192.168.1.7")); vm_compute; reflexivity.
Defined.
