(* ===== verification/Yaml.v ===== *)
(** * The YAML reader of classic ser2net files (app/ser2net_import.py: [_Flow], [_YamlReader])

    The subset of YAML those files use, as a reader over the lines of the text. [Reader] is the state of
    the code's class: its lines (an item that holds a block has its line rewritten in place), the next one and
    the anchors seen. [_YamlError], which the caller turns into a [ConfigError], is raised as one; the number
    of the line that messages give is left out. *)
From S2P Require Import Prelude PyFloat PyStr PyVal IpAddr PyNum Json Importer Classic.
#[local] Open Scope Z_scope.

(** A value: a key of a map may repeat, an entry keeps the anchor of its value. *)
Inductive ynode :=
  | YText (s : pystr)
  | YMap (entries : list (pystr * ynode * pystr))
  | YList (items : list ynode).

(** ** Lines and scalars *)
Definition blank (c : Z) : bool := (c =? 32) || (c =? 9).
(** [len(s.expandtabs(8))] of spaces and tabs. *)
Definition columns (s : pystr) : Z := fold_left (λ n c, if c =? 9 then n + (8 - n mod 8) else n + 1) s 0.
Definition _indent (line : pystr) : Z * pystr := let '(w, body) := take_while blank line in (columns w, body).
Definition marker (body : pystr) (mark : string) : bool :=
  str_eqb body (str mark) || starts_with body (str mark ++ str " ") || starts_with body (str mark ++ [9]).
Definition _boundary (ind : Z) (body : pystr) : bool :=
  (ind =? 0) && (starts_with body (str "%") || marker body "---" || marker body "...").
Definition _is_item (body : pystr) : bool := marker body "-".
Definition is_comment (s : pystr) : bool := starts_with s (str "#").
Definition is_blank_text (s : pystr) : bool := match s with [] => true | _ => is_comment s end.
(** The text before the first [\s#]. *)
Fixpoint before_comment (s : pystr) : option pystr :=
  match s with
  | x :: s' => if is_space x && is_comment s' then Some [] else cons x <$> before_comment s'
  | [] => None
  end.
Definition rstrip (s : pystr) : pystr := rstrip_by is_space s.
Definition _cut_comment (s : pystr) : pystr := rstrip (default s (before_comment s)).
Definition colon_ends (after : pystr) : bool := match after with [] => true | c :: _ => blank c end.
(** The first [:(?:[ \t]|$)]: the text before the colon and after it. *)
Fixpoint find_colon (s : pystr) : option (pystr * pystr) :=
  match s with
  | x :: s' =>
      if (x =? 58) && colon_ends s' then Some ([], s')
      else match find_colon s' with Some (a, b) => Some (x :: a, b) | None => None end
  | [] => None
  end.
Definition is_quote (c : Z) : bool := (c =? 34) || (c =? 39).
Definition _key (body : pystr) : option (pystr * pystr) :=
  match body with
  | [] => None
  | q :: r =>
      if is_quote q then
        match split_first q r with
        | Some (k, rest) =>
            match lstrip_by blank rest with
            | 58 :: after => if colon_ends after then Some (k, after) else None
            | _ => None
            end
        | None => None
        end
      else if one_of q "[]{},&*!|>%@`#" || _is_item body then None
      else match find_colon body with
      | None => None
      | Some (k, after) =>
          let k := rstrip k in
          if match k with [] => true | _ => false end || match before_comment k with Some _ => true | None => false end
          then None else Some (k, after)
      end
  end.
(** [_close_quote]: the text before the closing quote and after it. *)
Fixpoint _close_quote (q : Z) (s : pystr) : option (pystr * pystr) :=
  match s with
  | [] => None
  | c :: s' =>
      let more := match _close_quote q s' with Some (a, b) => Some (c :: a, b) | None => None end in
      match s' with
      | d :: s'' =>
          if (q =? 34) && (c =? 92) then
            match _close_quote q s'' with Some (a, b) => Some (c :: d :: a, b) | None => None end
          else if c =? q then
            if (q =? 39) && (d =? 39) then
              match _close_quote q s'' with Some (a, b) => Some (c :: d :: a, b) | None => None end
            else Some ([], s')
          else more
      | [] => if (q =? 34) && (c =? 92) then None else if c =? q then Some ([], []) else None
      end
  end.
Definition _DQ_ESCAPES : list (Z * Z) :=
  [(48, 0); (97, 7); (98, 8); (116, 9); (9, 9); (110, 10); (118, 11); (102, 12); (114, 13); (101, 27); (32, 32);
   (34, 34); (47, 47); (92, 92); (78, 133); (95, 160); (76, 8232); (80, 8233)].
(** [chr(n)]: an int that C cannot hold is another error. *)
Definition chr (n : Z) : res pystr :=
  if n <? 1114112 then Ok [n]
  else if n <? 2 ^ 31 then raise ValueError "chr() arg not in range(0x110000)"
  else raise OverflowError "signed integer is greater than maximum".
Definition hex_count (c : Z) : option nat :=
  if c =? 120 then Some 2%nat else if c =? 117 then Some 4%nat else if c =? 85 then Some 8%nat else None.
(** [_dq_unescape]; [skip] characters were taken by the last escape. *)
Fixpoint dq_unescape_from (skip : nat) (s : pystr) : res pystr :=
  match s with
  | [] => Ok []
  | c :: s' =>
      match skip with
      | S k => dq_unescape_from k s'
      | O =>
          match s' with
          | e :: s'' =>
              if c =? 92 then
                match find (λ p, p.1 =? e) _DQ_ESCAPES with
                | Some (_, x) => r ← dq_unescape_from 1 s'; Ok (x :: r)
                | None =>
                    match hex_count e with
                    | Some k =>
                        if (k <=? length s'')%nat && forallb is_hex (take k s'') then
                          x ← chr (digits_in 16 (take k s'')); r ← dq_unescape_from (S k) s'; Ok (x ++ r)
                        else r ← dq_unescape_from 1 s'; Ok (92 :: e :: r)
                    | None => r ← dq_unescape_from 1 s'; Ok (92 :: e :: r)
                    end
                end
              else r ← dq_unescape_from 0 s'; Ok (c :: r)
          | [] => Ok [c]
          end
      end
  end.
Definition _dq_unescape (s : pystr) : res pystr := dq_unescape_from 0 s.
Definition strip_blank (s : pystr) : pystr := strip_by blank s.
Definition trailing_backslashes (s : pystr) : Z := zlen s - zlen (rstrip_by (Z.eqb 92) s).
Definition newlines (n : nat) : pystr := repeat 10 n.
(** The loop of [_fold_quoted] over [parts[1:]]. *)
Fixpoint fold_quoted_from (q : Z) (text : pystr) (blanks : nat) (parts : list pystr) : pystr :=
  match parts with
  | [] => text
  | raw :: parts' =>
      let last := match parts' with [] => true | _ => false end in
      let seg := if last then lstrip_by blank raw else strip_blank raw in
      if match seg with [] => true | _ => false end && negb last then fold_quoted_from q text (S blanks) parts'
      else
        let text := rstrip_by blank text in
        let '(text, sep) := if (q =? 34) && (trailing_backslashes text mod 2 =? 1) then (removelast text, [])
                            else (text, match blanks with O => [32] | _ => newlines blanks end) in
        fold_quoted_from q (text ++ sep ++ seg) 0 parts'
  end.
Definition _fold_quoted (parts : list pystr) (q : Z) : res pystr :=
  let text := match parts with p :: ps => fold_quoted_from q p 0 ps | [] => [] end in
  if q =? 34 then _dq_unescape text else Ok (replace_all [39; 39] [39] text).

(** ** Flow collections *)
(** Whether a character begins a token: what precedes it is the start or one of these. *)
Definition after_one (prev : option Z) (s : string) : bool :=
  match prev with None => true | Some c => (c =? 10) || (c =? 9) || one_of c s end.
(** [_flow_end]: the text up to and with the bracket that closes the first one, and what follows.
    [quote] is the open quote, [skip] says that the character was escaped, [comment] that a comment runs. *)
Fixpoint flow_end_from (depth : nat) (quote : option Z) (esc comment : bool) (prev : option Z) (s : pystr)
    : option (pystr * pystr) :=
  match s with
  | [] => None
  | c :: s' =>
      let go depth quote esc comment :=
        match flow_end_from depth quote esc comment (Some c) s' with Some (a, b) => Some (c :: a, b) | None => None end in
      if esc then go depth quote false false
      else if comment then go depth None false (negb (c =? 10))
      else match quote with
      | Some q =>
          if (c =? 92) && (q =? 34) then go depth quote true false
          else go depth (if c =? q then None else quote) false false
      | None =>
          if is_quote c && after_one prev " ,[{:" then go depth (Some c) false false
          else if (c =? 35) && after_one prev " " then go depth None false true
          else if one_of c "[{" then go (S depth) None false false
          else if one_of c "]}" then
            match depth with
            | S (S d) => go (S d) None false false
            | S O => Some ([c], s')
            | O => go O None false false
            end
          else go depth None false false
      end
  end.
Definition _flow_end (s : pystr) : option (pystr * pystr) := flow_end_from 0 None false false None s.

(** The rest of the text and the character before it. *)
Definition cursor : Type := option Z * pystr.
Fixpoint skip_ws (prev : option Z) (s : pystr) (comment : bool) : cursor :=
  match s with
  | [] => (prev, [])
  | c :: s' =>
      if comment && negb (c =? 10) then skip_ws (Some c) s' true
      else if (c =? 32) || (c =? 9) || (c =? 10) then skip_ws (Some c) s' false
      else if (c =? 35) && after_one prev " " then skip_ws (Some c) s' true
      else (prev, s)
  end.
Definition _ws (cu : cursor) : cursor := skip_ws cu.1 cu.2 false.
(** The cursor after the character, when it is the next one. *)
Definition eat (c : Z) (cu : cursor) : option cursor :=
  match cu.2 with d :: s => if d =? c then Some (Some d, s) else None | [] => None end.
(** A plain scalar: its text and the cursor after it. *)
Fixpoint flow_plain (prev : option Z) (s : pystr) : pystr * cursor :=
  match s with
  | [] => ([], (prev, []))
  | c :: s' =>
      let nxt := match s' with [] => true | d :: _ => (d =? 10) || (d =? 9) || one_of d " ,]}" end in
      if one_of c ",[]{}" || ((c =? 58) && nxt) || ((c =? 35) && match prev with None => false | _ => after_one prev " " end)
      then ([], (prev, s))
      else let '(a, cu) := flow_plain (Some c) s' in (c :: a, cu)
  end.
Definition alias_char (c : Z) : bool := negb (is_space c || one_of c ",[]{}").
Definition last_of (prev : option Z) (taken : pystr) : option Z := match last taken with Some c => Some c | None => prev end.
Definition flow_text (raw : pystr) : ynode :=
  YText (join (str " ") (List.filter not_empty (strip <$> split_on 10 raw))).
Section flow.
(** [str] of a collection used as a key. *)
Context (show : ynode → pystr).
Definition node_key (n : ynode) : pystr := match n with YText s => s | _ => show n end.
Fixpoint flow_value (fuel : nat) (anchors : list (pystr * ynode)) (cu : cursor) : res (ynode * cursor) :=
  match fuel with
  | O => raise OutOfFuel ""
  | S fuel' =>
      let '(prev, s) := _ws cu in
      match s with
      | [] => Ok (YText [], (prev, []))
      | c :: s' =>
          if c =? 91 then flow_items fuel' anchors [] (Some c, s')
          else if c =? 123 then flow_entries fuel' anchors [] (Some c, s')
          else if is_quote c then
            match _close_quote c s' with
            | None => raise ValueError "unterminated quoted string"
            | Some (raw, rest) => t ← _fold_quoted (split_on 10 raw) c; Ok (YText t, (Some c, rest))
            end
          else if c =? 42 then
            let '(name, rest) := take_while alias_char s' in
            match assoc name anchors with
            | None => raise ValueError "unknown alias *{0}"
            | Some v => Ok (v, (last_of (Some c) name, rest))
            end
          else let '(raw, cu) := flow_plain prev s in Ok (flow_text raw, cu)
      end
  end
(** The rest of a list, and of a map: at the closing bracket the loop's next turn ends. *)
with flow_items (fuel : nat) (anchors : list (pystr * ynode)) (items : list ynode) (cu : cursor) : res (ynode * cursor) :=
  match fuel with
  | O => raise OutOfFuel ""
  | S fuel' =>
      let cu := _ws cu in
      match eat 93 cu with
      | Some cu => Ok (YList items, cu)
      | None =>
          '(item, cu) ← flow_value fuel' anchors cu;
          let cu := _ws cu in
          match eat 44 cu, eat 93 cu with
          | Some cu, _ => flow_items fuel' anchors (items ++ [item]) cu
          | None, Some cu => Ok (YList (items ++ [item]), cu)
          | None, None => raise ValueError "expected ',' or '{0}'"
          end
      end
  end
with flow_entries (fuel : nat) (anchors : list (pystr * ynode)) (entries : list (pystr * ynode * pystr)) (cu : cursor)
    : res (ynode * cursor) :=
  match fuel with
  | O => raise OutOfFuel ""
  | S fuel' =>
      let cu := _ws cu in
      match eat 125 cu with
      | Some cu => Ok (YMap entries, cu)
      | None =>
          '(item, cu) ← flow_value fuel' anchors cu;
          let cu := _ws cu in
          '(value, cu) ← match eat 58 cu with Some cu => flow_value fuel' anchors cu | None => Ok (YText [], cu) end;
          let e := (node_key item, value, []) in
          let cu := _ws cu in
          match eat 44 cu, eat 125 cu with
          | Some cu, _ => flow_entries fuel' anchors (entries ++ [e]) cu
          | None, Some cu => Ok (YMap (entries ++ [e]), cu)
          | None, None => raise ValueError "expected ',' or '{0}'"
          end
      end
  end.

(** ** The reader *)
Record Reader := mkReader {
  y_lines : list pystr;
  y_i : nat;
  y_anchors : list (pystr * ynode);
}.
Definition new_reader (text : pystr) : Reader := mkReader (split_on 10 text) 0 [].
Definition rest_lines (r : Reader) : list pystr := drop (y_i r) (y_lines r).
Definition advance_by (n : nat) (r : Reader) : Reader := mkReader (y_lines r) (y_i r + n) (y_anchors r).
Definition yaml_error {A} (msg : string) : st Reader A := st_lift (raise ConfigError msg).
Definition _take : st Reader pystr := λ r,
  match y_lines r !! y_i r with
  | Some line => (Ok line, advance_by 1 r)
  | None => (raise IndexError "list index out of range", r)
  end.
(** How many lines are blank or comments, and the first other one. *)
Fixpoint next_line (ls : list pystr) : nat * option (Z * pystr) :=
  match ls with
  | [] => (0%nat, None)
  | l :: ls' =>
      let '(ind, body) := _indent l in
      if is_blank_text body then let '(n, x) := next_line ls' in (S n, x) else (0%nat, Some (ind, body))
  end.
Definition _peek : st Reader (option (Z * pystr)) := λ r,
  let '(n, x) := next_line (rest_lines r) in
  (Ok match x with Some (ind, body) => if _boundary ind body then None else x | None => None end, advance_by n r).

(** [_plain]: the folded text and how many lines continue it. *)
Fixpoint plain_lines (parent : Z) (out : pystr) (breaks : nat) (ls : list pystr) : pystr * nat :=
  match ls with
  | [] => (out, 0%nat)
  | l :: ls' =>
      let '(ind, body) := _indent l in
      if is_blank_text body then
        let '(t, n) := plain_lines parent out (match body with [] => S breaks | _ => breaks end) ls' in (t, S n)
      else if (ind <=? parent) || _boundary ind body then (out, 0%nat)
      else
        let '(t, n) := plain_lines parent (out ++ match breaks with O => [32] | _ => newlines breaks end ++ _cut_comment body) 0 ls'
        in (t, S n)
  end.
Definition _plain (first : pystr) (parent : Z) : st Reader ynode := λ r,
  let '(t, n) := plain_lines parent (_cut_comment first) 0 (rest_lines r) in (Ok (YText t), advance_by n r).
(** [_quoted]: the parts, the text after the closing quote, how many lines were taken. *)
Fixpoint quoted_lines (q : Z) (part : pystr) (ls : list pystr) : option (list pystr * pystr * nat) :=
  match _close_quote q part with
  | Some (a, tail) => Some ([a], tail, 0%nat)
  | None =>
      match ls with
      | [] => None
      | l :: ls' => match quoted_lines q l ls' with Some (ps, tail, n) => Some (part :: ps, tail, S n) | None => None end
      end
  end.
Definition _quoted (q : Z) (s : pystr) : st Reader ynode := λ r,
  match quoted_lines q s (rest_lines r) with
  | None => (raise ConfigError "unterminated quoted string", r)
  | Some (parts, tail, n) =>
      if is_blank_text (strip tail) then (YText <$> _fold_quoted parts q, advance_by n r)
      else (raise ConfigError "unexpected text after a quoted string", advance_by n r)
  end.
(** [_flow]: the collection, the text after it, how many lines were taken. *)
Fixpoint flow_lines (text : pystr) (ls : list pystr) : option (pystr * pystr * nat) :=
  match _flow_end text with
  | Some (a, tail) => Some (a, tail, 0%nat)
  | None =>
      match ls with
      | [] => None
      | l :: ls' => match flow_lines (text ++ 10 :: l) ls' with Some (a, tail, n) => Some (a, tail, S n) | None => None end
      end
  end.
Definition flow_fuel (s : pystr) : nat := 2 * length s + 2.
Definition _flow (s : pystr) : st Reader ynode := λ r,
  match flow_lines s (rest_lines r) with
  | None => (raise ConfigError "unterminated [...] or {...}", r)
  | Some (text, tail, n) =>
      let r := advance_by n r in
      if is_blank_text (strip tail) then
        match flow_value (flow_fuel text) (y_anchors r) (None, text) with
        | Ok (v, _) => (Ok v, r)
        | Raise e => match exn_cls e with ValueError => (raise ConfigError (exn_msg e), r) | _ => (Raise e, r) end
        end
      else (raise ConfigError "unexpected text after ] or }", r)
  end.
(** The header of a block scalar: folded, chomping, explicit indentation. *)
Definition sign (c : Z) : bool := one_of c "+-".
Definition take_if (p : Z → bool) (s : pystr) : option Z * pystr :=
  match s with c :: s' => if p c then (Some c, s') else (None, s) | [] => (None, []) end.
Definition block_header (s : pystr) : option (bool * option Z * option Z) :=
  match s with
  | c :: s =>
      let '(c1, s) := take_if sign s in
      let '(d, s) := take_if (in_range 49 57) s in
      let '(c2, s) := take_if sign s in
      if is_blank_text (lstrip s) then
        Some (c =? 62, match c1 with Some _ => c1 | None => c2 end, (λ x, x - 48) <$> d)
      else None
  | [] => None
  end.
Fixpoint block_lines (indent parent : Z) (ls : list pystr) : list pystr * nat :=
  match ls with
  | [] => ([], 0%nat)
  | l :: ls' =>
      let '(ind, body) := _indent l in
      match body with
      | [] => let '(t, n) := block_lines indent parent ls' in ([] :: t, S n)
      | _ =>
          let indent := if indent <? 0 then ind else indent in
          if (ind <? indent) || (ind <=? parent) then ([], 0%nat)
          else let '(t, n) := block_lines indent parent ls' in ((repeat 32 (Z.to_nat (ind - indent)) ++ body) :: t, S n)
      end
  end.
Fixpoint fold_block (text : pystr) (blanks : nat) (ls : list pystr) : pystr :=
  match ls with
  | [] => text
  | [] :: ls' => fold_block text (S blanks) ls'
  | ln :: ls' =>
      fold_block (match text with
                  | [] => ln
                  | _ => text ++ match blanks with O => [32] | _ => newlines blanks end ++ ln
                  end) 0 ls'
  end.
Fixpoint drop_empty (ls : list pystr) : list pystr :=
  match ls with [] :: ls' => drop_empty ls' | _ => ls end.
Definition block_text (folded : bool) (chomp : option Z) (lines : list pystr) : pystr :=
  let kept := rev (drop_empty (rev lines)) in
  let text := if folded then fold_block [] 0 kept else join [10] kept in
  match chomp, text with
  | _, [] => []
  | Some 45, _ => text
  | Some 43, _ => text ++ newlines (1 + (length lines - length kept))
  | _, _ => text ++ [10]
  end.
Definition _block_scalar (header : pystr) (parent : Z) : st Reader ynode := λ r,
  match block_header header with
  | None => (raise ConfigError "bad | or > block header", r)
  | Some (folded, chomp, d) =>
      let indent := match d with Some k => Z.max parent 0 + k | None => -1 end in
      let '(lines, n) := block_lines indent parent (rest_lines r) in
      (Ok (YText (block_text folded chomp lines)), advance_by n r)
  end.

(** Anchors and tags before a value: the last anchor and what follows. *)
Fixpoint node_props (fuel : nat) (anchor s : pystr) : pystr * pystr :=
  match fuel, s with
  | S fuel', c :: s' =>
      if (c =? 38) || (c =? 33) then
        let '(name, rest) := take_while (λ x, negb (is_space x)) s' in
        node_props fuel' (if c =? 38 then name else anchor) (lstrip rest)
      else (anchor, s)
  | _, _ => (anchor, s)
  end.
Definition set_anchor (a : pystr) (n : ynode) : st Reader unit :=
  if not_empty a then st_modify (λ r, mkReader (y_lines r) (y_i r) (dict_set a n (y_anchors r))) else mret tt.
(** The line of an item that holds a block: its text moves to the column it starts at. *)
Definition rewrite_item (ind : Z) (rest inner : pystr) : st Reader unit :=
  st_modify (λ r, mkReader (<[y_i r := repeat 32 (Z.to_nat (ind + 1 + zlen rest - zlen inner)) ++ inner]> (y_lines r))
                    (y_i r) (y_anchors r)).
Definition is_collection (n : ynode) : bool := match n with YText _ => false | _ => true end.

Fixpoint _node (fuel : nat) (parent : Z) : st Reader ynode :=
  match fuel with
  | O => st_lift (raise OutOfFuel "")
  | S fuel =>
      nxt ← _peek;
      match nxt with
      | None => mret (YText [])
      | Some (ind, body) =>
          if ind <=? parent then mret (YText [])
          else if _is_item body then _seq fuel ind []
          else match _key body with
          | Some _ => _map fuel ind (parent <? 0) []
          | None => _ ← _take; '(v, _) ← _value fuel body parent false; mret v
          end
      end
  end
(** The entries of a map, [acc] those read. *)
with _map (fuel : nat) (ind : Z) (root : bool) (acc : list (pystr * ynode * pystr)) : st Reader ynode :=
  match fuel with
  | O => st_lift (raise OutOfFuel "")
  | S fuel =>
      nxt ← _peek;
      match nxt with
      | None => mret (YMap acc)
      | Some (i, body) =>
          if i <? ind then mret (YMap acc)
          else match (if i =? ind then _key body else None) with
          | None => if (i =? ind) && _is_item body then mret (YMap acc) else yaml_error "expected 'key: value' here"
          | Some (k, after) =>
              _ ← _take;
              '(value, anchor) ← _value fuel after ind true;
              _ ← (if root && is_collection value then set_anchor anchor (YText anchor) else mret tt);
              _map fuel ind root (acc ++ [(k, value, anchor)])
          end
      end
  end
with _seq (fuel : nat) (ind : Z) (acc : list ynode) : st Reader ynode :=
  match fuel with
  | O => st_lift (raise OutOfFuel "")
  | S fuel =>
      nxt ← _peek;
      match nxt with
      | None => mret (YList acc)
      | Some (i, body) =>
          if (i <? ind) || ((i =? ind) && negb (_is_item body)) then mret (YList acc)
          else if ind <? i then yaml_error "unexpected indentation"
          else
            let rest := drop 1 body in
            let inner := lstrip_by blank rest in
            if negb (is_blank_text inner) && (_is_item inner || match _key inner with Some _ => true | None => false end) then
              _ ← rewrite_item ind rest inner;
              v ← _node fuel ind;
              _seq fuel ind (acc ++ [v])
            else
              _ ← _take;
              '(v, _) ← _value fuel rest ind false;
              _seq fuel ind (acc ++ [v])
      end
  end
with _value (fuel : nat) (text : pystr) (parent : Z) (in_map : bool) : st Reader (ynode * pystr) :=
  match fuel with
  | O => st_lift (raise OutOfFuel "")
  | S fuel =>
      let s := strip text in
      let '(anchor, s) := node_props (length s) [] s in
      node ← (if is_blank_text s then
                nxt ← _peek;
                match nxt with
                | Some (i, body) => if in_map && (i =? parent) && _is_item body then _seq fuel parent [] else _node fuel parent
                | None => _node fuel parent
                end
              else match s with
              | [] => mret (YText [])
              | c :: s' =>
                  if (c =? 42) && negb match s' with d :: _ => one_of d "({" | [] => false end then
                    let '(name, _) := take_while alias_char s' in
                    r ← st_get;
                    match assoc name (y_anchors r) with
                    | None => yaml_error "unknown alias *{0}"
                    | Some v => mret v
                    end
                  else if is_quote c then _quoted c s'
                  else if one_of c "[{" then _flow s
                  else if one_of c "|>" then _block_scalar s parent
                  else _plain s parent
              end);
      _ ← set_anchor anchor node;
      mret (node, anchor)
  end.
(** [documents]; [n] bounds the documents and [fuel] each of them. *)
Fixpoint documents (n fuel : nat) (docs : list ynode) : st Reader (list ynode) :=
  match n with
  | O => st_lift (raise OutOfFuel "")
  | S n =>
      r ← st_get;
      match rest_lines r with
      | [] => mret docs
      | l :: _ =>
          let '(ind, body) := _indent l in
          if is_blank_text body || _boundary ind body then
            _ ← st_modify (advance_by 1); documents n fuel docs
          else
            d ← _node fuel (-1);
            nxt ← _peek;
            match nxt with
            | Some _ => yaml_error "unexpected indentation"
            | None => documents n fuel (docs ++ [d])
            end
      end
  end.
Fixpoint lines_size (ls : list pystr) : nat := match ls with [] => O | l :: ls' => S (length l) + lines_size ls' end.
Definition read_fuel (text : pystr) : nat := 4 * lines_size (split_on 10 text) + 8.
Definition read_documents (text : pystr) : res (list ynode) :=
  (documents (read_fuel text) (read_fuel text) [] (new_reader text)).1.
End flow.

(** Documents of a concrete text. *)
Definition read_demo (s : string) : res (list ynode) := read_documents (λ _, []) (str s).
Definition txt (s : string) : ynode := YText (str s).
Example read_block : read_demo
"# comment
connection: &con0
    accepter: tcp,
      2000   # the port
    options:
        banner: 'it''s \r'
        list:
        - a
        - - b
          - c: 'd'
other: [x, 'y z', {k: v}]
" = Ok [YMap [(str "connection", YMap [(str "accepter", txt "tcp, 2000", []);
             (str "options", YMap [(str "banner", txt "it's \r", []);
                (str "list", YList [txt "a"; YList [txt "b"; YMap [(str "c", txt "d", [])]]], [])], [])], str "con0");
           (str "other", YList [txt "x"; txt "y z"; YMap [(str "k", txt "v", [])]], [])]].
Proof. vm_compute. reflexivity. Qed.

(** ** The reader always ends *)
Section total.
Context (show : ynode → pystr).

(** Errors the program knows: not the end of the fuel. *)
Definition real (e : exn) : Prop := exn_cls e = ConfigError ∨ exn_cls e = ValueError ∨ exn_cls e = OverflowError.
(** A computation on a cursor: an error the program knows, or a cursor that is not longer. *)
Definition shorter {A} (n : nat) (m : res (A * cursor)) : Prop :=
  match m with Ok (_, cu) => (length cu.2 <= n)%nat | Raise e => real e end.
Lemma real_value msg : real (Exn ValueError msg).
Proof. unfold real. cbn. tauto. Qed.
Lemma real_config msg : real (Exn ConfigError msg).
Proof. unfold real. cbn. tauto. Qed.

Lemma skip_ws_length prev s b : (length (skip_ws prev s b).2 <= length s)%nat.
Proof.
  revert prev b. induction s as [|c s IH]; intros prev b; cbn [skip_ws]; [done|].
  repeat case_match; cbn [snd length]; try done; (etransitivity; [apply IH|lia]).
Qed.
Lemma ws_length cu : (length (_ws cu).2 <= length cu.2)%nat.
Proof. apply skip_ws_length. Qed.
Lemma flow_plain_length prev s : (length (flow_plain prev s).2.2 <= length s)%nat.
Proof.
  revert prev. induction s as [|c s IH]; intros prev; cbn [flow_plain]; [done|].
  case_match; [done|]. specialize (IH (Some c)). destruct (flow_plain (Some c) s) as [a cu]. cbn in *. lia.
Qed.
Lemma take_while_length p s : (length (take_while p s).1 + length (take_while p s).2 = length s)%nat.
Proof.
  induction s as [|c s IH]; cbn [take_while]; [done|]. case_match; [|done].
  destruct (take_while p s) as [a b]. cbn in *. lia.
Qed.
Lemma close_quote_cons q c d s :
  _close_quote q (c :: d :: s) =
    let pre l m := match m with Some (a, b) => Some (l ++ a, b) | None => None end in
    if (q =? 34) && (c =? 92) then pre [c; d] (_close_quote q s)
    else if c =? q then if (q =? 39) && (d =? 39) then pre [c; d] (_close_quote q s) else Some ([], d :: s)
    else pre [c] (_close_quote q (d :: s)).
Proof. reflexivity. Qed.
Lemma close_quote_length q n s a b : (length s <= n)%nat → _close_quote q s = Some (a, b) → (length a + length b < length s)%nat.
Proof.
  revert s a b. induction n as [|n IH]; intros s a b Hn H; [destruct s; cbn in Hn; [done|lia]|].
  destruct s as [|c [|d s]]; [done| |].
  { cbn in H. repeat case_match; simplify_eq; cbn; lia. }
  cbn [length] in *. rewrite close_quote_cons in H. cbn zeta in H.
  assert (∀ a b, _close_quote q s = Some (a, b) → (length a + length b < length s)%nat) as H1 by (intros; apply IH; [lia|done]).
  assert (∀ a b, _close_quote q (d :: s) = Some (a, b) → (length a + length b < S (length s))%nat) as H2
    by (intros; apply (IH (d :: s)); [cbn; lia|done]).
  destruct ((q =? 34) && (c =? 92)).
  - destruct (_close_quote q s) as [[a' b']|]; [|done]. injection H as <- <-. specialize (H1 _ _ eq_refl). cbn. lia.
  - destruct (c =? q).
    + destruct ((q =? 39) && (d =? 39)).
      * destruct (_close_quote q s) as [[a' b']|]; [|done]. injection H as <- <-. specialize (H1 _ _ eq_refl). cbn. lia.
      * injection H as <- <-. cbn. lia.
    + destruct (_close_quote q (d :: s)) as [[a' b']|] eqn:E; [|done]. injection H as <- <-. specialize (H2 _ _ eq_refl). cbn. lia.
Qed.
Lemma eat_length c cu cu' : eat c cu = Some cu' → (length cu.2 = S (length cu'.2))%nat.
Proof. unfold eat. destruct cu.2 as [|d s]; [done|]. case_match; [|done]. by intros [= <-]. Qed.
Lemma shorter_le {A} k n (m : res (A * cursor)) : (k <= n)%nat → shorter k m → shorter n m.
Proof. destruct m as [[a cu]|e]; cbn; [lia|done]. Qed.
Lemma dq_errors k s : match dq_unescape_from k s with Ok _ => True | Raise e => real e end.
Proof.
  revert k. induction s as [|c s IH]; intros k; [done|]. cbn [dq_unescape_from].
  destruct k as [|k]; [|apply IH]. destruct s as [|e s]; [done|].
  assert (∀ k (f : pystr → res pystr), (∀ r, match f r with Ok _ => True | Raise e => real e end) →
     match dq_unescape_from k (e :: s) ≫= f with Ok _ => True | Raise e => real e end) as Hb.
  { intros k f Hf. specialize (IH k). destruct (dq_unescape_from k (e :: s)); [apply Hf|done]. }
  destruct (c =? 92); [|by apply Hb]. destruct (find _ _) as [[? ?]|]; [by apply Hb|].
  destruct (hex_count e) as [n|]; [|by apply Hb]. destruct (_ && _); [|by apply Hb].
  unfold chr. destruct (_ <? 1114112); [by apply Hb|]. destruct (_ <? 2 ^ 31); unfold real; cbn; tauto.
Qed.
Lemma fold_quoted_errors ps q : match _fold_quoted ps q with Ok _ => True | Raise e => real e end.
Proof. unfold _fold_quoted. destruct (q =? 34); [apply dq_errors|done]. Qed.

Lemma flow_total fuel :
  (∀ anchors cu, (2 * length cu.2 + 1 <= fuel)%nat → shorter (length cu.2) (flow_value show fuel anchors cu))
  ∧ (∀ anchors items cu, (2 * length cu.2 + 2 <= fuel)%nat → shorter (length cu.2) (flow_items show fuel anchors items cu))
  ∧ (∀ anchors es cu, (2 * length cu.2 + 2 <= fuel)%nat → shorter (length cu.2) (flow_entries show fuel anchors es cu)).
Proof.
  induction fuel as [|fuel (IHv & IHi & IHe)]; [split_and!; intros; lia|]. split_and!.
  - intros anchors cu Hf. cbn [flow_value]. pose proof (ws_length cu) as Hw. destruct (_ws cu) as [prev s]. cbn [snd] in Hw.
    destruct s as [|c s]; [cbn; lia|]. cbn [length] in Hw.
    assert (∀ B (m : res (B * cursor)), shorter (length s) m → shorter (length cu.2) m) as Hup.
    { intros B [[v cu']|e]; cbn; [lia|done]. }
    destruct (c =? 91); [apply Hup, (IHi anchors [] (Some c, s)); cbn; lia|].
    destruct (c =? 123); [apply Hup, (IHe anchors [] (Some c, s)); cbn; lia|].
    destruct (is_quote c).
    { destruct (_close_quote c s) as [[raw rest]|] eqn:E; [|apply real_value].
      apply (close_quote_length _ (length s)) in E; [|done]. pose proof (fold_quoted_errors (split_on 10 raw) c) as Hq.
      destruct (_fold_quoted _ _) as [t|e]; cbn; [lia|done]. }
    destruct (c =? 42).
    { pose proof (take_while_length alias_char s) as Ht. destruct (take_while alias_char s) as [name rest]. cbn [fst snd] in Ht.
      destruct (assoc name anchors); [|apply real_value]. cbn. lia. }
    pose proof (flow_plain_length prev (c :: s)) as Hp. destruct (flow_plain prev (c :: s)) as [raw cu']. cbn in *. lia.
  - intros anchors items cu Hf. cbn [flow_items]. pose proof (ws_length cu) as Hw. set (cu0 := _ws cu) in *. clearbody cu0. cbn zeta.
    destruct (eat 93 cu0) as [cu1|] eqn:E93; [apply eat_length in E93; cbn; lia|].
    pose proof (IHv anchors cu0) as Hv. destruct (flow_value show fuel anchors cu0) as [[item cu1]|e]; [|apply Hv; lia].
    cbn [mbind res_bind]. assert (length (_ws cu1).2 <= length cu0.2)%nat as Hw1.
    { etransitivity; [apply ws_length|]. apply Hv. lia. }
    set (cu2 := _ws cu1) in *. clearbody cu2. destruct (eat 44 cu2) as [cu3|] eqn:E44.
    + apply eat_length in E44. apply (shorter_le (length cu3.2)); [lia|]. apply IHi. lia.
    + destruct (eat 93 cu2) as [cu3|] eqn:E; [apply eat_length in E; cbn; lia|apply real_value].
  - intros anchors es cu Hf. cbn [flow_entries]. pose proof (ws_length cu) as Hw. set (cu0 := _ws cu) in *. clearbody cu0. cbn zeta.
    destruct (eat 125 cu0) as [cu1|] eqn:E125; [apply eat_length in E125; cbn; lia|].
    pose proof (IHv anchors cu0) as Hv. destruct (flow_value show fuel anchors cu0) as [[item cu1]|e]; [|apply Hv; lia].
    cbn [mbind res_bind]. assert (length (_ws cu1).2 <= length cu0.2)%nat as Hw1.
    { etransitivity; [apply ws_length|]. apply Hv. lia. }
    set (cu2 := _ws cu1) in *. clearbody cu2.
    assert (shorter (length cu2.2) (match eat 58 cu2 with Some cu => flow_value show fuel anchors cu | None => Ok (YText [], cu2) end)) as Hval.
    { destruct (eat 58 cu2) as [cu3|] eqn:E58; [|cbn; lia]. apply eat_length in E58. apply (shorter_le (length cu3.2)); [lia|]. apply IHv. lia. }
    set (m := match eat 58 cu2 with Some cu => flow_value show fuel anchors cu | None => Ok (YText [], cu2) end) in *.
    clearbody m. destruct m as [[value cu3]|e]; [|exact Hval]. cbn [shorter mbind res_bind] in *.
    pose proof (ws_length cu3) as Hw3. set (cu4 := _ws cu3) in *. clearbody cu4. destruct (eat 44 cu4) as [cu5|] eqn:E44.
    + apply eat_length in E44. apply (shorter_le (length cu5.2)); [lia|]. apply IHe. lia.
    + destruct (eat 125 cu4) as [cu5|] eqn:E; [apply eat_length in E; cbn; lia|apply real_value].
Qed.

(** What is left to read: the text of the lines without their indentation. *)
Definition line_size (l : pystr) : nat := S (length (_indent l).2).
Fixpoint left (ls : list pystr) : nat := match ls with [] => O | l :: ls' => line_size l + left ls' end.
Definition size (r : Reader) : nat := left (rest_lines r).
Definition ends {A} (n : nat) (m : res A * Reader) : Prop :=
  match m with (Ok _, r) => (size r <= n)%nat | (Raise e, _) => real e end.

Lemma left_drop n ls : (left (drop n ls) <= left ls)%nat.
Proof.
  revert ls. induction n as [|n IH]; intros [|l ls]; cbn; [lia..|]. specialize (IH ls). lia.
Qed.
Lemma rest_advance n r : rest_lines (advance_by n r) = drop n (rest_lines r).
Proof. unfold rest_lines, advance_by. cbn. by rewrite drop_drop. Qed.
Lemma size_advance n r : (size (advance_by n r) <= size r)%nat.
Proof. unfold size. rewrite rest_advance. apply left_drop. Qed.
Lemma ends_le {A} k n (m : res A * Reader) : (k <= n)%nat → ends k m → ends n m.
Proof. destruct m as [[a|e] r]; cbn; [lia|done]. Qed.
Lemma ends_bind {A B} n k (m : st Reader A) (f : A → st Reader B) r :
  ends k (m r) → (∀ a r', m r = (Ok a, r') → (size r' <= k)%nat → ends n (f a r')) → ends n ((m ≫= f) r).
Proof. rewrite st_bind_eq. destruct (m r) as [[a|e] r'] eqn:E; cbn; [|done]. intros Hm Hf. by apply Hf. Qed.
Lemma ends_ret {A} n (a : A) r : (size r <= n)%nat → ends n ((mret a : st Reader A) r).
Proof. done. Qed.
Lemma ends_error {A} n msg r : ends n ((yaml_error msg : st Reader A) r).
Proof. apply real_config. Qed.

Lemma next_line_spec ls : match next_line ls with
  | (n, Some (ind, body)) => ∃ l ls', drop n ls = l :: ls' ∧ _indent l = (ind, body) ∧ is_blank_text body = false
  | (_, None) => True
  end.
Proof.
  induction ls as [|l ls IH]; [done|]. cbn [next_line]. destruct (_indent l) as [ind body] eqn:E.
  destruct (is_blank_text body) eqn:Eb; [|by exists l, ls].
  destruct (next_line ls) as [n [[i b]|]]; [|done]. exact IH.
Qed.
(** A line that [_peek] shows can be taken, and taking it leaves less. *)
Lemma peek_spec r : ∃ x r', _peek r = (Ok x, r') ∧ (size r' <= size r)%nat
  ∧ match x with
    | Some (ind, body) => ∃ l ls, rest_lines r' = l :: ls ∧ _indent l = (ind, body) ∧ is_blank_text body = false
    | None => True
    end.
Proof.
  unfold _peek. pose proof (next_line_spec (rest_lines r)) as H. destruct (next_line (rest_lines r)) as [n x].
  eexists _, (advance_by n r). split; [done|]. split; [apply size_advance|]. destruct x as [[ind body]|]; [|done].
  destruct (_boundary ind body); [done|]. rewrite rest_advance. exact H.
Qed.
Lemma take_spec r l ls : rest_lines r = l :: ls → _take r = (Ok l, advance_by 1 r) ∧ rest_lines (advance_by 1 r) = ls.
Proof.
  intros H. split; [|by rewrite rest_advance, H]. unfold _take. unfold rest_lines in H.
  assert (y_lines r !! y_i r = Some l) as ->; [|done].
  rewrite <- (Nat.add_0_r (y_i r)), <- lookup_drop. by rewrite H.
Qed.
Lemma not_blank_size body : is_blank_text body = false → (1 <= length body)%nat.
Proof. destruct body; cbn; [done|lia]. Qed.
Lemma taken_size r l ls ind body :
  rest_lines r = l :: ls → _indent l = (ind, body) → is_blank_text body = false → (size (advance_by 1 r) + 2 <= size r)%nat.
Proof.
  intros H E Hb. apply not_blank_size in Hb. destruct (take_spec _ _ _ H) as [_ H'].
  unfold size. rewrite H', H. cbn [left]. unfold line_size. rewrite E. cbn [snd]. lia.
Qed.
Lemma blank_spaces k s : match s with c :: _ => blank c = false | [] => True end → (_indent (repeat 32 k ++ s)).2 = s.
Proof.
  intros H. unfold _indent. assert (∃ w, take_while blank (repeat 32 k ++ s) = (w, s)) as [w ->]; [|done].
  induction k as [|k [w IH]].
  - exists []. cbn. destruct s as [|c s]; [done|]. cbn. by rewrite H.
  - exists (32 :: w). cbn. by rewrite IH.
Qed.
Lemma rewrite_size r l ls ind body k :
  rest_lines r = l :: ls → _indent l = (ind, body) → is_blank_text body = false →
  let rest := drop 1 body in let inner := lstrip_by blank rest in
  ∃ r', rewrite_item k rest inner r = (Ok (), r') ∧ (size r' + 1 <= size r)%nat.
Proof.
  intros H E Hb rest inner. eexists. split; [done|]. unfold size, rest_lines. cbn [y_lines y_i].
  unfold rest_lines in H. assert (y_i r < length (y_lines r))%nat as Hi.
  { apply not_ge. intros Hge. by rewrite (drop_ge (y_lines r)) in H. }
  rewrite drop_insert_ge by lia. rewrite H, Nat.sub_diag. cbn [insert list_insert]. cbn [left]. unfold line_size. rewrite E, blank_spaces.
  - cbn [snd]. apply not_blank_size in Hb. destruct (lstrip_by_suffix blank rest) as [pre Hp]. fold inner in Hp.
    assert (length rest = (length body - 1)%nat) as Hl by apply length_drop.
    rewrite Hp, length_app in Hl. lia.
  - destruct inner as [|c s] eqn:Ei; [done|]. by eapply lstrip_by_head.
Qed.

Lemma plain_ends s parent r : ends (size r) (_plain s parent r).
Proof. unfold _plain. destruct (plain_lines _ _ _ _) as [t n]. apply size_advance. Qed.
Lemma quoted_ends q s r : ends (size r) (_quoted q s r).
Proof.
  unfold _quoted. destruct (quoted_lines q s (rest_lines r)) as [[[ps tail] n]|]; [|apply real_config].
  destruct (is_blank_text _); [|apply real_config]. pose proof (fold_quoted_errors ps q) as H.
  destruct (_fold_quoted ps q); [apply size_advance|exact H].
Qed.
Lemma flow_ends s r : ends (size r) (_flow show s r).
Proof.
  unfold _flow. destruct (flow_lines s (rest_lines r)) as [[[text tail] n]|]; [|apply real_config].
  cbn zeta. destruct (is_blank_text _); [|apply real_config].
  destruct (flow_total (flow_fuel text)) as [Hv _]. specialize (Hv (y_anchors (advance_by n r)) (None, text)).
  destruct (flow_value _ _ _ _) as [[v cu]|e]; [apply size_advance|].
  assert (real e) as He by (apply Hv; unfold flow_fuel; cbn; lia).
  destruct (exn_cls e); try exact He. apply real_config.
Qed.
Lemma block_ends s parent r : ends (size r) (_block_scalar s parent r).
Proof.
  unfold _block_scalar. destruct (block_header s) as [[[folded chomp] d]|]; [|apply real_config].
  destruct (block_lines _ _ _) as [ls n]. apply size_advance.
Qed.
Lemma set_anchor_ends a v r : ends (size r) (set_anchor a v r).
Proof. unfold set_anchor. destruct (not_empty a); apply Nat.le_refl. Qed.
(** A value that needs no block. *)
Lemma inline_ends c s' s parent r :
  ends (size r)
    ((if (c =? 42) && negb match s' with d :: _ => one_of d "({" | [] => false end then
        let '(name, _) := take_while alias_char s' in
        r ← st_get;
        match assoc name (y_anchors r) with None => yaml_error "unknown alias *{0}" | Some v => mret v end
      else if is_quote c then _quoted c s'
      else if one_of c "[{" then _flow show s
      else if one_of c "|>" then _block_scalar s parent
      else _plain s parent) r).
Proof.
  destruct (_ && _).
  { destruct (take_while _ _) as [name ?]. rewrite st_bind_eq. cbn. destruct (assoc name (y_anchors r)); [apply ends_ret; lia|apply ends_error]. }
  destruct (is_quote c); [apply quoted_ends|]. destruct (one_of c "[{"); [apply flow_ends|].
  destruct (one_of c "|>"); [apply block_ends|apply plain_ends].
Qed.

Lemma reader_ends fuel :
  (∀ parent r, (2 * size r + 2 <= fuel)%nat → ends (size r) (_node show fuel parent r))
  ∧ (∀ ind root acc r, (2 * size r + 1 <= fuel)%nat → ends (size r) (_map show fuel ind root acc r))
  ∧ (∀ ind acc r, (2 * size r + 1 <= fuel)%nat → ends (size r) (_seq show fuel ind acc r))
  ∧ (∀ text parent in_map r, (2 * size r + 3 <= fuel)%nat → ends (size r) (_value show fuel text parent in_map r)).
Proof.
  induction fuel as [|fuel (IHn & IHm & IHs & IHv)]; [split_and!; intros; lia|].
  assert (∀ r l ls ind body text parent in_map B (f : ynode * pystr → st Reader B) n,
    rest_lines r = l :: ls → _indent l = (ind, body) → is_blank_text body = false →
    (2 * size r + 1 <= S fuel)%nat → (size r <= n)%nat →
    (∀ va r', (size r' + 1 <= size r)%nat → ends n (f va r')) →
    ends n ((_ ← _take; va ← _value show fuel text parent in_map; f va) r)) as Htake.
  { intros r l ls ind body text parent in_map B f n Hr Hi Hb Hf Hn Hk. destruct (take_spec _ _ _ Hr) as [Ht _].
    pose proof (taken_size _ _ _ _ _ Hr Hi Hb) as Hs. rewrite st_bind_eq, Ht. cbn beta iota.
    eapply ends_bind; [apply IHv; lia|]. intros va r' _ Hr'. apply Hk. lia. }
  split_and!.
  - intros parent r Hf. cbn [_node]. rewrite st_bind_eq. destruct (peek_spec r) as (x & r1 & -> & Hs & Hx). cbn beta iota.
    destruct x as [[ind body]|]; [|apply ends_ret; lia]. destruct Hx as (l & ls & Hr & Hi & Hb).
    destruct (ind <=? parent); [apply ends_ret; lia|].
    destruct (_is_item body); [apply (ends_le (size r1)); [lia|apply IHs; lia]|].
    destruct (_key body); [apply (ends_le (size r1)); [lia|apply IHm; lia]|].
    eapply Htake; [done..|lia|lia|]. intros [v a] r' Hr'. apply ends_ret. lia.
  - intros ind root acc r Hf. cbn [_map]. rewrite st_bind_eq. destruct (peek_spec r) as (x & r1 & -> & Hs & Hx). cbn beta iota.
    destruct x as [[i body]|]; [|apply ends_ret; lia]. destruct Hx as (l & ls & Hr & Hi & Hb).
    destruct (i <? ind); [apply ends_ret; lia|].
    destruct (if i =? ind then _key body else None) as [[k after]|].
    2: { destruct (_ && _); [apply ends_ret; lia|apply ends_error]. }
    eapply Htake; [done..|lia|lia|]. intros [v a] r' Hr'.
    eapply (ends_bind _ (size r')).
    { destruct (_ && _); [apply set_anchor_ends|apply ends_ret; lia]. }
    intros _ r2 _ Hr2. apply (ends_le (size r2)); [lia|]. apply IHm. lia.
  - intros ind acc r Hf. cbn [_seq]. rewrite st_bind_eq. destruct (peek_spec r) as (x & r1 & -> & Hs & Hx). cbn beta iota.
    destruct x as [[i body]|]; [|apply ends_ret; lia]. destruct Hx as (l & ls & Hr & Hi & Hb).
    destruct (_ || _); [apply ends_ret; lia|]. destruct (ind <? i); [apply ends_error|]. cbn zeta.
    destruct (negb _ && _).
    + rewrite st_bind_eq. destruct (rewrite_size _ _ _ _ _ ind Hr Hi Hb) as (r2 & -> & Hr2). cbn beta iota.
      eapply (ends_bind _ (size r2)); [apply IHn; lia|]. intros v r3 _ Hr3. apply (ends_le (size r3)); [lia|]. apply IHs. lia.
    + eapply Htake; [done..|lia|lia|]. intros [v a] r' Hr'. apply (ends_le (size r')); [lia|]. apply IHs. lia.
  - intros text parent in_map r Hf. cbn [_value]. destruct (node_props _ _ _) as [anchor s].
    eapply (ends_bind _ (size r)).
    2: { intros v r' _ Hr'. eapply (ends_bind _ (size r')); [apply set_anchor_ends|]. intros _ r2 _ Hr2. apply ends_ret. lia. }
    destruct (is_blank_text s).
    + rewrite st_bind_eq. destruct (peek_spec r) as (x & r1 & -> & Hs & Hx). cbn beta iota.
      apply (ends_le (size r1)); [lia|].
      destruct x as [[i body]|]; [destruct (_ && _)|]; first [apply IHs; lia|apply IHn; lia].
    + destruct s as [|c s']; [apply ends_ret; lia|]. apply inline_ends.
Qed.

(** Once something was shown by [_peek], reading it takes some of it. *)
Lemma peek_again r ind body r1 : _peek r = (Ok (Some (ind, body)), r1) → _peek r1 = (Ok (Some (ind, body)), r1).
Proof.
  unfold _peek. pose proof (next_line_spec (rest_lines r)) as H. destruct (next_line (rest_lines r)) as [n [[i b]|]]; [|done].
  destruct (_boundary i b) eqn:Ebd; [done|]. intros [= <- <- <-]. destruct H as (l & ls & Hd & Hi & Hb).
  rewrite rest_advance, Hd. cbn [next_line]. rewrite Hi, Hb, Ebd. unfold advance_by. cbn. by rewrite Nat.add_0_r.
Qed.
Lemma take_ends {A} fuel r l ls ind body text parent in_map (f : ynode * pystr → st Reader A) n :
  rest_lines r = l :: ls → _indent l = (ind, body) → is_blank_text body = false → (2 * size r <= fuel)%nat →
  (∀ va r', (size r' + 2 <= size r)%nat → ends n (f va r')) →
  ends n ((_ ← _take; va ← _value show fuel text parent in_map; f va) r).
Proof.
  intros Hr Hi Hb Hf Hk. destruct (take_spec _ _ _ Hr) as [Ht _]. pose proof (taken_size _ _ _ _ _ Hr Hi Hb) as Hs.
  rewrite st_bind_eq, Ht. cbn beta iota. eapply ends_bind; [apply reader_ends; lia|]. intros va r' _ Hr'. apply Hk. lia.
Qed.
Lemma node_progress fuel r ind body r1 :
  (2 * size r + 2 <= fuel)%nat → _peek r = (Ok (Some (ind, body)), r1) → 0 <= ind →
  ends (size r - 1) (_node show fuel (-1) r).
Proof.
  intros Hf Hp Hind. destruct fuel as [|[|fuel]]; [lia..|]. remember (S fuel) as f1. cbn [_node]. rewrite st_bind_eq, Hp. cbn beta iota. subst f1.
  destruct (Z.leb_spec ind (-1)); [lia|]. destruct (peek_spec r) as (x & r1' & E & Hs & Hx). rewrite Hp in E.
  injection E as <- <-. destruct Hx as (l & ls & Hr & Hi & Hb). apply peek_again in Hp.
  pose proof (taken_size _ _ _ _ _ Hr Hi Hb) as Ht. destruct (reader_ends fuel) as (IHn & IHm & IHs & _).
  destruct (_is_item body) eqn:Eit; [|destruct (_key body) as [[k after]|] eqn:Ek].
  - cbn [_seq]. rewrite st_bind_eq, Hp. cbn beta iota. rewrite Eit, Z.ltb_irrefl, andb_false_r. cbn [orb]. cbn zeta.
    destruct (negb _ && _).
    + rewrite st_bind_eq. destruct (rewrite_size _ _ _ _ _ ind Hr Hi Hb) as (r2 & -> & Hr2). cbn beta iota.
      eapply (ends_bind _ (size r2)); [apply IHn; lia|]. intros v r3 _ Hr3. apply (ends_le (size r3)); [lia|]. apply IHs. lia.
    + eapply take_ends; [done..|lia|]. intros [v a] r' Hr'. apply (ends_le (size r')); [lia|]. apply IHs. lia.
  - cbn [_map]. rewrite st_bind_eq, Hp. cbn beta iota. rewrite Z.ltb_irrefl, Z.eqb_refl, Ek.
    eapply take_ends; [done..|lia|]. intros [v a] r' Hr'. eapply (ends_bind _ (size r')).
    { destruct (_ && _); [apply set_anchor_ends|apply ends_ret; lia]. }
    intros _ r2 _ Hr2. apply (ends_le (size r2)); [lia|]. apply IHm. lia.
  - eapply take_ends; [done..|lia|]. intros [v a] r' Hr'. apply ends_ret. lia.
Qed.

Lemma columns_nonneg s n : 0 <= n → 0 <= fold_left (λ n c, if c =? 9 then n + (8 - n mod 8) else n + 1) s n.
Proof. revert n. induction s as [|c s IH]; intros n Hn; cbn; [done|]. apply IH. case_match; dlia. Qed.
Lemma indent_nonneg l : 0 <= (_indent l).1.
Proof. unfold _indent. destruct (take_while _ _). by apply columns_nonneg. Qed.
Lemma documents_ends n fuel docs r :
  (size r < n)%nat → (2 * size r + 2 <= fuel)%nat → ends (size r) (documents show n fuel docs r).
Proof.
  revert docs r. induction n as [|n IH]; intros docs r Hn Hf; [lia|]. cbn [documents]. rewrite st_bind_eq. cbn [st_get].
  destruct (rest_lines r) as [|l ls] eqn:Hr; [apply ends_ret; lia|]. pose proof (indent_nonneg l) as H0.
  destruct (_indent l) as [ind body] eqn:Hi. cbn [fst] in H0.
  destruct (is_blank_text body || _boundary ind body) eqn:Eb.
  - rewrite st_bind_eq. cbn [st_modify]. assert (size (advance_by 1 r) < size r)%nat as Hs.
    { unfold size. rewrite rest_advance, Hr. cbn [drop left]. rewrite drop_0. unfold line_size. lia. }
    apply (ends_le (size (advance_by 1 r))); [lia|]. apply IH; lia.
  - apply orb_false_iff in Eb as [Eb Ebd].
    assert (_peek r = (Ok (Some (ind, body)), advance_by 0 r)) as Hp.
    { unfold _peek. rewrite Hr. cbn [next_line]. by rewrite Hi, Eb, Ebd. }
    eapply ends_bind; [by eapply node_progress|]. intros d r1 _ Hr1.
    assert (2 <= size r)%nat as H2.
    { unfold size. rewrite Hr. cbn [left]. unfold line_size. rewrite Hi. apply not_blank_size in Eb. cbn [snd]. lia. }
    rewrite st_bind_eq. destruct (peek_spec r1) as (x & r2 & -> & Hs2 & _). cbn beta iota.
    destruct x; [apply ends_error|]. apply (ends_le (size r2)); [lia|]. apply IH; lia.
Qed.
Lemma left_lines ls : (left ls <= lines_size ls)%nat.
Proof.
  induction ls as [|l ls IH]; cbn; [done|]. unfold line_size, _indent. pose proof (take_while_length blank l) as H.
  destruct (take_while blank l) as [w b]. cbn in *. lia.
Qed.

(** The reader always ends, on every text: the fuel (nested values, documents, flow collections) never runs out, no
    line is read that does not exist, and the only errors are a [ConfigError] (the code's [_YamlError]) and those of
    [chr] for an escape that is no code point. *)
Lemma reader_ok text :
  match read_documents show text with
  | Ok docs => True
  | Raise e => exn_cls e = ConfigError ∨ exn_cls e = ValueError ∨ exn_cls e = OverflowError
  end.
Proof.
  unfold read_documents. pose proof (left_lines (split_on 10 text)) as Hl.
  pose proof (documents_ends (read_fuel text) (read_fuel text) [] (new_reader text)) as H.
  assert (size (new_reader text) = left (split_on 10 text)) as Hs by done.
  destruct (documents _ _ _ _ _) as [[docs|e] r]; [done|]. apply H; unfold read_fuel; lia.
Qed.


End total.
(** An escape beyond the last code point: not the error the import expects. *)
Example escape_overflow :
  read_documents (λ _, []) (str "a: " ++ [34] ++ str "\UFFFFFFFF" ++ [34])
  = raise OverflowError "signed integer is greater than maximum".
Proof. vm_compute. reflexivity. Qed.
