(* ===== verification/ClassicYaml.v ===== *)
(** * ser2net 4.x configuration files and the import as a whole (app/ser2net_import.py: [_Yaml],
    [_from_yaml], [_assemble]'s use in [parse_ser2net_config])

    [Y] is the state of the code's [_Yaml]: the references, defaults, warnings and connections so far. Both
    YAML dialects and the 3.x format end in the same assembly ([Classic]). *)
From S2P Require Import Prelude PyFloat PyStr PyVal IpAddr PyNum Json Config AppConfig Importer Classic ClassicV3 Yaml.
#[local] Open Scope Z_scope.

(** ** References *)
Definition _V1_KEYS : list string := ["connection"; "define"; "default"; "delete_default"; "rotator"; "led"; "admin"].
Definition _V2_KEYS : list string :=
  ["connections"; "defines"; "defaults"; "delete_defaults"; "rotators"; "leds"; "admins"].
Definition _SERIAL_DEFAULTS : list string :=
  ["speed"; "nobreak"; "rtscts"; "xonxoff"; "local"; "hangup-when-done"; "dtr"; "rts"; "custspeed"; "rs485";
   "uucplock"; "flock"].
Definition _OPTION_DEFAULTS : list string :=
  ["kickolduser"; "max-connections"; "remaddr"; "telnet-brk-on-sync"; "chardelay"; "trace-hexdump";
   "trace-timestamp"; "trace-both-hexdump"; "trace-both-timestamp"].

Section yaml.
Context (say : string → list pystr → pystr) (getservbyname : pystr → option Z) (word : Z → bool)
  (show : ynode → pystr).

(** [_substitute]: the text and the notes; a step takes at least one character. *)
Fixpoint substitute_from (fuel : nat) (aliases : list (pystr * pystr)) (act : string) (s : pystr) : pystr * list pystr :=
  match fuel, s with
  | S fuel, ch :: r =>
      let ours := one_of ch act in
      let go s := substitute_from fuel aliases act s in
      let put l s := let '(o, ns) := go s in (l ++ o, ns) in
      match r with
      | nxt :: r2 =>
          if ours && (nxt =? ch) then put [ch] r2
          else if (ours && one_of nxt "({") || ((ch =? 36) && (nxt =? 40)) then
            if ours && match r2 with d :: _ => d =? ch | [] => false end then put [ch; nxt] (drop 1 r2)
            else match split_first (if nxt =? 40 then 41 else 125) r2 with
            | None => put [ch] r
            | Some (ref, rest) =>
                if nxt =? 123 then
                  let '(o, ns) := go rest in (o, say "{0}{{{1}}} (a file on the ser2net host) is left out" [[ch]; ref] :: ns)
                else match assoc ref aliases with
                | Some v => put v rest
                | None =>
                    let '(o, ns) := go r in
                    (ch :: o, if ours then say "unknown reference {0}({1}) left as it is" [[ch]; ref] :: ns else ns)
                end
            end
          else put [ch] r
      | [] => ([ch], [])
      end
  | _, _ => ([], [])
  end.
Definition _substitute (aliases : list (pystr * pystr)) (act : string) (s : pystr) : pystr * list pystr :=
  substitute_from (length s) aliases act s.

(** ** The entries of a file *)
Record Y := mkY {
  y_act : string;
  y_aliases : list (pystr * pystr);
  y_warnings : list pystr;
  y_conns : list Conn;
  y_serial_defaults : list (pystr * pystr);
  y_option_defaults : list (pystr * pystr);
  y_broken : bool;
}.
Definition new_y (act : string) : Y := mkY act [] [] [] [] [] false.
Definition y_warn (ws : list pystr) (y : Y) : Y :=
  mkY (y_act y) (y_aliases y) (y_warnings y ++ ws) (y_conns y) (y_serial_defaults y) (y_option_defaults y) (y_broken y).
Definition y_alias (n v : pystr) (y : Y) : Y :=
  mkY (y_act y) (dict_set n v (y_aliases y)) (y_warnings y) (y_conns y) (y_serial_defaults y) (y_option_defaults y) (y_broken y).
(** [_YMap.get]: the last value of the key. *)
Definition y_get (k : string) (d : string) (es : list (pystr * ynode * pystr)) : ynode :=
  match find (λ e, str_eqb (lower e.1.1) (str k)) (rev es) with Some e => e.1.2 | None => YText (str d) end.
(** [text], with the notes it adds. *)
Definition y_text (y : Y) (node : ynode) (what : pystr) : pystr * list pystr :=
  match node with
  | YText s => _substitute (y_aliases y) (y_act y) s
  | _ => ([], [say "{0} is not a single value, ignored" [what]])
  end.
Definition gtext (y : Y) (node : ynode) (what : pystr) : pystr * Y :=
  let '(v, ns) := y_text y node what in (v, y_warn ((λ n, what ++ str ": " ++ n) <$> ns) y).
(** [text] for a connection. *)
Definition ctext (y : Y) (node : ynode) (what : pystr) (c : Conn) : pystr * Conn :=
  let '(v, ns) := y_text y node what in (v, set_notes (notes c ++ ns) c).

Definition y_default (name value cls : pystr) (y : Y) : Y :=
  let n := lower (strip name) in
  let cls := lower (strip cls) in
  if is_nil n || negb (is_one cls [EmptyString; "serialdev"%string; "sdev"%string; "ser2net"%string]) then y
  else if is_one n _SERIAL_DEFAULTS && negb (str_eqb cls (str "ser2net")) then
    mkY (y_act y) (y_aliases y) (y_warnings y) (y_conns y) (dict_set n (strip value) (y_serial_defaults y)) (y_option_defaults y) (y_broken y)
  else if is_one n _OPTION_DEFAULTS && is_one cls [EmptyString; "ser2net"%string] then
    mkY (y_act y) (y_aliases y) (y_warnings y) (y_conns y) (y_serial_defaults y) (dict_set n (strip value) (y_option_defaults y)) (y_broken y)
  else y_warn [say "default {0}: {1} is not imported (no equivalent here)" [name; value]] y.
Definition pop_key (k : pystr) (l : list (pystr * pystr)) : list (pystr * pystr) :=
  List.filter (λ p, negb (str_eqb p.1 k)) l.
Definition y_delete_default (name : pystr) (y : Y) : Y :=
  let n := lower (strip name) in
  mkY (y_act y) (y_aliases y) (y_warnings y) (y_conns y) (pop_key n (y_serial_defaults y)) (pop_key n (y_option_defaults y)) (y_broken y).

Definition set_enable (y : Y) (body : list (pystr * ynode * pystr)) (c : Conn) : Conn :=
  let '(enable, c) := ctext y (y_get "enable" "on" body) (str "enable") c in
  let c := match _bool enable with
           | None => note (say "enable '{0}' is not on/off: imported disabled" [enable]) c
           | _ => c
           end in
  set_c_enabled (match _bool enable with Some b => b | None => false end) c.
Definition given_option (y : Y) (c : Conn) (e : pystr * ynode * pystr) : Conn :=
  let '(v, c) := ctext y e.1.2 e.1.1 c in _option say e.1.1 v c.
Definition body_entry (y : Y) (c : Conn) (e : pystr * ynode * pystr) : Conn :=
  let k := lower e.1.1 in
  if str_eqb k (str "options") then
    match e.1.2 with
    | YMap es => foldl (given_option y) c es
    | YText s => note_if (not_empty (strip s)) (say "options is not a mapping, ignored" []) c
    | YList _ => note (say "options is not a mapping, ignored" []) c
    end
  else if is_one k ["accepter"; "connector"; "enable"] then c
  else given_option y c e.
Definition y_settings (y : Y) (body : list (pystr * ynode * pystr)) (c : Conn) : Conn :=
  let c := set_enable y body c in
  let c := foldl (λ c d, _option say d.1 d.2 c) c (y_option_defaults y) in
  foldl (body_entry y) c body.
(** The connection of an entry, and whether it is imported. *)
Definition y_conn (y : Y) (name : pystr) (body : ynode) : bool * Conn :=
  let c := new_conn name (if not_empty name then name else say "a connection without a name" []) false in
  match body with
  | YMap es =>
      let '(accepter, c) := ctext y (y_get "accepter" "" es) (str "accepter") c in
      let '(connector, c) := ctext y (y_get "connector" "" es) (str "connector") c in
      let accepter := strip accepter in
      let connector := strip connector in
      if is_nil accepter || is_nil connector then (false, skip say (say "it needs both an accepter and a connector" []) c)
      else
        let '(usable, c) := _accepter say getservbyname accepter c in
        if negb usable then (false, c)
        else
          let port_name := str "ser2net-" ++ str_of_Z (cn_port (c_network c)) in
          let c := if not_empty name then c else set_label port_name (set_name port_name c) in
          let defaults := (λ d, d.1 ++ str "=" ++ d.2) <$> y_serial_defaults y in
          let '(ok, c) := _connector say connector defaults c in
          if negb ok then (false, c) else (true, _finish say word (y_settings y es c))
  | _ => (false, skip say (say "not a mapping" []) c)
  end.
Definition y_connection (name : pystr) (body : ynode) (y : Y) : Y :=
  let y := if not_empty name then y_alias name name y else y in
  let '(imported, c) := y_conn y name body in
  mkY (y_act y) (y_aliases y) (y_warnings y ++ _notes c imported) (if imported then y_conns y ++ [c] else y_conns y)
    (y_serial_defaults y) (y_option_defaults y) (y_broken y || broken c).

Definition y_define (y : Y) (e : pystr * ynode) : Y :=
  let '(v, y) := gtext y e.2 (str "define " ++ e.1) in y_alias e.1 v y.
Definition y_entry (y : Y) (e : pystr * ynode * pystr) : Y :=
  let '(ky, value, anchor) := e in
  let k := lower ky in
  let at_key n := str_eqb k (str n) in
  let ignored := y in
  let unknown := y_warn [say "unknown top-level entry '{0}' ignored" [ky]] y in
  if at_key "define" then if not_empty anchor then y_define y (anchor, value) else y
  else if at_key "connection" then y_connection anchor value y
  else if at_key "rotator" || at_key "rotators" then
    let names := if at_key "rotator" then [anchor]
                 else match value with YMap es => (λ e, e.1.1) <$> es | _ => [] end in
    y_warn ((λ n, say "rotator {0}: not imported" [n]) <$> match names with [] => [str "(unnamed)"] | _ => names end) y
  else if at_key "admin" || at_key "admins" then y_warn [say "the ser2net admin interface is not imported" []] y
  else if at_key "include" then
    let '(v, y) := gtext y value (str "include") in
    y_warn [say "include {0}: included files are not read" [v]] y
  else
    match value with
    | YMap es =>
        if at_key "defines" then foldl (λ y e, y_define y e.1) y es
        else if at_key "connections" then foldl (λ y e, y_connection e.1.1 e.1.2 y) y es
        else if at_key "default" then
          let '(n, y) := gtext y (y_get "name" "" es) (str "default") in
          let '(v, y) := gtext y (y_get "value" "" es) (str "default") in
          let '(cls, y) := gtext y (y_get "class" "" es) (str "default") in
          y_default n v cls y
        else if at_key "defaults" then
          foldl (λ y e, match e.1.2 with
                        | YMap b =>
                            let what := str "default " ++ e.1.1 in
                            let '(v, y) := gtext y (y_get "value" "" b) what in
                            let '(cls, y) := gtext y (y_get "class" "" b) what in
                            y_default e.1.1 v cls y
                        | _ => y
                        end) y es
        else if at_key "delete_default" then
          let '(n, y) := gtext y (y_get "name" "" es) (str "delete_default") in y_delete_default n y
        else if at_key "delete_defaults" then foldl (λ y e, y_delete_default e.1.1 y) y es
        else if at_key "led" || at_key "leds" then ignored else unknown
    | _ =>
        if is_one k ["led"; "leds"; "defines"; "connections"; "defaults"; "delete_default"; "delete_defaults"; "default"]
        then ignored else unknown
    end.
Definition map_entries (d : ynode) : list (pystr * ynode * pystr) := match d with YMap es => es | _ => [] end.
Definition _from_yaml (text : pystr) : res (list Conn * list pystr) :=
  docs ← read_documents show text;
  let entries := docs ≫= map_entries in
  let keys := (λ e, lower e.1.1) <$> entries in
  let v1 := existsb (λ k, is_one k _V1_KEYS) keys in
  let v2 := existsb (λ k, is_one k _V2_KEYS) keys in
  _ ← raise_if (negb (v1 || v2)) ConfigError "{0} is not a ser2net configuration";
  let y := new_y (if v2 && negb v1 then "=" else if v2 then "*=" else "*") in
  let y := if v1 && v2 then y_warn [say "the file mixes ser2net version 1 and version 2 YAML entries" []] y else y in
  let y := foldl y_entry y entries in
  unless_broken (y_broken y) (y_conns y, y_warnings y).

(** ** The whole import *)
Definition TOP_KEYS : list string := _V1_KEYS ++ _V2_KEYS ++ ["include"%string].
(** [_TOP_KEY] at the start of a line. *)
Definition top_key (line : pystr) : bool :=
  existsb (λ k, same_fold (take (length (str k)) line) (str k)
                && match lstrip_by blank (drop (length (str k)) line) with
                   | c :: after => (c =? 58) && colon_ends after
                   | [] => false
                   end) TOP_KEYS.
Definition looks_yaml (text : pystr) : bool :=
  let lines := split_on 10 text in
  match find (λ s, negb (is_blank_text s)) (strip <$> lines) with
  | Some s => starts_with s (str "%YAML") || marker s "---" || existsb top_key lines
  | None => existsb top_key lines
  end.
Definition normal_text (text : pystr) : pystr :=
  replace_all [13] [10] (replace_all [13; 10] [10] (lstrip_by (Z.eqb 65279) text)).
Section whole.
Context (repr : pyval → pystr) (isfile : pystr → bool).
Definition parse_connections (text : pystr) : res (list Conn * list pystr) :=
  _ ← raise_if (is_nil (strip text)) ConfigError "The file is empty.";
  if looks_yaml text then _from_yaml text
  else
    let lines := _v3_lines text in
    _ ← raise_if (negb (existsb (λ l, is_v3_line l.2) lines)) ConfigError "{0} is not a ser2net configuration";
    _from_v3 say getservbyname word lines.
Definition parse_ser2net_config (text : pystr) : res (list pyval * list pystr) :=
  '(conns, ws) ← parse_connections (normal_text text);
  '(ds, ws) ← _assemble say word repr isfile conns ws;
  Ok (ds, if is_nil ds then
            ws ++ [say (if is_nil conns then "The file has no ser2net connections to import."
                        else "No connection could be imported.") []]
          else ws).
End whole.
End yaml.

(** ** A 4.x connection never opens more than it says *)
Section yaml_never_wider.
Context (say : string → list pystr → pystr) (getservbyname : pystr → option Z) (word : Z → bool).

(** The listen fields of an accepter: what follows its network layer. *)
Fixpoint accept_fields (layers : list pystr) : list pystr :=
  match layers with
  | part :: rest => if is_one (lower (_layer part).1) _NET_TERMINALS then rest else accept_fields rest
  | [] => []
  end.
(** The entries that are options of a connection. *)
Definition option_entries (es : list (pystr * ynode * pystr)) : list (pystr * ynode * pystr) :=
  e ← es;
  let k := lower e.1.1 in
  if str_eqb k (str "options") then map_entries e.1.2
  else if is_one k ["accepter"; "connector"; "enable"]%string then [] else [e].
Definition is_remaddr (k : pystr) : Prop := lower (strip k) = str "remaddr".
(** A value of [remaddr] that counts for a connection: of a default, or of an option. *)
Definition given_yaml (y : Y) (es : list (pystr * ynode * pystr)) (v : pystr) : Prop :=
  (∃ d, d ∈ y_option_defaults y ∧ is_remaddr d.1 ∧ d.2 = v)
  ∨ ∃ e, e ∈ option_entries es ∧ is_remaddr e.1.1 ∧ (y_text say y e.1.2 e.1.1).1 = v.

Lemma option_is_remaddr k v c : is_remaddr k → _option say k v c = _remaddr say v c.
Proof. intros H. unfold _option. rewrite H. reflexivity. Qed.
Lemma option_wider G k v c : (is_remaddr k → G v) → wider G c (_option say k v c).
Proof.
  intros H. destruct (decide (lower (strip k) = str "remaddr")) as [E|E].
  - rewrite option_is_remaddr by done. by apply wider_remaddr, H.
  - by apply wider_same, option_access.
Qed.
Lemma ctext_access y node what c v d :
  ctext say y node what c = (v, d) → access_of d = access_of c ∧ v = (y_text say y node what).1.
Proof. unfold ctext. destruct (y_text _ _ _ _) as [t ns]. by intros [= <- <-]. Qed.
Lemma given_option_wider G y c e :
  (is_remaddr e.1.1 → G (y_text say y e.1.2 e.1.1).1) → wider G c (given_option say y c e).
Proof.
  intros H. unfold given_option. destruct (ctext _ _ _ _ _) as [v d] eqn:E. apply ctext_access in E as [E ->].
  eapply wider_trans; [by apply wider_same|]. by apply option_wider.
Qed.
Lemma given_option_reaches y c e : is_remaddr e.1.1 → access_given (given_option say y c e) = true.
Proof.
  intros H. unfold given_option. destruct (ctext _ _ _ _ _) as [v d]. rewrite option_is_remaddr by done. apply remaddr_given.
Qed.
(** Reading the body is reading its options, up to the messages. *)
Lemma body_entry_wider G y c e :
  (∀ o, o ∈ option_entries [e] → is_remaddr o.1.1 → G (y_text say y o.1.2 o.1.1).1) → wider G c (body_entry say y c e).
Proof.
  unfold option_entries, body_entry. cbn [mbind list_bind]. rewrite app_nil_r. intros H.
  destruct (str_eqb _ _).
  - destruct e as [[k [s|os|l]] a]; cbn [fst snd map_entries] in *; try (apply wider_same; first [apply note_if_access|done]).
    apply wider_foldl. intros x o Ho. apply given_option_wider. by apply H.
  - destruct (is_one _ _); [by apply wider_same|]. apply given_option_wider. apply H. by left.
Qed.
Lemma body_entry_reaches y c e o :
  o ∈ option_entries [e] → is_remaddr o.1.1 → access_given (body_entry say y c e) = true.
Proof.
  unfold option_entries, body_entry. cbn [mbind list_bind]. rewrite app_nil_r. intros H Hk.
  destruct (str_eqb _ _).
  - destruct e as [[k [s|os|l]] a]; cbn [fst snd map_entries] in *; try (by apply not_elem_of_nil in H).
    eapply (foldl_reaches (λ c, access_given c = true)); [exact H| |].
    + intros x. by apply given_option_reaches.
    + intros x b _. eapply w_access. by apply (given_option_wider (λ _, True)).
  - destruct (is_one _ _); [by apply not_elem_of_nil in H|]. apply list_elem_of_singleton in H as ->. by apply given_option_reaches.
Qed.
Lemma settings_access y es c :
  access_given c = false → cn_allowed (c_network c) = None →
  let d := y_settings say y es c in
  cn_bind_ip (c_network d) = cn_bind_ip (c_network c) ∧ hold d = hold c
  ∧ (c_enabled d = true → _bool (y_text say y (y_get "enable" "on" es) (str "enable")).1 = Some true)
  ∧ ((∃ v, given_yaml y es v) → access_given d = true) ∧ from_given (given_yaml y es) d.
Proof.
  intros Ha Hn. cbn zeta. unfold y_settings. set (G := given_yaml y es). set (c0 := set_enable _ _ _ _).
  assert (cn_bind_ip (c_network c0) = cn_bind_ip (c_network c) ∧ hold c0 = hold c ∧ cn_allowed (c_network c0) = None
    ∧ (c_enabled c0 = true → _bool (y_text say y (y_get "enable" "on" es) (str "enable")).1 = Some true)) as (H1 & H2 & H3 & H4).
  { unfold c0, set_enable. destruct (ctext _ _ _ _ _) as [v d] eqn:E. apply ctext_access in E as [(E1 & E2 & E3 & E4 & E5)%access_fields ->].
    set (t := (y_text _ _ _ _).1). destruct (_bool t) as [[]|] eqn:Eb; cbn; rewrite ?E1, ?E2, ?E4; by split_and!. }
  clearbody c0. set (c1 := foldl _ c0 _). set (c2 := foldl _ c1 es).
  assert (wider G c0 c1) as W1.
  { apply wider_foldl. intros x d Hd. apply option_wider. intros Hk. left. by exists d. }
  assert (∀ e o, e ∈ es → o ∈ option_entries [e] → o ∈ option_entries es) as Hsub.
  { unfold option_entries. intros e o He Ho. apply list_elem_of_bind. exists e. split; [|done]. cbn [mbind list_bind] in Ho. by rewrite app_nil_r in Ho. }
  assert (∀ x e, e ∈ es → wider G x (body_entry say y x e)) as Hbody.
  { intros x e He. apply body_entry_wider. intros o Ho Hk. right. exists o. split_and!; [by eapply Hsub|done..]. }
  assert (wider G c1 c2) as W2 by (by apply wider_foldl).
  destruct (wider_trans _ _ _ _ W1 W2) as [V1 V2 V3' V4 V5]. split_and!; [congruence..|by rewrite V3'| |].
  - intros (v & [(d & Hd & Hk & <-)|(o & Ho & Hk & <-)]).
    + eapply w_access; [exact W2|]. eapply (foldl_reaches (λ c, access_given c = true)); [exact Hd| |].
      * intros x. rewrite option_is_remaddr by done. apply remaddr_given.
      * intros x b _. eapply w_access. by apply (option_wider (λ _, True)).
    + unfold option_entries in Ho. apply list_elem_of_bind in Ho as (e & Ho & He).
      eapply (foldl_reaches (λ c, access_given c = true)); [exact He| |].
      * intros x. eapply body_entry_reaches; [|exact Hk]. unfold option_entries. cbn [mbind list_bind]. by rewrite app_nil_r.
      * intros x b Hb. eapply w_access. by apply Hbody.
  - apply V5. unfold from_given. rewrite H3. by intros h ?%not_elem_of_nil.
Qed.
Lemma accepter_access spec layers c d :
  accepter_layers say getservbyname spec layers c = (true, d) →
  (hold d = None → listens_as (listen_host (accept_fields layers)).1 (listen_host (accept_fields layers)).2 (cn_bind_ip (c_network d)))
  ∧ cn_allowed (c_network d) = cn_allowed (c_network c) ∧ access_given d = access_given c.
Proof.
  revert c. induction layers as [|part rest IH]; intros c; cbn [accepter_layers accept_fields]; [done|].
  destruct (_layer part) as [nm opts]. cbn [fst]. destruct (is_one (lower nm) _NET_TERMINALS).
  { set (c' := if str_eqb _ _ then _ else _). intros Hl. apply listen_address_access in Hl as (H & Ha & Hg).
    assert (cn_allowed (c_network c') = cn_allowed (c_network c) ∧ access_given c' = access_given c) as [E1 E2]
      by (unfold c'; by repeat case_match).
    split_and!; [intros Hd; by apply H|congruence|congruence]. }
  repeat (match goal with |- context [if ?b then _ else _] => destruct b end; [try done; intros H; apply IH in H; exact H|]).
  intros H; apply IH in H; exact H.
Qed.
Lemma serial_option_access tok c : access_of (_serial_option say tok c) = access_of c.
Proof.
  unfold _serial_option. destruct (_speed tok) as [s|]; [by unfold apply_speed; repeat case_match|].
  destruct (partition 61 tok) as [[nm eq] value]. cbn zeta. destruct (if starts_with _ _ then _ else _) as [low flag].
  assert (∀ b, access_of (apply_flag say tok low value b c) = access_of c) as Hf by (intros b; unfold apply_flag; by repeat case_match).
  destruct (negb _); [by destruct (is_one _ _)|]. destruct (_ && _); [|apply Hf].
  by destruct (_bool value).
Qed.
Lemma connector_access spec defaults layers c d :
  connector_layers say spec defaults layers c = (true, d) → access_of d = access_of c.
Proof.
  revert c. induction layers as [|part rest IH]; intros c; cbn [connector_layers]; [done|].
  destruct (_layer part) as [nm opts]. destruct (is_one (lower nm) _).
  { destruct (rest ≫= words is_space) as [|dev toks]; [done|]. intros [= <-].
    unfold serial_options. rewrite foldl_access; [by case_match|]. intros; apply serial_option_access. }
  destruct (_ || _); [done|]. intros H. by apply IH in H.
Qed.

(** C22: an imported and enabled connection of a 4.x file was enabled there and listens on the address its
    accepter names (a loopback address as the loopback, no host as the wildcard); when the file restricts its
    clients ([remaddr], by a default, an option or a stray option) it has a non-empty list of allowed clients,
    and every allowed client is a network that one of those names. *)
Theorem yaml_never_wider y name body c :
  y_conn say getservbyname word y name body = (true, c) → c_enabled c = true →
  ∃ es, body = YMap es ∧
  let fields := accept_fields (_split_gensio (strip (y_text say y (y_get "accepter" "" es) (str "accepter")).1)) in
  _bool (y_text say y (y_get "enable" "on" es) (str "enable")).1 = Some true
  ∧ listens_as (listen_host fields).1 (listen_host fields).2 (cn_bind_ip (c_network c))
  ∧ ((∃ v, given_yaml y es v) → ∃ h l, cn_allowed (c_network c) = Some (h :: l))
  ∧ ∀ h, h ∈ default [] (cn_allowed (c_network c)) → ∃ v, given_yaml y es v ∧ h ∈ remaddr_hosts v.
Proof.
  unfold y_conn. destruct body as [s|es|l]; [done| |done]. set (c0 := new_conn _ _ _).
  destruct (ctext say y (y_get "accepter" "" es) _ c0) as [acc c1] eqn:E1. apply ctext_access in E1 as [E1 ->].
  destruct (ctext say y (y_get "connector" "" es) _ c1) as [con c2] eqn:E2. apply ctext_access in E2 as [E2 _].
  destruct (_ || _); [done|]. set (spec := strip _). destruct (_accepter _ _ spec c2) as [[] c3] eqn:E3; [|done]. cbn [negb].
  set (c4 := if not_empty name then c3 else _).
  assert (access_of c4 = access_of c3) as E4 by (unfold c4; by case_match).
  destruct (_connector _ _ _ c4) as [[] c5] eqn:E5; [|done]. cbn [negb]. intros [= <-] He. exists es. split; [done|]. cbn zeta.
  apply finish_access in He as (Ha & Hh & He & Hg). apply access_fields in Ha as (-> & _ & _ & -> & _).
  unfold _connector in E5. apply connector_access in E5. rewrite E4 in E5. apply access_fields in E5 as (B1 & B2 & B3 & B4 & _).
  unfold _accepter in E3. apply accepter_access in E3 as (A1 & A2 & A3).
  rewrite E1 in E2. apply access_fields in E2 as (_ & _ & C3 & C4 & _).
  destruct (settings_access y es c5) as (S1 & S2 & S3 & S4 & S5); [by rewrite B3, A3, C3|by rewrite B4, A2, C4|].
  split_and!.
  - by apply S3.
  - rewrite S1, B1. apply A1. by rewrite <- B2, <- S2.
  - intros Hv. by apply Hg, S4.
  - exact S5.
Qed.
End yaml_never_wider.

(** ** The errors of an import *)
Section errors.
Context (say : string → list pystr → pystr) (getservbyname : pystr → option Z) (word : Z → bool)
  (repr : pyval → pystr) (isfile : pystr → bool).

(** The idle timeout of a connection, when it is given, is one that a configuration accepts; the group of
    advanced settings is the connection's own. *)
Definition extras (c : Conn) : list (pystr * pyval) * option pyval :=
  (c_options c, assoc (str "advanced") (cs_more (c_serial c))).
Definition timed (c : Conn) : Prop :=
  match assoc (str "idle_timeout_s") (extras c).1 with
  | Some (VInt z) => 0 <= z <= MAX_TIMER_S
  | Some _ => False
  | None => True
  end
  ∧ (extras c).2 = None.
Definition keeps_time (f : Conn → Conn) : Prop := ∀ c, timed c → timed (f c).
Lemma timed_same c d : extras d = extras c → timed c → timed d.
Proof. unfold timed. by intros ->. Qed.
Lemma timed_option_key k v c : k ≠ str "idle_timeout_s" → timed c → timed (option_key k v c).
Proof.
  intros Hk. unfold timed, option_key, extras. cbn [c_options set_options c_serial fst snd].
  intros [H1 H2]. split; [|exact H2]. cbn [extras fst] in *. rewrite assoc_dict_set.
  destruct (str_eqb _ k) eqn:E; [|done]. by apply str_eqb_eq in E as <-.
Qed.
Lemma timed_foldl {A} (f : Conn → A → Conn) l c : (∀ c a, a ∈ l → timed c → timed (f c a)) → timed c → timed (foldl f c l).
Proof.
  revert c. induction l as [|a l IH]; intros c H Hc; [done|]. cbn. apply IH; [|apply H; [left|done]]. intros; apply H; [by right|done].
Qed.
Lemma decimal_value_nonneg c d : decimal_value c = Some d → 0 <= d.
Proof.
  unfold decimal_value. destruct (find _ _) as [z|] eqn:E; [|done]. intros [= <-]. apply find_some in E as [_ E].
  unfold in_range in E. zbool. lia.
Qed.
Lemma int_of_digits_nonneg s n : int_of_digits s = Some n → 0 <= n.
Proof.
  unfold int_of_digits. destruct (_ <? _); [done|]. destruct (mapM decimal_value s) as [ds|] eqn:E; [|done]. intros [= <-].
  apply mapM_Some in E. unfold digits_value.
  assert (∀ acc, 0 <= acc → 0 <= fold_left (λ acc d, acc * 10 + d) ds acc) as H; [|by apply H].
  induction E as [|c d s ds Hd _ IH]; intros acc Ha; [done|]. cbn. apply IH. apply decimal_value_nonneg in Hd. lia.
Qed.
Lemma timed_with_int t f c : (∀ n, int_of_digits t = Some n → timed (f n c)) → timed c → timed (with_int t f c).
Proof. intros H Hc. unfold with_int. destruct (int_of_digits t); [by apply H|exact Hc]. Qed.
Lemma idle_timed v c : timed c → timed (_idle_timeout say v c).
Proof.
  intros Hc. unfold _idle_timeout. destruct (isdigit (strip v)) eqn:E; [|by destruct (not_empty _)].
  apply timed_with_int; [|done]. intros n Hn%int_of_digits_nonneg. cbn zeta. set (d := option_key _ _ c).
  assert (timed d) as Hd; [|by destruct (_ <? n)].
  destruct Hc as [_ Hc]. split; [|exact Hc]. unfold d, extras, option_key. cbn [c_options set_options fst].
  rewrite assoc_dict_set, str_eqb_refl. unfold MAX_TIMER_S. lia.
Qed.
Lemma flag_options k v c b d : _flag say k v c = (b, d) → extras d = extras c.
Proof. unfold _flag. destruct (_bool v); by intros [= <- <-]. Qed.
Lemma note_if_options b m c : extras (note_if b m c) = extras c.
Proof. by destruct b. Qed.
Lemma serial_key_extras k v c : k ≠ str "advanced" → extras (serial_key k v c) = extras c.
Proof.
  intros Hk. unfold extras, serial_key. cbn [c_options set_serial c_serial cs_more]. rewrite assoc_dict_set.
  destruct (str_eqb _ k) eqn:E; [|done]. by apply str_eqb_eq in E as <-.
Qed.
Lemma remaddr_options v c : extras (_remaddr say v c) = extras c.
Proof.
  unfold _remaddr. cbn zeta. set (d := on_net _ _). change (extras c) with (extras d). clearbody d. set (ws := words _ _). clearbody ws.
  revert d. induction ws as [|w ws IH]; intros d; [done|]. cbn. rewrite IH. unfold remaddr_entry.
  repeat (case_match; try done). cbn zeta. change (extras (on_net ?f ?x)) with (extras x). by rewrite ?note_if_options.
Qed.
Lemma option_timed k v c : timed c → timed (_option say k v c).
Proof.
  intros Hc. unfold _option. case_match; [by apply idle_timed|]. cbn zeta. unfold with_int.
  repeat (case_match; simplify_eq; try exact Hc);
    repeat match goal with H : _flag _ _ _ _ = _ |- _ => apply flag_options in H; try exact (timed_same _ _ H Hc) end.
  eapply timed_same; [apply remaddr_options|done].
Qed.
Lemma convert_options t k w c s d : _convert say t k w c = (s, d) → extras d = extras c.
Proof. unfold _convert. intros [= _ <-]. by repeat case_match. Qed.
Lemma finish_timed c : timed c → timed (_finish say word c).
Proof.
  intros Hc. unfold _finish.
  assert (timed (finish_protocol say (finish_flow say c))) as H1.
  { eapply timed_same; [|exact Hc]. transitivity (extras (finish_flow say c)).
    - unfold finish_protocol. by repeat case_match.
    - unfold finish_flow. by rewrite serial_key_extras, note_if_options. }
  set (c1 := finish_protocol _ _) in *. clearbody c1.
  assert (timed (foldl (finish_string say) c1 ["banner"; "openstr"; "closestr"; "closeon"]%string)) as H2.
  { apply timed_foldl; [|done]. intros x k Hk Hx. unfold finish_string. destruct (assoc _ _); [|done].
    destruct (_convert _ _ _ _ _) as [t e] eqn:E. apply convert_options in E.
    apply timed_option_key; [|by eapply timed_same].
    intros Heq. apply str_inj in Heq as ->. set_solver. }
  set (c2 := foldl _ c1 _) in *. clearbody c2.
  assert (timed (finish_trace say word c2)) as H3.
  { unfold finish_trace. destruct (find _ _) as [kind|]; [|done]. destruct (_convert _ _ _ _ _) as [path d] eqn:E.
    apply convert_options in E. assert (timed d) as Hd by (by eapply timed_same).
    apply timed_foldl.
    { intros x m Hm Hx. assert (str "trace_" ++ str m ≠ str "idle_timeout_s") by done.
      repeat case_match; try done; by apply timed_option_key. }
    apply timed_foldl; [intros x k _ Hx; by destruct (negb _)|]. destruct (not_empty _); [|done].
    assert (timed (option_key (str "trace_both") (VStr path) d)) as Hp by (by apply timed_option_key).
    eapply timed_same; [|exact Hp]. by rewrite !note_if_options. }
  set (c3 := finish_trace _ _ _) in *. clearbody c3.
  assert (timed (finish_hold say c3)) as H4.
  { eapply timed_same; [|exact H3]. unfold finish_hold. by repeat case_match. }
  eapply timed_same; [|exact H4]. unfold finish_dropped. by case_match.
Qed.

Lemma bind_ip_options c host family b d : _bind_ip say c host family = (b, d) → extras d = extras c.
Proof. unfold _bind_ip. cbn zeta. destruct (strip_by _ host); repeat case_match; by intros [= <- <-]. Qed.
Lemma listen_options fields c b d : _listen_address say getservbyname fields c = (b, d) → extras d = extras c.
Proof.
  unfold _listen_address. destruct (families _ _) as [family fs]. destruct fs as [|f0 fs]; [by intros [= <- <-]|].
  destruct (match fs with [] => _ | _ => _ end) as [host port_s]. set (c' := match fs with [] => c | _ => _ end).
  assert (extras c' = extras c) as Hc by (unfold c'; by destruct fs as [|? [|??]]).
  destruct (_port_number _ _) as [[]|]; [|by intros [= <- <-]..]. destruct (_bind_ip _ _ _ _) as [ip e] eqn:E.
  apply bind_ip_options in E. intros [= <- <-]. change (extras (on_net ?f ?x)) with (extras x). by rewrite E.
Qed.
Lemma accepter_options spec layers c b d : accepter_layers say getservbyname spec layers c = (b, d) → extras d = extras c.
Proof.
  revert c. induction layers as [|part rest IH]; intros c; cbn [accepter_layers]; [by intros [= <- <-]|].
  destruct (_layer part) as [nm opts]. destruct (is_one (lower nm) _NET_TERMINALS).
  { intros H. apply listen_options in H. rewrite H. by repeat case_match. }
  repeat (match goal with |- context [if ?b then _ else _] => destruct b end;
          [first [by intros [= <- <-]|intros H; apply IH in H; exact H]|]).
  intros H; apply IH in H; exact H.
Qed.
Lemma serial_option_options tok c : extras (_serial_option say tok c) = extras c.
Proof.
  unfold _serial_option. destruct (_speed tok) as [s|]; [by unfold apply_speed; repeat case_match|].
  destruct (partition 61 tok) as [[nm eq] value]. cbn zeta. destruct (if starts_with _ _ then _ else _) as [low flag].
  assert (∀ b, extras (apply_flag say tok low value b c) = extras c) as Hf.
  { intros b. unfold apply_flag. repeat case_match; try done; apply serial_key_extras;
      intros Heq%(f_equal (@rev Z)); by rewrite rev_app_distr in Heq. }
  destruct (negb _); [by destruct (is_one _ _)|]. destruct (_ && _); [|apply Hf]. by destruct (_bool value).
Qed.
Lemma connector_options spec defaults layers c b d :
  connector_layers say spec defaults layers c = (b, d) → extras d = extras c.
Proof.
  revert c. induction layers as [|part rest IH]; intros c; cbn [connector_layers]; [by intros [= <- <-]|].
  destruct (_layer part) as [nm opts]. destruct (is_one (lower nm) _).
  { destruct (rest ≫= words is_space) as [|dev toks]; [by intros [= <- <-]|]. intros [= <- <-]. unfold serial_options.
    set (c' := if str_eqb _ _ then _ else _). change (extras c) with (extras (set_device (_windows_device dev) c)).
    assert (extras c' = extras (set_device (_windows_device dev) c)) as <- by (unfold c'; by case_match). clearbody c'.
    set (ts := defaults ++ opts ++ toks). clearbody ts. revert c'. induction ts as [|t ts IHt]; intros c'; [done|]. cbn. by rewrite IHt, serial_option_options. }
  destruct (_ || _); [by intros [= <- <-]|]. intros H. by apply IH in H.
Qed.
Lemma ctext_options y node what c v d : ctext say y node what c = (v, d) → extras d = extras c.
Proof. unfold ctext. destruct (y_text _ _ _ _) as [t ns]. by intros [= <- <-]. Qed.
Lemma given_option_timed y c e : timed c → timed (given_option say y c e).
Proof.
  intros Hc. unfold given_option. destruct (ctext _ _ _ _ _) as [v d] eqn:E. apply ctext_options in E.
  apply option_timed. by eapply timed_same.
Qed.
Lemma yaml_settings_timed y es c : timed c → timed (y_settings say y es c).
Proof.
  intros Hc. unfold y_settings. apply timed_foldl.
  { intros x e _ Hx. unfold body_entry. destruct (str_eqb _ _); [|destruct (is_one _ _); [done|by apply given_option_timed]].
    destruct e.1.2; [by destruct (not_empty _)| |done]. apply timed_foldl; [|done]. intros; by apply given_option_timed. }
  apply timed_foldl; [intros; by apply option_timed|]. unfold set_enable. destruct (ctext _ _ _ _ _) as [v d] eqn:E.
  apply ctext_options in E. eapply (timed_same d); [|by eapply timed_same]. by repeat case_match.
Qed.
Lemma timed_new n l b : timed (new_conn n l b).
Proof. done. Qed.
Lemma y_conn_timed y name body : timed (y_conn say getservbyname word y name body).2.
Proof.
  unfold y_conn. destruct body as [s|es|l]; [done| |done]. set (c0 := new_conn _ _ _).
  destruct (ctext _ _ _ _ c0) as [acc c1] eqn:E1. destruct (ctext _ _ _ _ c1) as [con c2] eqn:E2.
  apply ctext_options in E1, E2. assert (timed c2) as H2 by by (unfold timed; by rewrite E2, E1).
  destruct (_ || _); [by apply (timed_same c2)|]. unfold _accepter. destruct (accepter_layers _ _ _ _ c2) as [[] c3] eqn:E3; cbn [negb].
  2: { apply accepter_options in E3. by eapply timed_same. }
  apply accepter_options in E3. set (c4 := if not_empty name then _ else _).
  assert (timed c4) as H4 by (eapply (timed_same c3); [unfold c4; by case_match|by eapply timed_same]).
  unfold _connector. destruct (connector_layers _ _ _ _ c4) as [[] c5] eqn:E5; cbn [negb snd]; apply connector_options in E5.
  - apply finish_timed, yaml_settings_timed. by eapply timed_same.
  - by eapply timed_same.
Qed.
Lemma v3_serial_options tok c d : v3_serial say tok c = Some d → extras d = extras c.
Proof.
  unfold v3_serial. destruct (undash tok) as [base on]. case_match; [intros [= <-]; unfold with_int; by case_match|].
  repeat case_match; try done; by intros [= <-].
Qed.
Lemma v3_option_timed p tok c d : v3_option say p tok c = Some d → timed c → timed d.
Proof.
  unfold v3_option. destruct (partition 61 tok) as [[name eq] value]. destruct (undash name) as [base on].
  repeat case_match; try done; intros [= <-] Hc; try exact Hc; try by apply option_timed.
  eapply timed_same; [apply remaddr_options|done].
Qed.
Lemma v3_conn_timed p n before state after : timed (v3_conn say getservbyname word p n before state after).2.
Proof.
  unfold v3_conn. destruct (partition 58 after) as [[timeout s1] rest]. destruct (partition 58 rest) as [[device0 s2] options].
  set (c0 := new_conn _ _ _). assert (extras (v3_fields before c0).2 = ([], None)) as Hf by (unfold v3_fields; cbn; by case_match).
  destruct (v3_fields before c0) as [fields c1]. cbn [snd] in Hf.
  destruct (_listen_address _ _ fields c1) as [[] c2] eqn:El; apply listen_options in El; cbn [negb].
  2: { cbn [snd]. unfold timed. by rewrite El, Hf. }
  set (c3 := set_label _ _). assert (timed c3) as H3 by (apply (timed_same c2); [done|]; unfold timed; by rewrite El, Hf).
  destruct (is_nil _); [done|]. destruct (_ || _); [done|]. cbn [snd]. apply finish_timed. unfold v3_settings. cbn zeta.
  set (c4 := _idle_timeout _ _ _). assert (timed c4) as H4.
  { apply idle_timed. eapply timed_same; [apply note_if_options|]. exact H3. }
  clearbody c4. set (c5 := foldl _ (foldl _ c4 _) _). assert (timed c5) as H5; [|by repeat case_match].
  apply timed_foldl.
  - intros x tok _ Hx. unfold v3_token. destruct (v3_serial _ tok x) eqn:E1; [by eapply timed_same; [eapply v3_serial_options|]|].
    destruct (v3_option _ _ tok x) eqn:E2; [by eapply v3_option_timed|].
    destruct (assoc tok _) as [[kind value]|]; [by repeat case_match|].
    destruct (v3_serial _ (upper tok) x) eqn:E3; [by eapply timed_same; [eapply v3_serial_options|]|done].
  - apply timed_foldl; [|done]. intros x [name value] _ Hx. unfold v3_default, with_int. cbn zeta.
    repeat case_match; try exact Hx; try by apply option_timed.
    all: eapply timed_same; [apply remaddr_options|done].
Qed.

(** What checking a mapping raises is an error the import reports. *)
Definition config_error {A} (m : res A) : Prop := match m with Ok _ => True | Raise e => exn_cls e = ConfigError end.
Lemma config_bind {A B} (m : res A) (f : A → res B) :
  config_error m → (∀ a, m = Ok a → config_error (f a)) → config_error (m ≫= f).
Proof. destruct m as [a|e]; cbn; [intros _ H; by apply H|done]. Qed.
Lemma config_raise_if b msg : config_error (raise_if b ConfigError msg).
Proof. by destruct b. Qed.
Lemma serial_errors s : config_error (serial_validate s).
Proof. unfold serial_validate. repeat (apply config_bind; [apply config_raise_if|intros ? _]). apply config_raise_if. Qed.
Lemma cidrs_errors l : config_error (validate_cidrs (VList (VStr <$> l))).
Proof.
  unfold validate_cidrs. apply config_bind; [|done]. induction l as [|x l IH]; cbn [fmap list_fmap mapr]; [done|].
  apply config_bind; [by destruct (ip_network _)|]. intros ? _. by apply config_bind.
Qed.
Lemma mapr_errors {A B} (f : A → res B) l : (∀ a, config_error (f a)) → config_error (mapr f l).
Proof. intros H. induction l as [|a l IH]; [done|]. cbn [mapr]. apply config_bind; [done|]. intros ? _. by apply config_bind. Qed.
Lemma network_errors n l :
  is_str (remote_host n) = true → allowed_client_ips n = VList (VStr <$> l) → priority_client_ips n = VList [] →
  truthy (tls n) = false → config_error (network_validate isfile n).
Proof.
  intros Hr Ha Hp Ht. unfold network_validate. rewrite Ha, Hp, Ht.
  do 2 (apply config_bind; [apply config_raise_if|intros ? _]). apply config_bind.
  { destruct (listens n).
    - destruct (address_of _); [|done]. apply config_bind; [apply config_raise_if|]. intros ? _. apply config_raise_if.
    - destruct (remote_host n); try done. cbn [strip_of mbind res_bind].
      apply config_bind; [apply config_raise_if|]. intros ? _. apply config_raise_if. }
  intros ? _. do 2 (apply config_bind; [apply config_raise_if|intros ? _]).
  apply config_bind; [apply mapr_errors; intros [value high]; apply config_raise_if|]. intros ? _. cbn zeta.
  do 4 (apply config_bind; [apply config_raise_if|intros ? _]). cbn [mbind res_bind].
  apply config_bind; [apply cidrs_errors|]. intros ? _. apply (cidrs_errors []).
Qed.
Lemma options_errors o : config_error (options_validate o).
Proof.
  unfold options_validate. apply config_bind; [apply mapr_errors; intros; apply config_raise_if|]. intros ? _.
  apply config_bind; [apply config_raise_if|]. intros ? _. apply config_raise_if.
Qed.
Lemma assoc_app {A} k (l l' : list (pystr * A)) : assoc k (l ++ l') = match assoc k l with Some a => Some a | None => assoc k l' end.
Proof. induction l as [|[x a] l IH]; cbn; [done|]. by destruct (str_eqb k x). Qed.
Lemma conn_loads c : timed c → ∃ m, mapping_from_dict word repr (str "id") (conn_to_dict c) = Ok m
  ∧ is_str (name m) = true ∧ is_str (remote_host (network m)) = true
  ∧ allowed_client_ips (network m) = VList (VStr <$> default [] (cn_allowed (c_network c)))
  ∧ priority_client_ips (network m) = VList [] ∧ truthy (tls (network m)) = false
  ∧ kind m = vstr "net" ∧ mqtt_validate (mqtt m) = Ok () ∧ poll_validate (modbus_poll m) = Ok ()
  ∧ poll_points (modbus_poll m) = [] ∧ truthy (mq_enabled (mqtt m)) = false.
Proof.
  intros [Ht Hadv]. rewrite conn_mapping. unfold extras in *. cbn [fst snd] in *.
  assert (∃ s, SerialSettings_from_dict (serial_dict c) = Ok s) as [s ->].
  { unfold SerialSettings_from_dict, serial_dict. cbn [as_dict mbind res_bind]. set (d := _ ++ cs_more _ ++ _).
    assert (get d "advanced" (VDict []) = VDict (c_advanced c)) as ->.
    { unfold get, d. rewrite !assoc_app, Hadv. by destruct (c_advanced c). }
    clearbody d. destruct (c_advanced c); by eexists. }
  assert (∃ o, options_from_dict word repr (VDict (c_options c)) = Ok o) as [o ->].
  { unfold options_from_dict. cbn [as_dict mbind res_bind].
    assert (∃ z, get (c_options c) "idle_timeout_s" (VInt 0) = VInt z ∧ 0 <= z <= MAX_TIMER_S) as (z & -> & Hz).
    { unfold get. destruct (assoc (str "idle_timeout_s") (c_options c)) as [[]|]; try done; [by eexists|].
      exists 0. by split. }
    cbn [_legacy_seconds mbind res_bind]. change (_is_number (VInt z)) with true. cbn [negb finite_number].
    rewrite isfinite_small by done. cbn [mbind res_bind negb orb negative]. destruct (Z.ltb_spec z 0); [lia|]. by eexists. }
  assert (∃ n, NetworkSettings_from_dict (network_dict (c_network c)) = Ok n ∧ is_str (remote_host n) = true
    ∧ allowed_client_ips n = VList (VStr <$> default [] (cn_allowed (c_network c))) ∧ priority_client_ips n = VList []
    ∧ truthy (tls n) = false) as (n & -> & Hn).
  { unfold NetworkSettings_from_dict, network_dict. destruct (c_network c) as [mo pr bi po [] [] [] []]; eexists; by split. }
  eexists. cbn [mbind res_bind]. split; [reflexivity|]. cbn [name network kind mqtt modbus_poll]. destruct Hn as (H1 & H2 & H3 & H4).
  by split_and!.
Qed.
Lemma conn_errors c : timed c → config_error (conn_valid word repr isfile c).
Proof.
  intros (m & Hm & H1 & H2 & H3 & H4 & H5 & H6 & H7 & H8 & H9 & H10)%conn_loads. unfold conn_valid. rewrite Hm. cbn [mbind res_bind].
  unfold mapping_validate. rewrite H6, H7, H8, H9, H10. destruct (name m); try done. cbn [strip_of mbind res_bind].
  do 2 (apply config_bind; [apply config_raise_if|intros ? _]). apply config_bind; [apply serial_errors|]. intros ? _.
  change (eq_str (vstr "net") (str "serialbridge")) with false. cbn iota.
  apply config_bind; [by eapply network_errors|]. intros ? _. apply config_bind; [apply options_errors|]. intros ? _. done.
Qed.
Lemma keep_errors kept ws conns : Forall timed conns → ∃ r, keep_conns say word repr isfile kept ws conns = Ok r.
Proof.
  intros H. revert kept ws. induction H as [|c conns Hc _ IH]; intros kept ws; cbn [keep_conns]; [by eexists|].
  pose proof (conn_errors c Hc) as He. destruct (conn_valid _ _ _ c) as [[]|e].
  - destruct (find _ kept); apply IH.
  - unfold type_or_value. cbn in He. rewrite He. apply IH.
Qed.
Lemma assemble_ok conns ws : Forall timed conns → ∃ r, _assemble say word repr isfile conns ws = Ok r.
Proof.
  intros H. unfold _assemble. destruct (keep_errors [] ws conns H) as [[kept w] ->]. cbn [mbind res_bind].
  destruct (settle_spec say word isfile [] [] w kept) as (cs & w' & -> & _). by eexists.
Qed.
Lemma unless_broken_inv {A} b (a x : A) : unless_broken b a = Ok x → x = a.
Proof. unfold unless_broken. by destruct b; [|intros [= ->]]. Qed.
Lemma unless_broken_error {A} b (a : A) : match unless_broken b a with Ok _ => True | Raise e => exn_cls e = ValueError end.
Proof. by destruct b. Qed.
Lemma from_v3_timed lines : Forall timed (v_conns (foldl (v3_line say getservbyname word) new_v3 lines)).
Proof.
  assert (Forall timed (v_conns new_v3)) as H by done. revert H. generalize new_v3.
  induction lines as [|[n line] lines IH]; intros p Hp; [done|]. cbn [foldl]. apply IH. unfold v3_line.
  destruct (directive_at line) as [[kind rest]|].
  - unfold directive. destruct (partition 58 rest) as [[? ?] ?]. by repeat case_match.
  - destruct (find_state [] line) as [[[before state] after]|]; [|done]. unfold v3_port.
    pose proof (v3_conn_timed p n before state after) as Hc. destruct (v3_conn _ _ _ _ _ _ _ _) as [[] c]; [|done].
    cbn [v_conns snd] in *. apply Forall_app. by split; [|apply Forall_singleton].
Qed.
Lemma gtext_conns y node what v y' : gtext say y node what = (v, y') → y_conns y' = y_conns y.
Proof. unfold gtext. destruct (y_text _ _ _ _). by intros [= _ <-]. Qed.
Lemma y_foldl {A} (f : Y → A → Y) l y : (∀ y a, Forall timed (y_conns y) → Forall timed (y_conns (f y a))) →
  Forall timed (y_conns y) → Forall timed (y_conns (foldl f y l)).
Proof. intros H. revert y. induction l as [|a l IH]; intros y Hy; [done|]. cbn. auto. Qed.
Lemma connection_timed name body y : Forall timed (y_conns y) → Forall timed (y_conns (y_connection say getservbyname word name body y)).
Proof.
  intros H. unfold y_connection. set (y' := if not_empty name then _ else _).
  assert (y_conns y' = y_conns y) as E by (unfold y'; by case_match).
  pose proof (y_conn_timed y' name body) as Hc. destruct (y_conn _ _ _ y' name body) as [[] c]; cbn [y_conns snd] in *; rewrite E; [|done].
  apply Forall_app. by split; [|apply Forall_singleton].
Qed.
Lemma define_timed y e : Forall timed (y_conns y) → Forall timed (y_conns (y_define say y e)).
Proof. intros H. unfold y_define. destruct (gtext _ _ _ _) as [v y'] eqn:E. apply gtext_conns in E. cbn. by rewrite E. Qed.
Lemma default_conns n v cls y : y_conns (y_default say n v cls y) = y_conns y.
Proof. unfold y_default. by repeat case_match. Qed.
Lemma gtext_timed y node what (k : pystr → Y → Y) :
  (∀ v y', Forall timed (y_conns y') → Forall timed (y_conns (k v y'))) → Forall timed (y_conns y) →
  Forall timed (y_conns (let '(v, y') := gtext say y node what in k v y')).
Proof. intros Hk H. destruct (gtext _ _ _ _) as [v y'] eqn:E. apply gtext_conns in E. apply Hk. by rewrite E. Qed.
Lemma set_default_timed n v cls y : Forall timed (y_conns y) → Forall timed (y_conns (y_default say n v cls y)).
Proof. by rewrite default_conns. Qed.
Lemma entry_timed y e : Forall timed (y_conns y) → Forall timed (y_conns (y_entry say getservbyname word y e)).
Proof.
  intros H. destruct e as [[ky value] anchor]. unfold y_entry. cbn zeta.
  destruct (str_eqb _ _); [destruct (not_empty _); [by apply define_timed|done]|].
  destruct (str_eqb _ _); [by apply connection_timed|]. destruct (_ || _); [done|]. destruct (_ || _); [done|].
  destruct (str_eqb _ _); [by apply gtext_timed|]. destruct value as [s|es|l]; [by destruct (is_one _ _)| |by destruct (is_one _ _)].
  destruct (str_eqb _ _); [apply y_foldl; [intros; by apply define_timed|done]|].
  destruct (str_eqb _ _); [apply y_foldl; [intros; by apply connection_timed|done]|].
  destruct (str_eqb _ _).
  { apply gtext_timed; [|done]. intros n y1 H1. apply gtext_timed; [|done]. intros v y2 H2. apply gtext_timed; [|done].
    intros cls y3 H3. by apply set_default_timed. }
  destruct (str_eqb _ _).
  { apply y_foldl; [|done]. intros y1 [[n [s|b|l]] a] H1; cbn [fst snd]; try done.
    apply gtext_timed; [|done]. intros v y2 H2. apply gtext_timed; [|done]. intros cls y3 H3. by apply set_default_timed. }
  destruct (str_eqb _ _); [by apply gtext_timed|]. destruct (str_eqb _ _); [by apply y_foldl|]. by destruct (_ || _).
Qed.

Context (show : ynode → pystr).
(** Only an escape of a YAML text raises an OverflowError. *)
Definition import_error (yaml : bool) (e : exn) : Prop :=
  exn_cls e = ConfigError ∨ exn_cls e = ValueError ∨ (yaml = true ∧ exn_cls e = OverflowError).
Lemma from_yaml_errors text :
  match _from_yaml say getservbyname word show text with
  | Ok (conns, _) => Forall timed conns
  | Raise e => import_error true e
  end.
Proof.
  unfold _from_yaml. pose proof (reader_ok show text) as Hr. destruct (read_documents show text) as [docs|e].
  2: { destruct Hr as [?|[?|?]]; [by left|by right; left|by right; right]. }
  cbn [mbind res_bind]. destruct (negb (existsb _ _ || existsb _ _)); cbn [raise_if raise mbind res_bind]; [by left|].
  set (y := if _ && _ then _ else _). assert (Forall timed (y_conns y)) as Hy by (unfold y; by repeat case_match).
  clearbody y. set (y' := foldl _ y _). assert (Forall timed (y_conns y')) as Hy' by (apply y_foldl; [intros; by apply entry_timed|done]).
  clearbody y'. unfold unless_broken. destruct (y_broken y'); [by right; left|done].
Qed.

(** The errors of an import: besides the [ConfigError]s it means to raise, a [ValueError] of a number
    or a service name that cannot be read ([int_of_digits], [_port_number]), and in a YAML text what [chr] makes of an
    escape that is no code point. Checking the connections raises nothing, whatever the file says. *)
Theorem classic_import_errors text :
  match parse_ser2net_config say getservbyname word show repr isfile text with
  | Ok _ => True
  | Raise e => import_error (looks_yaml (normal_text text)) e
  end.
Proof.
  unfold parse_ser2net_config, parse_connections. set (t := normal_text text).
  assert (∀ conns ws, Forall timed conns → match (_assemble say word repr isfile conns ws ≫= (λ '(ds, ws),
      Ok (ds, if is_nil ds then ws ++ [say (if is_nil conns then "The file has no ser2net connections to import."
                        else "No connection could be imported.") []] else ws))) with Ok _ => True | Raise e => import_error (looks_yaml t) e end) as Hok.
  { intros conns ws Hc. by destruct (assemble_ok conns ws Hc) as [[ds w] ->]. }
  destruct (is_nil (strip t)); cbn [raise_if raise mbind res_bind]; [by left|]. destruct (looks_yaml t).
  - pose proof (from_yaml_errors t) as H. destruct (_from_yaml _ _ _ _ t) as [[conns ws]|e]; [by apply Hok|done].
  - destruct (negb _); cbn [raise_if raise mbind res_bind]; [by left|]. pose proof (from_v3_timed (_v3_lines t)) as H.
    unfold _from_v3, unless_broken. destruct (v_broken _); [by right; left|]. by apply Hok.
Qed.
End errors.

(** ** The import of a file *)
Section import.
Context (say : string → list pystr → pystr) (getservbyname : pystr → option Z) (word : Z → bool)
  (show : ynode → pystr) (repr : pyval → pystr) (isfile : pystr → bool).

(** [_classic_ser2net] of app/importer.py, up to the error for an empty result. *)
Definition _classic_ser2net (text : pystr) : res (list pyval * list pystr * string) :=
  '(ds, ws) ← parse_ser2net_config say getservbyname word show repr isfile text;
  Ok (ds, ws, if looks_yaml text then "ser2net.yaml (ser2net 4.x)"%string else "ser2net.conf (ser2net 3.x)"%string).

(** C21: when a file that is not JSON is imported, the mappings of the plan are not empty, form together a
    configuration that validates (none conflicts with another over a serial device or a listening address)
    and have distinct names: the import can be applied as a whole, whatever the file says. *)
Theorem classic_import_applies fresh raw text plan :
  decode_utf8_sig raw = Some text →
  starts_with (lstrip text) (str "{") || starts_with (lstrip text) (str "[") = false →
  parse_mappings_file word repr _classic_ser2net fresh raw = Ok plan →
  plan_mappings plan ≠ [] ∧ validate_mappings isfile (plan_mappings plan) [] [] = Ok tt
  ∧ NoDup (name <$> plan_mappings plan).
Proof.
  unfold parse_mappings_file. intros -> -> H. cbn [negb] in H. apply res_bind_Ok in H as ([[ds ws] src] & Hc & H).
  cbn beta iota in H. destruct ds as [|d ds]; [done|]. apply res_bind_Ok in H as (ms & Hms & [= <-]). cbn [plan_mappings].
  apply res_bind_Ok in Hc as ([ds' ws'] & Hp & [= -> <- <-]).
  apply res_bind_Ok in Hp as ([conns w1] & _ & Hp). cbn beta iota in Hp.
  apply res_bind_Ok in Hp as ([ds2 w2] & Ha & [= -> _]).
  destruct (assemble_applies say word repr isfile fresh _ _ _ _ Ha) as (ms' & Hms' & Hv & Hn).
  rewrite Hms in Hms'. injection Hms' as <-. split_and!; [|done..]. intros ->. cbn [mappings_from] in Hms.
  destruct (mapping_from_dict _ _ _ d); [|done]. cbn [mbind res_bind] in Hms. by destruct (mappings_from _ _ _ _ ds).
Qed.
End import.

Definition demo_file : bytes :=
  str "BANNER:b:hello \p
3000:telnet:600:/dev/ttyS0:9600 b remctl
3001:raw:0:/dev/ttyS0:115200
localhost,3000:raw:0:/dev/ttyS1:".
Definition demo_plan : ImportPlan :=
  match parse_mappings_file ascii_word (λ _, []) (_classic_ser2net plain_say (λ _, None) ascii_word (λ _, []) (λ _, []) (λ _, false))
          demo_fresh demo_file with Ok p => p | Raise _ => mkPlan EmptyString [] [] end.
(** Two are imported, the second disabled; the third listens where the first does. *)
Example demo_plan_mappings :
  map (λ m, (name m, enabled m)) (plan_mappings demo_plan) = [(vstr "ser2net-3000", true); (vstr "ser2net-3001", false)].
Proof. vm_compute. reflexivity. Qed.
Lemma classic_import_applies_witness :
  plan_mappings demo_plan ≠ [] ∧ validate_mappings (λ _, false) (plan_mappings demo_plan) [] [] = Ok tt
  ∧ NoDup (name <$> plan_mappings demo_plan).
Proof.
  apply (classic_import_applies plain_say (λ _, None) ascii_word (λ _, []) (λ _, []) (λ _, false) demo_fresh demo_file demo_file);
    vm_compute; reflexivity.
Defined.

Definition demo_body : list (pystr * ynode * pystr) :=
  [(str "accepter", txt "telnet,tcp,127.0.0.1,2000", []); (str "connector", txt "serialdev,/dev/ttyS0,9600n81", []);
   (str "options", YMap [(str "remaddr", txt "10.0.0.0/8", [])], [])].
Definition demo_yconn : Conn := (y_conn plain_say (λ _, None) ascii_word (new_y "*") (str "con0") (YMap demo_body)).2.
Lemma yaml_never_wider_witness :
  ∃ es, YMap demo_body = YMap es ∧
  let fields := accept_fields (_split_gensio (strip (y_text plain_say (new_y "*") (y_get "accepter" "" es) (str "accepter")).1)) in
  _bool (y_text plain_say (new_y "*") (y_get "enable" "on" es) (str "enable")).1 = Some true
  ∧ listens_as (listen_host fields).1 (listen_host fields).2 (cn_bind_ip (c_network demo_yconn))
  ∧ ((∃ v, given_yaml plain_say (new_y "*") es v) → ∃ h l, cn_allowed (c_network demo_yconn) = Some (h :: l))
  ∧ ∀ h, h ∈ default [] (cn_allowed (c_network demo_yconn)) → ∃ v, given_yaml plain_say (new_y "*") es v ∧ h ∈ remaddr_hosts v.
Proof.
  apply (yaml_never_wider plain_say (λ _, None) ascii_word (new_y "*") (str "con0") (YMap demo_body)); vm_compute; reflexivity.
Defined.

(** A number of another script is read; a superscript, a number of more than 4300 digits or a service name with a NUL ends the
    import in a ValueError, which the page that takes the upload does not catch. *)
Definition import_text (text : pystr) : res (list pyval * list pystr) :=
  parse_ser2net_config plain_say (λ _, None) ascii_word (λ _, []) (λ _, []) (λ _, false) text.
Definition timeout_line (t : pystr) : pystr := str "3000:raw:" ++ t ++ str ":/dev/ttyS0:9600".
Definition raises_value_error {A} (m : res A) : bool := match m with Raise e => bool_decide (exn_cls e = ValueError) | Ok _ => false end.
Example import_number_unread :
  is_ok (import_text (timeout_line [1634; 1632])) = true
  ∧ raises_value_error (import_text (timeout_line [178])) = true
  ∧ raises_value_error (import_text (timeout_line (repeat 48 4301))) = true
  ∧ raises_value_error (import_text (str "a" ++ 0 :: str ":raw:0:/dev/ttyS0:9600")) = true.
Proof. vm_compute. done. Qed.
