(* ===== verification/Store.v ===== *)
(** * The configuration on disk (app/config.py, AppConfig.to_dict and ConfigStore)

    The whole configuration as a document and back, and the store: config.json with its backups. *)
From Stdlib Require Import SpecFloat.
From S2P Require Import Prelude PyFloat PyStr PyVal IpAddr PyNum Json JsonOut Config AppConfig.
#[local] Open Scope Z_scope.

(** ** The configuration as a document *)
Definition admin_to_dict (a : AdminUI) : pyval :=
  VDict [key "bind_ip" (ui_bind_ip a); key "port" (ui_port a); key "tls_cert" (ui_tls_cert a);
         key "tls_key" (ui_tls_key a); key "require_login" (require_login a);
         key "anonymous_role" (anonymous_role a); key "language" (language a)].
Definition user_to_dict (u : User) : pyval :=
  VDict [key "username" (username u); key "password_hash" (password_hash u); key "role" (role u);
         key "pwd_version" (pwd_version u); key "source" (source u)].
Definition ldap_to_dict (l : LdapSettings) : pyval :=
  VDict [key "enabled" (ld_enabled l); key "server_uri" (server_uri l); key "start_tls" (start_tls l);
         key "user_dn_template" (user_dn_template l); key "bind_dn" (bind_dn l);
         key "bind_password" (bind_password l); key "user_search_base" (user_search_base l);
         key "user_search_filter" (user_search_filter l); key "group_attr" (group_attr l);
         key "admin_group" (ld_admin_group l); key "operator_group" (ld_operator_group l);
         key "viewer_group" (ld_viewer_group l); key "default_role" (ld_default_role l)].
Definition oidc_to_dict (o : OidcSettings) : pyval :=
  VDict [key "enabled" (oi_enabled o); key "issuer" (issuer o); key "client_id" (oi_client_id o);
         key "client_secret" (client_secret o); key "redirect_uri" (redirect_uri o);
         key "scopes" (scopes o); key "username_claim" (username_claim o);
         key "groups_claim" (groups_claim o); key "admin_group" (oi_admin_group o);
         key "operator_group" (oi_operator_group o); key "viewer_group" (oi_viewer_group o);
         key "default_role" (oi_default_role o)].
Definition cluster_to_dict (c : ClusterSettings) : pyval :=
  VDict [key "enabled" (cl_enabled c); key "key" (cl_key c); key "discovery_port" (discovery_port c);
         key "advertise_ip" (advertise_ip c); key "peers" (VList (VStr <$> peers c))].
Definition notifications_to_dict (n : NotificationSettings) : pyval :=
  VDict [key "enabled" (nt_enabled n); key "events" (VList (VStr <$> events n)); key "repeat_s" (repeat_s n);
         key "webhook_url" (webhook_url n); key "webhook_format" (webhook_format n);
         key "telegram_chat_id" (telegram_chat_id n); key "email_to" (email_to n);
         key "email_from" (email_from n); key "smtp_host" (smtp_host n); key "smtp_port" (smtp_port n);
         key "smtp_security" (smtp_security n); key "smtp_username" (smtp_username n);
         key "smtp_password" (smtp_password n)].
Definition app_to_dict (c : AppConfig) : pyval :=
  VDict [key "version" (VInt (version c)); key "admin_ui" (admin_to_dict (admin_ui c));
         key "secret_key" (secret_key c); key "api_token_hash" (api_token_hash c);
         key "api_token_role" (api_token_role c); key "session_timeout_s" (VInt (session_timeout_s c));
         key "users" (VList (user_to_dict <$> users c)); key "ldap" (ldap_to_dict (ldap c));
         key "oidc" (oidc_to_dict (oidc c)); key "cluster" (cluster_to_dict (cluster c));
         key "notifications" (notifications_to_dict (notifications c));
         key "instance_id" (instance_id c); key "defaults" (defaults c);
         key "mappings" (VList (mapping_to_dict <$> mappings c))].

Section reload.
Context (word : Z → bool) (repr : pyval → pystr).
#[local] Abbreviation from_dict := (AppConfig_from_dict word repr).

(** What loading establishes, and saving relies on. *)
Record normal (c : AppConfig) : Prop := {
  normal_users : Forall (λ u, in_strs (role u) ROLES = true ∧ in_strs (source u) SOURCES = true) (users c);
  normal_role : in_strs (api_token_role c) ROLES = true;
  normal_secret : truthy (secret_key c) = true;
  normal_instance : truthy (instance_id c) = true;
  normal_defaults : or_else (defaults c) (VDict []) = defaults c;
  normal_timeout : SESSION_TIMEOUT_MIN_S <= session_timeout_s c <= SESSION_TIMEOUT_MAX_S;
  normal_peers : Forall (λ s, strip s = s ∧ s ≠ []) (peers (cluster c));
  normal_events : Forall (λ s, existsb (str_eqb s) NOTIFY_EVENTS = true) (events (notifications c));
  normal_mappings : Forall (λ m, ∀ f, mapping_from_dict word repr f (mapping_to_dict m) = Ok m) (mappings c);
}.

Lemma user_reload u :
  in_strs (role u) ROLES = true → in_strs (source u) SOURCES = true → User_from_dict (user_to_dict u) = Ok u.
Proof.
  destruct u as [n h r v s]. unfold User_from_dict. cbn [user_to_dict as_dict mbind res_bind].
  change (get _ "role" _) with r. change (get _ "source" _) with s. cbn [role source]. by intros -> ->.
Qed.
Lemma users_reload us :
  Forall (λ u, in_strs (role u) ROLES = true ∧ in_strs (source u) SOURCES = true) us →
  mapr User_from_dict (user_to_dict <$> us) = Ok us.
Proof.
  induction 1 as [|u us [H1 H2] _ IH]; [done|]. cbn [fmap list_fmap mapr].
  rewrite user_reload by done. cbn [mbind res_bind]. by rewrite IH.
Qed.
Lemma timeout_reload t :
  SESSION_TIMEOUT_MIN_S <= t <= SESSION_TIMEOUT_MAX_S → _session_timeout (VInt t) = Ok t.
Proof.
  unfold SESSION_TIMEOUT_MIN_S, SESSION_TIMEOUT_MAX_S. intros Ht.
  destruct (float_of_Z_small t) as (x & Hx & _ & Hz); [lia|].
  unfold _session_timeout. rewrite Hx. cbn [mbind res_bind]. rewrite Hz.
  unfold SESSION_TIMEOUT_MIN_S, SESSION_TIMEOUT_MAX_S. f_equal. lia.
Qed.
Lemma filter_all {A} (p : A → bool) l : Forall (λ x, p x = true) l → List.filter p l = l.
Proof. induction 1 as [|x l Hx _ IH]; [done|]. cbn. by rewrite Hx, IH. Qed.
Lemma or_else_list l : or_else (VList l) (VList []) = VList l.
Proof. by destruct l. Qed.
Lemma cluster_reload c :
  Forall (λ s, strip s = s ∧ s ≠ []) (peers c) → ClusterSettings_from_dict repr (cluster_to_dict c) = Ok c.
Proof.
  destruct c as [e k p a ps]. cbn [peers]. intros H. unfold ClusterSettings_from_dict.
  cbn [cluster_to_dict as_dict mbind res_bind peers cl_enabled cl_key discovery_port advertise_ip].
  change (get _ "peers" _) with (VList (VStr <$> ps)). rewrite or_else_list. cbn [iter_of mbind res_bind].
  assert ((λ p, strip (str_of_val repr p)) <$> (VStr <$> ps) = ps) as ->.
  { induction H as [|s ps [Hs _] _ IH]; [done|]. rewrite !fmap_cons. cbn [str_of_val]. by rewrite Hs, IH. }
  rewrite filter_all; [done|]. eapply Forall_impl; [done|]. by intros [|] [_ ?].
Qed.
Lemma notifications_reload n :
  Forall (λ s, existsb (str_eqb s) NOTIFY_EVENTS = true) (events n) →
  NotificationSettings_from_dict (notifications_to_dict n) = Ok n.
Proof.
  destruct n as [e evs a b c d f g h i j k l]. cbn [events]. intros H. unfold NotificationSettings_from_dict.
  cbn [notifications_to_dict as_dict mbind res_bind events nt_enabled repeat_s webhook_url webhook_format
       telegram_chat_id email_to email_from smtp_host smtp_port smtp_security smtp_username smtp_password].
  change (get _ "events" _) with (VList (VStr <$> evs)). rewrite or_else_list. cbn [iter_of mbind res_bind].
  assert (omap text_of (VStr <$> evs) = evs) as -> by (clear; induction evs as [|s evs IH]; [done|cbn; by rewrite IH]).
  by rewrite filter_all.
Qed.
Lemma ldap_reload l : LdapSettings_from_dict (ldap_to_dict l) = Ok l.
Proof. by destruct l. Qed.
Lemma oidc_reload o : OidcSettings_from_dict (oidc_to_dict o) = Ok o.
Proof. by destruct o. Qed.
Lemma normal_mappings_reload fresh i ms :
  Forall (λ m, ∀ f, mapping_from_dict word repr f (mapping_to_dict m) = Ok m) ms →
  mappings_from word repr fresh i (mapping_to_dict <$> ms) = Ok ms.
Proof.
  intros H. revert i. induction H as [|m ms Hm _ IH]; intros i; [done|]. cbn [fmap list_fmap mappings_from].
  rewrite Hm. cbn [mbind res_bind]. by rewrite IH.
Qed.

(** A normal configuration is loaded back as it was, whatever random values are at hand. *)
Lemma config_reload secret instance fresh c : normal c → from_dict secret instance fresh (app_to_dict c) = Ok c.
Proof.
  intros [Hu Hr Hs Hi Hd Ht Hp He Hm]. destruct c as [v [ua ub uc ud ue uf ug] sk th tr t us ld oi cl no ii df ms].
  cbn [users api_token_role secret_key instance_id defaults session_timeout_s cluster notifications mappings] in *.
  unfold AppConfig_from_dict. cbn [app_to_dict as_dict mbind res_bind version admin_ui secret_key api_token_hash
    api_token_role session_timeout_s users ldap oidc cluster notifications instance_id defaults mappings].
  change (or_else (get _ "admin_ui" _) _) with (admin_to_dict (mkAdmin ua ub uc ud ue uf ug)).
  cbn [admin_to_dict mbind res_bind]. change (get _ "users" _) with (VList (user_to_dict <$> us)).
  cbn [iter_of mbind res_bind]. rewrite users_reload by done. cbn [mbind res_bind].
  change (get _ "password_hash" VNone) with VNone.
  change (truthy VNone) with false. cbv iota.
  assert (match us with [] => Ok [] | _ :: _ => Ok us end = Ok us) as -> by by destruct us.
  cbn [mbind res_bind]. change (get _ "version" _) with (VInt v). cbn [int_of_val mbind res_bind].
  change (get _ "session_timeout_s" _) with (VInt t). rewrite timeout_reload by done. cbn [mbind res_bind].
  change (get _ "ldap" _) with (ldap_to_dict ld). rewrite ldap_reload. cbn [mbind res_bind].
  change (get _ "oidc" _) with (oidc_to_dict oi). rewrite oidc_reload. cbn [mbind res_bind].
  change (get _ "cluster" _) with (cluster_to_dict cl). rewrite cluster_reload by done. cbn [mbind res_bind].
  change (get _ "notifications" _) with (notifications_to_dict no). rewrite notifications_reload by done.
  cbn [mbind res_bind]. change (get _ "mappings" _) with (VList (mapping_to_dict <$> ms)).
  cbn [iter_of mbind res_bind]. rewrite normal_mappings_reload by done. cbn [mbind res_bind].
  change (get _ "secret_key" _) with sk. change (get _ "instance_id" _) with ii.
  change (get _ "api_token_role" _) with tr. change (get _ "defaults" _) with df.
  rewrite Hr, Hd. unfold or_else. by rewrite Hs, Hi.
Qed.

Lemma in_strs_or v w l : in_strs w l = true → in_strs (if in_strs v l then v else w) l = true.
Proof. by destruct (in_strs v l) eqn:E. Qed.
Lemma user_normal v u :
  User_from_dict v = Ok u → in_strs (role u) ROLES = true ∧ in_strs (source u) SOURCES = true.
Proof.
  unfold User_from_dict. intros H. apply res_bind_Ok in H as (d & _ & H). injection H as <-. cbn [role source].
  split; [by apply (in_strs_or _ (vstr "viewer") ROLES)|by apply (in_strs_or _ (vstr "local") SOURCES)].
Qed.
Lemma or_else_truthy v d : truthy d = true → truthy (or_else v d) = true.
Proof. unfold or_else. by destruct (truthy v) eqn:E. Qed.
Lemma strip_strip s : strip (strip s) = strip s.
Proof.
  unfold strip, strip_by. set (t := rstrip_by is_space (lstrip_by is_space s)).
  rewrite (lstrip_by_id _ t); [apply rstrip_by_id|].
  - intros r c E. by apply (rstrip_by_last _ (lstrip_by is_space s) r).
  - intros c r E. apply rstrip_by_head in E as [r' E]. by apply lstrip_by_head in E.
Qed.
Lemma mappings_normal fresh i vs ms :
  (∀ c, is_space c = true → name_char word c = false) → (∀ k, fresh k ≠ []) →
  mappings_from word repr fresh i vs = Ok ms →
  Forall (λ m, ftruthy (interval_s (modbus_poll m)) = true) ms →
  Forall (λ m, ∀ f, mapping_from_dict word repr f (mapping_to_dict m) = Ok m) ms.
Proof.
  intros Hw Hf. revert i ms. induction vs as [|v vs IH]; intros i ms H Hi; cbn [mappings_from] in H.
  { by injection H as <-. }
  res_inv. apply Forall_cons in Hi as [Hi His]. constructor; [|by eapply IH].
  intros f. by eapply mapping_reload.
Qed.

(** Loading any document gives a normal configuration. *)
Lemma config_normal secret instance fresh v c :
  (∀ c, is_space c = true → name_char word c = false) →
  secret ≠ [] → instance ≠ [] → (∀ k, fresh k ≠ []) →
  from_dict secret instance fresh v = Ok c →
  Forall (λ m, ftruthy (interval_s (modbus_poll m)) = true) (mappings c) → normal c.
Proof.
  intros Hw Hs Hi Hf H Hint. unfold AppConfig_from_dict in H.
  apply res_bind_Ok in H as (d & _ & H). apply res_bind_Ok in H as (a & _ & H).
  apply res_bind_Ok in H as (ul & _ & H). apply res_bind_Ok in H as (us0 & Hus & H).
  apply res_bind_Ok in H as (us & Hus' & H). apply res_bind_Ok in H as (ver & _ & H).
  apply res_bind_Ok in H as (t & Ht & H). apply res_bind_Ok in H as (ld & _ & H).
  apply res_bind_Ok in H as (oi & _ & H). apply res_bind_Ok in H as (cl & Hcl & H).
  apply res_bind_Ok in H as (no & Hno & H). apply res_bind_Ok in H as (ml & _ & H).
  apply res_bind_Ok in H as (ms & Hms & H). injection H as <-. cbn [mappings] in Hint.
  constructor; cbn [users api_token_role secret_key instance_id defaults session_timeout_s cluster
                    notifications mappings].
  - assert (Forall (λ u, in_strs (role u) ROLES = true ∧ in_strs (source u) SOURCES = true) us0) as H0.
    { apply mapr_inv in Hus. clear Hus'. induction Hus; constructor; [by eapply user_normal|done]. }
    destruct us0; [|by injection Hus' as <-].
    destruct (truthy (get d "password_hash" VNone)); res_inv; repeat constructor.
  - by apply (in_strs_or _ (vstr "admin") ROLES).
  - apply or_else_truthy. by destruct secret.
  - apply or_else_truthy. by destruct instance.
  - unfold or_else. by destruct (truthy (get d "defaults" (VDict []))) eqn:E; rewrite ?E.
  - destruct (session_timeout_valid (get d "session_timeout_s" VNone)) as (s & Es & Hb). congruence.
  - unfold ClusterSettings_from_dict in Hcl. clear Hus'. res_inv. cbn [peers]. apply Forall_forall. intros s Hin.
    apply list_elem_of_In, filter_In in Hin as [Hin Hne]. apply in_map_iff in Hin as (p & E & _).
    split; [rewrite <- E; apply strip_strip|by intros ->].
  - unfold NotificationSettings_from_dict in Hno. clear Hus'. res_inv. cbn [events]. apply Forall_forall. intros s Hin.
    by apply list_elem_of_In, filter_In in Hin as [_ Hin].
  - by eapply mappings_normal.
Qed.
End reload.
