(* ===== verification/ConfigStore.v ===== *)
(** * The store: config.json and its backups (app/config.py, ConfigStore)

    The data directory is the text of config.json and the files of backups/. Saving validates and
    prints the configuration, copies the version being replaced into backups/ and replaces
    config.json in one step. [done] tells which changes of the backup directory succeed. *)
From stdpp Require Import sorting.
From Stdlib Require Import SpecFloat.
From S2P Require Import Prelude PyFloat PyStr PyVal IpAddr PyNum Json JsonOut Config AppConfig Store.
#[local] Open Scope Z_scope.

Definition BACKUPS_KEPT : nat := 50.
Record fs := mkFs {
  config_json : option pystr;
  backup_dir : gmap pystr pystr;
}.

(** ** Names of backups *)
(** \d{8}T\d{6} *)
Definition is_stamp (s : pystr) : bool :=
  (length s =? 15)%nat && forallb is_digit (take 8 s) && eq_str (VStr (slice 8 9 s)) (str "T")
  && forallb is_digit (drop 9 s).
(** [_BACKUP_NAME]: the time and the number of the name; the dollar sign also matches before a
    final newline. *)
Definition backup_parts (name : pystr) : option (pystr * option pystr) :=
  match strip_prefix (str "config-") name with
  | None => None
  | Some s =>
      if negb (is_stamp (take 15 s)) then None
      else
        match drop 15 s with
        | z :: rest =>
            if negb (z =? 90) then None
            else
              let '(n, tail) :=
                match rest with
                | d :: r => if d =? 45 then let '(ds, tail) := span_digits r in (Some ds, tail) else (None, rest)
                | [] => (None, rest)
                end in
              if match n with Some [] => true | _ => false end then None
              else if str_eqb tail (str ".json") || str_eqb tail (str ".json" ++ [10])
              then Some (take 15 s, n) else None
        | [] => None
        end
  end.
Definition is_backup_name (name : pystr) : bool := match backup_parts name with Some _ => true | None => false end.
Definition _backup_order (name : pystr) : pystr * Z :=
  match backup_parts name with
  | Some (st, None) => (st, 1)
  | Some (st, Some ds) => (st, text_value ds)
  | None => ([], 0)
  end.
Definition order_leb (a b : pystr * Z) : bool :=
  match str_compare a.1 b.1 with Lt => true | Eq => a.2 <=? b.2 | Gt => false end.
(** Newest first. *)
Definition newer_leb (a b : pystr) : bool := order_leb (_backup_order b) (_backup_order a).
Definition backup_names (s : fs) : list pystr :=
  sort_by newer_leb (List.filter is_backup_name ((map_to_list (backup_dir s)).*1)).
(** [read_backup]: only listed names are read. *)
Definition read_backup (name : pystr) (s : fs) : res pystr :=
  if negb (is_backup_name name) || negb (existsb (str_eqb name) (backup_names s)) then
    raise ConfigError "No such backup."
  else match backup_dir s !! name with Some t => Ok t | None => raise OSError "no such file" end.

Definition backup_name (stamp : pystr) (n : Z) : pystr :=
  str "config-" ++ stamp ++ str "Z" ++ (if n =? 1 then [] else 45 :: str_of_Z n) ++ str ".json".

(** ** Saving *)
Inductive change := AddBackup (name text : pystr) | RemoveBackup (name : pystr).
Definition apply_change (c : change) (s : fs) : fs :=
  match c with
  | AddBackup n t => mkFs (config_json s) (<[n := t]> (backup_dir s))
  | RemoveBackup n => mkFs (config_json s) (delete n (backup_dir s))
  end.
Definition max_number (l : list Z) : Z := fold_right Z.max 0 l.
Definition new_number (stamp : pystr) (names : list pystr) : Z :=
  let same := (λ n, (_backup_order n).2) <$> List.filter (λ n, starts_with n (str "config-" ++ stamp ++ str "Z")) names in
  match same with [] => 1 | _ => max_number same + 1 end.
(** The oldest backups are removed; one that cannot be removed stays. *)
Definition prune (done : change → bool) (s : fs) : fs :=
  foldl (λ s n, if done (RemoveBackup n) then apply_change (RemoveBackup n) s else s) s
    (drop BACKUPS_KEPT (backup_names s)).
Definition _backup_current (done : change → bool) (stamp new_data : pystr) (s : fs) : fs :=
  match config_json s with
  | None => s
  | Some current =>
      if str_eqb current new_data then s
      else
        let names := backup_names s in
        if match names with
           | n :: _ => match backup_dir s !! n with Some t => str_eqb t current | None => false end
           | [] => false
           end then s
        else
          let add := AddBackup (backup_name stamp (new_number stamp names)) current in
          if done add then prune done (apply_change add s) else s
  end.
(** The part of [save] that touches the disk; [written]: the new file is written completely. *)
Definition write_config (done : change → bool) (written : bool) (stamp data : pystr) (s : fs) : res unit * fs :=
  let s := _backup_current done stamp data s in
  match utf8_encode data with
  | Raise e => (Raise e, s)
  | Ok _ =>
      if written then (Ok tt, mkFs (Some data) (backup_dir s))
      else (raise OSError "cannot write the file", s)
  end.

Section store.
Context (word : Z → bool) (repr : pyval → pystr) (isfile : pystr → bool).

Definition save (done : change → bool) (written : bool) (stamp : pystr) (c : AppConfig) (s : fs) : res unit * fs :=
  match app_validate repr isfile c with
  | Raise e => (Raise e, s)
  | Ok _ =>
      match json_dumps indented (app_to_dict c) with
      | Raise e => (Raise e, s)
      | Ok data => write_config done written stamp data s
      end
  end.
(** [first]: the configuration of a new installation. *)
Definition load (first : AppConfig) (secret instance : pystr) (fresh : nat → pystr) (s : fs) : res AppConfig :=
  match config_json s with
  | None => Ok first
  | Some text =>
      match json_loads text with
      | None => raise ValueError "Expecting value"
      | Some d => AppConfig_from_dict word repr secret instance fresh d
      end
  end.
End store.

(** ** The names the store makes *)
Definition own (name : pystr) : Prop := ∃ st n, is_stamp st = true ∧ 1 <= n ∧ name = backup_name st n.
Lemma is_stamp_length st : is_stamp st = true → length st = 15%nat.
Proof. unfold is_stamp. intros H. zbool. by apply Nat.eqb_eq. Qed.
Lemma backup_name_order st n :
  is_stamp st = true → 1 <= n →
  is_backup_name (backup_name st n) = true ∧ _backup_order (backup_name st n) = (st, n).
Proof.
  intros Hst Hn. pose proof (is_stamp_length _ Hst) as Hl. unfold is_backup_name, _backup_order, backup_parts, backup_name.
  set (tl := str "Z" ++ (if n =? 1 then [] else 45 :: str_of_Z n) ++ str ".json").
  assert (strip_prefix (str "config-") (str "config-" ++ st ++ tl) = Some (st ++ tl)) as -> by done.
  rewrite <- Hl, take_app_length, drop_app_length, Hst. cbn [negb]. unfold tl. cbn [str app]. clear tl.
  destruct (Z.eqb_spec n 1) as [->|Hne]; [done|].
  change (str "Z" ++ ?r) with (90 :: r). cbv iota beta. cbn [negb Z.eqb Pos.eqb app].
  destruct n as [|p|p]; [lia| |lia]. destruct (str_pretty_pos p) as (ds & E & H1 & H2 & H3).
  unfold str_of_Z. change (str (pretty (Z.pos p))) with (str (pretty p)). rewrite E.
  rewrite span_digits_app by done. destruct ds as [|d ds]; [by destruct H3 as [?|(? & ? & ? & ?)]|].
  cbn [digit_chars fmap list_fmap]. change (str_eqb (str ".json") (str ".json")) with true. cbv iota. cbn [orb].
  split; [done|]. unfold text_value. change (d + 48 :: _) with (digit_chars (d :: ds)). by rewrite undigit, H2.
Qed.

(** The order of names is total, and strict between different names of the store. *)
Lemma order_leb_total a b : order_leb a b = true ∨ order_leb b a = true.
Proof.
  unfold order_leb. rewrite (str_compare_antisym a.1 b.1). destruct (str_compare a.1 b.1); cbn; [|by left|by right].
  rewrite !Z.leb_le. lia.
Qed.
Lemma order_leb_antisym a b : order_leb a b = true → order_leb b a = true → a = b.
Proof.
  unfold order_leb. rewrite (str_compare_antisym a.1 b.1). destruct (str_compare a.1 b.1) eqn:E; cbn; try done.
  apply str_compare_eq in E. rewrite !Z.leb_le. destruct a, b; cbn in *. intros ??. subst. f_equal. lia.
Qed.
Lemma order_leb_trans a b c : order_leb a b = true → order_leb b c = true → order_leb a c = true.
Proof.
  unfold order_leb. intros H1 H2.
  destruct (str_compare a.1 b.1) eqn:E1, (str_compare b.1 c.1) eqn:E2; try done.
  - apply str_compare_eq in E1 as ->. apply str_compare_eq in E2 as ->.
    rewrite (proj2 (str_compare_eq c.1 c.1) eq_refl). rewrite Z.leb_le in *. lia.
  - apply str_compare_eq in E1 as ->. by rewrite E2.
  - apply str_compare_eq in E2 as <-. by rewrite E1.
  - destruct (str_compare a.1 c.1) eqn:E3; [|done|].
    + apply str_compare_eq in E3. rewrite E3, (str_compare_antisym b.1 c.1), E2 in E1. done.
    + exfalso. by apply (str_compare_trans a.1 b.1 c.1); rewrite ?E1, ?E2.
Qed.
Lemma own_order a b : own a → own b → _backup_order a = _backup_order b → a = b.
Proof.
  intros (st & n & Hst & Hn & ->) (st' & n' & Hst' & Hn' & ->).
  destruct (backup_name_order st n) as [_ ->]; [done..|]. destruct (backup_name_order st' n') as [_ ->]; [done..|].
  congruence.
Qed.
#[local] Abbreviation newer := (λ a b, newer_leb a b = true).
#[local] Instance newer_trans : Transitive newer.
Proof. intros a b c. unfold newer_leb. intros H1 H2. by eapply order_leb_trans. Qed.

Definition own_dir (s : fs) : Prop := ∀ n t, backup_dir s !! n = Some t → own n.
Lemma own_is_backup n : own n → is_backup_name n = true.
Proof. intros (st & k & H1 & H2 & ->). by apply backup_name_order. Qed.
Lemma elem_of_keys (d : gmap pystr pystr) n : n ∈ (map_to_list d).*1 ↔ is_Some (d !! n).
Proof.
  rewrite list_elem_of_fmap. split.
  - intros ([k t] & -> & H%elem_of_map_to_list). by exists t.
  - intros [t H]. exists (n, t). by rewrite elem_of_map_to_list.
Qed.
Lemma backup_names_sorted s : StronglySorted newer (backup_names s).
Proof.
  apply Sorted_StronglySorted; [apply _|]. apply sort_by_sorted. intros x y. unfold newer_leb.
  apply order_leb_total.
Qed.
Lemma backup_names_elem s n : own_dir s → n ∈ backup_names s ↔ is_Some (backup_dir s !! n).
Proof.
  intros Ho. unfold backup_names. rewrite sort_by_perm, list_elem_of_In, filter_In, <- list_elem_of_In, elem_of_keys.
  split; [by intros [? _]|]. intros [t H]. split; [by exists t|]. by eapply own_is_backup, Ho.
Qed.
Lemma backup_names_nodup s : NoDup (backup_names s).
Proof.
  unfold backup_names. rewrite sort_by_perm. pose proof (NoDup_fst_map_to_list (backup_dir s)) as H.
  induction H as [|n l Hn Hl IH]; cbn; [constructor|]. destruct (is_backup_name n); [|done].
  constructor; [|done]. rewrite list_elem_of_In, filter_In, <- list_elem_of_In. by intros [? _].
Qed.
(** A sorted list of exactly the names of the directory is its listing. *)
Lemma backup_names_unique s l :
  own_dir s → StronglySorted newer l → NoDup l → (∀ n, n ∈ l ↔ is_Some (backup_dir s !! n)) → backup_names s = l.
Proof.
  intros Ho Hs Hn Hl. eapply (StronglySorted_unique_strong newer); [|apply backup_names_sorted|done|].
  - intros x y Hx Hy H1 H2. apply backup_names_elem in Hx as [? Hx]; [|done]. apply Hl in Hy as [? Hy].
    apply own_order; [by eapply Ho..|]. by apply order_leb_antisym.
  - apply NoDup_Permutation; [apply backup_names_nodup|done|]. intros n. by rewrite backup_names_elem, Hl.
Qed.

(** ** One save *)
Lemma max_number_ge l : 0 <= max_number l ∧ ∀ x, x ∈ l → x <= max_number l.
Proof.
  unfold max_number. induction l as [|y l [IH1 IH2]]; cbn; [split; [done|by intros x ?%not_elem_of_nil]|].
  split; [lia|]. intros x [->|H]%elem_of_cons; [lia|]. specialize (IH2 x H). lia.
Qed.
Lemma is_prefix_app p r : is_prefix p (p ++ r) = true.
Proof. induction p as [|c p IH]; cbn; [done|]. by rewrite Z.eqb_refl, IH. Qed.
Lemma backup_name_prefix st n : starts_with (backup_name st n) (str "config-" ++ st ++ str "Z") = true.
Proof.
  unfold starts_with, backup_name. set (r := (if n =? 1 then _ else _) ++ _).
  replace (str "config-" ++ st ++ str "Z" ++ r) with ((str "config-" ++ st ++ str "Z") ++ r)
    by (by rewrite <- !(assoc_L (++))).
  apply is_prefix_app.
Qed.
(** The clock has not gone back behind the backups. *)
Definition clock (s : fs) (stamp : pystr) : Prop :=
  ∀ n t, backup_dir s !! n = Some t → str_compare (_backup_order n).1 stamp ≠ Gt.
Lemma new_number_pos stamp l : 1 <= new_number stamp l.
Proof.
  unfold new_number. destruct (_ <$> _) as [|x l'] eqn:E; [lia|].
  destruct (max_number_ge (x :: l')) as [H _]. lia.
Qed.
Lemma new_name_newest stamp s n t :
  own_dir s → clock s stamp → is_stamp stamp = true → backup_dir s !! n = Some t →
  let nn := backup_name stamp (new_number stamp (backup_names s)) in
  newer_leb nn n = true ∧ nn ≠ n.
Proof.
  intros Ho Hc Hst Hn nn. destruct (backup_name_order stamp (new_number stamp (backup_names s)) Hst) as [_ En].
  { apply new_number_pos. }
  fold nn in En. pose proof (Hc _ _ Hn) as Hle. unfold newer_leb, order_leb. rewrite En. cbn [fst snd].
  destruct (str_compare (_backup_order n).1 stamp) eqn:E; [| |done].
  - apply str_compare_eq in E. assert ((_backup_order n).2 < new_number stamp (backup_names s)) as Hlt.
    { unfold new_number. set (same := _ <$> _).
      assert ((_backup_order n).2 ∈ same) as Hin.
      { apply list_elem_of_fmap. exists n. split; [done|]. rewrite list_elem_of_In, filter_In, <- list_elem_of_In.
        rewrite backup_names_elem by done. split; [by exists t|].
        destruct (Ho _ _ Hn) as (st & k & H1 & H2 & ->). destruct (backup_name_order st k H1 H2) as [_ E'].
        rewrite E' in E. cbn in E. subst st. apply backup_name_prefix. }
      destruct same as [|x l]; [by apply not_elem_of_nil in Hin|].
      destruct (max_number_ge (x :: l)) as [_ H]. specialize (H _ Hin). lia. }
    split; [apply Z.leb_le; lia|]. intros <-. rewrite En in Hlt. cbn in Hlt. lia.
  - split; [done|]. intros <-. rewrite En in E. cbn in E. by rewrite (proj2 (str_compare_eq _ _) eq_refl) in E.
Qed.

(** Deleting a list of names. *)
Lemma delete_names l s n :
  backup_dir (foldl (λ s n, apply_change (RemoveBackup n) s) s l) !! n
  = if decide (n ∈ l) then None else backup_dir s !! n.
Proof.
  revert s. induction l as [|x l IH]; intros s; cbn [foldl]; [done|]. rewrite IH. cbn [apply_change backup_dir].
  destruct (decide (n ∈ l)), (decide (n ∈ x :: l)); try done; try (exfalso; set_solver).
  - assert (n = x) as -> by set_solver. by rewrite lookup_delete_eq.
  - rewrite lookup_delete_ne; [done|set_solver].
Qed.
Lemma delete_names_config l s :
  config_json (foldl (λ s n, apply_change (RemoveBackup n) s) s l) = config_json s.
Proof. revert s. induction l as [|x l IH]; intros s; cbn; [done|]. by rewrite IH. Qed.
Lemma sorted_take k l : StronglySorted newer l → StronglySorted newer (take k l).
Proof.
  intros H. rewrite <- (take_drop k l) in H. by apply StronglySorted_app_1_l in H.
Qed.
Lemma prune_names s :
  own_dir s →
  let s' := prune (λ _, true) s in
  own_dir s' ∧ backup_names s' = take BACKUPS_KEPT (backup_names s) ∧ config_json s' = config_json s
  ∧ (∀ n, n ∈ take BACKUPS_KEPT (backup_names s) → backup_dir s' !! n = backup_dir s !! n)
  ∧ (∀ n t, backup_dir s' !! n = Some t → backup_dir s !! n = Some t).
Proof.
  intros Ho s'. pose proof (backup_names_nodup s) as Hnd. rewrite <- (take_drop BACKUPS_KEPT (backup_names s)) in Hnd.
  apply NoDup_app in Hnd as (Hnd & Hdis & _).
  assert (∀ n t, backup_dir s' !! n = Some t → backup_dir s !! n = Some t) as Hsub.
  { intros n t. unfold s', prune. rewrite delete_names. by destruct (decide _). }
  assert (own_dir s') as Ho' by (intros n t H; by eapply Ho, Hsub).
  assert (∀ n, n ∈ take BACKUPS_KEPT (backup_names s) → backup_dir s' !! n = backup_dir s !! n) as Hkeep.
  { intros n Hn. unfold s', prune. rewrite delete_names. destruct (decide _); [by apply Hdis in Hn|done]. }
  split_and!; [done| |apply delete_names_config|done|done].
  apply backup_names_unique; [done|apply sorted_take, backup_names_sorted|done|].
  intros n. split.
  - intros Hn. rewrite Hkeep by done. apply backup_names_elem; [done|]. rewrite <- (take_drop BACKUPS_KEPT). set_solver.
  - intros [t Ht]. pose proof (Hsub _ _ Ht) as Hs. assert (n ∈ backup_names s) as Hin by (apply backup_names_elem; eauto).
    rewrite <- (take_drop BACKUPS_KEPT (backup_names s)) in Hin. apply elem_of_app in Hin as [?|Hin]; [done|].
    unfold s', prune in Ht. rewrite delete_names in Ht. by rewrite decide_True in Ht.
Qed.

(** ** The history of versions *)
(** What the store promises: the latest version and the versions it replaced, newest first. *)
Record history := mkHistory { latest : option pystr; older : list pystr }.
Definition record (data : pystr) (h : history) : history :=
  match latest h with
  | None => mkHistory (Some data) (older h)
  | Some c =>
      mkHistory (Some data)
        (if decide (c = data) then older h
         else if decide (head (older h) = Some c) then older h
         else take BACKUPS_KEPT (c :: older h))
  end.
Definition readable (r : res pystr) : option pystr := match r with Ok t => Some t | Raise _ => None end.
Definition history_of (s : fs) : history :=
  mkHistory (config_json s) (omap (λ n, readable (read_backup n s)) (backup_names s)).

Lemma read_backup_listed s n : own_dir s → n ∈ backup_names s → readable (read_backup n s) = backup_dir s !! n.
Proof.
  intros Ho Hn. pose proof (proj1 (backup_names_elem s n Ho) Hn) as [t Ht]. unfold read_backup.
  rewrite own_is_backup by (by eapply Ho). assert (existsb (str_eqb n) (backup_names s) = true) as ->.
  { apply existsb_exists. exists n. split; [by apply list_elem_of_In|by apply str_eqb_eq]. }
  cbn [negb orb]. by rewrite Ht.
Qed.
Lemma omap_ext_in {A B} (f g : A → option B) (l : list A) : (∀ x, x ∈ l → f x = g x) → omap f l = omap g l.
Proof.
  induction l as [|x l IH]; intros H; [done|]. cbn. rewrite (H x) by left. rewrite IH; [done|].
  intros y Hy. apply H. by right.
Qed.
Lemma older_lookup s : own_dir s → older (history_of s) = omap (λ n, backup_dir s !! n) (backup_names s).
Proof. intros Ho. apply omap_ext_in. intros n. by apply read_backup_listed. Qed.
Lemma omap_take_total {A B} (f : A → option B) k (l : list A) :
  (∀ x, x ∈ l → is_Some (f x)) → omap f (take k l) = take k (omap f l).
Proof.
  revert k. induction l as [|x l IH]; intros [|k] H; try done. cbn. destruct (H x) as [y E]; [left|]. rewrite E. cbn.
  f_equal. apply IH. intros z Hz. apply H. by right.
Qed.

Lemma backup_current_history stamp data s :
  own_dir s → clock s stamp → is_stamp stamp = true →
  let s' := _backup_current (λ _, true) stamp data s in
  own_dir s' ∧ clock s' stamp ∧ mkHistory (Some data) (older (history_of s')) = record data (history_of s).
Proof.
  intros Ho Hc Hst s'. unfold s', _backup_current, record. cbn [latest history_of].
  destruct (config_json s) as [c|] eqn:Ec; [|done].
  destruct (str_eqb c data) eqn:Ed.
  { apply str_eqb_eq in Ed as ->. by rewrite decide_True. }
  apply str_eqb_neq in Ed. rewrite decide_False by done.
  assert (∀ n, n ∈ backup_names s → is_Some (backup_dir s !! n)) as Htot by (intros n; by apply backup_names_elem).
  assert (head (older (history_of s)) = match backup_names s with n :: _ => backup_dir s !! n | [] => None end) as Eh.
  { rewrite older_lookup by done. destruct (backup_names s) as [|n l]; [done|]. cbn.
    destruct (Htot n) as [t ->]; [left|done]. }
  change (omap _ (backup_names s)) with (older (history_of s)) in Eh |- *.
  assert ((match backup_names s with
           | n :: _ => match backup_dir s !! n with Some t => str_eqb t c | None => false end
           | [] => false end) = bool_decide (head (older (history_of s)) = Some c)) as ->.
  { rewrite Eh. destruct (backup_names s) as [|n l]; [done|]. destruct (backup_dir s !! n) as [t|]; [|done].
    unfold str_eqb. by apply bool_decide_ext; split; congruence. }
  case_bool_decide as Ehd; [by rewrite decide_True|]. rewrite decide_False by done.
  set (nn := backup_name stamp (new_number stamp (backup_names s))).
  assert (∀ n t, backup_dir s !! n = Some t → newer_leb nn n = true ∧ nn ≠ n) as Hnew by (intros n t; by apply new_name_newest).
  assert (own nn) as Hown by (exists stamp, (new_number stamp (backup_names s)); split_and!; [done|apply new_number_pos|done]).
  set (s1 := apply_change (AddBackup nn c) s).
  assert (own_dir s1) as Ho1.
  { intros n t. cbn [s1 apply_change backup_dir]. rewrite lookup_insert_Some. intros [[<- _]|[_ H]]; [done|by eapply Ho]. }
  assert (backup_names s1 = nn :: backup_names s) as E1.
  { apply backup_names_unique; [done| | |].
    - constructor; [apply backup_names_sorted|]. apply Forall_forall. intros n [t Hn]%backup_names_elem; [|done].
      by eapply Hnew.
    - constructor; [|apply backup_names_nodup]. intros [t Hn]%backup_names_elem; [|done]. by apply (Hnew _ _ Hn).
    - intros n. cbn [s1 apply_change backup_dir]. rewrite elem_of_cons, backup_names_elem by done.
      destruct (decide (nn = n)) as [<-|Hne]; [rewrite lookup_insert_eq; naive_solver|].
      rewrite lookup_insert_ne by done. naive_solver. }
  destruct (prune_names s1 Ho1) as (Ho2 & E2 & _ & Hk & Hsub). split_and!; [done| |].
  - intros n t Hn. apply Hsub in Hn. cbn [s1 apply_change backup_dir] in Hn.
    apply lookup_insert_Some in Hn as [[<- _]|[_ Hn]]; [|by eapply Hc].
    destruct (backup_name_order stamp (new_number stamp (backup_names s)) Hst) as [_ En]; [apply new_number_pos|].
    fold nn in En. rewrite En. cbn. by rewrite (proj2 (str_compare_eq _ _) eq_refl).
  - f_equal. rewrite !older_lookup by done. rewrite E2.
    rewrite (omap_ext_in _ (λ n, backup_dir s1 !! n)) by done.
    rewrite omap_take_total by (intros n; by apply backup_names_elem). rewrite E1. cbn [s1 apply_change backup_dir].
    f_equal. cbn. rewrite lookup_insert_eq. f_equal. apply omap_ext_in. intros n [t Hn]%backup_names_elem; [|done].
    apply lookup_insert_ne. by eapply Hnew.
Qed.

(** C7: the store refines a list of versions. Whatever is saved, as long as the clock does not run
    backwards: config.json is the version saved last, and the backups, read in the order the
    store lists them, are the versions replaced before it, newest first, without consecutive repetitions, the
    last fifty of them; many saves in one second included. *)
Theorem backups_refine_history saves :
  Forall (λ x, is_stamp x.1 = true ∧ is_ok (utf8_encode x.2) = true) saves →
  Sorted (λ a b, str_compare a.1 b.1 ≠ Gt) saves →
  history_of (foldl (λ s x, (write_config (λ _, true) true x.1 x.2 s).2) (mkFs None ∅) saves)
  = foldl (λ h x, record x.2 h) (mkHistory None []) saves.
Proof.
  intros Hst Hs. apply Sorted_StronglySorted in Hs; [|intros ? ? ?; apply str_compare_trans].
  assert (∀ s, own_dir s → (∀ x, x ∈ saves → clock s x.1) →
    history_of (foldl (λ s x, (write_config (λ _, true) true x.1 x.2 s).2) s saves)
    = foldl (λ h x, record x.2 h) (history_of s) saves) as Hgen.
  2: { rewrite Hgen; [done| |]; [intros n t H|intros x _ n t H]; cbn in H; by rewrite lookup_empty in H. }
  induction Hs as [|[stamp data] saves Hs IH Hle]; intros s Ho Hc; [done|].
  apply Forall_cons in Hst as [[H1 H2] Hst]. cbn [foldl fst snd] in *.
  destruct (backup_current_history stamp data s Ho) as (Ho' & Hc' & E); [by apply (Hc (stamp, data)); left|done|].
  unfold write_config at 2. destruct (utf8_encode data) as [b|e]; [|done]. cbn [snd].
  rewrite IH; [|done|done|].
  - f_equal. rewrite <- E. unfold history_of. cbn [config_json]. f_equal.
  - intros x Hx n t Hn. rewrite Forall_forall in Hle. specialize (Hle x Hx). cbn in Hle, Hn.
    eapply str_compare_trans; [by eapply Hc'|done].
Qed.
Definition demo_saves : list (pystr * pystr) :=
  [(str "20240101T000000", str "one"); (str "20240101T000000", str "two"); (str "20240101T000000", str "two");
   (str "20240101T000001", str "three"); (str "20240101T000001", str "four")].
Lemma backups_refine_history_witness :
  history_of (foldl (λ s x, (write_config (λ _, true) true x.1 x.2 s).2) (mkFs None ∅) demo_saves)
  = mkHistory (Some (str "four")) (str <$> ["three"; "two"; "one"]%string).
Proof.
  rewrite (backups_refine_history demo_saves); [vm_compute; reflexivity|by repeat constructor|].
  repeat constructor; done.
Defined.

(** ** What is saved is what is loaded *)
Section reload.
Context (word : Z → bool) (repr : pyval → pystr) (isfile : pystr → bool).

Lemma backup_current_config done stamp data s :
  config_json (_backup_current done stamp data s) = config_json s.
Proof.
  unfold _backup_current. destruct (config_json s) as [c|] eqn:E; [|done].
  destruct (str_eqb c data); [done|]. destruct (match backup_names s with [] => false | _ => _ end); [done|].
  destruct (done _); [|by rewrite E]. unfold prune.
  assert (∀ l s, config_json (foldl (λ s n, if done (RemoveBackup n) then apply_change (RemoveBackup n) s else s) s l)
                 = config_json s) as Hl.
  { clear. induction l as [|x l IH]; intros s; cbn; [done|]. rewrite IH. by destruct (done _). }
  rewrite Hl. by cbn.
Qed.

(** C8: restarting the program changes nothing for a configuration as it was loaded: whatever document it came from, when no
    Modbus poll interval of it is zero ([zero_interval_lost]) and its floats are ones that JSON text keeps ([plain]: no NaN or
    infinity, and each reads back), and whatever happens to the backups, either saving it fails and config.json is what it was, or
    loading gives exactly the configuration that was saved, whatever random secrets and ids are at hand. *)
Theorem saved_config_loads secret instance fresh v c st written done stamp s first :
  (∀ c, is_space c = true → name_char word c = false) →
  secret ≠ [] → instance ≠ [] → (∀ k, fresh k ≠ []) →
  AppConfig_from_dict word repr secret instance fresh v = Ok c →
  Forall (λ m, ftruthy (interval_s (modbus_poll m)) = true) (mappings c) → plain (app_to_dict c) = true →
  save repr isfile done written stamp c s = st →
  match st with
  | (Ok _, s') => ∀ secret' instance' fresh', load word repr first secret' instance' fresh' s' = Ok c
  | (Raise _, s') => config_json s' = config_json s
  end
  ∧ (app_validate repr isfile c = Ok tt → serializable (app_to_dict c) = true →
     is_ok (utf8_encode (dumps indented 0 (app_to_dict c))) = true → written = true → is_ok st.1 = true).
Proof.
  intros Hw Hs Hi Hf Hc Hint Hp <-. pose proof (config_normal _ _ _ _ _ _ _ Hw Hs Hi Hf Hc Hint) as Hn.
  unfold save, json_dumps. destruct (app_validate repr isfile c) as [[]|e]; [|done].
  destruct (serializable (app_to_dict c)); [|done]. unfold write_config.
  destruct (utf8_encode _) as [b|e]; [|split; [by rewrite backup_current_config|done]].
  destruct written; [|split; [apply backup_current_config|done]]. split; [|done].
  intros secret' instance' fresh'. unfold load. cbn [config_json]. rewrite json_roundtrip by done.
  by apply config_reload.
Qed.
End reload.

(** A poll interval of the text 0 is accepted when there are no points, and saved as 0.0, which loads as 5.0. *)
Definition poll_doc (v : pyval) : pyval := VDict [key "interval_s" v; key "points" (VList [])].
Example zero_interval_lost :
  match poll_from_dict (poll_doc (vstr "0")) with
  | Ok p => poll_validate p = Ok tt ∧ ftruthy (interval_s p) = false
            ∧ match poll_from_dict (poll_to_dict p) with Ok q => feqb (interval_s q) (interval_s p) = false | Raise _ => False end
  | Raise _ => False
  end.
Proof. vm_compute. done. Qed.

Definition saved_doc : pyval :=
  VDict [key "users" (VList [VDict [key "username" (vstr "ann"); key "role" (vstr "boss")]]);
         key "cluster" (VDict [key "peers" (VList [vstr " 10.0.0.2 "; VInt 7])]);
         key "session_timeout_s" (VInt 5); key "mappings" (VList demo_docs)].
Definition saved_config : res AppConfig :=
  AppConfig_from_dict ascii_word (λ _, []) (str "s3cret") (str "node") demo_fresh saved_doc.
Lemma saved_config_loads_witness :
  match saved_config with
  | Ok c =>
      let st := save (λ _, []) (λ _, true) (λ _, true) true (str "20240101T000000") c (mkFs None ∅) in
      is_ok st.1 = true
      ∧ match st with
        | (Ok _, s') => ∀ secret' instance' fresh', load ascii_word (λ _, []) c secret' instance' fresh' s' = Ok c
        | (Raise _, s') => config_json s' = None
        end
  | Raise _ => False
  end.
Proof.
  destruct saved_config as [c|] eqn:E; [|by vm_compute in E]. split.
  - vm_compute in E. injection E as <-. vm_compute. reflexivity.
  - refine (proj1 (saved_config_loads ascii_word (λ _, []) (λ _, true) (str "s3cret") (str "node") demo_fresh
                     saved_doc c _ true (λ _, true) (str "20240101T000000") (mkFs None ∅) c
                     ascii_word_no_space _ _ _ E _ _ eq_refl)).
    + done.
    + done.
    + intros k. by unfold demo_fresh.
    + vm_compute in E. injection E as <-. repeat constructor.
    + vm_compute in E. injection E as <-. vm_compute. reflexivity.
Defined.
