(* ===== verification/Forms.v ===== *)
(** * The HTML forms (app/web/routes/forms.py, apply_usb_match of ops.py, find of portlist.py)

    A form is the fields it posts with the text [form.get] returns for them. *)
From Stdlib Require Import SpecFloat.
From S2P Require Import Prelude PyFloat PyStr PyVal IpAddr PyNum Json JsonOut Config AppConfig Store.
#[local] Open Scope Z_scope.

Abbreviation form := (list (pystr * pystr)).
Definition fget (f : form) (k : pystr) : option pystr := assoc k f.
(** [form.get(k, default)] *)
Definition posted (f : form) (k : pystr) : bool := match fget f k with Some _ => true | None => false end.
(** [form.get(k, d)] *)
Definition field (f : form) (k d : string) : pystr := match fget f (str k) with Some s => s | None => str d end.
Arguments field f k%_string d%_string.
(** The same with the name behind a prefix, for the two serial sides. *)
Definition pfield (f : form) (p k d : string) : pystr :=
  match fget f (str p ++ str k) with Some s => s | None => str d end.
Arguments pfield f p k%_string d%_string.
Definition or_text (s : pystr) (d : string) : pystr := if is_empty s then str d else s.
Arguments or_text s d%_string.

(** ** Fields *)
Definition _checkbox (f : form) (k : pystr) : bool :=
  match fget f k with Some s => in_strs (VStr s) (str <$> ["on"; "true"; "1"; "yes"]%string) | None => false end.
(** [[x for x in re.split(r"[\s,]+", s or "") if x]] *)
Fixpoint split_words (cur : pystr) (s : pystr) : list pystr :=
  match s with
  | [] => match cur with [] => [] | _ => [rev cur] end
  | c :: s' =>
      if is_space c || (c =? 44) then match cur with [] => split_words [] s' | _ => rev cur :: split_words [] s' end
      else split_words (c :: cur) s'
  end.
Definition _split (s : pystr) : list pystr := split_words [] s.
(** [cast(v)]: the number classes the forms use. *)
Definition cast_int (v : pyval) : res pyval := z ← int_of_val v; Ok (VInt z).
Definition cast_float (v : pyval) : res pyval := x ← float_of_val v; Ok (VFloat x).
Definition _num (strict : bool) (cast : pyval → res pyval) (f : form) (k : pystr) (default : pyval) : res pyval :=
  let v := match fget f k with Some s => VStr s | None => default end in
  match cast v with
  | Ok x => Ok x
  | Raise e =>
      if strict then Raise e
      else match exn_cls e with TypeError | ValueError => Ok default | _ => Raise e end
  end.

Definition _username_problem (u : pystr) : option string :=
  if is_empty u then Some "Username is required."
  else if (1 <=? zlen u) && (zlen u <=? 32)
          && forallb (λ c, in_range 65 90 c || in_range 97 122 c || in_range 48 57 c || (c =? 46) || (c =? 95) || (c =? 45)) u
  then None
  else Some "Username must be 1-32 characters: letters, digits, '.', '_' or '-'.".
Definition _password_problem (pw pw2 : pystr) : option string :=
  if zlen pw <? 8 then Some "Password must be at least 8 characters."
  else if negb (str_eqb pw pw2) then Some "Passwords do not match."
  else None.

Definition _ldap_from_form (f : form) (old : LdapSettings) : res LdapSettings :=
  let pw := field f "ldap_bind_password" "" in
  let text k := strip (field f k "") in
  LdapSettings_from_dict (VDict [
    key "enabled" (VBool (_checkbox f (str "ldap_enabled")));
    key "server_uri" (VStr (text "ldap_server_uri"%string));
    key "start_tls" (VBool (_checkbox f (str "ldap_start_tls")));
    key "user_dn_template" (VStr (text "ldap_user_dn_template"%string));
    key "bind_dn" (VStr (text "ldap_bind_dn"%string));
    key "bind_password" (if is_empty pw then bind_password old else VStr pw);
    key "user_search_base" (VStr (text "ldap_user_search_base"%string));
    key "user_search_filter" (VStr (or_text (text "ldap_user_search_filter"%string) "(uid={username})"));
    key "group_attr" (VStr (or_text (text "ldap_group_attr"%string) "memberOf"));
    key "admin_group" (VStr (text "ldap_admin_group"%string));
    key "operator_group" (VStr (text "ldap_operator_group"%string));
    key "viewer_group" (VStr (text "ldap_viewer_group"%string));
    key "default_role" (VStr (text "ldap_default_role"%string))]).
Definition _oidc_from_form (f : form) (old : OidcSettings) : res OidcSettings :=
  let sec := field f "oidc_client_secret" "" in
  let text k := strip (field f k "") in
  OidcSettings_from_dict (VDict [
    key "enabled" (VBool (_checkbox f (str "oidc_enabled")));
    key "issuer" (VStr (text "oidc_issuer"%string));
    key "client_id" (VStr (text "oidc_client_id"%string));
    key "client_secret" (if is_empty sec then client_secret old else VStr sec);
    key "redirect_uri" (VStr (text "oidc_redirect_uri"%string));
    key "scopes" (VStr (or_text (text "oidc_scopes"%string) "openid email profile"));
    key "username_claim" (VStr (or_text (text "oidc_username_claim"%string) "preferred_username"));
    key "groups_claim" (VStr (or_text (text "oidc_groups_claim"%string) "groups"));
    key "admin_group" (VStr (text "oidc_admin_group"%string));
    key "operator_group" (VStr (text "oidc_operator_group"%string));
    key "viewer_group" (VStr (text "oidc_viewer_group"%string));
    key "default_role" (VStr (text "oidc_default_role"%string))]).

(** ** The mapping form *)
Definition _serial_dict (f : form) (p : string) (strict : bool) : res pyval :=
  let name k := str p ++ str k in
  let baud0 := pfield f p "baudrate" "9600" in
  let baud := if str_eqb baud0 (str "custom") then strip (pfield f p "custom_baud" "") else baud0 in
  b ← (if strict then cast_int (VStr baud) else _num false cast_int [(str "b", baud)] (str "b") (VInt 9600));
  bs ← _num strict cast_int f (name "bytesize"%string) (VInt 8);
  sb ← _num strict cast_float f (name "stopbits"%string) (VInt 1);
  d1 ← _num false cast_float f (name "rs485_delay_before_tx_ms"%string) (VFloat (S754_zero false));
  d2 ← _num false cast_float f (name "rs485_delay_after_tx_ms"%string) (VFloat (S754_zero false));
  Ok (VDict [key "port" (VStr (strip (pfield f p "port" ""))); key "baudrate" b; key "bytesize" bs;
             key "parity" (VStr (pfield f p "parity" "N")); key "stopbits" sb;
             key "flowcontrol" (VStr (pfield f p "flowcontrol" "none"));
             key "rts_on_open" (VStr (pfield f p "rts_on_open" "keep"));
             key "dtr_on_open" (VStr (pfield f p "dtr_on_open" "keep"));
             key "exclusive" (VBool (_checkbox f (name "exclusive"%string)));
             key "advanced" (VDict [key "rs485_enabled" (VBool (_checkbox f (name "rs485_enabled"%string)));
                                    key "rs485_delay_before_tx_ms" d1; key "rs485_delay_after_tx_ms" d2;
                                    key "rs485_rts_level_for_tx"
                                        (VBool (_checkbox f (name "rs485_rts_level_for_tx"%string)))])]).

Definition _parse_modbus_points (raw : pystr) (strict : bool) : res (list pyval) :=
  if is_empty (strip raw) then Ok []
  else
    match json_loads (strip raw) with
    | None => if strict then raise ValueError "Modbus poll points must be a valid JSON array of objects." else Ok []
    | Some (VList l) => Ok l
    | Some _ => Ok []
    end.
Definition _modbus_points_json (m : MappingConfig) : pystr :=
  let doc p :=
    VDict ([key "name" (pp_name p); key "unit" (pp_unit p); key "fn" (pp_fn p); key "address" (pp_address p);
            key "dtype" (pp_dtype p); key "scale" (pp_scale p)]
           ++ if truthy (pp_writable p) then [key "writable" (VBool true)] else []) in
  match poll_points (modbus_poll m) with
  | [] => []
  | l => dumps (mkStyle true (Some 2%nat) false true) 0 (VList (doc <$> l))
  end.

Definition network_dict (f : form) (strict : bool) : res pyval :=
  let bind0 := field f "network_bind_ip" "0.0.0.0" in
  let bind := if str_eqb bind0 (str "custom") then strip (field f "network_bind_ip_custom" "") else bind0 in
  port ← _num strict cast_int f (str "network_port") (VInt 4001);
  rport ← (if is_empty (field f "network_remote_port" "") then Ok (VInt 0)
           else _num strict cast_int f (str "network_remote_port") (VInt 0));
  maxc ← _num strict cast_int f (str "network_max_connections") (VInt 1);
  queue ← _num strict cast_int f (str "network_client_queue_max") (VInt 2048);
  alive ← (if posted f (str "network_keepalive_idle_s") then
             i ← _num strict cast_int f (str "network_keepalive_idle_s") (VInt 60);
             j ← _num strict cast_int f (str "network_keepalive_interval_s") (VInt 10);
             k ← _num strict cast_int f (str "network_keepalive_count") (VInt 3);
             Ok [key "tcp_keepalive" (VBool (_checkbox f (str "network_tcp_keepalive")));
                 key "keepalive_idle_s" i; key "keepalive_interval_s" j; key "keepalive_count" k]
           else Ok []);
  timeout ← (if posted f (str "network_connect_timeout_s") then
               t ← _num strict cast_float f (str "network_connect_timeout_s") (VFloat f10);
               Ok [key "connect_timeout_s" t]
             else Ok []);
  Ok (VDict ([key "mode" (VStr (field f "network_mode" "server"));
              key "protocol" (VStr (field f "network_protocol" "raw"));
              key "bind_ip" (VStr (or_text bind "0.0.0.0")); key "port" port;
              key "remote_host" (VStr (strip (field f "network_remote_host" ""))); key "remote_port" rport;
              key "max_connections" maxc;
              key "kick_old_user" (VBool (_checkbox f (str "network_kick_old_user")));
              key "read_only" (VBool (_checkbox f (str "network_read_only")));
              key "allowed_client_ips" (VList (VStr <$> _split (field f "network_allowed_client_ips" "")));
              key "priority_client_ips" (VList (VStr <$> _split (field f "network_priority_client_ips" "")));
              key "client_queue_max" queue; key "tls" (VBool (_checkbox f (str "network_tls")));
              key "tls_cert" (VStr (strip (field f "network_tls_cert" "")));
              key "tls_key" (VStr (strip (field f "network_tls_key" "")))] ++ alive ++ timeout)).
Definition options_dict (f : form) (strict : bool) : res pyval :=
  idle ← _num strict cast_int f (str "opt_idle_timeout_s") (VInt 0);
  maxt ← (if posted f (str "opt_max_connection_time_s") then
            t ← _num strict cast_int f (str "opt_max_connection_time_s") (VInt 0);
            Ok [key "max_connection_time_s" t]
          else Ok []);
  trace ← (if posted f (str "opt_trace_max_mb") then
             mb ← _num strict cast_float f (str "opt_trace_max_mb") (VFloat f10);
             k ← _num strict cast_int f (str "opt_trace_keep") (VInt 3);
             Ok [key "trace_max_mb" mb; key "trace_keep" k]
           else Ok []);
  Ok (VDict ([key "banner" (VStr (field f "opt_banner" "")); key "idle_timeout_s" idle;
              key "closeon" (VStr (field f "opt_closeon" ""));
              key "trace_both" (VStr (strip (field f "opt_trace_both" "")));
              key "trace_hexdump" (VBool (_checkbox f (str "opt_trace_hexdump")))] ++ maxt ++ trace)).
Definition mqtt_dict (f : form) (strict : bool) : res pyval :=
  port ← _num strict cast_int f (str "mqtt_port") (VInt 1883);
  qos ← _num strict cast_int f (str "mqtt_qos") (VInt 0);
  Ok (VDict ([key "enabled" (VBool (_checkbox f (str "mqtt_enabled")));
              key "host" (VStr (strip (field f "mqtt_host" ""))); key "port" port;
              key "base_topic" (VStr (strip (field f "mqtt_base_topic" ""))); key "qos" qos;
              key "tls" (VBool (_checkbox f (str "mqtt_tls")));
              key "username" (VStr (strip (field f "mqtt_username" "")));
              key "password" (VStr (field f "mqtt_password" ""));
              key "client_id" (VStr (strip (field f "mqtt_client_id" "")))]
             ++ if posted f (str "mqtt_payload_format") then
                  [key "payload_format" (VStr (field f "mqtt_payload_format" "plain"));
                   key "sparkplug_group_id" (VStr (or_text (strip (field f "mqtt_sparkplug_group_id" "")) "ser2net"));
                   key "sparkplug_node_id" (VStr (strip (field f "mqtt_sparkplug_node_id" "")))]
                else [])).
(** The evaluation order of the parts is the code's: network, options, the serial sides, MQTT, points. *)
Definition _build_mapping_dict (f : form) (strict : bool) : res pyval :=
  network ← network_dict f strict;
  options ← options_dict f strict;
  let name := field f "name" "" in
  serial ← _serial_dict f "serial_" strict;
  serial_b ← _serial_dict f "serial_b_" strict;
  mqtt ← mqtt_dict f strict;
  interval ← _num false cast_float f (str "modbus_poll_interval_s") (VFloat f5);
  points ← _parse_modbus_points (field f "modbus_points" "") strict;
  Ok (VDict [key "id" (let i := field f "id" "" in if is_empty i then VNone else VStr i);
             key "name" (VStr (if strict then strip name else name));
             key "enabled" (VBool (_checkbox f (str "enabled"))); key "kind" (VStr (field f "kind" "net"));
             key "serial" serial; key "serial_b" serial_b; key "network" network; key "options" options;
             key "mqtt" mqtt; key "modbus_poll" (VDict [key "interval_s" interval; key "points" (VList points)])]).
Definition _mapping_from_form (f : form) : res pyval := _build_mapping_dict f true.

(** ** Editing an existing mapping *)
(** The network fields behind the first two markers, kept from [old] where the form does not post the marker. *)
Definition keep_network (f : form) (n old : NetworkSettings) : NetworkSettings :=
  let alive := posted f (str "network_keepalive_idle_s") in
  let timeout := posted f (str "network_connect_timeout_s") in
  mkNetwork (mode n) (protocol n) (bind_ip n) (port n) (remote_host n) (remote_port n) (max_connections n)
    (kick_old_user n) (allowed_client_ips n) (priority_client_ips n) (read_only n) (client_queue_max n)
    (if alive then tcp_keepalive n else tcp_keepalive old)
    (if alive then keepalive_idle_s n else keepalive_idle_s old)
    (if alive then keepalive_interval_s n else keepalive_interval_s old)
    (if alive then keepalive_count n else keepalive_count old)
    (if timeout then connect_timeout_s n else connect_timeout_s old) (tls n) (tls_cert n) (tls_key n).
(** The options no form has, and those behind a marker. *)
Definition keep_options (f : form) (o old : MappingOptions) : MappingOptions :=
  let maxt := posted f (str "opt_max_connection_time_s") in
  let trace := posted f (str "opt_trace_max_mb") in
  mkOptions (banner o) (openstr old) (closestr old) (closeon o) (idle_timeout_s o)
    (if maxt then max_connection_time_s o else max_connection_time_s old) (trace_both o) (trace_hexdump o)
    (trace_timestamp old) (if trace then trace_max_mb o else trace_max_mb old)
    (if trace then trace_keep o else trace_keep old) (rfc2217_poll_modem_interval_s old)
    (rfc2217_net_timeout_s old) (modbus_response_timeout_s old).
Definition keep_mqtt (f : form) (m old : MqttSettings) : MqttSettings :=
  let fmt := posted f (str "mqtt_payload_format") in
  mkMqtt (mq_enabled m) (mq_host m) (mq_port m) (base_topic m) (mq_qos m) (mq_tls m) (mq_username m)
    (mq_password m) (mq_client_id m) (if fmt then payload_format m else payload_format old)
    (if fmt then sparkplug_group_id m else sparkplug_group_id old)
    (if fmt then sparkplug_node_id m else sparkplug_node_id old).
Definition keep_serial (f : form) (p : string) (s old : SerialSettings) : SerialSettings :=
  let a := advanced s in
  mkSerial (s_port s) (if posted f (str p ++ str "usb_match_shown") then s_match s else s_match old)
    (baudrate s) (bytesize s) (parity s) (stopbits s) (flowcontrol s) (rts_on_open s) (dtr_on_open s)
    (exclusive s)
    (mkAdvanced (rs485_enabled a) (rs485_delay_before_tx_ms a) (rs485_delay_after_tx_ms a)
       (rs485_rts_level_for_tx a) (hangup_when_done (advanced old)) (nobreak (advanced old))).
Definition _preserve_unmanaged_fields (f : form) (m : MappingConfig) (existing : option MappingConfig) : MappingConfig :=
  match existing with
  | None => m
  | Some old =>
      mkMapping (id m) (name m) (enabled m) (kind m) (keep_serial f "serial_" (serial m) (serial old))
        (keep_serial f "serial_b_" (serial_b m) (serial_b old)) (keep_network f (network m) (network old))
        (keep_options f (options m) (options old)) (keep_mqtt f (mqtt m) (mqtt old)) (modbus_poll m)
  end.

(** A detected port, as the port list describes it. *)
Abbreviation port_info := (list (pystr * pyval)).
(** portlist.find: the port whose device path or by-id name is [device]. *)
Definition find_port (ports : list port_info) (device : pyval) : option port_info :=
  List.find (λ p, truthy device && (py_eq device (get p "device" VNone) || py_eq device (get p "by_id" VNone))) ports.
(** portlist.visible *)
Definition visible (ports : list port_info) (show_all : bool) : list port_info :=
  if show_all then ports else List.filter (λ p, match get p "hardware" VNone with VBool false => false | _ => true end) ports.
Definition set_match (v : pyval) (s : SerialSettings) : SerialSettings :=
  mkSerial (s_port s) v (baudrate s) (bytesize s) (parity s) (stopbits s) (flowcontrol s) (rts_on_open s)
    (dtr_on_open s) (exclusive s) (advanced s).
Definition usb_identity (p : port_info) : pyval :=
  VDict (omap (λ k, match assoc (str k) p with Some v => if truthy v then Some (str k, v) else None | None => None end)
           ["vid"; "pid"; "serial_number"]%string).
Definition usb_side (f : form) (p : string) (ports : list port_info) (s : SerialSettings) (old : option SerialSettings)
    : res SerialSettings :=
  if negb (_checkbox f (str p ++ str "usb_match")) then Ok (set_match (VDict []) s)
  else
    match find_port ports (s_port s) with
    | Some pt =>
        if truthy (get pt "vid" VNone) && truthy (get pt "pid" VNone) then Ok (set_match (usb_identity pt) s)
        else raise ValueError "{0} has no USB identity (VID/PID) to find it by"
    | None =>
        match old with
        | Some o =>
            if truthy (s_match o) then (d ← as_dict (s_match o); Ok (set_match (VDict d) s))
            else raise ValueError "{0} has no USB identity (VID/PID) to find it by"
        | None => raise ValueError "{0} has no USB identity (VID/PID) to find it by"
        end
    end.
Definition set_serials (a b : SerialSettings) (m : MappingConfig) : MappingConfig :=
  mkMapping (id m) (name m) (enabled m) (kind m) a b (network m) (options m) (mqtt m) (modbus_poll m).
Definition apply_usb_match (f : form) (ports : list port_info) (existing : option MappingConfig) (m : MappingConfig)
    : res MappingConfig :=
  a ← (if posted f (str "serial_usb_match_shown") then usb_side f "serial_" ports (serial m) (serial <$> existing)
       else Ok (serial m));
  b ← (if posted f (str "serial_b_usb_match_shown") && eq_str (kind m) (str "serialbridge")
       then usb_side f "serial_b_" ports (serial_b m) (serial_b <$> existing)
       else Ok (serial_b m));
  Ok (set_serials a b m).
