(* ===== verification/Ports.v ===== *)
(** * The list of serial ports (app/engine/portlist.py)

    What pyserial enumerates becomes a list of dicts; the watcher keeps the last list and a version
    that changes when the set of devices does. [find] and [visible] are in [Forms], next to the forms
    that use them. Enumeration itself is pyserial's: a port is the attributes it has. *)
From stdpp Require Import sorting.
From S2P Require Import Prelude PyFloat PyStr PyVal Json Config AppConfig Forms.
#[local] Open Scope Z_scope.

(** A pyserial port: [None] for an attribute that is missing or None. *)
Record ListPortInfo := mkPort {
  pi_device : pystr; pi_name : option pystr; pi_description : option pystr; pi_hwid : pyval;
  pi_vid : pyval; pi_pid : pyval; pi_serial_number : pyval; pi_manufacturer : pyval; pi_product : pyval; pi_location : pyval;
}.
(** [f"{v:04x}"]: at least four hexadecimal digits. *)
Fixpoint hex_digits (fuel : nat) (v : Z) : pystr :=
  match fuel with
  | O => []
  | S fuel' => if v =? 0 then [] else hex_digits fuel' (v / 16) ++ [hex_char (v mod 16)]
  end.
Definition hex04 (v : Z) : pystr :=
  let d := hex_digits (S (Z.to_nat (Z.log2 (Z.abs v)))) (Z.abs v) in
  let w := if v <? 0 then 3 else 4 in
  (if v <? 0 then [45] else []) ++ repeat 48 (Z.to_nat (w - zlen d)) ++ d.
Definition hexid (v : pyval) : pyval := if is_int v then VStr (hex04 (int_of v)) else VNone.
Definition opt_str (s : option pystr) : pyval := match s with Some s => VStr s | None => VNone end.
Definition _normalize (p : ListPortInfo) : list (pystr * pyval) :=
  let desc := strip (default [] (pi_description p)) in
  [key "device" (VStr (pi_device p));
   key "name" (match pi_name p with Some ((_ :: _) as n) => VStr n | _ => VStr (pi_device p) end);
   key "description" (match desc with [] => VNone | _ => VStr desc end);
   key "hwid" (pi_hwid p); key "vid" (hexid (pi_vid p)); key "pid" (hexid (pi_pid p));
   key "serial_number" (pi_serial_number p); key "manufacturer" (pi_manufacturer p);
   key "product" (pi_product p); key "location" (pi_location p)].

(** [_by_id_links]: the udev names of real device paths; the first name in order wins. [names] is the
    directory, [realpath] resolves a link. *)
Definition by_id_dir : pystr := str "/dev/serial/by-id".
Definition set_default (k v : pystr) (d : list (pystr * pystr)) : list (pystr * pystr) :=
  match assoc k d with Some _ => d | None => d ++ [(k, v)] end.
Definition _by_id_links (realpath : pystr → pystr) (names : option (list pystr)) : list (pystr * pystr) :=
  match names with
  | None => []
  | Some l => foldl (λ d n, let link := by_id_dir ++ str "/" ++ n in set_default (realpath link) link d) [] (sort_by str_leb l)
  end.
(** The last component of a path. *)
Definition basename (p : pystr) : pystr := match split_last 47 p with Some (_, b) => b | None => p end.
(** [sysfs] is the text of a tty's type file, [None] when it cannot be read. *)
Definition has_hardware (linux : bool) (sysfs : pystr → option pystr) (device : pystr) : pyval :=
  let name := basename device in
  if negb linux || negb (starts_with name (str "ttyS")) then VNone
  else match sysfs name with Some t => VBool (negb (str_eqb (strip t) (str "0"))) | None => VNone end.
Definition snapshot (linux : bool) (realpath : pystr → pystr) (names : option (list pystr)) (sysfs : pystr → option pystr)
    (ports : list ListPortInfo) : list pyval :=
  let links := if linux then _by_id_links realpath names else [] in
  let row p := dict_set (str "hardware") (has_hardware linux sysfs (pi_device p))
                 (dict_set (str "by_id") (opt_str (assoc (realpath (pi_device p)) links)) (_normalize p)) in
  (λ p, VDict (row p)) <$> sort_by (λ a b, str_leb (pi_device a) (pi_device b)) ports.

(** ** The watcher; [on_change] logs the lists its callback was given *)
Record PortWatcher := mkWatcher { _ports : list pyval; _version : Z; on_change : list (list pyval) }.
Definition watcher0 : PortWatcher := mkWatcher [] 0 [].
Definition device_of (p : pyval) : pyval := match p with VDict d => get d "device" VNone | _ => VNone end.
Definition devices (ports : list pyval) : gset pystr :=
  list_to_set (omap (λ p, match device_of p with VStr s => Some s | _ => None end) ports).
Definition start (ports : list pyval) (w : PortWatcher) : PortWatcher := mkWatcher ports 1 (on_change w).
Definition _apply (new : list pyval) (w : PortWatcher) : PortWatcher :=
  if decide (devices new = devices (_ports w)) then mkWatcher new (_version w) (on_change w)
  else mkWatcher new (_version w + 1) (on_change w ++ [new]).
(** A turn of the polling loop or a refresh: [None] is an enumeration that failed. *)
Definition rescan (found : option (list pyval)) (w : PortWatcher) : PortWatcher :=
  match found with Some new => _apply new w | None => w end.

(** ** The version tells a page exactly when to redraw *)
Fixpoint changes (old : gset pystr) (ls : list (list pyval)) : list (list pyval) :=
  match ls with
  | [] => []
  | l :: ls' => if decide (devices l = old) then changes old ls' else l :: changes (devices l) ls'
  end.
Lemma last_cons {A} (l : list A) x d : List.last (x :: l) d = List.last l x.
Proof.
  revert x d. induction l as [|y l IH]; intros x d; [done|].
  change (List.last (y :: l) d = List.last (y :: l) x). by rewrite !IH.
Qed.
Lemma version_counts_changes first founds w :
  let w' := foldl (λ w f, rescan f w) (start first w) founds in
  let scans := omap (λ f, f) founds in
  _ports w' = List.last scans first ∧ on_change w' = on_change w ++ changes (devices first) scans
  ∧ _version w' = 1 + zlen (changes (devices first) scans).
Proof.
  cbn zeta. unfold start. generalize 1 as v. revert first w. induction founds as [|[new|] founds IH]; intros first w v.
  - cbn. rewrite app_nil_r, zlen_nil. split_and!; [done..|lia].
  - cbn [foldl rescan omap list_omap]. unfold _apply. cbn [_ports _version on_change changes].
    assert (List.last (new :: omap (λ f, f) founds) first = List.last (omap (λ f, f) founds) new) as El by apply last_cons.
    destruct (decide (devices new = devices first)) as [E|E].
    + destruct (IH new (mkWatcher new v (on_change w)) v) as (H1 & H2 & H3). cbn [on_change] in *. rewrite El, <- E. by split_and!.
    + destruct (IH new (mkWatcher new v (on_change w ++ [new])) (v + 1)) as (H1 & H2 & H3). cbn [on_change] in *. rewrite El.
      split_and!; [done|by rewrite H2, <- app_assoc|rewrite H3, zlen_cons; lia].
  - cbn [foldl rescan omap list_omap]. apply IH.
Qed.

(** ** The watcher's tasks
    The polling loop and every refresh take a list of the ports in a thread and apply it when the thread is done, in any order; a hotplug
    event starts a refresh unless the watcher was stopped. [w_world] is what the machine has now, [w_taken] the lists taken and not applied
    yet. *)
Record watch_state := mkWatching { w_world : list pyval; w_taken : list (list pyval); w_watcher : PortWatcher; w_stopped : bool; w_polling : bool }.
Inductive watch_act :=
  | Plug (ports : list pyval)        (* the ports of the machine change *)
  | PollWakes | RefreshNow | Hotplug (* a list is being taken: by the poll, for the page, for an event *)
  | Lands (k : nat)                  (* the [k]-th list taken is applied *)
  | Lost (k : nat)                   (* taking it failed *)
  | StopWatch.
Definition take_list (x : watch_state) : watch_state := mkWatching (w_world x) (w_taken x ++ [w_world x]) (w_watcher x) (w_stopped x) (w_polling x).
Definition forget (k : nat) (x : watch_state) : watch_state := mkWatching (w_world x) (delete k (w_taken x)) (w_watcher x) (w_stopped x) (w_polling x).
Definition start_watching (world : list pyval) : watch_state := mkWatching world [] (start world watcher0) false true.
Definition refresh_now (x : watch_state) : watch_state := take_list x.
Definition _trigger_rescan (x : watch_state) : watch_state := if w_stopped x then x else refresh_now x.
Definition stop_watching (x : watch_state) : watch_state := mkWatching (w_world x) (w_taken x) (w_watcher x) true false.
Definition watch_step (a : watch_act) (x : watch_state) : watch_state :=
  match a with
  | Plug ports => mkWatching ports (w_taken x) (w_watcher x) (w_stopped x) (w_polling x)
  | PollWakes => if w_polling x then take_list x else x
  | RefreshNow => refresh_now x
  | Hotplug => _trigger_rescan x
  | Lands k =>
      match w_taken x !! k with
      | Some new => let x := forget k x in mkWatching (w_world x) (w_taken x) (_apply new (w_watcher x)) (w_stopped x) (w_polling x)
      | None => x
      end
  | Lost k => forget k x
  | StopWatch => stop_watching x
  end.
Definition watch_run (acts : list watch_act) (x : watch_state) : watch_state := foldl (λ x a, watch_step a x) x acts.
Definition is_plug (a : watch_act) : bool := match a with Plug _ => true | _ => false end.
(** The list shown is one the machine had, and every list in flight too. *)
Definition seen_lists (x : watch_state) : list (list pyval) := _ports (w_watcher x) :: w_world x :: w_taken x.
Lemma apply_ports new w : _ports (_apply new w) = new.
Proof. unfold _apply. by destruct (decide _). Qed.
Lemma shown_was_there acts x l : l ∈ seen_lists (watch_run acts x) → l ∈ seen_lists x ∨ Plug l ∈ acts.
Proof.
  revert x. induction acts as [|a acts IH]; intros x; [by left|]. cbn. intros [H|H]%IH; [|by right; right].
  assert (l ∈ seen_lists x ∨ a = Plug l) as [?| ->]; [|by left|by right; left]. revert H. unfold seen_lists. rewrite !elem_of_cons.
  assert (∀ k, l ∈ delete k (w_taken x) → l ∈ w_taken x) as Hd by (intros k; apply list_elem_of_delete_inv).
  destruct a; cbn; try (intros [?|[?|?]]; by auto).
  - intros [?|[->|?]]; auto.
  - destruct (w_polling x); cbn; rewrite ?elem_of_app, ?list_elem_of_singleton; tauto.
  - rewrite ?elem_of_app, ?list_elem_of_singleton; tauto.
  - unfold _trigger_rescan. destruct (w_stopped x); cbn; rewrite ?elem_of_app, ?list_elem_of_singleton; tauto.
  - destruct (w_taken x !! k) as [new|] eqn:E; cbn; [|tauto]. rewrite apply_ports. apply list_elem_of_lookup_2 in E. intros [->|[?|?%Hd]]; tauto.
  - intros [?|[?|?%Hd]]; auto.
Qed.
(** Once the machine's ports stay as they are and no older list is in flight, the first list applied is the machine's, and stays; the
    version has gone up once if the devices differ from those shown before, and not at all otherwise. *)
Record settled (l : list pyval) (old : PortWatcher) (x : watch_state) : Prop := {
  se_world : w_world x = l;
  se_taken : Forall (λ y, y = l) (w_taken x);
  se_shown : w_watcher x = old ∨ (_ports (w_watcher x) = l ∧ _version (w_watcher x) = _version old + (if decide (devices l = devices (_ports old)) then 0 else 1));
}.
Lemma apply_settles l old w :
  w = old ∨ (_ports w = l ∧ _version w = _version old + (if decide (devices l = devices (_ports old)) then 0 else 1)) →
  _ports (_apply l w) = l ∧ _version (_apply l w) = _version old + (if decide (devices l = devices (_ports old)) then 0 else 1).
Proof.
  intros [-> | [Hp Hv]]; unfold _apply.
  - destruct (decide _); cbn; split; try done; lia.
  - rewrite Hp, decide_True by done. by cbn.
Qed.
Lemma settled_step l old a x : is_plug a = false → settled l old x → settled l old (watch_step a x).
Proof.
  intros Ha [Hw Ht Hs]. assert (settled l old (take_list x)) as Htake.
  { split; [done| |done]. apply Forall_app. split; [done|]. constructor; [done|constructor]. }
  assert (∀ k, Forall (λ y, y = l) (delete k (w_taken x))) as Hd by (intros; by apply Forall_delete).
  destruct a; try done; cbn [watch_step].
  - by destruct (w_polling x).
  - unfold _trigger_rescan. by destruct (w_stopped x).
  - destruct (w_taken x !! k) as [new|] eqn:E; [|done]. assert (new = l) as -> by (exact (Forall_lookup_1 _ _ _ _ Ht E)). split; [done|apply Hd|]. right. by apply apply_settles.
  - split; [done|apply Hd|done].
Qed.
Theorem watcher_settles acts x :
  w_taken x = [] → forallb (λ a, negb (is_plug a)) acts = true →
  let x' := watch_run acts x in
  w_watcher x' = w_watcher x
  ∨ (_ports (w_watcher x') = w_world x
     ∧ _version (w_watcher x') = _version (w_watcher x) + (if decide (devices (w_world x) = devices (_ports (w_watcher x))) then 0 else 1)).
Proof.
  intros Hn Hp. enough (settled (w_world x) (w_watcher x) (watch_run acts x)) as [_ _ H] by exact H.
  assert (settled (w_world x) (w_watcher x) x) as H0 by (split; [done|by rewrite Hn; constructor|by left]).
  revert H0 Hp. generalize (w_world x) (w_watcher x). clear Hn. intros l old. revert x. induction acts as [|a acts IH]; intros x H0 Hp; [done|].
  cbn in Hp. apply andb_true_iff in Hp as [Ha%negb_true_iff Hp]. cbn. apply IH; [by apply settled_step|done].
Qed.
(** A refresh that is overtaken by a poll puts the older list back, until the next poll. *)
Example overtaken_refresh :
  let p s := VDict [key "device" (vstr s)] in
  let x := watch_run [RefreshNow; Plug [p "/dev/ttyUSB0"%string]; PollWakes; Lands 1; Lands 0] (start_watching []) in
  (_ports (w_watcher x), _version (w_watcher x), _ports (w_watcher (watch_run [PollWakes; Lands 0] x))) = ([], 3, [p "/dev/ttyUSB0"%string]).
Proof. vm_compute. reflexivity. Qed.
