(* ===== verification/SerialIo.v ===== *)
(** * Serial ports and sockets (app/engine/serial_io.py, sockopts.py, netinfo.py)

    Which device a mapping opens and with what, what is set on the open port, the socket options of
    keepalive, and the addresses offered for listening. Opening itself is pyserial's and setting an option the system's:
    their outcome is an argument. *)
From Stdlib Require Import SpecFloat.
From S2P Require Import Prelude PyFloat PyStr PyVal IpAddr PyNum Json Config AppConfig Forms Ports.
#[local] Open Scope Z_scope.

(** ** The device *)
Section resolve.
Context (repr : pyval → pystr).

(** [hexid(attribute) != str(wanted).lower()], both ways round. *)
Definition hex_is (attr want : pyval) : bool := eq_str (hexid attr) (lower (str_of_val repr want)).
Definition wanted (want : list (pystr * pyval)) (k : string) : option pyval :=
  match assoc (str k) want with Some v => if truthy v then Some v else None | None => None end.
Definition _match_port (p : ListPortInfo) (want : list (pystr * pyval)) : bool :=
  (match wanted want "vid" with Some v => hex_is (pi_vid p) v | None => true end)
  && (match wanted want "pid" with Some v => hex_is (pi_pid p) v | None => true end)
  && (match wanted want "serial_number" with Some v => py_eq (pi_serial_number p) v | None => true end)
  && (match wanted want "location" with Some v => py_eq (pi_location p) v | None => true end).
(** [comports] is what pyserial lists now. *)
Definition resolve_device (comports : list ListPortInfo) (s : SerialSettings) : res pyval :=
  d ← (if truthy (s_match s) then
         match s_match s with VDict d => Ok d | _ => raise AttributeError "object has no attribute 'items'" end
       else Ok []);
  match List.filter (λ kv, truthy kv.2) d with
  | [] => Ok (s_port s)
  | want => Ok (match find (λ p, _match_port p want) comports with Some p => VStr (pi_device p) | None => s_port s end)
  end.

(** ** Opening *)
Record open_args := mkArgs {
  a_url : pyval; a_baudrate : pyval; a_bytesize : pyval; a_parity : pyval; a_stopbits : pyval;
  a_xonxoff : bool; a_rtscts : bool; a_dsrdtr : bool; a_exclusive : option pyval;
}.
Definition serial_args (win32 : bool) (s : SerialSettings) (device : pyval) : open_args :=
  mkArgs device (baudrate s) (bytesize s) (parity s) (stopbits s)
    (eq_str (flowcontrol s) (str "xonxoff")) (eq_str (flowcontrol s) (str "rtscts")) (eq_str (flowcontrol s) (str "dsrdtr"))
    (if win32 then None else Some (exclusive s)).
(** A control line is set when it is on or off, and left alone otherwise. *)
Definition line_state (v : pyval) : option bool :=
  if in_strs v [str "on"; str "off"] then Some (eq_str v (str "on")) else None.
Record rs485 := mkRs485 { level_for_tx : pyval; level_for_rx : bool; before_tx : option pyfloat; before_rx : option pyfloat }.
Definition f1000 : pyfloat := S754_finite false 8796093022208000 (-43).
(** [(ms / 1000.0) or None] *)
Definition delay_s (ms : pyval) : res (option pyfloat) :=
  match num_of ms with
  | None => raise TypeError "unsupported operand type(s) for /"
  | Some n => q ← num_div n (NFloat f1000); Ok (if ftruthy q then Some q else None)
  end.
Definition rs485_settings (a : SerialAdvanced) : res (option rs485) :=
  if truthy (rs485_enabled a) then
    before ← delay_s (rs485_delay_before_tx_ms a);
    behind ← delay_s (rs485_delay_after_tx_ms a);
    Ok (Some (mkRs485 (rs485_rts_level_for_tx a) (negb (truthy (rs485_rts_level_for_tx a))) before behind))
  else Ok None.
(** The errors the best-effort steps pass over. *)
Definition passed_over (e : exn) : bool :=
  match exn_cls e with OSError | ConnectionError | TimeoutError | ValueError | ConfigError | AttributeError => true | _ => false end.
(** What a call leaves behind: the result, and whether the port is open. *)
Record opened := mkOpened { o_device : pyval; o_rts : option bool; o_dtr : option bool; o_rs485 : option rs485 }.
Definition open_serial (win32 : bool) (comports : list ListPortInfo) (opens : open_args → res unit) (s : SerialSettings)
    : res opened * bool :=
  match resolve_device comports s with
  | Raise e => (Raise e, false)
  | Ok device =>
      match opens (serial_args win32 s device) with
      | Raise e => (Raise e, false)
      | Ok _ =>
          let o := mkOpened device (line_state (rts_on_open s)) (line_state (dtr_on_open s)) in
          match rs485_settings (advanced s) with
          | Ok r => (Ok (o r), true)
          | Raise e => if passed_over e then (Ok (o None), true) else (Raise e, true)
          end
      end
  end.
End resolve.

(** ** Keepalive *)
(** What the platform's socket module offers. *)
Record platform := mkPlatform {
  linux : bool; darwin : bool; tcp_keepidle : bool; tcp_keepalive_opt : bool; tcp_keepintvl : bool;
  tcp_keepcnt : bool; tcp_user_timeout : bool; sio_keepalive_vals : bool;
}.
Inductive sock_call := SetOpt (name : string) (v : Z) | Ioctl (idle_ms interval_ms : Z).
Definition _LINUX_DATA_GIVE_UP_S : Z := 900.
(** The calls made, with the error that ended them; [fails] is what the system answers to a call. *)
Fixpoint required (fails : sock_call → option exn) (l : list sock_call) : list sock_call * option exn :=
  match l with
  | [] => ([], None)
  | c :: l =>
      match fails c with
      | Some e => ([c], Some e)
      | None => let '(done, e) := required fails l in (c :: done, e)
      end
  end.
(** Errors of the socket options, which the best-effort ones and [apply_keepalive] pass over. *)
Definition _SOCKOPT_ERRORS (e : exn) : bool :=
  match exn_cls e with
  | OSError | ConnectionError | TimeoutError | ValueError | ConfigError | TypeError | OverflowError => true
  | _ => false
  end.
Fixpoint best_effort (fails : sock_call → option exn) (l : list sock_call) : list sock_call * option exn :=
  match l with
  | [] => ([], None)
  | c :: l =>
      match fails c with
      | Some e => if _SOCKOPT_ERRORS e then let '(done, x) := best_effort fails l in (c :: done, x) else ([c], Some e)
      | None => let '(done, x) := best_effort fails l in (c :: done, x)
      end
  end.
Definition idle_opt (p : platform) : option string :=
  if tcp_keepidle p then Some "TCP_KEEPIDLE"%string
  else if darwin p && tcp_keepalive_opt p then Some "TCP_KEEPALIVE"%string else None.
Definition enable_keepalive (p : platform) (fails : sock_call → option exn) (idle_s interval_s count : Z)
    : list sock_call * option exn :=
  match required fails [SetOpt "SO_KEEPALIVE" 1] with
  | (l, Some e) => (l, Some e)
  | (l, None) =>
      match (if tcp_keepintvl p then idle_opt p else None) with
      | Some opt =>
          match required fails [SetOpt opt idle_s; SetOpt "TCP_KEEPINTVL" interval_s] with
          | (l2, Some e) => (l ++ l2, Some e)
          | (l2, None) =>
              let reap_s := idle_s + interval_s * count in
              let '(l3, e) := best_effort fails
                ((if tcp_keepcnt p then [SetOpt "TCP_KEEPCNT" count] else [])
                 ++ (if linux p && (reap_s <? _LINUX_DATA_GIVE_UP_S) && tcp_user_timeout p
                     then [SetOpt "TCP_USER_TIMEOUT" (reap_s * 1000)] else [])) in
              (l ++ l2 ++ l3, e)
          end
      | None =>
          if sio_keepalive_vals p then
            let '(l2, e) := required fails [Ioctl (idle_s * 1000) (interval_s * 1000)] in (l ++ l2, e)
          else (l, None)
      end
  end.
(** What a mapping asks for; [sock] tells whether the writer has a socket. [exn_text] is the type and message. *)
Record keepalive := mkKeepalive { ka_on : bool; ka_idle : Z; ka_interval : Z; ka_count : Z }.
Definition apply_keepalive (exn_text : exn → pystr) (p : platform) (fails : sock_call → option exn) (sock : bool) (net : keepalive)
    : list sock_call * res (option pystr) :=
  if negb (ka_on net) then ([], Ok None)
  else if negb sock then ([], Ok (Some (str "no underlying socket")))
  else
    let '(l, e) := enable_keepalive p fails (ka_idle net) (ka_interval net) (ka_count net) in
    (l, match e with
        | Some e => if _SOCKOPT_ERRORS e then Ok (Some (exn_text e)) else Raise e
        | None => Ok None
        end).
Definition describe (net : keepalive) : pystr :=
  if ka_on net
  then str "keepalive " ++ str_of_Z (ka_idle net) ++ str "s/" ++ str_of_Z (ka_interval net) ++ str "sx" ++ str_of_Z (ka_count net)
  else str "keepalive off".

Lemma required_calls fails l :
  (∀ c, c ∈ (required fails l).1 → c ∈ l) ∧ ((required fails l).2 = None → (required fails l).1 = l)
  ∧ ∀ e, (required fails l).2 = Some e → ∃ c, fails c = Some e.
Proof.
  induction l as [|c l (IH1 & IH2 & IH3)]; cbn [required]; [by split_and!|]. destruct (fails c) as [e|] eqn:E.
  - split_and!; [intros x Hx; apply list_elem_of_singleton in Hx as ->; by left|done|]. intros e' [= <-]. by exists c.
  - destruct (required fails l) as [d e]. cbn [fst snd] in *. split_and!; [|by intros Hn; rewrite IH2|done].
    intros x [-> |Hx]%elem_of_cons; [by left|right; by apply IH1].
Qed.
Lemma best_effort_all fails l : (∀ c, match fails c with Some e => _SOCKOPT_ERRORS e = true | None => True end) →
  best_effort fails l = (l, None).
Proof.
  intros Hf. induction l as [|c l IH]; [done|]. cbn [best_effort]. specialize (Hf c). rewrite IH. destruct (fails c); [by rewrite Hf|done].
Qed.
(** A problem with socket options never ends a connection: it is reported, keepalive is asked for first, and where
    the platform has the timing options a mapping that gets no report has had its times set; data in flight is given up
    only sooner than Linux would. *)
Theorem keepalive_safe exn_text p fails sock net :
  (∀ c, match fails c with Some e => _SOCKOPT_ERRORS e = true | None => True end) →
  let '(calls, r) := apply_keepalive exn_text p fails sock net in
  (∃ w, r = Ok w)
  ∧ (r = Ok None → ka_on net = true → head calls = Some (SetOpt "SO_KEEPALIVE" 1)
     ∧ (tcp_keepintvl p = true → ∀ o, idle_opt p = Some o → SetOpt o (ka_idle net) ∈ calls ∧ SetOpt "TCP_KEEPINTVL" (ka_interval net) ∈ calls))
  ∧ ∀ ms, SetOpt "TCP_USER_TIMEOUT" ms ∈ calls → ms < _LINUX_DATA_GIVE_UP_S * 1000.
Proof.
  intros Hf. unfold apply_keepalive. destruct (ka_on net); cbn [negb]; [|by split_and!; [eexists|..|intros ? ?%elem_of_nil]].
  destruct sock; cbn [negb]; [|by split_and!; [eexists|..|intros ? ?%elem_of_nil]].
  unfold enable_keepalive. destruct (required_calls fails [SetOpt "SO_KEEPALIVE" 1]) as (A1 & A2 & A3).
  destruct (required fails [SetOpt "SO_KEEPALIVE" 1]) as [l1 [e|]]; cbn [fst snd] in *.
  { destruct (A3 e eq_refl) as [c Hc]. specialize (Hf c). rewrite Hc in Hf. rewrite Hf. split_and!; [by eexists|done|].
    intros ms Hm. apply A1, list_elem_of_singleton in Hm. discriminate Hm. }
  rewrite A2 by done. destruct (if tcp_keepintvl p then idle_opt p else None) as [o|] eqn:Eo.
  - assert (tcp_keepintvl p = true ∧ idle_opt p = Some o) as [Hi Ho] by (by destruct (tcp_keepintvl p)).
    assert (o ≠ "TCP_USER_TIMEOUT"%string) as Hne.
    { intros ->. unfold idle_opt in Ho. destruct (tcp_keepidle p); [done|]. by destruct (_ && _). }
    destruct (required_calls fails [SetOpt o (ka_idle net); SetOpt "TCP_KEEPINTVL" (ka_interval net)]) as (B1 & B2 & B3).
    destruct (required fails [SetOpt o _; _]) as [l2 [e|]]; cbn [fst snd] in *.
    { destruct (B3 e eq_refl) as [c Hc]. specialize (Hf c). rewrite Hc in Hf. rewrite Hf. split_and!; [by eexists|done|].
      intros ms [Hm%list_elem_of_singleton|Hm%B1]%elem_of_app; [discriminate Hm|].
      apply elem_of_cons in Hm as [[= <- _]|Hm%list_elem_of_singleton]; [done|discriminate Hm]. }
    rewrite B2 by done. rewrite best_effort_all by done. split_and!; [by eexists| |].
    + intros _ _. split; [done|]. intros _ o' Ho'. rewrite Ho in Ho'. injection Ho' as <-. rewrite !elem_of_app, !elem_of_cons. tauto.
    + intros ms. rewrite !elem_of_app, !elem_of_cons. intros [[Hm|Hm]|[[Hm|[Hm|Hm]]|[Hm|Hm]]].
      * discriminate Hm.
      * by apply elem_of_nil in Hm.
      * by injection Hm as <- _.
      * discriminate Hm.
      * by apply elem_of_nil in Hm.
      * destruct (tcp_keepcnt p); [apply list_elem_of_singleton in Hm; discriminate Hm|by apply elem_of_nil in Hm].
      * destruct (linux p && _ && _) eqn:El; [|by apply elem_of_nil in Hm]. apply list_elem_of_singleton in Hm. injection Hm as ->.
        zbool. lia.
  - destruct (sio_keepalive_vals p).
    + destruct (required_calls fails [Ioctl (ka_idle net * 1000) (ka_interval net * 1000)]) as (B1 & B2 & B3).
      destruct (required fails [Ioctl _ _]) as [l2 e]; cbn [fst snd] in *.
      assert (∀ ms, SetOpt "TCP_USER_TIMEOUT" ms ∈ [SetOpt "SO_KEEPALIVE" 1] ++ l2 → ms < 900 * 1000) as Hms.
      { intros ms [Hm%list_elem_of_singleton|Hm%B1%list_elem_of_singleton]%elem_of_app; discriminate Hm. }
      destruct e as [e|].
      * destruct (B3 e eq_refl) as [c Hc]. specialize (Hf c). rewrite Hc in Hf. rewrite Hf. by split_and!; [eexists|..].
      * split_and!; [by eexists| |done]. intros _ _. split; [done|]. intros Hi o' Ho'. by rewrite Hi, Ho' in Eo.
    + split_and!; [by eexists| |intros ms Hm%list_elem_of_singleton; discriminate Hm]. intros _ _. split; [done|]. intros Hi o' Ho'.
      by rewrite Hi, Ho' in Eo.
Qed.

(** ** A port is never left open *)
Section leak.
Context (repr : pyval → pystr).

(** opening a mapping's port either gives the port, on the device asked for (the first present one with the identity
    the mapping is bound to, else its path), or raises with nothing left open, as long as the RS-485 delays are numbers; a control line
    is set only when asked to. *)
Theorem open_serial_clean win32 comports opens s :
  (truthy (rs485_enabled (advanced s)) = true → ∃ r, rs485_settings (advanced s) = Ok r) →
  match open_serial repr win32 comports opens s with
  | (Ok o, still_open) =>
      still_open = true ∧ opens (serial_args win32 s (o_device o)) = Ok tt
      ∧ (o_device o = s_port s ∨ ∃ p d, p ∈ comports ∧ s_match s = VDict d ∧ _match_port repr p (List.filter (λ kv, truthy kv.2) d) = true
                                       ∧ o_device o = VStr (pi_device p))
      ∧ (∀ b, o_rts o = Some b → b = eq_str (rts_on_open s) (str "on")) ∧ (eq_str (rts_on_open s) (str "keep") = true → o_rts o = None)
  | (Raise _, still_open) => still_open = false
  end.
Proof.
  intros Hr. unfold open_serial. destruct (resolve_device repr comports s) as [device|e] eqn:Ed; [|done].
  destruct (opens _) as [[]|e] eqn:Eo; [|done].
  assert (∃ r, rs485_settings (advanced s) = Ok r) as [r ->].
  { destruct (truthy (rs485_enabled (advanced s))) eqn:E; [by apply Hr|]. unfold rs485_settings. rewrite E. by eexists. }
  cbn [o_device o_rts]. split_and!; [done|done| | |].
  - unfold resolve_device in Ed. destruct (truthy (s_match s)); cbn [mbind res_bind] in Ed.
    + destruct (s_match s) as [| | | | | | |d]; try done. cbn [mbind res_bind] in Ed.
      destruct (List.filter _ d) as [|kv want] eqn:Ew; [left; by injection Ed as <-|].
      destruct (find _ comports) as [p|] eqn:Ef; injection Ed as <-; [right|by left].
      apply find_some in Ef as [Hin Hm]. exists p, d. split_and!; [by apply list_elem_of_In|done|by rewrite Ew|done].
    + left. by injection Ed as <-.
  - unfold line_state. intros b. destruct (in_strs _ _); [|done]. by intros [= <-].
  - unfold line_state. intros Hk. unfold eq_str in *. destruct (rts_on_open s); try done. apply str_eqb_eq in Hk as ->. reflexivity.
Qed.
End leak.

Definition usb_port : ListPortInfo :=
  mkPort (str "/dev/ttyUSB3") None None VNone (VInt 1027) (VInt 24577) (VStr (str "A1")) VNone VNone VNone.
Definition usb_serial (m : list (pystr * pyval)) (delay : pyval) : SerialSettings :=
  mkSerial (VStr (str "/dev/ttyUSB0")) (VDict m) (VInt 9600) (VInt 8) (VStr (str "N")) (VInt 1) (VStr (str "none")) (VStr (str "on"))
    (VStr (str "keep")) (VBool true) (mkAdvanced (VBool true) delay (VInt 0) (VBool true) (VBool false) (VBool false)).
Definition always_opens (a : open_args) : res unit := Ok tt.
Lemma open_serial_clean_witness :
  let s := usb_serial [key "vid" (VStr (str "0403")); key "pid" (VStr (str "6001"))] (VInt 5) in
  match open_serial (λ _, []) false [usb_port] always_opens s with
  | (Ok o, still_open) =>
      still_open = true ∧ always_opens (serial_args false s (o_device o)) = Ok tt
      ∧ (o_device o = s_port s ∨ ∃ p d, p ∈ [usb_port] ∧ s_match s = VDict d ∧ _match_port (λ _, []) p (List.filter (λ kv, truthy kv.2) d) = true
                                       ∧ o_device o = VStr (pi_device p))
      ∧ (∀ b, o_rts o = Some b → b = eq_str (rts_on_open s) (str "on")) ∧ (eq_str (rts_on_open s) (str "keep") = true → o_rts o = None)
  | (Raise _, still_open) => still_open = false
  end.
Proof. apply (open_serial_clean (λ _, [])). intros _. eexists. vm_compute. reflexivity. Defined.

(** An RS-485 delay that is no number passes validation (only its form field checks it); opening then raises after the
    port is open, and nobody closes it. *)
Example rs485_text_leaks :
  let s := usb_serial [] (VStr (str "5")) in
  (serial_validate s, open_serial (λ _, []) false [] always_opens s) =
  (Ok tt, (Raise (Exn TypeError "unsupported operand type(s) for /"), true)).
Proof. vm_compute. reflexivity. Qed.
(** A binding that names none of the four identities matches every port: the first one of the machine is opened. *)
Example unknown_key_matches_any :
  resolve_device (λ _, []) [usb_port] (usb_serial [key "product" (VStr (str "Scale"))] (VInt 0)) = Ok (VStr (str "/dev/ttyUSB3")).
Proof. vm_compute. reflexivity. Qed.

(** ** Addresses to listen on *)
(** [say] translates; [nics] is what psutil (or the resolver) lists, [primary] the address of the default route. *)
Record ip_item := mkItem { i_value : pystr; i_label : pystr; i_kind : string }.
Definition pair_leb (a b : pystr * pystr) : bool :=
  if str_eqb a.1 b.1 then str_leb a.2 b.2 else str_leb a.1 b.1.
Fixpoint unique_pairs (l : list (pystr * pystr)) : list (pystr * pystr) :=
  match l with
  | [] => []
  | x :: l => if existsb (λ y, str_eqb x.1 y.1 && str_eqb x.2 y.2) l then unique_pairs l else x :: unique_pairs l
  end.
Fixpoint lan_items (say : string → pystr) (primary : option pystr) (seen : list pystr) (nics : list (pystr * pystr)) : list ip_item :=
  match nics with
  | [] => []
  | (ifname, ip) :: nics =>
      if existsb (str_eqb ip) seen then lan_items say primary seen nics
      else
        let label := match ifname with [] => ip | _ => ifname ++ [32; 8212; 32] ++ ip end in
        let label := if match primary with Some p => str_eqb ip p | None => false end then label ++ str "  " ++ say "(primary)"%string else label in
        mkItem ip label "lan" :: lan_items say primary (ip :: seen) nics
  end.
Definition list_ip_candidates (say : string → pystr) (primary : option pystr) (nics : list (pystr * pystr)) : list ip_item :=
  mkItem (str "0.0.0.0") (say "All interfaces (0.0.0.0)"%string) "all"
  :: mkItem (str "127.0.0.1") (say "Localhost (127.0.0.1)"%string) "loopback"
  :: lan_items say primary [str "0.0.0.0"; str "127.0.0.1"] (sort_by pair_leb (unique_pairs nics)).
Lemma lan_items_new say primary seen nics :
  NoDup (i_value <$> lan_items say primary seen nics) ∧ ∀ v, v ∈ i_value <$> lan_items say primary seen nics → v ∉ seen.
Proof.
  revert seen. induction nics as [|[ifname ip] nics IH]; intros seen; cbn [lan_items].
  { split; [constructor|]. by intros v ?%elem_of_nil. }
  destruct (existsb (str_eqb ip) seen) eqn:E; [apply IH|]. destruct (IH (ip :: seen)) as [H1 H2]. cbn [fmap list_fmap i_value]. split.
  - constructor; [|done]. intros Hin. apply (H2 ip Hin). by left.
  - intros v [-> |Hv]%elem_of_cons.
    + intros Hin. rewrite <- not_true_iff_false in E. apply E, existsb_exists. exists ip. split; [by apply list_elem_of_In|apply str_eqb_refl].
    + intros Hin. apply (H2 v Hv). by right.
Qed.
Lemma candidates_distinct say primary nics : NoDup (i_value <$> list_ip_candidates say primary nics).
Proof.
  unfold list_ip_candidates. cbn [fmap list_fmap i_value]. destruct (lan_items_new say primary [str "0.0.0.0"; str "127.0.0.1"] (sort_by pair_leb (unique_pairs nics))) as [H1 H2].
  constructor.
  - intros [E|Hin]%elem_of_cons; [discriminate E|]. apply (H2 _ Hin). by left.
  - constructor; [|done]. intros Hin. apply (H2 _ Hin). right. by left.
Qed.
(** [_nic_addresses]: [psutil] is what it lists (interface, whether its state is known and down, its IPv4 addresses), [None] when it is missing or
    fails before it lists any; [resolved] the host's addresses, [None] when they cannot be resolved. *)
Definition loopback_text (ip : pystr) : bool := starts_with ip (str "127.").
Definition _nic_addresses (psutil : option (list (pystr * bool * list pystr))) (resolved : option (list pystr)) : list (pystr * pystr) :=
  match psutil with
  | Some nics => nics ≫= λ '(name, down, ips), if (down : bool) then [] else (λ ip, (name, ip)) <$> List.filter (λ ip, negb (is_empty ip) && negb (loopback_text ip)) ips
  | None => (λ ip, ([], ip)) <$> List.filter (λ ip, negb (loopback_text ip)) (default [] resolved)
  end.
(** [primary_lan_ip]: the address of a datagram socket towards the outside, when one can be made. *)
Definition primary_lan_ip (sockname : option pystr) : option pystr := ip ← sockname; if loopback_text ip then None else Some ip.
(** Every address offered besides the two fixed ones is one the machine has, and none is a loopback address. *)
Lemma nic_no_loopback psutil resolved name ip : (name, ip) ∈ _nic_addresses psutil resolved → loopback_text ip = false.
Proof.
  unfold _nic_addresses. destruct psutil as [nics|].
  - intros ([[n down] ips] & H & _)%list_elem_of_bind. destruct down; [by apply elem_of_nil in H|].
    apply list_elem_of_fmap in H as (ip' & [= _ ->] & H). apply list_elem_of_In, filter_In in H as [_ H]. apply andb_true_iff in H as [_ H%negb_true_iff]. done.
  - intros (ip' & [= _ ->] & H)%list_elem_of_fmap. apply list_elem_of_In, filter_In in H as [_ H%negb_true_iff]. done.
Qed.

(** ** Writing to the port when the system takes only part of it
    The serial transport keeps what could not be written and asks to be called when the port is writable. [_write_ready] replaces the
    library's method; its other methods are parameters: [_write_data] hands bytes to the port and keeps the rest, [resume] lets the
    protocol write again. [tr_handed] is what [_write_data] was given, in order. *)
Record transport := mkTransport { _write_buffer : list bytes; tr_armed : bool; _closing : bool; tr_written : bytes; tr_handed : list bytes }.
Definition set_buffer (b : list bytes) (t : transport) : transport := mkTransport b (tr_armed t) (_closing t) (tr_written t) (tr_handed t).
Definition _remove_writer (t : transport) : transport := mkTransport (_write_buffer t) false (_closing t) (tr_written t) (tr_handed t).
Definition hand (d : bytes) (t : transport) : transport := mkTransport (_write_buffer t) (tr_armed t) (_closing t) (tr_written t) (tr_handed t ++ [d]).
Section transport.
Context (_write_data : bytes → transport → transport) (resume : transport → transport).
Definition _write_ready (t : transport) : transport :=
  match _write_buffer t with
  | [] => _remove_writer t
  | bufs =>
      let data := concat bufs in
      let t := resume (_write_data data (hand data (set_buffer [] t))) in
      if match _write_buffer t with [] => negb (_closing t) | _ => false end then _remove_writer t else t
  end.
(** What the library's methods do: some first part of the bytes is written and the rest put back, with the writer asked for;
    resuming only appends, and asks for the writer too. *)
Definition partial_write : Prop := ∀ d t, _write_buffer t = [] →
  ∃ out rest, d = out ++ rest ∧ tr_written (_write_data d t) = tr_written t ++ out ∧ tr_handed (_write_data d t) = tr_handed t
    ∧ _write_buffer (_write_data d t) = (match rest with [] => [] | _ => [rest] end)
    ∧ (rest ≠ [] → tr_armed (_write_data d t) = true).
Definition appending : Prop := ∀ t, ∃ more, _write_buffer (resume t) = _write_buffer t ++ more ∧ tr_written (resume t) = tr_written t ∧ tr_handed (resume t) = tr_handed t
    ∧ Forall (λ b, b ≠ []) more ∧ (tr_armed t = true ∨ more ≠ [] → tr_armed (resume t) = true).
(** Nothing is lost or reordered; the library is never given nothing to write, which it asserts; and the writer stays
    armed exactly while something is left, unless the transport is closing: no busy loop, and no rest that waits for ever. *)
Lemma write_ready_exact t :
  partial_write → appending → Forall (λ b, b ≠ []) (_write_buffer t) →
  let t' := _write_ready t in
  (∃ more, tr_written t' ++ concat (_write_buffer t') = tr_written t ++ concat (_write_buffer t) ++ more)
  ∧ (∀ d, d ∈ tr_handed t' → d ∈ tr_handed t ∨ d ≠ [])
  ∧ Forall (λ b, b ≠ []) (_write_buffer t')
  ∧ (_write_buffer t' = [] → _closing t' = false → tr_armed t' = false)
  ∧ (_write_buffer t' ≠ [] → tr_armed t' = true).
Proof.
  intros Hp Hr Hb. unfold _write_ready. destruct (_write_buffer t) as [|b bufs] eqn:Eb.
  { cbn. rewrite Eb. split_and!; try done; [by exists []|by left]. }
  cbn zeta. remember (concat (b :: bufs)) as d eqn:Edd. destruct (Hp d (hand d (set_buffer [] t)) eq_refl) as (out & rest & Ed & Hw & Hh & Hbuf & Ha).
  destruct (Hr (_write_data d (hand d (set_buffer [] t)))) as (more & Hbuf' & Hw' & Hh' & Hm & Ha').
  set (t1 := resume _) in *. rewrite Hbuf in Hbuf'. cbn in Hw, Hh.
  assert (d ≠ []) as Hd by (apply Forall_cons in Hb as [Hb _]; rewrite Edd; cbn; by destruct b).
  assert (∃ more, tr_written t1 ++ concat (_write_buffer t1) = tr_written t ++ d ++ more) as Hsame.
  { exists (concat more). rewrite Hw', Hw, Hbuf', Ed, concat_app. destruct rest; cbn; by rewrite ?app_nil_r, <- !app_assoc. }
  assert (∀ x, x ∈ tr_handed t1 → x ∈ tr_handed t ∨ x ≠ []) as Hhand.
  { intros x. rewrite Hh', Hh, elem_of_app, list_elem_of_singleton. intros [?| ->]; [by left|by right]. }
  assert (Forall (λ b, b ≠ []) (_write_buffer t1)) as Hne by (rewrite Hbuf'; apply Forall_app; split; [by destruct rest; repeat constructor|done]).
  assert (_write_buffer t1 ≠ [] → tr_armed t1 = true) as Harm.
  { intros Hn. apply Ha'. destruct rest; [right|left; by apply Ha]. rewrite Hbuf' in Hn. done. }
  destruct (_write_buffer t1) eqn:E1; [destruct (negb (_closing t1)) eqn:Ec|]; cbn; rewrite ?E1; split_and!; try done.
  intros _ Hc. by rewrite Hc in Ec.
Qed.
End transport.
(** The upstream method kept the writer armed after the last byte, so it was called again with nothing to write. *)
Example writes_in_parts :
  let write d t := mkTransport (match drop 3 d with [] => [] | r => [r] end) true (_closing t) (tr_written t ++ take 3 d) (tr_handed t) in
  let runs n := Nat.iter n (_write_ready write (λ t, t)) (mkTransport [[1; 2]; [3; 4]] true false [] []) in
  ((_write_buffer (runs 1%nat), tr_armed (runs 1%nat)), (tr_written (runs 2%nat), tr_armed (runs 2%nat))) = (([[4]], true), ([1; 2; 3; 4], false)).
Proof. vm_compute. reflexivity. Qed.
