(* ===== verification/Ops.v ===== *)
(** * Changing mappings (app/web/routes/ops.py, app/web/api.py, the import of settings.py)

    The application's state is the configuration in memory, the data directory and the engine. An
    operation changes the configuration and saves it while it holds the lock, and then calls the
    engine; here operations run one after the other. [env] is what one of them finds outside: which
    disk changes and runner starts succeed, the time, fresh ids and the detected ports. *)
From Stdlib Require Import SpecFloat.
From S2P Require Import Prelude PyFloat PyStr PyVal IpAddr PyNum Json JsonOut Config AppConfig Store ConfigStore Supervisor Importer Forms.
#[local] Open Scope Z_scope.

(** The engine knows a mapping by its id. *)
#[export] Instance MappingConfig_Mapping : Mapping MappingConfig :=
  {| mid := λ m, match id m with VStr s => s | _ => [] end; menabled := enabled |}.

Record state := mkState {
  config : AppConfig;
  disk : fs;
  engine : sup (M:=MappingConfig);
}.
Record env := mkEnv {
  e_stamp : pystr;
  e_done : change → bool;
  e_written : bool;
  e_starts : MappingConfig → bool;
  e_fresh : nat → pystr;
  e_ports : list port_info;
}.
Definition with_mappings (ms : list MappingConfig) (c : AppConfig) : AppConfig :=
  mkApp (version c) (admin_ui c) (secret_key c) (api_token_hash c) (api_token_role c) (session_timeout_s c)
    (users c) (ldap c) (oidc c) (cluster c) (notifications c) (instance_id c) (defaults c) ms.
Definition set_mappings (ms : list MappingConfig) (s : state) : state :=
  mkState (with_mappings ms (config s)) (disk s) (engine s).
Definition set_disk (d : fs) (s : state) : state := mkState (config s) d (engine s).
Definition set_engine (f : sup (M:=MappingConfig) → sup (M:=MappingConfig)) (s : state) : state :=
  mkState (config s) (disk s) (f (engine s)).
Definition set_enabled (b : bool) (m : MappingConfig) : MappingConfig :=
  mkMapping (id m) (name m) b (kind m) (serial m) (serial_b m) (network m) (options m) (mqtt m) (modbus_poll m).

(** What the caller sees. *)
Inductive outcome := Done (name : pyval) | Refused (e : exn) | Raised (e : exn).

(** Replace the first mapping with the id [i], else append. *)
Fixpoint put_at (i : pyval) (m : MappingConfig) (ms : list MappingConfig) : list MappingConfig :=
  match ms with
  | [] => [m]
  | x :: ms' => if py_eq (id x) i then m :: ms' else x :: put_at i m ms'
  end.
(** Remove the first mapping with the id. *)
Fixpoint drop_mapping (i : pyval) (ms : list MappingConfig) : list MappingConfig :=
  match ms with
  | [] => []
  | x :: ms' => if py_eq (id x) i then ms' else x :: drop_mapping i ms'
  end.

Section ops.
Context (word : Z → bool) (repr : pyval → pystr) (isfile : pystr → bool) (e : env).

Definition value_error (x : exn) : bool := match exn_cls x with ValueError | ConfigError => true | _ => false end.
Definition config_error (x : exn) : bool := match exn_cls x with ConfigError => true | _ => false end.
Definition asave (s : state) : res unit * fs :=
  save repr isfile (e_done e) (e_written e) (e_stamp e) (config s) (disk s).
(** Mutate and save under the lock; a refused configuration is rolled back. *)
Definition commit (ms : list MappingConfig) (s : state) (next : state → outcome * state) : outcome * state :=
  let s1 := set_mappings ms s in
  match asave s1 with
  | (Ok _, d) => next (set_disk d s1)
  | (Raise x, d) => if config_error x then (Refused x, set_disk d s) else (Raised x, set_disk d s1)
  end.
(** The same without the rollback: the mutation stays in memory. *)
Definition commit_raising (ms : list MappingConfig) (s : state) (next : state → outcome * state) : outcome * state :=
  let s1 := set_mappings ms s in
  match asave s1 with
  | (Ok _, d) => next (set_disk d s1)
  | (Raise x, d) => (Raised x, set_disk d s1)
  end.
Definition apply_to_engine (m : MappingConfig) (s : state) : outcome * state :=
  (Done (name m), set_engine (apply_mapping (e_starts e) m) s).

(** ** The operations of ops.py *)
Definition parse_form (f : form) (s : state) : res MappingConfig :=
  d ← _mapping_from_form f;
  m ← mapping_from_dict word repr (e_fresh e 0) d;
  let existing := get_mapping (id m) (mappings (config s)) in
  m ← apply_usb_match f (e_ports e) existing (_preserve_unmanaged_fields f m existing);
  _ ← mapping_validate isfile m;
  Ok m.
Definition save_mapping_from_form (f : form) (s : state) : outcome * state :=
  match parse_form f s with
  | Raise x => (if value_error x then Refused x else Raised x, s)
  | Ok m => commit (put_at (id m) m (mappings (config s))) s (apply_to_engine m)
  end.
Definition not_found : outcome := Refused (Exn ConfigError "Mapping not found").
Definition apply_action (mid' action : pystr) (s : state) : outcome * state :=
  match get_mapping (VStr mid') (mappings (config s)) with
  | None => (not_found, s)
  | Some m =>
      let stop := str_eqb action (str "stop") in
      let m' := set_enabled (negb stop) m in
      commit_raising (put_at (VStr mid') m' (mappings (config s))) s
        (λ s, (Done (name m'),
               set_engine (if stop then stop_mapping (e_starts e) mid'
                           else if str_eqb action (str "restart") then restart_mapping (e_starts e) m'
                           else apply_mapping (e_starts e) m') s))
  end.
Definition delete_mapping (mid' : pystr) (s : state) : outcome * state :=
  match get_mapping (VStr mid') (mappings (config s)) with
  | None => (not_found, s)
  | Some m =>
      commit_raising (drop_mapping (VStr mid') (mappings (config s))) s
        (λ s, (Done (name m), set_engine (remove_mapping (e_starts e) mid') s))
  end.

(** ** The REST API; a body that is not JSON is [None] *)
Definition body_dict (body : option pyval) : res (list (pystr * pyval)) :=
  match body with
  | Some (VDict d) => Ok d
  | Some _ => raise ValueError "object expected"
  | None => raise ValueError "invalid_json"
  end.
Definition pop (k : string) (d : list (pystr * pyval)) : list (pystr * pyval) :=
  List.filter (λ kv, negb (str_eqb kv.1 (str k))) d.
Arguments pop k%_string d.
Definition parse_body (body : option pyval) (i : option pystr) : res MappingConfig :=
  d ← body_dict body;
  let d := pop "status" (match i with None => pop "id" d | Some s => dict_set (str "id") (VStr s) d end) in
  m ← mapping_from_dict word repr (e_fresh e 0) (VDict d);
  _ ← mapping_validate isfile m;
  Ok m.
Definition create_mapping (body : option pyval) (s : state) : outcome * state :=
  match parse_body body None with
  | Raise x => (if value_error x then Refused x else Raised x, s)
  | Ok m => commit (mappings (config s) ++ [m]) s (apply_to_engine m)
  end.
Definition update_mapping (mid' : pystr) (body : option pyval) (s : state) : outcome * state :=
  match parse_body body (Some mid') with
  | Raise x => (if value_error x then Refused x else Raised x, s)
  | Ok m =>
      match get_mapping (VStr mid') (mappings (config s)) with
      | None => (not_found, s)
      | Some _ => commit (put_at (VStr mid') m (mappings (config s))) s (apply_to_engine m)
      end
  end.
Definition mapping_action (mid' action : pystr) (s : state) : outcome * state :=
  if existsb (str_eqb action) (str <$> ["start"; "stop"; "restart"]%string) then apply_action mid' action s
  else (Refused (Exn ValueError "unknown_action"), s).

(** ** Duplicating a mapping, and actions on several (routes/mappings.py) *)
Definition set_port (p : pyval) (n : NetworkSettings) : NetworkSettings :=
  mkNetwork (mode n) (protocol n) (bind_ip n) p (remote_host n) (remote_port n) (max_connections n)
    (kick_old_user n) (allowed_client_ips n) (priority_client_ips n) (read_only n) (client_queue_max n)
    (tcp_keepalive n) (keepalive_idle_s n) (keepalive_interval_s n) (keepalive_count n) (connect_timeout_s n)
    (tls n) (tls_cert n) (tls_key n).
Definition set_network (n : NetworkSettings) (m : MappingConfig) : MappingConfig :=
  mkMapping (id m) (name m) (enabled m) (kind m) (serial m) (serial_b m) n (options m) (mqtt m) (modbus_poll m).
(** [port < 65535] *)
Definition below_max (v : pyval) : res bool :=
  match v with
  | VInt _ | VBool _ => Ok (int_of v <? 65535)
  | VFloat f => Ok (match fcompare_Z f 65535 with Some Lt => true | _ => false end)
  | _ => raise TypeError "'<' not supported"
  end.
(** The while loop: each turn passes one more of the used ports, so their number bounds it. *)
Fixpoint free_port (fuel : nat) (used : list pyval) (p : pyval) : res pyval :=
  if negb (hashable p) then raise TypeError "unhashable type"
  else if negb (existsb (py_eq p) used) then Ok p
  else
    b ← below_max p;
    if negb b then Ok p
    else match fuel with O => raise OutOfFuel "" | S fuel' => p' ← bump p; free_port fuel' used p' end.
Definition duplicate_of (m : MappingConfig) (ms : list MappingConfig) : res MappingConfig :=
  d ← as_dict (mapping_to_dict m);
  dup ← mapping_from_dict word repr (e_fresh e 0)
          (VDict (dict_set (str "enabled") (VBool false)
                   (dict_set (str "name") (VStr (str_of_val repr (name m) ++ str " (copy)")) (pop "id" d))));
  if eq_str (kind dup) (str "net") && listens (network dup) then
    let used := (λ m, port (network m)) <$> List.filter (λ m, eq_str (kind m) (str "net")) ms in
    _ ← raise_if (negb (forallb hashable used)) TypeError "unhashable type";
    p ← free_port (S (length used)) used (port (network dup));
    Ok (set_network (set_port p (network dup)) dup)
  else Ok dup.
Definition mapping_duplicate (mid' : pystr) (s : state) : outcome * state :=
  match get_mapping (VStr mid') (mappings (config s)) with
  | None => (not_found, s)
  | Some m =>
      match duplicate_of m (mappings (config s)) with
      | Raise x => (Raised x, s)
      | Ok dup => commit (mappings (config s) ++ [dup]) s (λ s, (Done (name dup), s))
      end
  end.
(** Each selected mapping in turn; an exception ends the request. *)
Fixpoint bulk_actions (action : pystr) (ids : list pystr) (s : state) : outcome * state :=
  match ids with
  | [] => (Done (vstr ""), s)
  | i :: ids' =>
      match apply_action i action s with
      | (Raised x, s') => (Raised x, s')
      | (_, s') => bulk_actions action ids' s'
      end
  end.
Definition mapping_bulk (action : pystr) (ids : list pystr) (s : state) : outcome * state :=
  let ids := List.filter (λ i, negb (is_empty i)) ids in
  if negb (existsb (str_eqb action) (str <$> ["start"; "stop"; "restart"]%string)) then (Refused (Exn ValueError "Unknown action"), s)
  else if match ids with [] => true | _ => false end || (500 <? zlen ids) then (Refused (Exn ValueError "Select one or more mappings."), s)
  else bulk_actions action ids s.

(** ** Applying an import *)
Definition import_mappings (plan : list MappingConfig) (mode : pystr) (s : state) : outcome * state :=
  match plan_rows word repr (e_fresh e 0) (mappings (config s)) plan mode with
  | Raise x => (Raised x, s)
  | Ok _ =>
      match apply_import word repr (e_fresh e) (mappings (config s)) plan mode with
      | Raise x => (Raised x, s)
      | Ok (new_maps, touched) =>
          commit new_maps s (λ s,
            (Done (vstr ""),
             set_engine (if str_eqb mode (str "replace")
                         then λ g, start_all (e_starts e) new_maps (stop_all g)
                         else λ g, foldl (λ g m, apply_mapping (e_starts e) m g) g touched) s))
      end
  end.

Inductive op :=
  | SaveForm (f : form) | Create (body : option pyval) | Update (mid' : pystr) (body : option pyval)
  | Delete (mid' : pystr) | Action (mid' action : pystr) | Duplicate (mid' : pystr) | Import (plan : list MappingConfig) (mode : pystr).
Definition run (o : op) (s : state) : outcome * state :=
  match o with
  | SaveForm f => save_mapping_from_form f s
  | Create body => create_mapping body s
  | Update i body => update_mapping i body s
  | Delete i => delete_mapping i s
  | Action i a => mapping_action i a s
  | Duplicate i => mapping_duplicate i s
  | Import plan mode => import_mappings plan mode s
  end.
End ops.

(** ** A duplicate gets a free port *)
Lemma int_eq_once u x y : py_eq (VInt x) u = true → py_eq (VInt y) u = true → x = y.
Proof.
  destruct u as [|b|z|f| | | |]; cbn; try done; rewrite ?Z.eqb_eq; try congruence.
  destruct f as [s|s| |s m ex]; cbn; try done; [|by destruct s|].
  - destruct x, y; done.
  - destruct (Z.leb_spec 0 ex).
    + destruct (Z.compare_spec (cond_Zopp s (Z.pos m) * 2 ^ ex) x), (Z.compare_spec (cond_Zopp s (Z.pos m) * 2 ^ ex) y); congruence.
    + destruct (Z.compare_spec (cond_Zopp s (Z.pos m)) (x * 2 ^ (- ex))) as [E|?|?]; try done.
      destruct (Z.compare_spec (cond_Zopp s (Z.pos m)) (y * 2 ^ (- ex))) as [E'|?|?]; try done. intros _ _.
      pose proof (Z.pow_pos_nonneg 2 (- ex)). nia.
Qed.
Lemma used_filter p q used : q ≠ p →
  existsb (py_eq (VInt q)) (List.filter (λ u, negb (py_eq (VInt p) u)) used) = existsb (py_eq (VInt q)) used.
Proof.
  intros Hq. induction used as [|u used IH]; [done|]. cbn [List.filter existsb].
  destruct (py_eq (VInt p) u) eqn:Ep; cbn [negb existsb]; rewrite IH; [|done].
  destruct (py_eq (VInt q) u) eqn:Eq; [|done]. by destruct Hq; eapply int_eq_once.
Qed.
Lemma free_port_filter fuel p q used : p < q →
  free_port fuel (List.filter (λ u, negb (py_eq (VInt p) u)) used) (VInt q) = free_port fuel used (VInt q).
Proof.
  revert q. induction fuel as [|fuel IH]; intros q Hq; cbn [free_port hashable negb]; rewrite used_filter by lia; [done|].
  destruct (existsb _ _); [|done]. cbn [below_max mbind res_bind int_of negb bump]. destruct (q <? 65535); [|done]. cbn [negb].
  apply IH. lia.
Qed.
Lemma filter_shorter {A} (f : A → bool) l : existsb f l = true → (length (List.filter (λ x, negb (f x)) l) < length l)%nat.
Proof.
  assert (∀ k, (length (List.filter (λ x, negb (f x)) k) <= length k)%nat) as Hle.
  { intros k. induction k as [|x k IH]; cbn; [lia|]. destruct (f x); cbn; lia. }
  induction l as [|x l IH]; cbn; [done|]. specialize (Hle l). destruct (f x); cbn; [lia|]. intros H. specialize (IH H). lia.
Qed.
(** The loop of a duplicate always ends, at the first port that no other mapping uses, or at 65535. *)
Lemma free_port_found fuel used p : (length used < fuel)%nat →
  ∃ q, free_port fuel used (VInt p) = Ok (VInt q) ∧ p <= q <= Z.max p 65535
    ∧ (existsb (py_eq (VInt q)) used = false ∨ 65535 <= q)
    ∧ ∀ x, p <= x < q → existsb (py_eq (VInt x)) used = true.
Proof.
  revert used p. induction fuel as [|fuel IH]; intros used p Hl; [lia|]. cbn [free_port hashable negb].
  destruct (existsb (py_eq (VInt p)) used) eqn:Eu; cbn [negb]; [|exists p; split_and!; [done|lia..|by left|lia]].
  cbn [below_max mbind res_bind int_of bump]. destruct (Z.ltb_spec p 65535); cbn [negb];
    [|exists p; split_and!; [done|lia..|by right|lia]].
  destruct (IH (List.filter (λ u, negb (py_eq (VInt p) u)) used) (p + 1)) as (q & Eq & Hq & Hf & Hx).
  { pose proof (filter_shorter (py_eq (VInt p)) used Eu). lia. }
  rewrite free_port_filter in Eq by lia. exists q. rewrite used_filter in Hf by lia. split_and!; [done|lia..|done|].
  intros x Hx'. destruct (Z.eq_dec x p) as [->|Hne]; [done|]. rewrite <- (used_filter p) by done. apply Hx. lia.
Qed.

(** ** What an operation keeps *)
Section facts.
Context (word : Z → bool) (repr : pyval → pystr) (isfile : pystr → bool).

(** The runner of a mapping: it runs the mapping (up to the enabled flag, which only the supervisor
    reads) when that is enabled, and is stopped when it is not. *)
Definition settled (m : MappingConfig) (r : runner (M:=MappingConfig)) : Prop :=
  set_enabled true (r_mapping r) = set_enabled true m
  ∧ if enabled m then r_state r = Running ∨ r_state r = Error else r_state r = Stopped.
(** Each mapping has its runner (one that was never started may have none), and nothing else has one. *)
Definition serves (o : option MappingConfig) (r : option (runner (M:=MappingConfig))) : Prop :=
  match o, r with
  | Some m, Some r => settled m r
  | Some m, None => enabled m = false
  | None, None => True
  | None, Some _ => False
  end.
Definition synced (ms : list MappingConfig) (g : sup (M:=MappingConfig)) : Prop :=
  quiet g ∧ ∀ k, serves (get_mapping (VStr k) ms) (get_runner k g).
Record consistent (s : state) : Prop := {
  c_ids : NoDup (id <$> mappings (config s));
  c_str : Forall str_id (mappings (config s));
  c_valid : app_validate repr isfile (config s) = Ok tt;
  c_saved : config_json (disk s) = Some (dumps indented 0 (app_to_dict (config s)));
  c_synced : synced (mappings (config s)) (engine s);
}.

Lemma asave_spec e s :
  match asave repr isfile e s with
  | (Ok _, d) => app_validate repr isfile (config s) = Ok tt
                 ∧ config_json d = Some (dumps indented 0 (app_to_dict (config s)))
  | (Raise x, d) => config_json d = config_json (disk s) ∧ (config_error x = true → d = disk s)
  end.
Proof.
  unfold asave, save, json_dumps. destruct (app_validate repr isfile (config s)) as [[]|x]; [|done].
  destruct (serializable _); [|done]. unfold write_config.
  destruct (utf8_encode _) as [b|x] eqn:E.
  - destruct (e_written e); [done|]. by rewrite backup_current_config.
  - rewrite backup_current_config. split; [done|]. intros Hx.
    destruct x as [[] t]; try done. exfalso. clear Hx. revert E. generalize (dumps indented 0 (app_to_dict (config s))).
    intros l. unfold utf8_encode. destruct (existsb _ _); done.
Qed.

Lemma str_id_eq m k : str_id m → py_eq (id m) (VStr k) = true ↔ id m = VStr k.
Proof.
  unfold str_id. destruct (id m) as [| | | |s| | |]; intros H; try done. rewrite py_eq_str. naive_solver.
Qed.
Lemma mid_str m k : str_id m → id m = VStr k ↔ mid m = k.
Proof. unfold str_id. cbn. destruct (id m); intros; try done. naive_solver. Qed.
Lemma str_id_mid m : str_id m → id m = VStr (mid m).
Proof. intros H. by apply mid_str. Qed.
Lemma get_mapping_Some k ms m : get_mapping (VStr k) ms = Some m → m ∈ ms ∧ py_eq (id m) (VStr k) = true.
Proof. intros [H1 H2]%List.find_some. split; [by apply list_elem_of_In|done]. Qed.
Lemma get_mapping_None k ms m : get_mapping (VStr k) ms = None → m ∈ ms → py_eq (id m) (VStr k) = false.
Proof. intros H Hm%list_elem_of_In. by eapply List.find_none in H. Qed.
Lemma get_mapping_in ms m :
  NoDup (id <$> ms) → Forall str_id ms → m ∈ ms → get_mapping (VStr (mid m)) ms = Some m.
Proof.
  intros Hnd Hs Hm. assert (str_id m) as Hsm by by eapply Forall_forall.
  destruct (get_mapping (VStr (mid m)) ms) as [x|] eqn:E.
  - apply get_mapping_Some in E as [Hx E]. apply str_id_eq in E; [|by eapply Forall_forall].
    apply list_elem_of_lookup_1 in Hx as [i Hi], Hm as [j Hj].
    assert (i = j) as -> by (eapply (NoDup_lookup (id <$> ms) i j (id x)); [done|..];
      rewrite list_lookup_fmap, ?Hi, ?Hj; cbn; rewrite ?E; f_equal; by apply str_id_mid).
    congruence.
  - eapply get_mapping_None in E; [|done]. apply not_true_iff_false in E. destruct E.
    apply str_id_eq; [done|]. by apply str_id_mid.
Qed.
Lemma get_mapping_ids k ms : Forall str_id ms → get_mapping (VStr k) ms = None ↔ VStr k ∉ id <$> ms.
Proof.
  intros Hs. split.
  - intros H (m & E & Hm)%list_elem_of_fmap. eapply get_mapping_None in H; [|done]. apply not_true_iff_false in H.
    destruct H. apply str_id_eq; [by eapply Forall_forall|done].
  - intros H. destruct (get_mapping (VStr k) ms) as [m|] eqn:E; [|done]. exfalso. apply H.
    apply get_mapping_Some in E as [Hm E]. apply str_id_eq in E; [|by eapply Forall_forall].
    rewrite <- E. by apply list_elem_of_fmap_2.
Qed.

(** Putting, dropping and appending mappings. *)
Lemma put_at_get i m ms k :
  Forall str_id ms → id m = VStr i →
  get_mapping (VStr k) (put_at (VStr i) m ms) = if decide (k = i) then Some m else get_mapping (VStr k) ms.
Proof.
  intros Hs Hm. assert (str_id m) as Hsm by (unfold str_id; by rewrite Hm).
  unfold get_mapping. induction Hs as [|x ms Hx _ IH]; cbn [put_at List.find].
  - destruct (py_eq (id m) (VStr k)) eqn:E, (decide (k = i)) as [->|Hne]; try done.
    + apply str_id_eq in E; [congruence|done].
    + apply not_true_iff_false in E. destruct E. by apply str_id_eq.
  - destruct (py_eq (id x) (VStr i)) eqn:E; cbn [List.find].
    + apply str_id_eq in E; [|done]. destruct (decide (k = i)) as [->|Hne].
      * by rewrite (proj2 (str_id_eq m i Hsm) Hm).
      * assert (py_eq (id m) (VStr k) = false) as ->.
        { apply not_true_iff_false. intros H%str_id_eq; [congruence|done]. }
        assert (py_eq (id x) (VStr k) = false) as ->; [|done].
        apply not_true_iff_false. intros H%str_id_eq; [congruence|done].
    + destruct (py_eq (id x) (VStr k)) eqn:Ek; [|done]. rewrite decide_False; [done|]. intros ->.
      by rewrite E in Ek.
Qed.
Lemma put_at_ids i m ms :
  Forall str_id ms → id m = VStr i → NoDup (id <$> ms) →
  NoDup (id <$> put_at (VStr i) m ms) ∧ Forall str_id (put_at (VStr i) m ms).
Proof.
  intros Hs Hm Hnd. assert (str_id m) as Hsm by (unfold str_id; by rewrite Hm).
  assert ((id <$> put_at (VStr i) m ms = id <$> ms ∨ (id <$> put_at (VStr i) m ms = (id <$> ms) ++ [VStr i] ∧ VStr i ∉ id <$> ms))
          ∧ Forall str_id (put_at (VStr i) m ms)) as [[->|[-> Hn]] H]; [|by split..|split; [|done]].
  - clear Hnd. induction Hs as [|x ms Hx Hs IH]; cbn [put_at].
    { split; [right; cbn; rewrite Hm; split; [done|apply not_elem_of_nil]|by apply Forall_singleton]. }
    destruct (py_eq (id x) (VStr i)) eqn:E.
    + apply str_id_eq in E; [|done]. split; [left; rewrite !fmap_cons; congruence|by constructor].
    + destruct IH as [IH1 IH2]. split; [|by constructor]. rewrite !fmap_cons.
      assert (id x ≠ VStr i) as Hne by (intros H; rewrite (proj2 (str_id_eq x i Hx) H) in E; done).
      destruct IH1 as [->|[-> Hn]]; [by left|right]. split; [done|]. by apply not_elem_of_cons.
  - apply NoDup_app. split_and!; [done| |by apply NoDup_singleton].
    intros y Hy Hy'%list_elem_of_singleton. by subst.
Qed.
Lemma drop_get i ms k :
  Forall str_id ms → NoDup (id <$> ms) →
  get_mapping (VStr k) (drop_mapping (VStr i) ms) = if decide (k = i) then None else get_mapping (VStr k) ms.
Proof.
  intros Hs. unfold get_mapping. induction Hs as [|x ms Hx Hs IH]; intros Hnd; cbn [drop_mapping List.find].
  { by destruct (decide _). }
  cbn in Hnd. apply NoDup_cons in Hnd as [Hn Hnd]. destruct (py_eq (id x) (VStr i)) eqn:E.
  - apply str_id_eq in E; [|done]. destruct (decide (k = i)) as [->|Hne].
    + apply get_mapping_ids; [done|]. by rewrite <- E.
    + assert (py_eq (id x) (VStr k) = false) as ->; [|done].
      apply not_true_iff_false. intros H%str_id_eq; [congruence|done].
  - cbn [List.find]. rewrite IH by done. destruct (py_eq (id x) (VStr k)) eqn:Ek; [|done].
    rewrite decide_False; [done|]. intros ->. by rewrite E in Ek.
Qed.
Lemma drop_sublist i ms : drop_mapping i ms `sublist_of` ms.
Proof. induction ms as [|x ms IH]; cbn; [done|]. destruct (py_eq (id x) i); by constructor. Qed.
Lemma drop_ids i ms :
  Forall str_id ms → NoDup (id <$> ms) → NoDup (id <$> drop_mapping i ms) ∧ Forall str_id (drop_mapping i ms).
Proof.
  intros Hs Hnd. pose proof (drop_sublist i ms) as Hsub. split.
  - apply (fmap_sublist id) in Hsub. by eapply sublist_NoDup.
  - apply Forall_forall. intros x Hx. eapply Forall_forall; [exact Hs|]. by eapply elem_of_sublist.
Qed.

(** *** The engine follows *)
Lemma settled_result e m : settled m (mkRunner m (result_of (e_starts e) m)).
Proof.
  split; [done|]. cbn [r_state]. unfold result_of. cbn [menabled]. change (menabled m) with (enabled m).
  destruct (enabled m); [|done]. destruct (e_starts e m); auto.
Qed.
(** A call for mapping [m] that leaves every other mapping alone, when the list changed at its id only. *)
Lemma synced_change i (o : option MappingConfig) ms ms' (g g' : sup (M:=MappingConfig)) :
  synced ms g → quiet g' →
  (∀ k, get_mapping (VStr k) ms' = if decide (k = i) then o else get_mapping (VStr k) ms) →
  (∀ k, k ≠ i → get_runner k g' = get_runner k g) →
  serves o (get_runner i g') →
  synced ms' g'.
Proof.
  intros [Hq Hs] Hq' Hms Hg Ho. split; [done|]. intros k. rewrite Hms. destruct (decide (k = i)) as [->|Hne]; [done|].
  rewrite Hg by done. apply Hs.
Qed.
Lemma synced_apply e i m ms ms' g :
  synced ms g → id m = VStr i →
  (∀ k, get_mapping (VStr k) ms' = if decide (k = i) then Some m else get_mapping (VStr k) ms) →
  synced ms' (apply_mapping (e_starts e) m g) ∧ synced ms' (restart_mapping (e_starts e) m g).
Proof.
  intros Hs Hm Hms. assert (mid m = i) as Hi by (cbn; by rewrite Hm).
  destruct (apply_spec (e_starts e) m g (proj1 Hs)) as (A1 & A2 & A3).
  destruct (restart_spec (e_starts e) m g (proj1 Hs)) as (B1 & B2 & B3). rewrite Hi in A2, A3, B2, B3.
  split; (eapply synced_change; [done..| |]; [done|]); [rewrite A2|rewrite B2]; apply settled_result.
Qed.
Lemma synced_stop e i m ms ms' g :
  synced ms g → get_mapping (VStr i) ms = Some m →
  (∀ k, get_mapping (VStr k) ms' = if decide (k = i) then Some (set_enabled false m) else get_mapping (VStr k) ms) →
  synced ms' (stop_mapping (e_starts e) i g).
Proof.
  intros Hs Hm Hms. destruct (stop_spec (e_starts e) i g (proj1 Hs)) as (A1 & A2 & A3).
  eapply synced_change; [done..| |]; [done|]. rewrite A2. destruct Hs as [_ Hs]. specialize (Hs i). rewrite Hm in Hs.
  destruct (get_runner i g) as [r|]; [|done]. destruct Hs as [E _]. by split.
Qed.
Lemma synced_remove e i ms ms' g :
  synced ms g →
  (∀ k, get_mapping (VStr k) ms' = if decide (k = i) then None else get_mapping (VStr k) ms) →
  synced ms' (remove_mapping (e_starts e) i g).
Proof.
  intros Hs Hms. destruct (remove_spec (e_starts e) i g (proj1 Hs)) as (A1 & A2 & A3).
  eapply synced_change; [done..| |]; [done|]. by rewrite A2.
Qed.

(** *** Outcomes *)
(** What each outcome means for the state. *)
Definition lawful (s : state) (r : outcome * state) : Prop :=
  match r with
  | (Done _, s') => consistent s'
  | (Refused _, s') => s' = s
  | (Raised _, s') => config_json (disk s') = config_json (disk s) ∧ engine s' = engine s
  end.
Lemma saved_consistent ms s d g n :
  NoDup (id <$> ms) → Forall str_id ms → app_validate repr isfile (with_mappings ms (config s)) = Ok tt →
  config_json d = Some (dumps indented 0 (app_to_dict (with_mappings ms (config s)))) → synced ms g →
  lawful s (Done n, mkState (with_mappings ms (config s)) d g).
Proof. intros. constructor; done. Qed.
Lemma commit_lawful e ms s n f :
  NoDup (id <$> ms) → Forall str_id ms → synced ms (f (engine s)) →
  lawful s (commit repr isfile e ms s (λ s, (Done n, set_engine f s)))
  ∧ lawful s (commit_raising repr isfile e ms s (λ s, (Done n, set_engine f s))).
Proof.
  intros Hnd Hs Hg. unfold commit, commit_raising. pose proof (asave_spec e (set_mappings ms s)) as Ha.
  destruct (asave repr isfile e (set_mappings ms s)) as [[u|x] d].
  - destruct Ha as [Hv Hd]. split; by apply saved_consistent.
  - destruct Ha as [Hd Hx]. split; [|done]. destruct (config_error x); [|done].
    cbn [lawful]. rewrite Hx by done. by destruct s.
Qed.

Lemma id_or_else v f m :
  mapping_from_dict word repr f v = Ok m → ∃ d, as_dict v = Ok d ∧ id m = or_else (get d "id" VNone) (VStr f).
Proof.
  intros H. unfold mapping_from_dict in H. apply res_bind_Ok in H as (d & Hd & H). exists d. split; [done|].
  do 6 (apply res_bind_Ok in H as (? & _ & H)). by injection H as <-.
Qed.
Lemma parse_form_id e f s m : parse_form word repr isfile e f s = Ok m → ∃ i, id m = VStr i.
Proof.
  unfold parse_form. intros H. apply res_bind_Ok in H as (d & Hd & H). apply res_bind_Ok in H as (m0 & Hm0 & H).
  apply res_bind_Ok in H as (m1 & Hm1 & H). apply res_bind_Ok in H as (u & _ & H). injection H as <-.
  assert (id m1 = id m0) as ->.
  { unfold apply_usb_match in Hm1. apply res_bind_Ok in Hm1 as (a & _ & Hm1). apply res_bind_Ok in Hm1 as (b & _ & Hm1).
    injection Hm1 as <-. cbn [set_serials id]. unfold _preserve_unmanaged_fields.
    by destruct (get_mapping (id m0) (mappings (config s))). }
  apply id_or_else in Hm0 as (d' & Hd' & ->).
  unfold _mapping_from_form, _build_mapping_dict in Hd. do 7 (apply res_bind_Ok in Hd as (? & _ & Hd)).
  injection Hd as <-. cbn [as_dict] in Hd'. injection Hd' as <-.
  change (get _ "id" VNone) with (if is_empty (field f "id" "") then VNone else VStr (field f "id" "")).
  destruct (field f "id" "") as [|c t]; by eexists.
Qed.

(** *** Imports *)
Lemma final_in k l t : final k l = Some t → t ∈ l ∧ py_eq (id t) k = true.
Proof.
  induction l as [|x l IH] using rev_ind; [done|]. rewrite final_snoc. destruct (py_eq (id x) k) eqn:E.
  - intros [= ->]. split; [set_solver|done].
  - intros [? ?]%IH. split; [set_solver|done].
Qed.
Lemma apply_all e l g :
  quiet g → Forall str_id l →
  let g' := foldl (λ g m, apply_mapping (e_starts e) m g) g l in
  quiet g' ∧ ∀ k, get_runner k g' = match final (VStr k) l with
                                     | Some m => Some (mkRunner m (result_of (e_starts e) m))
                                     | None => get_runner k g
                                     end.
Proof.
  intros Hq Hs. induction l as [|m l IH] using rev_ind; [done|]. apply Forall_app in Hs as [Hs Hm]. rewrite Forall_singleton in Hm.
  destruct (IH Hs) as [Hq' Hg]. cbn zeta. rewrite foldl_app. cbn [foldl].
  destruct (apply_spec (e_starts e) m _ Hq') as (A1 & A2 & A3). split; [done|]. intros k. rewrite final_snoc.
  destruct (py_eq (id m) (VStr k)) eqn:E.
  - apply str_id_eq in E; [|done]. apply mid_str in E; [|done]. subst k. exact A2.
  - rewrite A3; [apply Hg|]. intros ->. rewrite (proj2 (str_id_eq m _ Hm)) in E; [done|]. by apply str_id_mid.
Qed.
Lemma replace_ids fresh i seen l out :
  (∀ a b, fresh a = fresh b → a = b) → (∀ k, VStr (fresh k) ∉ id <$> l) →
  Forall (loaded word repr) l → Forall str_id l →
  Forall (λ v, is_str v = true ∧ ∀ k, (i <= k)%nat → v ≠ VStr (fresh k)) seen →
  replace_all_mappings word repr fresh i seen l = Ok out →
  NoDup (id <$> out) ∧ Forall str_id out ∧ ∀ v, v ∈ seen → v ∉ id <$> out.
Proof.
  intros Hinj Hfr Hl. revert i seen out. induction Hl as [|m l Hm _ IH]; intros i seen out Hs Hseen H; cbn [replace_all_mappings] in H.
  { injection H as <-. split_and!; [constructor|done|]. intros v _. apply not_elem_of_nil. }
  rewrite Hm in H. cbn [mbind res_bind] in H. apply res_bind_Ok in H as (u & _ & H).
  apply Forall_cons in Hs as [Hs1 Hs]. cbn zeta in H.
  set (m' := if existsb (py_eq (id m)) seen then set_id (VStr (fresh (S i))) m else m) in *.
  apply res_bind_Ok in H as (ms & Hms & H). injection H as <-.
  assert (str_id m') as Hs' by (unfold m'; by destruct (existsb _ _)).
  assert (∀ v, v ∈ seen → v ≠ id m') as Hnew.
  { intros v Hv E. rewrite Forall_forall in Hseen. destruct (Hseen v Hv) as [_ Hk]. unfold m' in E.
    destruct (existsb (py_eq (id m)) seen) eqn:Ex; [by apply (Hk (S i)); [lia|]|].
    assert (existsb (py_eq (id m)) seen = true); [|congruence]. apply existsb_exists. exists v.
    split; [by apply list_elem_of_In|]. subst v. by apply py_eq_id. }
  assert (∀ k, (2 + i <= k)%nat → id m' ≠ VStr (fresh k)) as Hk.
  { intros k Hik E. unfold m' in E. destruct (existsb _ _).
    - cbn in E. assert (S i = k) by (apply Hinj; congruence). lia.
    - apply (Hfr k). rewrite <- E. left. }
  destruct (IH ltac:(intros k Hin; apply (Hfr k); by right) (2 + i)%nat (id m' :: seen) ms) as (A1 & A2 & A3); [done| |done|].
  { constructor; [done|]. eapply Forall_impl; [exact Hseen|]. intros v [Hv Hkv]. split; [done|]. intros k ?. apply Hkv. lia. }
  split_and!.
  - cbn. constructor; [|done]. apply A3. left.
  - by constructor.
  - intros v Hv. cbn. apply not_elem_of_cons. split; [by apply Hnew|]. apply A3. by right.
Qed.

(** ** The theorem *)
(** What an operation is given: fresh ids are new, the id in a path is not empty, and the mappings of an import
    (and the current ones, for a merge) were loaded from documents with text ids. *)
Definition op_ok (e : env) (o : op) (s : state) : Prop :=
  match o with
  | Create _ | Duplicate _ => VStr (e_fresh e 0) ∉ id <$> mappings (config s)
  | Update i _ => i ≠ []
  | Import plan mode =>
      Forall (loaded word repr) (mappings (config s)) ∧ Forall (loaded word repr) plan ∧ Forall str_id plan
      ∧ (∀ a b, e_fresh e a = e_fresh e b → a = b) ∧ ∀ k, VStr (e_fresh e k) ∉ id <$> plan
  | _ => True
  end.

Lemma assoc_filter_other k p (d : list (pystr * pyval)) :
  (∀ v, p (k, v) = true) → assoc k (List.filter p d) = assoc k d.
Proof.
  intros Hp. induction d as [|[q v] d IH]; cbn; [done|]. destruct (str_eqb k q) eqn:E.
  - apply str_eqb_eq in E as <-. rewrite Hp. cbn. by rewrite (proj2 (str_eqb_eq k k) eq_refl).
  - destruct (p (q, v)); cbn; rewrite ?E; done.
Qed.
Lemma assoc_pop_same k (d : list (pystr * pyval)) : assoc (str k) (pop k d) = None.
Proof.
  unfold pop. induction d as [|[q v] d IH]; cbn; [done|]. destruct (str_eqb q (str k)) eqn:E; cbn; [done|].
  destruct (str_eqb (str k) q) eqn:E'; [|done]. apply str_eqb_eq in E' as <-.
  by rewrite (proj2 (str_eqb_eq _ _) eq_refl) in E.
Qed.
Lemma parse_body_id e body i m :
  parse_body word repr isfile e body i = Ok m →
  id m = match i with Some s => or_else (VStr s) (VStr (e_fresh e 0)) | None => VStr (e_fresh e 0) end.
Proof.
  unfold parse_body. intros H. apply res_bind_Ok in H as (d & _ & H). apply res_bind_Ok in H as (m0 & Hm & H).
  apply res_bind_Ok in H as (u & _ & H). injection H as <-. apply id_or_else in Hm as (d' & [= <-] & ->).
  unfold get at 1. unfold pop at 1. rewrite assoc_filter_other by done. destruct i as [s|].
  - by rewrite assoc_dict_set_eq.
  - by rewrite assoc_pop_same.
Qed.
Lemma put_synced e i m s :
  consistent s → id m = VStr i →
  NoDup (id <$> put_at (VStr i) m (mappings (config s))) ∧ Forall str_id (put_at (VStr i) m (mappings (config s)))
  ∧ synced (put_at (VStr i) m (mappings (config s))) (apply_mapping (e_starts e) m (engine s))
  ∧ synced (put_at (VStr i) m (mappings (config s))) (restart_mapping (e_starts e) m (engine s)).
Proof.
  intros [Hnd Hs _ _ Hsy] Hm. destruct (put_at_ids i m _ Hs Hm Hnd). split_and!; [done..| |];
    eapply synced_apply; try done; intros k; by apply put_at_get.
Qed.
Lemma save_form_lawful e f s : consistent s → lawful s (save_mapping_from_form word repr isfile e f s).
Proof.
  intros Hc. unfold save_mapping_from_form. destruct (parse_form word repr isfile e f s) as [m|x] eqn:E;
    [|by destruct (value_error x)].
  apply parse_form_id in E as [i Hi]. rewrite Hi. destruct (put_synced e i m s Hc Hi) as (H1 & H2 & H3 & _).
  by apply (commit_lawful e _ s (name m) (apply_mapping (e_starts e) m)).
Qed.
Lemma create_lawful e body s :
  consistent s → VStr (e_fresh e 0) ∉ id <$> mappings (config s) → lawful s (create_mapping word repr isfile e body s).
Proof.
  intros Hc Hn. unfold create_mapping. destruct (parse_body word repr isfile e body None) as [m|x] eqn:E;
    [|by destruct (value_error x)].
  apply parse_body_id in E. destruct (put_synced e _ m s Hc E) as (H1 & H2 & H3 & _).
  assert (put_at (VStr (e_fresh e 0)) m (mappings (config s)) = mappings (config s) ++ [m]) as Ep.
  { pose proof (c_str s Hc) as Hs. revert Hn Hs. generalize (mappings (config s)) as l0. induction l0 as [|x l IH]; intros Hn Hs; [done|].
    cbn in Hn. apply not_elem_of_cons in Hn as [Hx Hn]. apply Forall_cons in Hs as [Hsx Hs]. cbn [put_at].
    destruct (py_eq (id x) (VStr (e_fresh e 0))) eqn:Ex; [apply str_id_eq in Ex; [congruence|done]|].
    cbn. by rewrite IH. }
  rewrite Ep in *. by apply (commit_lawful e _ s (name m) (apply_mapping (e_starts e) m)).
Qed.
Lemma update_lawful e i body s : consistent s → i ≠ [] → lawful s (update_mapping word repr isfile e i body s).
Proof.
  intros Hc Hi. unfold update_mapping. destruct (parse_body word repr isfile e body (Some i)) as [m|x] eqn:E;
    [|by destruct (value_error x)].
  destruct (get_mapping (VStr i) (mappings (config s))) as [old|]; [|done].
  apply parse_body_id in E. assert (id m = VStr i) as Em by (rewrite E; by destruct i).
  destruct (put_synced e i m s Hc Em) as (H1 & H2 & H3 & _).
  by apply (commit_lawful e _ s (name m) (apply_mapping (e_starts e) m)).
Qed.
Lemma delete_lawful e i s : consistent s → lawful s (delete_mapping repr isfile e i s).
Proof.
  intros [Hnd Hs _ _ Hsy]. unfold delete_mapping. destruct (get_mapping (VStr i) (mappings (config s))) as [m|]; [|done].
  destruct (drop_ids (VStr i) _ Hs Hnd) as [H1 H2].
  apply (commit_lawful e _ s (name m) (remove_mapping (e_starts e) i)); [done..|].
  eapply synced_remove; [done|]. intros k. by apply drop_get.
Qed.
Lemma action_lawful e i a s : consistent s → lawful s (mapping_action repr isfile e i a s).
Proof.
  intros Hc. unfold mapping_action. destruct (existsb _ _); [|done]. unfold apply_action.
  destruct (get_mapping (VStr i) (mappings (config s))) as [m|] eqn:Em; [|done].
  pose proof (get_mapping_Some _ _ _ Em) as [Hin Hi]. apply str_id_eq in Hi; [|by eapply Forall_forall, Hin; apply Hc].
  cbn zeta. set (m' := set_enabled _ m). destruct (put_synced e i m' s Hc Hi) as (H1 & H2 & H3 & H4).
  apply (commit_lawful e _ s (name m') (if str_eqb a (str "stop") then stop_mapping (e_starts e) i
     else if str_eqb a (str "restart") then restart_mapping (e_starts e) m' else apply_mapping (e_starts e) m'));
    [done..|]. unfold m' in *. destruct (str_eqb a (str "stop")); [|by destruct (str_eqb a (str "restart"))].
  eapply synced_stop; [apply Hc|done|]. intros k. apply put_at_get; [apply Hc|done].
Qed.
Lemma duplicate_id e m ms dup : duplicate_of word repr e m ms = Ok dup → id dup = VStr (e_fresh e 0) ∧ enabled dup = false.
Proof.
  unfold duplicate_of. cbn [as_dict mapping_to_dict mbind res_bind]. intros H. apply res_bind_Ok in H as (d & Hd & H).
  assert (id d = VStr (e_fresh e 0) ∧ enabled d = false) as Hid.
  { pose proof Hd as Hi. apply id_or_else in Hi as (x & [= <-] & ->). split.
    - reflexivity.
    - unfold mapping_from_dict in Hd. cbn [as_dict mbind res_bind] in Hd.
      do 6 (apply res_bind_Ok in Hd as (? & _ & Hd)). injection Hd as <-. reflexivity. }
  destruct (_ && _); [|by injection H as <-]. apply res_bind_Ok in H as (u & _ & H).
  apply res_bind_Ok in H as (p & _ & H). by injection H as <-.
Qed.
Lemma get_mapping_snoc i ms m :
  get_mapping i (ms ++ [m]) = match get_mapping i ms with Some x => Some x | None => if py_eq (id m) i then Some m else None end.
Proof. unfold get_mapping. induction ms as [|x ms IH]; cbn; [done|]. by destruct (py_eq (id x) i). Qed.
Lemma duplicate_lawful e i s :
  consistent s → VStr (e_fresh e 0) ∉ id <$> mappings (config s) → lawful s (mapping_duplicate word repr isfile e i s).
Proof.
  intros Hc Hn. unfold mapping_duplicate. destruct (get_mapping _ _) as [m|]; [|done].
  destruct (duplicate_of _ _ _ _ _) as [dup|x] eqn:E; [|done]. apply duplicate_id in E as [Ei Ee].
  destruct Hc as [Hnd Hs _ _ [Hq Hsy]].
  assert (Forall str_id (mappings (config s) ++ [dup])) as Hs' by (apply Forall_app; split; [done|]; repeat constructor; unfold str_id; by rewrite Ei).
  assert (NoDup (id <$> mappings (config s) ++ [dup])) as Hnd'.
  { rewrite fmap_app. apply NoDup_app. split_and!; [done| |apply NoDup_singleton]. intros y Hy ->%list_elem_of_singleton. by rewrite Ei in Hy. }
  apply (commit_lawful e _ s (name dup) (λ g, g)); [done..|]. split; [done|]. intros k. specialize (Hsy k).
  rewrite get_mapping_snoc. destruct (get_mapping (VStr k) (mappings (config s))) as [x|]; [done|].
  destruct (get_runner k (engine s)); [done|]. by destruct (py_eq (id dup) (VStr k)).
Qed.
Lemma import_lawful e plan md s :
  consistent s → op_ok e (Import plan md) s → lawful s (import_mappings word repr isfile e plan md s).
Proof.
  intros Hc (Hl & Hlp & Hsp & Hinj & Hfr). pose proof Hc as [Hnd Hs _ _ [Hq Hsy]]. unfold import_mappings.
  destruct (plan_rows _ _ _ _ _ _) as [rows|x]; [|done]. unfold apply_import.
  destruct (str_eqb md (str "replace")) eqn:Er.
  - destruct (replace_all_mappings word repr (e_fresh e) 0 [] plan) as [out|x] eqn:E; [|done]. cbn [mbind res_bind].
    destruct (replace_ids (e_fresh e) 0 [] plan out Hinj Hfr Hlp Hsp ltac:(done) E) as (H1 & H2 & _).
    apply (commit_lawful e out s (vstr "") (λ g, start_all (e_starts e) out (stop_all g))); [done..|].
    destruct (stop_all_spec (engine s) Hq) as (Q & Hnone & _).
    assert (∀ k, get_runner k (stop_all (engine s)) = None) as Hg by (intros k; unfold get_runner; by rewrite Hnone).
    destruct (start_all_spec (e_starts e) out (stop_all (engine s)) Q) as (A1 & A2 & A3); [|by intros m _|].
    { assert (VStr <$> (mid <$> out) = id <$> out) as Eid.
      { clear -H2 isfile word repr. induction H2 as [|m out Hm _ IH]; [done|]. rewrite !fmap_cons, IH. by rewrite <- str_id_mid. }
      rewrite <- Eid in H1. by eapply NoDup_fmap_1. }
    split; [done|]. intros k. destruct (get_mapping (VStr k) out) as [m|] eqn:Em.
    + pose proof (get_mapping_Some _ _ _ Em) as [Hin Hk].
      assert (mid m = k) as <- by (apply mid_str; [by eapply Forall_forall|]; apply str_id_eq; [by eapply Forall_forall|done]).
      rewrite A2 by done. apply settled_result.
    + rewrite A3; [by rewrite Hg|]. intros (m & -> & Hm)%list_elem_of_fmap.
      by rewrite (get_mapping_in _ _ H1 H2 Hm) in Em.
  - destruct (str_eqb md (str "merge")); [|done]. rewrite copies_loaded by done. cbn [mbind res_bind].
    destruct (merge_step word repr (e_fresh e) (length (mappings (config s))) (mappings (config s)) (mappings (config s)) [] plan)
      as (out & touched & E & [[added Hadd] H1 H2 H3 H4]); [|done..|].
    { constructor; [exists []; by rewrite app_nil_r|done|done| |by intros t ?%not_elem_of_nil].
      intros m Hin. by right. }
    rewrite E. apply (commit_lawful e out s (vstr "") (λ g, foldl (λ g m, apply_mapping (e_starts e) m g) g touched)); [done..|].
    assert (∀ t, t ∈ touched → str_id t) as Hts.
    { intros t Ht. apply H4, list_elem_of_fmap in Ht as (m & Em & Hm). unfold str_id. rewrite Em.
      apply (proj1 (Forall_forall _ _) H2 m Hm). }
    destruct (apply_all e touched (engine s) Hq) as [Hq' Hg]; [by apply Forall_forall|].
    split; [done|]. intros k. rewrite Hg. destruct (get_mapping (VStr k) out) as [m|] eqn:Em.
    + pose proof (get_mapping_Some _ _ _ Em) as [Hin Hk]. apply str_id_eq in Hk; [|by eapply Forall_forall].
      destruct (H3 m Hin) as [Hf|[Hf Hcur]]; rewrite Hk in Hf; rewrite Hf; [apply settled_result|].
      specialize (Hsy k).
      apply mid_str in Hk; [|by eapply Forall_forall]. subst k. rewrite (get_mapping_in _ _ Hnd Hs Hcur) in Hsy. done.
    + apply get_mapping_ids in Em; [|done]. destruct (final (VStr k) touched) as [t|] eqn:Ef.
      * apply final_in in Ef as [Ht Ek]. apply Em. apply str_id_eq in Ek; [|by apply Hts]. rewrite <- Ek. by apply H4.
      * specialize (Hsy k). rewrite (proj2 (get_mapping_ids k _ Hs)) in Hsy; [done|].
        intros Hin. apply Em. rewrite Hadd. apply elem_of_app. by left.
Qed.

(** C1: memory, disk and engine stay together. From a state where the configuration is valid and saved
    and every mapping has its runner, an operation of the web UI, the REST API or an import that
    succeeds leads to such a state again: the file holds the new configuration, each enabled
    mapping is run with its current settings, each other one is stopped, and no runner of a removed one
    is left. One that is refused changes nothing at all, and one that fails changes neither the file
    nor the engine. *)
Theorem operations_lawful e o s :
  consistent s → op_ok e o s → lawful s (run word repr isfile e o s).
Proof.
  intros Hc Ho. destruct o; cbn [run].
  - by apply save_form_lawful.
  - by apply create_lawful.
  - by apply update_lawful.
  - by apply delete_lawful.
  - by apply action_lawful.
  - by apply duplicate_lawful.
  - by apply import_lawful.
Qed.
End facts.

Definition base_config : AppConfig :=
  match AppConfig_from_dict ascii_word no_repr (str "s3cret") (str "node") (λ _, str "f") (VDict []) with
  | Ok c => c
  | Raise _ => mkApp 0 (AdminUI_from_dict []) VNone VNone VNone 0 [] (mkLdap VNone VNone VNone VNone VNone VNone VNone VNone VNone VNone VNone VNone VNone)
                 (mkOidc VNone VNone VNone VNone VNone VNone VNone VNone VNone VNone VNone VNone)
                 (mkCluster VNone VNone VNone VNone []) (mkNotify VNone [] VNone VNone VNone VNone VNone VNone VNone VNone VNone VNone VNone)
                 VNone VNone []
  end.
Definition first_state : state :=
  mkState base_config (mkFs (Some (dumps indented 0 (app_to_dict base_config))) ∅) sup0.
Definition demo_env : env :=
  mkEnv (str "20240101T000000") (λ _, true) true (λ _, true) (λ k, str "new" ++ str_of_Z (Z.of_nat k)) [].
Definition demo_form (i dev : string) (p : string) (on : string) : form :=
  [(str "id", str i); (str "name", str i); (str "enabled", str on); (str "serial_port", str dev);
   (str "network_port", str p); (str "network_mode", str "server")].
Abbreviation demo_run := (run ascii_word no_repr (λ _, true) demo_env).
Definition demo_state : state :=
  foldl (λ s o, (demo_run o s).2) first_state
    [SaveForm (demo_form "a" "/dev/ttyS0" "4001" "on"); SaveForm (demo_form "b" "/dev/ttyS0" "4002" "off")].
Definition is_done (r : outcome * state) : bool := match r.1 with Done _ => true | _ => false end.
Lemma first_consistent : consistent no_repr (λ _, true) first_state.
Proof.
  constructor; [constructor|constructor|by vm_compute|done|]. split; [apply quiet0|].
  intros k. unfold get_runner. cbn. by rewrite lookup_empty.
Qed.
Lemma operations_lawful_witness :
  is_done (demo_run (SaveForm (demo_form "a" "/dev/ttyS0" "4001" "on")) first_state) = true
  ∧ lawful no_repr (λ _, true) first_state (demo_run (SaveForm (demo_form "a" "/dev/ttyS0" "4001" "on")) first_state).
Proof. split; [vm_compute; reflexivity|]. apply operations_lawful; [apply first_consistent|done]. Defined.

(** Starting a mapping whose serial port another enabled one uses fails without a rollback: the refused
    configuration stays in memory, and from then on no operation can be saved. *)
Example refused_start_blocks_saving :
  let r := demo_run (Action (str "b") (str "start")) demo_state in
  (match r.1 with Raised x => exn_cls x | _ => OutOfFuel end) = ConfigError
  ∧ enabled <$> mappings (config r.2) = [true; true]
  ∧ match (demo_run (SaveForm (demo_form "c" "/dev/ttyS9" "4009" "on")) r.2).1 with Refused _ => true | _ => false end = true
  ∧ is_done (demo_run (SaveForm (demo_form "c" "/dev/ttyS9" "4009" "on")) demo_state) = true.
Proof. vm_compute. done. Qed.

(** Poll points that are JSON but not objects escape the form's error handling. *)
Example form_points_escape :
  match (demo_run (SaveForm ((str "modbus_points", str "[1]") :: demo_form "d" "/dev/ttyS3" "4003" "on")) first_state).1 with
  | Raised x => exn_cls x | _ => OutOfFuel end = TypeError.
Proof. vm_compute. done. Qed.
