(* ===== verification/Logs.v ===== *)
(** * The records kept outside the configuration (state.py)

    The audit trail (audit.log and its one backup), the per-mapping logs and their retention, and the
    names under which a mapping's logs and traces are kept. *)
From stdpp Require Import sorting.
From S2P Require Import Prelude PyFloat PyStr PyVal Config AppConfig Importer Forms Ops.
#[local] Open Scope Z_scope.

Definition LOG_MAX_BYTES : Z := 100 * 1024 * 1024.
Definition LOG_MAX_AGE_DAYS : Z := 15.
Definition AUDIT_LOG_MAX_BYTES : Z := 5 * 1024 * 1024.

(** ** The audit trail

    [audit_log] and [audit_old] are audit.log and audit.log.1, [activity] the lines sent to all.log.
    [linesep] is how text mode writes a line feed (CR LF on Windows); reading undoes it. *)
Record audit_files := mkAudit { audit_log : option bytes; audit_old : option bytes; activity : list pystr }.

Definition _CONTROL (c : Z) : bool := in_range 0 31 c || (c =? 127).
Definition clean (s : pystr) : pystr := (λ c, if _CONTROL c then 32 else c) <$> s.

Record entry := mkEntry { e_time : pystr; e_ip : pystr; e_action : pystr; e_detail : pystr; e_user : pystr }.
Definition audit_line (e : entry) : pystr :=
  join [9] (clean <$> [e_time e; e_ip e; e_action e; take 500 (e_detail e); e_user e]).
Definition activity_line (e : entry) : pystr :=
  let who := match e_user e with [] => [] | u => str " by " ++ u end in
  rstrip_by is_space (clean (str "AUDIT " ++ e_ip e ++ str " " ++ e_action e ++ str " " ++ e_detail e ++ who)).

Section audit.
Context (linesep : bytes).
(** [rotates] and [opens] say whether the rename and the append succeed ([OSError] is ignored in both
    places); a line that cannot be encoded is not written and the error escapes. *)
Definition audit (rotates opens : bool) (e : entry) (s : audit_files) : res unit * audit_files :=
  let s1 :=
    match audit_log s with
    | Some b => if (AUDIT_LOG_MAX_BYTES <? zlen b) && rotates then mkAudit None (Some b) (activity s) else s
    | None => s
    end in
  let logged := mkAudit (audit_log s1) (audit_old s1) (activity s1 ++ [activity_line e]) in
  if opens then
    let before := default [] (audit_log s1) in
    match utf8_encode (audit_line e) with
    | Raise x => (Raise x, mkAudit (Some before) (audit_old s1) (activity s1))
    | Ok b => (Ok tt, mkAudit (Some (before ++ b ++ linesep)) (audit_old s1) (activity logged))
    end
  else (Ok tt, logged).
End audit.

(** Reading in text mode: CR LF and CR become LF. *)
Fixpoint universal_newlines (s : pystr) : pystr :=
  match s with
  | 13 :: 10 :: s' => 10 :: universal_newlines s'
  | 13 :: s' => 10 :: universal_newlines s'
  | c :: s' => c :: universal_newlines s'
  | [] => []
  end.
Definition audit_record (ln : pystr) : option entry :=
  match split_on 9 ln with
  | t :: i :: a :: r =>
      let at' (k : nat) := default [] (r !! k) in
      Some (mkEntry t i a (at' 0%nat) (at' 1%nat))
  | _ => None
  end.
Definition audit_records (f : option bytes) : list entry :=
  match f with
  | Some b => omap audit_record (splitlines (universal_newlines (utf8_decode_replace b)))
  | None => []
  end.
Definition read_audit (s : audit_files) : list entry :=
  rev (audit_records (audit_old s) ++ audit_records (audit_log s)).

(** ** Retention of the per-mapping logs

    [timestamp] is [time.mktime(time.strptime(s, "%Y-%m-%d %H:%M:%S"))] in the local time zone, [None]
    when the text is not such a time. *)
Section trim.
Context (timestamp : pystr → option Z).
Definition _parse_log_ts (line : pystr) : option Z := timestamp (take 19 line).
Definition is_recent (cutoff : Z) (line : pystr) : bool :=
  match _parse_log_ts line with None => true | Some ts => cutoff <=? ts end.
Fixpoint drop_old (cutoff : Z) (lines : list pystr) : list pystr :=
  match lines with
  | [] => []
  | ln :: lines' => if is_recent cutoff ln then lines else drop_old cutoff lines'
  end.
(** The most recent [max_bytes] (positive) of the text, from a line boundary when there is one. *)
Definition cap_size (max_bytes : Z) (data : pystr) : pystr :=
  let encoded := data ≫= utf8_char in
  if max_bytes <? zlen encoded then
    let text := utf8_decode_ignore (last_n max_bytes encoded) in
    match split_first 10 text with Some (_, r) => r | None => text end
  else data.
(** [None] is a log that cannot be read; [written] whether the rewrite succeeds (it replaces the file
    atomically, so a failure leaves the old one). *)
Definition _trim_log_file (cutoff max_bytes : Z) (written : bool) (file : option bytes) : res bool * option bytes :=
  match file with
  | None => (Ok false, None)
  | Some b =>
      let content := utf8_decode_replace b in
      match content with
      | [] => (Ok false, Some b)
      | _ =>
          let data := cap_size max_bytes (concat (drop_old cutoff (splitlines_keepends content))) in
          if str_eqb data content then (Ok false, Some b)
          else if written then (Ok true, Some (data ≫= utf8_char))
          else (raise OSError "could not write", Some b)
      end
  end.
(** One maintenance pass over the ".log" files of the logs directory; an error is reported and the
    next file is done. *)
Definition run_log_maintenance (now : Z) (written : pystr → bool) (logs : gmap pystr bytes) : gmap pystr bytes :=
  map_imap (λ fn b, if ends_with fn (str ".log")
                    then (_trim_log_file (now - LOG_MAX_AGE_DAYS * 86400) LOG_MAX_BYTES (written fn) (Some b)).2
                    else Some b) logs.
End trim.

(** ** Reading a mapping's log: the last lines, newest first, from the end of the file only

    [slurp] is what [fh.read()] returns after the seek and the [readline]. *)
Fixpoint after_line (b : bytes) : bytes :=
  match b with
  | [] => []
  | c :: b' => if c =? 10 then b' else after_line b'
  end.
Definition slurp (tail_bytes : Z) (file : bytes) : bytes :=
  if tail_bytes <? zlen file then after_line (slice_from (zlen file - tail_bytes) file) else file.
Definition read_mapping_log (limit tail_bytes : Z) (file : option bytes) : list pystr :=
  match file with
  | None => []
  | Some b => rev (last_n limit (splitlines (utf8_decode_replace (slurp tail_bytes b))))
  end.

(** ** Names: [os.path.join] on POSIX, and the files of a mapping *)
Definition join_path (dir name : pystr) : pystr :=
  if starts_with name (str "/") then name
  else if match dir with [] => true | _ => ends_with dir (str "/") end then dir ++ name
  else dir ++ str "/" ++ name.
Definition mapping_log_path (logs_dir mapping_id : pystr) : pystr := join_path logs_dir (mapping_id ++ str ".log").
(** bridge.py: [<trace_dir>/<mapping id>-<file name>]. *)
Definition trace_path (trace_dir mapping_id trace_name : pystr) : pystr :=
  join_path trace_dir (mapping_id ++ str "-" ++ trace_name).

(** The trace directory: each file's name and modification time, in listing order. *)
Definition newer (a b : pystr * Z) : bool := b.2 <=? a.2.
Definition trace_files (mapping_id : pystr) (dir : list (pystr * Z)) : list pystr :=
  fst <$> sort_by newer (List.filter (λ f, starts_with f.1 (mapping_id ++ str "-")) dir).
Definition delete_mapping_traces (removed : pystr → bool) (mapping_id : pystr) (dir : list (pystr * Z)) :
    list (pystr * Z) :=
  List.filter (λ f, negb (existsb (str_eqb f.1) (trace_files mapping_id dir) && removed f.1)) dir.

(** Start-up deletes the logs of mappings that no longer exist. *)
Definition prune_mapping_logs (removed : pystr → bool) (mappings : list MappingConfig) (logs : gmap pystr bytes) :
    gmap pystr bytes :=
  filter (λ '(fn, _),
    negb (ends_with fn (str ".log")
          && negb (existsb (λ m, eq_str (id m) (take (length fn - 4) fn)) mappings) && removed fn) = true) logs.

(** ** The audit trail refines a bounded history *)
Definition plain_char (c : Z) : bool :=
  (0 <=? c) && (c <? 1114112) && negb (is_surrogate c) && negb (existsb (Z.eqb c) [133; 8232; 8233]).
Definition plain_entry (e : entry) : bool :=
  forallb (forallb plain_char) [e_time e; e_ip e; e_action e; e_detail e; e_user e].
(** What the trail keeps of an entry. *)
Definition kept (e : entry) : entry :=
  mkEntry (clean (e_time e)) (clean (e_ip e)) (clean (e_action e)) (clean (take 500 (e_detail e))) (clean (e_user e)).
Definition file_of (linesep : bytes) (es : list entry) : bytes :=
  es ≫= λ e, (audit_line e ≫= utf8_char) ++ linesep.

Definition text_char (c : Z) : Prop := is_cp c ∧ is_line_end c = false ∧ c ≠ 13.
Lemma clean_char c : plain_char c = true →
  text_char (if _CONTROL c then 32 else c) ∧ (if _CONTROL c then 32 else c) ≠ 9.
Proof.
  unfold plain_char, text_char, _CONTROL, is_cp, is_line_end. intros H.
  rewrite !andb_true_iff, !negb_true_iff in H. destruct H as [[[H1 H2] H3] H4]. cbn [existsb] in H4.
  rewrite !orb_false_iff in H4. zbool. destruct (in_range 0 31 c || (c =? 127)) eqn:E; [by repeat split|].
  apply orb_false_iff in E as [E E']. unfold in_range in *. split; [|lia]. split; [done|]. split; [|lia].
  rewrite !orb_false_iff, !andb_false_iff, !Z.leb_gt, !Z.eqb_neq in *. lia.
Qed.
Lemma clean_text s : forallb plain_char s = true → Forall text_char (clean s) ∧ Forall (λ c, c ≠ 9) (clean s).
Proof.
  rewrite forallb_forall. intros H. unfold clean. rewrite !Forall_fmap, !Forall_forall.
  split; intros c Hc; apply (clean_char c), H; by apply list_elem_of_In.
Qed.
Lemma plain_take n s : forallb plain_char s = true → forallb plain_char (take n s) = true.
Proof.
  rewrite !forallb_forall. intros H c Hc%list_elem_of_In. apply H, list_elem_of_In.
  rewrite <- (take_drop n s). apply elem_of_app. by left.
Qed.
Lemma plain_entry_fields e : plain_entry e = true →
  Forall (λ s, forallb plain_char s = true) [e_time e; e_ip e; e_action e; take 500 (e_detail e); e_user e].
Proof.
  unfold plain_entry. cbn [forallb]. rewrite !andb_true_iff. intros (H1 & H2 & H3 & H4 & H5 & _).
  repeat constructor; try done. by apply plain_take.
Qed.
Lemma audit_line_text e : plain_entry e = true → Forall text_char (audit_line e).
Proof.
  intros H%plain_entry_fields. unfold audit_line.
  assert (∀ l, Forall (λ s, forallb plain_char s = true) l → Forall text_char (join [9] (clean <$> l))) as Hj.
  { intros [|x l] Hl; [constructor|]. apply Forall_cons in Hl as [Hx Hl]. cbn. apply Forall_app. split; [by apply clean_text|].
    apply Forall_bind, Forall_fmap. eapply Forall_impl; [exact Hl|]. intros s Hs. apply Forall_cons. split; [done|].
    by apply clean_text. }
  by apply Hj.
Qed.
Lemma audit_record_line e : plain_entry e = true → audit_record (audit_line e) = Some (kept e).
Proof.
  intros H%plain_entry_fields. unfold audit_record, audit_line. rewrite split_on_join; [done|done|].
  apply Forall_fmap. eapply Forall_impl; [exact H|]. intros s Hs. by apply clean_text.
Qed.
Lemma universal_line linesep s rest :
  linesep = [10] ∨ linesep = [13; 10] → Forall text_char s →
  universal_newlines (s ++ linesep ++ rest) = s ++ 10 :: universal_newlines rest.
Proof.
  intros Hl. induction 1 as [|c s (_ & _ & Hc) _ IH]; [by destruct Hl as [-> | ->]|]. cbn [app].
  rewrite <- IH. destruct c as [|p|p]; [done| |done]. do 4 (try (destruct p as [p|p|]; try done)).
Qed.
Lemma linesep_text linesep : linesep = [10] ∨ linesep = [13; 10] →
  linesep = linesep ≫= utf8_char ∧ Forall is_cp linesep.
Proof. intros [-> | ->]; (split; [done|repeat constructor; done]). Qed.
Lemma read_lines linesep (ls : list pystr) :
  linesep = [10] ∨ linesep = [13; 10] → Forall (Forall text_char) ls →
  utf8_decode_replace (ls ≫= λ l, (l ≫= utf8_char) ++ linesep) = (ls ≫= λ l, l ++ linesep)
  ∧ universal_newlines (ls ≫= λ l, l ++ linesep) = (ls ≫= λ l, l ++ [10]).
Proof.
  intros Hl Hls. destruct (linesep_text linesep Hl) as [El Hcp]. split.
  - assert ((ls ≫= λ l, (l ≫= utf8_char) ++ linesep) = (ls ≫= λ l, l ++ linesep) ≫= utf8_char) as ->.
    { clear Hls. induction ls as [|l ls IH]; [done|]. cbn [mbind list_bind].
      setoid_rewrite IH. rewrite !bind_app. by rewrite <- El. }
    unfold utf8_decode_replace. rewrite utf8_decode_text; [done|]. apply Forall_bind.
    eapply Forall_impl; [exact Hls|]. intros l H. apply Forall_app. split; [|done].
    eapply Forall_impl; [exact H|]. by intros c [? _].
  - induction Hls as [|l ls H _ IH]; [done|]. cbn [mbind list_bind]. rewrite <- !app_assoc, universal_line by done.
    setoid_rewrite IH. done.
Qed.
Lemma text_no_end (ls : list pystr) : Forall (Forall text_char) ls → Forall (Forall (λ c, is_line_end c = false)) ls.
Proof. intros H. eapply Forall_impl; [exact H|]. intros l Hl. eapply Forall_impl; [exact Hl|]. by intros c (_ & ? & _). Qed.
Lemma audit_records_file linesep es :
  linesep = [10] ∨ linesep = [13; 10] → Forall (λ e, plain_entry e = true) es →
  audit_records (Some (file_of linesep es)) = kept <$> es.
Proof.
  intros Hl Hes. assert (Forall (Forall text_char) (audit_line <$> es)) as Ht.
  { apply Forall_fmap. eapply Forall_impl; [exact Hes|]. apply audit_line_text. }
  unfold audit_records, file_of. destruct (read_lines linesep _ Hl Ht) as [E1 E2].
  rewrite list_fmap_bind in E1. cbn [compose] in E1. setoid_rewrite E1. rewrite E2, splitlines_lines by (by apply text_no_end).
  clear -Hes. induction Hes as [|e es He _ IH]; [done|]. cbn [fmap list_fmap omap list_omap]. by rewrite audit_record_line, IH.
Qed.
Lemma file_of_app linesep es es' : file_of linesep (es ++ es') = file_of linesep es ++ file_of linesep es'.
Proof. apply bind_app. Qed.

Section trail.
Context (linesep : bytes).

(** The two files hold the last entries, split at the last rotation; some were dropped only if a full
    backup follows them. *)
Record trail_of (es : list entry) (s : audit_files) : Prop := mkTrail {
  t_split : ∃ k old new, es = take k es ++ old ++ new
            ∧ audit_old s = (if match old with [] => true | _ => false end then None else Some (file_of linesep old))
            ∧ audit_log s = (if match new with [] => true | _ => false end then None else Some (file_of linesep new))
            ∧ (take k es ≠ [] → AUDIT_LOG_MAX_BYTES < zlen (file_of linesep old));
  t_plain : Forall (λ e, plain_entry e = true) es;
}.
Lemma audit_trail_step rotates e es s :
  plain_entry e = true → trail_of es s →
  trail_of (es ++ [e]) (audit linesep rotates true e s).2
  ∧ (rotates = true → zlen (default [] (audit_log (audit linesep rotates true e s).2))
                      <= AUDIT_LOG_MAX_BYTES + zlen (file_of linesep [e])).
Proof.
  intros He [(k & old & new & Es & Eo & En & Hk) Hp].
  assert (file_of linesep [e] = (audit_line e ≫= utf8_char) ++ linesep) as E1 by (cbn; by rewrite app_nil_r).
  assert (utf8_encode (audit_line e) = Ok (audit_line e ≫= utf8_char)) as Ee.
  { apply utf8_encode_text. eapply Forall_impl; [by apply audit_line_text|]. by intros c [? _]. }
  assert (Forall (λ e, plain_entry e = true) (es ++ [e])) as Hp' by (apply Forall_app; by repeat constructor).
  assert (∀ k' old' new', es = take k' es ++ old' ++ new' → (k' <= length es)%nat → es ++ [e] = take k' (es ++ [e]) ++ old' ++ (new' ++ [e])) as Happ.
  { intros k' old' new' E' Hk'. rewrite take_app_le by done. rewrite E' at 1. by rewrite <- !app_assoc. }
  set (k0 := min k (length es)).
  assert (take k0 es = take k es) as Ek by (unfold k0; destruct (Nat.min_spec k (length es)) as [[? ->]|[? ->]]; [done|by rewrite !take_ge by lia]).
  unfold audit. rewrite Ee.
  destruct (match audit_log s with Some b => (AUDIT_LOG_MAX_BYTES <? zlen b) && rotates | None => false end) eqn:Er.
  - destruct (audit_log s) as [b|] eqn:Eb; [|done]. rewrite Er. cbn [audit_log audit_old snd default].
    destruct new as [|x new]; [done|]. injection En as ->. apply andb_true_iff in Er as [Er _]. zbool. split; [split; [|done]|].
    + exists (length es - length (x :: new))%nat, (x :: new), [e].
      assert (take (length es - length (x :: new)) es = take k es ++ old) as Et.
      { rewrite Es at 1 2. rewrite app_assoc, !length_app. rewrite take_app_length'; [done|]. rewrite !length_app. lia. }
      rewrite take_app_le by lia. rewrite Et. split_and!; [|done| |by intros _].
      * rewrite Es at 1. by rewrite <- !app_assoc.
      * by rewrite E1.
    + intros _. rewrite <- E1. cbn. unfold AUDIT_LOG_MAX_BYTES. lia.
  - assert ((match audit_log s with
             | Some b => if (AUDIT_LOG_MAX_BYTES <? zlen b) && rotates then mkAudit None (Some b) (activity s) else s
             | None => s end) = s) as -> by (destruct (audit_log s); [by rewrite Er|done]).
    cbn [audit_log audit_old snd default]. split; [split; [|done]|].
    + exists k0, old, (new ++ [e]). split_and!.
      * apply Happ; [by rewrite Ek|unfold k0; lia].
      * done.
      * destruct new as [|x new]; rewrite En; cbn [default app]; [by rewrite E1|]. by rewrite app_comm_cons, file_of_app, E1.
      * rewrite take_app_le by (unfold k0; lia). by rewrite Ek.
    + intros ->. rewrite <- E1. destruct (audit_log s) as [b|]; cbn [default Datatypes.id]; [|change (zlen (file_of linesep [e]) <= AUDIT_LOG_MAX_BYTES + zlen (file_of linesep [e])); unfold AUDIT_LOG_MAX_BYTES; lia].
      rewrite andb_true_r in Er. zbool. rewrite zlen_app. lia.
Qed.
End trail.

(** C32: the audit trail is a bounded history. Whatever is recorded, when every append succeeds, with whatever text in its fields that has
    neither a lone surrogate nor one of the separators U+0085, U+2028 and U+2029 ([plain_entry]; a separator ends a line early:
    [separator_hides_user]), and whichever renames succeed, what is read back is exactly one record for each of the last
    entries, newest first, each with its fields apart, control characters as spaces and the detail cut at 500
    characters; an older entry is missing only when more than 5 MB of newer records are kept; and when the renames succeed
    audit.log never exceeds that size by more than one record. *)
Theorem audit_trail linesep (entries : list (bool * entry)) :
  linesep = [10] ∨ linesep = [13; 10] → Forall (λ x, plain_entry x.2 = true) entries →
  let s := foldl (λ s x, (audit linesep x.1 true x.2 s).2) (mkAudit None None []) entries in
  (∃ k, read_audit s = rev (kept <$> drop k entries.*2)
        ∧ (take k entries.*2 ≠ [] → AUDIT_LOG_MAX_BYTES < zlen (file_of linesep (drop k entries.*2))))
  ∧ ∀ n, Forall (λ x, x.1 = true ∧ zlen (file_of linesep [x.2]) <= n) entries →
         zlen (default [] (audit_log s)) <= AUDIT_LOG_MAX_BYTES + Z.max 0 n.
Proof.
  intros Hl Hp s.
  assert (trail_of linesep entries.*2 s ∧ ∀ n, Forall (λ x, x.1 = true ∧ zlen (file_of linesep [x.2]) <= n) entries →
         zlen (default [] (audit_log s)) <= AUDIT_LOG_MAX_BYTES + Z.max 0 n) as [[(k & old & new & Es & Eo & En & Hk) Hp'] Hn].
  { unfold s. clear s. induction entries as [|[r e] entries IH] using rev_ind.
    - split; [split; [by exists 0%nat, [], []|done]|]. intros n _. change (0 <= AUDIT_LOG_MAX_BYTES + Z.max 0 n). unfold AUDIT_LOG_MAX_BYTES. lia.
    - apply Forall_app in Hp as [Hp [He _]%Forall_cons]. destruct (IH Hp) as [Ht _]. rewrite foldl_app, fmap_app. cbn [foldl fst snd fmap list_fmap] in He |- *.
      destruct (audit_trail_step linesep r e _ _ He Ht) as [Ht' Hb]. split; [done|].
      intros n [_ [[Hr H] _]%Forall_cons]%Forall_app. specialize (Hb Hr). cbn [fst snd] in H. lia. }
  split; [|done]. set (es := entries.*2) in *. exists (min k (length es)).
  assert (take (min k (length es)) es = take k es) as ->
    by (destruct (Nat.min_spec k (length es)) as [[? ->]|[? ->]]; [done|by rewrite !take_ge by lia]).
  assert (drop (min k (length es)) es = old ++ new) as ->.
  { rewrite Es at 2. rewrite drop_app_length'; [done|]. by rewrite length_take. }
  rewrite Es in Hp'. apply Forall_app in Hp' as [_ [Ho Hnw]%Forall_app]. split.
  - unfold read_audit. rewrite fmap_app, Eo, En. f_equal. f_equal.
    + destruct old; [done|]. by rewrite audit_records_file.
    + destruct new; [done|]. by rewrite audit_records_file.
  - intros Hne. rewrite file_of_app, zlen_app. pose proof (zlen_nonneg (file_of linesep new)). specialize (Hk Hne). lia.
Qed.
Definition demo_entries : list (bool * entry) :=
  [(true, mkEntry (str "2024-01-01 10:00:00") (str "10.0.0.9") (str "user_create") (str "ann:viewer") (str "root"));
   (true, mkEntry (str "2024-01-01 10:00:05") (str "10.0.0.9") (str "mapping_save") (10 :: str "forged" ++ 9 :: str "x") (str "ann"))].
Lemma audit_trail_witness :
  let s := foldl (λ s x, (audit [10] x.1 true x.2 s).2) (mkAudit None None []) demo_entries in
  length (read_audit s) = 2%nat
  ∧ (∃ k, read_audit s = rev (kept <$> drop k demo_entries.*2)
        ∧ (take k demo_entries.*2 ≠ [] → AUDIT_LOG_MAX_BYTES < zlen (file_of [10] (drop k demo_entries.*2)))).
Proof.
  split; [by vm_compute|]. apply (audit_trail [10] demo_entries); [by left|]. repeat constructor; by vm_compute.
Defined.

(** A line separator that is not a control character splits the record when it is read: the trail
    loses who made the change. *)
Example separator_hides_user :
  let e := mkEntry (str "2024-01-01 10:00:00") (str "10.0.0.9") (str "mapping_save") (str "plc" ++ 8232 :: str "1") (str "ann") in
  e_user <$> read_audit (audit [10] true true e (mkAudit None None [])).2 = [[]].
Proof. by vm_compute. Qed.

(** ** Retention keeps the most recent lines *)
Lemma split_keep_concat s cur : concat (split_lines true cur s) = rev cur ++ s.
Proof.
  remember (length s) as n eqn:En. revert s cur En. induction n as [n IH] using lt_wf_ind. intros s cur ->.
  destruct s as [|c s]; [by destruct cur; cbn; rewrite ?app_nil_r|].
  destruct (Z.eq_dec c 13) as [->|Hc].
  - destruct s as [|d s]; [by cbn; rewrite <- app_assoc|]. destruct (Z.eq_dec d 10) as [->|Hd].
    + cbn [split_lines concat]. rewrite (IH (length s)) by (cbn; lia). cbn. by rewrite <- !app_assoc.
    + assert (split_lines true cur (13 :: d :: s) = rev (13 :: cur) :: split_lines true [] (d :: s)) as ->.
      { destruct d as [|p|p]; [done| |done]. do 4 (try (destruct p as [p|p|]; try done)). }
      cbn [concat]. rewrite (IH (length (d :: s))) by (cbn; lia). cbn. by rewrite <- !app_assoc.
  - rewrite split_lines_cons by done. destruct (is_line_end c); cbn [concat]; rewrite (IH (length s)) by (cbn; lia);
      cbn; by rewrite <- !app_assoc.
Qed.
Lemma keepends_concat s : concat (splitlines_keepends s) = s.
Proof. apply split_keep_concat. Qed.

Lemma utf8_char_head c : is_cp c → ∃ b r, utf8_char c = b :: r ∧ Forall (λ x, is_cont x = true) r.
Proof.
  intros [Hc _]. unfold utf8_char, is_cont. repeat case_match; zbool; eexists _, _; (split; [done|]); repeat constructor;
    apply in_range_true; dlia.
Qed.
Lemma encoded_suffix n s : Forall is_cp s →
  ∃ pre s' junk, s = pre ++ s' ∧ drop n (s ≫= utf8_char) = junk ++ (s' ≫= utf8_char) ∧ Forall (λ x, is_cont x = true) junk
    ∧ (n ≠ 0%nat → s ≠ [] → pre ≠ []).
Proof.
  intros Hs. revert n. induction Hs as [|c s Hc Hs IH]; intros n; [by exists [], [], []; destruct n|].
  destruct n as [|n]; [by exists [], (c :: s), []|]. cbn [mbind list_bind]. destruct (utf8_char_head c Hc) as (b & r & -> & Hr).
  destruct (decide (n <= length r)%nat).
  - exists [c], s, (drop n r). cbn [app drop]. rewrite drop_app_le by done. split_and!; [done..| |done]. by apply Forall_drop.
  - destruct (IH (n - length r)%nat) as (pre & s' & junk & -> & Ed & Hj & _). exists (c :: pre), s', junk.
    cbn [app drop]. rewrite drop_app_ge by lia. by split_and!.
Qed.
Lemma decode_junk junk l : Forall (λ x, is_cont x = true) junk → utf8_decode_gen Ignore (junk ++ l) = utf8_decode_gen Ignore l.
Proof.
  induction 1 as [|x junk Hx _ IH]; [done|]. unfold is_cont, in_range in Hx. zbool. cbn [app utf8_decode_gen].
  rewrite (proj2 (Z.ltb_ge x 128)), !in_range_false by lia. exact IH.
Qed.
Lemma split_first_absent c s : split_first c s = None → c ∉ s.
Proof.
  induction s as [|x s IH]; cbn; [by intros _ ?%not_elem_of_nil|]. destruct (Z.eqb_spec x c) as [|Hx]; [done|].
  destruct (split_first c s) as [[a b]|]; [done|]. intros _ [->|H]%elem_of_cons; [done|]. by apply IH.
Qed.
Lemma cap_size_spec max_bytes data :
  0 < max_bytes → Forall is_cp data →
  ∃ cut, data = cut ++ cap_size max_bytes data ∧ zlen (cap_size max_bytes data ≫= utf8_char) <= max_bytes
    ∧ (zlen (data ≫= utf8_char) <= max_bytes → cut = [])
    ∧ (cut ≠ [] → (∃ c, cut = c ++ [10]) ∨ 10 ∉ cap_size max_bytes data).
Proof.
  intros Hm Hd. unfold cap_size. destruct (Z.ltb_spec max_bytes (zlen (data ≫= utf8_char))) as [Hlt|Hle];
    [|by exists []].
  unfold last_n. set (n := (length (data ≫= utf8_char) - Z.to_nat max_bytes)%nat).
  assert (n ≠ 0)%nat as Hn by (unfold n, zlen in *; lia).
  destruct (encoded_suffix n data Hd) as (pre & s' & junk & Ed & Edrop & Hj & _).
  assert (zlen (s' ≫= utf8_char) <= max_bytes) as Hs'.
  { apply (f_equal length) in Edrop. rewrite length_drop, length_app in Edrop. unfold n, zlen in *. lia. }
  assert (utf8_decode_ignore (drop n (data ≫= utf8_char)) = s') as ->.
  { unfold utf8_decode_ignore. rewrite Edrop, decode_junk by done. rewrite utf8_decode_text; [done|].
    rewrite Ed in Hd. by apply Forall_app in Hd as [_ ?]. }
  destruct (split_first 10 s') as [[a r]|] eqn:Es.
  - apply split_first_inv in Es as ->. exists (pre ++ a ++ [10]). split_and!; [by rewrite Ed, <- !app_assoc| |lia|].
    + rewrite bind_app in Hs'. cbn [mbind list_bind] in Hs'. rewrite !zlen_app in Hs'.
      pose proof (zlen_nonneg (a ≫= utf8_char)). pose proof (zlen_nonneg (utf8_char 10)). unfold mbind in *. lia.
    + intros _. left. exists (pre ++ a). by rewrite app_assoc.
  - apply split_first_absent in Es. exists pre. split_and!; [done..|lia|]. by right.
Qed.
Lemma drop_old_split timestamp cutoff lines :
  ∃ old, lines = old ++ drop_old timestamp cutoff lines ∧ Forall (λ l, is_recent timestamp cutoff l = false) old
    ∧ match drop_old timestamp cutoff lines with [] => True | l :: _ => is_recent timestamp cutoff l = true end.
Proof.
  induction lines as [|l lines (old & E & Ho & Hh)]; [by exists []|]. cbn [drop_old].
  destruct (is_recent timestamp cutoff l) eqn:El; [by exists []|]. exists (l :: old).
  split_and!; [by rewrite E at 1|by constructor|done].
Qed.

(** log maintenance keeps the most recent part of a log and never grows it. For a log of text,
    whatever its timestamps: it is left with the lines from the first one that is not older than the
    cutoff, or, when those exceed the limit, with a suffix of them that fits and starts on a line of its own (if
    the last [max_bytes] bytes hold a line end at all). It says so, and does not touch the file, exactly
    when nothing changes; a rewrite that fails leaves the old log. *)
Theorem trim_keeps_recent timestamp cutoff max_bytes written s :
  0 < max_bytes → Forall is_cp s →
  ∃ old recent cut s',
    splitlines_keepends s = old ++ recent ∧ concat recent = cut ++ s'
    ∧ Forall (λ l, is_recent timestamp cutoff l = false) old
    ∧ match recent with [] => True | l :: _ => is_recent timestamp cutoff l = true end
    ∧ zlen (s' ≫= utf8_char) <= max_bytes
    ∧ (zlen (concat recent ≫= utf8_char) <= max_bytes → cut = [])
    ∧ (cut ≠ [] → (∃ c, cut = c ++ [10]) ∨ 10 ∉ s')
    ∧ _trim_log_file timestamp cutoff max_bytes written (Some (s ≫= utf8_char)) =
        if str_eqb s' s then (Ok false, Some (s ≫= utf8_char))
        else if written then (Ok true, Some (s' ≫= utf8_char))
        else (raise OSError "could not write", Some (s ≫= utf8_char)).
Proof.
  intros Hm Hs. destruct (drop_old_split timestamp cutoff (splitlines_keepends s)) as (old & E & Ho & Hh).
  set (recent := drop_old timestamp cutoff (splitlines_keepends s)) in *.
  assert (Forall is_cp (concat recent)) as Hr.
  { rewrite <- (keepends_concat s), E, concat_app in Hs. by apply Forall_app in Hs as [_ ?]. }
  destruct (cap_size_spec max_bytes (concat recent) Hm Hr) as (cut & Ec & Hb & Hfit & Hline).
  exists old, recent, cut, (cap_size max_bytes (concat recent)). split_and!; [done..|].
  unfold _trim_log_file, utf8_decode_replace. rewrite utf8_decode_text by done. cbn [default].
  destruct s as [|c s]; [|done]. change (concat recent) with (@nil Z) in Ec. symmetry in Ec. apply app_eq_nil in Ec as [_ Ec].
  change (concat recent) with (@nil Z). by rewrite Ec.
Qed.
Definition demo_timestamp (line : pystr) : option Z := match line with d :: _ => Some (d - 48) | [] => None end.
Definition demo_log : pystr := str "1 opened" ++ 10 :: str "5 client" ++ 10 :: str "6 closed" ++ [10].
Lemma trim_keeps_recent_witness :
  _trim_log_file demo_timestamp 5 12 true (Some (demo_log ≫= utf8_char)) = (Ok true, Some (str "6 closed" ++ [10]))
  ∧ ∃ old recent cut s',
    splitlines_keepends demo_log = old ++ recent ∧ concat recent = cut ++ s'
    ∧ Forall (λ l, is_recent demo_timestamp 5 l = false) old
    ∧ match recent with [] => True | l :: _ => is_recent demo_timestamp 5 l = true end
    ∧ zlen (s' ≫= utf8_char) <= 12
    ∧ (zlen (concat recent ≫= utf8_char) <= 12 → cut = [])
    ∧ (cut ≠ [] → (∃ c, cut = c ++ [10]) ∨ 10 ∉ s')
    ∧ _trim_log_file demo_timestamp 5 12 true (Some (demo_log ≫= utf8_char)) =
        if str_eqb s' demo_log then (Ok false, Some (demo_log ≫= utf8_char))
        else if true then (Ok true, Some (s' ≫= utf8_char))
        else (raise OSError "could not write", Some (demo_log ≫= utf8_char)).
Proof.
  split; [vm_compute; reflexivity|]. apply (trim_keeps_recent demo_timestamp 5 12 true demo_log); [lia|].
  repeat constructor; done.
Defined.

(** ** A log is read from its end *)
Section tail.
Context (linesep : bytes) (Hsep : linesep = [10] ∨ linesep = [13; 10]).
Definition log_file (ls : list pystr) : bytes := ls ≫= λ l, (l ≫= utf8_char) ++ linesep.

Lemma split_linesep s cur rest :
  Forall (λ c, is_line_end c = false) s →
  split_lines false cur (s ++ linesep ++ rest) = (rev cur ++ s) :: split_lines false [] rest.
Proof.
  destruct Hsep as [-> | ->]; [intros H; cbn [app]; rewrite split_lines_line by done; by rewrite app_nil_r|].
  intros Hs. revert cur. induction Hs as [|c s Hc _ IH]; intros cur; [by cbn; rewrite app_nil_r|].
  cbn [app]. rewrite split_lines_cons by (by intros ->). rewrite Hc. cbn [app] in IH. rewrite IH. cbn. by rewrite <- app_assoc.
Qed.
Lemma read_log_file ls : Forall (Forall text_char) ls → splitlines (utf8_decode_replace (log_file ls)) = ls.
Proof.
  intros Hls. unfold log_file. rewrite (proj1 (read_lines linesep ls Hsep Hls)). unfold splitlines.
  induction Hls as [|l ls Hl Hls IH]; [done|]. cbn [mbind list_bind]. rewrite <- app_assoc, split_linesep.
  - setoid_rewrite IH. done.
  - eapply Forall_impl; [exact Hl|]. by intros c (_ & ? & _).
Qed.
Lemma after_line_app x rest : 10 ∉ x → after_line (x ++ 10 :: rest) = rest.
Proof.
  induction x as [|c x IH]; intros H; [done|]. apply not_elem_of_cons in H as [Hc H]. cbn.
  destruct (Z.eqb_spec c 10); [done|]. by apply IH.
Qed.
Lemma utf8_char_lf c : 0 <= c < 1114112 → 10 ∈ utf8_char c → c = 10.
Proof.
  intros Hc. unfold utf8_char. destruct (Z.ltb_spec c 128); [by intros ->%list_elem_of_singleton|].
  destruct (Z.ltb_spec c 2048); [|destruct (Z.ltb_spec c 65536)]; rewrite !elem_of_cons;
    intros H'; repeat (destruct H' as [H'|H']; [dlia|]); by apply not_elem_of_nil in H'.
Qed.
Lemma block_shape l : Forall text_char l → ∃ y, (l ≫= utf8_char) ++ linesep = y ++ [10] ∧ 10 ∉ y.
Proof.
  intros Hl. assert (10 ∉ (l ≫= utf8_char)) as H.
  { intros (c & H10 & Hc)%list_elem_of_bind. rewrite Forall_forall in Hl. destruct (Hl c Hc) as ([Hr _] & He & _).
    by apply utf8_char_lf in H10 as ->. }
  destruct Hsep as [-> | ->]; [by exists (l ≫= utf8_char)|]. exists ((l ≫= utf8_char) ++ [13]).
  rewrite <- app_assoc. split; [done|]. rewrite not_elem_of_app, not_elem_of_cons. split_and!; [done..|apply not_elem_of_nil].
Qed.
Lemma drop_lines n ls :
  Forall (Forall text_char) ls → (n < length (log_file ls))%nat →
  ∃ pre l post, ls = pre ++ l :: post ∧ after_line (drop n (log_file ls)) = log_file post
    ∧ (length (log_file pre) <= n < length (log_file pre) + length (log_file [l]))%nat.
Proof.
  intros Hls. revert n. induction Hls as [|l ls Hl _ IH]; intros n Hn; [cbn in Hn; lia|].
  assert (log_file (l :: ls) = log_file [l] ++ log_file ls) as E by (cbn; by rewrite app_nil_r).
  rewrite E in Hn |- *. rewrite length_app in Hn. destruct (decide (n < length (log_file [l]))%nat) as [Hlt|Hge].
  - exists [], l, ls. split; [done|]. split; [|change (length (log_file [])) with 0%nat; lia].
    destruct (block_shape l Hl) as (y & Ey & Hy). assert (log_file [l] = y ++ [10]) as El by (cbn; by rewrite app_nil_r).
    rewrite El in Hlt |- *. rewrite length_app in Hlt. cbn in Hlt. rewrite !drop_app_le by (rewrite ?length_app; cbn; lia).
    rewrite <- app_assoc. cbn [app]. apply after_line_app. intros Hin. apply Hy. rewrite <- (take_drop n y). apply elem_of_app. by right.
  - destruct (IH (n - length (log_file [l]))%nat) as (pre & x & post & -> & Ea & Hr); [lia|].
    exists (l :: pre), x, post. rewrite drop_app_ge by lia. split_and!; [done..| |].
    + assert (log_file (l :: pre) = log_file [l] ++ log_file pre) as -> by (cbn; by rewrite app_nil_r). rewrite length_app. lia.
    + assert (log_file (l :: pre) = log_file [l] ++ log_file pre) as -> by (cbn; by rewrite app_nil_r). rewrite length_app. lia.
Qed.

(** the log page shows the end of a log. For a log of whole lines, what is read is the last lines,
    newest first, none of them cut: at most [limit], taken from at most the last [tail_bytes] bytes, and
    fewer than the file and the limit allow only because one more would reach [tail_bytes]. *)
Theorem log_tail_exact limit tail_bytes ls :
  0 < limit → 0 < tail_bytes → Forall (Forall text_char) ls →
  ∃ older shown,
    ls = older ++ shown ∧ read_mapping_log limit tail_bytes (Some (log_file ls)) = rev shown
    ∧ zlen shown <= limit ∧ zlen (log_file shown) <= tail_bytes
    ∧ (older ≠ [] → zlen shown < limit → ∃ o l, older = o ++ [l] ∧ tail_bytes <= zlen (log_file (l :: shown))).
Proof.
  intros Hlim Htail Hls.
  assert (∃ pre post, ls = pre ++ post ∧ slurp tail_bytes (log_file ls) = log_file post ∧ zlen (log_file post) <= tail_bytes
    ∧ (pre ≠ [] → ∃ o l, pre = o ++ [l] ∧ tail_bytes <= zlen (log_file (l :: post)))) as (pre & post & E & Es & Hb & Hpre).
  { unfold slurp. destruct (Z.ltb_spec tail_bytes (zlen (log_file ls))) as [Hlt|Hge]; [|by exists [], ls].
    destruct (drop_lines (Z.to_nat (zlen (log_file ls) - tail_bytes)) ls Hls) as (pre & l & post & -> & Ea & Hr); [unfold zlen in *; lia|].
    exists (pre ++ [l]), post. rewrite <- app_assoc. unfold slice_from. split_and!; [done..| |].
    - unfold log_file in *. rewrite !bind_app in *. unfold zlen in *. cbn [mbind list_bind] in *.
      rewrite !length_app in *. cbn [length] in *. lia.
    - intros _. exists pre, l. split; [done|]. unfold log_file in *. rewrite !bind_app in *. unfold zlen in *.
      rewrite !length_app in *. lia. }
  assert (Forall (Forall text_char) post) as Hpost by (rewrite E in Hls; by apply Forall_app in Hls as [_ ?]).
  cbn [read_mapping_log]. rewrite Es, read_log_file by done.
  set (k := (length post - Z.to_nat limit)%nat). exists (pre ++ take k post), (last_n limit post).
  unfold last_n. fold k. split_and!.
  - by rewrite <- app_assoc, take_drop.
  - done.
  - unfold zlen. rewrite length_drop. unfold k. lia.
  - rewrite <- (take_drop k post) in Hb. unfold log_file in *. rewrite bind_app, zlen_app in Hb.
    pose proof (zlen_nonneg (take k post ≫= λ l, (l ≫= utf8_char) ++ linesep)). lia.
  - intros Hne Hl. unfold zlen in Hl. rewrite length_drop in Hl. assert (k = 0)%nat as -> by (unfold k in *; lia).
    cbn [take drop]. rewrite app_nil_r in *. by apply Hpre.
Qed.
End tail.
Definition demo_lines : list pystr := str <$> ["10:00 opened"; "10:01 client"; "10:02 closed"]%string.
Lemma log_tail_exact_witness :
  read_mapping_log 5 30 (Some (log_file [13; 10] demo_lines)) = str <$> ["10:02 closed"; "10:01 client"]%string
  ∧ ∃ older shown,
    demo_lines = older ++ shown ∧ read_mapping_log 5 30 (Some (log_file [13; 10] demo_lines)) = rev shown
    ∧ zlen shown <= 5 ∧ zlen (log_file [13; 10] shown) <= 30
    ∧ (older ≠ [] → zlen shown < 5 → ∃ o l, older = o ++ [l] ∧ 30 <= zlen (log_file [13; 10] (l :: shown))).
Proof.
  split; [vm_compute; reflexivity|]. apply (log_tail_exact [13; 10] (or_intror eq_refl) 5 30 demo_lines); [lia..|].
  repeat constructor; done.
Defined.

(** ** A mapping's id is never checked, and file names are made from it

    The mapping form may name any id; with an absolute path as the id the trace is written wherever it
    says, not in the trace directory. *)
Example form_id_escapes_trace_dir :
  let r := demo_run (SaveForm (demo_form "/etc/cron.d/x" "/dev/ttyS0" "4001" "on")) first_state in
  is_done r = true ∧ (λ m, eq_str (id m) (str "/etc/cron.d/x")) <$> mappings (config r.2) = [true]
  ∧ trace_path (str "/data/traces") (str "/etc/cron.d/x") (str "trace.log") = str "/etc/cron.d/x-trace.log"
  ∧ mapping_log_path (str "/data/logs") (str "/etc/cron.d/x") = str "/etc/cron.d/x.log".
Proof. by vm_compute. Qed.

(** Deleting the mapping "a" deletes the traces of the mapping "a-b" too. *)
Example trace_prefix_clash :
  delete_mapping_traces (λ _, true) (str "a") [(str "a-b-trace.log", 1); (str "c-trace.log", 2)] = [(str "c-trace.log", 2)].
Proof. by vm_compute. Qed.
