(* ===== verification/Pages.v ===== *)
(** * Pages, API answers and translation (app/web/routes/mappings.py and system.py, app/web/api.py, app/i18n.py)

    What the mapping pages and the REST API do around the operations of [Ops]: who may call them, the answer to each
    outcome, what a reader is shown, and what goes to the audit log. Templates are not rendered: a page is its
    data. The status of a mapping is the dict its runner gives. *)
From Stdlib Require Import SpecFloat.
From S2P Require Import Prelude PyFloat PyStr PyVal IpAddr PyNum Json JsonOut Config AppConfig Auth Store ConfigStore Supervisor Importer Forms Ops Logs.
#[local] Open Scope Z_scope.

(** ** Translation *)
Definition LANGUAGES : list pystr := str <$> ["en"; "tr"]%string.
Definition DEFAULT : pystr := str "en".
Definition known (l : pystr) : bool := existsb (str_eqb l) LANGUAGES.
Definition set_language (lang : pystr) : pystr := if known lang then lang else DEFAULT.
(** [catalog lang]: the translations, empty for English and when the file cannot be read. *)
Definition gettext (catalog : pystr → list (pystr * pystr)) (lang message : pystr) : pystr :=
  match message with
  | [] => []
  | _ => match assoc message (if str_eqb lang DEFAULT then [] else catalog lang) with Some t => t | None => message end
  end.
Definition ngettext (catalog : pystr → list (pystr * pystr)) (lang singular plural : pystr) (n : Z) : pystr :=
  gettext catalog lang (if n =? 1 then singular else plural).
(** One entry of Accept-Language: its language and weight. *)
Definition before (c : Z) (s : pystr) : pystr := match split_first c s with Some (a, _) => a | None => s end.
Definition past (c : Z) (s : pystr) : pystr := match split_first c s with Some (_, b) => b | None => [] end.
Definition f0 : pyfloat := S754_zero false.
Definition language_entry (part : pystr) : pystr * pyfloat :=
  let part := strip part in
  let params := strip (past 59 part) in
  let q := if starts_with params (str "q=") then default f0 (float_of_text (drop 2 params)) else f1 in
  (before 45 (lower (strip (before 59 part))), q).
Fixpoint best_language (best : pystr) (best_q : pyfloat) (parts : list pystr) : pystr :=
  match parts with
  | [] => best
  | p :: parts =>
      let '(code, q) := language_entry p in
      if known code && SFltb best_q q then best_language code q parts else best_language best best_q parts
  end.
Definition negotiate (cookie accept_language : option pystr) (dflt : pystr) : pystr :=
  match cookie with
  | Some c => if known c then c else
                if known dflt then dflt else best_language DEFAULT f0 (split_on 44 (default [] accept_language))
  | None => if known dflt then dflt else best_language DEFAULT f0 (split_on 44 (default [] accept_language))
  end.
Lemma best_language_known best q parts : known best = true → known (best_language best q parts) = true.
Proof.
  revert best q. induction parts as [|p parts IH]; intros best q Hb; cbn [best_language]; [done|].
  destruct (language_entry p) as [code w]. destruct (known code && SFltb q w) eqn:E; [|by apply IH].
  apply andb_true_iff in E as [? _]. by apply IH.
Qed.
Lemma negotiate_known cookie accept dflt : known (negotiate cookie accept dflt) = true.
Proof.
  assert (known (if known dflt then dflt else best_language DEFAULT f0 (split_on 44 (default [] accept))) = true) as H.
  { destruct (known dflt) eqn:E; [done|]. by apply best_language_known. }
  unfold negotiate. destruct cookie as [c|]; [|done]. by destruct (known c) eqn:E.
Qed.
Example negotiate_weights : negotiate None (Some (str "de, en;q=0.3, tr-TR;q=0.8")) (str "auto") = str "tr".
Proof. vm_compute. reflexivity. Qed.

(** The language page: where it goes back to, and the cookie. *)
Definition set_language_page (code : pystr) (next : option pystr) : pystr * option pystr :=
  let nxt := match next with Some ((_ :: _) as n) => n | _ => str "/" end in
  let nxt := if negb (starts_with nxt (str "/")) || starts_with nxt (str "//") || existsb (Z.eqb 92) nxt then str "/" else nxt in
  (nxt, if known code then Some code else None).
(** Only a path of this server is followed: it begins with one slash, and no backslash can stand for a second. *)
Lemma language_stays_local code next :
  let to := (set_language_page code next).1 in
  (∃ t, to = 47 :: t ∧ head t ≠ Some 47) ∧ 92 ∉ to.
Proof.
  unfold set_language_page. cbn [fst]. set (n := match next with Some ((_ :: _) as n) => n | _ => str "/" end).
  destruct (_ || _) eqn:E.
  - split; [by exists []|]. intros H. apply list_elem_of_singleton in H. discriminate H.
  - rewrite !orb_false_iff, negb_false_iff in E. destruct E as [[E1 E2] E3]. split.
    + unfold starts_with in E1, E2. change (str "/") with [47] in E1. change (str "//") with [47; 47] in E2.
      destruct n as [|c t]; [done|]. cbn [is_prefix] in E1, E2. destruct (Z.eqb_spec 47 c) as [<-|]; [|done]. exists t. split; [done|]. destruct t as [|d t]; [done|]. intros [= ->]. done.
    + intros H. rewrite <- not_true_iff_false in E3. apply E3, existsb_exists. exists 92. split; [by apply list_elem_of_In|done].
Qed.

(** ** Metrics *)
Section metrics.
Context (repr : pyval → pystr).
Definition bs : pystr := [92].
Definition quote : pystr := [34].
Definition _metric_label (name : pystr) : pystr :=
  replace_all [10] (str " ") (replace_all quote (bs ++ quote) (replace_all bs (bs ++ bs) name)).
Definition stat (st : list (pystr * pyval)) (k : string) : pystr := str_of_val repr (get st k (VInt 0)).
Definition metric (what lbl value : pystr) : pystr := str "ser2net_mapping_" ++ what ++ str "{" ++ lbl ++ str "} " ++ value.
Definition mapping_metrics (st : list (pystr * pyval)) (m : MappingConfig) : list pystr :=
  let lbl := str "mapping=" ++ quote ++ _metric_label (str_of_val repr (name m)) ++ quote ++ str ",id=" ++ quote
             ++ str_of_val repr (id m) ++ quote in
  [metric (str "running") lbl (if eq_str (get st "state" VNone) (str "running") then str "1" else str "0");
   metric (str "clients") lbl (stat st "client_count"); metric (str "bytes_in_total") lbl (stat st "bytes_in");
   metric (str "bytes_out_total") lbl (stat st "bytes_out"); metric (str "reconnects_total") lbl (stat st "reconnects");
   metric (str "dropped_clients_total") lbl (stat st "dropped_clients")].
(** [statuses]: what each runner reports, by the id of its mapping. *)
Definition metrics (statuses : pyval → list (pystr * pyval)) (ms : list MappingConfig) : pystr :=
  join [10] ([str "# ser2net metrics"; str "ser2net_up 1"; str "ser2net_mappings_total " ++ str_of_Z (zlen ms)]
             ++ (ms ≫= λ m, mapping_metrics (statuses (id m)) m)) ++ [10].
End metrics.
Definition with_id (i : pystr) (m : MappingConfig) : MappingConfig :=
  mkMapping (VStr i) (name m) (enabled m) (kind m) (serial m) (serial_b m) (network m) (options m) (mqtt m) (modbus_poll m).
(** The id of a mapping is not escaped: one with a quote and a line break in it (a form's id is never checked) writes
    lines of its own into the metrics. *)
Example id_breaks_metrics :
  let evil := str "x" ++ quote ++ str "} 1" ++ [10] ++ str "ser2net_up 0" ++ [10] ++ str "a{b=" ++ quote in
  existsb (str_eqb (str "ser2net_up 0")) (split_on 10 (metrics (λ _, []) (λ _, []) (with_id evil <$> take 1 demo_loaded))) = true.
Proof. vm_compute. reflexivity. Qed.

(** ** The REST API *)
Section api.
Context (word : Z → bool) (repr : pyval → pystr) (isfile : pystr → bool) (e : env) (status : pystr → option (list (pystr * pyval))).

Definition REDACTED : pystr := str "********".
(** What [view[...]] and [.get] need. *)
Definition dict_of (v : pyval) : res (list (pystr * pyval)) :=
  match v with VDict d => Ok d | _ => raise AttributeError "object has no attribute 'get'" end.
Definition _mapping_view (role : pyval) (m : MappingConfig) : res pyval :=
  view ← dict_of (mapping_to_dict m);
  mq ← dict_of (get view "mqtt" VNone);
  let view := if eq_str role (str "viewer") && truthy (get mq "password" VNone)
              then dict_set (str "mqtt") (VDict (dict_set (str "password") (VStr REDACTED) mq)) view else view in
  let st := match id m with VStr i => status i | _ => None end in
  Ok (VDict (dict_set (str "status") (match st with Some d => VDict d | None => VNone end) view)).
Inductive api_call :=
  | ListMappings | GetMapping (mid' : pystr) | CreateMapping (body : option pyval) | UpdateMapping (mid' : pystr) (body : option pyval)
  | DeleteMapping (mid' : pystr) | MappingAction (mid' action : pystr) | Health.
(** An answer: its status code and body; what is recorded in the audit log; the state afterwards. *)
Definition answer : Type := res (Z * pyval) * list (pystr * pyval) * state.
Definition error (code : Z) (what : string) : res (Z * pyval) := Ok (code, VDict [key "error" (vstr what)]).
Definition not_found_error (x : exn) : bool := String.eqb (exn_msg x) "Mapping not found".
Definition is_object (body : option pyval) : bool := match body with Some (VDict _) => true | _ => false end.
Definition refused (body : option pyval) (x : exn) : res (Z * pyval) :=
  if not_found_error x then error 404 "not_found" else if is_object body then error 400 "validation" else error 400 "invalid_json".
(** The mapping a change has left under an id, as its answer shows it. *)
Definition shown (code : Z) (m : option MappingConfig) (s : state) : res (Z * pyval) :=
  match m with
  | Some m => v ← _mapping_view (api_token_role (config s)) m; Ok (code, v)
  | None => error 404 "not_found"
  end.
Definition views (s : state) : res (list pyval) :=
  foldr (λ m l, v ← _mapping_view (api_token_role (config s)) m; l ← l; Ok (v :: l)) (Ok []) (mappings (config s)).
Definition api_handle (c : api_call) (s : state) : answer :=
  match c with
  | ListMappings => ((l ← views s; Ok (200, VDict [key "mappings" (VList l)])), [], s)
  | GetMapping i => (shown 200 (get_mapping (VStr i) (mappings (config s))) s, [], s)
  | CreateMapping body =>
      match create_mapping word repr isfile e body s with
      | (Done n, s') => (shown 201 (last (mappings (config s'))) s', [(str "api_mapping_create", n)], s')
      | (Refused x, s') => (refused body x, [], s')
      | (Raised x, s') => (Raise x, [], s')
      end
  | UpdateMapping i body =>
      match update_mapping word repr isfile e i body s with
      | (Done n, s') => (shown 200 (get_mapping (VStr i) (mappings (config s'))) s', [(str "api_mapping_update", n)], s')
      | (Refused x, s') => (refused body x, [], s')
      | (Raised x, s') => (Raise x, [], s')
      end
  | DeleteMapping i =>
      match delete_mapping repr isfile e i s with
      | (Done n, s') => (Ok (200, VDict [key "deleted" (VStr i)]), [(str "api_mapping_delete", n)], s')
      | (Refused x, s') => (error 404 "not_found", [], s')
      | (Raised x, s') => (Raise x, [], s')
      end
  | MappingAction i action =>
      match mapping_action repr isfile e i action s with
      | (Done n, s') =>
          (Ok (200, VDict [key "id" (VStr i); key "action" (VStr action);
                           key "status" (match status i with Some d => VDict d | None => VNone end)]),
           [(str "api_mapping_" ++ action, n)], s')
      | (Refused x, s') => (if not_found_error x then error 404 "not_found" else error 400 "unknown_action", [], s')
      | (Raised x, s') => (Raise x, [], s')
      end
  | Health => (Ok (200, VDict [key "status" (vstr "ok"); key "mappings" (VInt (zlen (mappings (config s))))]), [], s)
  end.

(** ** The mapping pages *)
Inductive page_call :=
  | PageSave (f : form) | PageDelete (mid' : pystr) | PageAction (mid' action : pystr) | PageDuplicate (mid' : pystr)
  | PageBulk (action : pystr) (ids : list pystr).
(** [Trigger]: an empty answer that makes the table reload; [FormError]: the form again, with the message. *)
Inductive page := Forbidden (code : Z) | Trigger | FormError (x : exn) | Text (code : Z) (msg : string) | Crash (x : exn).
Definition known_action (action : pystr) : bool := existsb (str_eqb action) (str <$> ["start"; "stop"; "restart"]%string).
(** The actions of a selection, with the names of the mappings they were done for. *)
Fixpoint bulk_done (action : pystr) (ids : list pystr) (s : state) : res unit * list pyval * state :=
  match ids with
  | [] => (Ok tt, [], s)
  | i :: ids' =>
      match apply_action repr isfile e i action s with
      | (Raised x, s') => (Raise x, [], s')
      | (Done n, s') => let '(r, l, s2) := bulk_done action ids' s' in (r, n :: l, s2)
      | (Refused _, s') => bulk_done action ids' s'
      end
  end.
Definition page_handle (u : option User) (c : page_call) (s : state) : page * list (pystr * pyval) * state :=
  match require_role u "operator" with
  | Some code => (Forbidden code, [], s)
  | None =>
      match c with
      | PageSave f =>
          match save_mapping_from_form word repr isfile e f s with
          | (Done n, s') => (Trigger, [(str "mapping_save", n)], s')
          | (Refused x, s') => (FormError x, [], s')
          | (Raised x, s') => (Crash x, [], s')
          end
      | PageDelete i =>
          match delete_mapping repr isfile e i s with
          | (Done n, s') => (Trigger, [(str "mapping_delete", n)], s')
          | (Refused _, s') => (Trigger, [], s')
          | (Raised x, s') => (Crash x, [], s')
          end
      | PageAction i action =>
          if negb (known_action action) then (Text 400 "Unknown action", [], s)
          else
            match apply_action repr isfile e i action s with
            | (Done n, s') => (Trigger, [(str "mapping_" ++ action, n)], s')
            | (Refused x, s') => (Text 404 (exn_msg x), [], s')
            | (Raised x, s') => (Crash x, [], s')
            end
      | PageDuplicate i =>
          match mapping_duplicate word repr isfile e i s with
          | (Done n, s') => (Trigger, [(str "mapping_duplicate", n)], s')
          | (Refused x, s') => (if not_found_error x then Text 404 "Mapping not found" else Text 400 "Duplicate failed: {0}", [], s')
          | (Raised x, s') => (Crash x, [], s')
          end
      | PageBulk action ids =>
          let ids := List.filter (λ i, negb (is_empty i)) ids in
          if negb (known_action action) then (Text 400 "Unknown action", [], s)
          else if match ids with [] => true | _ => false end || (500 <? zlen ids) then (Text 400 "Select one or more mappings.", [], s)
          else
            let '(r, names, s') := bulk_done action ids s in
            (match r with Ok _ => Trigger | Raise x => Crash x end, (λ n, (str "mapping_" ++ action, n)) <$> names, s')
      end
  end.

(** *** What the pages and the API keep *)
Lemma commit_refused ms s next x s' :
  (∀ s1 y s2, next s1 = (Refused y, s2) → False) → commit repr isfile e ms s next = (Refused x, s') → s' = s.
Proof.
  intros Hn. unfold commit. pose proof (asave_spec repr isfile e (set_mappings ms s)) as Ha.
  destruct (asave _ _ _ _) as [[u|y] d]; [intros E; by apply Hn in E|]. destruct Ha as [_ Hd].
  destruct (config_error y); [|done]. intros [= _ <-]. rewrite (Hd eq_refl). by destruct s.
Qed.
Lemma raising_not_refused ms s next x s' :
  (∀ s1 y s2, next s1 = (Refused y, s2) → False) → commit_raising repr isfile e ms s next = (Refused x, s') → False.
Proof. intros Hn. unfold commit_raising. destruct (asave _ _ _ _) as [[u|y] d]; [|done]. apply Hn. Qed.
Lemma action_refused i action s x s' : apply_action repr isfile e i action s = (Refused x, s') → s' = s.
Proof.
  unfold apply_action. destruct (get_mapping _ _); [|by intros [= _ <-]]. intros E. by apply raising_not_refused in E.
Qed.
Lemma delete_refused i s x s' : delete_mapping repr isfile e i s = (Refused x, s') → s' = s.
Proof.
  unfold delete_mapping. destruct (get_mapping _ _); [|by intros [= _ <-]]. intros E. by apply raising_not_refused in E.
Qed.
Lemma save_refused f s x s' : save_mapping_from_form word repr isfile e f s = (Refused x, s') → s' = s.
Proof.
  unfold save_mapping_from_form. destruct (parse_form _ _ _ _ _ _) as [m|y]; [by apply commit_refused|]. by destruct (value_error y); intros [= _ <-].
Qed.
Lemma duplicate_refused i s x s' : mapping_duplicate word repr isfile e i s = (Refused x, s') → s' = s.
Proof.
  unfold mapping_duplicate. destruct (get_mapping _ _); [|by intros [= _ <-]]. destruct (duplicate_of _ _ _ _ _); [|done]. by apply commit_refused.
Qed.
Lemma create_refused body s x s' : create_mapping word repr isfile e body s = (Refused x, s') → s' = s.
Proof.
  unfold create_mapping. destruct (parse_body _ _ _ _ _ _) as [m|y]; [by apply commit_refused|]. by destruct (value_error y); intros [= _ <-].
Qed.
Lemma update_refused i body s x s' : update_mapping word repr isfile e i body s = (Refused x, s') → s' = s.
Proof.
  unfold update_mapping. destruct (parse_body _ _ _ _ _ _) as [m|y]; [|by destruct (value_error y); intros [= _ <-]].
  destruct (get_mapping _ _); [by apply commit_refused|by intros [= _ <-]].
Qed.
(** The pages' loop over a selection is the one of [Ops]. *)
Lemma bulk_done_state action ids s : (bulk_done action ids s).2 = (bulk_actions repr isfile e action ids s).2.
Proof.
  revert s. induction ids as [|i ids IH]; intros s; [done|]. cbn [bulk_done bulk_actions].
  destruct (apply_action _ _ _ _ _ _) as [[n|x|x] s']; [|by apply IH|done].
  rewrite <- IH. by destruct (bulk_done action ids s') as [[r l] s2].
Qed.
Lemma bulk_unchanged action ids s s' : bulk_done action ids s = (Ok tt, [], s') → s' = s.
Proof.
  revert s. induction ids as [|i ids IH]; intros s; cbn [bulk_done]; [by intros [= <-]|].
  destruct (apply_action _ _ _ _ _ _) as [[n|x|x] s1] eqn:E; [|intros H; apply action_refused in E as ->; by apply IH|done].
  by destruct (bulk_done action ids s1) as [[r l] s2].
Qed.
(** only operators change mappings from the pages, and nothing is changed unrecorded: without the role a
    request is answered 403 and leaves everything as it is; with it, a page that answers without an exception and
    writes no audit record has changed nothing at all. *)
Theorem pages_audited u c s :
  let '(p, audits, s') := page_handle u c s in
  (require_role u "operator" ≠ None → p = Forbidden 403 ∧ audits = [] ∧ s' = s)
  ∧ ((∀ x, p ≠ Crash x) → audits = [] → s' = s).
Proof.
  unfold page_handle. destruct (require_role u "operator") as [code|] eqn:Er.
  { split; [|done]. intros _. unfold require_role in Er. destruct u as [x|]; [destruct (_ <? _)|]; by simplify_eq. }
  destruct c as [f|i|i action|i|action ids].
  - destruct (save_mapping_from_form _ _ _ _ _ _) as [[n|x|x] s'] eqn:E; split; try done; intros Hc _; [by apply save_refused in E|by destruct (Hc x)].
  - destruct (delete_mapping _ _ _ _ _) as [[n|x|x] s'] eqn:E; split; try done; intros Hc _; [by apply delete_refused in E|by destruct (Hc x)].
  - destruct (negb (known_action action)); [done|].
    destruct (apply_action _ _ _ _ _ _) as [[n|x|x] s'] eqn:E; split; try done; intros Hc _; [by apply action_refused in E|by destruct (Hc x)].
  - destruct (mapping_duplicate _ _ _ _ _ _) as [[n|x|x] s'] eqn:E; split; try done; intros Hc _; [by apply duplicate_refused in E|by destruct (Hc x)].
  - destruct (negb (known_action action)); [done|]. destruct (_ || _); [done|].
    destruct (bulk_done _ _ _) as [[[[]|x] l] s'] eqn:E; (split; [done|]); intros Hc Hl; [|by destruct (Hc x)].
    apply fmap_nil_inv in Hl as ->. by apply bulk_unchanged in E.
Qed.
(** The same of the REST API, whose callers the gate has checked. *)
Theorem api_audited c s :
  let '(r, audits, s') := api_handle c s in (∀ x, r ≠ Raise x) → audits = [] → s' = s.
Proof.
  destruct c; cbn [api_handle]; try done.
  - destruct (create_mapping _ _ _ _ _ _) as [[n|x|x] s'] eqn:E; intros Hc Hl; [done|by apply create_refused in E|by destruct (Hc x)].
  - destruct (update_mapping _ _ _ _ _ _ _) as [[n|x|x] s'] eqn:E; intros Hc Hl; [done|by apply update_refused in E|by destruct (Hc x)].
  - destruct (delete_mapping _ _ _ _ _) as [[n|x|x] s'] eqn:E; intros Hc Hl; [done|by apply delete_refused in E|by destruct (Hc x)].
  - unfold mapping_action. destruct (existsb _ _); [|done].
    destruct (apply_action _ _ _ _ _ _) as [[n|x|x] s'] eqn:E; intros Hc Hl; [done|by apply action_refused in E|by destruct (Hc x)].
Qed.
(** A token that may only read is never shown a stored password, and every other token sees the mapping as it is saved. *)
Theorem view_redacted role m v :
  _mapping_view role m = Ok v →
  ∃ view mq, v = VDict view ∧ assoc (str "mqtt") view = Some (VDict mq) ∧
  if eq_str role (str "viewer") then truthy (get mq "password" VNone) = true → get mq "password" VNone = VStr REDACTED
  else ∃ d, mapping_to_dict m = VDict d ∧ ∀ k, k ≠ str "status" → assoc k view = assoc k d.
Proof.
  unfold _mapping_view. destruct (mapping_to_dict m) as [| | | | | | |d] eqn:Em; try done. cbn [dict_of mbind res_bind].
  destruct (get d "mqtt" VNone) as [| | | | | | |mq] eqn:Eq; try done. cbn [dict_of mbind res_bind]. intros [= <-].
  assert (assoc (str "mqtt") d = Some (VDict mq)) as Ha by (unfold get in Eq; destruct (assoc (str "mqtt") d); [by f_equal|done]).
  assert (∀ (w : pyval) l, assoc (str "mqtt") (dict_set (str "status") w l) = assoc (str "mqtt") l) as Hs by (intros w l; by rewrite assoc_dict_set).
  destruct (eq_str role (str "viewer")) eqn:Ev; cbn [andb].
  - destruct (truthy (get mq "password" VNone)) eqn:Et.
    + eexists _, _. split; [done|]. rewrite Hs, assoc_dict_set_eq. split; [done|]. intros _. unfold get. by rewrite assoc_dict_set_eq.
    + eexists _, mq. split; [done|]. rewrite Hs. split; [done|]. congruence.
  - eexists _, mq. split; [done|]. rewrite Hs. split; [done|]. exists d. split; [done|]. intros k Hk. by rewrite assoc_dict_set_ne.
Qed.
End api.

(** ** Reading: the table, the log, the traces, the console panel *)
Section readers.
Context (repr : pyval → pystr).

(** The table is sent again only when it changed: [digest] is that of the page, [seen] the browser's. *)
Definition api_status (digest : pystr) (seen : option pystr) (body : pystr) : Z * pystr * pystr :=
  if match seen with Some h => str_eqb h digest | None => false end then (204, [], digest) else (200, body, digest).

(** [f"{size / d:.1f}"]: both divisors are powers of two, so the quotient is exact and its rounding is to even. *)
Definition one_decimal (size d : Z) : pystr :=
  let q := 10 * size / d in
  let r := 10 * size mod d in
  let t := if (d <? 2 * r) || ((2 * r =? d) && Z.odd q) then q + 1 else q in
  str_of_Z (t / 10) ++ str "." ++ str_of_Z (t mod 10).
Definition size_text (size : Z) : pystr :=
  if 1048576 <=? size then one_decimal size 1048576 ++ str " MB"
  else if 1024 <=? size then one_decimal size 1024 ++ str " KB" else str_of_Z size ++ str " B".
Record trace_row := mkRow { tr_name : pystr; tr_size : pystr; tr_time : pystr }.
(** [stat] is the size and the time (as text) of a file that is still there; [dir] is the trace directory. *)
Definition _trace_files (stat : pystr → option (Z * pystr)) (mid' : pystr) (dir : list (pystr * Z)) : list trace_row :=
  omap (λ f, match stat f with Some (size, t) => Some (mkRow f (size_text size) t) | None => None end) (trace_files mid' dir).
(** [None] is a 404; the download is recorded with the mapping's name. *)
Definition mapping_trace_file (stat : pystr → option (Z * pystr)) (ms : list MappingConfig) (mid' file : pystr) (dir : list (pystr * Z))
    : option (pystr * (pystr * pystr)) :=
  match get_mapping (VStr mid') ms, find (λ r, str_eqb (tr_name r) file) (_trace_files stat mid' dir) with
  | Some m, Some r => Some (tr_name r, (str "trace_download", str_of_val repr (name m) ++ str "/" ++ file))
  | _, _ => None
  end.
Record traces_page := mkTraces { tp_files : list trace_row; tp_tracing : bool; tp_current : pystr; tp_keep : pyval; tp_hexdump : pyval }.
Definition mapping_traces (stat : pystr → option (Z * pystr)) (ms : list MappingConfig) (mid' : pystr) (dir : list (pystr * Z)) : option traces_page :=
  match get_mapping (VStr mid') ms with
  | None => None
  | Some m =>
      let o := options m in
      Some (mkTraces (_trace_files stat mid' dir) (negb (is_empty (trace_both o))) (mid' ++ str "-" ++ trace_both o)
              (trace_keep o) (trace_hexdump o))
  end.
Definition mapping_log (ms : list MappingConfig) (mid' : pystr) (tail_bytes : Z) (file : option bytes) : option (pyval * list pystr) :=
  match get_mapping (VStr mid') ms with Some m => Some (name m, read_mapping_log 1000 tail_bytes file) | None => None end.
(** Whether the panel offers typing, and whether it shows a serial bridge. *)
Definition console_view (ms : list MappingConfig) (mid' : pystr) : option (pyval * bool * bool) :=
  match get_mapping (VStr mid') ms with
  | Some m => Some (name m, eq_str (kind m) (str "net") && negb (truthy (read_only (network m))), eq_str (kind m) (str "serialbridge"))
  | None => None
  end.
(** The form renders stored secrets, so only editors get it. *)
Definition mapping_form_edit (u : option User) (ms : list MappingConfig) (mid' : pystr) : MappingConfig + Z :=
  match require_role u "operator" with
  | Some code => inr code
  | None => match get_mapping (VStr mid') ms with Some m => inl m | None => inr 404 end
  end.

(** A download is one of the mapping's own trace files: in the trace directory, under the mapping's id. *)
Lemma download_own stat ms mid' file dir f a :
  mapping_trace_file stat ms mid' file dir = Some (f, a) →
  f = file ∧ file ∈ dir.*1 ∧ starts_with file (mid' ++ str "-") = true ∧ ∃ m, get_mapping (VStr mid') ms = Some m.
Proof.
  unfold mapping_trace_file. destruct (get_mapping _ _) as [m|]; [|done]. destruct (find _ _) as [r|] eqn:E; [|done]. intros [= <- <-].
  apply find_some in E as [Hin Hn]. apply str_eqb_eq in Hn. apply list_elem_of_In in Hin. unfold _trace_files in Hin.
  apply list_elem_of_omap in Hin as (x & Hx & Hr). destruct (stat x) as [[size t]|]; [|done]. injection Hr as <-. cbn [tr_name] in *. subst x.
  unfold trace_files in Hx. apply list_elem_of_fmap in Hx as ([n t'] & E & Hx). cbn in E. subst n.
  rewrite sort_by_perm in Hx. apply list_elem_of_In, filter_In in Hx as [Hx Hp]. split_and!; [done| |done|by exists m].
  apply list_elem_of_fmap. exists (file, t'). split; [done|by apply list_elem_of_In].
Qed.
End readers.
Example size_texts : size_text <$> [999; 1024; 1280; 5767168] = [str "999 B"; str "1.0 KB"; str "1.2 KB"; str "5.5 MB"].
Proof. vm_compute. reflexivity. Qed.
