(* ===== verification/Notify.v ===== *)
(** * Event notifications (app/notify.py)

    Events are found by comparing two snapshots of the mappings' statuses, queued when they are enabled
    and not repeats, and sent by a worker within a rate limit. Clock readings are integers, [tick] of
    them a second; the network calls are parameters. *)
From stdpp Require Import sorting.
From S2P Require Import Prelude PyFloat PyStr PyVal Json JsonOut Config AppConfig.
#[local] Open Scope Z_scope.

Definition MAX_PER_MINUTE : Z := 20.
Definition QUEUE_MAX : nat := 200.

(** A mapping's status as far as notifications read it; [st_peers] are its clients' addresses. *)
Record status := mkStatus {
  st_state : pystr;
  st_peers : list pystr;
  st_device : pystr;
  st_error : pystr;
}.
Record event := mkEvent { ev_kind : pystr; ev_key : pystr; ev_name : pystr; ev_detail : pystr }.
(** A snapshot: each mapping's state and set of peers. *)
Abbreviation shot := (gmap pystr (pystr * gset pystr)).

Definition _LOST : list pystr := str <$> ["reconnecting"; "device-missing"]%string.
Definition is_lost (s : pystr) : bool := existsb (str_eqb s) _LOST.
Definition or_str (a b : pystr) : pystr := match a with [] => b | _ => a end.
Definition sorted_peers (s : gset pystr) : list pystr := sort_by str_leb (elements s).

(** The events of one mapping, against what the last snapshot has of it. *)
Definition mapping_events (mid name : pystr) (old : pystr * gset pystr) (st : status) : list event :=
  let ev k key d := mkEvent (str k) key name d in
  let peers := list_to_set (st_peers st) : gset pystr in
  let running := str_eqb (st_state st) (str "running") in
  (if str_eqb old.1 (str "running") && is_lost (st_state st)
   then [ev "device_lost"%string mid (or_str (st_error st) (st_device st))]
   else if is_lost old.1 && running then [ev "device_back"%string mid (st_device st)] else [])
  ++ (if str_eqb (st_state st) (str "error") && negb (str_eqb old.1 (str "error"))
      then [ev "start_failed"%string mid (st_error st)] else [])
  ++ ((λ p, ev "client_connected"%string (mid ++ str ":" ++ p) p) <$> sorted_peers (peers ∖ old.2))
  ++ ((λ p, ev "client_disconnected"%string (mid ++ str ":" ++ p) p) <$> sorted_peers (old.2 ∖ peers)).
Definition status_events (prev : shot) (statuses : list (pystr * status)) (names : gmap pystr pystr) : list event :=
  statuses ≫= λ '(mid, st),
    match names !! mid, prev !! mid with
    | Some name, Some old => mapping_events mid name old st
    | _, _ => []
    end.
Definition snapshot (statuses : list (pystr * status)) : shot :=
  foldl (λ m '(mid, st), <[mid := (st_state st, list_to_set (st_peers st))]> m) ∅ statuses.

(** ** Texts *)
Section texts.
Context (hostname version : pystr) (title : pystr → pystr) (now_text : pystr).
Definition message (e m detail : pystr) : pystr * pystr :=
  let head := str "ser2net " ++ hostname ++ str ": "
                ++ (match m with [] => [] | _ => m ++ [32; 8212; 32] end) ++ title e in
  (head, head ++ match detail with [] => [] | _ => 10 :: detail end).
Definition webhook_body (fmt : pyval) (e m detail chat_id : pystr) : pyval :=
  let '(head, text) := message e m detail in
  if eq_str fmt (str "slack") then VDict [key "text" (VStr text)]
  else if eq_str fmt (str "discord") then VDict [key "content" (VStr (take 2000 text))]
  else if eq_str fmt (str "telegram") then VDict [key "chat_id" (VStr chat_id); key "text" (VStr (take 4096 text))]
  else if eq_str fmt (str "teams") then
    VDict [key "type" (vstr "message"); key "attachments" (VList [VDict [
      key "contentType" (vstr "application/vnd.microsoft.card.adaptive");
      key "content" (VDict [key "type" (vstr "AdaptiveCard"); key "version" (vstr "1.4");
        key "$schema" (vstr "http://adaptivecards.io/schemas/adaptive-card.json");
        key "body" (VList [
          VDict [key "type" (vstr "TextBlock"); key "text" (VStr head); key "weight" (vstr "Bolder"); key "wrap" (VBool true)];
          VDict [key "type" (vstr "TextBlock"); key "text" (VStr (or_str detail (str " "))); key "wrap" (VBool true)]])])]])]
  else VDict [key "event" (VStr e); key "mapping" (VStr m); key "detail" (VStr detail); key "text" (VStr text);
              key "node" (VStr hostname); key "time" (VStr now_text); key "version" (VStr version)].
End texts.

(** ** The notifier *)
Record message_item := mkItem { it_event : pystr; it_mapping : pystr; it_detail : pystr }.
Record notifier := mkNotifier {
  _queue : list message_item;
  _last : gmap (pystr * pystr) Z;
  _sent : list Z;
  _prev : shot;
}.
Definition notifier0 (prev : shot) : notifier := mkNotifier [] ∅ [] prev.

(** What a step does outside: an accepted event (with its time), a message handed to the channels (with
    the time), or a line in the log. *)
Inductive effect :=
  | Queued (now : Z) (e k : pystr) (i : message_item)
  | Sent (now : Z) (i : message_item) (errors : list pystr)
  | NotSent (i : message_item)
  | WatcherError.

Section notifier.
Context (tick : Z) (shorter : Z → pyfloat → bool) (repr : pyval → pystr).

(** [now - last < s.repeat_s]: an int after validation; [shorter] compares with a float of a
    configuration file edited by hand. *)
Definition repeated (elapsed : Z) (s : NotificationSettings) : res bool :=
  match repeat_s s with
  | VInt _ | VBool _ => Ok (elapsed <? int_of (repeat_s s) * tick)
  | VFloat f => Ok (shorter elapsed f)
  | _ => raise TypeError "'<' not supported"
  end.
(** The answer, the notifier, and the event when it was queued. *)
Definition emit (s : NotificationSettings) (now : Z) (e : event) (n : notifier) : res bool * notifier * list effect :=
  if negb (truthy (nt_enabled s)) || negb (existsb (str_eqb (ev_kind e)) (events s)) then (Ok false, n, [])
  else
    match (match _last n !! (ev_kind e, ev_key e) with Some t => repeated (now - t) s | None => Ok false end) with
    | Raise x => (Raise x, n, [])
    | Ok true => (Ok false, n, [])
    | Ok false =>
        let last' := <[(ev_kind e, ev_key e) := now]> (_last n) in
        let i := mkItem (ev_kind e) (ev_name e) (ev_detail e) in
        if (length (_queue n) <? QUEUE_MAX)%nat
        then (Ok true, mkNotifier (_queue n ++ [i]) last' (_sent n) (_prev n), [Queued now (ev_kind e) (ev_key e) i])
        else (Ok false, mkNotifier (_queue n) last' (_sent n) (_prev n), [])
    end.
(** One turn of the watcher: [nows] are the clock readings of the successive calls of [emit]. *)
Fixpoint emit_all (s : NotificationSettings) (nows : nat → Z) (es : list event) (n : notifier) : res unit * notifier * list effect :=
  match es with
  | [] => (Ok tt, n, [])
  | e :: es' =>
      match emit s (nows 0%nat) e n with
      | (Raise x, n', o) => (Raise x, n', o)
      | (Ok _, n', o) => let '(r, n'', o') := emit_all s (λ k, nows (S k)) es' n' in (r, n'', o ++ o')
      end
  end.
Definition _watch (s : NotificationSettings) (nows : nat → Z) (statuses : list (pystr * status)) (names : gmap pystr pystr)
    (n : notifier) : notifier * list effect :=
  match emit_all s nows (status_events (_prev n) statuses names) n with
  | (Ok _, n', o) => (mkNotifier (_queue n') (_last n') (_sent n') (snapshot statuses), o)
  | (Raise _, n', o) => (n', o ++ [WatcherError])
  end.

(** ** Sending

    [webhook] and [email] are the results of the two network calls: the reason of a failure. *)
Context (webhook email : message_item → option pystr).
Definition _deliver (s : NotificationSettings) (i : message_item) : res (list pystr) :=
  u ← strip_of (webhook_url s);
  r ← recipients s;
  let w := if is_empty u then None else webhook i in
  let m := match r with [] => None | _ => email i end in
  Ok (match w with Some x => [str "webhook (" ++ str_of_val repr (webhook_format s) ++ str ") failed: " ++ x] | None => [] end
      ++ match m with
         | Some x => [str "e-mail via " ++ str_of_val repr (smtp_host s) ++ str ":" ++ str_of_val repr (smtp_port s) ++ str " failed: " ++ x]
         | None => []
         end).
Fixpoint expire_sent (now : Z) (q : list Z) : list Z :=
  match q with
  | t :: q' => if 60 * tick <? now - t then expire_sent now q' else q
  | [] => []
  end.
(** The worker takes one message; [None] when it waits for one. An error of the settings escapes it. *)
Definition _worker (s : NotificationSettings) (now : Z) (n : notifier) : option (res unit * notifier * list effect) :=
  match _queue n with
  | [] => None
  | i :: q =>
      let sent := expire_sent now (_sent n) in
      Some (if MAX_PER_MINUTE <=? zlen sent then (Ok tt, mkNotifier q (_last n) sent (_prev n), [NotSent i])
            else
              let n' := mkNotifier q (_last n) (sent ++ [now]) (_prev n) in
              match _deliver s i with
              | Ok errs => (Ok tt, n', [Sent now i errs])
              | Raise x => (Raise x, n', [Sent now i []])
              end)
  end.

(** ** Runs: the watcher, the sign-in page and the worker, in any order *)
Inductive nop :=
  | Watch (s : NotificationSettings) (nows : nat → Z) (statuses : list (pystr * status)) (names : gmap pystr pystr)
  | Emit (s : NotificationSettings) (now : Z) (e : event)
  | Work (s : NotificationSettings) (now : Z).
Definition nstep (o : nop) (n : notifier) : notifier * list effect :=
  match o with
  | Watch s nows statuses names => _watch s nows statuses names n
  | Emit s now e => let '(_, n', out) := emit s now e n in (n', out)
  | Work s now => match _worker s now n with Some (_, n', out) => (n', out) | None => (n, []) end
  end.
Fixpoint nrun (ops : list nop) (n : notifier) : notifier * list effect :=
  match ops with
  | [] => (n, [])
  | o :: ops' => let '(n', out) := nstep o n in let '(n'', out') := nrun ops' n' in (n'', out ++ out')
  end.
End notifier.

(** ** What is sent, and how often *)
Definition queued_items (out : list effect) : list message_item :=
  omap (λ x, match x with Queued _ _ _ i => Some i | _ => None end) out.
Definition taken_items (out : list effect) : list message_item :=
  omap (λ x, match x with Sent _ i _ | NotSent i => Some i | _ => None end) out.
Definition sent_times (out : list effect) : list Z :=
  omap (λ x, match x with Sent t _ _ => Some t | _ => None end) out.
Definition queued_times (e k : pystr) (out : list effect) : list Z :=
  omap (λ x, match x with Queued t e' k' _ => if str_eqb e' e && str_eqb k' k then Some t else None | _ => None end) out.
Definition work_times (ops : list nop) : list Z := omap (λ o, match o with Work _ t => Some t | _ => None end) ops.
Definition repeats_from (r : Z) (o : nop) : Prop :=
  match o with Watch s _ _ _ | Emit s _ _ => ∃ z, repeat_s s = VInt z ∧ r <= z | Work _ _ => True end.

Section rate.
Context (tick : Z) (shorter : Z → pyfloat → bool) (repr : pyval → pystr) (webhook email : message_item → option pystr).
Context (r : Z) (Htick : 0 < tick) (Hr : 0 <= r).

(** The part of the state that [emit] changes, with what was done so far. *)
Record emit_ok (out : list effect) (n : notifier) : Prop := {
  eo_queue : (length (_queue n) <= QUEUE_MAX)%nat;
  eo_items : queued_items out = taken_items out ++ _queue n;
  eo_last : ∀ e k, match _last n !! (e, k) with
                   | None => queued_times e k out = []
                   | Some t => Forall (λ x, x <= t) (queued_times e k out)
                   end;
  eo_gaps : ∀ e k, StronglySorted (λ a b, r * tick <= b - a) (queued_times e k out);
}.
(** The part that the worker changes; [now] is its last clock reading. *)
Record sent_ok (now : Z) (out : list effect) (n : notifier) : Prop := {
  so_len : zlen (_sent n) <= MAX_PER_MINUTE;
  so_old : ∃ pre, sent_times out = pre ++ _sent n ∧ Forall (λ x, 60 * tick < now - x) pre;
  so_window : ∀ t, zlen (filter (λ x, t <= x <= t + 60 * tick) (sent_times out)) <= MAX_PER_MINUTE;
}.
Lemma snoc_sorted {A} (R : A → A → Prop) l x : StronglySorted R l → Forall (λ y, R y x) l → StronglySorted R (l ++ [x]).
Proof.
  induction 1 as [|y l _ IH Hy]; intros Hl; [by repeat constructor|]. apply Forall_cons in Hl as [H1 H2].
  cbn. constructor; [by apply IH|]. apply Forall_app. by repeat constructor.
Qed.
Lemma emit_keeps s now e n out : (∃ z, repeat_s s = VInt z ∧ r <= z) →
  let '(_, n', o) := emit tick shorter s now e n in
  _sent n' = _sent n ∧ sent_times o = [] ∧ (emit_ok out n → emit_ok (out ++ o) n').
Proof.
  intros (z & Hz & Hrz). unfold emit. destruct (negb (truthy (nt_enabled s)) || _).
  { split; [done|]. split; [done|]. by rewrite app_nil_r. }
  assert (∀ res', match _last n !! (ev_kind e, ev_key e) with Some t => repeated tick shorter (now - t) s | None => Ok false end = res' →
    match res' with Ok false => ∀ t, _last n !! (ev_kind e, ev_key e) = Some t → r * tick <= now - t | Ok true => True | Raise _ => False end) as Hrep.
  { intros res' <-. destruct (_last n !! (ev_kind e, ev_key e)) as [t|]; [|done]. unfold repeated. rewrite Hz. cbn [int_of].
    destruct (now - t <? z * tick) eqn:E; [done|]. intros ? [= <-]. zbool. nia. }
  specialize (Hrep _ eq_refl). rename Hrep into Er.
  destruct (match _last n !! (ev_kind e, ev_key e) with Some t => _ | None => _ end) as [[]|x];
    [| |done]. { split; [done|]. split; [done|]. by rewrite app_nil_r. }
  assert (emit_ok out n → ∀ e' k',
    match <[(ev_kind e, ev_key e) := now]> (_last n) !! (e', k') with
    | None => queued_times e' k' out = []
    | Some t => Forall (λ x, x <= t) (queued_times e' k' out)
    end ∧ ((e', k') = (ev_kind e, ev_key e) → Forall (λ x, r * tick <= now - x) (queued_times e' k' out))) as Hlast.
  { intros H e' k'. pose proof (eo_last _ _ H e' k') as Hl. destruct (decide ((e', k') = (ev_kind e, ev_key e))) as [E|E].
    - rewrite E, lookup_insert_eq. injection E as -> ->. destruct (_last n !! (ev_kind e, ev_key e)) as [t|].
      + specialize (Er t eq_refl). split; [|intros _]; eapply Forall_impl; try exact Hl; cbn; intros; nia.
      + rewrite Hl. by split.
    - rewrite lookup_insert_ne by done. by split. }
  destruct (length (_queue n) <? QUEUE_MAX)%nat eqn:Eq; cbn [_sent]; (split; [done|]; split; [done|]; intros H).
  - apply Nat.ltb_lt in Eq. specialize (Hlast H). destruct H as [H1 H2 H3 H4]. split; cbn [_queue _last].
    + rewrite length_app. cbn. lia.
    + unfold queued_items, taken_items in *. rewrite !omap_app, H2. cbn. by rewrite app_nil_r, <- app_assoc.
    + intros e' k'. destruct (Hlast e' k') as [Hl _]. unfold queued_times in *. rewrite omap_app. cbn.
      destruct (str_eqb (ev_kind e) e' && str_eqb (ev_key e) k') eqn:E; cbn; [|by rewrite app_nil_r].
      apply andb_true_iff in E as [<-%bool_decide_eq_true <-%bool_decide_eq_true].
      rewrite lookup_insert_eq in Hl |- *. apply Forall_app. split; [done|]. by repeat constructor.
    + intros e' k'. destruct (Hlast e' k') as [_ Hg]. unfold queued_times in *. rewrite omap_app. cbn.
      destruct (str_eqb (ev_kind e) e' && str_eqb (ev_key e) k') eqn:E; cbn; [|rewrite app_nil_r; apply H4].
      apply andb_true_iff in E as [<-%bool_decide_eq_true <-%bool_decide_eq_true].
      apply snoc_sorted; [apply H4|by apply Hg].
  - rewrite app_nil_r. specialize (Hlast H). destruct H as [H1 H2 H3 H4]. split; [done..| |done].
    intros e' k'. by apply Hlast.
Qed.
Lemma emit_all_keeps s nows es n out : (∃ z, repeat_s s = VInt z ∧ r <= z) →
  let '(_, n', o) := emit_all tick shorter s nows es n in
  _sent n' = _sent n ∧ sent_times o = [] ∧ (emit_ok out n → emit_ok (out ++ o) n').
Proof.
  intros Hs. revert nows n out. induction es as [|e es IH]; intros nows n out; cbn [emit_all].
  { split; [done|]. split; [done|]. by rewrite app_nil_r. }
  pose proof (emit_keeps s (nows 0%nat) e n out Hs) as He. destruct (emit tick shorter s (nows 0%nat) e n) as [[[b|x] n1] o1]; [|done].
  destruct He as (E1 & E2 & E3). specialize (IH (λ k, nows (S k)) n1 (out ++ o1)).
  destruct (emit_all tick shorter s (λ k, nows (S k)) es n1) as [[res n2] o2]. destruct IH as (F1 & F2 & F3).
  split; [congruence|]. split; [unfold sent_times in *; by rewrite omap_app, E2|]. rewrite app_assoc. auto.
Qed.
Lemma emit_ok_ext out n n' : _queue n' = _queue n → _last n' = _last n → emit_ok out n → emit_ok out n'.
Proof. intros E1 E2 [H1 H2 H3 H4]. split; by rewrite ?E1, ?E2. Qed.
Lemma watch_keeps s nows statuses names n out : (∃ z, repeat_s s = VInt z ∧ r <= z) →
  let '(n', o) := _watch tick shorter s nows statuses names n in
  _sent n' = _sent n ∧ sent_times o = [] ∧ (emit_ok out n → emit_ok (out ++ o) n').
Proof.
  intros Hs. unfold _watch. pose proof (emit_all_keeps s nows (status_events (_prev n) statuses names) n out Hs) as H.
  destruct (emit_all _ _ _ _ _ _) as [[[u|x] n1] o]; destruct H as (E1 & E2 & E3).
  - split; [done|]. split; [done|]. intros He. by eapply emit_ok_ext, E3.
  - split; [done|]. split; [unfold sent_times in *; by rewrite omap_app, E2|]. intros He. specialize (E3 He). destruct E3 as [H1 H2 H3 H4].
    assert (∀ e k, queued_times e k ((out ++ o) ++ [WatcherError]) = queued_times e k (out ++ o)) as Eq
      by (intros e k; unfold queued_times; by rewrite (omap_app _ (out ++ o)), app_nil_r).
    rewrite app_assoc. split; [done| |intros e k; rewrite Eq; apply H3|intros e k; rewrite Eq; apply H4].
    unfold queued_items, taken_items in *. by rewrite !(omap_app _ (out ++ o)), H2, !app_nil_r.
Qed.

Lemma expire_sent_split now q : ∃ pre, q = pre ++ expire_sent tick now q ∧ Forall (λ x, 60 * tick < now - x) pre.
Proof.
  induction q as [|t q (pre & E & Hp)]; [by exists []|]. cbn [expire_sent]. destruct (Z.ltb_spec (60 * tick) (now - t)); [|by exists []].
  exists (t :: pre). split; [by rewrite E at 1|by constructor].
Qed.
Lemma worker_keeps s now now' n out : now <= now' →
  match _worker tick repr webhook email s now' n with
  | None => True
  | Some (_, n', o) => (emit_ok out n → emit_ok (out ++ o) n') ∧ (sent_ok now out n → sent_ok now' (out ++ o) n')
  end.
Proof.
  intros Hn. unfold _worker. destruct (_queue n) as [|i q] eqn:Eq; [done|].
  assert (∀ o n', _queue n' = q → _last n' = _last n → taken_items o = [i] → queued_items o = [] →
    (∀ e k, queued_times e k o = []) → emit_ok out n → emit_ok (out ++ o) n') as Hemit.
  { intros o n' E1 E2 E3 E4 E5 [H1 H2 H3 H4]. rewrite Eq in H1, H2. cbn in H1.
    assert (∀ e k, queued_times e k (out ++ o) = queued_times e k out) as E6.
    { intros e k. specialize (E5 e k). unfold queued_times in *. by rewrite omap_app, E5, app_nil_r. }
    split; [rewrite E1; lia| |intros e k; rewrite E2, E6; apply H3|intros e k; rewrite E6; apply H4].
    unfold queued_items, taken_items in *. by rewrite !omap_app, H2, E3, E4, E1, app_nil_r, <- app_assoc. }
  destruct (expire_sent_split now' (_sent n)) as (gone & Eg & Hg).
  assert (sent_ok now out n → ∃ pre, sent_times out = pre ++ expire_sent tick now' (_sent n) ∧ Forall (λ x, 60 * tick < now' - x) pre) as Hpre.
  { intros [_ (pre & E & Hp) _]. exists (pre ++ gone). rewrite <- app_assoc, <- Eg. split; [done|]. apply Forall_app. split; [|done].
    eapply Forall_impl; [exact Hp|]. cbn. intros. lia. }
  set (sent := expire_sent tick now' (_sent n)) in *. destruct (Z.leb_spec MAX_PER_MINUTE (zlen sent)) as [Hfull|Hroom].
  - split; [by apply Hemit|]. intros H. destruct (Hpre H) as (pre & E & Hp). destruct H as [H1 H2 H3].
    assert (sent_times (out ++ [NotSent i]) = sent_times out) as Et by (unfold sent_times; by rewrite omap_app, app_nil_r).
    split; cbn [_sent]; [|rewrite Et; by exists pre|by rewrite Et]. rewrite Eg, zlen_app in H1. pose proof (zlen_nonneg gone). lia.
  - assert (∀ errs, (emit_ok out n → emit_ok (out ++ [Sent now' i errs]) (mkNotifier q (_last n) (sent ++ [now']) (_prev n)))
      ∧ (sent_ok now out n → sent_ok now' (out ++ [Sent now' i errs]) (mkNotifier q (_last n) (sent ++ [now']) (_prev n)))) as Hgo.
    { intros errs. split; [by apply Hemit|]. intros H. destruct (Hpre H) as (pre & E & Hp). destruct H as [H1 H2 H3].
      assert (sent_times (out ++ [Sent now' i errs]) = sent_times out ++ [now']) as Et by (unfold sent_times; by rewrite omap_app).
      split; cbn [_sent].
      - rewrite zlen_app. change (zlen [now']) with 1. lia.
      - rewrite Et, E. exists pre. by rewrite app_assoc.
      - intros t. rewrite Et, filter_app, zlen_app. specialize (H3 t). rewrite E, filter_app, zlen_app in *.
        destruct (decide (t <= now' <= t + 60 * tick)) as [Hin|Hout];
          [rewrite filter_cons_True by done|rewrite filter_cons_False by done]; rewrite filter_nil; [|rewrite zlen_nil; lia].
        assert (filter (λ x, t <= x <= t + 60 * tick) pre = []) as ->.
        { clear -Hp Hin. induction Hp as [|x pre Hx _ IH]; [done|]. rewrite filter_cons_False by lia. apply IH. }
        pose proof (length_filter (λ x, t <= x <= t + 60 * tick) sent). rewrite zlen_nil. change (zlen [now']) with 1.
        unfold zlen in *. lia. }
    destruct (_deliver repr webhook email s i); apply Hgo.
Qed.
Lemma run_keeps ops now n out :
  Forall (repeats_from r) ops → Sorted Z.le (now :: work_times ops) → emit_ok out n → sent_ok now out n →
  let '(n', o) := nrun tick shorter repr webhook email ops n in
  emit_ok (out ++ o) n' ∧ ∃ now', sent_ok now' (out ++ o) n'.
Proof.
  intros Hops. revert now n out. induction Hops as [|o ops Ho Hops IH]; intros now n out Hs He Hsent; cbn [nrun].
  { rewrite app_nil_r. eauto. }
  assert (∀ n1 o1, _sent n1 = _sent n → sent_times o1 = [] → sent_ok now out n → sent_ok now (out ++ o1) n1) as Hsame.
  { intros n1 o1 E1 E2 [H1 H2 H3]. assert (sent_times (out ++ o1) = sent_times out) as Et
      by (unfold sent_times in *; by rewrite omap_app, E2, app_nil_r). split; by rewrite ?E1, ?Et. }
  assert (∃ now1 n1 o1, nstep tick shorter repr webhook email o n = (n1, o1) ∧ Sorted Z.le (now1 :: work_times ops)
    ∧ emit_ok (out ++ o1) n1 ∧ sent_ok now1 (out ++ o1) n1) as (now1 & n1 & o1 & -> & Hs1 & He1 & Hsent1).
  { destruct o as [s nows statuses names|s t e|s t]; cbn [nstep].
    - pose proof (watch_keeps s nows statuses names n out Ho) as H. destruct (_watch _ _ _ _ _ _ _) as [n1 o1].
      destruct H as (E1 & E2 & E3). exists now, n1, o1. split_and!; [done|exact Hs|by apply E3|by apply Hsame].
    - pose proof (emit_keeps s t e n out Ho) as H. destruct (emit _ _ _ _ _ _) as [[b n1] o1].
      destruct H as (E1 & E2 & E3). exists now, n1, o1. split_and!; [done|exact Hs|by apply E3|by apply Hsame].
    - cbn in Hs. apply Sorted_inv in Hs as [Hs Hle]. apply HdRel_inv in Hle.
      pose proof (worker_keeps s now t n out Hle) as H. destruct (_worker _ _ _ _ _ _ _) as [[[b n1] o1]|].
      + destruct H as [E1 E2]. exists t, n1, o1. split_and!; auto.
      + exists t, n, []. rewrite app_nil_r. split_and!; [done..|]. destruct Hsent as [H1 (pre & E & Hp) H3].
        split; [done| |done]. exists pre. split; [done|]. eapply Forall_impl; [exact Hp|]. cbn. intros. lia. }
  specialize (IH now1 n1 (out ++ o1) Hs1 He1 Hsent1). destruct (nrun _ _ _ _ _ ops n1) as [n2 o2]. by rewrite app_assoc.
Qed.

(** C33: notifications are bounded and complete. Over any run of the watcher, the sign-in page and the
    worker, whatever they observe and whatever the network answers: at most 200 messages wait; every
    message accepted is taken exactly once, in the order accepted, or still waits; in no sixty seconds are
    more than 20 messages sent; and two messages about the same event of the same mapping, client or
    address are accepted at least the configured interval apart. *)
Theorem notifications_bounded ops prev :
  Forall (repeats_from r) ops → Sorted Z.le (work_times ops) →
  let '(n, out) := nrun tick shorter repr webhook email ops (notifier0 prev) in
  (length (_queue n) <= QUEUE_MAX)%nat
  ∧ queued_items out = taken_items out ++ _queue n
  ∧ (∀ t, zlen (filter (λ x, t <= x <= t + 60 * tick) (sent_times out)) <= MAX_PER_MINUTE)
  ∧ ∀ e k, StronglySorted (λ a b, r * tick <= b - a) (queued_times e k out).
Proof.
  intros Hops Hs.
  assert (∃ now, Sorted Z.le (now :: work_times ops)) as [now Hs'].
  { destruct (work_times ops) as [|t l]; [exists 0; by repeat constructor|exists t]. constructor; [done|constructor; lia]. }
  assert (emit_ok [] (notifier0 prev)) as He.
  { split; [cbn; unfold QUEUE_MAX; lia|done| |intros; constructor]. intros e k. cbn. by rewrite lookup_empty. }
  assert (sent_ok now [] (notifier0 prev)) as Hsent.
  { split; [done| |done]. by exists []. }
  pose proof (run_keeps ops now _ _ Hops Hs' He Hsent) as H. destruct (nrun _ _ _ _ _ ops _) as [n out].
  destruct H as [[H1 H2 _ H4] (now' & [_ _ H3])]. by split_and!.
Qed.
End rate.

Definition demo_settings : NotificationSettings :=
  mkNotify (VBool true) NOTIFY_DEFAULT_EVENTS (VInt 300) (vstr "https://hook") (vstr "json") (vstr "") (vstr "") (vstr "")
    (vstr "") (VInt 587) (vstr "starttls") (vstr "") (vstr "").
Definition demo_status (s : string) : list (pystr * status) := [(str "a", mkStatus (str s) [] (str "/dev/ttyUSB0") [])].
Definition demo_names : gmap pystr pystr := {[ str "a" := str "scale" ]}.
Definition demo_ops : list nop :=
  [Watch demo_settings (λ _, 0) (demo_status "reconnecting") demo_names; Work demo_settings 1;
   Watch demo_settings (λ _, 2) (demo_status "running") demo_names; Watch demo_settings (λ _, 4) (demo_status "reconnecting") demo_names;
   Work demo_settings 4; Work demo_settings 5].
Lemma notifications_bounded_witness :
  sent_times (nrun 1 (λ _ _, false) (λ _, []) (λ _, None) (λ _, None) demo_ops (notifier0 (snapshot (demo_status "running")))).2 = [1; 4]
  ∧ let '(n, out) := nrun 1 (λ _ _, false) (λ _, []) (λ _, None) (λ _, None) demo_ops (notifier0 (snapshot (demo_status "running"))) in
  (length (_queue n) <= QUEUE_MAX)%nat
  ∧ queued_items out = taken_items out ++ _queue n
  ∧ (∀ t, zlen (filter (λ x, t <= x <= t + 60 * 1) (sent_times out)) <= MAX_PER_MINUTE)
  ∧ ∀ e k, StronglySorted (λ a b, 300 * 1 <= b - a) (queued_times e k out).
Proof.
  split; [vm_compute; reflexivity|].
  apply (notifications_bounded 1 (λ _ _, false) (λ _, []) (λ _, None) (λ _, None) 300 ltac:(lia) ltac:(lia) demo_ops).
  - repeat constructor; try (exists 300; split; [reflexivity|lia]).
  - repeat constructor; lia.
Defined.
