(* ===== verification/Cluster.v ===== *)
(** * The LAN cluster (app/engine/cluster.py, app/web/routes/cluster.py)

    Nodes announce themselves with signed beacons and keep a table of the peers they heard; the web UI
    reaches peers through it, and peers reach this node's mappings with the shared key. [hmac_sha256],
    the host name, the detected LAN address and the calls to a peer are parameters; times are in
    milliseconds. *)
From Stdlib Require Import SpecFloat.
From stdpp Require Import sorting.
From S2P Require Import Prelude PyFloat PyStr PyVal IpAddr PyNum Json JsonOut Base64 Config AppConfig Auth Store ConfigStore Supervisor Importer Forms Ops.
#[local] Open Scope Z_scope.

Definition PEER_TTL : Z := 20000.
Definition _LOOPBACK : list pystr := str <$> ["0.0.0.0"; "::"; "127.0.0.1"; "localhost"; ""]%string.

Record peer := mkPeer {
  p_id : pystr; p_name : pystr; p_ip : pystr; p_port : Z; p_scheme : pystr; last_seen : Z;
}.
(** The peer table, a dict in insertion order. *)
Abbreviation table := (list peer).
Fixpoint set_peer (p : peer) (t : table) : table :=
  match t with
  | [] => [p]
  | q :: t' => if str_eqb (p_id q) (p_id p) then p :: t' else q :: set_peer p t'
  end.

Section cluster.
Context (hmac_sha256 : bytes → bytes → bytes) (repr : pyval → pystr).

Definition _sign (k : pyval) (body : pyval) : res pystr :=
  match k, body with
  | VStr k, VStr b =>
      k' ← utf8_encode k;
      b' ← utf8_encode b;
      Ok (hex_text (hmac_sha256 k' b'))
  | _, _ => raise AttributeError "object has no attribute 'encode'"
  end.

(** ** Beacons *)
Context (hostname : pystr) (lan_ip : option pystr).
Definition advertised (c : AppConfig) : res (pystr * Z * pystr) :=
  ip ← strip_of (advertise_ip (cluster c));
  ip ← (if negb (is_empty ip) then Ok ip
        else
          bind ← strip_of (or_else (ui_bind_ip (admin_ui c)) (vstr ""));
          Ok (if negb (existsb (str_eqb bind) _LOOPBACK) then bind
              else match lan_ip with Some ((_ :: _) as l) => l | _ => str "127.0.0.1" end));
  port ← int_of_val (ui_port (admin_ui c));
  Ok (ip, port, if tls_enabled (admin_ui c) then str "https" else str "http").
Definition beacon_payload (i : pyval) (ip : pystr) (port : Z) (scheme : pystr) (now : Z) : pyval :=
  VDict [key "v" (VInt 1); key "id" i; key "name" (VStr hostname); key "ip" (VStr ip); key "port" (VInt port);
         key "scheme" (VStr scheme); key "t" (VInt (now / 1000))].
Definition _make_beacon (c : AppConfig) (now : Z) : res bytes :=
  a ← advertised c;
  let '(ip, port, scheme) := a in
  body ← json_dumps compact (sort_keys (beacon_payload (instance_id c) ip port scheme now));
  sig ← _sign (cl_key (cluster c)) (VStr body);
  text ← json_dumps default_style (VDict [key "d" (VStr body); key "s" (VStr sig)]);
  utf8_encode text.

(** The signed body of a datagram, when it is one of ours: [None] is a datagram to ignore. *)
Definition open_datagram (k : pyval) (data : bytes) : res (option (list (pystr * pyval))) :=
  match match utf8_decode data with Ok s => json_loads s | Raise _ => None end with
  | Some (VDict env) =>
      match assoc (str "d") env, assoc (str "s") env with
      | Some body, Some sig =>
          expected ← _sign k body;
          same ← compare_digest expected (str_of_val repr sig);
          if negb same then Ok None
          else
            match body with
            | VStr b =>
                match json_loads b with
                | None => Ok None
                | Some (VDict p) => Ok (Some p)
                | Some _ => raise AttributeError "object has no attribute 'get'"
                end
            | _ => Ok None
            end
      | _, _ => Ok None
      end
  | _ => Ok None
  end.
(** The table entry of a signed body; [addr] is the sender's address. *)
Definition peer_of (p : list (pystr * pyval)) (addr : pystr) (now : Z) : res peer :=
  let ip := strip (str_of_val repr (get p "ip" (vstr ""))) in
  let ip := if existsb (str_eqb ip) _LOOPBACK then addr else ip in
  let scheme := match get p "scheme" VNone with
                | VStr s => if existsb (str_eqb s) (str <$> ["http"; "https"]%string) then s else str "http"
                | _ => str "http"
                end in
  port ← int_of_val (or_else (get p "port" (VInt 0)) (VInt 0));
  Ok (mkPeer (str_of_val repr (get p "id" (vstr ""))) (str_of_val repr (get p "name" (vstr "?"))) ip port scheme now).
Definition handle_datagram (c : AppConfig) (data : bytes) (addr : pystr) (now : Z) (t : table) : res unit * table :=
  let k := cl_key (cluster c) in
  if negb (truthy k) then (Ok tt, t)
  else
    match open_datagram k data with
    | Raise x => (Raise x, t)
    | Ok None => (Ok tt, t)
    | Ok (Some p) =>
        let pid := str_of_val repr (get p "id" (vstr "")) in
        if is_empty pid || eq_str (instance_id c) pid then (Ok tt, t)
        else match peer_of p addr now with
             | Raise x => (Raise x, t)
             | Ok q => (Ok tt, set_peer q t)
             end
    end.
End cluster.

(** ** The peers to talk to *)
Section targets.
Context (lower_text : pystr → pystr).
Definition live (now : Z) (p : peer) : bool := now - last_seen p <=? PEER_TTL.
Definition peer_leb (p q : peer) : bool :=
  match str_compare (lower_text (p_name p)) (lower_text (p_name q)) with
  | Lt => true | Gt => false | Eq => str_leb (p_ip p) (p_ip q)
  end.
(** The sorted live peers, and the pruned table. *)
Definition peers (now : Z) (t : table) : list peer * table :=
  let l := List.filter (live now) t in (sort_by peer_leb l, l).

Record target := mkTarget { t_scheme : pystr; t_ip : pystr; t_port : Z; t_auto : option peer }.
Definition manual_targets (c : AppConfig) : list target :=
  omap (λ e, match parse_cluster_peer e with
             | Ok (scheme, host, port) => Some (mkTarget scheme host port None)
             | Raise _ => None
             end) (AppConfig.peers (cluster c)).
Definition auto_target (p : peer) : target := mkTarget (p_scheme p) (p_ip p) (p_port p) (Some p).
Definition at_addr (a b : target) : bool := str_eqb (t_ip a) (t_ip b) && (t_port a =? t_port b).
(** Manual entries are added when no target has their address yet. *)
Fixpoint add_manual (seen : list target) (ms : list target) : list target :=
  match ms with
  | [] => []
  | m :: ms' => if existsb (at_addr m) seen then add_manual seen ms' else m :: add_manual (m :: seen) ms'
  end.
Definition all_targets (c : AppConfig) (now : Z) (t : table) : list target * table :=
  let '(l, t') := peers now t in
  let auto := auto_target <$> l in
  (auto ++ add_manual auto (manual_targets c), t').
Definition known_addresses (c : AppConfig) (now : Z) (t : table) : list (pystr * Z) * table :=
  let '(l, t') := all_targets c now t in ((λ x, (t_ip x, t_port x)) <$> l, t').
Definition known (host : pystr) (port : Z) (l : list (pystr * Z)) : bool :=
  existsb (λ a, str_eqb a.1 host && (a.2 =? port)) l.
End targets.

(** [_broadcast_addrs]: the global broadcast address and the interfaces' own, each once. *)
Fixpoint dedupe (seen : list pystr) (l : list pystr) : list pystr :=
  match l with
  | [] => []
  | a :: l' => if is_empty a || existsb (str_eqb a) seen then dedupe seen l' else a :: dedupe (a :: seen) l'
  end.
Definition _broadcast_addrs (nics : list pystr) : list pystr := dedupe [] (str "255.255.255.255" :: nics).

(** ** The table is exactly what was heard *)
Inductive cstep := Datagram (data : bytes) (addr : pystr) (now : Z) | Look (now : Z).

Section facts.
Context (hmac_sha256 : bytes → bytes → bytes) (repr : pyval → pystr) (lower_text : pystr → pystr) (c : AppConfig).

Definition cluster_step (t : table) (s : cstep) : table :=
  match s with
  | Datagram data addr now => (handle_datagram hmac_sha256 repr c data addr now t).2
  | Look now => (peers lower_text now t).2
  end.
(** The entry a datagram makes, if any: what it leaves in an empty table. *)
Definition accepted (data : bytes) (addr : pystr) (now : Z) : option peer :=
  head (handle_datagram hmac_sha256 repr c data addr now []).2.
Definition keeps (q : peer) (s : cstep) : Prop :=
  match s with
  | Datagram d a n => match accepted d a n with Some q' => p_id q' ≠ p_id q | None => True end
  | Look n => live n q = true
  end.
(** [q] was heard, nothing newer was heard from that node, and it was live whenever the table was read. *)
Definition heard (steps : list cstep) (q : peer) : Prop :=
  ∃ before data addr after,
    steps = before ++ Datagram data addr (last_seen q) :: after
    ∧ accepted data addr (last_seen q) = Some q ∧ Forall (keeps q) after.

Lemma handle_table data addr now t :
  (handle_datagram hmac_sha256 repr c data addr now t).2
  = match accepted data addr now with Some q => set_peer q t | None => t end.
Proof.
  unfold accepted, handle_datagram. destruct (truthy _); [|done]. cbn [negb].
  destruct (open_datagram _ _ _ _) as [[p|]|]; [|done..]. cbn zeta. destruct (_ || _); [done|].
  by destruct (peer_of _ _ _ _).
Qed.
Lemma accepted_inv data addr now q : accepted data addr now = Some q →
  last_seen q = now ∧ p_id q ≠ [] ∧ eq_str (instance_id c) (p_id q) = false
  ∧ ∃ p, open_datagram hmac_sha256 repr (cl_key (cluster c)) data = Ok (Some p) ∧ peer_of repr p addr now = Ok q.
Proof.
  unfold accepted, handle_datagram. destruct (truthy _); [|done]. cbn [negb].
  destruct (open_datagram _ _ _ _) as [[p|]|]; [|done..]. cbn zeta. destruct (_ || _) eqn:E; [done|].
  apply orb_false_iff in E as [E1 E2]. destruct (peer_of _ _ _ _) as [q'|] eqn:Ep; [|done]. intros [= ->].
  assert (last_seen q = now ∧ p_id q = str_of_val repr (get p "id" (vstr ""))) as [H1 H2].
  { revert Ep. unfold peer_of. intros H. apply res_bind_Ok in H as (port & _ & H). by injection H as <-. }
  rewrite H2. split_and!; [done|by intros H; rewrite H in E1|done|]. eauto.
Qed.
Lemma set_peer_elem q q' t : NoDup (p_id <$> t) → q ∈ set_peer q' t ↔ q = q' ∨ (q ∈ t ∧ p_id q' ≠ p_id q).
Proof.
  induction t as [|x t IH]; cbn; intros Hn; [rewrite list_elem_of_singleton, elem_of_nil; tauto|].
  apply NoDup_cons in Hn as [Hx Hn]. destruct (str_eqb (p_id x) (p_id q')) eqn:E.
  - apply bool_decide_eq_true in E. rewrite !elem_of_cons. split; [|intros [->|[[->|Hq] Hne]]; [by left|by rewrite E in Hne|by right]].
    intros [->|Hq]; [by left|]. right. split; [by right|]. intros Eq. apply Hx. rewrite E, Eq. by apply list_elem_of_fmap_2.
  - apply bool_decide_eq_false in E. rewrite !elem_of_cons, IH by done. split.
    + intros [->|[->|[Hq Hne]]]; [right; by split; [left|]|by left|right; by split; [right|]].
    + intros [->|[[->|Hq] Hne]]; [by right; left|by left|by right; right].
Qed.
Lemma set_peer_nodup q t : NoDup (p_id <$> t) → NoDup (p_id <$> set_peer q t).
Proof.
  induction t as [|x t IH]; cbn; intros Hn; [repeat constructor; apply not_elem_of_nil|].
  apply NoDup_cons in Hn as [Hx Hn]. destruct (str_eqb (p_id x) (p_id q)) eqn:E; cbn.
  - apply bool_decide_eq_true in E. rewrite <- E. by constructor.
  - apply bool_decide_eq_false in E. constructor; [|by apply IH]. intros (y & Ey & Hy)%list_elem_of_fmap.
    apply set_peer_elem in Hy as [->|[Hy _]]; [done| |done]. apply Hx. rewrite Ey. by apply list_elem_of_fmap_2.
Qed.
Lemma heard_snoc steps s q :
  heard (steps ++ [s]) q ↔ (heard steps q ∧ keeps q s)
    ∨ ∃ data addr, s = Datagram data addr (last_seen q) ∧ accepted data addr (last_seen q) = Some q.
Proof.
  split.
  - intros (before & data & addr & after & E & Ha & Hk). destruct after as [|s' after _] using rev_ind.
    + apply app_inj_tail in E as [<- ->]. right. eauto.
    + rewrite app_comm_cons, app_assoc in E. apply app_inj_tail in E as [-> ->]. apply Forall_app in Hk as [Hk [Hs _]%Forall_cons].
      left. split; [|done]. unfold heard. eauto 10.
  - intros [[(before & data & addr & after & -> & Ha & Hk) Hs]|(data & addr & -> & Ha)].
    + exists before, data, addr, (after ++ [s]). rewrite <- app_assoc. split_and!; [done..|]. apply Forall_app. by repeat constructor.
    + by exists steps, data, addr, [].
Qed.
Lemma peer_leb_total p q : peer_leb lower_text p q = true ∨ peer_leb lower_text q p = true.
Proof.
  unfold peer_leb, str_leb. rewrite (str_compare_antisym (lower_text (p_name p)) (lower_text (p_name q))), (str_compare_antisym (p_ip p) (p_ip q)).
  destruct (str_compare (lower_text (p_name p)) _), (str_compare (p_ip p) _); cbn; tauto.
Qed.
Lemma filter_nodup t (f : peer → bool) : NoDup (p_id <$> t) → NoDup (p_id <$> List.filter f t).
Proof.
  induction t as [|x t IH]; cbn; [done|]. intros [Hx Hn]%NoDup_cons. destruct (f x); cbn; [|by apply IH].
  constructor; [|by apply IH]. intros (y & Ey & Hy)%list_elem_of_fmap. apply Hx. rewrite Ey. apply list_elem_of_fmap_2.
  by apply list_elem_of_In, filter_In, proj1, list_elem_of_In in Hy.
Qed.
Lemma table_heard steps :
  let t := foldl cluster_step [] steps in NoDup (p_id <$> t) ∧ ∀ q, q ∈ t ↔ heard steps q.
Proof.
  induction steps as [|s steps [Hn IH]] using rev_ind.
  { split; [constructor|]. intros q. split; [by intros ?%not_elem_of_nil|].
    intros (before & ? & ? & ? & E & _). by destruct before. }
  rewrite foldl_app. cbn [foldl]. set (t := foldl cluster_step [] steps) in *.
  destruct s as [data addr now|now]; cbn [cluster_step].
  - rewrite handle_table. destruct (accepted data addr now) as [q'|] eqn:Ea.
    + split; [by apply set_peer_nodup|]. intros q. rewrite set_peer_elem, heard_snoc, IH by done. cbn [keeps]. rewrite Ea.
      destruct (accepted_inv _ _ _ _ Ea) as [El _]. split.
      * intros [->|[H1 H2]]; [right; rewrite El; eauto|by left].
      * intros [[H1 H2]|(d & a & [= -> -> ->] & Ha)]; [by right|]. left. congruence.
    + split; [done|]. intros q. rewrite heard_snoc, IH. cbn [keeps]. rewrite Ea. split; [by left|].
      intros [[? _]|(d & a & [= -> -> ->] & Ha)]; [done|congruence].
  - cbn [peers snd]. split; [by apply filter_nodup|]. intros q. rewrite heard_snoc, <- IH. cbn [keeps].
    rewrite list_elem_of_In, filter_In, <- list_elem_of_In. split; [by left|]. by intros [?|(? & ? & ? & _)].
Qed.

(** A datagram with the key's signature over the text of [p]. *)
Definition signed (data : bytes) (p : list (pystr * pyval)) : Prop :=
  ∃ k kb text env body bb sig,
    cl_key (cluster c) = VStr k ∧ utf8_encode k = Ok kb ∧ utf8_decode data = Ok text ∧ json_loads text = Some (VDict env)
    ∧ assoc (str "d") env = Some (VStr body) ∧ utf8_encode body = Ok bb ∧ json_loads body = Some (VDict p)
    ∧ assoc (str "s") env = Some sig ∧ str_of_val repr sig = hex_text (hmac_sha256 kb bb).
Lemma opened_signed data p : open_datagram hmac_sha256 repr (cl_key (cluster c)) data = Ok (Some p) → signed data p.
Proof.
  unfold open_datagram, signed. destruct (utf8_decode data) as [text|]; [|done].
  destruct (json_loads text) as [[]|] eqn:Ej; try done. destruct (assoc (str "d") d) as [body|] eqn:Ed; [|done].
  destruct (assoc (str "s") d) as [sig|] eqn:Es; [|done]. intros H. apply res_bind_Ok in H as (x & Hx & H).
  apply res_bind_Ok in H as (same & Hc & H). destruct same; [|done]. cbn [negb] in H. unfold _sign in Hx.
  destruct (cl_key (cluster c)) as [| | | |k| | |]; try done. destruct body as [| | | |b| | |]; try done.
  apply res_bind_Ok in Hx as (kb & Hk & Hx). apply res_bind_Ok in Hx as (bb & Hb & Hx). injection Hx as <-.
  destruct (json_loads b) as [[]|] eqn:Eb; try done. injection H as <-.
  unfold compare_digest in Hc. destruct (_ && _); [|done]. injection Hc as Hc%bool_decide_eq_true.
  by exists k, kb, text, d, b, bb, sig.
Qed.

(** C31: the cluster trusts only its key. Whatever datagrams arrive, from anywhere and in any order: the
    peers a node shows are exactly the nodes it heard in the last twenty seconds (and that were as fresh each
    time the table was read), each once, with what it said last, ordered by name and address; every one of them was announced in a datagram that carries the HMAC of its text under the cluster key, under an
    id that is not this node's; and a datagram that raises or is not accepted changes nothing. *)
Theorem peers_authentic steps now :
  let t := foldl cluster_step [] steps in
  let shown := (peers lower_text now t).1 in
  NoDup (p_id <$> shown) ∧ Sorted (λ p q, peer_leb lower_text p q = true) shown
  ∧ (∀ q, q ∈ shown ↔ heard steps q ∧ now - last_seen q <= PEER_TTL)
  ∧ (∀ q, q ∈ shown → p_id q ≠ [] ∧ eq_str (instance_id c) (p_id q) = false
      ∧ ∃ data addr p, Datagram data addr (last_seen q) ∈ steps ∧ signed data p ∧ peer_of repr p addr (last_seen q) = Ok q)
  ∧ ∀ data addr t', accepted data addr now = None → (handle_datagram hmac_sha256 repr c data addr now t').2 = t'.
Proof.
  intros t shown. destruct (table_heard steps) as [Hn Ht]. fold t in Hn, Ht.
  assert (∀ q, q ∈ shown ↔ heard steps q ∧ now - last_seen q <= PEER_TTL) as Hs.
  { intros q. unfold shown. cbn [peers fst]. rewrite sort_by_perm, list_elem_of_In, filter_In, <- list_elem_of_In, Ht.
    unfold live. by rewrite Z.leb_le. }
  split_and!.
  - unfold shown. cbn [peers fst]. rewrite sort_by_perm. by apply filter_nodup.
  - apply sort_by_sorted, peer_leb_total.
  - done.
  - intros q [(before & data & addr & after & E & Ha & _) _]%Hs. destruct (accepted_inv _ _ _ _ Ha) as (_ & H1 & H2 & p & Ho & Hp).
    split_and!; [done..|]. exists data, addr, p. split_and!; [|by apply opened_signed|done].
    rewrite E. apply elem_of_app. right. left.
  - intros data addr t' H. by rewrite handle_table, H.
Qed.
End facts.

(** ** Nodes with the same key find each other *)
Section beacon.
Context (hmac_sha256 : bytes → bytes → bytes) (repr : pyval → pystr) (lower_text : pystr → pystr).
Context (hostname : pystr) (lan_ip : option pystr).
Context (hmac_bytes : ∀ k m, is_bytes (hmac_sha256 k m)) (host_text : Forall is_cp hostname).

Lemma hex_text_printable b : is_bytes b → Forall printable (hex_text b).
Proof.
  intros Hb. apply Forall_bind. eapply Forall_impl; [exact Hb|]. unfold is_byte. intros x Hx.
  repeat constructor; apply hex_char_printable; dlia.
Qed.
Lemma printable_text s : Forall printable s → Forall is_cp s ∧ is_ascii s = true.
Proof.
  intros H. split.
  - eapply Forall_impl; [exact H|]. unfold printable, is_cp, is_surrogate. intros c Hc. split; [lia|]. apply in_range_false. lia.
  - unfold is_ascii. rewrite forallb_forall. intros c Hc%list_elem_of_In. rewrite Forall_forall in H. apply H in Hc.
    unfold printable in Hc. lia.
Qed.
Definition sorted_payload (i ip : pystr) (port : Z) (scheme : pystr) (now : Z) : list (pystr * pyval) :=
  [key "id" (VStr i); key "ip" (VStr ip); key "name" (VStr hostname); key "port" (VInt port);
   key "scheme" (VStr scheme); key "t" (VInt (now / 1000)); key "v" (VInt 1)].
Lemma payload_sorted i ip port scheme now :
  sort_keys (beacon_payload hostname (VStr i) ip port scheme now) = VDict (sorted_payload i ip port scheme now).
Proof. reflexivity. Qed.
Lemma payload_printable i ip port scheme now :
  Forall is_cp i → Forall is_cp ip → Forall is_cp scheme →
  Forall printable (dumps compact 0 (VDict (sorted_payload i ip port scheme now))).
Proof. intros Hi Hip Hs. unfold sorted_payload. json_printable. Qed.
Lemma payload_plain i ip port scheme now :
  Forall is_cp i → Forall is_cp ip → Forall is_cp scheme → plain (VDict (sorted_payload i ip port scheme now)) = true.
Proof. intros Hi Hip Hs. unfold sorted_payload. json_plain. Qed.
Lemma envelope_printable body sig :
  Forall is_cp body → Forall is_cp sig → Forall printable (dumps default_style 0 (VDict [key "d" (VStr body); key "s" (VStr sig)])).
Proof. intros Hb Hs. json_printable. Qed.
Lemma envelope_plain body sig :
  Forall is_cp body → Forall is_cp sig → plain (VDict [key "d" (VStr body); key "s" (VStr sig)]) = true.
Proof. intros Hb Hs. json_plain. Qed.
Lemma utf8_decode_printable s : Forall printable s → utf8_decode s = Ok s.
Proof.
  intros H. pose proof (printable_utf8 s H) as He. destruct (printable_text s H) as [Hcp _].
  rewrite utf8_encode_text in He by done. injection He as He. rewrite <- He at 1. by apply utf8_roundtrip.
Qed.

(** nodes with the same key find each other. A node's beacon is always one datagram of text, and
    another node with the same key that receives it lists the sender's id, host name, address, port and scheme as of
    that moment; for the next twenty seconds it accepts the sender's address as a peer's (the source of the
    datagram when the announced address is of no use outside the sender). *)
Theorem beacon_discovered a b k kb ia ip port scheme now addr now' t :
  cl_key (cluster a) = VStr k → cl_key (cluster b) = VStr k → k ≠ [] → utf8_encode k = Ok kb →
  instance_id a = VStr ia → ia ≠ [] → Forall is_cp ia → eq_str (instance_id b) ia = false →
  advertised lan_ip a = Ok (ip, port, scheme) → Forall is_cp ip → strip ip = ip →
  ∃ data, _make_beacon hmac_sha256 hostname lan_ip a now = Ok data ∧
    let seen := if existsb (str_eqb ip) _LOOPBACK then addr else ip in
    handle_datagram hmac_sha256 repr b data addr now' t = (Ok tt, set_peer (mkPeer ia hostname seen port scheme now') t)
    ∧ ∀ now'', now'' - now' <= PEER_TTL → NoDup (p_id <$> t) →
        (seen, port) ∈ (known_addresses lower_text b now'' (set_peer (mkPeer ia hostname seen port scheme now') t)).1.
Proof.
  intros Ka Kb Hk Hkb Ia Hia Hiat Hib Hadv Hipt Hstrip.
  assert (scheme = str "http" ∨ scheme = str "https") as Hsch.
  { unfold advertised in Hadv. apply res_bind_Ok in Hadv as (x & _ & Hadv). apply res_bind_Ok in Hadv as (y & _ & Hadv).
    apply res_bind_Ok in Hadv as (z & _ & Hadv). injection Hadv as _ _ <-. destruct (tls_enabled _); tauto. }
  assert (Forall is_cp scheme) as Hst by (destruct Hsch as [-> | ->]; apply (bool_decide_unpack _); vm_compute; exact I).
  set (p := sorted_payload ia ip port scheme now). set (body := dumps compact 0 (VDict p)).
  assert (Forall printable body) as Hbp by (by apply payload_printable).
  destruct (printable_text body Hbp) as [Hbt _]. pose proof (printable_utf8 body Hbp) as Hbe.
  set (sig := hex_text (hmac_sha256 kb body)).
  assert (Forall printable sig) as Hsp by (by apply hex_text_printable). destruct (printable_text sig Hsp) as [Hsigt Hsa].
  set (data := dumps default_style 0 (VDict [key "d" (VStr body); key "s" (VStr sig)])).
  assert (Forall printable data) as Hdp by (by apply envelope_printable).
  exists data. split.
  { unfold _make_beacon. rewrite Hadv. cbn [mbind res_bind]. rewrite Ia, payload_sorted. fold p.
    assert (json_dumps compact (VDict p) = Ok body) as -> by done. cbn [mbind res_bind]. unfold _sign. rewrite Ka, Hkb. cbn [mbind res_bind].
    rewrite Hbe. cbn [mbind res_bind]. fold sig. unfold json_dumps. cbn [serializable forallb key mbind res_bind]. by apply printable_utf8. }
  intros seen. split.
  - unfold handle_datagram. rewrite Kb. replace (truthy (VStr k)) with true by (by destruct k). cbn [negb].
    unfold open_datagram. rewrite utf8_decode_printable by done. unfold data.
    rewrite json_roundtrip by (by apply envelope_plain). cbn [assoc key]. change (str_eqb (str "d") (str "d")) with true.
    change (str_eqb (str "s") (str "d")) with false. change (str_eqb (str "s") (str "s")) with true. cbv iota. unfold _sign. rewrite Hkb. cbn [mbind res_bind]. rewrite Hbe.
    cbn [mbind res_bind str_of_val]. fold sig. rewrite compare_digest_refl by done. cbn [mbind res_bind negb].
    unfold body at 1. rewrite json_roundtrip by (by apply payload_plain).
    change (get p "id" (vstr "")) with (VStr ia). cbn [str_of_val]. rewrite Hib. replace (is_empty ia) with false by (by destruct ia).
    cbn [orb]. unfold peer_of. change (get p "id" (vstr "")) with (VStr ia). change (get p "ip" (vstr "")) with (VStr ip).
    change (get p "port" (VInt 0)) with (VInt port). change (get p "name" (vstr "?")) with (VStr hostname).
    change (get p "scheme" VNone) with (VStr scheme). cbn [str_of_val]. rewrite Hstrip.
    assert (int_of_val (or_else (VInt port) (VInt 0)) = Ok port) as ->.
    { unfold or_else. cbn [truthy]. destruct (Z.eqb_spec port 0) as [->|]; done. }
    cbn [mbind res_bind]. fold seen. by destruct Hsch as [-> | ->].
  - intros now'' Hfresh Hnd. unfold known_addresses, all_targets. cbn [peers fst]. apply list_elem_of_fmap.
    exists (auto_target (mkPeer ia hostname seen port scheme now')). split; [done|]. apply elem_of_app. left.
    apply list_elem_of_fmap_2. rewrite sort_by_perm. apply list_elem_of_In, filter_In. split.
    + apply list_elem_of_In, set_peer_elem; [done|by left].
    + unfold live. cbn. by apply Z.leb_le.
Qed.
End beacon.
Definition node (i ip : string) (manual : list pyval) : AppConfig :=
  match AppConfig_from_dict ascii_word no_repr (str "s3cret") (str i) (λ _, str "f")
          (VDict [key "admin_ui" (VDict [key "bind_ip" (vstr ip); key "port" (VInt 8080)]);
                  key "cluster" (VDict [key "enabled" (VBool true); key "key" (vstr "fleet"); key "peers" (VList manual)])]) with
  | Ok c => c | Raise _ => base_config
  end.
Lemma demo_hmac_bytes k m : is_bytes (demo_hmac k m).
Proof. apply Forall_fmap, Forall_true. intros x. cbn. unfold is_byte. dlia. Qed.
Definition node1 : AppConfig := Eval vm_compute in node "n1" "10.0.0.1" [].
Definition node2 : AppConfig := Eval vm_compute in node "n2" "10.0.0.2" [vstr "10.0.0.1:8080"; vstr "https://plant.example:443"].
Lemma beacon_discovered_witness :
  ∃ data, _make_beacon demo_hmac (str "line1") None node1 1000 = Ok data ∧
    let seen := if existsb (str_eqb (str "10.0.0.1")) _LOOPBACK then str "10.9.9.9" else str "10.0.0.1" in
    handle_datagram demo_hmac no_repr node2 data (str "10.9.9.9") 2000 []
    = (Ok tt, set_peer (mkPeer (str "n1") (str "line1") seen 8080 (str "http") 2000) [])
    ∧ ∀ now'', now'' - 2000 <= PEER_TTL → NoDup (p_id <$> ([] : table)) →
        (seen, 8080) ∈ (known_addresses lower node2 now''
           (set_peer (mkPeer (str "n1") (str "line1") seen 8080 (str "http") 2000) [])).1.
Proof.
  apply (beacon_discovered demo_hmac no_repr lower (str "line1") None demo_hmac_bytes
           ltac:(apply (bool_decide_unpack _); vm_compute; exact I) node1 node2 (str "fleet") (str "fleet")).
  - reflexivity.
  - reflexivity.
  - discriminate.
  - reflexivity.
  - reflexivity.
  - discriminate.
  - apply (bool_decide_unpack _). vm_compute. exact I.
  - vm_compute. reflexivity.
  - vm_compute. reflexivity.
  - apply (bool_decide_unpack _). vm_compute. exact I.
  - vm_compute. reflexivity.
Defined.

(** ** The cluster's pages (routes/cluster.py) *)
Definition ARROWS : pystr := str " " ++ 8596 :: str " ".
Section routes.
Context (word : Z → bool) (repr : pyval → pystr) (isfile : pystr → bool) (e : env) (lower_text : pystr → pystr).
Abbreviation text v := (str_of_val repr v).

Definition _mapping_kind_label (m : MappingConfig) : pystr :=
  if eq_str (kind m) (str "serialbridge") then str "serial" ++ 8596 :: str "serial"
  else text (mode (network m)) ++ str "/" ++ text (protocol (network m)).
Definition _mapping_endpoint (m : MappingConfig) : pystr :=
  if eq_str (kind m) (str "serialbridge") then text (s_port (serial m)) ++ ARROWS ++ text (s_port (serial_b m))
  else if eq_str (mode (network m)) (str "client")
  then 8594 :: str " " ++ text (remote_host (network m)) ++ str ":" ++ text (remote_port (network m))
  else text (bind_ip (network m)) ++ str ":" ++ text (port (network m)).
(** [secs] is the whole number of seconds. *)
Definition _fmt_uptime (secs : Z) : pystr :=
  let s := Z.max 0 secs in
  let d := s / 86400 in let h := s mod 86400 / 3600 in let m := s mod 86400 mod 3600 / 60 in
  if negb (d =? 0) then str_of_Z d ++ str "d " ++ str_of_Z h ++ str "h"
  else if negb (h =? 0) then str_of_Z h ++ str "h " ++ str_of_Z m ++ str "m" else str_of_Z m ++ str "m".

(** The status of a runner as the supervisor reports it: an empty dict when there is none. *)
Definition status_row (st : list (pystr * pyval)) (m : MappingConfig) : pyval :=
  VDict [key "id" (id m); key "name" (name m); key "enabled" (VBool (enabled m));
         key "kind" (VStr (_mapping_kind_label m)); key "endpoint" (VStr (_mapping_endpoint m));
         key "serial" (s_port (serial m)); key "state" (get st "state" (vstr "stopped"));
         key "client_count" (get st "client_count" (VInt 0));
         key "bytes_in" (get st "bytes_in" (VInt 0)); key "bytes_out" (get st "bytes_out" (VInt 0))].
Definition local_node_payload (hostname version : pystr) (lan_ip : option pystr) (uptime : Z)
    (statuses : pyval → list (pystr * pyval)) (c : AppConfig) : res pyval :=
  a ← advertised lan_ip c;
  let '(ip, port, scheme) := a in
  let running := length (List.filter (λ m, eq_str (get (statuses (id m)) "state" VNone) (str "running")) (mappings c)) in
  Ok (VDict [key "id" (instance_id c); key "name" (VStr hostname); key "ip" (VStr ip); key "port" (VInt port);
             key "scheme" (VStr scheme); key "version" (VStr version); key "uptime_s" (VInt uptime);
             key "mapping_count" (VInt (zlen (mappings c))); key "running_count" (VInt (Z.of_nat running));
             key "mappings" (VList ((λ m, status_row (statuses (id m)) m) <$> mappings c))]).

(** *** For other nodes: the shared key in place of a session *)
Definition peer_key_ok (header : option pystr) (c : AppConfig) : res bool :=
  a ← cluster_active (cluster c);
  match header, cl_key (cluster c) with
  | Some ((_ :: _) as h), VStr k => if (a : bool) then compare_digest h k else Ok false
  | _, _ => Ok false
  end.
(** What a peer's call leads to: a status code, or an operation's outcome. *)
Inductive peer_reply := PStatus (code : Z) | POutcome (o : outcome) | PCrash (x : exn).
Definition with_key (header : option pystr) (s : state) (k : peer_reply * state) : peer_reply * state :=
  match peer_key_ok header (config s) with
  | Raise x => (PCrash x, s)
  | Ok false => (PStatus 403, s)
  | Ok true => k
  end.
Definition ACTIONS : list pystr := str <$> ["start"; "stop"; "restart"]%string.
Definition cluster_control (header : option pystr) (f : form) (s : state) : peer_reply * state :=
  with_key header s
    (let action := field f "action" "" in
     if negb (existsb (str_eqb action) ACTIONS) then (PStatus 400, s)
     else let '(o, s') := apply_action repr isfile e (field f "mapping_id" "") action s in (POutcome o, s')).
Definition cluster_mapping_save (header : option pystr) (f : form) (s : state) : peer_reply * state :=
  with_key header s
    (let '(o, s') := save_mapping_from_form word repr isfile e f s in (POutcome o, s')).
Definition cluster_mapping_data (header mid : option pystr) (c : AppConfig) : res (Z * option pyval) :=
  ok ← peer_key_ok header c;
  if negb ok then Ok (403, None)
  else match get_mapping (VStr (default [] mid)) (mappings c) with
       | Some m => Ok (200, Some (mapping_to_dict m))
       | None => Ok (404, None)
       end.

(** *** For the browser: calls to a peer. [Control] and [Save] are the requests sent. *)
Inductive peer_call :=
  | Control (scheme host : pystr) (port : Z) (mid action : pystr)
  | Load (scheme host : pystr) (port : Z) (mid : pystr)
  | Save (scheme host : pystr) (port : Z) (fields : form).
(** The peer a form names, when it is a known one, and the pruned table. *)
Definition _peer_from_request (c : AppConfig) (now : Z) (f : form) (t : table) : (Z + pystr * pystr * Z) * table :=
  match int_of_val (VStr (field f "port" "0")) with
  | Raise _ => (inl 400, t)
  | Ok p =>
      let '(l, t') := known_addresses lower_text c now t in
      if known (field f "host" "") p l then (inr (field f "scheme" "http", field f "host" "", p), t') else (inl 403, t')
  end.
Definition cluster_control_peer (u : option User) (c : AppConfig) (now : Z) (f : form) (t : table) : (Z + peer_call) * table :=
  match require_peer_access u with
  | Some code => (inl code, t)
  | None =>
      match int_of_val (VStr (field f "port" "0")) with
      | Raise _ => (inl 400, t)
      | Ok _ =>
          if negb (existsb (str_eqb (field f "action" "")) ACTIONS) then (inl 400, t)
          else match _peer_from_request c now f t with
               | (inl code, t') => (inl code, t')
               | (inr (scheme, host, p), t') => (inr (Control scheme host p (field f "mid" "") (field f "action" "")), t')
               end
      end
  end.
Definition cluster_peer_form (u : option User) (c : AppConfig) (now : Z) (f : form) (t : table) : (Z + peer_call) * table :=
  match require_peer_access u with
  | Some code => (inl code, t)
  | None =>
      match _peer_from_request c now f t with
      | (inl code, t') => (inl code, t')
      | (inr (scheme, host, p), t') => (inr (Load scheme host p (field f "mid" "")), t')
      end
  end.
Definition SKIP : list pystr :=
  str <$> ["_peer_scheme"; "_peer_host"; "_peer_port"; "_csrf"; "scheme"; "host"; "port"]%string.
Definition cluster_peer_save (u : option User) (c : AppConfig) (now : Z) (f : form) (t : table) : (Z + peer_call) * table :=
  match require_peer_access u with
  | Some code => (inl code, t)
  | None =>
      match _peer_from_request c now f t with
      | (inl code, t') => (inl code, t')
      | (inr (scheme, host, p), t') =>
          (inr (Save scheme host p (List.filter (λ kv, negb (existsb (str_eqb kv.1) SKIP)) f)), t')
      end
  end.
End routes.

(** ** Who gets through *)
Section doors.
Context (word : Z → bool) (repr : pyval → pystr) (isfile : pystr → bool) (e : env) (lower_text : pystr → pystr).

Definition call_addr (x : peer_call) : pystr * Z :=
  match x with Control _ h p _ _ | Load _ h p _ | Save _ h p _ => (h, p) end.
(** The address of a node in the table that was heard recently, or of one entered by an admin. *)
Definition peer_address (c : AppConfig) (now : Z) (t : table) (a : pystr * Z) : Prop :=
  (∃ q, q ∈ t ∧ now - last_seen q <= PEER_TTL ∧ (p_ip q, p_port q) = a)
  ∨ ∃ entry scheme, entry ∈ AppConfig.peers (cluster c) ∧ parse_cluster_peer entry = Ok (scheme, a.1, a.2).

Lemma peer_key_inv header c : peer_key_ok header c = Ok true →
  ∃ h, header = Some h ∧ h ≠ [] ∧ cl_key (cluster c) = VStr h ∧ cluster_active (cluster c) = Ok true.
Proof.
  unfold peer_key_ok. intros H. apply res_bind_Ok in H as (a & Ha & H).
  destruct header as [[|x h]|]; [done| |done]. destruct (cl_key (cluster c)) as [| | | |k| | |]; try done. destruct a; [|done].
  unfold compare_digest in H. destruct (_ && _); [|done]. injection H as H%bool_decide_eq_true. exists (x :: h).
  split_and!; [done..|by rewrite H|done].
Qed.
Lemma add_manual_elem seen ms x : x ∈ add_manual seen ms → x ∈ ms.
Proof.
  revert seen. induction ms as [|m ms IH]; intros seen; cbn; [done|]. destruct (existsb _ _); [intros H; right; by eapply IH|].
  intros [->|H]%elem_of_cons; [by left|right; by eapply IH].
Qed.
Lemma known_address c now t host p :
  known host p (known_addresses lower_text c now t).1 = true → peer_address c now t (host, p).
Proof.
  unfold known. intros (a & Ha & E)%existsb_exists. apply list_elem_of_In in Ha.
  apply andb_true_iff in E as [E1%bool_decide_eq_true E2]. zbool. assert (a = (host, p)) as -> by (destruct a; cbn in *; congruence).
  unfold known_addresses, all_targets in Ha. cbn [peers fst] in Ha.
  apply list_elem_of_fmap in Ha as (x & Ex & Hx). apply elem_of_app in Hx as [Hx|Hx].
  - apply list_elem_of_fmap in Hx as (q & -> & Hq). rewrite sort_by_perm in Hq.
    apply list_elem_of_In, filter_In in Hq as [Hq%list_elem_of_In Hl]. left. exists q. unfold live in Hl. zbool. by injection Ex as -> ->.
  - apply add_manual_elem in Hx. unfold manual_targets in Hx. apply list_elem_of_omap in Hx as (entry & Hin & Hp).
    destruct (parse_cluster_peer entry) as [[[scheme h] p']|] eqn:E; [|done]. injection Hp as <-. cbn in Ex. injection Ex as -> ->.
    right. by exists entry, scheme.
Qed.
Lemma peer_from_request_known c now f t x t' :
  _peer_from_request lower_text c now f t = (inr x, t') → peer_address c now t (x.1.2, x.2).
Proof.
  unfold _peer_from_request. destruct (int_of_val _) as [p|]; [|done].
  pose proof (known_address c now t (field f "host" "") p) as H. destruct (known_addresses _ _ _ _) as [l t1]. cbn [fst] in H.
  destruct (known _ _ _); [|done]. intros [= <- <-]. by apply H.
Qed.

(** the cluster opens no door. A call from another node changes something only when it carries the
    cluster key of an active cluster, and then it is exactly the start, stop, restart or save that this node's own pages
    perform; and this node calls another one only for a signed-in operator, who names an address where it heard a
    node within twenty seconds or that an admin entered (where the request then goes, [PeerHttp] says). *)
Theorem cluster_doors header f s u now t :
  (∀ r s', cluster_control repr isfile e header f s = (r, s') →
     s' = s ∨ (∃ k, header = Some k ∧ k ≠ [] ∧ cl_key (cluster (config s)) = VStr k ∧ cluster_active (cluster (config s)) = Ok true)
            ∧ ∃ a o, a ∈ ACTIONS ∧ r = POutcome o ∧ (o, s') = run word repr isfile e (Action (field f "mapping_id" "") a) s)
  ∧ (∀ r s', cluster_mapping_save word repr isfile e header f s = (r, s') →
     s' = s ∨ (∃ k, header = Some k ∧ k ≠ [] ∧ cl_key (cluster (config s)) = VStr k ∧ cluster_active (cluster (config s)) = Ok true)
            ∧ ∃ o, r = POutcome o ∧ (o, s') = run word repr isfile e (SaveForm f) s)
  ∧ ∀ x t', (cluster_control_peer lower_text u (config s) now f t = (inr x, t')
             ∨ cluster_peer_form lower_text u (config s) now f t = (inr x, t')
             ∨ cluster_peer_save lower_text u (config s) now f t = (inr x, t')) →
     require_peer_access u = None ∧ peer_address (config s) now t (call_addr x).
Proof.
  split_and!.
  - intros r s'. unfold cluster_control, with_key. destruct (peer_key_ok header (config s)) as [[]|] eqn:Ek; [|intros [= _ <-]; by left..].
    apply peer_key_inv in Ek. cbv zeta. destruct (existsb (str_eqb (field f "action" "")) ACTIONS) eqn:Ea; cbn [negb]; [|intros [= _ <-]; by left].
    destruct (apply_action _ _ _ _ _ _) as [o s1] eqn:E. intros [= <- <-]. right. split; [done|]. exists (field f "action" ""), o.
    split_and!; [|done|].
    + apply existsb_exists in Ea as (a & Ha & <-%bool_decide_eq_true). by apply list_elem_of_In.
    + cbn [run]. unfold mapping_action. change (str <$> ["start"; "stop"; "restart"]%string) with ACTIONS. by rewrite Ea, E.
  - intros r s'. unfold cluster_mapping_save, with_key. destruct (peer_key_ok header (config s)) as [[]|] eqn:Ek; [|intros [= _ <-]; by left..].
    apply peer_key_inv in Ek. destruct (save_mapping_from_form _ _ _ _ _ _) as [o s1] eqn:E. intros [= <- <-]. right.
    split; [done|]. exists o. split; [done|]. cbn [run]. by rewrite E.
  - intros x t' H. unfold cluster_control_peer, cluster_peer_form, cluster_peer_save in H.
    destruct (require_peer_access u); [by destruct H as [?|[?|?]]|]. split; [done|].
    pose proof (peer_from_request_known (config s) now f t) as Hk.
    destruct (_peer_from_request lower_text (config s) now f t) as [[code|[[scheme host] p]] t1].
    + exfalso. destruct H as [H|[?|?]]; [|done..]. revert H. destruct (int_of_val _); [|done]. by destruct (negb _).
    + specialize (Hk _ _ eq_refl). cbn in Hk. destruct H as [H|[[= <- _]|[= <- _]]]; [|done..].
      revert H. destruct (int_of_val _); [|done]. destruct (negb _); [done|]. by intros [= <- _].
Qed.
End doors.

(** A shared key with a character outside ASCII is accepted by the settings, but every call of a peer then
    fails, whatever key it presents. *)
Example non_ascii_key_breaks_peers :
  let c := mkCluster (VBool true) (VStr [351; 105; 102; 114; 101]) (VInt 41750) (vstr "") [] in
  cluster_validate c = Ok tt
  ∧ match peer_key_ok (Some (str "x")) (mkApp 1 (admin_ui node1) VNone VNone VNone 0 [] (ldap node1) (oidc node1) c
                         (notifications node1) VNone VNone []) with
    | Raise x => exn_cls x | Ok _ => OutOfFuel end = TypeError.
Proof. by vm_compute. Qed.

(** A datagram of anyone on the network whose "d" is not text raises instead of being ignored. *)
Example malformed_datagram_raises :
  match (handle_datagram demo_hmac no_repr node2 (str "{" ++ 34 :: str "d" ++ 34 :: str ":5," ++ 34 :: str "s" ++ 34 :: str ":1}")
           (str "10.9.9.9") 0 []).1 with
  | Raise x => exn_cls x | Ok _ => OutOfFuel end = AttributeError.
Proof. by vm_compute. Qed.
