(* ===== verification/Accounts.v ===== *)
(** * Accounts, settings and access (app/web/server.py, routes/settings.py, routes/login.py,
      ldap_auth.py, oidc_auth.py)

    The gate every request passes, the roles external sign-ins get, and the handlers of the settings
    and sign-in pages as functions of the configuration in memory and on disk. A handler answers
    with a page, an error message on the page, a status code, or an exception. *)
From Stdlib Require Import SpecFloat.
From S2P Require Import Prelude PyFloat PyStr PyVal IpAddr PyNum Json JsonOut Base64 Config AppConfig Auth Store ConfigStore Supervisor Importer Forms Ops.
#[local] Open Scope Z_scope.

(** ** The gate (GuardMiddleware) *)
Inductive verdict := Redirect (to : string) | Status (code : Z) | Serve (u : option User).
Definition PUBLIC_PREFIXES : list pystr := str <$> ["/static"; "/auth/"; "/lang/"]%string.
Definition _CLUSTER_PEER_PATHS : list pystr :=
  str <$> ["/api/cluster/local"; "/api/cluster/control"; "/api/cluster/mapping-data"; "/api/cluster/mapping-save"]%string.
Definition PUBLIC_PATHS : list pystr :=
  (str <$> ["/login"; "/setup"; "/healthz"; "/favicon.ico"]%string) ++ _CLUSTER_PEER_PATHS.
Definition member (s : pystr) (l : list pystr) : bool := existsb (str_eqb s) l.
Definition under (prefixes : list pystr) (path : pystr) : bool := existsb (starts_with path) prefixes.
Definition unsafe_method (m : string) : bool := existsb (String.eqb m) ["POST"; "PUT"; "DELETE"; "PATCH"]%string.

(** What the gate looks at in a request. *)
Record request := mkRequest {
  path : pystr;
  method : string;
  csrf_cookie : option pystr;
  csrf_header : option pystr;
  session_cookie : option pystr;
  authorization : pystr;
  headers : string → option pystr;
}.

Section gate.
Context (hmac_sha256 : bytes → bytes → bytes) (sha256 : bytes → bytes) (repr : pyval → pystr) (hostname : pystr).

Definition _wants_json (r : request) : bool := starts_with (path r) (str "/api").
Definition _dispatch_ui (c : AppConfig) (now : Z) (r : request) : res verdict :=
  let p := path r in
  let is_public := member p PUBLIC_PATHS || under PUBLIC_PREFIXES p in
  let checked := unsafe_method (method r) && starts_with p (str "/api/") && negb (member p _CLUSTER_PEER_PATHS) in
  ok ← (if checked then csrf_token_matches (csrf_cookie r) (csrf_header r) else Ok true);
  if negb ok then Ok (Status 403)
  else if negb (password_set c) then
    if negb (member p (str <$> ["/setup"; "/healthz"]%string)) && negb (under (str <$> ["/static"; "/lang/"]%string) p)
    then Ok (Redirect "/setup") else Ok (Serve None)
  else if str_eqb p (str "/setup") then Ok (Redirect "/")
  else if is_public then Ok (Serve None)
  else
    u ← request_user hmac_sha256 repr hostname c (session_cookie r) (headers r) now;
    match u with
    | None => Ok (if _wants_json r then Status 401 else Redirect "/login")
    | Some x => Ok (Serve (Some x))
    end.
Definition _dispatch_api (c : AppConfig) (r : request) : res verdict :=
  if member (path r) (str <$> ["/api/v1/health"; "/api/v1/openapi.json"]%string) then Ok (Serve None)
  else if negb (password_set c) then Ok (Status 503)
  else
    match api_token_hash c with
    | VStr ((_ :: _) as h) =>
        ok ← verify_token sha256 (bearer_token (authorization r)) h;
        if negb ok then Ok (Status 401)
        else if unsafe_method (method r) && (ROLE_RANK (api_token_role c) <? ROLE_RANK (vstr "operator"))
        then Ok (Status 403) else Ok (Serve None)
    | h => if truthy h then raise TypeError "compare_digest" else Ok (Status 401)
    end.
Definition dispatch (c : AppConfig) (now : Z) (r : request) : res verdict :=
  if starts_with (path r) (str "/api/v1") then _dispatch_api c r else _dispatch_ui c now r.
End gate.

(** ** Roles of external sign-ins *)
Section roles.
Context (repr : pyval → pystr).

(** [g in dn] for a group name: a part of the text. *)
Definition in_group (groups : list pystr) (name : pyval) : res bool :=
  let text := if truthy name then name else vstr "" in
  g ← strip_of text;
  Ok (negb (is_empty (lower g)) && existsb (contains (lower g)) groups).
Definition role_for_groups (groups : list pyval) (admin operator viewer default_role : pyval) : res pyval :=
  let lowered := (λ g, lower (str_of_val repr g)) <$> groups in
  a ← in_group lowered admin;
  if (a : bool) then Ok (vstr "admin") else
  o ← in_group lowered operator;
  if (o : bool) then Ok (vstr "operator") else
  v ← in_group lowered viewer;
  if (v : bool) then Ok (vstr "viewer") else Ok (or_else default_role VNone).
Fixpoint username_from (claims : list (pystr * pyval)) (names : list pyval) : res pystr :=
  match names with
  | [] => Ok []
  | n :: names' =>
      match n with
      | VStr k => let v := match assoc k claims with Some v => v | None => VNone end in
                  if truthy v then Ok (str_of_val repr v) else username_from claims names'
      | _ => if hashable n then username_from claims names' else raise TypeError "unhashable type"
      end
  end.
Definition username_from_claims (claims : list (pystr * pyval)) (o : OidcSettings) : res pystr :=
  username_from claims [username_claim o; vstr "preferred_username"; vstr "email"; vstr "sub"].
Definition role_from_claims (claims : list (pystr * pyval)) (o : OidcSettings) : res pyval :=
  match groups_claim o with
  | VStr k =>
      let g := or_else (match assoc k claims with Some v => v | None => VNone end) (VList []) in
      l ← (match g with VStr _ => Ok [g] | _ => iter_of g end);
      role_for_groups l (oi_admin_group o) (oi_operator_group o) (oi_viewer_group o) (oi_default_role o)
  | v => if hashable v then role_for_groups [] (oi_admin_group o) (oi_operator_group o) (oi_viewer_group o) (oi_default_role o)
         else raise TypeError "unhashable type"
  end.
End roles.

(** ** The handlers *)
Inductive reply := Page | Problem (msg : string) | Denied (code : Z) | Crash (e : exn).
Definition set_config (c : AppConfig) (s : state) : state := mkState c (disk s) (engine s).
Definition with_admin (a : AdminUI) (c : AppConfig) : AppConfig :=
  mkApp (version c) a (secret_key c) (api_token_hash c) (api_token_role c) (session_timeout_s c)
    (users c) (ldap c) (oidc c) (cluster c) (notifications c) (instance_id c) (defaults c) (mappings c).
Definition with_timeout (t : Z) (c : AppConfig) : AppConfig :=
  mkApp (version c) (admin_ui c) (secret_key c) (api_token_hash c) (api_token_role c) t
    (users c) (ldap c) (oidc c) (cluster c) (notifications c) (instance_id c) (defaults c) (mappings c).
Definition with_token (h r : pyval) (c : AppConfig) : AppConfig :=
  mkApp (version c) (admin_ui c) (secret_key c) h r (session_timeout_s c)
    (users c) (ldap c) (oidc c) (cluster c) (notifications c) (instance_id c) (defaults c) (mappings c).
Definition with_ldap (l : LdapSettings) (c : AppConfig) : AppConfig :=
  mkApp (version c) (admin_ui c) (secret_key c) (api_token_hash c) (api_token_role c) (session_timeout_s c)
    (users c) l (oidc c) (cluster c) (notifications c) (instance_id c) (defaults c) (mappings c).
Definition with_oidc (o : OidcSettings) (c : AppConfig) : AppConfig :=
  mkApp (version c) (admin_ui c) (secret_key c) (api_token_hash c) (api_token_role c) (session_timeout_s c)
    (users c) (ldap c) o (cluster c) (notifications c) (instance_id c) (defaults c) (mappings c).
Definition with_cluster (l : ClusterSettings) (c : AppConfig) : AppConfig :=
  mkApp (version c) (admin_ui c) (secret_key c) (api_token_hash c) (api_token_role c) (session_timeout_s c)
    (users c) (ldap c) (oidc c) l (notifications c) (instance_id c) (defaults c) (mappings c).
Definition with_notifications (n : NotificationSettings) (c : AppConfig) : AppConfig :=
  mkApp (version c) (admin_ui c) (secret_key c) (api_token_hash c) (api_token_role c) (session_timeout_s c)
    (users c) (ldap c) (oidc c) (cluster c) n (instance_id c) (defaults c) (mappings c).

Section handlers.
Context (scrypt : bytes → bytes → Z → res bytes) (sha256 : bytes → bytes).
Context (word : Z → bool) (repr : pyval → pystr) (isfile : pystr → bool) (e : env).

(** Who asks, and whether the form's CSRF token matches. *)
Record caller := mkCaller { me : option User; csrf_ok : bool }.
Definition as_admin (w : caller) (s : state) (k : reply * state) : reply * state :=
  match require_role (me w) "admin" with
  | Some code => (Denied code, s)
  | None => if csrf_ok w then k else (Denied 403, s)
  end.
(** Save a changed configuration: a refused one is rolled back, or stays in memory when the handler
    does not catch the error. *)
Definition save_or_rollback (c : AppConfig) (s : state) : reply * state :=
  match asave repr isfile e (set_config c s) with
  | (Ok _, d) => (Page, set_disk d (set_config c s))
  | (Raise x, d) =>
      if config_error x then (Problem "refused", set_disk d s) else (Crash x, set_disk d (set_config c s))
  end.
Definition save_or_crash (c : AppConfig) (s : state) : reply * state :=
  match asave repr isfile e (set_config c s) with
  | (Ok _, d) => (Page, set_disk d (set_config c s))
  | (Raise x, d) => (Crash x, set_disk d (set_config c s))
  end.

(** *** Accounts; [salt] is what the password hash draws *)
Definition settings_users_create (salt : bytes) (w : caller) (f : form) (s : state) : reply * state :=
  as_admin w s
    (let u := strip (field f "username" "") in
     let r := field f "role" "viewer" in
     let pw := field f "password" "" in
     match _username_problem u with
     | Some m => (Problem m, s)
     | None =>
         if negb (in_strs (VStr r) ROLES) then (Problem "Invalid role.", s)
         else
           match _password_problem pw (field f "password2" "") with
           | Some m => (Problem m, s)
           | None =>
               match get_user (VStr u) (users (config s)) with
               | Some _ => (Problem "User '{0}' already exists.", s)
               | None =>
                   match hash_password scrypt salt pw with
                   | Raise x => (Crash x, s)
                   | Ok h =>
                       save_or_crash (set_users (users (config s) ++ [mkUser (VStr u) (VStr h) (VStr r) (VInt 1) (vstr "local")])
                                        (config s)) s
                   end
               end
           end
     end).
(** The checks of a role change, before the lock, and the change. *)
Definition role_check (u r : pystr) (c : AppConfig) : option string :=
  match get_user (VStr u) (users c) with
  | None => Some "User not found."
  | Some t =>
      if negb (in_strs (VStr r) ROLES) then Some "Invalid role."
      else if eq_str (role t) (str "admin") && negb (str_eqb r (str "admin")) && (admin_count (users c) <=? 1)%nat
      then Some "Cannot demote the last admin." else None
  end.
Definition role_change (u r : pystr) (s : state) : reply * state :=
  match get_user (VStr u) (users (config s)) with
  | None => save_or_crash (config s) s
  | Some t =>
      match bump (pwd_version t) with
      | Raise x => (Crash x, set_config (set_users (update_user (VStr u)
                       (mkUser (username t) (password_hash t) (VStr r) (pwd_version t) (source t)) (users (config s))) (config s)) s)
      | Ok v => save_or_crash (set_users (update_user (VStr u)
                       (mkUser (username t) (password_hash t) (VStr r) v (source t)) (users (config s))) (config s)) s
      end
  end.
Definition settings_users_role (w : caller) (u : pystr) (f : form) (s : state) : reply * state :=
  as_admin w s
    (let r := field f "role" "viewer" in
     match role_check u r (config s) with Some m => (Problem m, s) | None => role_change u r s end).
Definition settings_users_delete (w : caller) (u : pystr) (s : state) : reply * state :=
  as_admin w s
    (match get_user (VStr u) (users (config s)) with
     | None => (Problem "User not found.", s)
     | Some t =>
         if match me w with Some x => py_eq (username x) (VStr u) | None => false end
         then (Problem "You cannot delete your own account.", s)
         else if eq_str (role t) (str "admin") && (admin_count (users (config s)) <=? 1)%nat
         then (Problem "Cannot delete the last admin.", s)
         else save_or_crash (set_users (List.filter (λ x, negb (py_eq (username x) (VStr u))) (users (config s))) (config s)) s
     end).
Definition settings_password_post (salt : bytes) (w : caller) (f : form) (s : state) : reply * state :=
  if negb (csrf_ok w) then (Denied 403, s)
  else
    match me w with
    | None => (Problem "Current password is incorrect.", s)
    | Some x =>
        if eq_str (source x) (str "anonymous") then (Problem "Sign in to change your password.", s)
        else if negb (eq_str (source x) (str "local")) then (Problem "Your account is managed by {0}", s)
        else
          match verify_password scrypt (field f "current" "") (password_hash x) with
          | Raise y => (Crash y, s)
          | Ok false => (Problem "Current password is incorrect.", s)
          | Ok true =>
              match _password_problem (field f "password" "") (field f "password2" "") with
              | Some m => (Problem m, s)
              | None =>
                  match hash_password scrypt salt (field f "password" "") with
                  | Raise y => (Crash y, s)
                  | Ok h =>
                      let put v := set_users (update_user (username x)
                                     (mkUser (username x) (VStr h) (role x) v (source x)) (users (config s))) (config s) in
                      match bump (pwd_version x) with
                      | Raise y => (Crash y, set_config (put (pwd_version x)) s)
                      | Ok v => save_or_crash (put v) s
                      end
                  end
              end
          end
    end.
(** First run: reached only while there are no accounts. *)
Definition setup_post (salt : bytes) (csrf : bool) (f : form) (s : state) : reply * state :=
  if negb csrf then (Denied 403, s)
  else
    let u := or_text (strip (or_text (field f "username" "") "admin")) "admin" in
    match _username_problem u with
    | Some m => (Problem m, s)
    | None =>
        match _password_problem (field f "password" "") (field f "password2" "") with
        | Some m => (Problem m, s)
        | None =>
            match hash_password scrypt salt (field f "password" "") with
            | Raise x => (Crash x, s)
            | Ok h => save_or_crash (set_users [mkUser (VStr u) (VStr h) (vstr "admin") (VInt 1) (vstr "local")] (config s)) s
            end
        end
    end.

(** *** Signing in *)
(** What a sign-in gives: the account the session is issued for, or nobody. *)
Definition signed_in (o : option User) (s : state) (r : reply) : reply * option User * state := (r, o, s).
(** [ldap_groups] is what the directory answers (None: refused). *)
Definition login_post (ldap_groups : pystr → pystr → option (list pyval)) (csrf : bool) (ip : pystr) (now : Z)
    (f : form) (s : state) (l : LoginRateLimiter) : reply * option User * state * LoginRateLimiter :=
  if negb csrf then (Denied 403, None, s, l)
  else
    let '(b, l) := blocked ip now l in
    if b then (Denied 429, None, s, l)
    else
      let u := or_text (strip (or_text (field f "username" "") "admin")) "admin" in
      let pw := field f "password" "" in
      let fail s := (Denied 401, None, s, record_failure ip now l) in
      let use_ldap :=
        if truthy (ld_enabled (ldap (config s))) then
          match ldap_groups u pw with
          | None => fail s
          | Some gs =>
              match role_for_groups repr gs (ld_admin_group (ldap (config s))) (ld_operator_group (ldap (config s)))
                      (ld_viewer_group (ldap (config s))) (ld_default_role (ldap (config s))) with
              | Raise x => (Crash x, None, s, l)
              | Ok r =>
                  if negb (truthy r) then fail s
                  else
                    match upsert_external_user (VStr u) r (vstr "ldap") (users (config s)) with
                    | Raise x => (Crash x, None, s, l)
                    | Ok (x, us) =>
                        match save_or_crash (set_users us (config s)) s with
                        | (Page, s') => (Page, Some x, s', reset ip l)
                        | (r, s') => (r, None, s', l)
                        end
                    end
              end
          end
        else fail s in
      match get_user (VStr u) (users (config s)) with
      | Some x =>
          if eq_str (source x) (str "local") then
            match verify_password scrypt pw (password_hash x) with
            | Ok true => (Page, Some x, s, reset ip l)
            | Ok false => fail s
            | Raise y => (Crash y, None, s, l)
            end
          else use_ldap
      | None => use_ldap
      end.
(** The account of a verified identity of the provider ([claims] is None when it was not verified). *)
Definition oidc_callback (claims : option (list (pystr * pyval))) (s : state) : reply * option User * state :=
  if negb (truthy (oi_enabled (oidc (config s)))) then (Denied 303, None, s)
  else
    match claims with
    | None => (Denied 401, None, s)
    | Some cl =>
        match username_from_claims repr cl (oidc (config s)), role_from_claims repr cl (oidc (config s)) with
        | Ok u, Ok r =>
            if is_empty u || negb (truthy r) then (Denied 403, None, s)
            else
              match upsert_external_user (VStr u) r (vstr "oidc") (users (config s)) with
              | Raise x => (Crash x, None, s)
              | Ok (x, us) =>
                  match save_or_crash (set_users us (config s)) s with
                  | (Page, s') => (Page, Some x, s')
                  | (r, s') => (r, None, s')
                  end
              end
        | Raise x, _ | _, Raise x => (Crash x, None, s)
        end
    end.

(** *** Settings *)
Definition settings_access_post (w : caller) (f : form) (s : state) : reply * state :=
  as_admin w s
    (let ui := admin_ui (config s) in
     let login := _checkbox f (str "require_login") in
     let r := field f "anonymous_role" "viewer" in
     if negb (in_strs (VStr r) ROLES) then (Problem "Invalid role for visitors without login.", s)
     else
       let l0 := field f "default_language" "" in
       let lang := if is_empty l0 || negb (in_strs (VStr l0) UI_LANGUAGES) then language ui else VStr l0 in
       let timeout :=
         if posted f (str "session_minutes") then
           x ← float_of_val (VStr (field f "session_minutes" ""));
           py_trunc (fmul x (S754_finite false 8444249301319680 (-47)))
         else Ok (session_timeout_s (config s)) in
       match timeout with
       | Raise x => match exn_cls x with
                    | ValueError => (Problem "Session lifetime must be a number of minutes.", s)
                    | _ => (Crash x, s)
                    end
       | Ok t =>
           save_or_rollback
             (with_timeout t (with_admin (mkAdmin (ui_bind_ip ui) (ui_port ui) (ui_tls_cert ui) (ui_tls_key ui)
                                            (VBool login) (VStr r) lang) (config s))) s
       end).
Definition settings_tls_post (w : caller) (f : form) (s : state) : reply * state :=
  as_admin w s
    (let ui := admin_ui (config s) in
     save_or_rollback
       (with_admin (mkAdmin (ui_bind_ip ui) (ui_port ui) (VStr (strip (field f "tls_cert" "")))
                      (VStr (strip (field f "tls_key" ""))) (require_login ui) (anonymous_role ui) (language ui))
          (config s)) s).
(** [token] is the new random token; only its hash is stored. *)
Definition settings_api_token_post (token : pystr) (w : caller) (f : form) (s : state) : reply * state :=
  as_admin w s
    (let r0 := field f "api_token_role" "admin" in
     let r := if in_strs (VStr r0) ROLES then r0 else str "admin" in
     match hash_token sha256 token with
     | Raise x => (Crash x, s)
     | Ok h => save_or_crash (with_token (VStr h) (VStr r) (config s)) s
     end).
Definition settings_api_token_revoke (w : caller) (s : state) : reply * state :=
  as_admin w s (save_or_crash (with_token (vstr "") (api_token_role (config s)) (config s)) s).
Definition settings_ldap_post (w : caller) (f : form) (s : state) : reply * state :=
  as_admin w s
    (match _ldap_from_form f (ldap (config s)) with
     | Ok l => save_or_rollback (with_ldap l (config s)) s
     | Raise x => (Crash x, s)
     end).
Definition settings_oidc_post (w : caller) (f : form) (s : state) : reply * state :=
  as_admin w s
    (match _oidc_from_form f (oidc (config s)) with
     | Ok o => save_or_rollback (with_oidc o (config s)) s
     | Raise x => (Crash x, s)
     end).
Definition _notify_from_form (f : form) (old : NotificationSettings) : res NotificationSettings :=
  let numbers :=
    p ← int_of_val (let t := field f "notify_smtp_port" "" in if is_empty t then VInt 587 else VStr t);
    m ← float_of_val (let t := field f "notify_repeat_min" "" in if is_empty t then VInt 5 else VStr t);
    r ← py_trunc (fmul m (S754_finite false 8444249301319680 (-47)));
    Ok (p, r) in
  '(p, r) ← match numbers with
            | Raise x => match exn_cls x with
                         | ValueError => raise ConfigError "SMTP port and repeat interval must be numbers."
                         | _ => Raise x
                         end
            | v => v
            end;
  let url := strip (field f "notify_webhook_url" "") in
  let pw := field f "notify_smtp_password" "" in
  NotificationSettings_from_dict (VDict [
    key "enabled" (VBool (_checkbox f (str "notify_enabled")));
    key "events" (VList (VStr <$> List.filter (λ ev, _checkbox f (str "notify_event_" ++ ev)) NOTIFY_EVENTS));
    key "repeat_s" (VInt r);
    key "webhook_url" (if negb (is_empty url) then VStr url
                       else if _checkbox f (str "notify_webhook_clear") then vstr "" else webhook_url old);
    key "webhook_format" (VStr (field f "notify_webhook_format" "json"));
    key "telegram_chat_id" (VStr (strip (field f "notify_telegram_chat_id" "")));
    key "email_to" (VStr (strip (field f "notify_email_to" "")));
    key "email_from" (VStr (strip (field f "notify_email_from" "")));
    key "smtp_host" (VStr (strip (field f "notify_smtp_host" "")));
    key "smtp_port" (VInt p); key "smtp_security" (VStr (field f "notify_smtp_security" "starttls"));
    key "smtp_username" (VStr (strip (field f "notify_smtp_username" "")));
    key "smtp_password" (if is_empty pw then smtp_password old else VStr pw)]).
Definition settings_notifications_post (w : caller) (f : form) (s : state) : reply * state :=
  as_admin w s
    (match _notify_from_form f (notifications (config s)) with
     | Raise x => if config_error x then (Problem "refused", s) else (Crash x, s)
     | Ok n => save_or_rollback (with_notifications n (config s)) s
     end).
Definition settings_cluster_post (w : caller) (f : form) (s : state) : reply * state :=
  as_admin w s
    (match int_of_val (let t := field f "discovery_port" "" in if is_empty t then VInt 41750 else VStr t) with
     | Raise x => match exn_cls x with
                  | ValueError => (Problem "Cluster discovery port must be a number.", s)
                  | _ => (Crash x, s)
                  end
     | Ok p =>
         let peers := List.filter (λ l, negb (is_empty l)) (strip <$> splitlines (field f "peers" "")) in
         save_or_rollback
           (with_cluster (mkCluster (VBool (str_eqb (field f "enabled" "") (str "on"))) (VStr (strip (field f "key" "")))
                            (VInt p) (VStr (strip (field f "advertise_ip" ""))) peers) (config s)) s
     end).
(** Restoring a backup keeps this node's secrets and restarts the engine with the restored mappings. *)
Definition restored_config (cur restored : AppConfig) : AppConfig :=
  mkApp (version restored) (admin_ui restored) (secret_key cur) (api_token_hash restored) (api_token_role restored)
    (session_timeout_s restored) (users restored) (ldap restored) (oidc restored) (cluster restored)
    (notifications restored) (instance_id cur) (defaults restored) (mappings restored).
Definition backup_restore (secret instance : pystr) (w : caller) (f : form) (s : state) : reply * state :=
  as_admin w s
    (let read :=
       text ← read_backup (field f "name" "") (disk s);
       match json_loads text with
       | None => raise ValueError "Expecting value"
       | Some d => AppConfig_from_dict word repr secret instance (e_fresh e) d
       end in
     match read with
     | Raise x => match exn_cls x with
                  | ConfigError | OSError | ValueError | TypeError | AttributeError =>
                      (Problem "Could not read the backup: {0}", s)
                  | _ => (Crash x, s)
                  end
     | Ok restored =>
         if negb (password_set restored) then (Problem "This backup has no user accounts", s)
         else
           match save_or_rollback (restored_config (config s) restored) s with
           | (Page, s') => (Page, set_engine (λ g, start_all (e_starts e) (mappings restored) (stop_all g)) s')
           | r => r
           end
     end).

(** The requests of the settings page (restoring a backup apart). *)
Inductive settings_op :=
  | UserCreate (salt : bytes) (f : form) | UserRole (u : pystr) (f : form) | UserDelete (u : pystr)
  | Password (salt : bytes) (f : form) | Access (f : form) | Tls (f : form) | ApiToken (token : pystr) (f : form)
  | ApiRevoke | Ldap (f : form) | Oidc (f : form) | Notifications (f : form) | Cluster (f : form).
Definition handle (o : settings_op) (w : caller) (s : state) : reply * state :=
  match o with
  | UserCreate salt f => settings_users_create salt w f s
  | UserRole u f => settings_users_role w u f s
  | UserDelete u => settings_users_delete w u s
  | Password salt f => settings_password_post salt w f s
  | Access f => settings_access_post w f s
  | Tls f => settings_tls_post w f s
  | ApiToken t f => settings_api_token_post t w f s
  | ApiRevoke => settings_api_token_revoke w s
  | Ldap f => settings_ldap_post w f s
  | Oidc f => settings_oidc_post w f s
  | Notifications f => settings_notifications_post w f s
  | Cluster f => settings_cluster_post w f s
  end.

(** ** Accounts stay usable *)
(** Accounts have different names, whole-number token versions, and one of them is an admin. *)
Record accounts_ok (us : list User) : Prop := {
  acc_names : NoDup (username <$> us);
  acc_text : Forall (λ u, is_str (username u) = true ∧ ∃ v, pwd_version u = VInt v) us;
  acc_admin : (1 <= admin_count us)%nat;
}.
Definition is_admin (u : User) : bool := eq_str (role u) (str "admin").

Lemma admin_count_cons u us : admin_count (u :: us) = ((if is_admin u then 1 else 0) + admin_count us)%nat.
Proof. unfold admin_count, is_admin. cbn [List.filter]. by destruct (eq_str (role u) (str "admin")). Qed.
Lemma admin_count_app us vs : admin_count (us ++ vs) = (admin_count us + admin_count vs)%nat.
Proof. unfold admin_count. rewrite List.filter_app, length_app. done. Qed.
Lemma name_eq u n : is_str (username u) = true → py_eq (username u) (VStr n) = true ↔ username u = VStr n.
Proof. destruct (username u) as [| | | |t| | |]; intros H; try done. rewrite py_eq_str. naive_solver. Qed.
Lemma get_user_in n us x : get_user n us = Some x → x ∈ us ∧ py_eq (username x) n = true.
Proof. intros [H1 H2]%List.find_some. split; [by apply list_elem_of_In|done]. Qed.
(** Finding an account by its own name. *)
Lemma get_user_self us x :
  NoDup (username <$> us) → Forall (λ u, is_str (username u) = true ∧ ∃ v, pwd_version u = VInt v) us → x ∈ us →
  get_user (username x) us = Some x.
Proof.
  intros Hnd Ht. unfold get_user. induction Ht as [|u us [Hu _] Ht IH]; intros Hx; [by apply not_elem_of_nil in Hx|].
  cbn in Hnd. apply NoDup_cons in Hnd as [Hn Hnd]. cbn [List.find]. apply elem_of_cons in Hx as [->|Hx].
  - destruct (username u) as [| | | |t| | |]; try done. by rewrite (proj2 (py_eq_str t (VStr t))).
  - destruct (py_eq (username u) (username x)) eqn:E; [|by apply IH].
    assert (username u = username x) as Eu.
    { destruct (username u) as [| | | |t| | |]; try done. by apply py_eq_str in E. }
    destruct Hn. rewrite Eu. by apply list_elem_of_fmap_2.
Qed.

Lemma accounts_app us u :
  accounts_ok us → get_user (username u) us = None → is_str (username u) = true → (∃ v, pwd_version u = VInt v) →
  accounts_ok (us ++ [u]).
Proof.
  intros [Hn Ht Ha] Hg Hu Hv. constructor.
  - rewrite fmap_app. apply NoDup_app. split_and!; [done| |by apply NoDup_singleton].
    intros n Hin ->%list_elem_of_singleton. apply list_elem_of_fmap in Hin as (x & Ex & Hx).
    rewrite Ex in Hg. by rewrite (get_user_self us x Hn Ht Hx) in Hg.
  - apply Forall_app. by split; [|apply Forall_singleton].
  - rewrite admin_count_app. lia.
Qed.
(** Changing one account in place. *)
Lemma update_user_spec us n x y :
  NoDup (username <$> us) → get_user n us = Some x → username y = username x →
  username <$> update_user n y us = username <$> us
  ∧ (admin_count us + (if is_admin y then 1 else 0) = admin_count (update_user n y us) + (if is_admin x then 1 else 0))%nat
  ∧ ∀ z, z ∈ update_user n y us → z = y ∨ z ∈ us.
Proof.
  intros Hnd. unfold get_user. induction us as [|u us IH]; cbn [List.find update_user]; [done|].
  cbn in Hnd. apply NoDup_cons in Hnd as [Hn Hnd]. destruct (py_eq (username u) n) eqn:E.
  - intros [= ->] Hy. rewrite !fmap_cons, Hy, !admin_count_cons. split_and!; [done|lia|].
    intros z [->|Hz]%elem_of_cons; [by left|right; by right].
  - intros Hx Hy. destruct (IH Hnd Hx Hy) as (H1 & H2 & H3). rewrite !fmap_cons, H1, !admin_count_cons.
    split_and!; [done|lia|]. intros z [->|Hz]%elem_of_cons; [right; by left|].
    destruct (H3 z Hz); [by left|right; by right].
Qed.
Lemma accounts_update us n x y :
  accounts_ok us → get_user n us = Some x → username y = username x → (∃ v, pwd_version y = VInt v) →
  (is_admin x = true → is_admin y = false → (1 < admin_count us)%nat) → accounts_ok (update_user n y us).
Proof.
  intros [Hn Ht Ha] Hg Hy Hv Hadm. destruct (update_user_spec us n x y Hn Hg Hy) as (H1 & H2 & H3). constructor.
  - by rewrite H1.
  - apply Forall_forall. intros z Hz. destruct (H3 z Hz) as [->|Hz']; [|by eapply (proj1 (Forall_forall _ _) Ht)].
    split; [|done]. rewrite Hy. apply get_user_in in Hg as [Hg _]. by apply (proj1 (Forall_forall _ _) Ht).
  - destruct (is_admin x), (is_admin y); lia.
Qed.
Lemma accounts_delete us n x :
  accounts_ok us → get_user (VStr n) us = Some x → (is_admin x = true → (1 < admin_count us)%nat) →
  accounts_ok (List.filter (λ y, negb (py_eq (username y) (VStr n))) us).
Proof.
  intros [Hn Ht Ha] Hg Hadm.
  assert ((∀ l, l `suffix_of` us → NoDup (username <$> List.filter (λ y, negb (py_eq (username y) (VStr n))) l))
          ∧ (admin_count us <= admin_count (List.filter (λ y, negb (py_eq (username y) (VStr n))) us) + (if is_admin x then 1 else 0))%nat) as [H1 H2].
  { split.
    - intros l [k ->]. rewrite fmap_app in Hn. apply NoDup_app in Hn as (_ & _ & Hn). clear -Hn.
      induction l as [|u l IH]; cbn; [constructor|]. cbn in Hn. apply NoDup_cons in Hn as [Hu Hn].
      destruct (negb (py_eq (username u) (VStr n))); [|by apply IH]. cbn. constructor; [|by apply IH].
      intros (y & Ey & Hy)%list_elem_of_fmap. apply Hu. rewrite Ey. apply list_elem_of_fmap_2.
      by apply list_elem_of_In, filter_In, proj1, list_elem_of_In in Hy.
    - clear Ha Hadm. unfold get_user in Hg. induction us as [|u us IH]; [done|]. cbn in Hn, Hg.
      apply NoDup_cons in Hn as [Hu Hn]. apply Forall_cons in Ht as [[Hs _] Ht]. cbn [List.filter].
      destruct (py_eq (username u) (VStr n)) eqn:E; cbn [negb].
      + injection Hg as ->. rewrite admin_count_cons.
        assert (List.filter (λ y, negb (py_eq (username y) (VStr n))) us = us) as ->; [|destruct (is_admin x); lia].
        apply filter_all, Forall_forall. intros y Hy. apply negb_true_iff, not_true_iff_false. intros Ey.
        apply name_eq in E; [|done]. apply name_eq in Ey; [|by eapply (proj1 (Forall_forall _ _) Ht)].
        apply Hu. rewrite E, <- Ey. by apply list_elem_of_fmap_2.
      + rewrite !admin_count_cons. specialize (IH Hn Ht Hg). lia. }
  constructor.
  - by apply H1.
  - apply Forall_forall. intros y Hy. apply list_elem_of_In, filter_In, proj1, list_elem_of_In in Hy.
    by eapply (proj1 (Forall_forall _ _) Ht).
  - destruct (is_admin x); [specialize (Hadm eq_refl); lia|lia].
Qed.

(** Every account afterwards was there, or is a new version of one that was, or is a new name. *)
Definition evolves (us us' : list User) : Prop :=
  accounts_ok us' ∧
  ∀ y, y ∈ us' → y ∈ us ∨ (∃ x, x ∈ us ∧ username y = username x ∧ pwd_version y ≠ pwd_version x)
                 ∨ get_user (username y) us = None.
Lemma evolves_refl us : accounts_ok us → evolves us us.
Proof. split; [done|]. auto. Qed.
Lemma evolves_update us n x y :
  accounts_ok us → get_user n us = Some x → username y = username x → (∃ v, pwd_version y = VInt v) →
  pwd_version y ≠ pwd_version x →
  (is_admin x = true → is_admin y = false → (1 < admin_count us)%nat) → evolves us (update_user n y us).
Proof.
  intros Hok Hg Hy Hv Hne Hadm. split; [by eapply accounts_update|].
  destruct (update_user_spec us n x y (acc_names _ Hok) Hg Hy) as (_ & _ & H3). apply get_user_in in Hg as [Hg _].
  intros z Hz. destruct (H3 z Hz) as [->|]; [|by left]. right. left. by exists x.
Qed.
Lemma bump_int v : bump (VInt v) = Ok (VInt (v + 1)).
Proof. done. Qed.

Lemma save_crash_users c s : users (config (save_or_crash c s).2) = users c.
Proof. unfold save_or_crash. by destruct (asave _ _ _ _) as [[u|x] d]. Qed.
Lemma save_rollback_users c s : users c = users (config s) → users (config (save_or_rollback c s).2) = users (config s).
Proof.
  intros H. unfold save_or_rollback. destruct (asave _ _ _ _) as [[u|x] d]; [done|]. by destruct (config_error x).
Qed.
Lemma as_admin_evolves w s k :
  accounts_ok (users (config s)) → evolves (users (config s)) (users (config k.2)) →
  evolves (users (config s)) (users (config (as_admin w s k).2)).
Proof.
  intros Ho Hk. unfold as_admin. destruct (require_role (me w) "admin"); [by apply evolves_refl|].
  destruct (csrf_ok w); [done|by apply evolves_refl].
Qed.

(** The next case distinction of a handler. *)
Ltac branch := match goal with |- context [match ?t with _ => _ end] => destruct t eqn:? end.
Lemma create_evolves salt w f s :
  accounts_ok (users (config s)) → evolves (users (config s)) (users (config (settings_users_create salt w f s).2)).
Proof.
  intros Ho. apply as_admin_evolves; [done|]. pose proof (evolves_refl _ Ho) as Hr.
  cbn zeta. branch; [done|]. branch; [done|]. branch; [done|]. branch; [done|]. branch; [|done].
  rewrite save_crash_users. cbn [users set_users]. split; [by apply accounts_app; [| |done|eexists]|].
  intros y [Hy|Hy]%elem_of_app; [by left|]. apply list_elem_of_singleton in Hy as ->. by right; right.
Qed.
Lemma role_evolves w u f s :
  accounts_ok (users (config s)) → evolves (users (config s)) (users (config (settings_users_role w u f s).2)).
Proof.
  intros Ho. apply as_admin_evolves; [done|]. cbn zeta. set (r := field f "role" "viewer").
  pose proof (evolves_refl _ Ho) as Hr. unfold role_check, role_change.
  destruct (get_user (VStr u) (users (config s))) as [t|] eqn:Hg; [|done].
  destruct (negb (in_strs (VStr r) ROLES)); [done|].
  destruct (eq_str (role t) (str "admin") && negb (str_eqb r (str "admin")) && (admin_count (users (config s)) <=? 1)%nat) eqn:Hc;
    [done|].
  pose proof (get_user_in _ _ _ Hg) as [Hin _]. destruct (proj1 (Forall_forall _ _) (acc_text _ Ho) t Hin) as [_ [v Hv]].
  rewrite Hv, bump_int, save_crash_users. cbn [users set_users]. eapply evolves_update; [done|done|done|by eexists| |].
  - cbn. rewrite Hv. intros [=]. lia.
  - unfold is_admin. cbn [role]. intros H1 H2. change (str_eqb r (str "admin") = false) in H2.
    rewrite H1, H2 in Hc. cbn in Hc. apply Nat.leb_gt in Hc. lia.
Qed.
Lemma delete_evolves w u s :
  accounts_ok (users (config s)) → evolves (users (config s)) (users (config (settings_users_delete w u s).2)).
Proof.
  intros Ho. apply as_admin_evolves; [done|]. pose proof (evolves_refl _ Ho) as Hr.
  destruct (get_user (VStr u) (users (config s))) as [t|] eqn:Hg; [|done].
  branch; [done|].
  destruct (eq_str (role t) (str "admin") && (admin_count (users (config s)) <=? 1)%nat) eqn:Hc; [done|].
  rewrite save_crash_users. cbn [users set_users]. split.
  - eapply accounts_delete; [done|done|]. unfold is_admin. intros H. rewrite H in Hc. apply Nat.leb_gt in Hc. lia.
  - intros y Hy. left. by apply list_elem_of_In, filter_In, proj1, list_elem_of_In in Hy.
Qed.
Definition known (w : caller) (us : list User) : Prop :=
  ∀ x, me w = Some x → x ∈ us ∨ eq_str (source x) (str "anonymous") = true.
Lemma password_evolves salt w f s :
  accounts_ok (users (config s)) → known w (users (config s)) →
  let s' := (settings_password_post salt w f s).2 in
  evolves (users (config s)) (users (config s'))
  ∧ ∀ y, y ∈ users (config s') → y ∈ users (config s) ∨ ∃ x, me w = Some x ∧ username y = username x ∧ role y = role x.
Proof.
  intros Ho Hk. unfold settings_password_post. pose proof (evolves_refl _ Ho) as Hr.
  destruct (negb (csrf_ok w)); [by split; [|auto]|]. destruct (me w) as [x|] eqn:Hm; [|by split; [|auto]].
  destruct (eq_str (source x) (str "anonymous")) eqn:Ea; [by split; [|auto]|].
  do 5 (branch; try (by split; [|auto])).
  destruct (Hk x Hm) as [Hx|Hx]; [|congruence].
  destruct (proj1 (Forall_forall _ _) (acc_text _ Ho) x Hx) as [_ [v Hv]]. rewrite Hv, bump_int. cbn zeta.
  rewrite save_crash_users. cbn [users set_users].
  pose proof (get_user_self _ _ (acc_names _ Ho) (acc_text _ Ho) Hx) as Hg.
  set (y := mkUser (username x) _ _ _ _). split.
  - apply (evolves_update _ _ x y); [done|done|done|by eexists| |].
    + cbn. rewrite Hv. intros [=]. lia.
    + unfold is_admin. cbn. congruence.
  - intros z Hz. destruct (update_user_spec _ _ x y (acc_names _ Ho) Hg eq_refl) as (_ & _ & H3).
    destruct (H3 z Hz) as [->|]; [right; by exists x|by left].
Qed.
Lemma settings_evolve o w s :
  accounts_ok (users (config s)) → known w (users (config s)) →
  evolves (users (config s)) (users (config (handle o w s).2)).
Proof.
  intros Ho Hk. pose proof (evolves_refl _ Ho) as Hr. destruct o; cbn [handle].
  - by apply create_evolves.
  - by apply role_evolves.
  - by apply delete_evolves.
  - by apply password_evolves.
  - apply as_admin_evolves; [done|]. cbn zeta. branch; [done|]. branch.
    + rewrite save_rollback_users; done.
    + by branch.
  - apply as_admin_evolves; [done|]. rewrite save_rollback_users; done.
  - apply as_admin_evolves; [done|]. cbn zeta. branch; [|done]. by rewrite save_crash_users.
  - apply as_admin_evolves; [done|]. by rewrite save_crash_users.
  - apply as_admin_evolves; [done|]. branch; [|done]. rewrite save_rollback_users; done.
  - apply as_admin_evolves; [done|]. branch; [|done]. rewrite save_rollback_users; done.
  - apply as_admin_evolves; [done|]. branch; [rewrite save_rollback_users; done|]. by branch.
  - apply as_admin_evolves; [done|]. branch; [|by branch].
    cbn zeta. rewrite save_rollback_users; done.
Qed.

End handlers.

(** Two accounts, and what their owners do. *)
Definition demo_scrypt (p salt : bytes) (n : Z) : res bytes := Ok (take (Z.to_nat n) (p ++ salt ++ repeat 0 32)).
Definition demo_accounts : state :=
  mkState (set_users [mkUser (vstr "ann") (vstr "x") (vstr "admin") (VInt 1) (vstr "local");
                      mkUser (vstr "bob") (vstr "y") (vstr "admin") (VInt 1) (vstr "local")] base_config)
    (mkFs None ∅) sup0.
Definition as_user (n : nat) : caller := mkCaller (users (config demo_accounts) !! n) true.
Abbreviation demo_handle := (handle demo_scrypt (λ b, b) no_repr (λ _, true) demo_env).
Lemma demo_accounts_ok : accounts_ok (users (config demo_accounts)).
Proof.
  constructor; [|by repeat constructor; eexists|vm_compute; lia].
  apply NoDup_cons. split; [|apply NoDup_singleton]. intros H%list_elem_of_singleton. by vm_compute in H.
Qed.

(** The check of a role change runs before the lock is taken: two requests that demote the two admins, both checked
    before either is applied, leave no admin. *)
Example last_admins_race :
  let demote u s := (role_change no_repr (λ _, true) demo_env (str u) (str "viewer") s).2 in
  role_check (str "ann") (str "viewer") (config demo_accounts) = None
  ∧ role_check (str "bob") (str "viewer") (config demo_accounts) = None
  ∧ admin_count (users (config (demote "bob"%string (demote "ann"%string demo_accounts)))) = 0%nat.
Proof. vm_compute. done. Qed.

(** An OIDC sign-in takes over the local account of the same name, the only admin's too. *)
Definition oidc_state : state :=
  set_config (with_oidc (mkOidc (VBool true) (vstr "https://idp") (vstr "id") (vstr "secret") (vstr "") (vstr "")
                           (vstr "preferred_username") (vstr "groups") (vstr "") (vstr "") (vstr "staff") (vstr ""))
                (set_users [mkUser (vstr "admin") (vstr "x") (vstr "admin") (VInt 1) (vstr "local")] base_config))
    first_state.
Example oidc_replaces_local_admin :
  let '(r, u, s') := oidc_callback no_repr (λ _, true) demo_env
    (Some [(str "preferred_username", vstr "admin"); (str "groups", VList [vstr "staff"])]) oidc_state in
  r = Page ∧ users (config s') = [mkUser (vstr "admin") (vstr "x") (vstr "viewer") (VInt 2) (vstr "oidc")].
Proof. vm_compute. done. Qed.

(** Token versions start again with a new account: the session of a deleted account is a session of
    the next account with its name. *)
Example deleted_session_revives :
  let s1 := (demo_handle (UserDelete (str "bob")) (as_user 0) demo_accounts).2 in
  let s2 := (demo_handle (UserCreate [1] [(str "username", str "bob"); (str "password", str "12345678");
                                          (str "password2", str "12345678")]) (as_user 0) s1).2 in
  match issue_session demo_hmac (secret_key base_config) 600 (vstr "bob") (VInt 1) 1000 with
  | Ok t => session_user demo_hmac no_repr (config s1) (Some t) 1001 = Ok None
            ∧ (fmap (M:=option) username <$> session_user demo_hmac no_repr (config s2) (Some t) 1001) = Ok (Some (vstr "bob"))
  | Raise _ => False
  end.
Proof. vm_compute. done. Qed.

(** ** The gate protects *)
Section gate_facts.
Context (hmac_sha256 : bytes → bytes → bytes) (sha256 : bytes → bytes) (repr : pyval → pystr) (hostname : pystr).

(** every request passes one gate. A page outside the public paths is served only to a user the request
    authenticates (a session, or open access from an own host name), and never before the first-run
    setup; a state-changing request under /api/ only with a matching CSRF token, the peers' calls
    apart. The REST API is served only with the token whose hash is configured, state-changing calls
    only when its role is at least operator. Once there are accounts, the setup page is gone. *)
Theorem gate_protects c now r u :
  dispatch hmac_sha256 sha256 repr hostname c now r = Ok (Serve u) →
  if starts_with (path r) (str "/api/v1") then
    member (path r) (str <$> ["/api/v1/health"; "/api/v1/openapi.json"]%string) = true
    ∨ (password_set c = true
       ∧ (∃ h, api_token_hash c = VStr h ∧ h ≠ [] ∧ verify_token sha256 (bearer_token (authorization r)) h = Ok true)
       ∧ (unsafe_method (method r) = true → 2 <= ROLE_RANK (api_token_role c)))
  else
    (unsafe_method (method r) = true → starts_with (path r) (str "/api/") = true →
       member (path r) _CLUSTER_PEER_PATHS = false → csrf_token_matches (csrf_cookie r) (csrf_header r) = Ok true)
    ∧ (password_set c = false → u = None ∧ (member (path r) (str <$> ["/setup"; "/healthz"]%string) = true
                                            ∨ under (str <$> ["/static"; "/lang/"]%string) (path r) = true))
    ∧ (password_set c = true →
       path r ≠ str "/setup"
       ∧ (member (path r) PUBLIC_PATHS = false → under PUBLIC_PREFIXES (path r) = false →
          ∃ x, u = Some x ∧ request_user hmac_sha256 repr hostname c (session_cookie r) (headers r) now = Ok (Some x))).
Proof.
  unfold dispatch. destruct (starts_with (path r) (str "/api/v1")).
  - unfold _dispatch_api. destruct (member _ _); [by left|]. intros H. right.
    destruct (password_set c); [|done]. cbn [negb] in H. split; [done|].
    destruct (api_token_hash c) as [| | | |[|a h]| | |] eqn:Eh;
      try (exfalso; revert H; match goal with |- context [truthy ?v] => destruct (truthy v) end; discriminate).
    apply res_bind_Ok in H as (ok & Hok & H). destruct ok; [|done]. cbn [negb] in H.
    split; [by exists (a :: h)|]. intros Hm. rewrite Hm in H. cbn [andb] in H.
    change (ROLE_RANK (vstr "operator")) with 2 in H.
    destruct (ROLE_RANK (api_token_role c) <? 2) eqn:E; [done|]. by apply Z.ltb_ge in E.
  - unfold _dispatch_ui. cbn zeta. intros H. apply res_bind_Ok in H as (ok & Hok & H). destruct ok; [|done].
    cbn [negb] in H. split_and!.
    + intros H1 H2 H3. by rewrite H1, H2, H3 in Hok.
    + intros Hp. rewrite Hp in H. cbn [negb] in H.
      destruct (member (path r) (str <$> ["/setup"; "/healthz"]%string)); cbn [negb andb] in H.
      { injection H as <-. by split; [|left]. }
      destruct (under (str <$> ["/static"; "/lang/"]%string) (path r)); cbn [negb] in H; [|done].
      injection H as <-. by split; [|right].
    + intros Hp. rewrite Hp in H. cbn [negb] in H. destruct (str_eqb (path r) (str "/setup")) eqn:Es; [done|].
      split; [by apply str_eqb_neq|]. intros H1 H2. rewrite H1, H2 in H. cbn [orb] in H.
      apply res_bind_Ok in H as (o & Ho & H). destruct o as [x|].
      * injection H as <-. by exists x.
      * by destruct (_wants_json r).
Qed.
End gate_facts.
Definition demo_request : request :=
  mkRequest (str "/api/v1/mappings") "POST" None None None (str "Bearer s2n_abc") (λ _, None).
Definition demo_token_config : AppConfig :=
  with_token (VStr (hex_text (str "s2n_abc"))) (vstr "operator") (config demo_accounts).
Lemma gate_protects_witness :
  member (path demo_request) (str <$> ["/api/v1/health"; "/api/v1/openapi.json"]%string) = true
  ∨ (password_set demo_token_config = true
     ∧ (∃ h, api_token_hash demo_token_config = VStr h ∧ h ≠ []
             ∧ verify_token (λ b, b) (bearer_token (authorization demo_request)) h = Ok true)
     ∧ (unsafe_method (method demo_request) = true → 2 <= ROLE_RANK (api_token_role demo_token_config))).
Proof.
  apply (gate_protects demo_hmac (λ b, b) no_repr (str "host") demo_token_config 0 demo_request None).
  vm_compute. reflexivity.
Defined.
