(* ===== verification/Startup.v ===== *)
(** * Starting and stopping (ser2net.py, bootstrap.py, app/runtime.py, app/console.py, app/standalone.py, app/healthcheck.py, app/web/selfsigned.py)

    The address the web UI listens on (environment, terminal, configuration), the health check that asks it, the way
    a stop reaches the event loop, and what is prepared before: packages, CA certificates, the UI's certificate. *)
From S2P Require Import Prelude PyFloat PyStr PyVal IpAddr PyNum Json JsonOut Config AppConfig Auth Importer Classic Store ConfigStore SerialIo.
#[local] Open Scope Z_scope.

(** ** The address of the web UI *)
Definition environment := string → option pystr.
(** [(os.environ.get(k) or "").strip()] *)
Definition env_text (e : environment) (k : string) : pystr := strip (default [] (e k)).
Definition with_bind (ip port : pyval) (a : AdminUI) : AdminUI :=
  mkAdmin ip port (ui_tls_cert a) (ui_tls_key a) (require_login a) (anonymous_role a) (language a).
Definition set_admin (a : AdminUI) (c : AppConfig) : AppConfig :=
  mkApp (version c) a (secret_key c) (api_token_hash c) (api_token_role c) (session_timeout_s c) (users c) (ldap c) (oidc c)
    (cluster c) (notifications c) (instance_id c) (defaults c) (mappings c).
Definition _env_bind_override (e : environment) (a : AdminUI) : bool * AdminUI :=
  match env_text e "SER2NET_BIND_IP" with
  | [] => (false, a)
  | ip =>
      let port := match env_text e "SER2NET_PORT" with
                  | [] => ui_port a
                  | p => match int_of_text p with Some z => VInt z | None => ui_port a end
                  end in
      (true, with_bind (VStr ip) port a)
  end.

(** *** The picker on the terminal *)
Definition validate_ip (value : pystr) : res pystr :=
  match ip_address value with
  | None => raise ValueError "does not appear to be an IPv4 or IPv6 address"
  | Some i =>
      _ ← raise_if (is_multicast i || is_reserved i) ValueError "Address cannot be multicast/reserved.";
      Ok (address_text value i)
  end.
(** What is typed, line by line; the end of it is [None] (EOFError ends the program). *)
Fixpoint choose_ip (candidates : list ip_item) (answers : list pystr) : option (pystr * list pystr) :=
  match answers with
  | [] => None
  | raw :: answers =>
      let raw := match strip raw with [] => str "1" | r => r end in
      if str_eqb (lower raw) (str "c") then
        match answers with
        | [] => None
        | custom :: answers =>
            match validate_ip (strip custom) with
            | Ok ip => Some (ip, answers)
            | Raise _ => choose_ip candidates answers
            end
        end
      else
        match int_of_text raw with
        | Some i => if (1 <=? i) && (i <=? zlen candidates)
                    then match candidates !! Z.to_nat (i - 1) with Some c => Some (i_value c, answers) | None => None end
                    else choose_ip candidates answers
        | None => choose_ip candidates answers
        end
  end.
Fixpoint choose_port (default_port : pystr) (answers : list pystr) : option (Z * list pystr) :=
  match answers with
  | [] => None
  | raw :: answers =>
      match int_of_text (match strip raw with [] => default_port | r => r end) with
      | Some p => if (1 <=? p) && (p <=? 65535) then Some (p, answers) else choose_port default_port answers
      | None => choose_port default_port answers
      end
  end.

(** A terminal, if there is one, and what is typed on it. *)
Record terminal := mkTerminal { tty : bool; answers : list pystr }.
Section startup.
Context (repr : pyval → pystr) (word : Z → bool) (isfile : pystr → bool).
Context (candidates : list ip_item).

Definition choose_admin_bind (t : terminal) (current : AdminUI) : option (pyval * pyval) :=
  let default_ip := or_else (ui_bind_ip current) (vstr "127.0.0.1") in
  let default_port := or_else (ui_port current) (VInt 8080) in
  if negb (tty t) then Some (default_ip, default_port)
  else
    '(ip, rest) ← choose_ip candidates (answers t);
    '(port, _) ← choose_port (str_of_val repr default_port) rest;
    Some (VStr ip, VInt port).

(** [prepare_config]; [first] is the configuration of a new installation. [None]: the terminal was closed. *)
Definition prepare_config (e : environment) (t : terminal) (reconfigure : bool) (done : change → bool) (written : bool)
    (stamp : pystr) (first : AppConfig) (secret instance : pystr) (fresh : nat → pystr) (s : fs) : option (res AppConfig * fs) :=
  let first_run := match config_json s with None => true | Some _ => false end in
  match load word repr first secret instance fresh s with
  | Raise x => Some (Raise x, s)
  | Ok c =>
      let '(env_set, admin) := _env_bind_override e (admin_ui c) in
      admin ← (if (first_run || reconfigure) && negb env_set then
                 '(ip, port) ← choose_admin_bind t admin; Some (with_bind ip port admin)
               else Some admin);
      let c := set_admin admin c in
      if first_run || reconfigure || env_set then
        match save repr isfile done written stamp c s with
        | (Ok _, s) => Some (Ok c, s)
        | (Raise x, s) => Some (Raise x, s)
        end
      else Some (Ok c, s)
  end.

(** ** The health check *)
(** [admin.get(k)] *)
Definition attr_get (admin : pyval) (k : string) : res pyval :=
  match admin with VDict d => Ok (get d k VNone) | _ => raise AttributeError "object has no attribute 'get'" end.
(** [text]: the configuration file, [None] when it cannot be read. *)
Definition admin_section (text : option pystr) : pyval :=
  match text ≫= json_loads with
  | None => VDict []
  | Some doc =>
      match or_else doc (VDict []) with
      | VDict d => or_else (get d "admin_ui" VNone) (VDict [])
      | _ => VDict []
      end
  end.
Definition probe_host (ip : pyval) : res pystr :=
  match ip with
  | VStr s =>
      let host := if str_eqb s (str "0.0.0.0") then str "127.0.0.1" else if str_eqb s (str "::") then str "::1" else s in
      Ok (if existsb (Z.eqb 58) host then str "[" ++ host ++ str "]" else host)
  | VList _ | VDict _ => raise TypeError "unhashable type"
  | _ => raise TypeError "argument is not iterable"
  end.
Definition probe_tls (admin : pyval) : res bool :=
  cert ← attr_get admin "tls_cert";
  if truthy cert then (k ← attr_get admin "tls_key"; Ok (truthy k)) else Ok false.
Definition target (e : environment) (text : option pystr) : res pystr :=
  let admin := admin_section text in
  ip ← (match env_text e "SER2NET_BIND_IP" with
        | [] => v ← attr_get admin "bind_ip"; Ok (or_else v (vstr "127.0.0.1"))
        | t => Ok (VStr t)
        end);
  port ← (match env_text e "SER2NET_PORT" with
          | [] => v ← attr_get admin "port"; Ok (or_else v (VInt 8080))
          | t => Ok (VStr t)
          end);
  host ← probe_host ip;
  tls ← probe_tls admin;
  p ← int_of_val port;
  Ok ((if (tls : bool) then str "https" else str "http") ++ str "://" ++ host ++ str ":" ++ str_of_Z p ++ str "/healthz").
(** [except (OSError, urllib.error.URLError, ValueError)] *)
Definition caught (x : exn) : bool :=
  match exn_cls x with OSError | ConnectionError | TimeoutError | ValueError => true | _ => false end.
(** [reply]: the first 64 bytes of the answer, or what was raised. *)
Definition check (e : environment) (text : option pystr) (reason : exn → pystr) (reply : pystr → res bytes) : res (bool * pystr) :=
  url ← target e text;
  match reply url with
  | Raise x => if caught x then Ok (false, str "unhealthy: " ++ url ++ str ": " ++ reason x) else Raise x
  | Ok body =>
      let body := strip_by (λ c, in_range 9 13 c || (c =? 32)) body in
      Ok (if str_eqb body (str "ok") then (true, str "ok: " ++ url)
          else (false, str "unhealthy: " ++ url ++ str " answered " ++ repr (VBytes (take 20 body))))
  end.

(** The address the program listens on (the arguments of [uvicorn.Config]), as the health check would write it. *)
Definition server_url (a : AdminUI) : res pystr :=
  host ← probe_host (ui_bind_ip a);
  p ← int_of_val (ui_port a);
  Ok ((if tls_enabled a then str "https" else str "http") ++ str "://" ++ host ++ str ":" ++ str_of_Z p ++ str "/healthz").
(** Once the program has started with an environment, the health check of the same environment asks exactly the
    address it listens on, as long as a port in the environment comes with an address and is a number. *)
Theorem healthcheck_asks_server e c text :
  json_loads text = Some (app_to_dict c) →
  admin_ui c = (_env_bind_override e (admin_ui c)).2 →
  truthy (ui_bind_ip (admin_ui c)) = true → truthy (ui_port (admin_ui c)) = true →
  (env_text e "SER2NET_PORT" ≠ [] → env_text e "SER2NET_BIND_IP" ≠ [] ∧ is_Some (int_of_text (env_text e "SER2NET_PORT"))) →
  target e (Some text) = server_url (admin_ui c).
Proof.
  intros Ht Hc Hip Hport He.
  assert (admin_section (Some text) = admin_to_dict (admin_ui c)) as Hs by (unfold admin_section; change (Some text ≫= json_loads) with (json_loads text); rewrite Ht; reflexivity).
  unfold target, server_url. rewrite Hs. set (a := admin_ui c) in *. clearbody a.
  assert (attr_get (admin_to_dict a) "bind_ip" = Ok (ui_bind_ip a)) as -> by done.
  assert (attr_get (admin_to_dict a) "port" = Ok (ui_port a)) as -> by done.
  assert (probe_tls (admin_to_dict a) = Ok (tls_enabled a)) as ->.
  { unfold probe_tls, tls_enabled. change (attr_get (admin_to_dict a) "tls_cert") with (Ok (ui_tls_cert a)).
    change (attr_get (admin_to_dict a) "tls_key") with (Ok (ui_tls_key a)). cbn [mbind res_bind]. by destruct (truthy (ui_tls_cert a)). }
  unfold _env_bind_override in Hc. cbn [mbind res_bind]. unfold or_else. rewrite Hip, Hport.
  destruct (env_text e "SER2NET_BIND_IP") as [|x xs] eqn:Ei.
  - destruct (env_text e "SER2NET_PORT") as [|y ys] eqn:Ep; [done|]. by destruct He.
  - cbn [snd] in Hc. assert (ui_bind_ip a = VStr (x :: xs)) as -> by by rewrite Hc.
    destruct (env_text e "SER2NET_PORT") as [|y ys] eqn:Ep; [done|]. destruct He as [_ [z Hz]]; [done|].
    rewrite Hz in Hc. assert (ui_port a = VInt z) as -> by by rewrite Hc.
    assert (int_of_val (VStr (y :: ys)) = int_of_val (VInt z)) as Hv by (cbn [int_of_val]; by rewrite Hz).
    cbn [mbind res_bind]. destruct (probe_host _); [|done]. cbn [mbind res_bind]. by rewrite Hv.
Qed.
End startup.

Definition env_of (l : list (string * pystr)) : environment := λ k,
  snd <$> List.find (λ x, String.eqb x.1 k) l.
Definition ui_config : AppConfig := set_admin (with_bind (vstr "0.0.0.0") (VInt 8080) (admin_ui demo_config)) demo_config.
Definition ui_text : pystr := dumps indented 0 (app_to_dict ui_config).
Definition docker_env : environment := env_of [("SER2NET_BIND_IP"%string, str "0.0.0.0"); ("SER2NET_PORT"%string, str " 8080 ")].
Lemma healthcheck_asks_server_witness : target docker_env (Some ui_text) = server_url (admin_ui ui_config).
Proof. apply healthcheck_asks_server; [vm_compute; reflexivity..|]. intros _. split; [discriminate|]. eexists. vm_compute. reflexivity. Defined.
(** With a port but no address in the environment the program ignores the port, and the health check asks it; a port
    that is no number is ignored by the program, and an uncaught error in the health check. *)
Example port_without_address :
  let e := env_of [("SER2NET_PORT"%string, str "9000")] in
  let c := set_admin (_env_bind_override e (admin_ui ui_config)).2 ui_config in
  server_url (admin_ui c) = Ok (str "http://127.0.0.1:8080/healthz")
  ∧ target e (Some (dumps indented 0 (app_to_dict c))) = Ok (str "http://127.0.0.1:9000/healthz").
Proof. vm_compute. split; reflexivity. Qed.
Example port_no_number :
  let e := env_of [("SER2NET_BIND_IP"%string, str "0.0.0.0"); ("SER2NET_PORT"%string, str "http")] in
  let c := set_admin (_env_bind_override e (admin_ui ui_config)).2 ui_config in
  server_url (admin_ui c) = Ok (str "http://127.0.0.1:8080/healthz")
  ∧ target e (Some (dumps indented 0 (app_to_dict c))) = raise ValueError "invalid literal for int()".
Proof. vm_compute. split; reflexivity. Qed.
(** The picker refuses the IPv6 loopback and wildcard addresses: they lie in a reserved block. *)
Example v6_refused :
  (validate_ip (str "::1"), validate_ip (str "::"), validate_ip (str "fe80:0:0:0:0:0:0:10%eth0"), validate_ip (str "192.168.1.9")) =
  (raise ValueError "Address cannot be multicast/reserved.", raise ValueError "Address cannot be multicast/reserved.",
   Ok (str "fe80::10%eth0"), Ok (str "192.168.1.9")).
Proof. vm_compute. reflexivity. Qed.

(** A first start without a terminal and without an address in the environment never listens on the network. *)
Theorem first_start_is_local repr word isfile candidates e t reconfigure done written stamp first secret instance fresh s c s' :
  config_json s = None → tty t = false → env_text e "SER2NET_BIND_IP" = [] → ui_bind_ip (admin_ui first) = vstr "127.0.0.1" →
  prepare_config repr word isfile candidates e t reconfigure done written stamp first secret instance fresh s = Some (Ok c, s') →
  ui_bind_ip (admin_ui c) = vstr "127.0.0.1" ∧ ui_port (admin_ui c) = or_else (ui_port (admin_ui first)) (VInt 8080)
  ∧ ∃ text, config_json s' = Some text ∧ json_dumps indented (app_to_dict c) = Ok text.
Proof.
  intros Hs Ht He Hf Hp. unfold prepare_config, load in Hp. rewrite Hs in Hp. unfold _env_bind_override in Hp. rewrite He in Hp.
  unfold choose_admin_bind in Hp. rewrite Ht in Hp. cbn [orb andb negb mbind option_bind] in Hp.
  set (c1 := set_admin _ first) in Hp. unfold save in Hp. destruct (app_validate _ _ c1) as [[]|]; [|done].
  destruct (json_dumps indented (app_to_dict c1)) as [text|] eqn:Ed; [|done]. unfold write_config in Hp.
  destruct (utf8_encode text); [|done]. destruct written; [|done]. injection Hp as <- <-. unfold c1 in *. cbn [admin_ui set_admin with_bind ui_bind_ip ui_port].
  split; [by rewrite Hf|]. split; [done|]. exists text. split; [done|exact Ed].
Qed.

(** ** Stopping (runtime.py)
    [request_shutdown] runs in any thread (the Windows service's control handler) and any number of times; [_serve] runs in the loop's
    thread. Each is cut where the other can come in between. *)
(** A request: about to set the event; about to copy the list of hooks; about to call the hook; done; the loop was closed. *)
Inductive request := RNew | RFlagged | RCalling | RDone | RRefused.
Inductive serve_pc := Starting | Hooked | Serving | Stopping | Closed.
#[export] Instance serve_pc_eq_dec : EqDecision serve_pc.
Proof. solve_decision. Defined.
Record server := mkServer {
  pc : serve_pc; requested : bool; hooked : bool; callbacks : nat; should_exit : bool; requests : list request; engine_stopped : bool;
}.
Definition server0 : server := mkServer Starting false false 0 false [] false.
Definition upd_request (i : nat) (r : request) (s : server) : server :=
  mkServer (pc s) (requested s) (hooked s) (callbacks s) (should_exit s) (<[i := r]> (requests s)) (engine_stopped s).
(** [SExits]: [server.serve()] returns, because it was asked to or ([failed]) by an error or an interrupt. *)
Inductive serve_step :=
  | SRequest | SRequestGoes (i : nat) | SHook | SCheck | SCallback | SSignal | SExits (failed : bool) | SStopped.
Definition request_goes (i : nat) (s : server) : option server :=
  match requests s !! i with
  | Some RNew => Some (upd_request i RFlagged (mkServer (pc s) true (hooked s) (callbacks s) (should_exit s) (requests s) (engine_stopped s)))
  | Some RFlagged => Some (upd_request i (if hooked s then RCalling else RDone) s)
  | Some RCalling =>
      match pc s with
      | Closed => Some (upd_request i RRefused s)
      | _ => Some (upd_request i RDone (mkServer (pc s) (requested s) (hooked s) (S (callbacks s)) (should_exit s) (requests s) (engine_stopped s)))
      end
  | _ => None
  end.
Definition serve_act (a : serve_step) (s : server) : option server :=
  match a, pc s with
  | SRequest, _ => Some (mkServer (pc s) (requested s) (hooked s) (callbacks s) (should_exit s) (requests s ++ [RNew]) (engine_stopped s))
  | SRequestGoes i, _ => request_goes i s
  | SHook, Starting => Some (mkServer Hooked (requested s) true (callbacks s) (should_exit s) (requests s) (engine_stopped s))
  | SCheck, Hooked =>
      Some (mkServer Serving (requested s) (hooked s) (callbacks s) (should_exit s || requested s) (requests s) (engine_stopped s))
  | SCallback, (Serving | Stopping) =>
      match callbacks s with
      | S n => Some (mkServer (pc s) (requested s) (hooked s) n true (requests s) (engine_stopped s))
      | O => None
      end
  | SSignal, (Serving | Stopping) => Some (mkServer (pc s) (requested s) (hooked s) (callbacks s) true (requests s) (engine_stopped s))
  | SExits failed, Serving =>
      if should_exit s || failed
      then Some (mkServer Stopping (requested s) false (callbacks s) (should_exit s) (requests s) (engine_stopped s)) else None
  | SStopped, Stopping => Some (mkServer Closed (requested s) (hooked s) (callbacks s) (should_exit s) (requests s) true)
  | _, _ => None
  end.
Inductive serve_reach : server → Prop :=
  | serve_init : serve_reach server0
  | serve_next a s s' : serve_reach s → serve_act a s = Some s' → serve_reach s'.

Definition flagged (r : request) : bool := match r with RNew => false | _ => true end.
Definition served (r : request) : bool := match r with RDone | RRefused => true | _ => false end.
(** A request that has got anywhere has set the event; one that is done is not forgotten while the server serves. *)
Record serve_inv (s : server) : Prop := mkServeInv {
  si_flag : ∀ r, r ∈ requests s → flagged r = true → requested s = true;
  si_hook : hooked s = match pc s with Hooked | Serving => true | _ => false end;
  si_kept : pc s = Serving → (∃ r, r ∈ requests s ∧ served r = true) → should_exit s = true ∨ (0 < callbacks s)%nat;
  si_done : engine_stopped s = match pc s with Closed => true | _ => false end;
  si_refused : RRefused ∈ requests s → pc s = Closed;
}.
Lemma insert_elem (i : nat) (r x : request) (l : list request) : x ∈ <[i := r]> l → x = r ∨ x ∈ l.
Proof. intros [j Hj]%list_elem_of_lookup. apply list_lookup_insert_Some in Hj as [(_ & -> & _)|[_ Hj]]; [by left|right; by eapply list_elem_of_lookup_2]. Qed.
(** The requests of [s] with one of them gone on to [r]. *)
Lemma request_inv i r x s s' :
  serve_inv s → requests s !! i = Some x → requests s' = <[i := r]> (requests s) →
  pc s' = pc s → hooked s' = hooked s → engine_stopped s' = engine_stopped s → should_exit s' = should_exit s → (callbacks s <= callbacks s')%nat →
  (requested s = true → requested s' = true) → (flagged r = true → requested s' = true) →
  (pc s = Serving → served r = true → (0 < callbacks s')%nat) → (r = RRefused → pc s = Closed) → serve_inv s'.
Proof.
  intros [Hf Hh Hk Hd Hr] Hi Hreq Hpc Hho Hen Hse Hcb Hrq Hfl Hsv Hrf. constructor; rewrite ?Hpc, ?Hho, ?Hen, ?Hreq, ?Hse; [|done| |done|].
  - intros y [->|Hin]%insert_elem Hy; [by apply Hfl|]. by eapply Hrq, Hf.
  - intros Hp (y & [->|Hin]%insert_elem & Hy); [right; by apply Hsv|]. destruct Hk as [?|?]; [done|by exists y|by left|right; lia].
  - intros [<-|Hin]%insert_elem; [by apply Hrf|by apply Hr].
Qed.
Lemma request_flag i r s : serve_inv s → requests s !! i = Some r → flagged r = true → requested s = true.
Proof. intros Hi Hr Hf. eapply si_flag; [done|by eapply list_elem_of_lookup_2|done]. Qed.
Lemma serve_step_inv a s s' : serve_inv s → serve_act a s = Some s' → serve_inv s'.
Proof.
  intros Hi Ha. destruct a as [|i| | | | |failed|]; cbn [serve_act] in Ha.
  2:{ unfold request_goes in Ha. destruct (requests s !! i) as [[]|] eqn:Ei; try done.
      - injection Ha as <-. by eapply (request_inv i RFlagged).
      - injection Ha as <-. destruct (hooked s) eqn:Eh.
        + eapply (request_inv i RCalling); try done. intros _. by eapply (request_flag i _ s).
        + eapply (request_inv i RDone); try done; [intros _; by eapply (request_flag i _ s)|].
          intros Hp. destruct Hi. by rewrite Hp, Eh in si_hook0.
      - destruct (pc s) eqn:Ep.
        5:{ injection Ha as <-. eapply (request_inv i RRefused); try done; [intros _; by eapply (request_flag i _ s)|]. by rewrite Ep. }
        all: injection Ha as <-; eapply (request_inv i RDone); try done; cbn; try lia; intros _; by eapply (request_flag i _ s). }
  all: destruct Hi as [Hf Hh Hk Hd Hr].
  1:{ injection Ha as <-. constructor; cbn; try done.
      - intros r [Hin|Hin]%elem_of_app Hfl; [by eapply Hf|]. by apply list_elem_of_singleton in Hin as ->.
      - intros Hp (r & [Hin|Hin]%elem_of_app & Hs); [by apply Hk; eauto|]. by apply list_elem_of_singleton in Hin as ->.
      - intros [Hin|Hin]%elem_of_app; [by apply Hr|]. by apply list_elem_of_singleton in Hin. }
  all: destruct (pc s) eqn:Ep; try done.
  - injection Ha as <-. constructor; cbn; try done. intros Hin. by specialize (Hr Hin).
  - injection Ha as <-. constructor; cbn; try done; [|intros Hin; by specialize (Hr Hin)].
    intros _ (r & Hin & Hs). left. rewrite (Hf r Hin); [apply orb_true_r|by destruct r].
  - destruct (callbacks s); [done|]. injection Ha as <-. constructor; cbn; try done. by left.
  - destruct (callbacks s); [done|]. injection Ha as <-. constructor; cbn; try done.
  - injection Ha as <-. constructor; cbn; try done. by left.
  - injection Ha as <-. constructor; cbn; try done.
  - destruct (_ || _); [|done]. injection Ha as <-. constructor; cbn; try done. intros Hin. by specialize (Hr Hin).
  - injection Ha as <-. constructor; cbn; try done.
Qed.
Lemma serve_reach_inv s : serve_reach s → serve_inv s.
Proof.
  induction 1 as [|a s s' _ IH H]; [|by eapply serve_step_inv]. constructor; try done.
  - by intros r ?%elem_of_nil.
  - by intros ?%elem_of_nil.
Qed.

(** *** A stop is never lost *)
(** The program's own steps: everything but new requests, signals and errors. *)
Definition own_step (s s' : server) : Prop :=
  ∃ a, match a with SRequest | SSignal | SExits true => False | _ => True end ∧ serve_act a s = Some s'.
Definition request_rank (r : request) : nat := match r with RNew => 6 | RFlagged => 4 | RCalling => 2 | RDone | RRefused => 0 end.
Definition pc_rank (p : serve_pc) : nat := match p with Starting => 4 | Hooked => 3 | Serving => 2 | Stopping => 1 | Closed => 0 end.
Definition serve_rank (s : server) : nat := (pc_rank (pc s) + callbacks s + sum_list_with request_rank (requests s))%nat.
Lemma rank_request i r x s : requests s !! i = Some x →
  (sum_list_with request_rank (<[i := r]> (requests s)) + request_rank x = sum_list_with request_rank (requests s) + request_rank r)%nat.
Proof. apply sum_insert. Qed.
Lemma own_step_rank s s' : own_step s s' → (serve_rank s' < serve_rank s)%nat.
Proof.
  intros (a & Ha & H). unfold serve_rank. destruct a as [|i| | | | |[]|]; try done; cbn [serve_act] in H.
  - unfold request_goes in H. destruct (requests s !! i) as [r|] eqn:Ei; [|done]. destruct r; try done.
    + injection H as <-. cbn. pose proof (rank_request i RFlagged _ s Ei). cbn in *. lia.
    + injection H as <-. cbn. destruct (hooked s); [pose proof (rank_request i RCalling _ s Ei)|pose proof (rank_request i RDone _ s Ei)]; cbn in *; lia.
    + pose proof (rank_request i RDone _ s Ei) as H1. pose proof (rank_request i RRefused _ s Ei) as H2.
      destruct (pc s) eqn:Ep; injection H as <-; cbn in *; rewrite ?Ep; cbn in *; lia.
  - destruct (pc s); try done. injection H as <-. cbn. lia.
  - destruct (pc s); try done. injection H as <-. cbn. lia.
  - destruct (pc s) eqn:Ep; try done; destruct (callbacks s) eqn:Ec; try done; injection H as <-; cbn; rewrite ?Ep; cbn; lia.
  - destruct (pc s); try done. destruct (_ || _); [|done]. injection H as <-. cbn. lia.
  - destruct (pc s); try done. injection H as <-. cbn. lia.
Qed.
(** Until the program has stopped, a program that was asked to stop can go on. *)
Lemma stop_goes_on s : serve_inv s → requests s ≠ [] → pc s ≠ Closed → ∃ s', own_step s s'.
Proof.
  intros Hi Hreq Hp. destruct (pc s) eqn:Ep; try done.
  - eexists. exists SHook. split; [done|]. cbn. by rewrite Ep.
  - eexists. exists SCheck. split; [done|]. cbn. by rewrite Ep.
  - destruct (should_exit s) eqn:Es.
    { eexists. exists (SExits false). split; [done|]. cbn. by rewrite Ep, Es. }
    destruct (callbacks s) as [|n] eqn:Ec.
    2:{ eexists. exists SCallback. split; [done|]. cbn. by rewrite Ep, Ec. }
    destruct (requests s) as [|r l] eqn:Er; [done|]. destruct r.
    + eexists. exists (SRequestGoes 0). split; [done|]. cbn. unfold request_goes. by rewrite Er.
    + eexists. exists (SRequestGoes 0). split; [done|]. cbn. unfold request_goes. by rewrite Er.
    + eexists. exists (SRequestGoes 0). split; [done|]. cbn. unfold request_goes. by rewrite Er, Ep.
    + destruct (si_kept _ Hi Ep) as [?|?]; [exists RDone; rewrite Er; split; [by left|done]|congruence|lia].
    + destruct (si_kept _ Hi Ep) as [?|?]; [exists RRefused; rewrite Er; split; [by left|done]|congruence|lia].
  - eexists. exists SStopped. split; [done|]. cbn. by rewrite Ep.
Qed.
Lemma own_step_requests s s' : own_step s s' → requests s ≠ [] → requests s' ≠ [].
Proof.
  intros (a & Ha & H) Hr. assert (length (requests s') = length (requests s)) as Hl.
  { destruct a as [|i| | | | |[]|]; try done; cbn [serve_act] in H.
    - unfold request_goes in H. destruct (requests s !! i) as [r|]; [|done].
      destruct r; try done; [..|destruct (pc s)]; injection H as <-; cbn; apply length_insert.
    - destruct (pc s); try done. by injection H as <-.
    - destruct (pc s); try done. by injection H as <-.
    - destruct (pc s); try done; destruct (callbacks s); try done; by injection H as <-.
    - destruct (pc s); try done. destruct (_ || _); [|done]. by injection H as <-.
    - destruct (pc s); try done. by injection H as <-. }
  intros E. rewrite E in Hl. by destruct (requests s).
Qed.
(** C36: a request to stop is never lost: from any state of the program in which stopping was asked for, at any moment (before the
    loop runs, while the hook is being registered, later, from several threads at once), every order of the steps ends with the mappings
    stopped and the loop closed, and until then some step can be taken. *)
Theorem shutdown_not_lost s :
  serve_reach s → requests s ≠ [] → inevitably own_step (λ s, pc s = Closed ∧ engine_stopped s = true) s.
Proof.
  intros Hr%serve_reach_inv. remember (serve_rank s) as n eqn:En. revert s Hr En.
  induction (lt_wf n) as [n _ IH]. intros s Hi -> Hreq.
  destruct (decide (pc s = Closed)) as [Hp|Hp]; [apply ev_now; split; [done|]; destruct Hi; by rewrite si_done0, Hp|].
  apply ev_next; [by apply stop_goes_on|]. intros s' Hs. eapply IH; [by apply own_step_rank| |done|by eapply own_step_requests].
  destruct Hs as (a & _ & Ha). by eapply serve_step_inv.
Qed.
Definition serve_run (l : list serve_step) : option server := foldl (λ o a, o ≫= serve_act a) (Some server0) l.
(** A request that comes between the registration of the hook and the check of the event. *)
Definition early_stop : list serve_step := [SHook; SRequest; SRequestGoes 0; SRequestGoes 0].
Definition stopping_server : server := default server0 (serve_run early_stop).
Lemma shutdown_not_lost_witness :
  requests stopping_server ≠ [] ∧ inevitably own_step (λ s, pc s = Closed ∧ engine_stopped s = true) stopping_server.
Proof.
  split; [vm_compute; discriminate|]. apply shutdown_not_lost; [|vm_compute; discriminate].
  apply (serve_next (SRequestGoes 0) (default server0 (serve_run [SHook; SRequest; SRequestGoes 0]))); [|vm_compute; reflexivity].
  apply (serve_next (SRequestGoes 0) (default server0 (serve_run [SHook; SRequest]))); [|vm_compute; reflexivity].
  apply (serve_next SRequest (default server0 (serve_run [SHook]))); [|vm_compute; reflexivity].
  apply (serve_next SHook server0); [apply serve_init|vm_compute; reflexivity].
Defined.
(** A request whose thread has copied the list of hooks just before the loop is closed fails with RuntimeError. *)
Example stop_after_closing :
  requests <$> serve_run [SHook; SCheck; SRequest; SRequestGoes 0; SRequestGoes 0; SSignal; SExits false; SStopped; SRequestGoes 0]
  = Some [RRefused].
Proof. vm_compute. reflexivity. Qed.

(** ** Before the start *)
(** *** CA certificates of a standalone executable (standalone.py) *)
Definition CA_BUNDLES : list pystr :=
  [str "/etc/ssl/certs/ca-certificates.crt"; str "/etc/pki/tls/certs/ca-bundle.crt"; str "/etc/ssl/ca-bundle.pem";
   str "/etc/pki/tls/cacert.pem"; str "/etc/pki/ca-trust/extracted/pem/tls-ca-bundle.pem"; str "/etc/ssl/cert.pem"].
Definition env_set (k : string) (v : pystr) (e : environment) : environment := λ x, if String.eqb x k then Some v else e x.
Definition given (e : environment) (k : string) : bool := match e k with Some (_ :: _) => true | _ => false end.
Definition use_system_ca_bundle (exists_ : pystr → bool) (e : environment) : option pystr * environment :=
  if given e "SSL_CERT_FILE" || given e "SSL_CERT_DIR" then (None, e)
  else match find exists_ CA_BUNDLES with
       | Some path => (Some path, env_set "SSL_CERT_FILE" path e)
       | None => (None, e)
       end.
Inductive ca_note := FromEnvironment | SystemBundle (path : pystr) | NoCertificates.
Definition prepare (frozen : bool) (platform : pystr) (exists_ : pystr → bool) (e : environment) : list ca_note * environment :=
  if negb (frozen && is_prefix (str "linux") platform) then ([], e)
  else if given e "SSL_CERT_FILE" || given e "SSL_CERT_DIR" then ([FromEnvironment], e)
  else match use_system_ca_bundle exists_ e with
       | (Some path, e) => ([SystemBundle path], e)
       | (None, e) => ([NoCertificates], e)
       end.
(** What the administrator set is never overruled; what is chosen exists and is the first of its kind. *)
Lemma prepare_keeps frozen platform exists_ e notes e' :
  prepare frozen platform exists_ e = (notes, e') →
  (given e "SSL_CERT_FILE" = true ∨ given e "SSL_CERT_DIR" = true → e' = e)
  ∧ (∀ path, notes = [SystemBundle path] → exists_ path = true ∧ path ∈ CA_BUNDLES ∧ e' "SSL_CERT_FILE"%string = Some path)
  ∧ (∀ k, k ≠ "SSL_CERT_FILE"%string → e' k = e k).
Proof.
  unfold prepare, use_system_ca_bundle. destruct (negb _); [intros [= <- <-]; by split_and!|].
  destruct (given e "SSL_CERT_FILE" || given e "SSL_CERT_DIR") eqn:Eg; [intros [= <- <-]; by split_and!|].
  apply orb_false_iff in Eg as [E1 E2]. rewrite E1, E2. destruct (find exists_ CA_BUNDLES) as [p|] eqn:Ef; intros [= <- <-]; split_and!; try done.
  - by intros [].
  - intros path [= <-]. apply find_some in Ef as [Hin Hex]. split_and!; [done|by apply list_elem_of_In|done].
  - intros k Hk. unfold env_set. by destruct (String.eqb_spec k "SSL_CERT_FILE").
Qed.

(** *** Packages (bootstrap.py) *)
Definition REQUIRED (before_3_11 : bool) : list (string * string) :=
  [("serial", "pyserial"); ("serial_asyncio_fast", "pyserial-asyncio-fast"); ("starlette", "starlette"); ("uvicorn", "uvicorn");
   ("websockets", "websockets"); ("multipart", "python-multipart"); ("jinja2", "jinja2"); ("psutil", "psutil")]%string
  ++ if before_3_11 then [("exceptiongroup", "exceptiongroup"); ("taskgroup", "taskgroup")]%string else [].
(** The options of one run of pip; [pip] is what it returns and [finds] which modules can be imported after the runs so far. *)
Record pip_run := mkPip { find_links : bool; no_index : bool }.
Section bootstrap.
Context (before_3_11 wheels : bool) (pip : list pip_run → pip_run → Z) (finds : list pip_run → string → bool).
Definition missing_modules (runs : list pip_run) : list (string * string) :=
  List.filter (λ m, negb (finds runs m.1)) (REQUIRED before_3_11).
(** The exit status when the program ends, and the runs of pip. *)
Definition install_packages (online : bool) (runs : list pip_run) : option Z * list pip_run :=
  let r := mkPip wheels (negb online) in
  let status := pip runs r in
  (if status =? 0 then None else Some status, runs ++ [r]).
Definition ensure (online : bool) : option Z * list pip_run :=
  match missing_modules [] with
  | [] => (None, [])
  | _ => match install_packages online [] with
         | (Some status, runs) => (Some status, runs)
         | (None, runs) => match missing_modules runs with [] => (None, runs) | _ => (Some 1, runs) end
         end
  end.
(** When the program goes on every package can be imported; the network is only used when it was allowed. *)
Lemma ensure_importable online status runs :
  ensure online = (status, runs) →
  (status = None → ∀ m, m ∈ REQUIRED before_3_11 → finds runs m.1 = true)
  ∧ (online = false → Forall (λ r, no_index r = true) runs) ∧ (length runs <= 1)%nat.
Proof.
  assert (∀ runs, missing_modules runs = [] → ∀ m, m ∈ REQUIRED before_3_11 → finds runs m.1 = true) as Hm.
  { intros l Hl m Hin. destruct (finds l m.1) eqn:E; [done|].
    assert (m ∈ missing_modules l) as Hx by (apply list_elem_of_In, filter_In; split; [by apply list_elem_of_In|by rewrite E]).
    rewrite Hl in Hx. by apply elem_of_nil in Hx. }
  unfold ensure. destruct (missing_modules []) eqn:E0; [intros [= <- <-]; split_and!; [intros _; by apply Hm|constructor|cbn; lia]|].
  unfold install_packages. destruct (_ =? 0); [|intros [= <- <-]; split_and!; [done|intros ->; by repeat constructor|done]].
  destruct (missing_modules ([] ++ [mkPip wheels (negb online)])) eqn:E1; intros H; injection H as <- <-;
    (split_and!; [try done|intros ->; by repeat constructor|done]). intros _. by apply Hm.
Qed.
End bootstrap.

(** *** The certificate of the web UI (selfsigned.py) *)
(** Which pair of certificate and key each file holds ([0]: none); [fails] says which step goes wrong. *)
Record cert_files := mkCerts { key_file : Z; cert_file : Z; key_aside : Z; cert_aside : Z }.
Inductive cert_step := WriteKeyAside | WriteCertAside | ReplaceKey | ReplaceCert.
Definition cert_act (pair : Z) (s : cert_step) (f : cert_files) : cert_files :=
  match s with
  | WriteKeyAside => mkCerts (key_file f) (cert_file f) pair (cert_aside f)
  | WriteCertAside => mkCerts (key_file f) (cert_file f) (key_aside f) pair
  | ReplaceKey => mkCerts (key_aside f) (cert_file f) 0 (cert_aside f)
  | ReplaceCert => mkCerts (key_file f) (cert_aside f) (key_aside f) 0
  end.
Inductive cert_error := CannotWrite | NoTool | ToolFailed.
Fixpoint cert_run (fails : cert_step → bool) (pair : Z) (l : list cert_step) (f : cert_files) : (cert_error + unit) * cert_files :=
  match l with
  | [] => (inr tt, f)
  | s :: l => if fails s then (inl CannotWrite, f) else cert_run fails pair l (cert_act pair s f)
  end.
Inductive openssl := NotFound | Fails | Makes.
Definition generate (cryptography : bool) (tool : openssl) (fails : cert_step → bool) (pair : Z) (f : cert_files)
  : (cert_error + string) * cert_files :=
  if cryptography then
    match cert_run fails pair [WriteKeyAside; WriteCertAside; ReplaceKey; ReplaceCert] f with
    | (inr _, f) => (inr "cryptography"%string, f)
    | (inl e, f) => (inl e, f)
    end
  else match tool with
       | Makes => (inr "openssl"%string, mkCerts pair pair (key_aside f) (cert_aside f))
       | Fails => (inl ToolFailed, f)
       | NotFound => (inl NoTool, f)
       end.
(** A failure of any step but the last swap leaves the pair in use as it was. *)
Lemma generate_pair fails pair f r f' :
  generate true Fails fails pair f = (r, f') → fails ReplaceCert = false →
  (key_file f', cert_file f') = (pair, pair) ∧ r = inr "cryptography"%string
  ∨ (key_file f', cert_file f') = (key_file f, cert_file f) ∧ r = inl CannotWrite.
Proof.
  unfold generate. cbn [cert_run]. intros H Hl. rewrite Hl in H. destruct (fails WriteKeyAside), (fails WriteCertAside), (fails ReplaceKey);
    injection H as <- <-; cbn; auto.
Qed.
(** When the second swap fails the new key stands next to the old certificate. *)
Example key_without_cert :
  let '(r, f) := generate true Fails (λ s, match s with ReplaceCert => true | _ => false end) 2 (mkCerts 1 1 0 0) in
  (r, key_file f, cert_file f) = (inl CannotWrite, 2, 1).
Proof. reflexivity. Qed.

(** ** The command line (ser2net.py) *)
Record arguments := mkArguments {
  data_dir : pystr; config_arg : option pystr; reconfigure : bool; online : bool; no_bootstrap : bool; about : bool; licenses : bool;
  install_service : bool; uninstall_service : bool; service_name : pystr; service : bool; healthcheck : bool;
}.
(** [os.path.join(a, b)] on POSIX for a relative [b]. *)
Definition path_join (a b : pystr) : pystr :=
  match last a with None => b | Some c => if c =? 47 then a ++ b else a ++ [47] ++ b end.
Definition config_path (a : arguments) : pystr :=
  match config_arg a with Some (_ :: _ as p) => p | _ => path_join (data_dir a) (str "config.json") end.
Inductive launch :=
  | PrintLicenses | UninstallService (name : pystr) | HealthCheck (path : pystr) | PrintAbout
  | InstallService (name data_dir : pystr) (config : option pystr) (path : pystr) (reconfigure : bool)
  | RunService (name path : pystr) | RunServer (path : pystr) (reconfigure : bool).
(** What is run, and whether the packages are ensured before ([Some online]); [abspath] is the system's. *)
Definition main (frozen : bool) (abspath : pystr → pystr) (a : arguments) : option bool * launch :=
  if licenses a then (None, PrintLicenses)
  else if uninstall_service a then (None, UninstallService (service_name a))
  else if healthcheck a then (None, HealthCheck (config_path a))
  else
    let bootstrap := if frozen || no_bootstrap a then None else Some (online a) in
    (bootstrap,
     if about a then PrintAbout
     else if install_service a then
       InstallService (service_name a) (abspath (data_dir a)) (match config_arg a with Some (_ :: _ as p) => Some (abspath p) | _ => None end)
         (config_path a) (reconfigure a)
     else if service a then RunService (service_name a) (config_path a)
     else RunServer (config_path a) (reconfigure a)).
