(* ===== verification/Service.v ===== *)
(** * The Windows service (app/winservice.py)

    The command line a service is registered with, installing and removing it through the Windows API, and the
    life of the process under the Service Control Manager (SCM). The API's functions are calls whose replies come from
    outside. *)
From S2P Require Import Prelude PyStr.
#[local] Open Scope Z_scope.

(** ** The command line *)
(** [_quote]; [slashes] backslashes are pending. *)
Fixpoint quote_loop (slashes : nat) (s : pystr) : pystr :=
  match s with
  | [] => repeat 92 (2 * slashes) ++ [34]
  | c :: s =>
      if c =? 92 then quote_loop (S slashes) s
      else if c =? 34 then repeat 92 (2 * slashes + 1) ++ [34] ++ quote_loop 0 s
      else repeat 92 slashes ++ [c] ++ quote_loop 0 s
  end.
Definition needs_quotes (arg : pystr) : bool := existsb (λ c, is_space c || (c =? 34)) arg.
Definition _quote (arg : pystr) : pystr :=
  match arg with
  | [] => 34 :: quote_loop 0 []
  | _ => if needs_quotes arg then 34 :: quote_loop 0 arg else arg
  end.
(** [re.match("^[A-Za-z0-9_.-]{1,64}$", name)]: [$] also matches before a newline at the end. *)
Definition name_char (c : Z) : bool :=
  in_range 65 90 c || in_range 97 122 c || in_range 48 57 c || existsb (Z.eqb c) (str "_.-").
Definition name_ok (name : pystr) : bool :=
  let body := if ends_with name [10] then removelast name else name in
  forallb name_char body && (1 <=? zlen body) && (zlen body <=? 64).
Inductive service_error :=
  | BadName | NotWindows | AccessDenied (what : pystr) | CallFailed (what : pystr) (err : Z)
  | AlreadyExists (name : pystr) | NoSuchService (name : pystr) | NotRunning (state : Z) | NotFromScm
  | WaitFuel  (* of the model only *).
Definition check_name (name : pystr) : service_error + pystr := if name_ok name then inr name else inl BadName.
(** The arguments, and the line made of them; [script] is [None] for a standalone executable. *)
Definition service_args (executable : pystr) (script : option pystr) (name data_dir : pystr) (config : option pystr) : list pystr :=
  [executable] ++ (match script with Some s => [s] | None => [] end)
  ++ [str "--service"; str "--service-name"; name; str "--data-dir"; data_dir]
  ++ (match config with Some (_ :: _ as c) => [str "--config"; c] | _ => [] end).
Definition service_command (executable : pystr) (script : option pystr) (name data_dir : pystr) (config : option pystr)
  : service_error + pystr :=
  match check_name name with
  | inl e => inl e
  | inr name => inr (join [32] (_quote <$> service_args executable script name data_dir config))
  end.
Definition DEFAULT_NAME : pystr := str "ser2net".
Definition display_name (name : pystr) : pystr :=
  if str_eqb name DEFAULT_NAME then str "ser2net" else str "ser2net (" ++ name ++ str ")".

(** *** The documented rules of CommandLineToArgvW
    Blanks separate arguments outside quotes; a quote begins or ends a quoted part; an even number of backslashes
    before a quote stands for half of them, an odd number for half of them and a quote; other
    backslashes stand for themselves. The state is [None] between arguments, else whether a quoted part is open and
    the argument so far. *)
Definition blank (c : Z) : bool := (c =? 32) || (c =? 9).
Definition not_special (s : pystr) : Prop := match s with c :: _ => c ≠ 92 ∧ c ≠ 34 | [] => True end.
Inductive reads : option (bool * pystr) → pystr → list pystr → Prop :=
  | reads_end : reads None [] []
  | reads_last q cur : reads (Some (q, cur)) [] [cur]
  | reads_gap c s l : blank c = true → reads None s l → reads None (c :: s) l
  | reads_begin c s l : blank c = false → reads (Some (false, [])) (c :: s) l → reads None (c :: s) l
  | reads_separator c cur s l : blank c = true → reads None s l → reads (Some (false, cur)) (c :: s) (cur :: l)
  | reads_char q cur c s l : c ≠ 92 → c ≠ 34 → (q = true ∨ blank c = false) →
      reads (Some (q, cur ++ [c])) s l → reads (Some (q, cur)) (c :: s) l
  | reads_even q cur n s l : reads (Some (negb q, cur ++ repeat 92 n)) s l →
      reads (Some (q, cur)) (repeat 92 (2 * n) ++ 34 :: s) l
  | reads_odd q cur n s l : reads (Some (q, cur ++ repeat 92 n ++ [34])) s l →
      reads (Some (q, cur)) (repeat 92 (2 * n + 1) ++ 34 :: s) l
  | reads_slashes q cur n s l : not_special s → reads (Some (q, cur ++ repeat 92 (S n))) s l →
      reads (Some (q, cur)) (repeat 92 (S n) ++ s) l.
(** The program's name is read more simply: it ends at its quote, or at a blank. *)
Definition starts_blank (s : pystr) : Prop := match s with c :: _ => blank c = true | [] => True end.
Inductive reads_line : pystr → list pystr → Prop :=
  | line_quoted p s l : 34 ∉ p → starts_blank s → reads None s l → reads_line (34 :: p ++ 34 :: s) (p :: l)
  | line_plain p s l : p ≠ [] → (∀ c, c ∈ p → blank c = false ∧ c ≠ 34) → starts_blank s → reads None s l → reads_line (p ++ s) (p :: l).

Lemma repeat_S_r {A} (x : A) n : repeat x (S n) = repeat x n ++ [x].
Proof. induction n as [|n IH]; [done|]. cbn in *. by rewrite <- IH. Qed.
(** A quoted argument is read as it was, whatever backslashes are pending. *)
Lemma quote_loop_reads arg : ∀ k cur rest l,
  reads (Some (false, cur ++ repeat 92 k ++ arg)) rest l → reads (Some (true, cur)) (quote_loop k arg ++ rest) l.
Proof.
  induction arg as [|c arg IH]; intros k cur rest l H; cbn [quote_loop].
  - rewrite <- app_assoc. cbn. apply reads_even. by rewrite app_nil_r in H.
  - destruct (Z.eqb_spec c 92) as [->|H92].
    { apply IH. replace (repeat 92 (S k) ++ arg) with (repeat 92 k ++ 92 :: arg); [done|]. by rewrite repeat_S_r, <- app_assoc. }
    destruct (Z.eqb_spec c 34) as [->|H34].
    { rewrite <- !app_assoc. apply reads_odd. apply (IH 0%nat). cbn. rewrite <- !app_assoc in *. done. }
    rewrite <- !app_assoc. cbn.
    assert (∀ cur, reads (Some (true, cur ++ [c])) (quote_loop 0 arg ++ rest) l → reads (Some (true, cur)) (c :: quote_loop 0 arg ++ rest) l) as Hc.
    { intros cur0 H0. by apply reads_char; [..|left|]. }
    assert (reads (Some (true, (cur ++ repeat 92 k) ++ [c])) (quote_loop 0 arg ++ rest) l) as H1.
    { apply (IH 0%nat). cbn. by rewrite <- !app_assoc. }
    destruct k as [|k]; [apply Hc; by rewrite app_nil_r in H1|].
    apply reads_slashes; [done|by apply Hc].
Qed.
(** A plain argument is read as it was. *)
Definition plain (c : Z) : Prop := blank c = false ∧ c ≠ 34.
Lemma plain_reads arg : ∀ cur k rest l,
  Forall plain arg → starts_blank rest → reads (Some (false, cur ++ repeat 92 k ++ arg)) rest l →
  reads (Some (false, cur)) (repeat 92 k ++ arg ++ rest) l.
Proof.
  induction arg as [|c arg IH]; intros cur k rest l Hp Hb H.
  - cbn. rewrite app_nil_r in H. destruct k as [|k]; [by rewrite app_nil_r in H|]. apply reads_slashes; [|done].
    destruct rest as [|c rest]; [done|]. cbn in Hb. split; intros ->; discriminate.
  - apply Forall_cons in Hp as [[Hc1 Hc2] Hp]. cbn. destruct (decide (c = 92)) as [->|Hc].
    { replace (repeat 92 k ++ 92 :: arg ++ rest) with (repeat 92 (S k) ++ arg ++ rest) by by rewrite repeat_S_r, <- app_assoc.
      apply IH; [done..|]. by rewrite repeat_S_r, <- !app_assoc. }
    assert (∀ cur, reads (Some (false, cur ++ [c])) (arg ++ rest) l → reads (Some (false, cur)) (c :: arg ++ rest) l) as Hr.
    { intros cur0 H0. by apply reads_char; [..|right|]. }
    assert (reads (Some (false, (cur ++ repeat 92 k) ++ [c])) (arg ++ rest) l) as H1.
    { apply (IH _ 0%nat); [done..|]. cbn. by rewrite <- !app_assoc. }
    destruct k as [|k]; [apply Hr; by rewrite app_nil_r in H1|]. apply reads_slashes; [by split|by apply Hr].
Qed.
Lemma needs_quotes_plain arg : needs_quotes arg = false → Forall plain arg.
Proof.
  unfold needs_quotes. induction arg as [|c arg IH]; intros H; [constructor|]. cbn in H.
  apply orb_false_iff in H as [[Hs Hq]%orb_false_iff H]. constructor; [|by apply IH]. split; [|by apply Z.eqb_neq].
  unfold blank. destruct (Z.eqb_spec c 32) as [->|]; [done|]. by destruct (Z.eqb_spec c 9) as [->|].
Qed.
Lemma quoted_reads arg rest l :
  reads (Some (false, arg)) rest l → reads (Some (false, [])) (34 :: quote_loop 0 arg ++ rest) l.
Proof. intros H. apply (reads_even false [] 0). cbn. by apply (quote_loop_reads arg 0 []). Qed.
Lemma _quote_reads arg rest l :
  starts_blank rest → reads (Some (false, arg)) rest l → reads None (_quote arg ++ rest) l.
Proof.
  intros Hb H. unfold _quote. destruct arg as [|c arg]; [by apply reads_begin, quoted_reads|].
  destruct (needs_quotes _) eqn:E; [by apply reads_begin, quoted_reads|]. apply needs_quotes_plain in E.
  apply reads_begin; [by apply Forall_cons in E as [[? ?] _]|]. by apply (plain_reads (c :: arg) [] 0).
Qed.
Definition spaced (args : list pystr) : pystr := concat ((λ a, 32 :: _quote a) <$> args).
Lemma spaced_blank args : starts_blank (spaced args).
Proof. by destruct args. Qed.
Lemma spaced_reads args : reads None (spaced args) args.
Proof.
  assert (∀ arg, reads None (spaced args) args → reads (Some (false, arg)) (spaced args) (arg :: args)) as Hsep.
  { intros arg H. destruct args as [|a args]; [constructor|]. apply reads_separator; [done|]. inversion H; subst; [done|by cbn in *]. }
  clear Hsep. induction args as [|a args IH]; [constructor|]. apply (reads_gap 32); [done|].
  apply _quote_reads; [apply spaced_blank|]. destruct args as [|b args]; [constructor|].
  apply (reads_separator 32); [done|]. inversion IH; subst; [done|by cbn in *].
Qed.
Lemma join_spaced x args : join [32] (_quote <$> x :: args) = _quote x ++ spaced args.
Proof.
  revert x. induction args as [|a args IH]; intros x; [cbn; by rewrite app_nil_r|].
  change (_quote x ++ [32] ++ join [32] (_quote <$> a :: args) = _quote x ++ spaced (a :: args)). by rewrite IH.
Qed.
(** A path without quotes that does not end in a backslash is only put between quotes. *)
Lemma quote_loop_path p : ∀ k, 34 ∉ p → last p ≠ Some 92 → (p = [] → k = 0%nat) → quote_loop k p = repeat 92 k ++ p ++ [34].
Proof.
  induction p as [|c p IH]; intros k Hq Hl Hk; [by rewrite (Hk eq_refl)|]. apply not_elem_of_cons in Hq as [Hc Hq]. cbn [quote_loop].
  assert (last p ≠ Some 92) as Hl' by (by destruct p).
  destruct (Z.eqb_spec c 92) as [->|_].
  { rewrite IH; [|done..|by intros ->; destruct Hl]. by rewrite repeat_S_r, <- app_assoc. }
  destruct (Z.eqb_spec c 34) as [->|_]; [done|]. by rewrite (IH 0%nat) by done.
Qed.
Lemma command_reads exe args :
  exe ≠ [] → 34 ∉ exe → last exe ≠ Some 92 → reads_line (join [32] (_quote <$> exe :: args)) (exe :: args).
Proof.
  intros He Hq Hl. rewrite join_spaced. unfold _quote at 1. destruct exe as [|c exe]; [done|].
  destruct (needs_quotes _) eqn:E.
  - rewrite quote_loop_path by done. cbn [repeat]. rewrite app_nil_l. cbn [app]. rewrite <- app_assoc.
    apply (line_quoted (c :: exe)); [done|apply spaced_blank|apply spaced_reads].
  - apply line_plain; [done| |apply spaced_blank|apply spaced_reads]. apply needs_quotes_plain in E. rewrite Forall_forall in E. exact E.
Qed.
(** the service starts with exactly the arguments it was installed with: however the data directory and the other paths are
    written (blanks, quotes, backslashes anywhere, nothing at all), the system reads the registered command line as
    the program, the script of a source checkout, [--service] and the options; none is split or joined, and no other program is meant. *)
Theorem command_line_kept (CommandLineToArgvW : pystr → list pystr) exe script name data_dir config line :
  (∀ line args, reads_line line args → CommandLineToArgvW line = args) →
  exe ≠ [] → 34 ∉ exe → last exe ≠ Some 92 →
  service_command exe script name data_dir config = inr line →
  CommandLineToArgvW line = service_args exe script name data_dir config ∧ name_ok name = true.
Proof.
  intros Hargv He Hq Hl H. unfold service_command, check_name in H. destruct (name_ok name); [|done].
  injection H as <-. split; [|done]. apply Hargv. by apply command_reads.
Qed.
(** A function that follows the rules. *)
Fixpoint scan (st : option (bool * pystr)) (k : nat) (s : pystr) : list pystr :=
  match s with
  | [] => match st with None => [] | Some (q, cur) => [cur ++ repeat 92 k] end
  | c :: s =>
      let '(q, cur) := default (false, []) st in
      if c =? 92 then scan (Some (q, cur)) (S k) s
      else if c =? 34 then
        if Nat.even k then scan (Some (negb q, cur ++ repeat 92 (Nat.div2 k))) 0 s
        else scan (Some (q, cur ++ repeat 92 (Nat.div2 k) ++ [34])) 0 s
      else if blank c && negb q then
        match st with None => scan None 0 s | Some _ => (cur ++ repeat 92 k) :: scan None 0 s end
      else scan (Some (q, cur ++ repeat 92 k ++ [c])) 0 s
  end.
Fixpoint until_quote (s : pystr) : pystr * pystr :=
  match s with
  | [] => ([], [])
  | c :: s => if c =? 34 then ([], s) else let '(p, r) := until_quote s in (c :: p, r)
  end.
Fixpoint until_blank (s : pystr) : pystr * pystr :=
  match s with
  | [] => ([], [])
  | c :: s' => if blank c then ([], s) else let '(p, r) := until_blank s' in (c :: p, r)
  end.
Definition argv (line : pystr) : list pystr :=
  let '(p, rest) := match line with 34 :: s => until_quote s | _ => until_blank line end in p :: scan None 0 rest.
Lemma scan_slashes n q cur s : ∀ k, scan (Some (q, cur)) k (repeat 92 n ++ s) = scan (Some (q, cur)) (n + k) s.
Proof. induction n as [|n IH]; intros k; [done|]. cbn [repeat app]. cbn. rewrite IH. f_equal. lia. Qed.
Lemma scan_flush q cur k s : not_special s → scan (Some (q, cur)) k s = scan (Some (q, cur ++ repeat 92 k)) 0 s.
Proof.
  intros Hs. destruct s as [|c s]; [cbn; by rewrite app_nil_r|]. destruct Hs as [H1 H2]. cbn.
  rewrite (proj2 (Z.eqb_neq c 92)), (proj2 (Z.eqb_neq c 34)) by done. destruct (blank c && negb q); by rewrite ?app_nil_r, <- ?app_assoc.
Qed.
Lemma scan_quote q cur k s :
  scan (Some (q, cur)) k (34 :: s) =
  if Nat.even k then scan (Some (negb q, cur ++ repeat 92 (Nat.div2 k))) 0 s else scan (Some (q, cur ++ repeat 92 (Nat.div2 k) ++ [34])) 0 s.
Proof. done. Qed.
Lemma scan_reads st s l : reads st s l → scan st 0 s = l.
Proof.
  induction 1 as [|q cur|c s l Hb H IH|c s l Hb H IH|c cur s l Hb H IH|q cur c s l H1 H2 Hq H IH|q cur n s l H IH|q cur n s l H IH|q cur n s l Hs H IH].
  - done.
  - cbn. by rewrite app_nil_r.
  - cbn. unfold blank in *. destruct (Z.eqb_spec c 92) as [->|]; [done|]. destruct (Z.eqb_spec c 34) as [->|]; [done|]. by rewrite Hb.
  - rewrite <- IH. cbn. by rewrite Hb.
  - cbn. unfold blank in *. destruct (Z.eqb_spec c 92) as [->|]; [done|]. destruct (Z.eqb_spec c 34) as [->|]; [done|]. rewrite Hb. cbn. by rewrite app_nil_r, IH.
  - cbn. rewrite (proj2 (Z.eqb_neq c 92)), (proj2 (Z.eqb_neq c 34)) by done. destruct Hq as [->| ->]; [rewrite andb_false_r|]; done.
  - rewrite scan_slashes, Nat.add_0_r, scan_quote, Nat.even_mul. cbn [Nat.even orb]. by rewrite Nat.div2_double.
  - rewrite scan_slashes, Nat.add_0_r, scan_quote, Nat.add_1_r, Nat.even_succ, Nat.odd_mul. cbn [Nat.odd Nat.even negb andb]. by rewrite Nat.div2_succ_double.
  - rewrite scan_slashes, Nat.add_0_r, scan_flush by done. done.
Qed.
Lemma argv_reads line l : reads_line line l → argv line = l.
Proof.
  intros [p s l' Hp Hb H|p s l' Hp Hc Hb H]; unfold argv.
  - assert (until_quote (p ++ 34 :: s) = (p, s)) as ->.
    { clear -Hp. induction p as [|c p IH]; [done|]. apply not_elem_of_cons in Hp as [Hc Hp]. cbn.
      destruct (Z.eqb_spec c 34) as [->|]; [done|]. by rewrite IH. }
    by rewrite (scan_reads _ _ _ H).
  - assert (until_blank (p ++ s) = (p, s)) as Hu.
    { clear -Hc Hb. induction p as [|c p IH]; [destruct s as [|c s]; [done|cbn in *; by rewrite Hb]|].
      cbn. destruct (Hc c) as [-> _]; [by left|]. rewrite IH; [done|]. intros d Hd. apply Hc. by right. }
    destruct p as [|c p]; [done|]. destruct (Hc c) as [_ Hq]; [by left|]. cbn [app] in *.
    assert ((match c :: p ++ s with 34 :: s0 => until_quote s0 | _ => until_blank (c :: p ++ s) end) = (c :: p, s)) as ->.
    { rewrite <- Hu. destruct c as [|[]|]; try done. repeat (destruct p0; try done). }
    by rewrite (scan_reads _ _ _ H).
Qed.
Example line_example :
  service_command (str "C:\Program Files\ser2net\ser2net.exe") None (str "ser2net") (str "D:\my data\") None
  = inr ([34] ++ str "C:\Program Files\ser2net\ser2net.exe" ++ [34] ++ str " --service --service-name ser2net --data-dir "
         ++ [34] ++ str "D:\my data\\" ++ [34]).
Proof. vm_compute. reflexivity. Qed.
Lemma command_line_kept_witness :
  argv ([34] ++ str "C:\Program Files\ser2net\ser2net.exe" ++ [34] ++ str " --service --service-name ser2net --data-dir "
        ++ [34] ++ str "D:\my data\\" ++ [34])
  = service_args (str "C:\Program Files\ser2net\ser2net.exe") None (str "ser2net") (str "D:\my data\") None
  ∧ name_ok (str "ser2net") = true.
Proof.
  apply (command_line_kept argv (str "C:\Program Files\ser2net\ser2net.exe") None (str "ser2net") (str "D:\my data\") None);
    [exact argv_reads|vm_compute; discriminate|apply (bool_decide_unpack (34 ∉ _)); vm_compute; exact I
    |vm_compute; discriminate|vm_compute; reflexivity].
Defined.
(** The check of the name lets a newline at its end pass. *)
Example name_with_newline : name_ok (str "ser2net" ++ [10]) = true.
Proof. reflexivity. Qed.

(** ** The Windows API *)
Inductive config_info :=
  | Description (text : pystr) | FailureActions (reset_period : Z) (actions : list (Z * Z)) | FailureActionsFlag (on : bool).
(** [Say]: a line of the program's output. *)
Inductive api_call :=
  | OpenSCManagerW (access : Z)
  | CreateServiceW (scm : Z) (name display : pystr) (access service_type start_type error_control : Z) (command : pystr)
  | OpenServiceW (scm : Z) (name : pystr) (access : Z)
  | ChangeServiceConfig2W (svc : Z) (info : config_info)
  | StartServiceW (svc : Z) | QueryServiceStatus (svc : Z) | ControlService (svc control : Z) | DeleteService (svc : Z)
  | CloseServiceHandle (h : Z) | Say (line : pystr).
(** What a call returns, [GetLastError] after it, the state a query reports and the milliseconds it took. *)
Record reply := mkReply { value : Z; last_error : Z; current_state : Z; took : N }.
Record world := mkWorld { calls : list (api_call * reply); clock : Z }.

Definition SC_MANAGER_CONNECT := 1.
Definition SC_MANAGER_CREATE_SERVICE := 2.
Definition SERVICE_QUERY_STATUS := 4.
Definition SERVICE_START := 16.
Definition SERVICE_STOP := 32.
Definition SERVICE_CHANGE_CONFIG := 2.
Definition DELETE := 65536.
Definition SERVICE_WIN32_OWN_PROCESS := 16.
Definition SERVICE_AUTO_START := 2.
Definition SERVICE_ERROR_NORMAL := 1.
Definition SC_ACTION_RESTART := 1.
Definition RESTART_DELAY_MS := 5000.
Definition SERVICE_STOPPED := 1.
Definition SERVICE_START_PENDING := 2.
Definition SERVICE_STOP_PENDING := 3.
Definition SERVICE_RUNNING := 4.
Definition SERVICE_CONTROL_STOP := 1.
Definition SERVICE_CONTROL_INTERROGATE := 4.
Definition SERVICE_CONTROL_SHUTDOWN := 5.
Definition ERROR_ACCESS_DENIED := 5.
Definition ERROR_SERVICE_DOES_NOT_EXIST := 1060.
Definition ERROR_SERVICE_NOT_ACTIVE := 1062.
Definition ERROR_SERVICE_EXISTS := 1073.
Definition ERROR_SERVICE_MARKED_FOR_DELETE := 1072.
Definition NO_ERROR := 0.
Definition ERROR_SERVICE_SPECIFIC_ERROR := 1066.
Definition ERROR_CALL_NOT_IMPLEMENTED := 120.

Definition ERROR_FAILED_SERVICE_CONTROLLER_CONNECT := 1063.
Definition failed (r : reply) : bool := value r =? 0.
Definition fail_error (what : string) (r : reply) : service_error :=
  if last_error r =? ERROR_ACCESS_DENIED then AccessDenied (str what) else CallFailed (str what) (last_error r).
(** The text printed for an error; [FormatError] is the system's. *)
Definition error_text (FormatError : Z → pystr) (data_dir : pystr) (e : service_error) : pystr :=
  match e with
  | BadName => str "Service name: 1-64 letters, digits, '.', '_' or '-'."
  | NotWindows => str "Windows services exist only on Windows (on Linux, use systemd: see systemd/ser2net.service)."
  | AccessDenied what =>
      what ++ str ": access denied " ++ [8212] ++ str " run this from an elevated (" ++ [34] ++ str "Run as administrator" ++ [34] ++ str ") command prompt."
  | CallFailed what err => what ++ str " failed: " ++ strip (FormatError err) ++ str " (error " ++ str_of_Z err ++ str ")"
  | AlreadyExists name =>
      str "A service named '" ++ name ++ str "' already exists. Remove it first with --uninstall-service, or pick another --service-name."
  | NoSuchService name => str "There is no service named '" ++ name ++ str "'."
  | NotRunning state =>
      str "The service did not reach RUNNING (state " ++ str_of_Z state ++ str "); see " ++ data_dir ++ str "\all.log."
  | NotFromScm =>
      str "--service is used by the Windows Service Control Manager. Run ser2net without it, or install the service with --install-service."
  | WaitFuel => []
  end.

Section api.
(** What Windows answers, given all calls before. *)
Context (windows : list (api_call * reply) → api_call → reply).

Definition prog (A : Type) : Type := world → (service_error + A) * world.
#[local] Instance prog_ret : MRet prog := λ A a w, (inr a, w).
#[local] Instance prog_bind : MBind prog := λ A B f m w, match m w with (inr a, w) => f a w | (inl e, w) => (inl e, w) end.
Definition throw {A} (e : service_error) : prog A := λ w, (inl e, w).
Definition check {A} (r : service_error + A) : prog A := λ w, (r, w).
Definition call (c : api_call) : prog reply := λ w,
  let r := windows (calls w) c in (inr r, mkWorld (calls w ++ [(c, r)]) (clock w + Z.of_N (took r))).
Definition sleep (ms : Z) : prog unit := λ w, (inr tt, mkWorld (calls w) (clock w + ms)).
Definition monotonic : prog Z := λ w, (inr (clock w), w).
(** [try: m finally: CloseServiceHandle(h)] *)
Definition closing_handle {A} (h : Z) (m : prog A) : prog A := λ w,
  let '(r, w) := m w in (r, (call (CloseServiceHandle h) w).2).
Definition _fail {A} (what : string) (r : reply) : prog A := throw (fail_error what r).

(** [_wait_state]: [end_] is when it gives up. *)
Fixpoint wait_loop (fuel : nat) (svc want end_ : Z) : prog Z :=
  match fuel with
  | O => throw WaitFuel
  | S fuel =>
      r ← call (QueryServiceStatus svc);
      if failed r then _fail "QueryServiceStatus" r
      else
        now ← monotonic;
        if (current_state r =? want) || (end_ <? now) then mret (current_state r)
        else _ ← sleep 300; wait_loop fuel svc want end_
  end.
Definition _wait_state (svc want : Z) : prog Z := now ← monotonic; wait_loop 102 svc want (now + 30000).

Definition require_windows (nt : bool) : service_error + unit := if nt then inr tt else inl NotWindows.
Definition service_access : Z :=
  Z.lor (Z.lor (Z.lor (Z.lor SERVICE_QUERY_STATUS SERVICE_START) SERVICE_STOP) SERVICE_CHANGE_CONFIG) DELETE.
(** What follows once the service is created. *)
Definition configure (svc : Z) (name data_dir cmd : pystr) (start : bool) : prog unit :=
  _ ← call (ChangeServiceConfig2W svc (Description (str "Serial-to-network bridge with a web UI. Data directory: " ++ data_dir)));
  r ← call (ChangeServiceConfig2W svc (FailureActions 86400 (repeat (SC_ACTION_RESTART, RESTART_DELAY_MS) 3)));
  if failed r then _fail "Setting the restart-on-failure actions" r
  else
    _ ← call (ChangeServiceConfig2W svc (FailureActionsFlag true));
    _ ← call (Say (str "service '" ++ name ++ str "' installed: starts at boot, restarts " ++ str_of_Z (RESTART_DELAY_MS / 1000)
                   ++ str " s after a failure" ++ [10] ++ str "  command: " ++ cmd));
    if start then
      r ← call (StartServiceW svc);
      if failed r then _fail "Starting the service" r
      else
        state ← _wait_state svc SERVICE_RUNNING;
        if negb (state =? SERVICE_RUNNING) then throw (NotRunning state)
        else _ ← call (Say (str "service '" ++ name ++ str "' is running")); mret tt
    else mret tt.
Definition install (nt : bool) (executable : pystr) (script : option pystr) (name data_dir : pystr) (config : option pystr) (start : bool)
  : prog unit :=
  _ ← check (require_windows nt);
  name ← check (check_name name);
  cmd ← check (service_command executable script name data_dir config);
  scm ← call (OpenSCManagerW (Z.lor SC_MANAGER_CONNECT SC_MANAGER_CREATE_SERVICE));
  if failed scm then _fail "Opening the Service Control Manager" scm
  else closing_handle (value scm)
    (svc ← call (CreateServiceW (value scm) name (display_name name) service_access SERVICE_WIN32_OWN_PROCESS SERVICE_AUTO_START
                   SERVICE_ERROR_NORMAL cmd);
     if failed svc then
       if last_error svc =? ERROR_SERVICE_EXISTS then throw (AlreadyExists name) else _fail "Creating the service" svc
     else closing_handle (value svc) (configure (value svc) name data_dir cmd start)).

Definition stop_and_delete (svc : Z) (name : pystr) : prog unit :=
  r ← call (ControlService svc SERVICE_CONTROL_STOP);
  _ ← (if negb (failed r) then
         _ ← _wait_state svc SERVICE_STOPPED; _ ← call (Say (str "service '" ++ name ++ str "' stopped")); mret tt
       else if negb (last_error r =? ERROR_SERVICE_NOT_ACTIVE) then _fail "Stopping the service" r
       else mret tt);
  d ← call (DeleteService svc);
  if failed d && negb (last_error d =? ERROR_SERVICE_MARKED_FOR_DELETE) then _fail "Removing the service" d
  else _ ← call (Say (str "service '" ++ name ++ str "' removed (the data directory is kept)")); mret tt.
Definition uninstall (nt : bool) (name : pystr) : prog unit :=
  _ ← check (require_windows nt);
  name ← check (check_name name);
  scm ← call (OpenSCManagerW SC_MANAGER_CONNECT);
  if failed scm then _fail "Opening the Service Control Manager" scm
  else closing_handle (value scm)
    (svc ← call (OpenServiceW (value scm) name (Z.lor (Z.lor SERVICE_QUERY_STATUS SERVICE_STOP) DELETE));
     if failed svc then
       if last_error svc =? ERROR_SERVICE_DOES_NOT_EXIST then throw (NoSuchService name) else _fail "Opening the service" svc
     else closing_handle (value svc) (stop_and_delete (value svc) name)).

(** *** Handles *)
(** The handles open after some calls; [None] when a call used one that was not open. *)
Definition own_if (b : bool) (open : list Z) : option (list Z) := if b then Some open else None.
Definition obtained (r : reply) (open : list Z) : list Z := if failed r then open else value r :: open.
Fixpoint remove_one (h : Z) (l : list Z) : list Z :=
  match l with [] => [] | x :: l => if x =? h then l else x :: remove_one h l end.
Definition handle_step (open : option (list Z)) (x : api_call * reply) : option (list Z) :=
  match open with
  | None => None
  | Some open =>
      let '(c, r) := x in
      match c with
      | OpenSCManagerW _ => Some (obtained r open)
      | CreateServiceW scm _ _ _ _ _ _ _ => own_if (existsb (Z.eqb scm) open) (obtained r open)
      | OpenServiceW scm _ _ => own_if (existsb (Z.eqb scm) open) (obtained r open)
      | ChangeServiceConfig2W svc _ | StartServiceW svc | QueryServiceStatus svc | ControlService svc _ | DeleteService svc =>
          own_if (existsb (Z.eqb svc) open) open
      | CloseServiceHandle h => own_if (existsb (Z.eqb h) open) (remove_one h open)
      | Say _ => Some open
      end
  end.
Definition handles (l : list (api_call * reply)) : option (list Z) := foldl handle_step (Some []) l.

Definition leaves {A} (before after : list Z) (m : prog A) : Prop :=
  ∀ w, handles (calls w) = Some before → handles (calls (m w).2) = Some after.
#[local] Abbreviation keeps H := (leaves H H).
Lemma call_step c w : handles (calls (call c w).2) = handle_step (handles (calls w)) (c, windows (calls w) c).
Proof. unfold handles. cbn. by rewrite foldl_app. Qed.
Lemma keeps_bind {A B} H (m : prog A) (f : A → prog B) : keeps H m → (∀ a, keeps H (f a)) → keeps H (m ≫= f).
Proof.
  intros Hm Hf w Hw. specialize (Hm w Hw). unfold mbind, prog_bind. destruct (m w) as [[e|a] w'] eqn:E; [done|]. by apply Hf.
Qed.
Lemma keeps_pure {A} H (m : prog A) : (∀ w, calls (m w).2 = calls w) → keeps H m.
Proof. intros Hm w Hw. by rewrite Hm. Qed.
Lemma keeps_use H c : handle_step (Some H) (c, mkReply 0 0 0 0) = Some H → (∀ r, handle_step (Some H) (c, r) = handle_step (Some H) (c, mkReply 0 0 0 0)) →
  keeps H (call c).
Proof. intros H1 H2 w Hw. by rewrite call_step, Hw, H2. Qed.
Lemma keeps_fail {A} H what r : keeps H (_fail (A:=A) what r).
Proof. by apply keeps_pure. Qed.
Lemma leaves_closing {A} H h (m : prog A) : keeps (h :: H) m → leaves (h :: H) H (closing_handle h m).
Proof.
  intros Hm w Hw. specialize (Hm w Hw). unfold closing_handle. destruct (m w) as [r w']. cbn [snd] in *.
  rewrite call_step, Hm. cbn. by rewrite Z.eqb_refl.
Qed.
(** A handle that is got is closed again, whatever happens in between. *)
Lemma keeps_opening {A} H c (k : reply → prog A) :
  (∀ r, handle_step (Some H) (c, r) = Some (obtained r H)) →
  (∀ r, failed r = true → keeps H (k r)) → (∀ r, failed r = false → leaves (value r :: H) H (k r)) → keeps H (call c ≫= k).
Proof.
  intros Hc Hf Hk w Hw. unfold mbind, prog_bind. pose proof (call_step c w) as Hs. rewrite Hw, Hc in Hs. cbn in *.
  set (r := windows (calls w) c) in *. unfold obtained in Hs. destruct (failed r) eqn:E; [by apply (Hf r)|by apply (Hk r)].
Qed.
Lemma keeps_if {A} H (b : bool) (m n : prog A) : keeps H m → keeps H n → keeps H (if b then m else n).
Proof. by destruct b. Qed.
Ltac used := apply keeps_use; [cbn; by rewrite ?Z.eqb_refl|by intros []].
Ltac handled := repeat first
  [ lazymatch goal with |- ∀ _, _ => intro end | apply keeps_bind | apply keeps_if | apply keeps_fail | used | by apply keeps_pure ].
Lemma wait_keeps svc H want end_ fuel : keeps (svc :: H) (wait_loop fuel svc want end_).
Proof. induction fuel as [|fuel IH]; cbn [wait_loop]; handled. apply IH. Qed.
Lemma configure_keeps svc H name data_dir cmd start : keeps (svc :: H) (configure svc name data_dir cmd start).
Proof. unfold configure, _wait_state. handled; apply wait_keeps. Qed.
Lemma stop_and_delete_keeps svc H name : keeps (svc :: H) (stop_and_delete svc name).
Proof. unfold stop_and_delete, _wait_state. handled; apply wait_keeps. Qed.
Lemma install_keeps nt exe script name data_dir config start : keeps [] (install nt exe script name data_dir config start).
Proof.
  unfold install. do 3 (apply keeps_bind; [by apply keeps_pure|intros ?]). apply keeps_opening; [done|intros r ->; apply keeps_fail|]. intros scm ->.
  apply leaves_closing, keeps_opening; [intros r; cbn; by rewrite Z.eqb_refl|intros r ->; handled|].
  intros svc ->. apply leaves_closing, configure_keeps.
Qed.
Lemma uninstall_keeps nt name : keeps [] (uninstall nt name).
Proof.
  unfold uninstall. do 2 (apply keeps_bind; [by apply keeps_pure|intros ?]). apply keeps_opening; [done|intros r ->; apply keeps_fail|]. intros scm ->.
  apply leaves_closing, keeps_opening; [intros r; cbn; by rewrite Z.eqb_refl|intros r ->; handled|].
  intros svc ->. apply leaves_closing, stop_and_delete_keeps.
Qed.

(** *** Outcomes *)
(** [m] only adds calls, and [P] holds of its result and of the calls it added. *)
Definition adds {A} (P : service_error + A → list (api_call * reply) → Prop) (m : prog A) : Prop :=
  ∀ w, ∃ l, calls (m w).2 = calls w ++ l ∧ clock w <= clock (m w).2 ∧ P (m w).1 l.
Lemma adds_bind {A B} (P : service_error + A → list (api_call * reply) → Prop) (Q : service_error + B → list (api_call * reply) → Prop)
    (m : prog A) (f : A → prog B) :
  adds P m → (∀ e l, P (inl e) l → Q (inl e) l) →
  (∀ a l, P (inr a) l → adds (λ r l', Q r (l ++ l')) (f a)) → adds Q (m ≫= f).
Proof.
  intros Hm He Hf w. destruct (Hm w) as (l & Hl & Ht & HP). unfold mbind, prog_bind. destruct (m w) as [[e|a] w']; cbn in *.
  - exists l. split_and!; [done..|by apply He].
  - destruct (Hf a l HP w') as (l' & Hl' & Ht' & HQ). exists (l ++ l'). split_and!; [by rewrite Hl', Hl, app_assoc|lia|done].
Qed.
Lemma adds_call c : adds (λ r l, ∃ x, r = inr x ∧ l = [(c, x)]) (call c).
Proof. intros w. eexists. cbn. split_and!; [done|lia|by eexists]. Qed.
Lemma adds_pure {A} (Q : service_error + A → list (api_call * reply) → Prop) (m : prog A) r :
  (∀ w, calls (m w).2 = calls w ∧ clock w <= clock (m w).2 ∧ (m w).1 = r) → Q r [] → adds Q m.
Proof. intros Hm HQ w. destruct (Hm w) as (H1 & H2 & H3). exists []. rewrite app_nil_r, H3. done. Qed.
Ltac pure_step :=
  intros ?; split_and!; [reflexivity|cbn; lia|cbv [throw mret prog_ret _fail fail_error check fst]; reflexivity].
Lemma adds_closing {A} (Q : service_error + A → list (api_call * reply) → Prop) h (m : prog A) :
  adds (λ r l, ∀ x, Q r (l ++ [(CloseServiceHandle h, x)])) m → adds Q (closing_handle h m).
Proof.
  intros Hm w. destruct (Hm w) as (l & Hl & Ht & HQ). unfold closing_handle. destruct (m w) as [r w']. cbn in *.
  eexists. split_and!; [by rewrite Hl, <- app_assoc|lia|apply HQ].
Qed.
Lemma adds_then {A} (Q : service_error + A → list (api_call * reply) → Prop) c (k : reply → prog A) :
  (∀ x, adds (λ r l, Q r ((c, x) :: l)) (k x)) → adds Q (call c ≫= k).
Proof. intros Hk. eapply adds_bind; [apply adds_call|by intros e l (x & ? & ?)|]. intros a l (x & [= ->] & ->). apply Hk. Qed.
Lemma adds_impl {A} (P Q : service_error + A → list (api_call * reply) → Prop) (m : prog A) :
  adds P m → (∀ r l, P r l → Q r l) → adds Q m.
Proof. intros Hm H w. destruct (Hm w) as (l & ? & ? & ?). exists l. eauto. Qed.

(** Waiting ends: with a state that was reported, or the error of a query. *)
Definition waited (svc : Z) (r : service_error + Z) (l : list (api_call * reply)) : Prop :=
  match r with
  | inl e => e ≠ WaitFuel
  | inr s => ∃ x, (QueryServiceStatus svc, x) ∈ l ∧ failed x = false ∧ current_state x = s
  end.
Lemma wait_loop_ends svc want end_ fuel w :
  end_ < clock w + 300 * (Z.of_nat fuel - 1) → (0 < fuel)%nat →
  ∃ l, let '(r, w') := wait_loop fuel svc want end_ w in calls w' = calls w ++ l ∧ clock w <= clock w' ∧ waited svc r l.
Proof.
  revert w. induction fuel as [|fuel IH]; intros w Hf Hpos; [lia|]. cbn [wait_loop]. clear Hpos.
  unfold mbind, prog_bind, call, monotonic. set (x := windows (calls w) (QueryServiceStatus svc)).
  set (w1 := mkWorld (calls w ++ [(QueryServiceStatus svc, x)]) (clock w + Z.of_N (took x))).
  assert (clock w <= clock w1) as Hw1 by (cbn; lia).
  destruct (failed x) eqn:Ex.
  { exists [(QueryServiceStatus svc, x)]. unfold _fail, throw, fail_error. split_and!; [done..|]. cbn. by destruct (_ =? _). }
  destruct ((current_state x =? want) || (end_ <? clock w1)) eqn:Ed.
  { exists [(QueryServiceStatus svc, x)]. split_and!; [done..|]. exists x. split_and!; [by left|done..]. }
  apply orb_false_iff in Ed as [_ Ed]. zbool. unfold sleep. set (w2 := mkWorld (calls w1) (clock w1 + 300)).
  destruct (IH w2) as (l & Hl); [cbn in *; lia|cbn in *; lia|]. destruct (wait_loop fuel svc want end_ w2) as [r w'].
  destruct Hl as (H1 & H2 & H3). exists ((QueryServiceStatus svc, x) :: l). cbn in H1. rewrite <- app_assoc in H1. split_and!; [done|cbn in *; lia|].
  destruct r as [e|s]; [done|]. destruct H3 as (y & Hy & ?). exists y. split; [by right|done].
Qed.
Lemma wait_adds svc want : adds (waited svc) (_wait_state svc want).
Proof.
  intros w. destruct (wait_loop_ends svc want (clock w + 30000) 102 w) as (l & Hl); [lia..|].
  unfold _wait_state, mbind, prog_bind, monotonic. destruct (wait_loop _ _ _ _ w) as [r w']. by exists l.
Qed.
Definition succeeded (c : api_call) (l : list (api_call * reply)) : Prop := ∃ x, (c, x) ∈ l ∧ failed x = false.
Definition reported (svc state : Z) (l : list (api_call * reply)) : Prop :=
  ∃ x, (QueryServiceStatus svc, x) ∈ l ∧ failed x = false ∧ current_state x = state.
(** What a service that was installed is. *)
Definition configured (svc : Z) (start : bool) (l : list (api_call * reply)) : Prop :=
  succeeded (ChangeServiceConfig2W svc (FailureActions 86400 (repeat (SC_ACTION_RESTART, RESTART_DELAY_MS) 3))) l
  ∧ (start = true → succeeded (StartServiceW svc) l ∧ reported svc SERVICE_RUNNING l).
Definition removed (svc : Z) (l : list (api_call * reply)) : Prop :=
  (∃ x, (DeleteService svc, x) ∈ l ∧ (failed x = false ∨ last_error x = ERROR_SERVICE_MARKED_FOR_DELETE))
  ∧ ∃ x, (ControlService svc SERVICE_CONTROL_STOP, x) ∈ l
         ∧ (failed x = false ∨ last_error x = ERROR_SERVICE_NOT_ACTIVE).
(** An error is one the command line reports. *)
Definition ends_with_ {A} (P : list (api_call * reply) → Prop) (r : service_error + A) (l : list (api_call * reply)) : Prop :=
  match r with inl e => e ≠ WaitFuel | inr _ => P l end.
Lemma adds_fail {A} P what x l : adds (λ r l', ends_with_ (A:=A) P r (l ++ l')) (_fail what x).
Proof.
  eapply adds_pure; [pure_step|]. cbn. by destruct (_ =? _).
Qed.

Lemma adds_throw {A} P e l : e ≠ WaitFuel → adds (λ r l', ends_with_ (A:=A) P r (l ++ l')) (throw e).
Proof. intros He. by eapply adds_pure; [pure_step|]. Qed.
Lemma adds_ret {A} (P : list (api_call * reply) → Prop) (a : A) l : P l → adds (λ r l', ends_with_ P r (l ++ l')) (mret a : prog A).
Proof. intros HP. eapply adds_pure; [pure_step|]. cbn. by rewrite app_nil_r. Qed.
(** One more call: what was done before is kept in [l]. *)
Lemma adds_next {A} P l c (k : reply → prog A) :
  (∀ x, adds (λ r l', ends_with_ P r ((l ++ [(c, x)]) ++ l')) (k x)) → adds (λ r l', ends_with_ P r (l ++ l')) (call c ≫= k).
Proof. intros Hk. apply adds_then. intros x. eapply adds_impl; [apply Hk|]. intros r l'. cbv beta. by rewrite <- app_assoc. Qed.
Lemma adds_weaken {A} (P Q : list (api_call * reply) → Prop) l (m : prog A) :
  adds (λ r l', ends_with_ P r (l ++ l')) m → (∀ l', P (l ++ l') → Q (l ++ l')) → adds (λ r l', ends_with_ Q r (l ++ l')) m.
Proof. intros Hm HPQ. eapply adds_impl; [exact Hm|]. intros [e|a] l' H; [done|by apply HPQ]. Qed.
Lemma adds_wait {A} P l svc want (k : Z → prog A) :
  (∀ s l', waited svc (inr s) l' → adds (λ r l'', ends_with_ P r ((l ++ l') ++ l'')) (k s)) →
  adds (λ r l', ends_with_ P r (l ++ l')) (_wait_state svc want ≫= k).
Proof.
  intros Hk. eapply adds_bind; [apply wait_adds|by intros e l'|]. intros s l' Hs. eapply adds_impl; [by apply Hk|].
  intros r l''. cbv beta. by rewrite <- app_assoc.
Qed.
Lemma elem_snoc {A} (x : A) l : x ∈ l ++ [x].
Proof. apply elem_of_app. right. by left. Qed.
Ltac elem := solve [first [assumption | by left | apply elem_of_app; left; elem | apply elem_of_app; right; elem | right; elem]].
Lemma configure_adds svc name data_dir cmd start l :
  adds (λ r l', ends_with_ (configured svc start) r (l ++ l')) (configure svc name data_dir cmd start).
Proof.
  unfold configure. apply adds_next. intros d. apply adds_next. intros x. destruct (failed x) eqn:Ex; [apply adds_fail|].
  do 2 (apply adds_next; intros ?). destruct start.
  2:{ apply adds_ret. split; [|done]. exists x. split; [elem|done]. }
  apply adds_next. intros y. destruct (failed y) eqn:Ey; [apply adds_fail|]. apply adds_wait. intros s l' (z & Hz & Hfz & Hs).
  destruct (Z.eqb_spec s SERVICE_RUNNING) as [->|]; cbn [negb]; [|by apply adds_throw]. apply adds_next. intros ?. apply adds_ret.
  split; [exists x; split; [elem|done]|]. intros _. split; [exists y; split; [elem|done]|exists z; split_and!; [elem|done..]].
Qed.
Lemma stop_and_delete_adds svc name l :
  adds (λ r l', ends_with_ (removed svc) r (l ++ l')) (stop_and_delete svc name).
Proof.
  unfold stop_and_delete. apply adds_next. intros x.
  set (stopped := λ l : list (api_call * reply), ∃ x, (ControlService svc SERVICE_CONTROL_STOP, x) ∈ l ∧ (failed x = false ∨ last_error x = ERROR_SERVICE_NOT_ACTIVE)).
  eapply (adds_bind (λ r l', ends_with_ stopped r ((l ++ [(ControlService svc SERVICE_CONTROL_STOP, x)]) ++ l'))).
  - destruct (failed x) eqn:Ex; cbn [negb].
    + destruct (Z.eqb_spec (last_error x) ERROR_SERVICE_NOT_ACTIVE) as [E|]; cbn [negb]; [|apply adds_fail].
      apply adds_ret. exists x. split; [elem|by right].
    + apply adds_wait. intros s l' _. apply adds_next. intros ?. apply adds_ret. exists x. split; [elem|by left].
  - done.
  - intros [] l1 Hs. eapply adds_impl; [|intros r l' H; rewrite app_assoc; exact H]. destruct Hs as (y & Hy & Hd).
    apply adds_next. intros d. destruct (failed d && negb (last_error d =? ERROR_SERVICE_MARKED_FOR_DELETE)) eqn:E; [apply adds_fail|].
    apply adds_next. intros ?. apply adds_ret. split.
    + exists d. split; [elem|]. apply andb_false_iff in E as [E|E]; [by left|right; by zbool].
    + exists y. split; [apply elem_of_app in Hy as [Hy|Hy]; elem|done].
Qed.
Lemma adds_closing_all {A} P l h (m : prog A) :
  (∀ l1 l2, P l1 → P (l1 ++ l2)) → adds (λ r l', ends_with_ P r (l ++ l')) m → adds (λ r l', ends_with_ P r (l ++ l')) (closing_handle h m).
Proof.
  intros HP Hm. apply adds_closing. eapply adds_impl; [exact Hm|]. intros [e|a] l' H x; [done|]. cbn in *. rewrite app_assoc. by apply HP.
Qed.
Definition installed exe script name data_dir config start (l : list (api_call * reply)) : Prop :=
  ∃ scm svc cmd, service_command exe script name data_dir config = inr cmd
    ∧ (∃ x, (CreateServiceW scm name (display_name name) service_access SERVICE_WIN32_OWN_PROCESS SERVICE_AUTO_START
               SERVICE_ERROR_NORMAL cmd, x) ∈ l ∧ value x = svc ∧ svc ≠ 0)
    ∧ configured svc start l.
Definition uninstalled name (l : list (api_call * reply)) : Prop :=
  ∃ scm svc, (∃ x access, (OpenServiceW scm name access, x) ∈ l ∧ value x = svc ∧ svc ≠ 0) ∧ removed svc l.
Lemma grows_succeeded c l1 l2 : succeeded c l1 → succeeded c (l1 ++ l2).
Proof. intros (x & Hx & ?). exists x. split; [elem|done]. Qed.
Lemma grows_installed exe script name data_dir config start l1 l2 :
  installed exe script name data_dir config start l1 → installed exe script name data_dir config start (l1 ++ l2).
Proof.
  intros (scm & svc & cmd & Hc & (x & Hx & Hv) & Ha & Hs). exists scm, svc, cmd. split_and!; [done|exists x; split; [elem|done]|split; [by apply grows_succeeded|]].
  intros Hst. destruct (Hs Hst) as [H1 (y & Hy & Hr)]. split; [by apply grows_succeeded|]. exists y. split; [elem|done].
Qed.
Lemma grows_uninstalled name l1 l2 : uninstalled name l1 → uninstalled name (l1 ++ l2).
Proof.
  intros (scm & svc & (x & a & Hx & Hv) & (d & Hd & Hd') & (c & Hc & Hc')). exists scm, svc.
  split; [exists x, a; split; [elem|done]|split; [exists d; split; [elem|done]|exists c; split; [elem|done]]].
Qed.
Lemma adds_check {A B} (P : list (api_call * reply) → Prop) (r0 : service_error + A) (k : A → prog B) :
  (∀ e, r0 = inl e → e ≠ WaitFuel) → (∀ a, r0 = inr a → adds (ends_with_ P) (k a)) → adds (ends_with_ P) (check r0 ≫= k).
Proof.
  intros He Hk. eapply (adds_bind (λ r l, r = r0 ∧ l = [])).
  - eapply adds_pure; [pure_step|done].
  - intros e l [H _]. by eapply He.
  - intros a l [H ->]. by apply Hk.
Qed.
Lemma install_adds nt exe script name data_dir config start :
  adds (ends_with_ (installed exe script name data_dir config start)) (install nt exe script name data_dir config start).
Proof.
  unfold install. apply adds_check; [by destruct nt; intros e [= <-]|intros _ _].
  apply adds_check; [unfold check_name; destruct (name_ok name); intros e [= <-]; done|]. intros n Hn.
  assert (n = name) as -> by (unfold check_name in Hn; destruct (name_ok name); by simplify_eq).
  apply adds_check; [unfold service_command; rewrite Hn; done|]. intros cmd Hcmd.
  apply (adds_next _ []). intros scm. destruct (failed scm); [apply adds_fail|]. apply adds_closing_all; [apply grows_installed|].
  apply adds_next. intros svc. destruct (failed svc) eqn:Es; [destruct (_ =? _); [by apply adds_throw|apply adds_fail]|].
  apply adds_closing_all; [apply grows_installed|]. eapply adds_weaken; [apply configure_adds|]. intros l H.
  exists (value scm), (value svc), cmd. split_and!; [done| |exact H]. exists svc. split_and!; [elem|done|]. by apply Z.eqb_neq.
Qed.
Lemma uninstall_adds nt name : adds (ends_with_ (uninstalled name)) (uninstall nt name).
Proof.
  unfold uninstall. apply adds_check; [by destruct nt; intros e [= <-]|intros _ _].
  apply adds_check; [unfold check_name; destruct (name_ok name); intros e [= <-]; done|]. intros n Hn.
  assert (n = name) as -> by (unfold check_name in Hn; destruct (name_ok name); by simplify_eq).
  apply (adds_next _ []). intros scm. destruct (failed scm); [apply adds_fail|]. apply adds_closing_all; [apply grows_uninstalled|].
  apply adds_next. intros svc. destruct (failed svc) eqn:Es; [destruct (_ =? _); [by apply adds_throw|apply adds_fail]|].
  apply adds_closing_all; [apply grows_uninstalled|]. eapply adds_weaken; [apply stop_and_delete_adds|]. intros l H.
  exists (value scm), (value svc). split; [|done]. eexists svc, _. split_and!; [elem|done|]. by apply Z.eqb_neq.
Qed.
(** Installing and removing the service: a call that succeeds has done it (the service is registered with the command line, set to
    restart and reported running; or the service was stopped, or was not running, and is deleted); every other call ends with an
    error the command line reports; and on every path each handle got is closed exactly once and not used after. *)
Theorem service_calls nt exe script name data_dir config start now :
  (let '(r, w) := install nt exe script name data_dir config start (mkWorld [] now) in
   handles (calls w) = Some []
   ∧ match r with inr _ => installed exe script name data_dir config start (calls w) | inl e => e ≠ WaitFuel end)
  ∧ (let '(r, w) := uninstall nt name (mkWorld [] now) in
     handles (calls w) = Some [] ∧ match r with inr _ => uninstalled name (calls w) | inl e => e ≠ WaitFuel end).
Proof.
  split.
  - pose proof (install_keeps nt exe script name data_dir config start (mkWorld [] now) eq_refl) as Hk.
    destruct (install_adds nt exe script name data_dir config start (mkWorld [] now)) as (l & Hl & _ & HP). cbn in Hl.
    destruct (install _ _ _ _ _ _ _ _) as [[e|[]] w]; cbn in *; subst l; done.
  - pose proof (uninstall_keeps nt name (mkWorld [] now) eq_refl) as Hk.
    destruct (uninstall_adds nt name (mkWorld [] now)) as (l & Hl & _ & HP). cbn in Hl.
    destruct (uninstall _ _ _) as [[e|[]] w]; cbn in *; subst l; done.
Qed.
End api.

(** A service that starts at once; and one whose restart actions are refused: it stays registered, without them. *)
Definition good_windows (l : list (api_call * reply)) (c : api_call) : reply :=
  match c with
  | QueryServiceStatus _ => mkReply 1 0 (if (length l <? 9)%nat then SERVICE_START_PENDING else SERVICE_RUNNING) 5
  | _ => mkReply (100 + Z.of_nat (length l)) 0 0 1
  end.
Definition refusing_windows (l : list (api_call * reply)) (c : api_call) : reply :=
  match c with
  | ChangeServiceConfig2W _ (FailureActions _ _) => mkReply 0 ERROR_ACCESS_DENIED 0 1
  | _ => good_windows l c
  end.
Definition demo_install (windows : list (api_call * reply) → api_call → reply) : (service_error + unit) * world :=
  install windows true (str "C:\ser2net.exe") None (str "ser2net") (str "D:\data") None true (mkWorld [] 0).
Example install_runs :
  let '(r, w) := demo_install good_windows in
  r = inr tt ∧ (fst <$> drop 5 (calls w)) =
  [Say (str "service 'ser2net' installed: starts at boot, restarts 5 s after a failure" ++ [10]
        ++ str "  command: C:\ser2net.exe --service --service-name ser2net --data-dir D:\data");
   StartServiceW 101; QueryServiceStatus 101; QueryServiceStatus 101; QueryServiceStatus 101; Say (str "service 'ser2net' is running");
   CloseServiceHandle 101; CloseServiceHandle 100].
Proof. vm_compute. split; reflexivity. Qed.
Example install_leaves_service :
  let '(r, w) := demo_install refusing_windows in
  r = inl (AccessDenied (str "Setting the restart-on-failure actions"))
  ∧ existsb (λ x, match x.1 with DeleteService _ => true | _ => false end) (calls w) = false.
Proof. vm_compute. split; reflexivity. Qed.

(** ** Under the Service Control Manager *)
(** What SERVICE_STATUS holds; its fields are 32-bit. *)
Record scm_status := mkScm {
  dwCurrentState : Z; dwControlsAccepted : Z; dwWin32ExitCode : Z; dwServiceSpecificExitCode : Z; dwCheckPoint : Z; dwWaitHint : Z;
}.
Definition dword (x : Z) : Z := x mod 2 ^ 32.
(** How the server in the service thread ends. *)
Inductive main_end := Returned (code : Z) | SystemExit (code : option Z) | Crashed.
Definition exit_code (e : main_end) : Z :=
  match e with Returned c => c | SystemExit (Some c) => c | SystemExit None | Crashed => 1 end.
(** [told] are the calls of SetServiceStatus, [stops] the calls of [stop], [code] is [result["code"]]. *)
Record service := mkService {
  handle : bool; status : scm_status; told : list scm_status; stops : nat; code : Z; ended : bool;
}.
Definition service0 : service := mkService false (mkScm SERVICE_START_PENDING 0 0 0 0 0) [] 0 0 false.
(** [report]: the fields of the one status record are set, and it is sent. *)
Definition fill (state code wait_hint : Z) (s : scm_status) : scm_status :=
  mkScm state (if state =? SERVICE_START_PENDING then 0 else 5)
    (if code =? 0 then NO_ERROR else ERROR_SERVICE_SPECIFIC_ERROR) (dword code)
    (if (state =? SERVICE_RUNNING) || (state =? SERVICE_STOPPED) then 0 else dword (dwCheckPoint s + 1)) wait_hint.
Definition filled (state exit wait_hint : Z) (p : service) : service :=
  mkService (handle p) (fill state exit wait_hint (status p)) (told p) (stops p) (code p) (ended p).
Definition sent (p : service) : service :=
  mkService (handle p) (status p) (if handle p then told p ++ [status p] else told p) (stops p) (code p) (ended p).
Definition report (state exit wait_hint : Z) (p : service) : service := sent (filled state exit wait_hint p).
(** [on_control] and what it returns. *)
Definition on_control (control : Z) (p : service) : Z * service :=
  if (control =? SERVICE_CONTROL_STOP) || (control =? SERVICE_CONTROL_SHUTDOWN) then
    let p := report SERVICE_STOP_PENDING 0 30000 p in
    (NO_ERROR, mkService (handle p) (status p) (told p) (S (stops p)) (code p) (ended p))
  else if control =? SERVICE_CONTROL_INTERROGATE then (NO_ERROR, p)
  else (ERROR_CALL_NOT_IMPLEMENTED, p).
(** [service_main] up to the call of [main], and after it; [registered]: the SCM gave a handle. *)
Definition service_begins (registered : bool) (p : service) : service :=
  report SERVICE_RUNNING 0 0 (report SERVICE_START_PENDING 0 30000
    (mkService registered (status p) (told p) (stops p) (code p) (ended p))).
Definition service_ends (e : main_end) (p : service) : service :=
  report SERVICE_STOPPED (exit_code e) 0 (mkService (handle p) (status p) (told p) (stops p) (exit_code e) true).
(** The documented rule of the SCM: no control for a stopped service, a stop or shutdown only when it is accepted. *)
Definition delivers (control : Z) (p : service) : bool :=
  match last (told p) with
  | None => false
  | Some s => negb (dwCurrentState s =? SERVICE_STOPPED)
              && (if control =? SERVICE_CONTROL_STOP then Z.testbit (dwControlsAccepted s) 0
                  else if control =? SERVICE_CONTROL_SHUTDOWN then Z.testbit (dwControlsAccepted s) 2 else true)
  end.
Inductive scm_event := Control (control : Z) | MainEnds (e : main_end).
Definition scm_step (e : scm_event) (p : service) : option service :=
  match e with
  | Control c => if delivers c p then Some (on_control c p).2 else None
  | MainEnds e => if ended p then None else Some (service_ends e p)
  end.
Definition scm_run (l : list scm_event) (p : service) : option service := foldl (λ o e, o ≫= scm_step e) (Some p) l.

(** [run]: the process is handed to the dispatcher, which returns when the service has stopped. *)
Definition run (nt : bool) (name : pystr) (dispatched : reply) (p : service) : service_error + Z :=
  match require_windows nt, check_name name with
  | inl e, _ => inl e
  | _, inl e => inl e
  | _, _ =>
      if failed dispatched then
        inl (if last_error dispatched =? ERROR_FAILED_SERVICE_CONTROLLER_CONNECT then NotFromScm
             else fail_error "Connecting to the Service Control Manager" dispatched)
      else inr (code p)
  end.

Definition pending (state : Z) (accepted checkpoint : Z) : scm_status := mkScm state accepted NO_ERROR 0 checkpoint 30000.
Definition running_status : scm_status := mkScm SERVICE_RUNNING 5 NO_ERROR 0 0 0.
Definition stopped_status (exit : Z) : scm_status :=
  mkScm SERVICE_STOPPED 5 (if exit =? 0 then NO_ERROR else ERROR_SERVICE_SPECIFIC_ERROR) (dword exit) 0 0.
(** The whole history the SCM is told: starting, running, a stop announced [n] times with rising check points, the end. *)
Definition scm_history (n : nat) (exit : option Z) : list scm_status :=
  [pending SERVICE_START_PENDING 0 1; running_status]
  ++ ((λ i, pending SERVICE_STOP_PENDING 5 (dword (Z.of_nat i + 1))) <$> seq 0 n)
  ++ match exit with Some c => [stopped_status c] | None => [] end.
Definition main_ended (l : list scm_event) : option main_end :=
  head (omap (λ e, match e with MainEnds m => Some m | Control _ => None end) l).
Definition stop_requests (l : list scm_event) : nat :=
  length (List.filter (λ e, match e with Control c => (c =? SERVICE_CONTROL_STOP) || (c =? SERVICE_CONTROL_SHUTDOWN) | MainEnds _ => false end) l).
(** What holds of a service at any time. *)
Definition scm_inv (p : service) (n : nat) (e : option main_end) : Prop :=
  handle p = true ∧ stops p = n ∧ told p = scm_history n (exit_code <$> e)
  ∧ ended p = (match e with Some _ => true | None => false end)
  ∧ (∀ m, e = Some m → code p = exit_code m)
  ∧ (e = None → dwCheckPoint (status p) = dword (Z.of_nat n)).
Lemma history_snoc n : scm_history (S n) None = scm_history n None ++ [pending SERVICE_STOP_PENDING 5 (dword (Z.of_nat n + 1))].
Proof. unfold scm_history. rewrite seq_S, fmap_app, !app_nil_r, <- !app_assoc. done. Qed.
Lemma history_last n exit : last (scm_history n (Some exit)) = Some (stopped_status exit).
Proof. unfold scm_history. rewrite app_assoc, last_app. done. Qed.
Lemma scm_step_inv e p n m p' :
  scm_inv p n m → scm_step e p = Some p' →
  scm_inv p' (match e with Control c => if (c =? SERVICE_CONTROL_STOP) || (c =? SERVICE_CONTROL_SHUTDOWN) then S n else n | _ => n end)
    (match m with Some m => Some m | None => match e with MainEnds m => Some m | _ => None end end).
Proof.
  intros (Hh & Hn & Ht & He & Hc & Hcp) Hs. destruct e as [c|e]; cbn [scm_step] in Hs.
  - destruct (delivers c p) eqn:Ed; [|done]. injection Hs as <-. destruct m as [m|].
    { unfold delivers in Ed. rewrite Ht in Ed. cbn [fmap option_fmap option_map] in Ed. by rewrite history_last in Ed. }
    unfold on_control. destruct (_ || _).
    + cbn [snd]. unfold report, filled, sent, fill, scm_inv. cbn [handle status told stops code ended dwCheckPoint]. rewrite Hh, Ht, Hn, Hcp by done.
      split_and!; try done.
      * change (exit_code <$> None) with (@None Z). rewrite history_snoc. unfold pending. cbn -[dword scm_history]. do 3 f_equal.
        unfold dword. by rewrite Zplus_mod_idemp_l.
      * intros _. cbn -[dword]. unfold dword. rewrite Zplus_mod_idemp_l. f_equal. lia.
    + by destruct (c =? _).
  - destruct (ended p) eqn:Ee; [done|]. injection Hs as <-. destruct m as [m|]; [done|].
    unfold service_ends, report, filled, sent, fill, scm_inv. cbn. rewrite Hh, Ht. split_and!; try done; [|by intros m [= <-]].
    unfold scm_history. cbn. by rewrite app_nil_r.
Qed.
Lemma scm_run_inv l : ∀ p n m p',
  scm_inv p n m → scm_run l p = Some p' →
  scm_inv p' (n + stop_requests l) (match m with Some m => Some m | None => main_ended l end).
Proof.
  unfold scm_run. induction l as [|e l IH]; intros p n m p' Hi Hr.
  { injection Hr as <-. unfold stop_requests. cbn. rewrite Nat.add_0_r. by destruct m. }
  cbn [foldl mbind option_bind] in Hr. destruct (scm_step e p) as [p1|] eqn:Es.
  2:{ exfalso. clear -Hr. induction l as [|e l IH]; [done|]. by apply IH. }
  pose proof (scm_step_inv _ _ _ _ _ Hi Es) as Hi1. specialize (IH _ _ _ _ Hi1 Hr).
  destruct e as [c|e]; unfold stop_requests, main_ended in *; cbn [List.filter omap list_omap] in *.
  - destruct (_ || _); cbn [length]; [rewrite Nat.add_succ_r|]; destruct m; done.
  - destruct m as [m|]; done.
Qed.
(** what the Service Control Manager is told, for every way the server ends (an exit code, SystemExit, any exception) and whatever
    controls arrive: starting, then running, each stop announced with a rising check point and passed on to the
    server, and, once the server has ended and only then, stopped with its exit code (so that a failure makes the SCM
    restart it); after that nothing more. The process exits with the same code. *)
Theorem scm_is_told l p :
  scm_run l (service_begins true service0) = Some p →
  told p = scm_history (stop_requests l) (exit_code <$> main_ended l) ∧ stops p = stop_requests l
  ∧ (∀ e, main_ended l = Some e → code p = exit_code e)
  ∧ (main_ended l = None → Forall (λ s, dwCurrentState s ≠ SERVICE_STOPPED) (told p)).
Proof.
  intros Hr. apply (scm_run_inv l _ 0 None) in Hr as (_ & Hn & Ht & _ & Hc & _); [|by split_and!].
  split_and!; [done..|]. intros Hm. rewrite Ht, Hm. unfold scm_history. cbn [fmap option_fmap option_map]. rewrite app_nil_r.
  apply Forall_app. split; [by repeat constructor|]. apply Forall_fmap, Forall_true. done.
Qed.
Definition demo_life : list scm_event := [Control SERVICE_CONTROL_INTERROGATE; Control SERVICE_CONTROL_STOP; MainEnds (Returned 0)].
Definition demo_service : service := default service0 (scm_run demo_life (service_begins true service0)).
Lemma scm_is_told_witness :
  told demo_service = scm_history (stop_requests demo_life) (exit_code <$> main_ended demo_life) ∧ stops demo_service = stop_requests demo_life
  ∧ (∀ e, main_ended demo_life = Some e → code demo_service = exit_code e)
  ∧ (main_ended demo_life = None → Forall (λ s, dwCurrentState s ≠ SERVICE_STOPPED) (told demo_service)).
Proof. apply (scm_is_told demo_life demo_service). vm_compute. reflexivity. Defined.

(** A control is handled in the SCM's thread: when a stop arrives while the service thread reports its end, the two share
    the record that is sent, and the last thing the SCM is told is that the service is still stopping. *)
Example stopped_never_told :
  let p := service_begins true service0 in
  let p := filled SERVICE_STOPPED 0 0 p in                  (* service thread: the fields of its last report *)
  let p := (on_control SERVICE_CONTROL_STOP p).2 in          (* SCM thread: a stop *)
  let p := sent p in                                         (* service thread: sends the record *)
  dwCurrentState <$> told p = [SERVICE_START_PENDING; SERVICE_RUNNING; SERVICE_STOP_PENDING; SERVICE_STOP_PENDING].
Proof. vm_compute. reflexivity. Qed.
