(* ===== verification/SettingsPages.v ===== *)
(** * Settings pages (app/web/routes/settings.py): exports, imports with a preview, the audit viewer

    The import goes over two requests: the first shows what would change and keeps the plan under a token, the second applies it.
    [token] and [now] are what [secrets.token_urlsafe] and [time.time] gave, times in seconds. *)
From S2P Require Import Prelude PyFloat PyStr PyVal IpAddr PyNum Json JsonOut Config AppConfig Auth Store ConfigStore Supervisor Importer Forms Ops Accounts Logs.
#[local] Open Scope Z_scope.

(** ** Plans waiting to be confirmed *)
Record pending_import := mkPending { created : Z; by_user : pyval; plan_of : ImportPlan }.
Abbreviation pending_imports := (list (pystr * pending_import)).
Definition PENDING_TTL_S : Z := 900.
Definition expired (now : Z) (p : pending_import) : bool := PENDING_TTL_S <? now - created p.
(** [while len(pend) >= 20: pend.pop(next(iter(pend)))] *)
Definition make_room (pend : pending_imports) : pending_imports := drop (length pend - 19) pend.
Definition _pending_put (now : Z) (token : pystr) (user : pyval) (plan : ImportPlan) (pend : pending_imports) : pending_imports :=
  dict_set token (mkPending now user plan) (make_room (List.filter (λ kv, negb (expired now kv.2)) pend)).
Definition _pending_get (now : Z) (token : pystr) (user : pyval) (pend : pending_imports) : option pending_import :=
  match assoc token pend with
  | Some p => if negb (py_eq (by_user p) user) || expired now p then None else Some p
  | None => None
  end.
Definition pending_pop (token : pystr) (pend : pending_imports) : pending_imports :=
  List.filter (λ kv, negb (str_eqb kv.1 token)) pend.

(** ** Requests *)
Inductive import_request :=
  | Upload (raw : bytes) (token : pystr) (f : form)
  | Confirm (f : form).
(** A request of someone at some time. *)
Record visit := mkVisit { now : Z; who : caller; request : import_request }.
Inductive import_reply :=
  | Refusal (code : Z) | Failed (x : exn) | UnknownMode | Expired | Crashed (x : exn)
  | Preview (token : pystr) (mode : pystr) (rows : list row) (plan : ImportPlan) (problem : option exn)
  | Applied (token : option pystr) (plan : ImportPlan) (mode : pystr) (o : outcome).
Definition _who (w : caller) : pyval := match me w with Some u => username u | None => vstr "" end.

Section pages.
Context (word : Z → bool) (repr : pyval → pystr) (isfile : pystr → bool) (e : env).
Context (classic : pystr → res (list pyval * list pystr * string)).

Definition as_operator {A} (w : caller) (refused : Z → A) (k : A) : A :=
  match require_role (me w) "operator" with
  | Some code => refused code
  | None => if csrf_ok w then k else refused 403
  end.
Definition _apply_import (token : option pystr) (plan : ImportPlan) (mode : pystr) (s : state) : import_reply * state :=
  let '(o, s) := import_mappings word repr isfile e (plan_mappings plan) mode s in (Applied token plan mode o, s).
(** What a preview shows: the rows, and why the result would be refused. *)
Definition preview (plan : ImportPlan) (mode : pystr) (c : AppConfig) : res (list row * option exn) :=
  rows ← plan_rows word repr (e_fresh e 0) (mappings c) (plan_mappings plan) mode;
  '(candidate, _) ← apply_import word repr (e_fresh e) (mappings c) (plan_mappings plan) mode;
  match app_validate repr isfile (with_mappings candidate c) with
  | Ok _ => Ok (rows, None)
  | Raise x => if config_error x then Ok (rows, Some x) else Raise x
  end.
Definition known_mode (mode : pystr) : bool := existsb (str_eqb mode) MODES.
Definition config_import (v : visit) (raw : bytes) (token : pystr) (f : form) (x : state * pending_imports)
  : import_reply * (state * pending_imports) :=
  let '(s, pend) := x in
  as_operator (who v) (λ code, (Refusal code, x))
    (match parse_mappings_file word repr classic (e_fresh e) raw with
     | Raise x' => (if config_error x' then Failed x' else Crashed x', x)
     | Ok plan =>
         let mode := field f "mode" "merge" in
         if str_eqb (field f "step" "") (str "preview") then
           if negb (known_mode mode) then (UnknownMode, x)
           else match preview plan mode (config s) with
                | Raise x' => (Crashed x', x)
                | Ok (rows, problem) =>
                    (Preview token mode rows plan problem, (s, _pending_put (now v) token (_who (who v)) plan pend))
                end
         else let '(r, s) := _apply_import None plan (str "replace") s in (r, (s, pend))
     end).
Definition config_import_apply (v : visit) (f : form) (x : state * pending_imports) : import_reply * (state * pending_imports) :=
  let '(s, pend) := x in
  as_operator (who v) (λ code, (Refusal code, x))
    (let token := field f "token" "" in
     match _pending_get (now v) token (_who (who v)) pend with
     | None => (Expired, x)
     | Some p =>
         let mode := field f "mode" "merge" in
         if negb (known_mode mode) then (UnknownMode, x)
         else let '(r, s) := _apply_import (Some token) (plan_of p) mode s in (r, (s, pending_pop token pend))
     end).
Definition serve_import (v : visit) (x : state * pending_imports) : import_reply * (state * pending_imports) :=
  match request v with
  | Upload raw token f => config_import v raw token f x
  | Confirm f => config_import_apply v f x
  end.
Fixpoint serve_imports (vs : list visit) (x : state * pending_imports) : list (visit * import_reply) * (state * pending_imports) :=
  match vs with
  | [] => ([], x)
  | v :: vs => let '(r, x) := serve_import v x in let '(h, x) := serve_imports vs x in ((v, r) :: h, x)
  end.
Definition upload_tokens (vs : list visit) : list pystr := omap (λ v, match request v with Upload _ t _ => Some t | Confirm _ => None end) vs.

(** ** Export *)
Definition exported : style := mkStyle true (Some 2%nat) false true.
Definition export_doc (c : AppConfig) : pyval :=
  VDict [key "version" (VInt 1); key "mappings" (VList (mapping_to_dict <$> mappings c))].
Definition config_export (u : option User) (c : AppConfig) : Z + res pystr :=
  match require_role u "operator" with Some code => inl code | None => inr (json_dumps exported (export_doc c)) end.
End pages.

(** ** An import applies what was previewed *)
Definition previewed (h : list (visit * import_reply)) (t : pystr) (p : pending_import) : Prop :=
  ∃ v mode rows problem, (v, Preview t mode rows (plan_of p) problem) ∈ h ∧ now v = created p ∧ _who (who v) = by_user p.
Definition confirmed (h : list (visit * import_reply)) (t : pystr) : Prop := ∃ v plan mode o, (v, Applied (Some t) plan mode o) ∈ h.
(** A confirmation applies a plan someone with the same name was shown at most 900 s before under the token, and which nobody confirmed. *)
Definition rightly (h : list (visit * import_reply)) (x : visit * import_reply) : Prop :=
  match x with
  | (v, Applied (Some t) plan _ _) =>
      ¬ confirmed h t ∧ ∃ p, previewed h t p ∧ plan_of p = plan ∧ now v - created p <= PENDING_TTL_S ∧ py_eq (by_user p) (_who (who v)) = true
  | _ => True
  end.
Definition rightful (h : list (visit * import_reply)) : Prop := ∀ h1 x h2, h = h1 ++ x :: h2 → rightly h1 x.
Record import_inv (seen : list pystr) (h : list (visit * import_reply)) (pend : pending_imports) : Prop := mkImportInv {
  ii_few : (length pend <= 20)%nat;
  ii_shown : ∀ t p, (t, p) ∈ pend → previewed h t p ∧ ¬ confirmed h t;
  ii_pending : ∀ t p, (t, p) ∈ pend → t ∈ seen;
  ii_confirmed : ∀ t, confirmed h t → t ∈ seen;
  ii_rightful : rightful h;
}.
Lemma rightful_snoc h x : rightful h → rightly h x → rightful (h ++ [x]).
Proof.
  intros Hh Hx h1 y h2 E. destruct h2 as [|z h2 _] using rev_ind.
  - apply app_inj_tail in E as [-> ->]. done.
  - rewrite app_comm_cons, app_assoc in E. apply app_inj_tail in E as [-> _]. by eapply Hh.
Qed.
Lemma previewed_snoc h x t p : previewed h t p → previewed (h ++ [x]) t p.
Proof. intros (v & m & r & pr & H & ?). exists v, m, r, pr. split; [apply elem_of_app; by left|done]. Qed.
Lemma confirmed_snoc h x t : confirmed (h ++ [x]) t → confirmed h t ∨ ∃ v plan mode o, x = (v, Applied (Some t) plan mode o).
Proof.
  intros (v & pl & m & o & [H|H]%elem_of_app); [left; by exists v, pl, m, o|right]. apply list_elem_of_singleton in H as <-. by eauto.
Qed.
Lemma assoc_elem {A} k (l : list (pystr * A)) v : assoc k l = Some v → (k, v) ∈ l.
Proof.
  induction l as [|[k' v'] l IH]; [done|]. cbn. destruct (str_eqb k k') eqn:E; [apply str_eqb_eq in E as <-; intros [= ->]; by left|].
  intros H. right. by apply IH.
Qed.
Lemma elem_dict_set {A} k (v : A) d x : x ∈ dict_set k v d → x = (k, v) ∨ x ∈ d.
Proof.
  induction d as [|[k' v'] d IH]; cbn; [intros H%list_elem_of_singleton; by left|].
  destruct (str_eqb k k') eqn:E; [apply str_eqb_eq in E as <-|]; intros [->|H]%elem_of_cons; [by left|right; by right|right; by left|].
  destruct (IH H) as [->|]; [by left|right; by right].
Qed.
Lemma length_dict_set {A} k (v : A) d : (length (dict_set k v d) <= S (length d))%nat.
Proof. induction d as [|[k' v'] d IH]; cbn; [lia|]. destruct (str_eqb k k'); cbn; lia. Qed.
Lemma elem_filter {A} f (l : list A) x : x ∈ List.filter f l → x ∈ l ∧ f x = true.
Proof. rewrite !list_elem_of_In. apply filter_In. Qed.
Lemma elem_drop {A} n (l : list A) x : x ∈ drop n l → x ∈ l.
Proof. intros [i Hi]%list_elem_of_lookup. rewrite lookup_drop in Hi. by eapply list_elem_of_lookup_2. Qed.
Definition confirms (r : import_reply) : bool := match r with Applied (Some _) _ _ _ => true | _ => false end.
(** Any other answer leaves the table as it is. *)
Lemma inv_other seen h pend v r t :
  import_inv seen h pend → confirms r = false → import_inv (seen ++ t) (h ++ [(v, r)]) pend.
Proof.
  intros [H1 H2 H3 H4 H5] Hr.
  assert (∀ u, confirmed (h ++ [(v, r)]) u → confirmed h u) as Hc.
  { intros u [H|(v' & pl & m & o & [= _ ->])]%confirmed_snoc; done. }
  constructor; [done|..].
  - intros u p Hin. destruct (H2 u p Hin) as [Hp Hn]. split; [by apply previewed_snoc|]. intros H. by apply Hn, Hc.
  - intros u p Hin. apply elem_of_app. left. by eapply H3.
  - intros u H. apply elem_of_app. left. by apply H4, Hc.
  - apply rightful_snoc; [done|]. unfold rightly. destruct r as [| | | | | |[]]; done.
Qed.
Lemma inv_put seen h pend v t m rows plan problem :
  import_inv seen h pend → t ∉ seen →
  import_inv (seen ++ [t]) (h ++ [(v, Preview t m rows plan problem)]) (_pending_put (now v) t (_who (who v)) plan pend).
Proof.
  intros Hi Ht. pose proof (inv_other seen h pend v (Preview t m rows plan problem) [t] Hi eq_refl) as [H1 H2 H3 H4 H5].
  assert (∀ u p, (u, p) ∈ _pending_put (now v) t (_who (who v)) plan pend →
            (u, p) = (t, mkPending (now v) (_who (who v)) plan) ∨ (u, p) ∈ pend) as Hin.
  { intros u p [H|H]%elem_dict_set; [by left|right]. unfold make_room in H. by apply elem_drop, elem_filter in H as [H _]. }
  constructor; [| | |done|done].
  - unfold _pending_put. etransitivity; [apply length_dict_set|]. unfold make_room. rewrite length_drop. lia.
  - intros u p [[= -> ->]|H]%Hin; [|by apply H2]. split.
    + exists v, m, rows, problem. split; [|done]. apply elem_of_app. right. by left.
    + intros [H|(v' & pl & m' & o & [=])]%confirmed_snoc. apply Ht. by eapply ii_confirmed.
  - intros u p [[= -> ->]|H]%Hin; [apply elem_of_app; right; by left|by eapply H3].
Qed.
Lemma inv_confirm seen h pend v t p mode o :
  import_inv seen h pend → _pending_get (now v) t (_who (who v)) pend = Some p →
  import_inv (seen ++ []) (h ++ [(v, Applied (Some t) (plan_of p) mode o)]) (pending_pop t pend).
Proof.
  intros [H1 H2 H3 H4 H5] Hg. unfold _pending_get in Hg. destruct (assoc t pend) as [q|] eqn:Ea; [|done]. apply assoc_elem in Ea.
  destruct (negb (py_eq (by_user q) (_who (who v))) || expired (now v) q) eqn:Eu; [done|]. injection Hg as ->.
  apply orb_false_iff in Eu as [Eu Ex]. apply negb_false_iff in Eu. unfold expired in Ex. apply Z.ltb_ge in Ex.
  destruct (H2 _ _ Ea) as [Hp Hn]. rewrite app_nil_r. constructor.
  - unfold pending_pop. etransitivity; [|exact H1]. clear. induction pend as [|x l IH]; cbn; [lia|]. destruct (negb _); cbn; lia.
  - intros u q [Hin Hne]%elem_filter. cbn in Hne. destruct (H2 u q Hin) as [Hq Hc]. split; [by apply previewed_snoc|].
    intros [H|(v' & pl & m' & o' & [= _ <- _ _ _])]%confirmed_snoc; [done|]. by rewrite str_eqb_refl in Hne.
  - intros u q [Hin _]%elem_filter. by eapply H3.
  - intros u [H|(v' & pl & m' & o' & [= _ <- _ _ _])]%confirmed_snoc; [by apply H4|by eapply H3].
  - apply rightful_snoc; [done|]. cbn. split; [done|]. by exists p.
Qed.

Section imports.
Context (word : Z → bool) (repr : pyval → pystr) (isfile : pystr → bool) (e : env).
Context (classic : pystr → res (list pyval * list pystr * string)).
#[local] Abbreviation serve := (serve_import word repr isfile e classic).
Lemma serve_import_inv seen h v s pend :
  import_inv seen h pend → Forall (λ t, t ∉ seen) (upload_tokens [v]) →
  let '(r, (_, pend')) := serve v (s, pend) in import_inv (seen ++ upload_tokens [v]) (h ++ [(v, r)]) pend'.
Proof.
  intros Hi Ht. unfold serve_import, upload_tokens in *. cbn [omap list_omap] in *. destruct (request v) as [raw t f|f].
  - unfold config_import, as_operator. destruct (require_role _ _); [by apply inv_other|]. destruct (csrf_ok _); [|by apply inv_other].
    destruct (parse_mappings_file _ _ _ _ _) as [plan|x]; [|destruct (config_error x); by apply inv_other].
    destruct (str_eqb (field f "step" "") _).
    + destruct (negb _); [by apply inv_other|]. destruct (preview _ _ _ _ _ _ _) as [[rows problem]|x]; [|by apply inv_other].
      apply inv_put; [done|]. by apply Forall_cons in Ht as [? _].
    + unfold _apply_import. destruct (import_mappings _ _ _ _ _ _ _) as [o s']. by apply inv_other.
  - unfold config_import_apply, as_operator. destruct (require_role _ _); [by apply inv_other|]. destruct (csrf_ok _); [|by apply inv_other].
    destruct (_pending_get _ _ _ _) as [p|] eqn:Eg; [|by apply inv_other]. destruct (negb _); [by apply inv_other|].
    unfold _apply_import. destruct (import_mappings _ _ _ _ _ _ _) as [o s']. by apply inv_confirm.
Qed.
Lemma serve_imports_inv vs : ∀ seen h s pend,
  import_inv seen h pend → NoDup (upload_tokens vs) → (∀ t, t ∈ upload_tokens vs → t ∉ seen) →
  let '(h', (_, pend')) := serve_imports word repr isfile e classic vs (s, pend) in
  import_inv (seen ++ upload_tokens vs) (h ++ h') pend'.
Proof.
  induction vs as [|v vs IH]; intros seen h s pend Hi Hnd Ht; [cbn; by rewrite !app_nil_r|].
  change (upload_tokens (v :: vs)) with (upload_tokens ([v] ++ vs)) in *. unfold upload_tokens in *. rewrite omap_app in *. fold (upload_tokens [v]) (upload_tokens vs) in *.
  apply NoDup_app in Hnd as (_ & Hd & Hnd). cbn [serve_imports]. pose proof (serve_import_inv seen h v s pend Hi) as H1.
  destruct (serve v (s, pend)) as [r [s1 pend1]]. specialize (IH (seen ++ upload_tokens [v]) (h ++ [(v, r)]) s1 pend1).
  destruct (serve_imports _ _ _ _ _ vs (s1, pend1)) as [h' [s2 pend2]]. rewrite <- !app_assoc in IH. cbn [app] in IH. apply IH.
  - apply H1, Forall_forall. intros t Hin. apply Ht, elem_of_app. by left.
  - done.
  - intros t Hin [Hs|Hs]%elem_of_app; [by apply (Ht t); [apply elem_of_app; right|]|by apply (Hd t)].
Qed.
(** C37: an import does what was previewed: whatever requests come from whomever and whenever, a confirmed import applies exactly the
    plan that was shown under its token, to the same user, at most 900 seconds before, and a plan is applied at
    most once; at most 20 plans wait at any time. *)
Theorem import_as_previewed vs s :
  NoDup (upload_tokens vs) →
  let '(h, (_, pend)) := serve_imports word repr isfile e classic vs (s, []) in
  (length pend <= 20)%nat
  ∧ ∀ h1 v token plan mode o h2, h = h1 ++ (v, Applied (Some token) plan mode o) :: h2 →
      (∀ v' plan' mode' o', (v', Applied (Some token) plan' mode' o') ∉ h1)
      ∧ ∃ v' mode' rows problem, (v', Preview token mode' rows plan problem) ∈ h1
          ∧ py_eq (_who (who v')) (_who (who v)) = true ∧ now v - now v' <= 900.
Proof.
  intros Hnd. assert (import_inv [] [] []) as Hi.
  { constructor; [cbn; lia|by intros ? ? ?%elem_of_nil|by intros ? ? ?%elem_of_nil|by intros ? (? & ? & ? & ? & ?%elem_of_nil)|].
    intros h1 x h2 Hx. by destruct h1. }
  pose proof (serve_imports_inv vs [] [] s [] Hi Hnd) as H. destruct (serve_imports _ _ _ _ _ vs (s, [])) as [h [s' pend]].
  destruct H as [H1 _ _ _ H5]; [by intros t _ ?%elem_of_nil|]. split; [done|]. intros h1 v t plan mode o h2 E.
  destruct (H5 h1 _ h2 E) as (Hn & p & (v' & m & rows & pr & Hin & Hnow & Hwho) & <- & Ht & Hu). split.
  - intros v1 pl m1 o1 H. apply Hn. by exists v1, pl, m1, o1.
  - exists v', m, rows, pr. rewrite Hwho, Hnow. done.
Qed.

(** ** An export imports again *)
Lemma parse_items_loaded ms : ∀ i, Forall (loaded word repr) ms → parse_items word repr (e_fresh e) i (mapping_to_dict <$> ms) = Ok ms.
Proof.
  induction ms as [|m ms IH]; intros i Hl; [done|]. apply Forall_cons in Hl as [Hm Hl]. cbn [fmap list_fmap parse_items].
  unfold loaded, copy in Hm. assert (∃ d, mapping_to_dict m = VDict d) as [d Hd] by (by eexists). rewrite Hd. cbn beta iota. rewrite <- Hd, Hm. cbn [mbind res_bind].
  by rewrite IH.
Qed.
(** What an export holds is what importing it plans: exactly the same mappings. *)
Theorem export_imports c u text :
  Forall (loaded word repr) (mappings c) → plain (export_doc c) = true → config_export u c = inr (Ok text) → Forall is_cp text →
  parse_mappings_file word repr classic (e_fresh e) (text ≫= utf8_char) = Ok (mkPlan "ser2net export" (mappings c) []).
Proof.
  intros Hl Hp Ht Hcp. unfold config_export in Ht. destruct (require_role u _); [done|]. unfold json_dumps in Ht.
  destruct (serializable _); [|done]. assert (dumps exported 0 (export_doc c) = text) as Hx by (by injection Ht). clear Ht. rename Hx into Ht.
  assert (∃ r, text = 123 :: r) as [r Hr] by (rewrite <- Ht; by eexists).
  assert (decode_utf8_sig (text ≫= utf8_char) = Some text) as Hd.
  { assert (∀ t r, t = 123 :: r → decode_utf8_sig (t ≫= utf8_char) = utf8_decode_gen Strict (t ≫= utf8_char)) as Hsig by (intros ? ? ->; done).
    by rewrite (Hsig _ _ Hr), utf8_decode_text. }
  assert (starts_with (lstrip text) (str "{") = true) as Hs by by rewrite Hr.
  unfold parse_mappings_file. rewrite Hd, Hs. cbn [orb negb]. rewrite <- Ht, json_roundtrip by done. unfold export_doc at 1. cbv iota beta.
  change (get _ "mappings" VNone) with (VList (mapping_to_dict <$> mappings c)). cbv iota. by rewrite parse_items_loaded.
Qed.
End imports.

(** ** The audit viewer *)
Record audit_query := mkQuery { aq_q : pystr; aq_action : pystr; aq_user : pystr; aq_page : option pystr }.
Definition entry_fields (r : entry) : list pystr := [e_time r; e_ip r; e_action r; e_detail r; e_user r].
Definition _audit_records (q : audit_query) (records : list entry) : list entry :=
  let needle := lower (strip (aq_q q)) in
  let by_action := match strip (aq_action q) with [] => records | a => List.filter (λ r, str_eqb (e_action r) a) records end in
  let of_user := match strip (aq_user q) with [] => by_action | u => List.filter (λ r, str_eqb (e_user r) u) by_action end in
  match strip (aq_q q) with [] => of_user | _ => List.filter (λ r, contains needle (lower (join [9] (entry_fields r)))) of_user end.
Definition choices (l : list pystr) : list pystr := sort_by str_leb (elements (list_to_set l : gset pystr)).
Definition AUDIT_PAGE : Z := 100.
Definition page_count (records : list entry) : Z := Z.max 1 (- ((- zlen records) / AUDIT_PAGE)).
Definition page_shown (q : audit_query) (records : list entry) : Z :=
  let page := match int_of_text (default (str "1") (aq_page q)) with Some p => Z.max 1 p | None => 1 end in
  Z.min page (page_count records).
Definition page_rows (page : Z) (records : list entry) : list entry := slice ((page - 1) * AUDIT_PAGE) (page * AUDIT_PAGE) records.
Record audit_view := mkAuditView { av_rows : list entry; av_total : Z; av_page : Z; av_pages : Z; av_actions : list pystr; av_users : list pystr }.
Definition audit_page (u : option User) (q : audit_query) (all : list entry) : Z + audit_view :=
  match require_role u "admin" with
  | Some code => inl code
  | None =>
      let records := _audit_records q all in
      let page := page_shown q records in
      inr (mkAuditView (page_rows page records) (zlen records) page (page_count records) (choices (e_action <$> all))
             (choices (List.filter (λ u, match u with [] => false | _ => true end) (e_user <$> all))))
  end.

(** *** The CSV *)
Definition _csv_cell (value : pystr) : pystr :=
  match value with c :: _ => if existsb (Z.eqb c) ([9; 13] ++ str "=+-@") then 39 :: value else value | [] => value end.
(** [csv.writer]: a field with a comma, a quote or a line end is put between quotes, its quotes doubled. *)
Definition csv_special (c : Z) : bool := existsb (Z.eqb c) [10; 13; 34; 44].
Definition csv_field (f : pystr) : pystr :=
  if existsb csv_special f then [34] ++ (f ≫= λ c, if c =? 34 then [34; 34] else [c]) ++ [34] else f.
Definition csv_row (fs : list pystr) : pystr := join [44] (csv_field <$> fs) ++ [13; 10].
Definition csv_columns (r : entry) : list pystr := _csv_cell <$> [e_time r; e_ip r; e_user r; e_action r; e_detail r].
Definition csv_header : list pystr := str <$> ["time"; "ip"; "user"; "action"; "detail"]%string.
Definition audit_csv (u : option User) (q : audit_query) (all : list entry) : Z + pystr :=
  match require_role u "admin" with
  | Some code => inl code
  | None => inr (csv_row csv_header ++ (_audit_records q all ≫= λ r, csv_row (csv_columns r)))
  end.
(** How a CSV file is read (RFC 4180): the rows so far are [rows], newest first, the current one [row], its field [cur]. *)
Inductive csv_state := FieldStart | Plain | Quoted | QuoteSeen.
Fixpoint csv_read (st : csv_state) (cur : pystr) (row : list pystr) (s : pystr) : list (list pystr) :=
  match s with
  | [] => match st, row with FieldStart, [] => [] | _, _ => [row ++ [cur]] end
  | c :: s =>
      match st with
      | Quoted => if c =? 34 then csv_read QuoteSeen cur row s else csv_read Quoted (cur ++ [c]) row s
      | _ =>
          if c =? 44 then csv_read FieldStart [] (row ++ [cur]) s
          else if c =? 13 then
            match s with 10 :: s' => (row ++ [cur]) :: csv_read FieldStart [] [] s' | _ => (row ++ [cur]) :: csv_read FieldStart [] [] s end
          else if c =? 34 then
            match st with
            | FieldStart => csv_read Quoted [] row s
            | QuoteSeen => csv_read Quoted (cur ++ [34]) row s
            | _ => csv_read Plain (cur ++ [c]) row s
            end
          else csv_read Plain (cur ++ [c]) row s
      end
  end.
Definition field_end (rest : pystr) : Prop := match rest with c :: _ => c = 44 ∨ c = 13 | [] => False end.
Lemma read_plain f cur row rest st :
  existsb csv_special f = false → st = Plain ∨ st = FieldStart ∧ cur = [] → field_end rest →
  csv_read st cur row (f ++ rest) = csv_read (match f with [] => st | _ => Plain end) (cur ++ f) row rest.
Proof.
  revert cur st. induction f as [|c f IH]; intros cur st Hf Hst Hr; [by rewrite app_nil_r|].
  cbn in Hf. apply orb_false_iff in Hf as [Hc Hf]. unfold csv_special in Hc. cbn in Hc. rewrite !orb_false_iff in Hc. destruct Hc as (H1 & H2 & H3 & H4 & _).
  assert (csv_read st cur row (c :: f ++ rest) = csv_read Plain (cur ++ [c]) row (f ++ rest)) as Hs.
  { cbn. rewrite H2, H3, H4. by destruct Hst as [->|[-> _]]. }
  cbn [app]. rewrite Hs, IH by (try done; by left). rewrite <- app_assoc. by destruct f.
Qed.
Lemma read_quoted f cur row rest :
  csv_read Quoted cur row ((f ≫= λ c, if c =? 34 then [34; 34] else [c]) ++ 34 :: rest) = csv_read QuoteSeen (cur ++ f) row rest.
Proof.
  revert cur. induction f as [|c f IH]; intros cur; [cbn; by rewrite app_nil_r|].
  cbn [mbind list_bind]. destruct (Z.eqb_spec c 34) as [->|Hc].
  - cbn. rewrite (IH (cur ++ [34])). by rewrite <- app_assoc.
  - cbn. rewrite (proj2 (Z.eqb_neq c 34)) by done. rewrite (IH (cur ++ [c])). by rewrite <- app_assoc.
Qed.
(** A field that was written is read as it was, up to the comma or the line end after it. *)
Lemma read_field f row rest :
  csv_read FieldStart [] row (csv_field f ++ 44 :: rest) = csv_read FieldStart [] (row ++ [f]) rest
  ∧ csv_read FieldStart [] row (csv_field f ++ 13 :: 10 :: rest) = (row ++ [f]) :: csv_read FieldStart [] [] rest.
Proof.
  unfold csv_field. destruct (existsb csv_special f) eqn:E.
  - rewrite <- !app_assoc. cbn [app]. split; cbn [csv_read]; rewrite read_quoted; done.
  - rewrite !(read_plain f [] row) by (cbn; auto). split; by destruct f.
Qed.
Lemma read_fields fs : ∀ row rest, fs ≠ [] →
  csv_read FieldStart [] row (csv_row fs ++ rest) = (row ++ fs) :: csv_read FieldStart [] [] rest.
Proof.
  induction fs as [|f fs IH]; intros row rest Hne; [done|]. destruct fs as [|g fs].
  - unfold csv_row. cbn. rewrite ?app_nil_r, <- app_assoc. apply read_field.
  - assert (csv_row (f :: g :: fs) = csv_field f ++ 44 :: csv_row (g :: fs)) as ->.
    { unfold csv_row. cbn. rewrite <- ?app_assoc. cbn. by rewrite <- ?app_assoc. }
    rewrite <- app_assoc. cbn [app]. rewrite (proj1 (read_field f row _)), IH by done. by rewrite <- app_assoc.
Qed.
(** Reading the CSV gives one row of five cells per record, in order, whatever the records hold; a cell is the field,
    and never begins like a formula. *)
Theorem audit_csv_rows u q all text :
  audit_csv u q all = inr text →
  csv_read FieldStart [] [] text = csv_header :: (csv_columns <$> _audit_records q all)
  ∧ Forall (Forall (λ cell, ∀ c s, cell = c :: s → c ∉ [9; 13] ++ str "=+-@")) (csv_columns <$> _audit_records q all).
Proof.
  unfold audit_csv. destruct (require_role u _); [done|]. intros H. apply (inj inr) in H as <-. split.
  - rewrite read_fields by done. f_equal. induction (_audit_records q all) as [|r l IH]; [done|].
    cbn [mbind list_bind fmap list_fmap]. rewrite read_fields by done. by f_equal.
  - apply Forall_fmap, Forall_true. intros r. apply Forall_fmap, Forall_true. intros v c s. cbn. unfold _csv_cell. destruct v as [|x v]; [done|].
    destruct (existsb (Z.eqb x) _) eqn:E; intros [= <- <-].
    + rewrite list_elem_of_In. vm_compute. intuition discriminate.
    + intros H. rewrite <- not_true_iff_false in E. apply E, existsb_exists. exists x. split; [by apply list_elem_of_In|apply Z.eqb_refl].
Qed.
(** The pages, one after the other, show every record that was looked for, once. *)
Lemma pages_cover (records : list entry) :
  concat ((λ i, page_rows (Z.of_nat i + 1) records) <$> seq 0 (Z.to_nat (page_count records))) = records.
Proof.
  assert (∀ n, concat ((λ i, page_rows (Z.of_nat i + 1) records) <$> seq 0 n) = take (100 * n) records) as H.
  { induction n as [|n IH]; [done|]. rewrite seq_S, fmap_app, concat_app, IH. cbn [fmap list_fmap concat Nat.add]. rewrite app_nil_r.
    unfold page_rows, slice, AUDIT_PAGE. replace (Z.to_nat ((Z.of_nat n + 1 - 1) * 100)) with (100 * n)%nat by lia.
    replace (Z.to_nat ((Z.of_nat n + 1) * 100 - (Z.of_nat n + 1 - 1) * 100)) with 100%nat by lia.
    rewrite take_take_drop. f_equal. lia. }
  rewrite H. apply take_ge. unfold page_count, AUDIT_PAGE, zlen. pose proof (Z.div_mod (- Z.of_nat (length records)) 100 ltac:(lia)).
  pose proof (Z.mod_pos_bound (- Z.of_nat (length records)) 100 ltac:(lia)). lia.
Qed.
Lemma page_shown_ok q records : 1 <= page_shown q records <= page_count records.
Proof. unfold page_shown, page_count. destruct (int_of_text _); lia. Qed.

(** ** Backups and the certificate *)
Record backup_info := mkBackup { bk_name : pystr; bk_time : pystr; bk_size : Z; bk_mappings : pyval; bk_users : pyval }.
Definition stamp_text (name : pystr) : pystr :=
  let s := slice 7 22 name in
  slice 0 4 s ++ str "-" ++ slice 4 6 s ++ str "-" ++ slice 6 8 s ++ str " " ++ slice 9 11 s ++ str ":" ++ slice 11 13 s ++ str ":" ++ slice 13 15 s.
(** [len(doc.get(k) or [])] *)
Definition count_of (d : list (pystr * pyval)) (k : string) : res Z :=
  match or_else (get d k VNone) (VList []) with
  | VList l => Ok (zlen l)
  | VDict d => Ok (zlen d)
  | VStr s => Ok (zlen s)
  | VBytes s => Ok (zlen s)
  | _ => raise TypeError "object has no len()"
  end.
Definition backup_counts (text : pystr) : res (pyval * pyval) :=
  match json_loads text with
  | Some (VDict d) => m ← count_of d "mappings"; u ← count_of d "users"; Ok (VInt m, VInt u)
  | _ => Ok (VNone, VNone)
  end.
Definition backup_row (size : pystr → Z) (s : fs) (name : pystr) : res backup_info :=
  match read_backup name s with
  | Raise _ => Ok (mkBackup name (stamp_text name) 0 VNone VNone)
  | Ok text => '(m, u) ← backup_counts text; Ok (mkBackup name (stamp_text name) (size text) m u)
  end.
Definition backups (size : pystr → Z) (s : fs) : res (list backup_info) := mapr (backup_row size s) (backup_names s).
Definition backup_download (u : option User) (name : pystr) (s : fs) : Z + pystr :=
  match require_role u "admin" with
  | Some code => inl code
  | None => match read_backup name s with Ok text => inr text | Raise _ => inl 404 end
  end.
Section certificate.
Context (repr : pyval → pystr) (isfile : pystr → bool) (e : env).
(** [made]: what generating the certificate gave; [dir] is the directory of the pair. *)
Definition settings_tls_generate (made : res unit) (dir : pystr) (w : caller) (s : state) : reply * state :=
  as_admin w s
    (match made with
     | Raise x => (Problem "Could not generate a certificate: {0}", s)
     | Ok _ =>
         let a := admin_ui (config s) in
         let path := λ n, VStr (dir ++ str "/" ++ str n) in
         save_or_crash repr isfile e
           (with_admin (mkAdmin (ui_bind_ip a) (ui_port a) (path "cert.pem"%string) (path "key.pem"%string) (require_login a) (anonymous_role a) (language a))
              (config s)) s
     end).
End certificate.

(** ** Concretely *)
Definition demo_admin : caller := mkCaller (Some (mkUser (vstr "ann") (vstr "x") (vstr "admin") (VInt 1) (vstr "local"))) true.
Definition demo_bob : caller := mkCaller (Some (mkUser (vstr "bob") (vstr "y") (vstr "operator") (VInt 1) (vstr "local"))) true.
Definition demo_export : bytes := str (String.String (Ascii.ascii_of_nat 123) "'mappings':[{'id':'m','name':'m','serial':{'port':'/dev/ttyS7'},'network':{'port':4007}}]}"%string).
Definition demo_upload : bytes := (λ c, if c =? 39 then 34 else c) <$> demo_export.
Definition no_classic (_ : pystr) : res (list pyval * list pystr * string) := raise ConfigError "not a classic file".
Definition step_preview : form := [(str "step", str "preview"); (str "mode", str "merge")].
Definition confirm_of (t : string) : import_request := Confirm [(str "token", str t); (str "mode", str "merge")].
Definition demo_visits : list visit :=
  [mkVisit 0 demo_admin (Upload demo_upload (str "t1") step_preview); mkVisit 5 demo_bob (confirm_of "t1");
   mkVisit 9 demo_admin (confirm_of "t1"); mkVisit 10 demo_admin (confirm_of "t1")].
Abbreviation demo_serve := (serve_imports ascii_word no_repr (λ _, true) demo_env no_classic).
Definition reply_kind (r : import_reply) : Z :=
  match r with Refusal c => c | Failed _ => 1 | UnknownMode => 2 | Expired => 3 | Crashed _ => 4 | Preview _ _ _ _ _ => 5 | Applied _ _ _ _ => 6 end.
(** Bob cannot confirm what Ann was shown; Ann can, once. *)
Lemma import_as_previewed_witness :
  (reply_kind <$> (demo_serve demo_visits (first_state, [])).1.*2) = [5; 3; 6; 3]
  ∧ let '(h, (_, pend)) := demo_serve demo_visits (first_state, []) in
    (length pend <= 20)%nat
    ∧ ∀ h1 v token plan mode o h2, h = h1 ++ (v, Applied (Some token) plan mode o) :: h2 →
        (∀ v' plan' mode' o', (v', Applied (Some token) plan' mode' o') ∉ h1)
        ∧ ∃ v' mode' rows problem, (v', Preview token mode' rows plan problem) ∈ h1
            ∧ py_eq (_who (who v')) (_who (who v)) = true ∧ now v - now v' <= 900.
Proof.
  split; [vm_compute; reflexivity|].
  apply (import_as_previewed ascii_word no_repr (λ _, true) demo_env no_classic demo_visits first_state). apply NoDup_singleton.
Defined.
(** A preview that waits longer than a quarter of an hour is gone, and the configuration is as it was. *)
Example preview_expires :
  let '(h, (s, _)) := demo_serve [mkVisit 0 demo_admin (Upload demo_upload (str "t1") step_preview); mkVisit 901 demo_admin (confirm_of "t1")]
                        (first_state, []) in
  (reply_kind <$> h.*2) = [5; 3] ∧ s = first_state.
Proof. vm_compute. done. Qed.
(** The twenty-first preview pushes out the oldest, though it is not a minute old. *)
Example oldest_preview_lost :
  let up i := mkVisit (Z.of_nat i) demo_admin (Upload demo_upload (str "t" ++ str_of_Z (Z.of_nat i)) step_preview) in
  (reply_kind <$> (demo_serve ((up <$> seq 0 21) ++ [mkVisit 30 demo_admin (confirm_of "t0")]) (first_state, [])).1.*2)
  = replicate 21 5 ++ [3].
Proof. vm_compute. done. Qed.
(** The audit's CSV, and a cell that would have been a formula. *)
Example csv_formula :
  csv_row (csv_columns (mkEntry (str "12:00") (str "::1") (str "login") (str "=1+1, 'x'") (str "ann")))
  = str "12:00,::1,ann,login,"%string ++ [34] ++ str "'=1+1, 'x'"%string ++ [34; 13; 10].
Proof. vm_compute. done. Qed.
