(* ===== verification/PeerHttp.v ===== *)
(** * Calls between nodes (app/engine/cluster.py: get_peer, post_peer; app/web/routes/cluster.py)

    What leaves a node for another one, as text: the URL, the headers and the form, and what the other node makes of
    it. [urlopen] is the call itself: the body it got, or [None] when it raised anything. *)
From S2P Require Import Prelude PyFloat PyStr PyVal IpAddr PyNum Json JsonOut Base64 Config AppConfig Auth Supervisor Importer Forms Ops Accounts Cluster.
#[local] Open Scope Z_scope.

(** ** Forms as text: [urllib.parse.urlencode] *)
Definition quote_safe (b : Z) : bool := in_range 48 57 b || in_range 65 90 b || in_range 97 122 b || existsb (Z.eqb b) (str "_.-~").
Definition hex_upper (d : Z) : Z := if d <? 10 then 48 + d else 55 + d.
Definition quote_byte (b : Z) : bytes :=
  if b =? 32 then [43] else if quote_safe b then [b] else [37; hex_upper (b / 16); hex_upper (b mod 16)].
Definition quote_plus (s : pystr) : res bytes := b ← utf8_encode s; Ok (b ≫= quote_byte).
Definition quote_pair (kv : pystr * pystr) : res bytes := k ← quote_plus kv.1; v ← quote_plus kv.2; Ok (k ++ 61 :: v).
Definition urlencode (f : form) : res bytes := ps ← mapr quote_pair f; Ok (join [38] ps).

(** How such a body is read (URL Standard, 5.1): pieces at [&], name and value at the first [=], [+] is a space, [%XX] a byte. *)
Fixpoint percent_decode (s : bytes) : bytes :=
  match s with
  | [] => []
  | c :: r =>
      if c =? 37 then
        match r with
        | a :: b :: r' => match hex_digit a, hex_digit b with
                          | Some x, Some y => x * 16 + y :: percent_decode r'
                          | _, _ => c :: percent_decode r
                          end
        | _ => c :: percent_decode r
        end
      else (if c =? 43 then 32 else c) :: percent_decode r
  end.
Definition read_piece (p : bytes) : pystr := utf8_decode_replace (percent_decode p).
Definition read_pair (p : bytes) : pystr * pystr :=
  match split_first 61 p with Some (k, v) => (read_piece k, read_piece v) | None => (read_piece p, []) end.
Definition form_body (b : bytes) : form := read_pair <$> List.filter (λ p, negb (is_empty p)) (split_on 38 b).

Lemma hex_digit_upper d : 0 <= d < 16 → hex_digit (hex_upper d) = Some d.
Proof. intros Hd. assert (d ∈ seqZ 0 16) as H by (apply elem_of_seqZ; lia). vm_compute in H. set_unfold in H. repeat (destruct H as [->|H]; [done|]). done. Qed.
Lemma decode_quoted b rest : is_bytes b → percent_decode ((b ≫= quote_byte) ++ rest) = b ++ percent_decode rest.
Proof.
  induction b as [|c b IH]; [done|]. intros [Hc Hb]%Forall_cons. cbn [mbind list_bind]. rewrite <- app_assoc. unfold quote_byte at 1.
  unfold is_byte in Hc. destruct (Z.eqb_spec c 32) as [->|H32]; [cbn; f_equal; by apply IH|].
  destruct (quote_safe c) eqn:Es.
  - assert (c ≠ 37 ∧ c ≠ 43) as [H1 H2] by (split; intros ->; done). cbn [app percent_decode].
    rewrite (proj2 (Z.eqb_neq c 37)), (proj2 (Z.eqb_neq c 43)) by done. cbn. f_equal. by apply IH.
  - cbn [app percent_decode]. change (37 =? 37) with true. cbv iota. rewrite !hex_digit_upper by dlia.
    cbn. rewrite IH by done. f_equal. dlia.
Qed.
Lemma quoted_clear b c : is_bytes b → c = 38 ∨ c = 61 → Forall (λ x, x ≠ c) (b ≫= quote_byte).
Proof.
  intros Hb Hc. apply Forall_bind. eapply Forall_impl; [exact Hb|]. unfold is_byte. intros x Hx. unfold compose, quote_byte.
  assert (∀ d, 0 <= d < 16 → hex_upper d ≠ c) as Hx' by (intros d Hd; unfold hex_upper; destruct (Z.ltb_spec d 10); lia).
  destruct (Z.eqb_spec x 32); [constructor; [lia|constructor]|]. destruct (quote_safe x) eqn:Es.
  - constructor; [|constructor]. intros ->. by destruct Hc as [-> | ->].
  - constructor; [lia|]. constructor; [apply Hx'; dlia|]. constructor; [apply Hx'; dlia|constructor].
Qed.
Lemma text_bytes s : Forall is_cp s → is_bytes (s ≫= utf8_char).
Proof. intros H. apply Forall_bind. eapply Forall_impl; [exact H|]. intros c [Hc _]. unfold compose. by apply utf8_char_bytes. Qed.
Lemma quote_text s : Forall is_cp s → quote_plus s = Ok ((s ≫= utf8_char) ≫= quote_byte).
Proof. intros H. unfold quote_plus. by rewrite utf8_encode_text. Qed.
Lemma read_piece_quoted s : Forall is_cp s → read_piece ((s ≫= utf8_char) ≫= quote_byte) = s.
Proof.
  intros H. unfold read_piece. rewrite <- (app_nil_r (_ ≫= quote_byte)), decode_quoted, app_nil_r by by apply text_bytes.
  unfold utf8_decode_replace. by rewrite utf8_decode_text.
Qed.
Lemma split_first_app c a b : Forall (λ x, x ≠ c) a → split_first c (a ++ c :: b) = Some (a, b).
Proof. induction 1 as [|x a Hx _ IH]; cbn; [by rewrite Z.eqb_refl|]. by rewrite (proj2 (Z.eqb_neq x c)), IH. Qed.
Definition text_pair (kv : pystr * pystr) : Prop := Forall is_cp kv.1 ∧ Forall is_cp kv.2.
Lemma pair_text kv : text_pair kv →
  ∃ p, quote_pair kv = Ok p ∧ read_pair p = kv ∧ p ≠ [] ∧ Forall (λ x, x ≠ 38) p.
Proof.
  intros [Hk Hv]. unfold quote_pair. rewrite !quote_text by done. cbn [mbind res_bind]. eexists. split; [done|].
  pose proof (text_bytes _ Hk) as Bk. pose proof (text_bytes _ Hv) as Bv. split_and!.
  - unfold read_pair. rewrite split_first_app by (apply quoted_clear; [done|by right]). rewrite !read_piece_quoted by done. by destruct kv.
  - by destruct (_ ≫= quote_byte).
  - apply Forall_app. split; [apply quoted_clear; [done|by left]|]. constructor; [done|]. apply quoted_clear; [done|by left].
Qed.
(** A posted form is read as it was: whatever its names and values hold, and in its order. *)
Lemma posted_form f : Forall text_pair f → ∃ body, urlencode f = Ok body ∧ form_body body = f.
Proof.
  intros Hf. unfold urlencode.
  assert (∃ ps, mapr quote_pair f = Ok ps ∧ read_pair <$> ps = f ∧ Forall (λ p, p ≠ [] ∧ Forall (λ x, x ≠ 38) p) ps) as (ps & -> & Hr & Hp).
  { induction Hf as [|kv f Hkv _ (ps & E & Hr & Hp)]; [by exists []|]. destruct (pair_text kv Hkv) as (p & Ep & Hrp & Hne & Hc).
    exists (p :: ps). cbn. rewrite Ep. cbn. rewrite E. cbn. rewrite Hrp, Hr. split_and!; [done..|]. by constructor. }
  cbn [mbind res_bind]. eexists. split; [done|]. unfold form_body. destruct ps as [|p ps]; [done|].
  rewrite split_on_join; [|done|eapply Forall_impl; [exact Hp|by intros ? []]]. rewrite <- Hr. f_equal.
  clear Hr. induction Hp as [|q qs [Hq _] _ IH]; [done|]. cbn [List.filter]. destruct q; [done|]. cbn [is_empty negb]. by rewrite IH.
Qed.

(** ** The calls *)
Record http_request := mkHttp { http_url : pystr; http_headers : list (string * pyval); http_data : option bytes; http_timeout : Z }.
Section calls.
Context (urlopen : http_request → option bytes) (c : AppConfig).
Definition peer_url (scheme host : pystr) (port : Z) (path : pystr) : pystr :=
  scheme ++ str "://" ++ host ++ str ":" ++ str_of_Z port ++ path.
(** [json.loads(r.read().decode())]; anything that goes wrong is [None]. *)
Definition json_answer (body : option bytes) : option pyval :=
  match body with
  | Some b => match utf8_decode b with Ok s => json_loads s | Raise _ => None end
  | None => None
  end.
Definition get_request (url : pystr) (timeout : Z) : http_request := mkHttp url [("X-Cluster-Key"%string, cl_key (cluster c))] None timeout.
Definition post_request (url : pystr) (data : bytes) (timeout : Z) : http_request :=
  mkHttp url [("X-Cluster-Key"%string, cl_key (cluster c)); ("Content-Type"%string, vstr "application/x-www-form-urlencoded")] (Some data) timeout.
Definition _http_get_json (url : pystr) (timeout : Z) : option pyval := json_answer (urlopen (get_request url timeout)).
Definition _http_post_json (url : pystr) (data : bytes) (timeout : Z) : option pyval := json_answer (urlopen (post_request url data timeout)).
(** Timeouts in milliseconds. *)
Definition get_peer (scheme host : pystr) (port : Z) (path : pystr) (timeout : Z) : option pyval :=
  _http_get_json (peer_url scheme host port path) timeout.
Definition post_peer (scheme host : pystr) (port : Z) (path : pystr) (fields : form) (timeout : Z) : res (option pyval) :=
  data ← urlencode fields; Ok (_http_post_json (peer_url scheme host port path) data timeout).
Definition fetch_peer (t : target) : option pyval := get_peer (t_scheme t) (t_ip t) (t_port t) (str "/api/cluster/local") 2500.
Definition control_fields (mid action : pystr) : form := [(str "mapping_id", mid); (str "action", action)].
Definition control_peer (scheme host : pystr) (port : Z) (mid action : pystr) : res (option pyval) :=
  post_peer scheme host port (str "/api/cluster/control") (control_fields mid action) 4000.
End calls.

(** ** Where a URL leads (RFC 3986): scheme, authority and the rest *)
Definition url_mark (c : Z) : bool := existsb (Z.eqb c) (str "/?#").
Definition url_parts (url : pystr) : option (pystr * pystr * pystr) :=
  match split_first 58 url with
  | Some (scheme, 47 :: 47 :: rest) => let '(a, r) := span_by (λ c, negb (url_mark c)) rest in Some (scheme, a, r)
  | _ => None
  end.
Definition plain_host (h : pystr) : Prop := Forall (λ c, negb (url_mark c) = true) h.
Definition web_scheme (s : pystr) : bool := existsb (str_eqb s) (str <$> ["http"; "https"]%string).
Lemma digits_plain z : plain_host (str_of_Z z).
Proof.
  assert (∀ p, plain_host (str (pretty (p : positive)))) as Hp.
  { intros p. destruct (str_pretty_pos p) as (ds & -> & H & _). unfold digit_chars. apply Forall_fmap.
    eapply Forall_impl; [exact H|]. unfold is_dec. intros d Hd. unfold compose. apply negb_true_iff, not_true_iff_false. intros (x & Hin & Hx%Z.eqb_eq)%existsb_exists. vm_compute in Hin. lia. }
  destruct z as [|p|p]; [by repeat constructor|apply Hp|].
  unfold str_of_Z. change (pretty (Z.neg p)) with ("-" +:+ pretty p). rewrite str_app.
  apply Forall_app. split; [by repeat constructor|apply Hp].
Qed.
Lemma peer_url_parts scheme host port path :
  web_scheme scheme = true → plain_host host →
  url_parts (peer_url scheme host port (47 :: path)) = Some (scheme, host ++ str ":" ++ str_of_Z port, 47 :: path).
Proof.
  intros Hs Hh. unfold url_parts, peer_url. change (str "://") with (58 :: [47; 47]). cbn [app].
  rewrite split_first_app; [|apply existsb_exists in Hs as (s & Hin & ->%str_eqb_eq); vm_compute in Hin; destruct Hin as [<-|[<-|[]]]; by repeat constructor].
  assert (host ++ str ":" ++ str_of_Z port ++ 47 :: path = (host ++ str ":" ++ str_of_Z port) ++ 47 :: path) as -> by by rewrite <- !app_assoc.
  rewrite span_by_app; [done| |done]. apply Forall_app. split; [done|]. apply Forall_app. split; [by repeat constructor|apply digits_plain].
Qed.

(** ** What the browser's calls send, and what they mean there *)
Section federation.
Context (word : Z → bool) (repr : pyval → pystr) (isfile : pystr → bool) (e : env) (lower_text : pystr → pystr).
Definition request_of (c : AppConfig) (x : peer_call) : res http_request :=
  match x with
  | Control scheme host port mid action =>
      data ← urlencode (control_fields mid action); Ok (post_request c (peer_url scheme host port (str "/api/cluster/control")) data 4000)
  | Load scheme host port mid => Ok (get_request c (peer_url scheme host port (str "/api/cluster/mapping-data?mid=" ++ mid)) 3000)
  | Save scheme host port fields =>
      data ← urlencode fields; Ok (post_request c (peer_url scheme host port (str "/api/cluster/mapping-save")) data 6000)
  end.
(** The routes that change something at the node that gets the request. *)
Definition deliver (r : http_request) (s : state) : option (peer_reply * state) :=
  let header := match http_headers r with (_, VStr k) :: _ => Some k | _ => None end in
  match url_parts (http_url r), http_data r with
  | Some (_, _, path), Some body =>
      if str_eqb path (str "/api/cluster/control") then Some (cluster_control repr isfile e header (form_body body) s)
      else if str_eqb path (str "/api/cluster/mapping-save") then Some (cluster_mapping_save word repr isfile e header (form_body body) s)
      else None
  | _, _ => None
  end.
Definition meant (x : peer_call) : option op :=
  match x with Control _ _ _ mid action => Some (Action mid action) | Save _ _ _ fields => Some (SaveForm fields) | Load _ _ _ _ => None end.
Definition call_scheme (x : peer_call) : pystr := match x with Control s _ _ _ _ | Load s _ _ _ | Save s _ _ _ => s end.
Definition call_texts (x : peer_call) : Prop :=
  match x with Control _ _ _ mid action => Forall is_cp mid ∧ Forall is_cp action ∧ action ∈ ACTIONS | Save _ _ _ fs => Forall text_pair fs | Load _ _ _ _ => True end.
Lemma field_text f k d : Forall text_pair f → Forall is_cp (str d) → Forall is_cp (field f k d).
Proof.
  intros Hf Hd. unfold field, fget. destruct (assoc (str k) f) as [v|] eqn:E; [|done]. apply assoc_in in E.
  by apply (proj1 (Forall_forall _ _) Hf) in E as [_ ?].
Qed.
Lemma key_opens k c : cl_key (cluster c) = VStr k → k ≠ [] → is_ascii k = true → cluster_active (cluster c) = Ok true →
  peer_key_ok (Some k) c = Ok true.
Proof. intros Hk Hne Ha Hact. unfold peer_key_ok. rewrite Hact, Hk. cbn [mbind res_bind]. destruct k; [done|]. by apply compare_digest_refl. Qed.
(** A call, once sent, is at the other node the operation it names. *)
Lemma delivered c x k :
  call_texts x → web_scheme (call_scheme x) = true → plain_host (call_addr x).1 → cl_key (cluster c) = VStr k → k ≠ [] → is_ascii k = true →
  ∀ o, meant x = Some o → ∃ r, request_of c x = Ok r
    ∧ (∃ path, url_parts (http_url r) = Some (call_scheme x, (call_addr x).1 ++ str ":" ++ str_of_Z (call_addr x).2, path))
    ∧ ∀ s, cl_key (cluster (config s)) = VStr k → cluster_active (cluster (config s)) = Ok true →
        deliver r s = Some (let '(y, s') := run word repr isfile e o s in (POutcome y, s')).
Proof.
  intros Ht Hs Hh Hk Hne Ha o Ho. destruct x as [scheme host port mid action|scheme host port mid|scheme host port fs]; [| done |]; injection Ho as <-; cbn in Ht, Hs, Hh; cbn [request_of call_scheme call_addr fst snd].
  - destruct Ht as (Hm & Hac & Hin). destruct (posted_form (control_fields mid action)) as (body & Eb & Hb).
    { repeat constructor; try done; apply (bool_decide_unpack _); vm_compute; exact I. }
    rewrite Eb. eexists. split; [done|]. split; [eexists; by apply peer_url_parts|]. intros s Hks Hact. unfold deliver.
    cbn [http_headers http_url http_data post_request]. rewrite Hk.
    change (str "/api/cluster/control") with (47 :: str "api/cluster/control") at 1. rewrite peer_url_parts by done.
    change (str_eqb (47 :: str "api/cluster/control") (str "/api/cluster/control")) with true. cbv iota. rewrite Hb.
    unfold cluster_control, with_key. rewrite key_opens by done. cbv zeta.
    change (field (control_fields mid action) "action" "") with action. change (field (control_fields mid action) "mapping_id" "") with mid.
    assert (existsb (str_eqb action) ACTIONS = true) as Hex.
    { apply existsb_exists. exists action. split; [by apply list_elem_of_In|apply str_eqb_refl]. }
    rewrite Hex. cbn [negb run]. unfold mapping_action. change (str <$> ["start"; "stop"; "restart"]%string) with ACTIONS. by rewrite Hex.
  - destruct (posted_form fs Ht) as (body & Eb & Hb).
    rewrite Eb. eexists. split; [done|]. split; [eexists; by apply peer_url_parts|]. intros s Hks Hact. unfold deliver.
    cbn [http_headers http_url http_data post_request]. rewrite Hk.
    change (str "/api/cluster/mapping-save") with (47 :: str "api/cluster/mapping-save") at 1. rewrite peer_url_parts by done.
    change (str_eqb (47 :: str "api/cluster/mapping-save") (str "/api/cluster/control")) with false.
    change (str_eqb (47 :: str "api/cluster/mapping-save") (str "/api/cluster/mapping-save")) with true. cbv iota. rewrite Hb.
    unfold cluster_mapping_save, with_key. by rewrite key_opens by done.
Qed.
(** A call comes out of the handlers with what the form holds. *)
Lemma call_of_form u c now f t x t' :
  Forall text_pair f →
  cluster_control_peer lower_text u c now f t = (inr x, t') ∨ cluster_peer_save lower_text u c now f t = (inr x, t') →
  call_texts x ∧ call_scheme x = field f "scheme" "http" ∧ (call_addr x).1 = field f "host" "" ∧ ∃ o, meant x = Some o.
Proof.
  intros Hf H. unfold cluster_control_peer, cluster_peer_save in H. destruct (require_peer_access u); [by destruct H|].
  unfold _peer_from_request in H. destruct (int_of_val (VStr (field f "port" "0"))) as [p|]; [|by destruct H].
  destruct (known_addresses lower_text c now t) as [l t1].
  destruct (existsb (str_eqb (field f "action" "")) ACTIONS) eqn:Ea; cbn [negb] in H;
    destruct (known (field f "host" "") p l); destruct H as [H|H]; try done; injection H as <- _; cbn; split_and!; eauto.
  - apply field_text; [done|constructor].
  - apply field_text; [done|constructor].
  - apply existsb_exists in Ea as (a & Hin & <-%str_eqb_eq). by apply list_elem_of_In.
  - apply Forall_forall. intros kv [Hin _]%list_elem_of_In%filter_In. apply list_elem_of_In in Hin. by apply (proj1 (Forall_forall _ _) Hf).
  - apply Forall_forall. intros kv [Hin _]%list_elem_of_In%filter_In. apply list_elem_of_In in Hin. by apply (proj1 (Forall_forall _ _) Hf).
Qed.
(** C25: remote control is the other node's own. Whatever an operator starts, stops, restarts or saves at
    another node: one request goes out, to the address where a node was heard within twenty seconds or that an admin entered,
    and a node with the same key that gets it does exactly what its own pages would do with the same mapping, action or
    form, character by character. This holds for the schemes the pages send, http and https. *)
Theorem remote_call_exact u c now f t x t' k :
  cluster_control_peer lower_text u c now f t = (inr x, t') ∨ cluster_peer_save lower_text u c now f t = (inr x, t') →
  Forall text_pair f → web_scheme (field f "scheme" "http") = true → plain_host (field f "host" "") →
  cl_key (cluster c) = VStr k → k ≠ [] → is_ascii k = true →
  ∃ o r, meant x = Some o ∧ request_of c x = Ok r ∧ peer_address c now t (call_addr x)
    ∧ (∃ path, url_parts (http_url r) = Some (field f "scheme" "http", (call_addr x).1 ++ str ":" ++ str_of_Z (call_addr x).2, path))
    ∧ ∀ s, cl_key (cluster (config s)) = VStr k → cluster_active (cluster (config s)) = Ok true →
        deliver r s = Some (let '(y, s') := run word repr isfile e o s in (POutcome y, s')).
Proof.
  intros H Hf Hs Hh Hk Hne Ha. destruct (call_of_form u c now f t x t' Hf H) as (Ht & Esch & Ehost & o & Ho).
  destruct (delivered c x k Ht) with (o := o) as (r & Er & Hurl & Hdel); [by rewrite Esch|by rewrite Ehost|done..|].
  exists o, r. split_and!; [done|done| |by rewrite <- Esch|done].
  destruct H as [H|H]; unfold cluster_control_peer, cluster_peer_save in H.
  - destruct (require_peer_access u); [done|]. destruct (int_of_val _); [|done]. destruct (negb _); [done|].
    destruct (_peer_from_request lower_text c now f t) as [[code|[[sch host] p]] t1] eqn:E; [done|]. injection H as <- _.
    by apply (peer_from_request_known lower_text) in E.
  - destruct (require_peer_access u); [done|].
    destruct (_peer_from_request lower_text c now f t) as [[code|[[sch host] p]] t1] eqn:E; [done|]. injection H as <- _.
    by apply (peer_from_request_known lower_text) in E.
Qed.
End federation.

(** ** Answers, and the dashboard of all nodes *)
(** [res.get(k)] of what a peer answered. *)
Definition answer_get (k : string) (r : pyval) : res pyval :=
  match r with VDict d => Ok (get d k VNone) | _ => raise AttributeError "object has no attribute 'get'" end.
(** [if not res or not res.get("ok")]: whether the peer took the command. *)
Definition accepted_by_peer (r : option pyval) : res bool :=
  match r with
  | Some v => if truthy v then ok ← answer_get "ok" v; Ok (truthy ok) else Ok false
  | None => Ok false
  end.
Definition sized (v : pyval) : res Z :=
  match v with
  | VList l => Ok (zlen l) | VDict d => Ok (zlen d) | VStr s => Ok (zlen s) | VBytes b => Ok (zlen b)
  | _ => raise TypeError "object has no len()"
  end.
(** [int(max(0, seconds))]: comparing 0 with a text or a container raises; NaN is not greater than 0. *)
Definition seconds_of (v : pyval) : res Z :=
  match v with
  | VInt z => Ok (Z.max 0 z)
  | VBool b => Ok (Z.b2z b)
  | VFloat f => match fcompare_Z f 0 with Some Gt => py_trunc f | _ => Ok 0 end
  | _ => raise TypeError "'>' not supported between instances"
  end.
Record node := mkNode {
  n_self : bool; n_source : pystr; n_online : bool; n_id : pyval; n_name : pyval; n_ip : pyval; n_port : pyval; n_scheme : pyval;
  n_uptime : pystr; n_version : pyval; n_count : pyval; n_running : pyval; n_mappings : pyval;
}.
Definition source_of (t : target) : pystr := if t_auto t then str "auto" else str "manual".
Definition address_name (t : target) : pystr := t_ip t ++ str ":" ++ str_of_Z (t_port t).
Definition target_id (t : target) : pyval := match t_auto t with Some p => VStr (p_id p) | None => vstr "" end.
Definition offline (t : target) : node :=
  mkNode false (source_of t) false (target_id t) (VStr (match t_auto t with Some p => p_name p | None => address_name t end))
    (VStr (t_ip t)) (VInt (t_port t)) (VStr (t_scheme t)) [] (vstr "") (VInt 0) (VInt 0) (VList []).
Definition _node_from (t : target) (data : option pyval) : res node :=
  match data with
  | Some v =>
      if negb (truthy v) then Ok (offline t)
      else match v with
           | VDict d =>
               up ← seconds_of (get d "uptime_s" (VInt 0));
               ms ← sized (get d "mappings" (VList []));
               Ok (mkNode false (source_of t) true (get d "id" (target_id t))
                     (get d "name" (VStr (t_ip t))) (get d "ip" (VStr (t_ip t))) (get d "port" (VInt (t_port t))) (get d "scheme" (VStr (t_scheme t)))
                     (_fmt_uptime up) (get d "version" (vstr "")) (get d "mapping_count" (VInt ms)) (get d "running_count" (VInt 0)) (get d "mappings" (VList [])))
           | _ => raise AttributeError "object has no attribute 'get'"
           end
  | None => Ok (offline t)
  end.
Definition self_node (d : list (pystr * pyval)) : res node :=
  up ← seconds_of (get d "uptime_s" VNone);
  Ok (mkNode true (str "self") true (get d "id" VNone) (get d "name" VNone) (get d "ip" VNone) (get d "port" VNone) (get d "scheme" VNone)
        (_fmt_uptime up) (get d "version" VNone) (get d "mapping_count" VNone) (get d "running_count" VNone) (get d "mappings" VNone)).
Record dashboard := mkDashboard { d_nodes : list node; d_edit : bool; d_error : pystr; d_hidden : bool }.
Section dashboard.
Context (repr : pyval → pystr) (lower_text : pystr → pystr) (hostname version : pystr) (lan_ip : option pystr).
Context (statuses : pyval → list (pystr * pyval)).
(** [fetch] is what each call of [fetch_peer] gave, [error] is [discovery_error]. *)
Definition cluster_status (u : option User) (error : pystr) (uptime : Z) (fetch : target → option pyval) (c : AppConfig) (now : Z) (t : table)
  : res dashboard * table :=
  match cluster_active (cluster c) with
  | Raise x => (Raise x, t)
  | Ok false => (Ok (mkDashboard [] (can_edit u) [] false), t)
  | Ok true =>
      match (l ← local_node_payload repr hostname version lan_ip uptime statuses c; match l with VDict d => self_node d | _ => raise TypeError "not a dict" end) with
      | Raise x => (Raise x, t)
      | Ok self =>
          if is_anonymous u then (Ok (mkDashboard [self] false [] true), t)
          else
            let '(ts, t) := all_targets lower_text c now t in
            (ns ← mapr (λ x, _node_from x (fetch x)) ts; Ok (mkDashboard (self :: ns) (can_edit u) error false), t)
      end
  end.
(** A visitor without an account sees this node alone: nothing of the others, not even how many there are. *)
Theorem anonymous_sees_itself u error error' uptime fetch fetch' c now now' t t' :
  is_anonymous u = true →
  (cluster_status u error uptime fetch c now t).1 = (cluster_status u error' uptime fetch' c now' t').1
  ∧ ∀ v, (cluster_status u error uptime fetch c now t).1 = Ok v → d_edit v = can_edit u ∨ d_edit v = false.
Proof.
  intros Hu. unfold cluster_status. destruct (cluster_active _) as [[]|]; [|split; [done|]; intros v [= <-]; by left|done].
  destruct (local_node_payload _ _ _ _ _ _ _ ≫= _) as [self|]; [|done]. rewrite Hu. split; [done|]. intros v [= <-]. by right.
Qed.
(** The dashboard is this node, then every target once and in order: those that answered with a node's data show it,
    the others are offline under the name and address they are known by. *)
Theorem dashboard_shows u error uptime fetch c now t v :
  is_anonymous u = false → (cluster_status u error uptime fetch c now t).1 = Ok v → d_nodes v ≠ [] →
  ∃ self ns, d_nodes v = self :: ns ∧ n_self self = true ∧ n_name self = VStr hostname ∧ n_count self = VInt (zlen (mappings c))
    ∧ Forall2 (λ x n, n_self n = false ∧
                 match fetch x with
                 | Some (VDict (kv :: d)) => n_online n = true ∧ n_name n = get (kv :: d) "name" (VStr (t_ip x)) ∧ n_mappings n = get (kv :: d) "mappings" (VList [])
                 | _ => n = offline x
                 end) (all_targets lower_text c now t).1 ns.
Proof.
  intros Hu. unfold cluster_status. destruct (cluster_active _) as [[]|]; [|by intros [= <-]|done].
  destruct (local_node_payload _ _ _ _ _ _ _) as [l|] eqn:El; [|done]. cbn [mbind res_bind]. unfold local_node_payload in El.
  apply res_bind_Ok in El as ([[ip port] scheme] & _ & El). injection El as <-.
  match goal with |- context[self_node ?d] => destruct (self_node d) as [self|] eqn:Es end; [|done]. unfold self_node in Es.
  apply res_bind_Ok in Es as (up & _ & Es). injection Es as <-. rewrite Hu. destruct (all_targets lower_text c now t) as [ts t1]. cbn [fst].
  intros H _. apply res_bind_Ok in H as (ns & Hn & H). injection H as <-. cbn [d_nodes]. eexists _, ns. split_and!; [done..|].
  apply mapr_inv in Hn. eapply Forall2_impl; [exact Hn|]. intros x n. cbn. unfold _node_from.
  destruct (fetch x) as [w|]; [|by intros [= <-]]. destruct (truthy w) eqn:Et; cbn [negb].
  - destruct w as [| | | | | | |[|kv d]]; try done. intros H. apply res_bind_Ok in H as (up' & _ & H). apply res_bind_Ok in H as (k & _ & H).
    by injection H as <-.
  - intros [= <-]. split; [done|]. by destruct w as [| | | | | | |[|kv d]].
Qed.
End dashboard.

(** ** Concretely: the operator bob of the node "n2" starts the mapping "b" of the node "n1" *)
Definition bob : option User := Some (mkUser (vstr "bob") (vstr "y") (vstr "operator") (VInt 1) (vstr "local")).
Definition start_b (scheme : string) : form :=
  [(str "scheme", str scheme); (str "host", str "10.0.0.1"); (str "port", str "8080"); (str "mid", str "b"); (str "action", str "start")].
Definition n1_state : state := set_config (with_cluster (cluster node1) (config demo_state)) demo_state.
Abbreviation demo_control scheme := (cluster_control_peer lower bob node2 0 (start_b scheme) []).
Definition start_b_call : peer_call := Control (str "http") (str "10.0.0.1") 8080 (str "b") (str "start").
Lemma remote_call_exact_witness :
  demo_control "http" = (inr start_b_call, [])
  ∧ ∃ o r, meant start_b_call = Some o ∧ request_of node2 start_b_call = Ok r ∧ peer_address node2 0 [] (call_addr start_b_call)
    ∧ (∃ path, url_parts (http_url r) = Some (str "http", str "10.0.0.1:8080", path))
    ∧ ∀ s, cl_key (cluster (config s)) = vstr "fleet" → cluster_active (cluster (config s)) = Ok true →
        deliver ascii_word no_repr (λ _, true) demo_env r s
        = Some (let '(y, s') := run ascii_word no_repr (λ _, true) demo_env o s in (POutcome y, s')).
Proof.
  split; [vm_compute; reflexivity|].
  apply (remote_call_exact ascii_word no_repr (λ _, true) demo_env lower bob node2 0 (start_b "http") [] start_b_call [] (str "fleet")).
  - left. vm_compute. reflexivity.
  - repeat constructor; apply (bool_decide_unpack _); vm_compute; exact I.
  - reflexivity.
  - repeat constructor.
  - reflexivity.
  - discriminate.
  - reflexivity.
Defined.
(** The request as it goes out, and what it does there (the serial port of "b" is in use: refused). *)
Example start_b_sent :
  match request_of node2 start_b_call with
  | Ok r => http_url r = str "http://10.0.0.1:8080/api/cluster/control" ∧ http_data r = Some (str "mapping_id=b&action=start")
            ∧ http_headers r = [("X-Cluster-Key"%string, vstr "fleet"); ("Content-Type"%string, vstr "application/x-www-form-urlencoded")]
            ∧ match deliver ascii_word no_repr (λ _, true) demo_env r n1_state with Some (POutcome (Raised x), _) => exn_cls x | _ => OutOfFuel end = ConfigError
  | Raise _ => False
  end.
Proof. vm_compute. done. Qed.
(** The scheme comes from the form unchecked: with one that holds a host of its own the request, and the
    cluster key with it, goes to that host, although "10.0.0.1" is on the list of known addresses. *)
Example scheme_escapes :
  match demo_control "http://evil.example/?" with
  | (inr x, _) => match request_of node2 x with
                  | Ok r => (fst <$> url_parts (http_url r)) = Some (str "http", str "evil.example") ∧ head (http_headers r) = Some ("X-Cluster-Key"%string, vstr "fleet")
                  | Raise _ => False
                  end
  | _ => False
  end.
Proof. vm_compute. done. Qed.
(** The id of a mapping goes into the query as it is: for the mapping "a&b" the peer is asked for "a". *)
Example load_asks_for_another :
  match request_of node2 (Load (str "http") (str "10.0.0.1") 8080 (str "a&b")) with
  | Ok r => match split_first 63 (http_url r) with Some (_, query) => form_body query = [(str "mid", str "a"); (str "b", [])] | None => False end
  | Raise _ => False
  end.
Proof. vm_compute. done. Qed.
(** A peer whose answer is a list, or whose uptime is text, breaks the whole dashboard (and a command's answer page). *)
Example dashboard_breaks :
  let t := mkTarget (str "http") (str "10.0.0.1") 8080 None in
  (match _node_from t (Some (VList [VInt 1])) with Raise x => exn_cls x | Ok _ => OutOfFuel end) = AttributeError
  ∧ (match _node_from t (Some (VDict [key "uptime_s" (vstr "5m")])) with Raise x => exn_cls x | Ok _ => OutOfFuel end) = TypeError
  ∧ match accepted_by_peer (Some (VList [VInt 1])) with Raise x => exn_cls x | Ok _ => OutOfFuel end = AttributeError.
Proof. vm_compute. done. Qed.
(** Names with every kind of character come back as they were. *)
Example form_text : 
  let f := [(str "name", str "a b+c&d=e%41/" ++ [252; 8594; 128512]); ([], str "x"); (str "y", [])] in
  match urlencode f with Ok b => form_body b = f ∧ take 25 b = str "name=a+b%2Bc%26d%3De%2541" | Raise _ => False end.
Proof. vm_compute. done. Qed.
