(* ===== verification/Discovery.v ===== *)
(** * Cluster discovery: start, stop and the beacon loop (app/engine/cluster.py)

    A call of [start], of [stop], or of both in a row (a change of the settings, a restored backup) goes on from await to await; the beacon task,
    datagrams and changes of the configuration come in between. Times are in milliseconds; sockets and tasks are numbered.
    [create_datagram_endpoint] is given a bound socket: no datagram is read before its await has come back. *)
From stdpp Require Import sorting.
From S2P Require Import Prelude PyStr PyVal IpAddr PyNum Json JsonOut Base64 Config AppConfig Auth Supervisor Importer Forms Ops Cluster.
#[local] Open Scope Z_scope.

Definition BEACON_INTERVAL : Z := 5000.
Inductive call_pc :=
  | PBegin (stop_first start_then : bool)
  | PAwaitTask (task : nat) (start_then : bool)
  | PAwaitEndpoint (sock : nat)
  | PDone.
Record beacon := mkBeacon { b_task : nat; b_wake : Z; b_cancelled : bool }.
Record beacon_send := mkSend { sd_time : Z; sd_task : nat; sd_dest : list (pystr * Z); sd_data : bytes }.
(** [sockets]: the open ones, and whether they are read. *)
Record disco := mkDisco {
  cfg : AppConfig; transport : option nat; beacon_task : option nat; running : bool; known_peers : table; discovery_error : bool;
  sockets : list (nat * bool); beacons : list beacon; next : nat; calls : list call_pc; outbox : list beacon_send;
}.
Definition disco0 (c : AppConfig) : disco := mkDisco c None None false [] false [] [] 0 [] [].
Definition set_calls (cs : list call_pc) (s : disco) : disco :=
  mkDisco (cfg s) (transport s) (beacon_task s) (running s) (known_peers s) (discovery_error s) (sockets s) (beacons s) (next s) cs (outbox s).
Definition set_cfg (c : AppConfig) (s : disco) : disco :=
  mkDisco c (transport s) (beacon_task s) (running s) (known_peers s) (discovery_error s) (sockets s) (beacons s) (next s) (calls s) (outbox s).
Definition set_peers (t : table) (s : disco) : disco :=
  mkDisco (cfg s) (transport s) (beacon_task s) (running s) t (discovery_error s) (sockets s) (beacons s) (next s) (calls s) (outbox s).
Definition set_beacons (bs : list beacon) (s : disco) : disco :=
  mkDisco (cfg s) (transport s) (beacon_task s) (running s) (known_peers s) (discovery_error s) (sockets s) bs (next s) (calls s) (outbox s).
Definition close_socket (h : nat) (l : list (nat * bool)) : list (nat * bool) := List.filter (λ x, negb (x.1 =? h)%nat) l.

(** [start] up to its await: [bind_ok] says whether the port could be bound. *)
Definition active_now (s : disco) : bool := match cluster_active (cluster (cfg s)) with Ok b => b | Raise _ => false end.
Definition start_begins (bind_ok : bool) (s : disco) : call_pc * disco :=
  if running s || negb (active_now s) then (PDone, s)
  else if bind_ok then
    (PAwaitEndpoint (next s),
     mkDisco (cfg s) (transport s) (beacon_task s) (running s) (known_peers s) (discovery_error s) ((next s, false) :: sockets s) (beacons s) (S (next s)) (calls s) (outbox s))
  else
    (PDone, mkDisco (cfg s) (transport s) (beacon_task s) (running s) (known_peers s) true (sockets s) (beacons s) (next s) (calls s) (outbox s)).
(** After the await: the endpoint is there, or it failed and the socket is closed. *)
Definition start_ends (endpoint_ok : bool) (h : nat) (now : Z) (s : disco) : disco :=
  if endpoint_ok then
    mkDisco (cfg s) (Some h) (Some (next s)) true (known_peers s) false ((h, true) :: close_socket h (sockets s))
      (mkBeacon (next s) now false :: beacons s) (S (next s)) (calls s) (outbox s)
  else mkDisco (cfg s) (transport s) (beacon_task s) (running s) (known_peers s) true (close_socket h (sockets s)) (beacons s) (next s) (calls s) (outbox s).
(** [stop] up to the await of the cancelled beacon task, and from there to its end. *)
Definition cancel (b : nat) (bs : list beacon) : list beacon :=
  (λ x, if (b_task x =? b)%nat then mkBeacon (b_task x) (b_wake x) true else x) <$> bs.
Definition stop_ends (s : disco) : disco :=
  mkDisco (cfg s) None None (running s) [] (discovery_error s)
    (match transport s with Some h => close_socket h (sockets s) | None => sockets s end) (beacons s) (next s) (calls s) (outbox s).
Definition not_running (s : disco) : disco :=
  mkDisco (cfg s) (transport s) (beacon_task s) false (known_peers s) (discovery_error s) (sockets s) (beacons s) (next s) (calls s) (outbox s).
Definition then_start (start_then bind_ok : bool) (s : disco) : call_pc * disco :=
  if start_then then start_begins bind_ok s else (PDone, s).
Definition stop_begins (start_then bind_ok : bool) (s : disco) : call_pc * disco :=
  let s := not_running s in
  match beacon_task s with
  | Some b => (PAwaitTask b start_then, set_beacons (cancel b (beacons s)) s)
  | None => then_start start_then bind_ok (stop_ends s)
  end.
Definition lives (b : nat) (s : disco) : bool := existsb (λ x, (b_task x =? b)%nat) (beacons s).
(** A call goes on; [None] when it has ended or still waits. *)
Definition call_goes (p : call_pc) (now : Z) (bind_ok endpoint_ok : bool) (s : disco) : option (call_pc * disco) :=
  match p with
  | PBegin true start_then => Some (stop_begins start_then bind_ok s)
  | PBegin false start_then => Some (then_start start_then bind_ok s)
  | PAwaitTask b start_then => if lives b s then None else Some (then_start start_then bind_ok (stop_ends s))
  | PAwaitEndpoint h => Some (PDone, start_ends endpoint_ok h now s)
  | PDone => None
  end.

Section discovery.
Context (hmac_sha256 : bytes → bytes → bytes) (repr : pyval → pystr) (hostname : pystr) (lan_ip : option pystr).
(** [_broadcast]: a beacon for every address, when there is a transport; an error is logged by the loop. *)
Definition _broadcast (now : Z) (nics : list pystr) (b : nat) (s : disco) : option beacon_send :=
  match transport s with
  | None => None
  | Some _ =>
      match _make_beacon hmac_sha256 hostname lan_ip (cfg s) now, int_of_val (discovery_port (cluster (cfg s))) with
      | Ok data, Ok port => Some (mkSend now b ((λ a, (a, port)) <$> _broadcast_addrs nics) data)
      | _, _ => None
      end
  end.
Definition beacon_wakes (now : Z) (nics : list pystr) (b : nat) (s : disco) : disco :=
  mkDisco (cfg s) (transport s) (beacon_task s) (running s) (known_peers s) (discovery_error s) (sockets s)
    ((λ x, if (b_task x =? b)%nat then mkBeacon b (now + BEACON_INTERVAL) (b_cancelled x) else x) <$> beacons s) (next s) (calls s)
    (outbox s ++ match _broadcast now nics b s with Some m => [m] | None => [] end).

Inductive dstep :=
  | DCall (stop_first start_then : bool)
  | DGoes (i : nat) (now : Z) (bind_ok endpoint_ok : bool)
  | DBeacon (b : nat) (now : Z) (nics : list pystr)
  | DTaskEnds (b : nat)
  | DDatagram (h : nat) (data : bytes) (addr : pystr) (now : Z)
  | DConfig (c : AppConfig).
Definition due (b : nat) (now : Z) (x : beacon) : bool := (b_task x =? b)%nat && (b_wake x <=? now) && negb (b_cancelled x).
Definition dact (a : dstep) (s : disco) : option disco :=
  match a with
  | DCall stop_first start_then => Some (set_calls (calls s ++ [PBegin stop_first start_then]) s)
  | DGoes i now bind_ok endpoint_ok =>
      p ← calls s !! i;
      r ← call_goes p now bind_ok endpoint_ok s;
      Some (set_calls (<[i := r.1]> (calls s)) r.2)
  | DBeacon b now nics => if existsb (due b now) (beacons s) then Some (beacon_wakes now nics b s) else None
  | DTaskEnds b =>
      if existsb (λ x, (b_task x =? b)%nat && b_cancelled x) (beacons s)
      then Some (set_beacons (List.filter (λ x, negb (b_task x =? b)%nat) (beacons s)) s) else None
  | DDatagram h data addr now =>
      if existsb (λ x, (x.1 =? h)%nat && x.2) (sockets s)
      then Some (set_peers (handle_datagram hmac_sha256 repr (cfg s) data addr now (known_peers s)).2 s) else None
  | DConfig c => Some (set_cfg c s)
  end.
Definition drun (l : list dstep) (s : disco) : option disco := foldl (λ o a, o ≫= dact a) (Some s) l.

(** ** One call at a time *)
Definition in_progress (p : call_pc) : bool := match p with PDone => false | _ => true end.
Definition busy (s : disco) : list call_pc := List.filter in_progress (calls s).
Inductive dreach (c : AppConfig) : disco → Prop :=
  | dr_init : dreach c (disco0 c)
  | dr_step a s s' : dreach c s → dact a s = Some s' → (match a with DCall _ _ => busy s = [] | _ => True end) → dreach c s'.
(** Nothing is open. *)
Definition closed (s : disco) : Prop :=
  running s = false ∧ transport s = None ∧ beacon_task s = None ∧ sockets s = [] ∧ beacons s = [] ∧ known_peers s = [].
(** One socket, which is read, and one beacon task. *)
Definition opened (s : disco) : Prop :=
  running s = true ∧ ∃ h b w, transport s = Some h ∧ beacon_task s = Some b ∧ sockets s = [(h, true)] ∧ beacons s = [mkBeacon b w false].
(** What there is while a call waits at [p]. *)
Definition shape (p : call_pc) (s : disco) : Prop :=
  match p with
  | PBegin _ _ | PDone => closed s ∨ opened s
  | PAwaitTask b _ =>
      running s = false ∧ beacon_task s = Some b ∧ (∃ h, transport s = Some h ∧ sockets s = [(h, true)])
      ∧ (beacons s = [] ∨ ∃ w, beacons s = [mkBeacon b w true])
  | PAwaitEndpoint h =>
      running s = false ∧ transport s = None ∧ beacon_task s = None ∧ sockets s = [(h, false)] ∧ beacons s = [] ∧ known_peers s = []
  end.
Definition disco_inv (s : disco) : Prop := match busy s with [] => shape PDone s | [p] => shape p s | _ => False end.
End discovery.

Lemma filter_insert (cs : list call_pc) i p p' q :
  cs !! i = Some p → in_progress p = true → List.filter in_progress cs = [q] →
  q = p ∧ List.filter in_progress (<[i := p']> cs) = if in_progress p' then [p'] else [].
Proof.
  intros Hi Hp Hb. rewrite insert_take_drop by by eapply lookup_lt_Some. rewrite <- (take_drop_middle cs i p Hi) in Hb.
  rewrite !List.filter_app in *. cbn [List.filter app] in *. rewrite Hp in Hb.
  destruct (List.filter in_progress (take i cs)) as [|x l] eqn:E1; [|destruct l; done]. cbn [app] in *. injection Hb as -> Hb.
  rewrite Hb. split; [done|]. by destruct (in_progress p').
Qed.
Section facts.
Context (hmac_sha256 : bytes → bytes → bytes) (repr : pyval → pystr) (hostname : pystr) (lan_ip : option pystr).
#[local] Abbreviation act := (dact hmac_sha256 repr hostname lan_ip).
#[local] Abbreviation reach := (dreach hmac_sha256 repr hostname lan_ip).

Lemma close_only h x : close_socket h [(h, x)] = [].
Proof. unfold close_socket. cbn. by rewrite Nat.eqb_refl. Qed.
Lemma start_begins_shape bind_ok s : closed s ∨ opened s → shape (start_begins bind_ok s).1 (start_begins bind_ok s).2.
Proof.
  intros H. unfold start_begins. destruct (running s || negb (active_now s)) eqn:E; [done|]. apply orb_false_iff in E as [Er _].
  destruct H as [(H1 & H2 & H3 & H4 & H5 & H6)|[Hr _]]; [|congruence]. destruct bind_ok; cbn.
  - by rewrite H4.
  - left. repeat split; done.
Qed.
Lemma then_start_shape st bind_ok s : closed s ∨ opened s → shape (then_start st bind_ok s).1 (then_start st bind_ok s).2.
Proof. destruct st; [apply start_begins_shape|done]. Qed.
Lemma stop_ends_closed b s :
  running s = false → beacon_task s = Some b → (∃ h, transport s = Some h ∧ sockets s = [(h, true)]) → beacons s = [] → closed (stop_ends s).
Proof. intros Hr Hb (h & Ht & Hs) Hbs. unfold stop_ends. rewrite Ht, Hs, close_only. repeat split; done. Qed.
Lemma stop_begins_shape st bind_ok s : closed s ∨ opened s → shape (stop_begins st bind_ok s).1 (stop_begins st bind_ok s).2.
Proof.
  intros [(H1 & H2 & H3 & H4 & H5 & H6)|(H1 & h & b & w & H2 & H3 & H4 & H5)]; unfold stop_begins; cbn [not_running beacon_task].
  - rewrite H3. apply then_start_shape. left. unfold stop_ends. cbn. rewrite H2. repeat split; done.
  - rewrite H3. cbn. repeat split; [done|by exists h|]. right. rewrite H5. cbn. rewrite Nat.eqb_refl. by exists w.
Qed.
Lemma goes_shape p now bind_ok endpoint_ok s p' s' :
  shape p s → call_goes p now bind_ok endpoint_ok s = Some (p', s') → shape p' s' ∧ calls s' = calls s.
Proof.
  intros Hs Hg.
  assert (∀ st b x, calls (then_start st b x).2 = calls x) as Hc.
  { intros st b x. unfold then_start, start_begins. destruct st; [|done]. destruct (_ || _); [done|]. by destruct b. }
  destruct p as [[] st|b st|h|]; cbn in Hg; [injection Hg as E..| | |done].
  - pose proof (stop_begins_shape st bind_ok s Hs) as H. assert (calls (stop_begins st bind_ok s).2 = calls s) as Hcs.
    { unfold stop_begins. cbn [not_running beacon_task]. destruct (beacon_task s); [done|by rewrite Hc]. }
    by rewrite E in H, Hcs.
  - pose proof (then_start_shape st bind_ok s Hs) as H. specialize (Hc st bind_ok s). by rewrite E in H, Hc.
  - destruct (lives b s) eqn:El; [done|]. injection Hg as E. destruct Hs as (H1 & H2 & H3 & H4).
    destruct H4 as [H4|[w H4]]; [|unfold lives in El; rewrite H4 in El; cbn in El; by rewrite Nat.eqb_refl in El].
    pose proof (then_start_shape st bind_ok (stop_ends s) (or_introl (stop_ends_closed b s H1 H2 H3 H4))) as H.
    specialize (Hc st bind_ok (stop_ends s)). by rewrite E in H, Hc.
  - injection Hg as <- <-. destruct Hs as (H1 & H2 & H3 & H4 & H5 & H6). unfold start_ends. destruct endpoint_ok; cbn; (split; [|done]).
    + right. split; [done|]. exists h, (next s), now. cbn. rewrite H4, close_only, H5. repeat split; done.
    + left. rewrite H4, close_only. repeat split; done.
Qed.
Lemma disco_step_inv a s s' : disco_inv s → act a s = Some s' → (match a with DCall _ _ => busy s = [] | _ => True end) → disco_inv s'.
Proof.
  unfold disco_inv. intros Hi Ha Hc. destruct a as [sf st|i now bo eo|b now nics|b|h data addr now|c]; cbn [dact] in Ha.
  - injection Ha as <-. unfold busy in *. cbn [set_calls calls]. rewrite List.filter_app, Hc. cbn. by rewrite Hc in Hi.
  - destruct (calls s !! i) as [p|] eqn:Ei; [|done]. cbn [mbind option_bind] in Ha.
    destruct (call_goes p now bo eo s) as [[p' s1]|] eqn:Eg; [|done]. injection Ha as <-.
    assert (in_progress p = true) as Hp by by destruct p.
    assert (∃ q, busy s = [q]) as [q Hq].
    { unfold busy in *. destruct (List.filter in_progress (calls s)) as [|q l] eqn:El; [|destruct l; [by eexists|done]].
      exfalso. assert (p ∈ List.filter in_progress (calls s)) as H; [|by rewrite El in H; apply elem_of_nil in H].
      apply list_elem_of_In, filter_In. split; [|done]. apply list_elem_of_In. by eapply list_elem_of_lookup_2. }
    rewrite Hq in Hi. destruct (filter_insert _ _ _ p' _ Ei Hp Hq) as [-> Hf].
    destruct (goes_shape _ _ _ _ _ _ _ Hi Eg) as [Hs' _]. unfold busy. cbn [set_calls calls fst snd]. rewrite Hf.
    destruct p'; cbn [in_progress]; exact Hs'.
  - destruct (existsb _ _) eqn:Ee; [|done]. injection Ha as <-. unfold busy in *. cbn [beacon_wakes calls].
    assert (∀ p, shape p s → shape p (beacon_wakes hmac_sha256 hostname lan_ip now nics b s)) as H; [|by destruct (List.filter in_progress (calls s)) as [|? []]; try apply H].
    intros p Hp. apply existsb_exists in Ee as (x & Hx%list_elem_of_In & Hd). unfold due in Hd. apply andb_true_iff in Hd as [Hd Hnc]. apply andb_true_iff in Hd as [Hd _].
    destruct p as [| | |]; cbn in Hp |- *.
    1, 4: destruct Hp as [(H1 & H2 & H3 & H4 & H5 & H6)|(H1 & h & t & w & H2 & H3 & H4 & H5)]; [rewrite H5 in Hx; by apply elem_of_nil in Hx|];
      right; split; [done|]; rewrite H5 in Hx; apply list_elem_of_singleton in Hx as ->; cbn in Hd; apply Nat.eqb_eq in Hd as <-;
      exists h, t, (now + BEACON_INTERVAL); cbn; rewrite H5; cbn; rewrite Nat.eqb_refl; done.
    + destruct Hp as (H1 & H2 & H3 & [H4|[w H4]]); rewrite H4 in Hx; [by apply elem_of_nil in Hx|]. apply list_elem_of_singleton in Hx as ->. done.
    + destruct Hp as (_ & _ & _ & _ & H5 & _). rewrite H5 in Hx. by apply elem_of_nil in Hx.
  - destruct (existsb _ _) eqn:Ee; [|done]. injection Ha as <-. unfold busy in *. cbn [set_beacons calls].
    assert (∀ p, shape p s → shape p (set_beacons (List.filter (λ x, negb (b_task x =? b)%nat) (beacons s)) s)) as H; [|by destruct (List.filter in_progress (calls s)) as [|? []]; try apply H].
    intros p Hp. apply existsb_exists in Ee as (x & Hx%list_elem_of_In & Hd). apply andb_true_iff in Hd as [Hd Hnc].
    destruct p as [| | |]; cbn in Hp |- *.
    1, 4: destruct Hp as [(H1 & H2 & H3 & H4 & H5 & H6)|(H1 & h & t & w & H2 & H3 & H4 & H5)]; rewrite H5 in Hx; [by apply elem_of_nil in Hx|];
      by apply list_elem_of_singleton in Hx as ->.
    + destruct Hp as (H1 & H2 & H3 & [H4|[w H4]]); rewrite H4 in Hx; [by apply elem_of_nil in Hx|]. apply list_elem_of_singleton in Hx as ->.
      cbn in Hd. apply Nat.eqb_eq in Hd as <-. rewrite H4. cbn. rewrite Nat.eqb_refl. split_and!; auto.
    + destruct Hp as (_ & _ & _ & _ & H5 & _). rewrite H5 in Hx. by apply elem_of_nil in Hx.
  - destruct (existsb _ _) eqn:Ee; [|done]. injection Ha as <-. unfold busy in *. cbn [set_peers calls].
    set (t := (handle_datagram _ _ _ _ _ _ _).2). apply existsb_exists in Ee as (x & Hx%list_elem_of_In & Hd).
    assert (∀ p, shape p s → shape p (set_peers t s)) as H; [|by destruct (List.filter in_progress (calls s)) as [|? []]; try apply H].
    intros p Hp. destruct p as [| | |]; cbn in Hp |- *; try done.
    1, 3: destruct Hp as [(H1 & H2 & H3 & H4 & H5 & H6)|Hp]; [rewrite H4 in Hx; by apply elem_of_nil in Hx|by right].
    destruct Hp as (_ & _ & _ & H4 & _). rewrite H4 in Hx. apply list_elem_of_singleton in Hx as ->. by rewrite andb_false_r in Hd.
  - injection Ha as <-. done.
Qed.
Lemma shape_facts p s : shape p s →
  (length (sockets s) <= 1)%nat ∧ (length (beacons s) <= 1)%nat
  ∧ (∀ x, x ∈ sockets s → x.2 = true → transport s = Some x.1)
  ∧ ∀ x, x ∈ beacons s → b_cancelled x = false → running s = true ∧ beacon_task s = Some (b_task x).
Proof.
  intros Hp.
  assert (closed s ∨ opened s ∨ (∃ b st, p = PAwaitTask b st) ∨ ∃ h, p = PAwaitEndpoint h) as Hcase.
  { destruct p; cbn in Hp; [destruct Hp; auto|right; right; left; eauto|right; right; right; eauto|destruct Hp; auto]. }
  destruct Hcase as [(_ & _ & _ & H4 & H5 & _)|[(H1 & h & b & w & H2 & H3 & H4 & H5)|[(b & st & ->)|(h & ->)]]]; cbn in Hp.
  - rewrite H4, H5. split_and!; [cbn; lia..| |]; by intros x ?%elem_of_nil.
  - rewrite H4, H5. split_and!; [cbn; lia..| |]; by intros x ->%list_elem_of_singleton.
  - destruct Hp as (H1 & H2 & (h & Ht & H4) & H5). rewrite H4. split_and!; [cbn; lia|destruct H5 as [->|[w ->]]; cbn; lia|by intros x ->%list_elem_of_singleton|].
    intros x Hx Hc. destruct H5 as [H5|[w H5]]; rewrite H5 in Hx; [by apply elem_of_nil in Hx|]. by apply list_elem_of_singleton in Hx as ->.
  - destruct Hp as (_ & _ & _ & H4 & H5 & _). rewrite H4, H5. split_and!; [cbn; lia..| |]; [by intros x ->%list_elem_of_singleton|by intros x ?%elem_of_nil].
Qed.
Lemma disco_reach_inv c s : reach c s → disco_inv s.
Proof. induction 1 as [|a s s' _ IH Ha Hc]; [by left; repeat split|by eapply disco_step_inv]. Qed.
(** C26: discovery is opened once and closed completely. As long as calls of start and stop follow each other, whatever datagrams,
    beacons, changes of the settings and failures of the system come in between: at most one socket is open and one beacon
    task lives; when no call is under way the node either has both, or nothing at all is left, no peer either; and what is read comes
    from the node's own socket and what is sent from its own task while discovery runs. *)
Theorem discovery_exclusive c s :
  reach c s →
  (length (sockets s) <= 1)%nat ∧ (length (beacons s) <= 1)%nat
  ∧ (busy s = [] → closed s ∨ opened s)
  ∧ (∀ h data addr now s', act (DDatagram h data addr now) s = Some s' → transport s = Some h)
  ∧ ∀ b now nics s', act (DBeacon b now nics) s = Some s' → running s = true ∧ beacon_task s = Some b.
Proof.
  intros Hi%disco_reach_inv. unfold disco_inv in Hi. assert (∃ p, shape p s ∧ (busy s = [] → p = PDone)) as (p & Hp & Hd).
  { destruct (busy s) as [|q []]; [by exists PDone|by exists q|done]. }
  destruct (shape_facts p s Hp) as (H1 & H2 & H3 & H4). split_and!; [done..| | |].
  - intros Hb. by rewrite (Hd Hb) in Hp.
  - intros h data addr now s'. cbn. destruct (existsb _ _) eqn:Ee; [|done]. intros _. apply existsb_exists in Ee as (x & Hx%list_elem_of_In & Hh).
    apply andb_true_iff in Hh as [Hh%Nat.eqb_eq Hx2]. rewrite <- Hh. by apply H3.
  - intros b now nics s'. cbn. destruct (existsb _ _) eqn:Ee; [|done]. intros _. apply existsb_exists in Ee as (x & Hx%list_elem_of_In & Hh).
    unfold due in Hh. apply andb_true_iff in Hh as [Hh Hn]. apply andb_true_iff in Hh as [Hh%Nat.eqb_eq _]. rewrite <- Hh. apply H4; [done|]. by apply negb_true_iff.
Qed.

(** ** A call always ends *)
(** The program's own steps: calls that go on and cancelled tasks that end. *)
Definition own (s s' : disco) : Prop :=
  ∃ a, match a with DGoes _ _ _ _ | DTaskEnds _ => True | _ => False end ∧ act a s = Some s'.
Definition pc_rank (p : call_pc) : nat := match p with PBegin true _ => 4 | PAwaitTask _ _ => 3 | PBegin false _ => 2 | PAwaitEndpoint _ => 1 | PDone => 0 end.
Definition call_rank (s : disco) : nat := (2 * sum_list_with pc_rank (calls s) + length (beacons s))%nat.
Lemma start_begins_rank b s : (2 * pc_rank (start_begins b s).1 + length (beacons (start_begins b s).2) <= 2 + length (beacons s))%nat.
Proof. unfold start_begins. destruct (_ || _); [cbn; lia|]. destruct b; cbn; lia. Qed.
Lemma then_start_rank st b s : (2 * pc_rank (then_start st b s).1 + length (beacons (then_start st b s).2) <= 2 + length (beacons s))%nat.
Proof. destruct st; [apply start_begins_rank|cbn; lia]. Qed.
Lemma goes_rank p now bo eo s p' s' :
  call_goes p now bo eo s = Some (p', s') → (2 * pc_rank p' + length (beacons s') < 2 * pc_rank p + length (beacons s))%nat.
Proof.
  destruct p as [[] st|b st|h|]; cbn [call_goes]; [| | | |done].
  - intros [= E]. unfold stop_begins in E. cbn [not_running beacon_task] in E. destruct (beacon_task s) as [b|].
    + injection E as <- <-. cbn. unfold cancel. rewrite length_fmap. lia.
    + pose proof (then_start_rank st bo (stop_ends (not_running s))) as H. rewrite E in H. cbn in *. lia.
  - intros [= E]. pose proof (then_start_rank st bo s) as H. rewrite E in H. cbn in *. lia.
  - destruct (lives b s); [done|]. intros [= E]. pose proof (then_start_rank st bo (stop_ends s)) as H. rewrite E in H. cbn in *. lia.
  - intros [= <- <-]. unfold start_ends. destruct eo; cbn; lia.
Qed.
Lemma filter_drops {A} (f : A → bool) l x : x ∈ l → f x = false → (length (List.filter f l) < length l)%nat.
Proof.
  intros Hx Hf. induction Hx as [y l|y z l Hx IH]; cbn.
  - rewrite Hf. pose proof (List.filter_length_le f l). lia.
  - destruct (f z); cbn; specialize (IH Hf); lia.
Qed.
Lemma own_rank s s' : own s s' → (call_rank s' < call_rank s)%nat.
Proof.
  intros (a & Ha & H). unfold call_rank. destruct a as [|i now bo eo| |b| |]; try done; cbn [dact] in H.
  - destruct (calls s !! i) as [p|] eqn:Ei; [|done]. cbn [mbind option_bind] in H. destruct (call_goes p now bo eo s) as [[p' s1]|] eqn:Eg; [|done].
    injection H as <-. apply goes_rank in Eg. cbn [set_calls calls beacons fst snd]. pose proof (sum_insert pc_rank (calls s) i p p' Ei). lia.
  - destruct (existsb _ _) eqn:E; [|done]. injection H as <-. cbn. apply existsb_exists in E as (x & Hx%list_elem_of_In & Hb).
    apply andb_true_iff in Hb as [Hb _]. assert (length (List.filter (λ x, negb (b_task x =? b)%nat) (beacons s)) < length (beacons s))%nat by (eapply filter_drops; [exact Hx|by rewrite Hb]). lia.
Qed.
Lemma goes_on s : disco_inv s → busy s ≠ [] → ∃ s', own s s'.
Proof.
  intros Hi Hb. unfold disco_inv in Hi. destruct (busy s) as [|p [|]] eqn:Eb; [done| |done].
  assert (p ∈ calls s ∧ in_progress p = true) as [Hp Hip].
  { assert (p ∈ busy s) as H by (rewrite Eb; left). unfold busy in H. rewrite list_elem_of_In, filter_In, <- list_elem_of_In in H. done. }
  apply list_elem_of_lookup in Hp as [i Hi']. 
  assert ((∃ r, call_goes p 0 true true s = Some r) ∨ ∃ b w st, p = PAwaitTask b st ∧ beacons s = [mkBeacon b w true]) as [[r Hr]|(b & w & st & -> & Hbs)].
  { destruct p as [[] st|b st|h|]; cbn [call_goes]; [eauto..| |eauto|done]. destruct Hi as (_ & _ & _ & [Hbs|[w Hbs]]); [|right; eauto].
    left. unfold lives. rewrite Hbs. cbn. eauto. }
  - eexists. exists (DGoes i 0 true true). split; [done|]. cbn [dact]. rewrite Hi'. cbn [mbind option_bind]. by rewrite Hr.
  - eexists. exists (DTaskEnds b). split; [done|]. cbn [dact]. rewrite Hbs. cbn. by rewrite Nat.eqb_refl.
Qed.
(** Every call of start and stop comes to its end, in every order of the steps, and leaves discovery open or closed. *)
Theorem calls_end c s : reach c s → inevitably own (λ s, busy s = [] ∧ (closed s ∨ opened s)) s.
Proof.
  intros Hi%disco_reach_inv. remember (call_rank s) as n eqn:En. revert s Hi En. induction (lt_wf n) as [n _ IH]. intros s Hi ->.
  destruct (decide (List.length (busy s) = 0%nat)) as [Hb|Hb].
  { destruct (busy s) eqn:E; [|done]. apply ev_now. split; [done|]. unfold disco_inv in Hi. by rewrite E in Hi. }
  apply ev_next; [apply goes_on; [done|by destruct (busy s)]|]. intros s' Hs. eapply IH; [by apply own_rank| |done].
  destruct Hs as (a & Ha & Hs). eapply disco_step_inv; [done|exact Hs|by destruct a].
Qed.

(** ** The beacons of a node that runs
    [calm]: no call is under way, and the loop wakes the beacon task at most [δ] late; the list has the times of its sends. *)
Inductive calm (δ : Z) (b : nat) : disco → list Z → disco → Prop :=
  | calm_nil s : calm δ b s [] s
  | calm_beacon s now nics s1 l s2 :
      act (DBeacon b now nics) s = Some s1 → (∀ x, x ∈ beacons s → now <= b_wake x + δ) → calm δ b s1 l s2 → calm δ b s (now :: l) s2
  | calm_other s a s1 l s2 :
      match a with DDatagram _ _ _ _ | DConfig _ => True | _ => False end → act a s = Some s1 → calm δ b s1 l s2 → calm δ b s l s2.
Fixpoint regular (δ w : Z) (l : list Z) : Prop :=
  match l with [] => True | t :: l => w <= t <= w + δ ∧ regular δ (t + BEACON_INTERVAL) l end.
Definition sent_at (c : AppConfig) (m : beacon_send) : Prop :=
  _make_beacon hmac_sha256 hostname lan_ip c (sd_time m) = Ok (sd_data m)
  ∧ ∃ port nics, int_of_val (discovery_port (cluster c)) = Ok port ∧ sd_dest m = (λ a, (a, port)) <$> _broadcast_addrs nics.
(** While a node runs with one configuration, a beacon goes out to every broadcast address at once and then every five seconds. *)
Theorem beacons_regular δ b w s l s' h :
  beacons s = [mkBeacon b w false] → transport s = Some h → calm δ b s l s' →
  regular δ w l ∧ transport s' = Some h
  ∧ ∀ c, (∀ a s1 s2 l1 l2, calm δ b s l1 s1 → act a s1 = Some s2 → calm δ b s2 l2 s' → cfg s1 = c) →
      (∀ now, is_ok (_make_beacon hmac_sha256 hostname lan_ip c now) = true) → is_ok (int_of_val (discovery_port (cluster c))) = true →
      ∃ ms, outbox s' = outbox s ++ ms ∧ sd_time <$> ms = l ∧ Forall (sent_at c) ms.
Proof.
  intros Hb Ht Hc. revert w Hb Ht. induction Hc as [s|s now nics s1 l s2 Ha Hlate Hc IH|s a s1 l s2 Hk Ha Hc IH]; intros w Hb Ht.
  - split_and!; [done..|]. intros c _ _ _. exists []. rewrite app_nil_r. split_and!; [done..|constructor].
  - pose proof Ha as Ha'. cbn [dact] in Ha'. rewrite Hb in Ha'. unfold due in Ha'. cbn in Ha'. rewrite Nat.eqb_refl in Ha'. cbn in Ha'.
    destruct (Z.leb_spec w now) as [Hw|]; [|done]. injection Ha' as Es1.
    assert (beacons s1 = [mkBeacon b (now + BEACON_INTERVAL) false] ∧ transport s1 = Some h) as [Hb1 Ht1].
    { rewrite <- Es1. cbn. rewrite Hb. cbn. by rewrite Nat.eqb_refl. }
    destruct (IH _ Hb1 Ht1) as (Hr & Ht2 & Ho). split_and!; [|done|].
    { cbn. split; [|done]. split; [done|]. rewrite Hb in Hlate. apply (Hlate _ (list_elem_of_here _ _)). }
    intros c Hcfg Hmb Hp. destruct (Ho c) as (ms & E1 & E2 & E3); [|done..|].
    { intros a s3 s4 l1 l2 H1 H2 H3. eapply (Hcfg a s3 s4 (now :: l1)); [by econstructor|done..]. }
    assert (cfg s = c) as Hsc by (eapply (Hcfg _ s); [constructor|exact Ha|exact Hc]).
    specialize (Hmb now). destruct (_make_beacon hmac_sha256 hostname lan_ip c now) as [data|] eqn:Em; [|done].
    destruct (int_of_val (discovery_port (cluster c))) as [port|] eqn:Ep; [|done].
    exists (mkSend now b ((λ a, (a, port)) <$> _broadcast_addrs nics) data :: ms). split_and!.
    + rewrite E1, <- Es1. cbn [beacon_wakes outbox]. unfold _broadcast. rewrite Ht, Hsc, Em, Ep. by rewrite <- app_assoc.
    + cbn. by rewrite E2.
    + constructor; [|done]. split; [done|]. cbn. eauto.
  - assert (beacons s1 = [mkBeacon b w false] ∧ transport s1 = Some h ∧ outbox s1 = outbox s) as (Hb1 & Ht1 & Ho1).
    { destruct a; try done; cbn [dact] in Ha; [destruct (existsb _ _); [|done]|]; injection Ha as <-; done. }
    destruct (IH _ Hb1 Ht1) as (Hr & Ht2 & Ho). split_and!; [done..|]. intros c Hcfg Hmb Hp. rewrite <- Ho1. apply Ho; [|done..].
    intros a' s3 s4 l1 l2 H1 H2 H3. eapply (Hcfg a' s3 s4 l1); [by eapply calm_other|done..].
Qed.
End facts.

(** ** Neighbours stay in sight *)
Definition step_time (x : cstep) : Z := match x with Datagram _ _ n | Look n => n end.
Section sight.
Context (hmac_sha256 : bytes → bytes → bytes) (repr : pyval → pystr) (lower_text : pystr → pystr).
Context (hostname : pystr) (lan_ip : option pystr).
#[local] Abbreviation step b := (cluster_step hmac_sha256 repr lower_text b).
#[local] Abbreviation accepts b := (accepted hmac_sha256 repr b).
Lemma last_heard b steps data addr n q now :
  StronglySorted Z.le (step_time <$> steps) → Forall (λ x, step_time x <= now) steps →
  Datagram data addr n ∈ steps → accepts b data addr n = Some q → now - n <= PEER_TTL →
  ∃ q', heard hmac_sha256 repr b steps q' ∧ p_id q' = p_id q ∧ n <= last_seen q'.
Proof.
  intros Hs Ht Hin Ha Hn. induction steps as [|x steps IH] using rev_ind; [by apply elem_of_nil in Hin|].
  rewrite fmap_app in Hs. apply Forall_app in Ht as [Ht [Hx _]%Forall_cons].
  assert (StronglySorted Z.le (step_time <$> steps)) as Hs1 by by apply StronglySorted_app_1_l in Hs.
  assert (∀ y, y ∈ steps → step_time y <= step_time x) as Hle.
  { intros y Hy. eapply StronglySorted_app_1_elem_of; [exact Hs|apply list_elem_of_fmap; by exists y|apply list_elem_of_fmap; exists x; split; [done|by left]]. }
  assert ((∃ d a m q1, x = Datagram d a m ∧ accepts b d a m = Some q1 ∧ p_id q1 = p_id q)
    ∨ ¬ ∃ d a m q1, x = Datagram d a m ∧ accepts b d a m = Some q1 ∧ p_id q1 = p_id q) as [Hd|Hd].
  { destruct x as [d a m|m]; [|right; by intros (? & ? & ? & ? & ? & _)]. destruct (accepts b d a m) as [q1|] eqn:E.
    - destruct (decide (p_id q1 = p_id q)); [left; by exists d, a, m, q1|right]. intros (? & ? & ? & ? & [= <- <- <-] & ? & ?). congruence.
    - right. intros (? & ? & ? & ? & [= <- <- <-] & ? & ?). congruence. }
  - destruct Hd as (d & a & m & q1 & -> & Ha1 & Eid). destruct (accepted_inv _ _ _ _ _ _ _ Ha1) as (El & _). exists q1. split_and!; [|done|].
    + apply heard_snoc. right. exists d, a. by rewrite El.
    + rewrite El. apply elem_of_app in Hin as [Hin|Hin]; [by apply (Hle _ Hin)|]. apply list_elem_of_singleton in Hin. injection Hin as -> -> ->. done.
  - assert (Datagram data addr n ∈ steps) as Hin'.
    { apply elem_of_app in Hin as [Hin|Hin]; [done|]. apply list_elem_of_singleton in Hin as <-. exfalso. apply Hd. eauto 10. }
    destruct (IH Hs1 Ht Hin') as (q' & Hq & Eid & Hl). exists q'. split_and!; [|done..]. apply heard_snoc. left. split; [done|].
    destruct x as [d a m|m]; cbn [keeps].
    + destruct (accepts b d a m) as [q1|] eqn:E; [|done]. intros Eq. apply Hd. exists d, a, m, q1. by rewrite Eq.
    + unfold live. cbn in Hx. apply Z.leb_le. lia.
Qed.
Lemma regular_reach δ l : 0 <= δ → ∀ w j u, regular δ w l → l !! j = Some u → w <= u <= w + δ + Z.of_nat j * (BEACON_INTERVAL + δ).
Proof.
  intros Hδ. induction l as [|x l IH]; intros w j u Hr Hj; [done|]. destruct Hr as [Hx Hr]. destruct j as [|j]; [injection Hj as ->; lia|].
  specialize (IH _ _ _ Hr Hj). unfold BEACON_INTERVAL in *. lia.
Qed.
Lemma regular_spaced δ l : 0 <= δ → ∀ w i j t u, regular δ w l → l !! i = Some t → l !! j = Some u → (i <= j)%nat →
  t <= u <= t + Z.of_nat (j - i) * (BEACON_INTERVAL + δ).
Proof.
  intros Hδ. induction l as [|x l IH]; intros w i j t u Hr Hi Hj Hij; [done|]. destruct Hr as [Hx Hr].
  destruct i as [|i], j as [|j]; cbn in Hi, Hj; [simplify_eq; lia| |lia|].
  - injection Hi as ->. pose proof (regular_reach δ l Hδ _ _ _ Hr Hj). unfold BEACON_INTERVAL in *. lia.
  - replace (S j - S i)%nat with (j - i)%nat by lia. eapply (IH (x + BEACON_INTERVAL) i j); [exact Hr|exact Hi|exact Hj|lia].
Qed.
(** The last element with a property that the one at [i] has. *)
Lemma last_with (P : Z → Prop) `{∀ x, Decision (P x)} (l : list Z) i t :
  l !! i = Some t → P t → ∃ j u, (i <= j)%nat ∧ l !! j = Some u ∧ P u ∧ ∀ v, l !! S j = Some v → ¬ P v.
Proof.
  remember (length l - i)%nat as n eqn:En. revert i t En. induction n as [|n IH]; intros i t En Hi Hp.
  - apply lookup_lt_Some in Hi. lia.
  - destruct (l !! S i) as [v|] eqn:Ev; [destruct (decide (P v)) as [Hv|Hv]|].
    + destruct (IH (S i) v ltac:(lia) Ev Hv) as (j & u & ? & ? & ? & ?). exists j, u. split_and!; [lia|done..].
    + exists i, t. split_and!; [lia|done..|]. intros v' Hv'. congruence.
    + exists i, t. split_and!; [lia|done..|]. intros v' Hv'. congruence.
Qed.
(** The beacons [times] of node [a], regular up to [δ], reach node [b] within [ρ] or not at all; at most [lost] in a row are lost. *)
Definition arrives (a : AppConfig) (steps : list cstep) (now t : Z) : Prop :=
  ∃ data addr n, _make_beacon hmac_sha256 hostname lan_ip a t = Ok data ∧ Datagram data addr n ∈ steps ∧ t <= n <= now.
Definition delivers (a : AppConfig) (steps : list cstep) (now ρ : Z) (lost : nat) (times : list Z) : Prop :=
  ∀ j u, times !! j = Some u → u <= now - ρ → (lost <= j)%nat →
    ∃ i t, (j - lost <= i <= j)%nat ∧ times !! i = Some t ∧ arrives a steps now t.
Context (hmac_bytes : ∀ k m, is_bytes (hmac_sha256 k m)) (host_text : Forall is_cp hostname).
(** neighbours stay in sight. A node that runs announces itself every five seconds, [δ] late at most. If no more than [lost] of its
    beacons in a row are lost on the way to another node with the same key, and (lost + 1) periods and the time [ρ] a beacon
    takes are not more than twenty seconds (two may be lost when nothing is more than 1.6 s late), then once the first
    beacons have arrived the other node shows it all the time, whatever else it hears from anyone. *)
Theorem stays_in_sight a b k kb ia ip port scheme δ ρ lost w times steps now t0 :
  cl_key (cluster a) = VStr k → cl_key (cluster b) = VStr k → k ≠ [] → utf8_encode k = Ok kb →
  instance_id a = VStr ia → ia ≠ [] → Forall is_cp ia → eq_str (instance_id b) ia = false →
  advertised lan_ip a = Ok (ip, port, scheme) → Forall is_cp ip → strip ip = ip →
  0 <= δ → 0 <= ρ → (Z.of_nat lost + 1) * (BEACON_INTERVAL + δ) + ρ <= PEER_TTL →
  regular δ w times → (∃ u, last times = Some u ∧ now <= u + BEACON_INTERVAL + δ) →
  times !! lost = Some t0 → t0 <= now - ρ →
  StronglySorted Z.le (step_time <$> steps) → Forall (λ x, step_time x <= now) steps →
  delivers a steps now ρ lost times →
  ∃ q, q ∈ (peers lower_text now (foldl (step b) [] steps)).1 ∧ p_id q = ia.
Proof.
  intros Ka Kb Hk Hkb Ia Hia Hiat Hib Hadv Hip Hstrip Hδ Hρ Hbound Hreg (ul & Hlast & Hnow) H0 Ht0 Hsort Htimes Hdel.
  destruct (last_with (λ t, t <= now - ρ) times lost t0 H0 Ht0) as (j & u & Hj & Hu & Hule & Hnext).
  assert (now - ρ - (BEACON_INTERVAL + δ) <= u) as Hlow.
  { rewrite last_lookup in Hlast. destruct (times !! S j) as [v|] eqn:Ev.
    - specialize (Hnext v eq_refl). pose proof (regular_spaced δ times Hδ w j (S j) u v Hreg Hu Ev ltac:(lia)) as Hs.
      replace (S j - j)%nat with 1%nat in Hs by lia. lia.
    - apply lookup_ge_None in Ev. pose proof (lookup_lt_Some _ _ _ Hu). assert (Init.Nat.pred (length times) = j) as Ej by lia.
      rewrite Ej in Hlast. assert (u = ul) as -> by congruence. lia. }
  destruct (Hdel j u Hu Hule Hj) as (i & t & Hi & Hti & data & addr & n & Hmb & Hin & Hn).
  pose proof (regular_spaced δ times Hδ w i j t u Hreg Hti Hu ltac:(lia)) as Hs.
  assert (now - n <= PEER_TTL) as Hfresh by (unfold BEACON_INTERVAL in *; nia).
  destruct (beacon_discovered hmac_sha256 repr lower_text hostname lan_ip hmac_bytes host_text a b k kb ia ip port scheme t addr n []) as (data' & Hd & Hh & _); [done..|].
  rewrite Hmb in Hd. injection Hd as <-. cbv zeta in Hh.
  destruct (last_heard b steps data addr n (mkPeer ia hostname (if existsb (str_eqb ip) _LOOPBACK then addr else ip) port scheme n) now) as (q & Hq & Eid & Hl); [done..| |done|].
  { unfold accepted. by rewrite Hh. }
  exists q. split; [|done]. cbn [peers fst]. rewrite sort_by_perm. apply list_elem_of_In, filter_In. rewrite <- list_elem_of_In. split.
  - by apply table_heard.
  - unfold live. apply Z.leb_le. lia.
Qed.
End sight.

(** ** Concretely *)
Section runs.
Context (hmac_sha256 : bytes → bytes → bytes) (repr : pyval → pystr) (hostname : pystr) (lan_ip : option pystr).
(** A run in which a call only begins when none is under way. *)
Definition serial_step (a : dstep) (s : disco) : option disco :=
  match a, busy s with DCall _ _, _ :: _ => None | _, _ => dact hmac_sha256 repr hostname lan_ip a s end.
Definition serial_run (l : list dstep) (s : disco) : option disco := foldl (λ o a, o ≫= serial_step a) (Some s) l.
Lemma serial_run_reach c l s : serial_run l (disco0 c) = Some s → dreach hmac_sha256 repr hostname lan_ip c s.
Proof.
  unfold serial_run. revert s. induction l as [|a l IH] using rev_ind; intros s; [intros [= <-]; constructor|].
  rewrite foldl_app. cbn. destruct (foldl _ _ l) as [s1|]; [|done]. cbn. intros H. specialize (IH s1 eq_refl).
  unfold serial_step in H. eapply dr_step; [exact IH| |].
  - destruct a; [destruct (busy s1); [exact H|done]|exact H..].
  - destruct a; [|done..]. by destruct (busy s1).
Qed.
End runs.
Abbreviation demo_serial l := (serial_run demo_hmac no_repr (str "line1") None l (disco0 node1)).
Abbreviation demo_disco l := (drun demo_hmac no_repr (str "line1") None l (disco0 node1)).
(** Start; beacons; a change of the settings, during which a first bind fails; another start. *)
Definition demo_life : list dstep :=
  [DCall false true; DGoes 0 0 true true; DGoes 0 10 true true; DBeacon 1 12 []; DBeacon 1 5013 []; DCall true true; DGoes 1 5100 true true; DTaskEnds 1;
   DGoes 1 5101 false true; DCall false true; DGoes 2 9000 true true; DGoes 2 9001 true true].
Definition demo_running : disco := default (disco0 node1) (demo_serial demo_life).
Lemma discovery_exclusive_witness :
  (sockets demo_running, b_task <$> beacons demo_running, running demo_running) = ([(2%nat, true)], [3%nat], true)
  ∧ (length (sockets demo_running) <= 1)%nat ∧ (length (beacons demo_running) <= 1)%nat
  ∧ (busy demo_running = [] → closed demo_running ∨ opened demo_running)
  ∧ (∀ h data addr now s', dact demo_hmac no_repr (str "line1") None (DDatagram h data addr now) demo_running = Some s' → transport demo_running = Some h)
  ∧ ∀ b now nics s', dact demo_hmac no_repr (str "line1") None (DBeacon b now nics) demo_running = Some s' →
      running demo_running = true ∧ beacon_task demo_running = Some b.
Proof.
  split; [vm_compute; reflexivity|]. apply (discovery_exclusive demo_hmac no_repr (str "line1") None node1).
  apply (serial_run_reach demo_hmac no_repr (str "line1") None node1 demo_life). vm_compute. reflexivity.
Defined.
(** Two restarts that overlap (a change of the settings while a backup is restored): both wait for the same beacon task and both then open a socket; a
    stop closes one, and the other socket and beacon task are left for good, although discovery is off: it still
    fills the table of peers. *)
Example overlapping_restarts :
  match demo_disco [DCall false true; DGoes 0 0 true true; DGoes 0 0 true true; DCall true true; DGoes 1 5 true true; DCall true true; DGoes 2 5 true true;
                    DTaskEnds 1; DGoes 1 6 true true; DGoes 2 6 true true; DGoes 1 7 true true; DGoes 2 7 true true;
                    DCall true false; DGoes 3 8 true true; DTaskEnds 5; DGoes 3 9 true true] with
  | Some s => busy s = [] ∧ running s = false ∧ transport s = None ∧ sockets s = [(2%nat, true)] ∧ b_task <$> beacons s = [4%nat]
  | None => False
  end.
Proof. vm_compute. done. Qed.
(** A start whose port is taken leaves everything closed, and the next one works. *)
Example port_taken :
  (λ s, (running s, discovery_error s, sockets s)) <$> demo_disco [DCall false true; DGoes 0 0 false true] = Some (false, true, [])
  ∧ (λ s, (running s, discovery_error s)) <$> demo_disco [DCall false true; DGoes 0 0 false true; DCall false true; DGoes 1 1 true true; DGoes 1 2 true true] = Some (true, false).
Proof. vm_compute. done. Qed.

Definition demo_beacon (t : Z) : bytes := match _make_beacon demo_hmac (str "line1") None node1 t with Ok d => d | Raise _ => [] end.
(** Of four beacons the second arrives. *)
Definition demo_sends : list Z := [0; 5000; 10050; 15060].
Definition demo_heard : list cstep := [Datagram (demo_beacon 5000) (str "10.9.9.9") 5010].
Lemma stays_in_sight_witness :
  ∃ q, q ∈ (peers lower 16000 (foldl (cluster_step demo_hmac no_repr lower node2) [] demo_heard)).1 ∧ p_id q = str "n1".
Proof.
  apply (stays_in_sight demo_hmac no_repr lower (str "line1") None demo_hmac_bytes ltac:(apply (bool_decide_unpack _); vm_compute; exact I)
           node1 node2 (str "fleet") (str "fleet") (str "n1") (str "10.0.0.1") 8080 (str "http") 100 50 2 0 demo_sends demo_heard 16000 10050).
  - reflexivity.
  - reflexivity.
  - discriminate.
  - reflexivity.
  - reflexivity.
  - discriminate.
  - apply (bool_decide_unpack _). vm_compute. exact I.
  - vm_compute. reflexivity.
  - vm_compute. reflexivity.
  - apply (bool_decide_unpack _). vm_compute. exact I.
  - vm_compute. reflexivity.
  - lia.
  - lia.
  - vm_compute. discriminate.
  - cbn. unfold BEACON_INTERVAL. lia.
  - exists 15060. split; [reflexivity|]. unfold BEACON_INTERVAL. lia.
  - reflexivity.
  - lia.
  - repeat constructor.
  - repeat constructor. cbn. lia.
  - assert (arrives demo_hmac (str "line1") None node1 demo_heard 16000 5000) as Ha.
    { exists (demo_beacon 5000), (str "10.9.9.9"), 5010. split; [vm_compute; reflexivity|]. split; [left|lia]. }
    intros j u Hj Hu Hl. destruct j as [|[|[|[|j]]]]; [lia|lia| | |done]; exists 1%nat, 5000; (split; [lia|done]).
Defined.
(** Nothing in a beacon grows old: one that was recorded is accepted again days later, from anyone, and shows a node that is gone. *)
Example beacon_replayed :
  let t := (handle_datagram demo_hmac no_repr node2 (demo_beacon 5000) (str "10.6.6.6") 900000000 []).2 in
  p_id <$> (peers lower 900000001 t).1 = [str "n1"].
Proof. vm_compute. done. Qed.
