(* ===== verification/LogFiles.v ===== *)
(** * The files behind the per-mapping logs (app/state.py): loggers, handlers and maintenance

    A file name leads to an inode and an open handler writes to the inode it opened, whatever the name leads to later. The
    logger of a mapping is one object for the whole life of the program ([logging.getLogger]); maintenance goes over the files and leaves
    the event loop while a file is trimmed in a thread, so that lines are logged and mappings made and deleted meanwhile.
    Files are named by the id of their mapping, ids being plain file names. *)
From S2P Require Import Prelude PyStr Logs.
#[local] Open Scope Z_scope.

Inductive trim_stage :=
  | Detached                       (** the thread has not read the file yet *)
  | Read (r : res bool) (data : option bytes)   (** what [_trim_log_file] decided, before [os.replace] *)
  | Trimmed.
Record trim_job := mkJob { j_file : pystr; j_logger : bool; j_stage : trim_stage }.
Record logfs := mkLogFs {
  names : gmap pystr nat; inodes : gmap nat bytes; next_inode : nat;
  handlers : gmap pystr (list nat); loggers : gset pystr; job : option trim_job; all_log : list bytes;
}.
Definition logfs0 : logfs := mkLogFs ∅ ∅ 0 ∅ ∅ None [].
Definition handlers_of (m : pystr) (s : logfs) : list nat := default [] (handlers s !! m).
Definition content (m : pystr) (s : logfs) : option bytes := names s !! m ≫= λ i, inodes s !! i.
Definition set_handlers (m : pystr) (hs : list nat) (s : logfs) : logfs :=
  mkLogFs (names s) (inodes s) (next_inode s) (<[m := hs]> (handlers s)) (loggers s) (job s) (all_log s).
Definition set_job (j : option trim_job) (s : logfs) : logfs :=
  mkLogFs (names s) (inodes s) (next_inode s) (handlers s) (loggers s) j (all_log s).
(** [open(path, "a")]: the inode of the file, made when there is none. *)
Definition open_append (m : pystr) (s : logfs) : nat * logfs :=
  match names s !! m with
  | Some i => (i, s)
  | None => (next_inode s, mkLogFs (<[m := next_inode s]> (names s)) (<[next_inode s := []]> (inodes s)) (S (next_inode s))
                             (handlers s) (loggers s) (job s) (all_log s))
  end.
(** [_attach_mapping_handler]; [opens] says whether the file could be opened. *)
Definition _attach_mapping_handler (opens : bool) (m : pystr) (s : logfs) : logfs :=
  if opens then let '(i, s) := open_append m s in set_handlers m (handlers_of m s ++ [i]) s else s.
Definition _mapping_logger (opens : bool) (m : pystr) (s : logfs) : logfs :=
  if decide (m ∈ loggers s) then s
  else
    let s := _attach_mapping_handler opens m (set_handlers m [] s) in
    mkLogFs (names s) (inodes s) (next_inode s) (handlers s) ({[m]} ∪ loggers s) (job s) (all_log s).
(** A line of a mapping: to all.log, and to each handler of its logger. *)
Definition append_to (rec : bytes) (ino : gmap nat bytes) (i : nat) : gmap nat bytes := alter (λ b, b ++ rec) i ino.
Definition log_line (m : pystr) (rec : bytes) (s : logfs) : logfs :=
  mkLogFs (names s) (foldl (append_to rec) (inodes s) (handlers_of m s)) (next_inode s) (handlers s) (loggers s) (job s) (all_log s ++ [rec]).
Definition delete_mapping_log (removed : bool) (m : pystr) (s : logfs) : logfs :=
  let s := if decide (m ∈ loggers s)
           then mkLogFs (names s) (inodes s) (next_inode s) (<[m := []]> (handlers s)) (loggers s ∖ {[m]}) (job s) (all_log s) else s in
  mkLogFs (if removed then delete m (names s) else names s) (inodes s) (next_inode s) (handlers s) (loggers s) (job s) (all_log s).
(** Maintenance of one file: detach, read and decide, replace, attach again. *)
Definition detach (m : pystr) (s : logfs) : logfs :=
  let had := bool_decide (m ∈ loggers s) in
  set_job (Some (mkJob m had Detached)) (if had then set_handlers m [] s else s).
Definition replace_file (m : pystr) (data : bytes) (s : logfs) : logfs :=
  mkLogFs (<[m := next_inode s]> (names s)) (<[next_inode s := data]> (inodes s)) (S (next_inode s)) (handlers s) (loggers s) (job s) (all_log s).

Section files.
Context (timestamp : pystr → option Z) (max_bytes : Z).
Inductive lstep :=
  | LMake (opens : bool) (m : pystr)
  | LLine (m : pystr) (rec : bytes)
  | LDelete (removed : bool) (m : pystr)
  | LDetach (m : pystr)
  | LRead (cutoff : Z) (written : bool)
  | LReplace
  | LAttach (opens : bool).
Definition lact (a : lstep) (s : logfs) : option logfs :=
  match a with
  | LMake opens m => Some (_mapping_logger opens m s)
  | LLine m rec => Some (log_line m rec s)
  | LDelete removed m => Some (delete_mapping_log removed m s)
  | LDetach m => match job s, names s !! m with None, Some _ => Some (detach m s) | _, _ => None end
  | LRead cutoff written =>
      match job s with
      | Some (mkJob m had Detached) =>
          let '(r, data) := _trim_log_file timestamp cutoff max_bytes written (content m s) in
          Some (set_job (Some (mkJob m had (Read r data))) s)
      | _ => None
      end
  | LReplace =>
      match job s with
      | Some (mkJob m had (Read (Ok true) (Some data))) => Some (set_job (Some (mkJob m had Trimmed)) (replace_file m data s))
      | Some (mkJob m had (Read _ _)) => Some (set_job (Some (mkJob m had Trimmed)) s)
      | _ => None
      end
  | LAttach opens =>
      match job s with
      | Some (mkJob m had Trimmed) => Some (set_job None (if had then _attach_mapping_handler opens m s else s))
      | _ => None
      end
  end.
Definition lrun (l : list lstep) (s : logfs) : option logfs := foldl (λ o a, o ≫= lact a) (Some s) l.
End files.

(** ** Maintenance loses nothing that is logged to a file *)
Section files_facts.
Context (timestamp : pystr → option Z) (max_bytes : Z).
#[local] Abbreviation act := (lact timestamp max_bytes).
Definition trimming (s : logfs) : option pystr := j_file <$> job s.
(** A mapping is not made and not deleted while its file is trimmed. *)
Definition safe (a : lstep) (s : logfs) : Prop :=
  match a with LMake _ m | LDelete _ m => trimming s ≠ Some m | _ => True end.
Inductive lreach : logfs → Prop :=
  | lr_init : lreach logfs0
  | lr_step a s s' : lreach s → safe a s → act a s = Some s' → lreach s'.
Definition attached (m : pystr) (s : logfs) : Prop := handlers_of m s ≠ [].
Record files_inv (s : logfs) : Prop := mkFilesInv {
  fi_names : ∀ m i, names s !! m = Some i → (i < next_inode s)%nat ∧ is_Some (inodes s !! i);
  fi_inj : ∀ m m' i, names s !! m = Some i → names s !! m' = Some i → m = m';
  fi_handlers : ∀ m, handlers_of m s = [] ∨ ∃ i, handlers_of m s = [i] ∧ names s !! m = Some i ∧ m ∈ loggers s;
  fi_job : ∀ m had st, job s = Some (mkJob m had st) →
    handlers_of m s = [] ∧ (had = true ↔ m ∈ loggers s) ∧ is_Some (names s !! m)
    ∧ ∀ r data, st = Read r data → ∃ cutoff written, _trim_log_file timestamp cutoff max_bytes written (content m s) = (r, data);
}.
Lemma handlers_set m m' hs s : handlers_of m (set_handlers m' hs s) = if decide (m = m') then hs else handlers_of m s.
Proof. unfold handlers_of, set_handlers. cbn. case_decide as E; [subst; by rewrite lookup_insert_eq|by rewrite lookup_insert_ne]. Qed.
Lemma open_append_spec m s i s' : files_inv s → open_append m s = (i, s') →
  names s' !! m = Some i ∧ content m s' = Some (default [] (content m s))
  ∧ (∀ m', m' ≠ m → names s' !! m' = names s !! m' ∧ content m' s' = content m' s)
  ∧ (∀ m' i', names s' !! m' = Some i' → (i' < next_inode s')%nat ∧ is_Some (inodes s' !! i'))
  ∧ (∀ m1 m2 i', names s' !! m1 = Some i' → names s' !! m2 = Some i' → m1 = m2)
  ∧ handlers s' = handlers s ∧ loggers s' = loggers s ∧ job s' = job s ∧ all_log s' = all_log s.
Proof.
  intros [Hn Hi _ _]. unfold open_append. destruct (names s !! m) as [j|] eqn:E; intros [= <- <-].
  - split_and!; try done. unfold content. rewrite E. cbn. by destruct (Hn _ _ E) as [_ [b ->]].
  - assert (∀ m' i', names s !! m' = Some i' → i' ≠ next_inode s) as Hne by (intros m' i' H; apply Hn in H; lia).
    unfold content. cbn. split_and!; try done.
    + by rewrite lookup_insert_eq.
    + rewrite lookup_insert_eq. cbn. rewrite lookup_insert_eq, E. done.
    + intros m' Hm. rewrite lookup_insert_ne by done. split; [done|]. destruct (names s !! m') as [i'|] eqn:E'; [|done]. cbn.
      rewrite lookup_insert_ne; [done|]. intros <-. by eapply Hne.
    + intros m' i' H. destruct (decide (m' = m)) as [->|Hm].
      * rewrite lookup_insert_eq in H. injection H as <-. split; [lia|]. by rewrite lookup_insert_eq.
      * rewrite lookup_insert_ne in H by done. destruct (Hn _ _ H). split; [lia|]. rewrite lookup_insert_ne; [done|]. intros <-. by eapply Hne.
    + intros m1 m2 i' H1 H2. destruct (decide (m1 = m)) as [->|Hm1], (decide (m2 = m)) as [->|Hm2]; [done|..].
      * rewrite lookup_insert_eq in H1. rewrite lookup_insert_ne in H2 by done. injection H1 as <-. by apply Hne in H2.
      * rewrite lookup_insert_eq in H2. rewrite lookup_insert_ne in H1 by done. injection H2 as <-. by apply Hne in H1.
      * rewrite lookup_insert_ne in H1, H2 by done. by eapply Hi.
Qed.
Lemma attach_spec opens m s :
  files_inv s → handlers_of m s = [] → m ∈ loggers s → trimming s ≠ Some m →
  let s' := _attach_mapping_handler opens m s in
  files_inv s' ∧ content m s' = (if opens then Some (default [] (content m s)) else content m s)
  ∧ (attached m s' ↔ opens = true) ∧ (∀ m', m' ≠ m → content m' s' = content m' s ∧ handlers_of m' s' = handlers_of m' s)
  ∧ loggers s' = loggers s ∧ job s' = job s ∧ all_log s' = all_log s.
Proof.
  intros Hi Hh Hl Ht. unfold _attach_mapping_handler. destruct opens; cbn zeta; [|by split_and!; unfold attached; rewrite ?Hh].
  destruct (open_append m s) as [i s1] eqn:Eo. pose proof (open_append_spec _ _ _ _ Hi Eo) as (Hm & Hc & Ho & Hn & Hinj & Eh & El & Ej & Ea).
  assert (handlers_of m s1 = []) as Hh1 by (unfold handlers_of in *; by rewrite Eh). rewrite Hh1. cbn [app]. split_and!; try done.
  - constructor; [done|done| |].
    + intros m'. rewrite handlers_set. case_decide as E; [subst; right; exists i; cbn; by rewrite El|].
      destruct (fi_handlers _ Hi m') as [H|(i' & H & Hn' & Hl')]; [left; unfold handlers_of in *; by rewrite Eh|].
      right. exists i'. cbn. rewrite El. destruct (Ho m' E) as [-> _]. split_and!; [unfold handlers_of in *; by rewrite Eh|done..].
    + intros m' had st Hj. cbn in Hj. rewrite Ej in Hj. assert (m' ≠ m) as Hne by (intros ->; apply Ht; unfold trimming; by rewrite Hj).
      destruct (fi_job _ Hi _ _ _ Hj) as (H1 & H2 & H3 & H4). destruct (Ho m' Hne) as [En Ec]. rewrite handlers_set, decide_False by done.
      cbn. rewrite El, En. split_and!; [unfold handlers_of in *; by rewrite Eh|done|done|].
      intros r d Hr. destruct (H4 r d Hr) as (cu & w & Hw). exists cu, w. by rewrite <- Ec in Hw.
  - unfold attached. rewrite handlers_set, decide_True by done. done.
  - intros m' Hne. destruct (Ho m' Hne) as [En Ec]. rewrite handlers_set, decide_False by done. split; [exact Ec|unfold handlers_of; by rewrite Eh].
Qed.
(** Dropping the handlers of a mapping keeps the invariant. *)
Lemma drop_handlers_inv m s : files_inv s → files_inv (set_handlers m [] s).
Proof.
  intros [Hn Hi Hh Hj]. constructor; [done|done| |].
  - intros m'. rewrite handlers_set. case_decide; [by left|apply Hh].
  - intros m' had st H. destruct (Hj _ _ _ H) as (H1 & H2). rewrite handlers_set. case_decide; done.
Qed.
Lemma add_logger_inv m s : files_inv s → trimming s ≠ Some m →
  files_inv (mkLogFs (names s) (inodes s) (next_inode s) (handlers s) ({[m]} ∪ loggers s) (job s) (all_log s)).
Proof.
  intros [Hn Hi Hh Hj] Ht. constructor; [done|done| |].
  - intros m'. destruct (Hh m') as [H|(i & H & H' & Hl)]; [by left|right]. exists i. cbn. split_and!; [done..|set_solver].
  - intros m' had st H. destruct (Hj _ _ _ H) as (H1 & H2 & H3 & H4). cbn. split_and!; [done| |done|done]. rewrite H2.
    assert (m' ≠ m) by (intros ->; apply Ht; unfold trimming; cbn in H; by rewrite H). set_solver.
Qed.
Lemma remove_logger_inv (removed : bool) m s : files_inv s → trimming s ≠ Some m →
  files_inv (mkLogFs (if removed then delete m (names s) else names s) (inodes s) (next_inode s) (<[m := []]> (handlers s)) (loggers s ∖ {[m]}) (job s) (all_log s)).
Proof.
  intros Hi Ht. apply (drop_handlers_inv m) in Hi as [Hn Hi Hh Hj].
  assert (∀ x i, (if removed then delete m (names s) else names s) !! x = Some i → names s !! x = Some i) as Hd.
  { intros x i. destruct removed; [|done]. by intros [_ ?]%lookup_delete_Some. }
  constructor.
  - intros x i H. apply Hd in H. by apply (Hn x).
  - intros x y i H1 H2. apply Hd in H1, H2. by apply (Hi x y i).
  - intros x. destruct (decide (x = m)) as [->|Hx]; [left; unfold handlers_of; cbn; by rewrite lookup_insert_eq|].
    destruct (Hh x) as [H|(i & H & H' & Hl)]; [by left|right]. exists i. cbn in *. split_and!; [done| |set_solver].
    destruct removed; [by rewrite lookup_delete_ne|done].
  - intros x had st H. assert (x ≠ m) as Hx by (intros ->; apply Ht; unfold trimming; cbn in H; by rewrite H).
    destruct (Hj _ _ _ H) as (H1 & H2 & H3 & H4). cbn in *.
    assert ((if removed then delete m (names s) else names s) !! x = names s !! x) as En by (destruct removed; [by rewrite lookup_delete_ne|done]).
    rewrite En. split_and!; [done|set_solver|done|]. intros r d Hr. destruct (H4 r d Hr) as (cu & w & Hw). exists cu, w.
    unfold content in *. cbn in *. by rewrite En.
Qed.
Lemma delete_eq (removed : bool) m s : files_inv s →
  delete_mapping_log removed m s =
    mkLogFs (if removed then delete m (names s) else names s) (inodes s) (next_inode s)
      (if decide (m ∈ loggers s) then <[m := []]> (handlers s) else handlers s) (loggers s ∖ {[m]}) (job s) (all_log s).
Proof.
  intros Hi. unfold delete_mapping_log. case_decide; [done|]. cbn. f_equal. set_solver.
Qed.
Lemma line_spec m rec s : files_inv s →
  files_inv (log_line m rec s)
  ∧ ∀ x, content x (log_line m rec s) = if decide (x = m ∧ attached m s) then (λ b, b ++ rec) <$> content x s else content x s.
Proof.
  intros [Hn Hi Hh Hj].
  assert (∀ x, content x (log_line m rec s) = if decide (x = m ∧ attached m s) then (λ b, b ++ rec) <$> content x s else content x s) as Hc.
  { intros x. unfold content, attached, log_line. cbn [names inodes].
    destruct (Hh m) as [H|(i & H & Hm & _)]; rewrite H; cbn [foldl].
    - rewrite decide_False by by intros []. done.
    - destruct (decide (x = m)) as [->|Hx].
      + rewrite decide_True by done. rewrite Hm. cbn. unfold append_to. by rewrite lookup_alter_eq.
      + rewrite decide_False by by intros []. destruct (names s !! x) as [i'|] eqn:Ex; [|done]. cbn. unfold append_to.
        rewrite lookup_alter_ne; [done|]. intros ->. by apply Hx, (Hi _ _ i'). }
  split; [|done]. constructor; cbn.
  - intros x i H. destruct (Hn _ _ H) as [Hlt Hs]. split; [done|]. destruct (Hh m) as [E|(j & E & _)]; rewrite E; cbn; [done|].
    unfold append_to. destruct (decide (i = j)) as [->|Hne]; [rewrite lookup_alter_eq; by apply fmap_is_Some|by rewrite lookup_alter_ne].
  - done.
  - exact Hh.
  - intros x had st H. destruct (Hj _ _ _ H) as (H1 & H2 & H3 & H4). split_and!; [done|done|done|].
    intros r d Hr. destruct (H4 r d Hr) as (cu & w & Hw). exists cu, w. rewrite Hc, decide_False; [done|]. intros [-> Ha]. by apply Ha.
Qed.
Lemma set_job_inv j s : files_inv s →
  (∀ m had st, j = Some (mkJob m had st) → handlers_of m s = [] ∧ (had = true ↔ m ∈ loggers s) ∧ is_Some (names s !! m)
    ∧ ∀ r data, st = Read r data → ∃ cutoff written, _trim_log_file timestamp cutoff max_bytes written (content m s) = (r, data)) →
  files_inv (set_job j s).
Proof. intros [Hn Hi Hh _] Hj. by constructor. Qed.
Lemma replace_spec m data s : files_inv s → handlers_of m s = [] → is_Some (names s !! m) → job s = None →
  files_inv (replace_file m data s)
  ∧ ∀ x, content x (replace_file m data s) = if decide (x = m) then Some data else content x s.
Proof.
  intros [Hn Hi Hh Hj] Hm Hs Hjob.
  assert (∀ x i, names s !! x = Some i → i ≠ next_inode s) as Hne by (intros x i H; apply Hn in H; lia). split.
  - constructor; cbn.
    + intros x i H. destruct (decide (x = m)) as [->|Hx]; [rewrite lookup_insert_eq in H|rewrite lookup_insert_ne in H by done].
      * injection H as <-. split; [lia|]. by rewrite lookup_insert_eq.
      * destruct (Hn _ _ H). split; [lia|]. rewrite lookup_insert_ne; [done|]. intros <-. by eapply Hne.
    + intros x y i H1 H2. destruct (decide (x = m)) as [->|Hx], (decide (y = m)) as [->|Hy]; [done|..].
      * rewrite lookup_insert_eq in H1. rewrite lookup_insert_ne in H2 by done. injection H1 as <-. by apply Hne in H2.
      * rewrite lookup_insert_eq in H2. rewrite lookup_insert_ne in H1 by done. injection H2 as <-. by apply Hne in H1.
      * rewrite lookup_insert_ne in H1, H2 by done. by eapply Hi.
    + intros x. destruct (Hh x) as [H|(i & H & H' & Hl)]; [by left|right]. exists i. split_and!; [done| |done].
      rewrite lookup_insert_ne; [done|]. intros <-. by rewrite Hm in H.
    + intros x had st H. by rewrite Hjob in H.
  - intros x. unfold content. cbn. case_decide as E; [subst; rewrite lookup_insert_eq; cbn; by rewrite lookup_insert_eq|].
    rewrite lookup_insert_ne by done. destruct (names s !! x) as [i|] eqn:Ex; [|done]. cbn. rewrite lookup_insert_ne; [done|]. intros <-. by eapply Hne.
Qed.
(** What every file holds after a step. *)
Definition after (a : lstep) (s : logfs) (m : pystr) : option bytes :=
  match a with
  | LMake opens m' => if decide (m = m' ∧ m ∉ loggers s ∧ opens = true) then Some (default [] (content m s)) else content m s
  | LLine m' rec => if decide (m = m' ∧ attached m' s) then (λ b, b ++ rec) <$> content m s else content m s
  | LDelete removed m' => if decide (m = m' ∧ removed = true) then None else content m s
  | LReplace => match job s with
                | Some (mkJob m' _ (Read (Ok true) (Some data))) => if decide (m = m') then Some data else content m s
                | _ => content m s
                end
  | LDetach _ | LRead _ _ | LAttach _ => content m s
  end.
Lemma logger_made opens m s : m ∉ loggers s →
  _mapping_logger opens m s = _attach_mapping_handler opens m (mkLogFs (names s) (inodes s) (next_inode s) (<[m := []]> (handlers s)) ({[m]} ∪ loggers s) (job s) (all_log s)).
Proof.
  intros Hm. unfold _mapping_logger. rewrite decide_False by done. unfold _attach_mapping_handler, open_append. destruct opens; [|done].
  cbn. by destruct (names s !! m).
Qed.
Lemma make_step opens m s : files_inv s → trimming s ≠ Some m →
  files_inv (_mapping_logger opens m s) ∧ ∀ x, content x (_mapping_logger opens m s) = after (LMake opens m) s x.
Proof.
  intros Hi Ht. destruct (decide (m ∈ loggers s)) as [Hm|Hm].
  - unfold _mapping_logger. rewrite decide_True by done. split; [done|]. intros x. cbn. by rewrite decide_False by by intros (-> & ? & _).
  - rewrite logger_made by done.
    assert (files_inv (mkLogFs (names s) (inodes s) (next_inode s) (<[m := []]> (handlers s)) ({[m]} ∪ loggers s) (job s) (all_log s))) as Hi'
      by (apply (add_logger_inv m (set_handlers m [] s)); [by apply drop_handlers_inv|done]).
    destruct (attach_spec opens m _ Hi') as (H1 & H2 & _ & H4 & _); [unfold handlers_of; cbn; by rewrite lookup_insert_eq|cbn; set_solver|done|].
    split; [done|]. intros x. cbn. destruct (decide (x = m)) as [->|Hx].
    + rewrite H2. destruct opens; [by rewrite decide_True by done|by rewrite decide_False by by intros (_ & _ & ?)].
    + rewrite decide_False by by intros []. by destruct (H4 x Hx).
Qed.
Lemma delete_step removed m s : files_inv s → trimming s ≠ Some m →
  files_inv (delete_mapping_log removed m s) ∧ ∀ x, content x (delete_mapping_log removed m s) = after (LDelete removed m) s x.
Proof.
  intros Hi Ht. rewrite delete_eq by done. split.
  - case_decide as Hm; [by apply remove_logger_inv|]. pose proof (remove_logger_inv removed m s Hi Ht) as [Hn Hj Hh Hb].
    assert (handlers_of m s = []) as Hhm by (destruct (fi_handlers _ Hi m) as [H|(i & _ & _ & Hl)]; [done|by apply Hm in Hl]).
    constructor; [done|done| |].
    + intros x. destruct (decide (x = m)) as [->|Hx]; [by left|]. specialize (Hh x). unfold handlers_of in *. cbn in *. by rewrite lookup_insert_ne in Hh.
    + intros x had st H. destruct (Hb x had st H) as (_ & H2). split; [|done]. by destruct (fi_job _ Hi _ _ _ H) as [? _].
  - intros x. unfold content, after. cbn. destruct removed; [|by rewrite decide_False by by intros []].
    case_decide as E; [destruct E as [-> _]; by rewrite lookup_delete_eq|]. rewrite lookup_delete_ne; [done|]. intros ->. by apply E.
Qed.
Lemma lact_inv a s s' : files_inv s → safe a s → act a s = Some s' → files_inv s' ∧ ∀ x, content x s' = after a s x.
Proof.
  intros Hi Hs Ha. destruct a as [opens m|m rec|removed m|m|cutoff written| |opens]; cbn [lact] in Ha.
  - injection Ha as <-. by apply make_step.
  - injection Ha as <-. by apply line_spec.
  - injection Ha as <-. by apply delete_step.
  - destruct (job s) eqn:Ej; [done|]. destruct (names s !! m) as [i|] eqn:Em; [|done]. injection Ha as <-. unfold detach. split.
    + case_bool_decide as Hl; (apply set_job_inv; [first [by apply drop_handlers_inv|done]|]); intros x had st [= <- <- <-]; rewrite ?handlers_set, ?decide_True by done; cbn.
      * split_and!; [done|done|by rewrite Em|done].
      * split_and!; [|done|by rewrite Em|done]. destruct (fi_handlers _ Hi m) as [H|(j & _ & _ & H)]; done.
    + intros x. by case_bool_decide.
  - destruct (job s) as [[m had []]|] eqn:Ej; try done. destruct (_trim_log_file _ _ _ _ _) as [r d] eqn:Et. injection Ha as <-.
    destruct (fi_job _ Hi _ _ _ Ej) as (H1 & H2 & H3 & _). split; [|done]. apply set_job_inv; [done|].
    intros x h st [= <- <- <-]. split_and!; [done..|]. intros r' d' [= <- <-]. eauto.
  - destruct (job s) as [[m had [|r d|]]|] eqn:Ej; try done. destruct (fi_job _ Hi _ _ _ Ej) as (H1 & H2 & H3 & H4).
    assert (files_inv (set_job None s)) as Hi0 by by apply set_job_inv.
    assert (∀ s0, set_job (Some (mkJob m had Trimmed)) s0 = set_job (Some (mkJob m had Trimmed)) (set_job None s0)) as Hsj by done.
    destruct r as [[]|x]; [destruct d as [data|]|..]; injection Ha as <-; rewrite Hsj.
    + change (set_job None (replace_file m data s)) with (replace_file m data (set_job None s)).
      destruct (replace_spec m data (set_job None s) Hi0 H1 H3 eq_refl) as [Hr Hc]. split.
      * apply set_job_inv; [done|]. intros x h st [= <- <- <-]. split_and!; [done|done| |done]. cbn. by rewrite lookup_insert_eq.
      * intros x. cbn [after]. rewrite Ej. exact (Hc x).
    + split; [apply set_job_inv; [done|]; intros x h st [= <- <- <-]; done|]. intros x. cbn [after]. by rewrite Ej.
    + split; [apply set_job_inv; [done|]; intros x h st [= <- <- <-]; done|]. intros x. cbn [after]. by rewrite Ej.
    + split; [apply set_job_inv; [done|]; intros y h st [= <- <- <-]; done|]. intros y. cbn [after]. by rewrite Ej.
  - destruct (job s) as [[m had []]|] eqn:Ej; try done. destruct (fi_job _ Hi _ _ _ Ej) as (H1 & H2 & H3 & _).
    assert (files_inv (set_job None s)) as Hi0 by by apply set_job_inv. destruct had; injection Ha as <-; [|done].
    change (set_job None (_attach_mapping_handler opens m s)) with (set_job None (_attach_mapping_handler opens m s)).
    assert (set_job None (_attach_mapping_handler opens m s) = _attach_mapping_handler opens m (set_job None s)) as ->.
    { unfold _attach_mapping_handler, open_append. destruct opens; [|done]. cbn. by destruct (names s !! m). }
    destruct (attach_spec opens m (set_job None s) Hi0 H1 (proj1 H2 eq_refl)) as (Hr & Hc & _ & Ho & _); [done|]. split; [done|].
    intros x. cbn. destruct (decide (x = m)) as [->|Hx]; [|by destruct (Ho x Hx)]. rewrite Hc. destruct opens; [|done].
    change (content m (set_job None s)) with (content m s). destruct H3 as [i Hm]. destruct (fi_names _ Hi _ _ Hm) as [_ [b Hb]].
    unfold content. rewrite Hm. cbn. by rewrite Hb.
Qed.
Lemma lreach_inv s : lreach s → files_inv s.
Proof.
  induction 1 as [|a s s' _ IH Hs Ha]; [|by destruct (lact_inv a s s' IH Hs Ha)].
  constructor; try done. intros m. by left.
Qed.
End files_facts.

(** ** Concretely *)
Abbreviation demo_lrun := (lrun demo_timestamp 1000).
Definition m1 : pystr := str "m1".
Definition line1 : bytes := str "5 client" ++ [10].
Definition line2 : bytes := str "9 late" ++ [10].
(** A log that holds an old line. *)
Definition demo_old : list lstep := [LMake true m1; LLine m1 (str "1 opened" ++ [10]); LLine m1 line1].
Definition demo_logs : logfs := default logfs0 (demo_lrun demo_old logfs0).
Definition demo_pass : logfs := default logfs0 (demo_lrun [LDetach m1; LRead 4 true] demo_logs).
(** A mapping that is deleted while its log is trimmed: the file comes back with everything in it, and its handler stays open. *)
Example deleted_log_comes_back :
  (λ s, (content m1 s, handlers_of m1 s, bool_decide (m1 ∈ loggers s)))
    <$> demo_lrun [LDetach m1; LRead 4 true; LDelete true m1; LReplace; LAttach true] demo_logs
  = Some (Some line1, [1%nat], false).
Proof. vm_compute. reflexivity. Qed.
(** A mapping that is started for the first time while its old log is trimmed writes to the file that was replaced: its lines are
    lost until the next pass. *)
Example started_in_a_pass :
  (λ s, (content m1 s, handlers_of m1 s)) <$> demo_lrun [LDetach m1; LRead 4 true; LMake true m1; LReplace; LAttach true; LLine m1 line2]
                         (mkLogFs (names demo_logs) (inodes demo_logs) 1 ∅ ∅ None [])
  = Some (Some line1, [0%nat]).
Proof. vm_compute. reflexivity. Qed.
(** One that is deleted and made again (undoing an import) during a pass has two handlers: every line is written twice. *)
Example made_again_in_a_pass :
  (λ s, content m1 s) <$> demo_lrun [LDetach m1; LRead 0 true; LReplace; LDelete true m1; LMake true m1; LAttach true; LLine m1 line2] demo_logs
  = Some (Some (line2 ++ line2)).
Proof. vm_compute. reflexivity. Qed.
