(* ===== verification/Directory.v ===== *)
(** * External sign-in: the directory and the identity provider (app/web/ldap_auth.py, oidc_auth.py, routes/login.py)

    What the program asks a directory or a provider, in which order, and what it makes of the answers. Directory and provider are
    arbitrary: [directory] answers each call from all the calls before it, [fetch] and [post] are the provider's HTTP answers, and a
    call may always raise. ldap3's two escape functions and authlib's check of a token are parameters. *)
From S2P Require Import Prelude PyStr PyVal PyNum Json JsonOut Base64 Config AppConfig Auth Store ConfigStore Supervisor Importer Forms Ops Accounts Cluster PeerHttp.
#[local] Open Scope Z_scope.

(** ** [str.format(username=value)]
    [other_field] is a field with an attribute, an index, a conversion or a format; a field within a field is refused. *)
Section format.
Context (other_field : pystr → pystr → res pystr).
Definition field_value (name value : pystr) : res pystr :=
  if str_eqb name (str "username") then Ok value
  else if existsb (λ c, existsb (Z.eqb c) (str "!:.[")) name then other_field name value
  else if forallb (in_range 48 57) name then raise IndexError "Replacement index {0} out of range"
  else raise KeyError "name".
(** [name] is the field being read, [None] outside of one. *)
Fixpoint format_from (name : option pystr) (t value : pystr) : res pystr :=
  match t with
  | [] => match name with None => Ok [] | Some _ => raise ValueError "expected '}' before end of string" end
  | c :: r =>
      match name with
      | Some n =>
          if c =? 125 then v ← field_value n value; app v <$> format_from None r value
          else if c =? 123 then raise ValueError "unexpected '{' in field name"
          else format_from (Some (n ++ [c])) r value
      | None =>
          if c =? 123 then
            match r with
            | d :: r' => if d =? 123 then cons 123 <$> format_from None r' value else format_from (Some []) r value
            | [] => format_from (Some []) r value
            end
          else if c =? 125 then
            match r with
            | d :: r' => if d =? 125 then cons 125 <$> format_from None r' value else raise ValueError "Single '}' encountered in format string"
            | [] => raise ValueError "Single '}' encountered in format string"
            end
          else cons c <$> format_from None r value
      end
  end.
Definition py_format (t value : pystr) : res pystr := format_from None t value.

(** ** LDAP *)
Inductive ldap_call :=
  | LServer (uri : pystr) (use_ssl : bool)
  | LBind (conn : nat) (tls : bool) (user password : pyval)
  | LSearch (conn : nat) (base : pyval) (filter : pystr) (only_base : bool) (attribute : pyval)
  | LUnbind (conn : nat).
(** An entry: its DN, and [entry\[attr\].values], which may raise. *)
Record ldap_entry := mkEntryOf { entry_dn : pystr; entry_values : res (list pyval) }.
Context (repr : pyval → pystr) (escape_rdn escape_filter_chars : pystr → pystr).
Context (directory : list ldap_call → ldap_call → res (list ldap_entry)).
Definition ask (c : ldap_call) : st (list ldap_call) (list ldap_entry) := λ h, (directory h c, h ++ [c]).
Definition _entry_groups (x : ldap_entry) : list pyval :=
  match entry_values x with Ok vs => (λ v, VStr (str_of_val repr v)) <$> vs | Raise _ => [] end.
Definition text_of (v : pyval) : res pystr := match v with VStr s => Ok s | _ => raise AttributeError "object has no attribute 'lower'" end.
Definition direct_groups (s : LdapSettings) (dn : pystr) : st (list ldap_call) (list pyval) :=
  st_catch any_exn
    (es ← ask (LSearch 0 (VStr dn) (str "(objectClass=*)") true (group_attr s));
     mret (match es with x :: _ => _entry_groups x | [] => [] end))
    (λ _, mret []).
Definition direct_bind (s : LdapSettings) (username password : pystr) : st (list ldap_call) (option (list pyval)) :=
  t ← st_lift (text_of (user_dn_template s));
  dn ← st_lift (py_format t (escape_rdn username));
  _ ← ask (LBind 0 (truthy (start_tls s)) (VStr dn) (VStr password));
  groups ← direct_groups s dn;
  _ ← ask (LUnbind 0);
  mret (Some groups).
Definition search_bind (s : LdapSettings) (username password : pystr) : st (list ldap_call) (option (list pyval)) :=
  _ ← ask (LBind 0 (truthy (start_tls s)) (bind_dn s) (bind_password s));
  t ← st_lift (text_of (user_search_filter s));
  flt ← st_lift (py_format t (escape_filter_chars username));
  es ← ask (LSearch 0 (user_search_base s) flt false (group_attr s));
  _ ← ask (LUnbind 0);
  match es with
  | [] => mret None
  | x :: _ =>
      _ ← ask (LBind 1 (truthy (start_tls s)) (VStr (entry_dn x)) (VStr password));
      _ ← ask (LUnbind 1);
      mret (Some (_entry_groups x))
  end.
Definition authenticate_body (s : LdapSettings) (username password : pystr) : st (list ldap_call) (option (list pyval)) :=
  uri ← st_lift (text_of (server_uri s));
  _ ← ask (LServer uri (starts_with (lower uri) (str "ldaps")));
  t ← st_lift (strip_of (user_dn_template s));
  if negb (is_empty t) then direct_bind s username password else search_bind s username password.
(** The groups, [None] for a refusal, and the calls made. [installed]: ldap3 could be imported. *)
Definition authenticate (installed : bool) (s : LdapSettings) (username password : pystr) : option (list pyval) * list ldap_call :=
  if is_empty username || is_empty password || negb installed then (None, [])
  else match authenticate_body s username password [] with
       | (Ok r, h) => (r, h)
       | (Raise _, h) => (None, h)
       end.

(** *** Whoever is let in was bound with the password given *)
(** [bound h dn pw]: among the calls [h] the directory took [pw] for [dn]. *)
Definition bound (h : list ldap_call) (dn pw : pyval) : Prop :=
  ∃ h1 conn tls h2, h = h1 ++ LBind conn tls dn pw :: h2 ∧ is_ok (directory h1 (LBind conn tls dn pw)) = true.
(** The entry a search found first. *)
Definition found (h : list ldap_call) (base : pyval) (flt : pystr) (x : ldap_entry) : Prop :=
  ∃ h1 conn attr h2 es, h = h1 ++ LSearch conn base flt false attr :: h2 ∧ directory h1 (LSearch conn base flt false attr) = Ok (x :: es).
Lemma ask_inv c h es h' : ask c h = (Ok es, h') → directory h c = Ok es ∧ h' = h ++ [c].
Proof. unfold ask. intros [= H1 H2]. done. Qed.
Lemma direct_groups_calls s dn h r h' : direct_groups s dn h = (r, h') → ∃ gs c, r = Ok gs ∧ h' = h ++ [c].
Proof.
  unfold direct_groups, st_catch, mbind, st_bind, ask. destruct (directory h _); intros [= <- <-]; eauto.
Qed.
Theorem ldap_sound installed s username password groups h :
  authenticate installed s username password = (Some groups, h) →
  username ≠ [] ∧ password ≠ []
  ∧ ((∃ t dn, user_dn_template s = VStr t ∧ strip t ≠ [] ∧ py_format t (escape_rdn username) = Ok dn ∧ bound h (VStr dn) (VStr password))
     ∨ ∃ t flt x, user_search_filter s = VStr t ∧ py_format t (escape_filter_chars username) = Ok flt
         ∧ bound h (bind_dn s) (bind_password s) ∧ found h (user_search_base s) flt x ∧ groups = _entry_groups x
         ∧ bound h (VStr (entry_dn x)) (VStr password)).
Proof.
  unfold authenticate. destruct (is_empty username || is_empty password || negb installed) eqn:E; [done|].
  apply orb_false_iff in E as [E _]. apply orb_false_iff in E as [Eu Ep]. intros H.
  split_and!; [by destruct username|by destruct password|].
  destruct (authenticate_body s username password []) as [[r|] h'] eqn:Eb; [|done]. injection H as -> ->.
  unfold authenticate_body in Eb. apply st_bind_inv in Eb as (uri & s1 & E1 & Eb). apply st_lift_inv in E1 as [_ ->].
  apply st_bind_inv in Eb as (es & s2 & E2 & Eb). apply ask_inv in E2 as [_ ->].
  apply st_bind_inv in Eb as (t & s3 & E3 & Eb). apply st_lift_inv in E3 as [Et ->].
  destruct (is_empty t) eqn:Ee; cbn [negb] in Eb.
  - right. unfold search_bind in Eb. apply st_bind_inv in Eb as (es1 & s4 & E4 & Eb). apply ask_inv in E4 as [D1 ->].
    apply st_bind_inv in Eb as (t1 & s5 & E5 & Eb). apply st_lift_inv in E5 as [Et1 ->].
    apply st_bind_inv in Eb as (flt & s6 & E6 & Eb). apply st_lift_inv in E6 as [Ef ->].
    apply st_bind_inv in Eb as (es2 & s7 & E7 & Eb). apply ask_inv in E7 as [D2 ->].
    apply st_bind_inv in Eb as (es3 & s8 & E8 & Eb). apply ask_inv in E8 as [_ ->].
    destruct es2 as [|x es2]; [done|].
    apply st_bind_inv in Eb as (es4 & s9 & E9 & Eb). apply ask_inv in E9 as [D3 ->].
    apply st_bind_inv in Eb as (es5 & s10 & E10 & Eb). apply ask_inv in E10 as [_ ->]. injection Eb as <- <-.
    unfold text_of in Et1. destruct (user_search_filter s) as [| | | |tt| | |]; try done. injection Et1 as ->.
    exists t1, flt, x. split_and!; [done|done| | |done|].
    + eexists [_], _, _, [_; _; _; _]. split; [reflexivity|]. exact (f_equal is_ok D1).
    + eexists [_; _], _, _, [_; _; _], _. split; [reflexivity|]. exact D2.
    + eexists [_; _; _; _], _, _, [_]. split; [reflexivity|]. exact (f_equal is_ok D3).
  - left. unfold direct_bind in Eb. apply st_bind_inv in Eb as (t1 & s4 & E4 & Eb). apply st_lift_inv in E4 as [Et1 ->].
    apply st_bind_inv in Eb as (dn & s5 & E5 & Eb). apply st_lift_inv in E5 as [Ef ->].
    apply st_bind_inv in Eb as (es1 & s6 & E6 & Eb). apply ask_inv in E6 as [D1 ->].
    apply st_bind_inv in Eb as (gs & s7 & E7 & Eb). apply direct_groups_calls in E7 as (gs' & c & _ & ->).
    apply st_bind_inv in Eb as (es3 & s8 & E8 & Eb). apply ask_inv in E8 as [_ ->]. injection Eb as <- <-.
    unfold text_of in Et1. destruct (user_dn_template s) as [| | | |tt| | |] eqn:Eut; try done. injection Et1 as ->. injection Et as Et.
    exists t1, dn. split_and!; [done|by rewrite Et; destruct t|done|].
    eexists [_], _, _, [_; _]. split; [reflexivity|]. exact (f_equal is_ok D1).
Qed.
End format.

(** *** What goes out *)
Section calls.
Context (other_field : pystr → pystr → res pystr) (repr : pyval → pystr) (escape_rdn escape_filter_chars : pystr → pystr).
Context (directory : list ldap_call → ldap_call → res (list ldap_entry)).
#[local] Abbreviation auth := (authenticate other_field repr escape_rdn escape_filter_chars directory).
(** Every call is one of these: passwords only go into binds, the service account's with its own DN, the user's
    otherwise, and never an empty one (which a directory takes for an anonymous bind). *)
Definition proper_call (s : LdapSettings) (password : pystr) (c : ldap_call) : Prop :=
  match c with
  | LBind _ _ user pw => (user = bind_dn s ∧ pw = bind_password s) ∨ (pw = VStr password ∧ password ≠ [])
  | LSearch _ _ _ _ attr => attr = group_attr s
  | LServer uri _ => server_uri s = VStr uri
  | LUnbind _ => True
  end.
(** [m] only makes calls with [P], at most [n]. *)
Definition makes {A} (P : ldap_call → Prop) (n : nat) (m : st (list ldap_call) A) : Prop :=
  ∀ h, ∃ cs, (m h).2 = h ++ cs ∧ Forall P cs ∧ (length cs <= n)%nat.
Lemma makes_ask (P : ldap_call → Prop) c : P c → makes P 1 (ask directory c).
Proof. intros Hc h. exists [c]. split_and!; [done|by constructor|done]. Qed.
Lemma makes_lift {A} P (r : res A) : makes P 0 (st_lift r).
Proof. intros h. exists []. by rewrite app_nil_r. Qed.
Lemma makes_ret {A} P (a : A) : makes P 0 (mret a).
Proof. intros h. exists []. by rewrite app_nil_r. Qed.
Lemma makes_bind {A B} P n k (m : st (list ldap_call) A) (f : A → st (list ldap_call) B) :
  makes P n m → (∀ h a, (m h).1 = Ok a → makes P k (f a)) → makes P (n + k) (m ≫= f).
Proof.
  intros Hm Hf h. rewrite st_bind_eq. destruct (Hm h) as (cs & E & Hcs & Hl). pose proof (Hf h) as Hf. destruct (m h) as [[a|x] h1].
  - destruct (Hf a eq_refl h1) as (ds & E2 & Hds & Hl2). exists (cs ++ ds). cbn in E. subst h1. rewrite E2, app_assoc.
    split_and!; [done|by apply Forall_app|rewrite length_app; lia].
  - exists cs. split_and!; [done|done|lia].
Qed.
Lemma makes_catch {A} P n (m : st (list ldap_call) A) (a : A) : makes P n m → makes P n (st_catch any_exn m (λ _, mret a)).
Proof. intros Hm h. destruct (Hm h) as (cs & E & H). unfold st_catch. destruct (m h) as [[b|x] h1]; exists cs; done. Qed.
Lemma makes_weaken {A} P n k (m : st (list ldap_call) A) : makes P n m → (n <= k)%nat → makes P k m.
Proof. intros Hm Hk h. destruct (Hm h) as (cs & E & Hcs & Hl). exists cs. split_and!; [done|done|lia]. Qed.
Lemma direct_calls s u p : p ≠ [] → makes (proper_call s p) 3 (direct_bind other_field repr escape_rdn directory s u p).
Proof.
  intros Hp. unfold direct_bind. eapply (makes_bind _ 0 3); [apply makes_lift|intros ? t _].
  eapply (makes_bind _ 0 3); [apply makes_lift|intros ? dn _]. eapply (makes_bind _ 1 2); [apply makes_ask; by right|intros ? _ _].
  eapply (makes_bind _ 1 1); [|intros ? gs _; eapply (makes_bind _ 1 0); [by apply makes_ask|intros; apply makes_ret]].
  unfold direct_groups. apply makes_catch. eapply (makes_bind _ 1 0); [by apply makes_ask|intros; apply makes_ret].
Qed.
Lemma search_calls s u p : p ≠ [] → makes (proper_call s p) 5 (search_bind other_field repr escape_filter_chars directory s u p).
Proof.
  intros Hp. unfold search_bind. eapply (makes_bind _ 1 4); [apply makes_ask; by left|intros ? _ _].
  eapply (makes_bind _ 0 4); [apply makes_lift|intros ? t _]. eapply (makes_bind _ 0 4); [apply makes_lift|intros ? flt _].
  eapply (makes_bind _ 1 3); [by apply makes_ask|intros ? es _]. eapply (makes_bind _ 1 2); [by apply makes_ask|intros ? _ _].
  destruct es as [|x es]; [eapply makes_weaken; [apply makes_ret|lia]|].
  eapply (makes_bind _ 1 1); [apply makes_ask; by right|intros ? _ _]. eapply (makes_bind _ 1 0); [by apply makes_ask|intros; apply makes_ret].
Qed.
Theorem ldap_calls installed s u p :
  let h := (auth installed s u p).2 in
  Forall (proper_call s p) h ∧ (length h <= 6)%nat ∧ (u = [] ∨ p = [] → h = []).
Proof.
  unfold authenticate. destruct (is_empty u || is_empty p || negb installed) eqn:E; [cbn; split_and!; [done|lia|done]|].
  apply orb_false_iff in E as [E _]. apply orb_false_iff in E as [Eu Ep]. assert (p ≠ []) as Hp by by destruct p.
  assert (makes (proper_call s p) 6 (authenticate_body other_field repr escape_rdn escape_filter_chars directory s u p)) as Hm.
  { unfold authenticate_body. intros h0. destruct (text_of (server_uri s)) as [uri|x] eqn:Eur; [|exists []; rewrite app_nil_r; split_and!; [done|constructor|cbn; lia]].
    revert h0. change (makes (proper_call s p) 6 (ask directory (LServer uri (starts_with (lower uri) (str "ldaps"))) ≫= λ _,
      st_lift (strip_of (user_dn_template s)) ≫= λ t, if negb (is_empty t) then direct_bind other_field repr escape_rdn directory s u p else search_bind other_field repr escape_filter_chars directory s u p)).
    eapply (makes_bind _ 1 5); [apply makes_ask; cbn; unfold text_of in Eur; destruct (server_uri s); try done; by injection Eur as ->|intros ? _ _].
    eapply (makes_bind _ 0 5); [apply makes_lift|intros ? t _]. destruct (negb _); [|by apply search_calls].
    eapply makes_weaken; [by apply direct_calls|lia]. }
  destruct (Hm []) as (cs & Ecs & Hcs & Hl). destruct (authenticate_body _ _ _ _ _ _ _ _ []) as [[r|x] h]; cbn in *; subst;
    (split_and!; [done|done|intros [-> | ->]; done]).
Qed.
End calls.
(** The name cannot reshape the filter: with an escape that leaves no parenthesis, star or NUL (RFC 4515), every user
    name gives a filter with the same ones, in the same order. *)
Definition filter_mark (c : Z) : bool := existsb (Z.eqb c) [0; 40; 41; 42].
Definition no_field (n v : pystr) : res pystr := raise ValueError "field".
Lemma fmap_Ok {A B} (f : A → B) (m : res A) b : f <$> m = Ok b → ∃ a, m = Ok a ∧ b = f a.
Proof. destruct m as [a|x]; [intros [= <-]; by exists a|done]. Qed.
Lemma format_marks v w : List.filter filter_mark v = [] → List.filter filter_mark w = [] → ∀ k t n f g, (length t <= k)%nat →
  format_from no_field n t v = Ok f → format_from no_field n t w = Ok g → List.filter filter_mark f = List.filter filter_mark g.
Proof.
  intros Hv Hw. induction k as [|k IH]; intros t n f g Hk Hf Hg; (destruct t as [|c r]; [destruct n; [done|]; cbn in Hf, Hg; congruence|cbn in Hk; try lia]).
  assert (∀ x n t f g, (length t <= k)%nat → cons x <$> format_from no_field n t v = Ok f → cons x <$> format_from no_field n t w = Ok g →
            List.filter filter_mark f = List.filter filter_mark g) as Hcons.
  { intros x n' t f' g' Ht (f1 & E1 & ->)%fmap_Ok (g1 & E2 & ->)%fmap_Ok. cbn. pose proof (IH t n' f1 g1 Ht E1 E2) as E. by destruct (filter_mark x); rewrite ?E. }
  cbn [format_from] in Hf, Hg. destruct n as [n|].
  - destruct (c =? 125); [|destruct (c =? 123); [done|]; eapply (IH r); [lia|exact Hf|exact Hg]].
    apply res_bind_Ok in Hf as (a & Ea & (f1 & E1 & ->)%fmap_Ok). apply res_bind_Ok in Hg as (b & Eb & (g1 & E2 & ->)%fmap_Ok).
    rewrite !List.filter_app, (IH r None f1 g1) by (done || lia). f_equal. unfold field_value in Ea, Eb.
    destruct (str_eqb n (str "username")); [by injection Ea as ->; injection Eb as ->; rewrite Hv, Hw|].
    destruct (existsb _ n); [done|]. by destruct (forallb _ n).
  - destruct (c =? 123); [|destruct (c =? 125)].
    + destruct r as [|d r]; [eapply (IH []); [cbn; lia|exact Hf|exact Hg]|]. destruct (d =? 123); [eapply (Hcons _ _ r); [cbn in Hk; lia|exact Hf|exact Hg]|].
      eapply (IH (d :: r)); [lia|exact Hf|exact Hg].
    + destruct r as [|d r]; [done|]. destruct (d =? 125); [|done]. eapply (Hcons _ _ r); [cbn in Hk; lia|exact Hf|exact Hg].
    + eapply (Hcons _ _ r); [lia|exact Hf|exact Hg].
Qed.
Theorem name_keeps_filter (escape : pystr → pystr) t u u' f f' :
  (∀ s, List.filter filter_mark (escape s) = []) →
  py_format no_field t (escape u) = Ok f → py_format no_field t (escape u') = Ok f' → List.filter filter_mark f = List.filter filter_mark f'.
Proof. intros He. by apply format_marks with (k := length t). Qed.

(** ** The sign-in page with a directory behind it *)
Section sign_in.
Context (other_field : pystr → pystr → res pystr) (repr : pyval → pystr) (escape_rdn escape_filter_chars : pystr → pystr).
Context (directory : list ldap_call → ldap_call → res (list ldap_entry)) (installed : bool).
Context (scrypt : bytes → bytes → Z → res bytes) (isfile : pystr → bool) (e : env).
#[local] Abbreviation ask_directory s := (λ u p, (authenticate other_field repr escape_rdn escape_filter_chars directory installed (ldap (config s)) u p).1).
Definition login_name (f : form) : pystr := or_text (strip (or_text (field f "username" "") "admin")) "admin".
Lemma upsert_role n r src us x us' : upsert_external_user n r src us = Ok (x, us') → role x = r ∨ py_eq (role x) r = true.
Proof.
  unfold upsert_external_user. destruct (get_user _ _) as [w|]; [|intros [= <- _]; by left].
  destruct (negb (py_eq (role w) r) || _) eqn:Ec; [|apply orb_false_iff in Ec as [Ec%negb_false_iff _]; intros [= <- _]; by right].
  intros H. apply res_bind_Ok in H as (v & _ & H). injection H as <- _. by left.
Qed.
(** Whom the sign-in page lets in: a local account with its password, or whom the directory vouches for. *)
Lemma login_post_signed groups_of csrf ip now f s l x s' l' :
  login_post scrypt repr isfile e groups_of csrf ip now f s l = (Page, Some x, s', l') →
  (get_user (VStr (login_name f)) (users (config s)) = Some x ∧ eq_str (source x) (str "local") = true
     ∧ verify_password scrypt (field f "password" "") (password_hash x) = Ok true)
  ∨ ∃ groups r, groups_of (login_name f) (field f "password" "") = Some groups ∧ truthy (ld_enabled (ldap (config s))) = true
      ∧ role_for_groups repr groups (ld_admin_group (ldap (config s))) (ld_operator_group (ldap (config s)))
          (ld_viewer_group (ldap (config s))) (ld_default_role (ldap (config s))) = Ok r
      ∧ truthy r = true ∧ (role x = r ∨ py_eq (role x) r = true).
Proof.
  unfold login_post. destruct csrf; [|done]. cbn [negb]. destruct (blocked ip now l) as [b l1]. destruct b; [done|]. fold (login_name f).
  intros H. destruct (get_user _ (users (config s))) as [y|] eqn:Eg; [destruct (eq_str (source y) _) eqn:Es; [left|right]|right].
  { destruct (verify_password _ _ _) as [[]|] eqn:Ev; [|done..]. by injection H as <- _ _. }
  all: destruct (truthy (ld_enabled _)); [|done].
  all: destruct (groups_of _ _) as [gs|]; [|done]; destruct (role_for_groups _ _ _ _ _ _) as [r|] eqn:Er; [|done].
  all: destruct (truthy r) eqn:Et; [|done]; cbn [negb] in H; destruct (upsert_external_user _ _ _ _) as [[z us]|] eqn:Eu; [|done].
  all: destruct (save_or_crash _ _ _ _ _) as [[]]; try done; injection H as -> _ _.
  all: exists gs, r; split_and!; try done; by eapply upsert_role.
Qed.
Definition login_with_directory (csrf : bool) (ip : pystr) (now : Z) (f : form) (s : state) (l : LoginRateLimiter) :=
  login_post scrypt repr isfile e (ask_directory s) csrf ip now f s l.
(** C24: a directory account is let in with its own password only. Whatever the directory answers and however it fails: someone who signs in
    and is not a local account whose stored hash the password matches, was bound by the directory with exactly the password
    typed, which is not empty, under the DN made from the name typed or under the entry the service account found for it; and gets
    the role the directory's groups give, never none. *)
Theorem directory_login_bound csrf ip now f s l x s' l' :
  login_with_directory csrf ip now f s l = (Page, Some x, s', l') →
  let u := login_name f in let pw := field f "password" "" in let o := ldap (config s) in
  (get_user (VStr u) (users (config s)) = Some x ∧ eq_str (source x) (str "local") = true ∧ verify_password scrypt pw (password_hash x) = Ok true)
  ∨ ∃ groups h r, authenticate other_field repr escape_rdn escape_filter_chars directory installed o u pw = (Some groups, h)
      ∧ truthy (ld_enabled o) = true ∧ u ≠ [] ∧ pw ≠ []
      ∧ role_for_groups repr groups (ld_admin_group o) (ld_operator_group o) (ld_viewer_group o) (ld_default_role o) = Ok r
      ∧ truthy r = true ∧ (role x = r ∨ py_eq (role x) r = true)
      ∧ ((∃ t dn, user_dn_template o = VStr t ∧ py_format other_field t (escape_rdn u) = Ok dn ∧ bound directory h (VStr dn) (VStr pw))
         ∨ ∃ t flt y, user_search_filter o = VStr t ∧ py_format other_field t (escape_filter_chars u) = Ok flt
             ∧ bound directory h (bind_dn o) (bind_password o) ∧ found directory h (user_search_base o) flt y
             ∧ bound directory h (VStr (entry_dn y)) (VStr pw)).
Proof.
  intros H u pw o. unfold login_with_directory in H. apply login_post_signed in H as [H|(gs & r & Hg & H1 & H2 & H3 & H4)]; [by left|right].
  fold o u pw in Hg, H1, H2, H3. destruct (authenticate _ _ _ _ _ _ o u pw) as [g h] eqn:Ha. cbn in Hg. subst g.
  destruct (ldap_sound _ _ _ _ _ _ _ _ _ _ _ Ha) as (Hu & Hp & Hb). exists gs, h, r. split_and!; [done..|].
  destruct Hb as [(t & dn & Et & _ & Ed & Hb)|(t & flt & y & Et & Ef & Hs & Hf & _ & Hb)]; [left; eauto|right; eauto 10].
Qed.
End sign_in.

(** ** OpenID Connect
    Times in seconds. *)
Abbreviation provider_doc := (list (pystr * pyval)).
Definition _DISCOVERY_TTL : Z := 3600.
Abbreviation discovery_cache := (list (pystr * (pyval * Z))).
(** [doc\[k\]] and [doc.get(k, d)] of a provider's answer. *)
Definition doc_item (doc : pyval) (k : string) : res pyval :=
  match doc with
  | VDict d => match assoc (str k) d with Some v => Ok v | None => raise KeyError k end
  | _ => raise TypeError "indices must be integers or slices, not str"
  end.
Definition doc_get (doc : pyval) (k : string) (d : pyval) : res pyval :=
  match doc with VDict x => Ok (get x k d) | _ => raise AttributeError "object has no attribute 'get'" end.
Section oidc.
Context (hmac_sha256 : bytes → bytes → bytes) (repr : pyval → pystr) (isfile : pystr → bool) (e : env).
(** [fetch url] and [post url body] are [_get_json] and [_post_form]; [verify id_token keys iss aud now] is authlib: the claims of a
    token whose signature one of the keys made, whose iss and aud are those, and that is valid now. *)
Context (fetch : pystr → res pyval) (post : pystr → bytes → res pyval).
Context (verify : pyval → pyval → pyval → pyval → Z → res provider_doc).
Definition url_of (v : pyval) : res pystr := match v with VStr s => Ok s | _ => raise AttributeError "unknown url type" end.
Definition issuer_of (o : OidcSettings) : res pystr :=
  match issuer o with VStr s => Ok (rstrip_by (Z.eqb 47) s) | _ => raise AttributeError "object has no attribute 'rstrip'" end.
Definition discover (issuer_url : pystr) (now : Z) (cache : discovery_cache) : res pyval * discovery_cache :=
  let ask_provider :=
    match fetch (issuer_url ++ str "/.well-known/openid-configuration") with
    | Ok doc => (Ok doc, dict_set issuer_url (doc, now) cache)
    | Raise x => (Raise x, cache)
    end in
  match assoc issuer_url cache with
  | Some (doc, t) => if now - t <? _DISCOVERY_TTL then (Ok doc, cache) else ask_provider
  | None => ask_provider
  end.
Definition discover_for (o : OidcSettings) (now : Z) (cache : discovery_cache) : res pyval * discovery_cache :=
  match issuer_of o with Ok i => discover i now cache | Raise x => (Raise x, cache) end.
Definition authorize_params (o : OidcSettings) (redirect_uri state nonce : pystr) : form :=
  (λ kv : string * pyval, (str kv.1, str_of_val repr kv.2)) <$>
    [("response_type"%string, vstr "code"); ("client_id"%string, oi_client_id o); ("redirect_uri"%string, VStr redirect_uri);
     ("scope"%string, or_else (scopes o) (vstr "openid email profile")); ("state"%string, VStr state); ("nonce"%string, VStr nonce)].
Definition build_authorize_url (o : OidcSettings) (redirect_uri state nonce : pystr) (now : Z) (cache : discovery_cache) : res pystr * discovery_cache :=
  let '(doc, cache) := discover_for o now cache in
  (doc ← doc;
   endpoint ← doc_item doc "authorization_endpoint";
   endpoint ← url_of endpoint;
   query ← urlencode (authorize_params o redirect_uri state nonce);
   Ok (endpoint ++ str "?" ++ query), cache).
(** The verified claims, or nothing; [installed]: authlib could be imported. *)
Definition token_fields (o : OidcSettings) (redirect_uri code : pystr) : form :=
  (λ kv : string * pyval, (str kv.1, str_of_val repr kv.2)) <$>
    [("grant_type"%string, vstr "authorization_code"); ("code"%string, VStr code); ("redirect_uri"%string, VStr redirect_uri);
     ("client_id"%string, oi_client_id o); ("client_secret"%string, client_secret o)].
Definition exchange (o : OidcSettings) (redirect_uri code nonce : pystr) (now : Z) (doc : pyval) : res (option provider_doc) :=
  endpoint ← doc_item doc "token_endpoint";
  endpoint ← url_of endpoint;
  body ← urlencode (token_fields o redirect_uri code);
  token ← post endpoint body;
  id_token ← doc_get token "id_token" VNone;
  if negb (truthy id_token) then Ok None
  else
    uri ← doc_item doc "jwks_uri";
    uri ← url_of uri;
    keys ← fetch uri;
    own ← issuer_of o;
    iss ← doc_get doc "issuer" (VStr own);
    claims ← verify id_token keys iss (oi_client_id o) now;
    if negb (is_empty nonce) && negb (py_eq (get claims "nonce" VNone) (VStr nonce)) then Ok None else Ok (Some claims).
Definition complete (installed : bool) (o : OidcSettings) (redirect_uri code nonce : pystr) (now : Z) (cache : discovery_cache)
  : option provider_doc * discovery_cache :=
  if negb installed then (None, cache)
  else
    let '(doc, cache) := discover_for o now cache in
    (match (doc ← doc; exchange o redirect_uri code nonce now doc) with Ok r => r | Raise _ => None end, cache).

(** *** The pages (routes/login.py) *)
Record sso_request := mkSso {
  sso_headers : string → option pystr; sso_scheme : pystr; sso_netloc : pystr;
  sso_cookie : option pystr; sso_code : pystr; sso_state : pystr;
}.
Definition header_or (h : option pystr) (d : pystr) : pystr := match h with Some ((_ :: _) as v) => v | _ => d end.
Definition _oidc_redirect_uri (o : OidcSettings) (r : sso_request) : res pystr :=
  own ← strip_of (redirect_uri o);
  if negb (is_empty own) then Ok own
  else Ok (header_or (sso_headers r "x-forwarded-proto"%string) (sso_scheme r) ++ str "://"
           ++ header_or (sso_headers r "x-forwarded-host"%string) (header_or (sso_headers r "host"%string) (sso_netloc r)) ++ str "/auth/oidc/callback").
Inductive sso_answer := ToLogin | Unreachable | SsoCrash (x : exn) | ToProvider (url cookie : pystr).
Definition cookie_data (state nonce redirect_uri : pystr) : provider_doc := [key "s" (VStr state); key "n" (VStr nonce); key "r" (VStr redirect_uri)].
(** [st] and [nonce] are fresh random text. *)
Definition oidc_login (st nonce : pystr) (now : Z) (r : sso_request) (s : state) (cache : discovery_cache) : sso_answer * discovery_cache :=
  let o := oidc (config s) in
  if negb (truthy (oi_enabled o)) then (ToLogin, cache)
  else
    match _oidc_redirect_uri o r with
    | Raise x => (SsoCrash x, cache)
    | Ok uri =>
        let '(url, cache) := build_authorize_url o uri st nonce now cache in
        match url with
        | Raise _ => (Unreachable, cache)
        | Ok url =>
            match sign_payload hmac_sha256 (secret_key (config s)) (cookie_data st nonce uri) 600 now with
            | Ok cookie => (ToProvider url cookie, cache)
            | Raise x => (SsoCrash x, cache)
            end
        end
    end.
(** The callback up to the verified claims; what it does with them is [Accounts.oidc_callback]. *)
Inductive callback_step := Stop (code : Z) | Broken (x : exn) | Claims (c : option provider_doc).
Definition text_item (d : provider_doc) (k : string) : res pystr :=
  v ← doc_item (VDict d) k; match v with VStr s => Ok s | _ => raise TypeError "not text" end.
Definition callback_claims (installed : bool) (now : Z) (r : sso_request) (s : state) (cache : discovery_cache) : callback_step * discovery_cache :=
  let o := oidc (config s) in
  if negb (truthy (oi_enabled o)) then (Stop 303, cache)
  else
    match read_payload hmac_sha256 (secret_key (config s)) (sso_cookie r) now with
    | Raise x => (Broken x, cache)
    | Ok None => (Stop 400, cache)
    | Ok (Some data) =>
        if is_empty (sso_code r) then (Stop 400, cache)
        else
          match (match get data "s" (vstr "") with VStr t => compare_digest (sso_state r) t | _ => raise TypeError "unsupported operand types" end) with
          | Raise x => (Broken x, cache)
          | Ok false => (Stop 400, cache)
          | Ok true =>
              match text_item data "r", text_item data "n" with
              | Ok uri, Ok nonce => let '(c, cache) := complete installed o uri (sso_code r) nonce now cache in (Claims c, cache)
              | Raise x, _ | _, Raise x => (Broken x, cache)
              end
          end
    end.
Definition oidc_callback_page (installed : bool) (now : Z) (r : sso_request) (s : state) (cache : discovery_cache)
  : reply * option User * state * discovery_cache :=
  match callback_claims installed now r s cache with
  | (Stop code, cache) => (Denied code, None, s, cache)
  | (Broken x, cache) => (Crash x, None, s, cache)
  | (Claims c, cache) => (oidc_callback repr isfile e c s, cache)
  end.
End oidc.

Section oidc_facts.
Context (hmac_sha256 : bytes → bytes → bytes) (repr : pyval → pystr) (isfile : pystr → bool) (e : env).
Context (fetch : pystr → res pyval) (post : pystr → bytes → res pyval).
Context (verify : pyval → pyval → pyval → pyval → Z → res provider_doc).
#[local] Abbreviation page := (oidc_callback_page hmac_sha256 repr isfile e fetch post verify).
#[local] Abbreviation claims_of := (callback_claims hmac_sha256 repr fetch post verify).
(** [doc] is the discovery document of the configured issuer: asked for now, or kept for less than an hour. *)
Definition well_known (issuer_url : pystr) : pystr := issuer_url ++ str "/.well-known/openid-configuration".
Definition discovered (o : OidcSettings) (now : Z) (cache : discovery_cache) (own : pystr) (doc : provider_doc) : Prop :=
  ∃ s, issuer o = VStr s ∧ own = rstrip_by (Z.eqb 47) s
  ∧ (fetch (well_known own) = Ok (VDict doc) ∨ ∃ t, assoc own cache = Some (VDict doc, t) ∧ now - t < _DISCOVERY_TTL).
(** [claims] were verified: the issuer's discovery document names a token endpoint, which gave a token for the code, and a key set; with
    the keys fetched there the token was checked for the document's issuer (the configured one when it names none) and this
    client; and the claims have the nonce. *)
Definition vouched (o : OidcSettings) (cache : discovery_cache) (code uri nonce : pystr) (now : Z) (claims : provider_doc) : Prop :=
  ∃ own doc endpoint jwks_uri body token id_token keys,
    discovered o now cache own doc
    ∧ assoc (str "token_endpoint") doc = Some (VStr endpoint) ∧ assoc (str "jwks_uri") doc = Some (VStr jwks_uri)
    ∧ urlencode (token_fields repr o uri code) = Ok body ∧ post endpoint body = Ok (VDict token)
    ∧ get token "id_token" VNone = id_token ∧ truthy id_token = true ∧ fetch jwks_uri = Ok keys
    ∧ verify id_token keys (get doc "issuer" (VStr own)) (oi_client_id o) now = Ok claims
    ∧ (nonce = [] ∨ py_eq (get claims "nonce" VNone) (VStr nonce) = true).
(** A cached document came from its issuer: what every call of [discover] keeps. *)
Definition cache_true (cache : discovery_cache) : Prop :=
  ∀ own doc t, assoc own cache = Some (doc, t) → fetch (well_known own) = Ok doc.
Lemma discover_cache own now cache : cache_true cache → cache_true (discover fetch own now cache).2.
Proof.
  intros Hc. unfold discover.
  assert (cache_true (match fetch (own ++ str "/.well-known/openid-configuration") with
    | Ok doc => (Ok doc, dict_set own (doc, now) cache) | Raise x => (Raise x, cache) end).2) as Hask.
  { destruct (fetch _) as [doc|] eqn:Ef; [|done]. intros own' doc' t'. cbn [snd]. destruct (decide (own' = own)) as [->|Hne].
    - rewrite assoc_dict_set_eq. by intros [= <- _].
    - rewrite assoc_dict_set_ne by done. apply Hc. }
  destruct (assoc own cache) as [[doc t]|]; [|done]. by destruct (_ <? _).
Qed.
Lemma discover_for_doc o now cache doc :
  (discover_for fetch o now cache).1 = Ok (VDict doc) → ∃ own, issuer_of o = Ok own ∧ discovered o now cache own doc.
Proof.
  unfold discover_for. destruct (issuer_of o) as [own|] eqn:Eo; [|done]. intros H. exists own. split; [done|].
  unfold issuer_of in Eo. destruct (issuer o) as [| | | |s| | |] eqn:Ei; try done. injection Eo as <-. exists s. split_and!; [done..|].
  unfold discover in H. destruct (assoc _ cache) as [[d t]|] eqn:Ea.
  - destruct (Z.ltb_spec (now - t) _DISCOVERY_TTL); [right; exists t; cbn in H; injection H as ->; done|left].
    unfold well_known. by destruct (fetch _).
  - left. unfold well_known. by destruct (fetch _).
Qed.
Lemma discover_for_cache o now cache : cache_true cache → cache_true (discover_for fetch o now cache).2.
Proof. intros Hc. unfold discover_for. destruct (issuer_of o); [by apply discover_cache|done]. Qed.
Lemma complete_cache installed o uri code nonce now cache :
  cache_true cache → cache_true (complete repr fetch post verify installed o uri code nonce now cache).2.
Proof.
  intros Hc. unfold complete. destruct installed; [|done]. cbn [negb].
  pose proof (discover_for_cache o now cache Hc) as H. by destruct (discover_for _ _ _ _).
Qed.
Lemma page_cache installed now r s cache : cache_true cache → cache_true (page installed now r s cache).2.
Proof.
  intros Hc. unfold oidc_callback_page, callback_claims. destruct (negb _); [done|].
  destruct (read_payload _ _ _ _) as [[data|]|]; [|done..]. destruct (is_empty _); [done|].
  destruct (match get data "s" _ with VStr t => _ | _ => _ end) as [[]|]; [|done..].
  destruct (text_item data "r") as [uri|]; [|done]. destruct (text_item data "n") as [nonce|]; [|done].
  pose proof (complete_cache installed (oidc (config s)) uri (sso_code r) nonce now cache Hc) as H. by destruct (complete _ _ _ _ _ _ _ _ _ _ _).
Qed.
Lemma doc_item_inv doc k v : doc_item doc k = Ok v → ∃ d, doc = VDict d ∧ assoc (str k) d = Some v.
Proof. destruct doc; cbn; try done. destruct (assoc _ _) eqn:E; [|done]. intros [= ->]. eauto. Qed.
Lemma url_of_inv v u : url_of v = Ok u → v = VStr u.
Proof. destruct v; cbn; try done. by intros [= ->]. Qed.
Lemma exchange_claims o uri code nonce now doc claims :
  exchange repr fetch post verify o uri code nonce now doc = Ok (Some claims) →
  ∃ d, doc = VDict d ∧ ∀ cache own, issuer_of o = Ok own → discovered o now cache own d → vouched o cache code uri nonce now claims.
Proof.
  unfold exchange. intros E. apply res_bind_Ok in E as (ep & (d & -> & Hep)%doc_item_inv & E). exists d. split; [done|].
  intros cache own Hown Hd. apply res_bind_Ok in E as (endpoint & ->%url_of_inv & E).
  apply res_bind_Ok in E as (body & Hb & E). apply res_bind_Ok in E as (token & Ht & E). apply res_bind_Ok in E as (idt & Hi & E).
  destruct (truthy idt) eqn:Hidt; [|done]. cbn [negb] in E.
  apply res_bind_Ok in E as (ju & (d' & [= <-] & Hju)%doc_item_inv & E). apply res_bind_Ok in E as (uri' & ->%url_of_inv & E).
  apply res_bind_Ok in E as (keys & Hk & E). rewrite Hown in E. cbn [mbind res_bind doc_get] in E.
  apply res_bind_Ok in E as (cl & Hv & E). destruct (negb (is_empty nonce) && _) eqn:En; [done|]. injection E as ->.
  destruct token as [| | | | | | |tk]; try done. injection Hi as Hi.
  exists own, d, endpoint, uri', body, tk, idt, keys. split_and!; try done.
  apply andb_false_iff in En as [En|En]; [left; by destruct nonce|right; by apply negb_false_iff].
Qed.
Lemma complete_claims installed o uri code nonce now cache claims :
  (complete repr fetch post verify installed o uri code nonce now cache).1 = Some claims → vouched o cache code uri nonce now claims.
Proof.
  unfold complete. destruct installed; [|done]. cbn [negb]. destruct (discover_for fetch o now cache) as [doc cache'] eqn:Ed. cbn [fst].
  destruct doc as [doc|]; [|done]. cbn [mbind res_bind]. destruct (exchange _ _ _ _ _ _ _ _ _ _) as [[c|]|] eqn:E; [|done..]. intros [= ->].
  apply exchange_claims in E as (d & -> & H). destruct (discover_for_doc o now cache d) as (own & Hown & Hd); [by rewrite Ed|]. by eapply H.
Qed.
(** What is given to the provider's check comes from a cookie this server signed. *)
Lemma callback_cookie installed now r s cache c cache' :
  claims_of installed now r s cache = (Claims c, cache') →
  truthy (oi_enabled (oidc (config s))) = true ∧ sso_code r ≠ []
  ∧ ∃ data uri nonce, read_payload hmac_sha256 (secret_key (config s)) (sso_cookie r) now = Ok (Some data)
      ∧ get data "s" (vstr "") = VStr (sso_state r) ∧ text_item data "r" = Ok uri ∧ text_item data "n" = Ok nonce
      ∧ c = (complete repr fetch post verify installed (oidc (config s)) uri (sso_code r) nonce now cache).1.
Proof.
  unfold callback_claims. destruct (truthy (oi_enabled _)); [|done]. cbn [negb].
  destruct (read_payload _ _ _ _) as [[data|]|] eqn:Ed; [|done..]. destruct (is_empty (sso_code r)) eqn:Ec; [done|].
  destruct (get data "s" (vstr "")) as [| | | |t| | |] eqn:Es; try done. destruct (compare_digest (sso_state r) t) as [[]|] eqn:Ecd; [|done..].
  unfold compare_digest in Ecd. destruct (_ && _); [|done]. injection Ecd as Ecd%str_eqb_eq.
  destruct (text_item data "r") as [uri|] eqn:Er; [|done]. destruct (text_item data "n") as [nonce|] eqn:En; [|done].
  destruct (complete _ _ _ _ _ _ _ _ _ _ _) as [c' cache1] eqn:Ecl. intros [= <- <-]. split_and!; [done|by destruct (sso_code r)|].
  exists data, uri, nonce. split_and!; [done|by rewrite Ecd|done|done|]. by rewrite Ecl.
Qed.
(** C23: single sign-on is bound to the browser that began it. Whatever the callback is called with: an account is signed in only when the request brings a cookie that
    this server signed and that has not expired, with the state of the query and, when the cookie has a nonce, a token with that
    nonce: the token that the token endpoint gave for this code, checked with the keys of the provider's key set against the provider's
    issuer and this client, all three named by the discovery document of the configured issuer, fetched now or less than an hour ago.
    The account and its role are the ones the token's claims give. *)
Theorem sso_bound installed now r s cache x s' cache' :
  page installed now r s cache = (Page, Some x, s', cache') →
  ∃ cookie payload sig data uri nonce claims u role',
    sso_cookie r = Some cookie ∧ cookie = payload ++ 46 :: sig ∧ Auth._sign hmac_sha256 (secret_key (config s)) payload = Ok sig
    ∧ read_payload hmac_sha256 (secret_key (config s)) (Some cookie) now = Ok (Some data)
    ∧ get data "s" (vstr "") = VStr (sso_state r) ∧ text_item data "r" = Ok uri ∧ text_item data "n" = Ok nonce
    ∧ vouched (oidc (config s)) cache (sso_code r) uri nonce now claims
    ∧ username_from_claims repr claims (oidc (config s)) = Ok u ∧ u ≠ []
    ∧ role_from_claims repr claims (oidc (config s)) = Ok role' ∧ truthy role' = true ∧ (role x = role' ∨ py_eq (role x) role' = true).
Proof.
  unfold oidc_callback_page. destruct (claims_of installed now r s cache) as [[code|y|c] cache1] eqn:E; [done|done|].
  apply callback_cookie in E as (He & Hc & data & uri & nonce & Hd & Hs & Hr & Hn & ->).
  destruct (sso_cookie r) as [cookie|] eqn:Eck; [|done].
  destruct (accepted_is_signed _ _ _ _ _ Hd) as (payload & sig & Et & Hsig).
  unfold oidc_callback. rewrite He. cbn [negb].
  destruct (complete _ _ _ _ _ _ _ _ _ _ _).1 as [claims|] eqn:Ecl; [|done]. apply complete_claims in Ecl.
  destruct (username_from_claims _ _ _) as [u|] eqn:Eu; [|done]. destruct (role_from_claims _ _ _) as [role'|] eqn:Er; [|done].
  destruct (is_empty u || negb (truthy role')) eqn:En; [done|]. apply orb_false_iff in En as [En1 En2%negb_false_iff].
  destruct (upsert_external_user _ _ _ _) as [[z us]|] eqn:Eup; [|done]. destruct (save_or_crash _ _ _ _ _) as [[]]; try done.
  intros [= -> _ _]. exists cookie, payload, sig, data, uri, nonce, claims, u, role'. split_and!; try done.
  - by destruct u.
  - by eapply upsert_role.
Qed.
(** The way back: for ten minutes, the callback with the state that was sent finds the redirect address and the nonce that were sent. *)
Theorem sso_returns st nonce now r s cache url cookie cache' secret sk r' now' installed cache1 uri :
  (∀ k m, is_bytes (hmac_sha256 k m)) →
  oidc_login hmac_sha256 repr fetch st nonce now r s cache = (ToProvider url cookie, cache') →
  secret_key (config s) = VStr secret → utf8_encode secret = Ok sk → _oidc_redirect_uri (oidc (config s)) r = Ok uri →
  Forall is_cp st → is_ascii st = true → Forall is_cp nonce → Forall is_cp uri →
  sso_cookie r' = Some cookie → sso_state r' = st → sso_code r' ≠ [] → now' < now + 600 →
  claims_of installed now' r' s cache1
  = (let '(c, k) := complete repr fetch post verify installed (oidc (config s)) uri (sso_code r') nonce now' cache1 in (Claims c, k)).
Proof.
  intros Hh Hl Hk Hsk Huri Hst Hsta Hn Hu Hc Hs Hcode Ht. unfold oidc_login in Hl. destruct (truthy (oi_enabled _)) eqn:He; [|done]. cbn [negb] in Hl.
  rewrite Huri in Hl. destruct (build_authorize_url _ _ _ _ _ _ _ _) as [[u|] k0]; [|done].
  unfold sign_payload in Hl. rewrite Hk in Hl.
  set (d := [key "s" (VStr st); key "n" (VStr nonce); key "r" (VStr uri); key "exp" (VInt (now + 600))]).
  change (VDict (dict_set (str "exp") (VInt (now + 600)) (cookie_data st nonce uri))) with (VDict d) in Hl.
  assert (plain (VDict d) = true) as Hp by (unfold d; json_plain).
  assert (Forall printable (dumps default_style 0 (VDict d))) as Hpr by (unfold d; json_printable).
  destruct (token_accepted hmac_sha256 Hh secret sk (VDict d) d now' Hsk eq_refl ltac:(done) Hp eq_refl Hpr) as (t & Et & Hpay).
  rewrite Et in Hl. injection Hl as _ <- _.
  unfold callback_claims, read_payload. rewrite He, Hc, Hk, Hpay. cbn [negb].
  change (get d "exp" (VInt 0)) with (VInt (now + 600)). cbn [int_of_val mbind res_bind].
  destruct (Z.leb_spec (now + 600) now'); [lia|]. replace (is_empty (sso_code r')) with false by (by destruct (sso_code r')).
  change (get d "s" (vstr "")) with (VStr st). rewrite Hs, compare_digest_refl by done. done.
Qed.
End oidc_facts.

(** ** Concretely *)
(** RFC 4515: the marks of a filter and the backslash as [\XX]. *)
Definition demo_escape (s : pystr) : pystr :=
  s ≫= λ c, if filter_mark c || (c =? 92) then [92; hex_char (c / 16); hex_char (c mod 16)] else [c].
Lemma demo_escape_marks s : List.filter filter_mark (demo_escape s) = [].
Proof.
  induction s as [|c s IH]; [done|]. unfold demo_escape in *. cbn [mbind list_bind]. rewrite List.filter_app, IH, app_nil_r.
  destruct (filter_mark c || (c =? 92)) eqn:E.
  2: { apply orb_false_iff in E as [E _]. cbn [List.filter]. by rewrite E. }
  assert (c = 0 ∨ c = 40 ∨ c = 41 ∨ c = 42 ∨ c = 92) as H.
  { unfold filter_mark in E. cbn [existsb] in E. lia. }
  by destruct H as [-> |[-> |[-> |[-> | ->]]]].
Qed.
(** A name cannot change what the service account searches for. *)
Lemma name_keeps_filter_witness :
  py_format no_field (str "(&(uid={username})(x=*))") (demo_escape (str "a)(|(uid=*")) = Ok (str "(&(uid=a\29\28|\28uid=\2a)(x=*))")
  ∧ List.filter filter_mark (str "(&(uid=bob)(x=*))") = List.filter filter_mark (str "(&(uid=a\29\28|\28uid=\2a)(x=*))").
Proof.
  split; [vm_compute; reflexivity|].
  apply (name_keeps_filter demo_escape (str "(&(uid={username})(x=*))") (str "bob") (str "a)(|(uid=*")); [apply demo_escape_marks|vm_compute; reflexivity..].
Defined.
Definition demo_directory (h : list ldap_call) (c : ldap_call) : res (list ldap_entry) :=
  match c with
  | LServer _ _ | LUnbind _ => Ok []
  | LBind _ _ (VStr dn) (VStr pw) =>
      if (str_eqb dn (str "cn=svc") && str_eqb pw (str "svcpw")) || (str_eqb dn (str "uid=bob,dc=x") && str_eqb pw (str "bobpw")) then Ok []
      else raise ValueError "LDAPBindError"
  | LBind _ _ _ _ => raise ValueError "LDAPBindError"
  | LSearch _ _ f _ _ => Ok (if str_eqb f (str "(uid=bob)") then [mkEntryOf (str "uid=bob,dc=x") (Ok [vstr "cn=staff,dc=x"])] else [])
  end.
Definition demo_ldap : LdapSettings :=
  mkLdap (VBool true) (vstr "ldaps://dir") (VBool false) (vstr "") (vstr "cn=svc") (vstr "svcpw") (vstr "dc=x") (vstr "(uid={username})") (vstr "memberOf")
    (vstr "") (vstr "") (vstr "cn=staff") (vstr "").
Definition ldap_state : state := set_config (with_ldap demo_ldap (config demo_accounts)) demo_accounts.
Abbreviation demo_authenticate := (authenticate no_field no_repr demo_escape demo_escape demo_directory true demo_ldap).
Definition bob_form (pw : string) : form := [(str "username", str "bobby"); (str "password", str pw)].
Example directory_answers :
  demo_authenticate (str "bob") (str "bobpw")
  = (Some [vstr "cn=staff,dc=x"], [LServer (str "ldaps://dir") true; LBind 0 false (vstr "cn=svc") (vstr "svcpw");
       LSearch 0 (vstr "dc=x") (str "(uid=bob)") false (vstr "memberOf"); LUnbind 0; LBind 1 false (vstr "uid=bob,dc=x") (vstr "bobpw"); LUnbind 1])
  ∧ (demo_authenticate (str "bob") (str "wrong")).1 = None ∧ (demo_authenticate (str "*") (str "bobpw")).1 = None
  ∧ demo_authenticate (str "bob") [] = (None, []).
Proof. vm_compute. done. Qed.
Definition carl_form : form := [(str "username", str "carl"); (str "password", str "carlpw")].
Definition carl_directory (h : list ldap_call) (c : ldap_call) : res (list ldap_entry) :=
  match c with LSearch _ _ _ _ _ => Ok [mkEntryOf (str "uid=carl,dc=x") (Ok [vstr "cn=staff,dc=x"])] | _ => Ok [] end.
Abbreviation carl_login := (login_with_directory no_field no_repr demo_escape demo_escape carl_directory true demo_scrypt (λ _, true) demo_env true (str "10.1.1.1") 1000 carl_form ldap_state (mkLimiter 10 300 ∅)).
Definition carl : User := mkUser (vstr "carl") (vstr "") (vstr "viewer") (VInt 1) (vstr "ldap").
Lemma directory_login_bound_witness :
  let u := login_name carl_form in let pw := field carl_form "password" "" in let o := ldap (config ldap_state) in
  (get_user (VStr u) (users (config ldap_state)) = Some carl ∧ eq_str (source carl) (str "local") = true ∧ verify_password demo_scrypt pw (password_hash carl) = Ok true)
  ∨ ∃ groups h r, authenticate no_field no_repr demo_escape demo_escape carl_directory true o u pw = (Some groups, h)
      ∧ truthy (ld_enabled o) = true ∧ u ≠ [] ∧ pw ≠ []
      ∧ role_for_groups no_repr groups (ld_admin_group o) (ld_operator_group o) (ld_viewer_group o) (ld_default_role o) = Ok r
      ∧ truthy r = true ∧ (role carl = r ∨ py_eq (role carl) r = true)
      ∧ ((∃ t dn, user_dn_template o = VStr t ∧ py_format no_field t (demo_escape u) = Ok dn ∧ bound carl_directory h (VStr dn) (VStr pw))
         ∨ ∃ t flt y, user_search_filter o = VStr t ∧ py_format no_field t (demo_escape u) = Ok flt
             ∧ bound carl_directory h (bind_dn o) (bind_password o) ∧ found carl_directory h (user_search_base o) flt y
             ∧ bound carl_directory h (VStr (entry_dn y)) (VStr pw)).
Proof.
  apply (directory_login_bound no_field no_repr demo_escape demo_escape carl_directory true demo_scrypt (λ _, true) demo_env true
           (str "10.1.1.1") 1000 carl_form ldap_state (mkLimiter 10 300 ∅) carl carl_login.1.2 carl_login.2).
  vm_compute. reflexivity.
Defined.

(** A provider that signs one token, for one code. [demo_claims] has the nonce of the sign-in below. *)
Definition demo_discovery : pyval :=
  VDict [key "issuer" (vstr "https://idp"); key "authorization_endpoint" (vstr "https://idp/auth");
         key "token_endpoint" (vstr "https://idp/token"); key "jwks_uri" (vstr "https://idp/keys")].
Definition demo_fetch (url : pystr) : res pyval :=
  if str_eqb url (str "https://idp/.well-known/openid-configuration") then Ok demo_discovery
  else if str_eqb url (str "https://idp/keys") then Ok (VDict []) else raise ValueError "HTTP Error 404".
Definition demo_post (url : pystr) (body : bytes) : res pyval :=
  if str_eqb url (str "https://idp/token") then Ok (VDict [key "id_token" (vstr "t1")]) else raise ValueError "HTTP Error 404".
Definition demo_claims : provider_doc :=
  [key "preferred_username" (vstr "carl"); key "groups" (VList [vstr "staff"]); key "nonce" (vstr "n0nce")].
Definition demo_verify (token keys iss aud : pyval) (now : Z) : res provider_doc :=
  if py_eq token (vstr "t1") && py_eq iss (vstr "https://idp") && py_eq aud (vstr "id") then Ok demo_claims else raise ValueError "bad_signature".
Definition sso_get (cookie : option pystr) (code state : pystr) : sso_request :=
  mkSso (λ h, if String.eqb h "host" then Some (str "gw:8443") else None) (str "https") (str "gw:8443") cookie code state.
Abbreviation demo_sso_login := (oidc_login demo_hmac no_repr demo_fetch (str "st4te") (str "n0nce") 1000 (sso_get None [] []) oidc_state []).
Definition demo_cookie : pystr := match demo_sso_login.1 with ToProvider _ c => c | _ => [] end.
Abbreviation demo_back now r := (oidc_callback_page demo_hmac no_repr (λ _, true) demo_env demo_fetch demo_post demo_verify true now r oidc_state []).
Definition oidc_carl : User := mkUser (vstr "carl") (vstr "") (vstr "viewer") (VInt 1) (vstr "oidc").
Definition carl_comes_back : sso_request := sso_get (Some demo_cookie) (str "c0de") (str "st4te").
Lemma sso_bound_witness :
  (demo_back 1100 (sso_get None (str "c0de") (str "st4te"))).1.1 = (Denied 400, None)
  ∧ (demo_back 1600 carl_comes_back).1.1 = (Denied 400, None)
  ∧ ∃ cookie payload sig data uri nonce claims u role',
    sso_cookie carl_comes_back = Some cookie ∧ cookie = payload ++ 46 :: sig ∧ Auth._sign demo_hmac (secret_key (config oidc_state)) payload = Ok sig
    ∧ read_payload demo_hmac (secret_key (config oidc_state)) (Some cookie) 1100 = Ok (Some data)
    ∧ get data "s" (vstr "") = VStr (sso_state carl_comes_back) ∧ text_item data "r" = Ok uri ∧ text_item data "n" = Ok nonce
    ∧ vouched no_repr demo_fetch demo_post demo_verify (oidc (config oidc_state)) [] (sso_code carl_comes_back) uri nonce 1100 claims
    ∧ username_from_claims no_repr claims (oidc (config oidc_state)) = Ok u ∧ u ≠ []
    ∧ role_from_claims no_repr claims (oidc (config oidc_state)) = Ok role' ∧ truthy role' = true
    ∧ (role oidc_carl = role' ∨ py_eq (role oidc_carl) role' = true).
Proof.
  split; [vm_compute; reflexivity|]. split; [vm_compute; reflexivity|].
  apply (sso_bound demo_hmac no_repr (λ _, true) demo_env demo_fetch demo_post demo_verify true 1100 carl_comes_back oidc_state [] oidc_carl
           (demo_back 1100 carl_comes_back).1.2 (demo_back 1100 carl_comes_back).2).
  vm_compute. reflexivity.
Defined.
(** Every cookie of this server is signed with the same key, whatever it is for: a session, given as the sign-in cookie, is read and
    has no state, which a query without one matches, and no address: the page ends in a KeyError. *)
Example session_as_sign_in :
  match issue_session demo_hmac (secret_key (config oidc_state)) 600 (vstr "admin") (VInt 1) 1000 with
  | Ok t => match demo_back 1100 (sso_get (Some t) (str "c0de") []) with (Crash x, None, _, _) => exn_cls x = KeyError | _ => False end
  | Raise _ => False
  end.
Proof. vm_compute. done. Qed.
(** [secrets.compare_digest] takes only ASCII text: a state that is none ends the page in a TypeError. *)
Example state_not_ascii :
  match demo_back 1100 (sso_get (Some demo_cookie) (str "c0de") [233]) with (Crash x, None, _, _) => exn_cls x = TypeError | _ => False end.
Proof. vm_compute. done. Qed.
(** The state of another sign-in, or no code. *)
Example state_of_another_browser :
  (demo_back 1100 (sso_get (Some demo_cookie) (str "c0de") (str "st4tf"))).1.1 = (Denied 400, None)
  ∧ (demo_back 1100 (sso_get (Some demo_cookie) [] (str "st4te"))).1.1 = (Denied 400, None).
Proof. vm_compute. done. Qed.
