(* ===== verification/WebApp.v ===== *)
(** * The web application as a whole (app/web/server.py: build_app; routes/*.py and app/web/api.py: their route tables)

    One request from its arrival to its effect: the gate, the route table, the handler with its own checks, and what is left in
    memory, on disk and in the engine. Starlette is an interface: how a path fits a route's pattern, and what
    [request.url.path] is for a path. WebSockets do not pass the gate; they are in [Console]. *)
From S2P Require Import Prelude PyFloat PyStr PyVal PyNum Json JsonOut Base64 Config AppConfig Auth Store ConfigStore Supervisor Importer Forms Ops Accounts Logs Cluster Pages SettingsPages PeerHttp Directory.
#[local] Open Scope Z_scope.

(** ** The route tables *)
Inductive endpoint :=
  | ELogin | ELoginPost | ELogout | EOidcLogin | EOidcCallback | ESetup | ESetupPost
  | ESettings | EPassword | ETls | ETlsGenerate | EAccess | EApiToken | EApiRevoke | EUsers | EUserRole | EUserDelete
  | ELdap | EOidc | ECluster | EExport | EImport | EImportApply | ENotifications | EAudit | EAuditCsv | ERestore | EBackup
  | AHealth | AOpenapi | AStatus | APorts | AList | ACreate | AGet | AUpdate | ADelete | AAction
  | MDashboard | MDuplicate | MStatus | MBulk | MFormNew | MFormEdit | MLog | MConsoleView | MTraces | MTraceFile | MSave | MDelete | MAction
  | CStatus | CLocal | CControl | CControlPeer | CData | CSave | CPeerForm | CPeerSave
  | SLang | SHealthz | SMetrics | SPortsJson | SPortsRefresh | SPortsTable | EStatic.
#[global] Instance endpoint_eq_dec : EqDecision endpoint. Proof. solve_decision. Defined.
(** A pattern, the methods it takes and the handler. A route for GET also takes HEAD. *)
Abbreviation route := (string * list string * endpoint)%type.
Definition GET : list string := ["GET"; "HEAD"]%string.
Definition POST : list string := ["POST"]%string.
Definition login_routes : list route :=
  [("/login"%string, GET, ELogin); ("/login"%string, POST, ELoginPost); ("/logout"%string, POST, ELogout);
   ("/auth/oidc/login"%string, GET, EOidcLogin); ("/auth/oidc/callback"%string, GET, EOidcCallback);
   ("/setup"%string, GET, ESetup); ("/setup"%string, POST, ESetupPost)].
Definition settings_routes : list route :=
  [("/settings"%string, GET, ESettings); ("/settings/password"%string, POST, EPassword); ("/settings/tls"%string, POST, ETls);
   ("/settings/tls/generate"%string, POST, ETlsGenerate); ("/settings/access"%string, POST, EAccess); ("/settings/api-token"%string, POST, EApiToken);
   ("/settings/api-token/revoke"%string, POST, EApiRevoke); ("/settings/users"%string, POST, EUsers); ("/settings/users/{username}/role"%string, POST, EUserRole);
   ("/settings/users/{username}/delete"%string, POST, EUserDelete); ("/settings/ldap"%string, POST, ELdap); ("/settings/oidc"%string, POST, EOidc);
   ("/settings/cluster"%string, POST, ECluster); ("/settings/config/export"%string, GET, EExport); ("/settings/config/import"%string, POST, EImport);
   ("/settings/config/import/apply"%string, POST, EImportApply); ("/settings/notifications"%string, POST, ENotifications); ("/settings/audit"%string, GET, EAudit);
   ("/settings/audit.csv"%string, GET, EAuditCsv); ("/settings/backups/restore"%string, POST, ERestore); ("/settings/backups/{name}"%string, GET, EBackup)].
Definition api_routes : list route :=
  [("/api/v1/health"%string, GET, AHealth); ("/api/v1/openapi.json"%string, GET, AOpenapi); ("/api/v1/status"%string, GET, AStatus); ("/api/v1/ports"%string, GET, APorts);
   ("/api/v1/mappings"%string, GET, AList); ("/api/v1/mappings"%string, POST, ACreate); ("/api/v1/mappings/{mid}"%string, GET, AGet);
   ("/api/v1/mappings/{mid}"%string, ["PUT"%string], AUpdate); ("/api/v1/mappings/{mid}"%string, ["DELETE"%string], ADelete);
   ("/api/v1/mappings/{mid}/{action}"%string, POST, AAction)].
Definition mapping_routes : list route :=
  [("/"%string, GET, MDashboard); ("/api/mappings/{mid}/duplicate"%string, POST, MDuplicate); ("/api/status"%string, GET, MStatus); ("/api/mappings/bulk"%string, POST, MBulk);
   ("/api/mappings/form"%string, GET, MFormNew); ("/api/mappings/{mid}/form"%string, GET, MFormEdit); ("/api/mappings/{mid}/log"%string, GET, MLog);
   ("/api/mappings/{mid}/console-view"%string, GET, MConsoleView); ("/api/mappings/{mid}/traces"%string, GET, MTraces); ("/api/mappings/{mid}/traces/{name}"%string, GET, MTraceFile);
   ("/api/mappings/save"%string, POST, MSave); ("/api/mappings/{mid}"%string, ["DELETE"%string], MDelete); ("/api/mappings/{mid}/{action}"%string, POST, MAction)].
Definition cluster_routes : list route :=
  [("/api/cluster/status"%string, GET, CStatus); ("/api/cluster/local"%string, GET, CLocal); ("/api/cluster/control"%string, POST, CControl);
   ("/api/cluster/control-peer"%string, POST, CControlPeer); ("/api/cluster/mapping-data"%string, GET, CData); ("/api/cluster/mapping-save"%string, POST, CSave);
   ("/api/cluster/peer-form"%string, GET, CPeerForm); ("/api/cluster/peer-save"%string, POST, CPeerSave)].
Definition system_routes : list route :=
  [("/lang/{code}"%string, GET, SLang); ("/healthz"%string, GET, SHealthz); ("/metrics"%string, GET, SMetrics); ("/api/ports.json"%string, GET, SPortsJson);
   ("/api/ports/refresh"%string, POST, SPortsRefresh); ("/api/ports/table"%string, GET, SPortsTable)].
Definition build_routes : list route := login_routes ++ settings_routes ++ api_routes ++ mapping_routes ++ cluster_routes ++ system_routes.

(** ** Starlette *)
Abbreviation params := (list (pystr * pystr)).
(** [compile_path pattern path]: the path's parameters when it fits; [url_char]: a character of the path in [request.url.path]. *)
Class Starlette := { compile_path : string → pystr → option params; url_char : Z → pystr }.
Definition request_path `{Starlette} (p : pystr) : pystr := p ≫= url_char.
(** A parameter takes a segment that is not empty; every other segment is itself, and [$] lets the last one end in a line break. *)
Definition param_name (s : pystr) : option pystr :=
  match s with
  | 123 :: r => match last r with Some 125 => Some (removelast r) | _ => None end
  | _ => None
  end.
Fixpoint fit (pattern segments : list pystr) : option params :=
  match pattern, segments with
  | [], [] => Some []
  | p :: pattern', s :: segments' =>
      match param_name p with
      | Some n => if is_empty s then None else cons (n, s) <$> fit pattern' segments'
      | None => if str_eqb s p || match pattern' with [] => str_eqb s (p ++ [10]) | _ => false end then fit pattern' segments' else None
      end
  | _, _ => None
  end.
Definition path_char (c : Z) : bool := in_range 48 57 c || in_range 65 90 c || in_range 97 122 c || existsb (Z.eqb c) (str "/-._").
(** What the program relies on: paths fit as above, and in [request.url.path] letters, digits and the marks of the
    route table stay, while line breaks are left out (urlsplit). *)
Class StarletteOk `(Starlette) := {
  path_fits : ∀ pattern p ps, compile_path pattern p = Some ps → fit (split_on 47 (str pattern)) (split_on 47 p) = Some ps;
  url_plain : ∀ c, path_char c = true → url_char c = [c];
  url_break : url_char 10 = [];
}.
(** The first route that fits with its method; 405 when only the method is wrong. *)
Inductive routed := Found (x : endpoint) (ps : params) | NotAllowed | NotFound.
Fixpoint route_from `{Starlette} (table : list route) (wrong_method : bool) (m : string) (p : pystr) : routed :=
  match table with
  | [] => if starts_with p (str "/static/") then Found EStatic [] else if wrong_method then NotAllowed else NotFound
  | (pattern, methods, x) :: table' =>
      match compile_path pattern p with
      | Some ps => if existsb (String.eqb m) methods then Found x ps else route_from table' true m p
      | None => route_from table' wrong_method m p
      end
  end.
Definition find_route `{Starlette} (m : string) (p : pystr) : routed := route_from build_routes false m p.

(** *** Where the routes are *)
(** A path that fits a pattern, as the gate sees it: the pattern with something for each parameter. *)
Fixpoint shaped (pattern segments : list pystr) : Prop :=
  match pattern, segments with
  | [], [] => True
  | p :: pattern', s :: segments' => (match param_name p with None => s = p | Some _ => True end) ∧ shaped pattern' segments'
  | _, _ => False
  end.
Section paths.
Context `{StarletteOk}.
Lemma request_path_app a b : request_path (a ++ b) = request_path a ++ request_path b.
Proof. unfold request_path. by rewrite bind_app. Qed.
Lemma request_path_plain s : forallb path_char s = true → request_path s = s.
Proof.
  unfold request_path. induction s as [|c s IH]; [done|]. cbn [forallb]. intros [Hc Hs]%andb_true_iff. cbn. by rewrite url_plain, IH by done.
Qed.
Lemma join_two sep x y l : join sep (x :: y :: l) = x ++ sep ++ join sep (y :: l).
Proof. unfold join. cbn [mbind list_bind]. by rewrite <- app_assoc. Qed.
Lemma split_on_cons c s : ∃ x l, split_on c s = x :: l.
Proof. destruct s as [|y s]; cbn [split_on]; [eauto|]. destruct (y =? c); [eauto|]. destruct (split_on c s); eauto. Qed.
Lemma join_split s : join [47] (split_on 47 s) = s.
Proof.
  induction s as [|c s IH]; [done|]. cbn [split_on]. destruct (split_on_cons 47 s) as (x & l & E). rewrite E in IH |- *.
  destruct (Z.eqb_spec c 47) as [->|Hc]; [by rewrite join_two, IH|]. rewrite <- IH. unfold join. done.
Qed.
Lemma request_path_join l : request_path (join [47] l) = join [47] (request_path <$> l).
Proof.
  destruct l as [|s l]; [done|]. revert s. induction l as [|t l IH]; intros s; [unfold join; cbn; by rewrite !app_nil_r|].
  cbn [fmap list_fmap]. rewrite !join_two, !request_path_app, (request_path_plain [47]), IH by done. done.
Qed.
Lemma fit_shaped pattern : Forall (λ p, param_name p = None → forallb path_char p = true) pattern →
  ∀ segments ps, fit pattern segments = Some ps → shaped pattern (request_path <$> segments).
Proof.
  induction 1 as [|p pattern Hp _ IH]; intros [|s segments] ps; try done. cbn [fit fmap list_fmap shaped]. intros Hf.
  destruct (param_name p) as [n|] eqn:En.
  - destruct (is_empty s); [done|]. destruct (fit pattern segments) as [qs|] eqn:E; [|done]. split; [done|by eapply IH].
  - destruct (str_eqb s p) eqn:Es; cbn [orb] in Hf.
    + apply str_eqb_eq in Es as ->. split; [apply request_path_plain; auto|by eapply IH].
    + destruct pattern; [|done]. destruct (str_eqb s (p ++ [10])) eqn:Es'; [|done]. apply str_eqb_eq in Es' as ->.
      split; [rewrite request_path_app, request_path_plain by auto|by eapply IH].
      unfold request_path. cbn. by rewrite url_break, !app_nil_r.
Qed.
Lemma path_shaped pattern p ps :
  Forall (λ p, param_name p = None → forallb path_char p = true) (split_on 47 (str pattern)) →
  compile_path pattern p = Some ps → ∃ segments, request_path p = join [47] segments ∧ shaped (split_on 47 (str pattern)) segments.
Proof.
  intros Hp Hc. apply path_fits in Hc. exists (request_path <$> split_on 47 p). split; [by rewrite <- request_path_join, join_split|].
  by eapply fit_shaped.
Qed.
Lemma found_route m p x ps : find_route m p = Found x ps → x = EStatic ∨ ∃ pattern methods,
  (pattern, methods, x) ∈ build_routes ∧ existsb (String.eqb m) methods = true ∧ compile_path pattern p = Some ps.
Proof.
  unfold find_route. generalize false. induction build_routes as [|[[pattern methods] y] table IH]; intros b; cbn [route_from].
  - destruct (starts_with _ _); [intros [= <- _]; by left|by destruct b].
  - destruct (compile_path pattern p) as [qs|] eqn:Ec.
    + destruct (existsb _ _) eqn:Em; [intros [= <- <-]; right; exists pattern, methods; split_and!; [left|done|done]|].
      intros [?|(q & ms & Hin & ?)]%IH; [by left|right; exists q, ms; split; [by right|done]].
    + intros [?|(q & ms & Hin & ?)]%IH; [by left|right; exists q, ms; split; [by right|done]].
Qed.
End paths.

(** ** Requests, what the program keeps, answers *)
Record web_request := mkWeb {
  h_method : string; h_path : pystr; h_scheme : pystr; h_netloc : pystr; h_client : option pystr; h_headers : string → option pystr;
  h_csrf : option pystr; h_session : option pystr; h_oidc : option pystr;
  h_query : form; h_form : form; h_ids : list pystr; h_upload : bytes; h_json : option pyval;
}.
Record web := mkState' {
  w_app : Ops.state; w_limiter : LoginRateLimiter; w_cache : discovery_cache; w_pending : pending_imports; w_peers : table;
}.
Definition set_app (s : Ops.state) (w : web) : web := mkState' s (w_limiter w) (w_cache w) (w_pending w) (w_peers w).
Definition set_peers (t : table) (w : web) : web := mkState' (w_app w) (w_limiter w) (w_cache w) (w_pending w) t.
(** The clock (seconds, and milliseconds for the peers), what is drawn at random, and what the calls to other nodes and openssl give. *)
Record chance := mkChance {
  t_s : Z; t_ms : Z; r_salt : bytes; r_token : pystr; r_state : pystr; r_nonce : pystr; r_secret : pystr; r_instance : pystr;
  x_certificate : res unit; x_fetch : target → option pyval; x_error : pystr; x_uptime : Z;
}.
(** [Shown]: the page or the data of a handler that only reads, for this user; it may say that there is none. *)
Inductive response :=
  | Gate (v : verdict) | NoRoute (code : Z) | Denied' (code : Z) | Crashed' (x : exn) | Shown (u : option User)
  | Replied (r : Accounts.reply) (signed_in : option User) | Sso (a : sso_answer) | Imported (r : import_reply)
  | Paged (p : Pages.page) | Answered (r : res (Z * pyval)) | ForPeer (r : peer_reply) | PeerData (r : res (Z * option pyval)) | Called (c : Z + peer_call) | Fleet (d : res dashboard).

Section app.
Context `{Starlette}.
Context (hmac_sha256 : bytes → bytes → bytes) (sha256 : bytes → bytes) (scrypt : bytes → bytes → Z → res bytes).
Context (word : Z → bool) (repr : pyval → pystr) (lower_text : pystr → pystr) (isfile : pystr → bool) (e : env).
Context (hostname version : pystr) (lan_ip : option pystr) (status : pystr → option (list (pystr * pyval))) (statuses : pyval → list (pystr * pyval)).
Context (classic : pystr → res (list pyval * list pystr * string)).
Context (ldap3 authlib : bool) (other_field : pystr → pystr → res pystr) (escape_rdn escape_filter_chars : pystr → pystr).
Context (directory : list ldap_call → ldap_call → res (list ldap_entry)).
Context (fetch : pystr → res pyval) (post : pystr → bytes → res pyval) (verify : pyval → pyval → pyval → pyval → Z → res provider_doc).
Context (cert_dir : pystr).

(** What the gate looks at. *)
Definition gate_request (r : web_request) : Accounts.request :=
  mkRequest (request_path (h_path r)) (h_method r) (h_csrf r) (h_headers r "x-csrf-token") (h_session r) (default [] (h_headers r "authorization")) (h_headers r).
Definition cfg (w : web) : AppConfig := config (w_app w).
(** The token in the form, against the cookie. *)
Definition form_token (r : web_request) : res bool := csrf_token_matches (h_csrf r) (assoc (str "_csrf") (h_form r)).
(** A handler that checks it itself, after the role it [needs]. *)
Definition on_form (needs : option string) (u : option User) (r : web_request) (w : web) (k : caller → response * web) : response * web :=
  match form_token r with
  | Ok b => k (mkCaller u b)
  | Raise x =>
      match needs with
      | Some role => match require_role u role with Some code => (Denied' code, w) | None => (Crashed' x, w) end
      | None => (Crashed' x, w)
      end
  end.
Definition settings (o : settings_op) (u : option User) (r : web_request) (w : web) : response * web :=
  on_form (match o with Password _ _ => None | _ => Some "admin"%string end) u r w (λ c,
    let '(a, s) := handle scrypt sha256 repr isfile e o c (w_app w) in (Replied a None, set_app s w)).
Definition import (q : import_request) (x : chance) (u : option User) (r : web_request) (w : web) : response * web :=
  on_form (Some "operator"%string) u r w (λ c,
    let '(a, (s, pend)) := serve_import word repr isfile e classic (mkVisit (t_s x) c q) (w_app w, w_pending w) in
    (Imported a, mkState' s (w_limiter w) (w_cache w) pend (w_peers w))).
Definition rest (c : api_call) (w : web) : response * web :=
  let '(a, _, s) := api_handle word repr isfile e status c (w_app w) in (Answered a, set_app s w).
Definition on_page (c : page_call) (u : option User) (w : web) : response * web :=
  let '(a, _, s) := page_handle word repr isfile e u c (w_app w) in (Paged a, set_app s w).
Definition for_peer (k : Ops.state → peer_reply * Ops.state) (w : web) : response * web :=
  let '(a, s) := k (w_app w) in (ForPeer a, set_app s w).
Definition to_peer (k : table → (Z + peer_call) * table) (w : web) : response * web :=
  let '(a, t) := k (w_peers w) in (Called a, set_peers t w).
Definition with_role (role : string) (u : option User) (w : web) : response * web :=
  match require_role u role with Some code => (Denied' code, w) | None => (Shown u, w) end.
Definition arg (ps : params) (n : string) : pystr := default [] (assoc (str n) ps).
Definition sso_request_of (r : web_request) : sso_request :=
  mkSso (h_headers r) (h_scheme r) (h_netloc r) (h_oidc r) (field (h_query r) "code" "") (field (h_query r) "state" "").
Definition sign_in (x : chance) (r : web_request) (w : web) : response * web :=
  on_form None None r w (λ c,
    let '(a, who, s, l) := login_with_directory other_field repr escape_rdn escape_filter_chars directory ldap3 scrypt isfile e (csrf_ok c)
                             (client_ip (h_client r)) (t_s x) (h_form r) (w_app w) (w_limiter w) in
    (Replied a who, mkState' s l (w_cache w) (w_pending w) (w_peers w))).
Definition key_header (r : web_request) : option pystr := h_headers r "x-cluster-key".

(** ** One handler per route *)
Definition endpoint_serve (p : endpoint) (ps : params) (x : chance) (r : web_request) (u : option User) (w : web) : response * web :=
  match p with
  | ELoginPost => sign_in x r w
  | ELogout => on_form None u r w (λ c, (if csrf_ok c then Shown u else Denied' 403, w))
  | EOidcLogin =>
      let '(a, k) := oidc_login hmac_sha256 repr fetch (r_state x) (r_nonce x) (t_s x) (sso_request_of r) (w_app w) (w_cache w) in
      (Sso a, mkState' (w_app w) (w_limiter w) k (w_pending w) (w_peers w))
  | EOidcCallback =>
      let '(a, who, s, k) := oidc_callback_page hmac_sha256 repr isfile e fetch post verify authlib (t_s x) (sso_request_of r) (w_app w) (w_cache w) in
      (Replied a who, mkState' s (w_limiter w) k (w_pending w) (w_peers w))
  | ESetupPost => on_form None u r w (λ c, let '(a, s) := setup_post scrypt repr isfile e (r_salt x) (csrf_ok c) (h_form r) (w_app w) in (Replied a None, set_app s w))
  | EPassword => settings (Password (r_salt x) (h_form r)) u r w
  | ETls => settings (Tls (h_form r)) u r w
  | ETlsGenerate => on_form (Some "admin"%string) u r w (λ c, let '(a, s) := settings_tls_generate repr isfile e (x_certificate x) cert_dir c (w_app w) in (Replied a None, set_app s w))
  | EAccess => settings (Access (h_form r)) u r w
  | EApiToken => settings (ApiToken (r_token x) (h_form r)) u r w
  | EApiRevoke => settings ApiRevoke u r w
  | EUsers => settings (UserCreate (r_salt x) (h_form r)) u r w
  | EUserRole => settings (UserRole (arg ps "username") (h_form r)) u r w
  | EUserDelete => settings (UserDelete (arg ps "username")) u r w
  | ELdap => settings (Ldap (h_form r)) u r w
  | EOidc => settings (Oidc (h_form r)) u r w
  | ECluster => settings (Accounts.Cluster (h_form r)) u r w
  | ENotifications => settings (Notifications (h_form r)) u r w
  | EImport => import (Upload (h_upload r) (r_token x) (h_form r)) x u r w
  | EImportApply => import (Confirm (h_form r)) x u r w
  | ERestore => on_form (Some "admin"%string) u r w (λ c,
      let '(a, s) := backup_restore word repr isfile e (r_secret x) (r_instance x) c (h_form r) (w_app w) in (Replied a None, set_app s w))
  | EExport | MFormNew | MFormEdit => with_role "operator" u w
  | EAudit | EAuditCsv | EBackup => with_role "admin" u w
  | AHealth => rest Health w
  | AList => rest ListMappings w
  | ACreate => rest (CreateMapping (h_json r)) w
  | AGet => rest (GetMapping (arg ps "mid")) w
  | AUpdate => rest (UpdateMapping (arg ps "mid") (h_json r)) w
  | ADelete => rest (DeleteMapping (arg ps "mid")) w
  | AAction => rest (MappingAction (arg ps "mid") (arg ps "action")) w
  | MDuplicate => on_page (PageDuplicate (arg ps "mid")) u w
  | MBulk => on_page (PageBulk (field (h_form r) "action" "") (h_ids r)) u w
  | MSave => on_page (PageSave (h_form r)) u w
  | MDelete => on_page (PageDelete (arg ps "mid")) u w
  | MAction => on_page (PageAction (arg ps "mid") (arg ps "action")) u w
  | CStatus => let '(d, t) := cluster_status repr lower_text hostname version lan_ip statuses u (x_error x) (x_uptime x) (x_fetch x) (cfg w) (t_ms x) (w_peers w) in
               (Fleet d, set_peers t w)
  | CLocal => (match peer_key_ok (key_header r) (cfg w) with Ok true => Shown u | Ok false => Denied' 403 | Raise y => Crashed' y end, w)
  | CControl => for_peer (cluster_control repr isfile e (key_header r) (h_form r)) w
  | CSave => for_peer (cluster_mapping_save word repr isfile e (key_header r) (h_form r)) w
  | CData => (PeerData (cluster_mapping_data (key_header r) (assoc (str "mid") (h_query r)) (cfg w)), w)
  | CControlPeer => to_peer (cluster_control_peer lower_text u (cfg w) (t_ms x) (h_form r)) w
  | CPeerForm => to_peer (cluster_peer_form lower_text u (cfg w) (t_ms x) (h_query r)) w
  | CPeerSave => to_peer (cluster_peer_save lower_text u (cfg w) (t_ms x) (h_form r)) w
  | ELogin | ESetup | ESettings | AOpenapi | AStatus | APorts | MDashboard | MStatus | MLog | MConsoleView | MTraces | MTraceFile
  | SLang | SHealthz | SMetrics | SPortsJson | SPortsRefresh | SPortsTable | EStatic => (Shown u, w)
  end.
(** [build_app]: the gate in front of the routes. *)
Definition serve (x : chance) (r : web_request) (w : web) : response * web :=
  match dispatch hmac_sha256 sha256 repr hostname (cfg w) (t_s x) (gate_request r) with
  | Raise y => (Crashed' y, w)
  | Ok (Serve u) =>
      match find_route (h_method r) (h_path r) with
      | Found p ps => endpoint_serve p ps x r u w
      | NotAllowed => (NoRoute 405, w)
      | NotFound => (NoRoute 404, w)
      end
  | Ok v => (Gate v, w)
  end.
End app.

(** ** Who may change what *)
Inductive right := FirstRun | ByDirectory | ByProvider | ByNode | ByToken | OwnPassword | ByRole (role : string) (header : bool).
(** What an endpoint that can change anything asks for. *)
Definition right_of (p : endpoint) : option right :=
  match p with
  | ESetupPost => Some FirstRun
  | ELoginPost => Some ByDirectory
  | EOidcCallback => Some ByProvider
  | CControl | CSave => Some ByNode
  | ACreate | AUpdate | ADelete | AAction => Some ByToken
  | EPassword => Some OwnPassword
  | ETls | ETlsGenerate | EAccess | EApiToken | EApiRevoke | EUsers | EUserRole | EUserDelete | ELdap | EOidc | ECluster | ENotifications | ERestore =>
      Some (ByRole "admin" false)
  | EImport | EImportApply => Some (ByRole "operator" false)
  | MDuplicate | MBulk | MSave | MDelete | MAction => Some (ByRole "operator" true)
  | _ => None
  end.

(** *** The handlers without their right *)
Section quiet.
Context (scrypt : bytes → bytes → Z → res bytes) (sha256 : bytes → bytes).
Context (word : Z → bool) (repr : pyval → pystr) (isfile : pystr → bool) (e : env).
Lemma as_admin_quiet c s k : (as_admin c s k).2 = s ∨ (require_role (me c) "admin" = None ∧ csrf_ok c = true).
Proof. unfold as_admin. destruct (require_role _ _); [by left|]. destruct (csrf_ok c); [by right|by left]. Qed.
Lemma handle_quiet o c s :
  match o with
  | Password _ f => (handle scrypt sha256 repr isfile e o c s).2 = s
      ∨ csrf_ok c = true ∧ ∃ x, me c = Some x ∧ eq_str (source x) (str "local") = true ∧ verify_password scrypt (field f "current" "") (password_hash x) = Ok true
  | _ => (handle scrypt sha256 repr isfile e o c s).2 = s ∨ (require_role (me c) "admin" = None ∧ csrf_ok c = true)
  end.
Proof.
  destruct o; try apply as_admin_quiet. cbn [handle]. unfold settings_password_post.
  destruct (csrf_ok c); [|by left]. cbn [negb]. destruct (me c) as [x|]; [|by left].
  destruct (eq_str (source x) (str "anonymous")); [by left|]. destruct (eq_str (source x) (str "local")) eqn:El; [|by left]. cbn [negb].
  destruct (verify_password _ _ _) as [[]|] eqn:Ev; [|by left..]. right. split; [done|]. by exists x.
Qed.
Lemma import_quiet classic v s pend :
  (serve_import word repr isfile e classic v (s, pend)).2.1 = s ∨ (require_role (me (SettingsPages.who v)) "operator" = None ∧ csrf_ok (SettingsPages.who v) = true).
Proof.
  unfold serve_import, config_import, config_import_apply, as_operator. destruct (request v); (destruct (require_role _ _); [by left|]; destruct (csrf_ok _); [by right|by left]).
Qed.
Lemma setup_quiet salt b f s : (setup_post scrypt repr isfile e salt b f s).2 = s ∨ b = true.
Proof. unfold setup_post. destruct b; [by right|by left]. Qed.
Lemma page_quiet u q s : (page_handle word repr isfile e u q s).2 = s ∨ require_role u "operator" = None.
Proof. unfold page_handle. destruct (require_role _ _); [by left|by right]. Qed.
Lemma with_key_quiet h s k : (with_key h s k).2 = s ∨ ∃ i, h = Some i ∧ i ≠ [] ∧ cl_key (cluster (config s)) = VStr i ∧ cluster_active (cluster (config s)) = Ok true.
Proof.
  unfold with_key. destruct (peer_key_ok h (config s)) as [[]|] eqn:E; [right|by left..]. by apply peer_key_inv in E.
Qed.
(** A sign-in changes something only when the directory has let the account in. *)
Lemma login_quiet groups_of csrf ip now f s l :
  (login_post scrypt repr isfile e groups_of csrf ip now f s l).1.2 = s
  ∨ csrf = true ∧ truthy (ld_enabled (ldap (config s))) = true ∧ is_Some (groups_of (login_name f) (field f "password" "")).
Proof.
  unfold login_post. destruct csrf; [|by left]. cbn [negb]. destruct (blocked ip now l) as [[] l1]; [by left|]. fold (login_name f).
  destruct (get_user _ _) as [y|]; [destruct (eq_str (source y) _); [destruct (verify_password _ _ _) as [[]|]; by left|]|].
  all: destruct (truthy (ld_enabled _)); [|by left]; destruct (groups_of _ _) as [g|]; [right; by split_and!|by left].
Qed.
End quiet.

(** *** What the gate asks where *)
Lemma dispatch_user hmac_sha256 sha256 repr hostname c now r x :
  dispatch hmac_sha256 sha256 repr hostname c now r = Ok (Serve (Some x)) → request_user hmac_sha256 repr hostname c (session_cookie r) (headers r) now = Ok (Some x).
Proof.
  unfold dispatch. destruct (starts_with _ _).
  - unfold _dispatch_api. destruct (member _ _); [done|]. destruct (password_set c); [|done]. cbn [negb].
    destruct (api_token_hash c) as [| | | |[|a h]| | |]; try (by case_match). intros H. apply res_bind_Ok in H as (ok & _ & H). by repeat case_match.
  - unfold _dispatch_ui. cbn zeta. intros H. apply res_bind_Ok in H as (ok & _ & H).
    destruct (negb ok); [done|]. destruct (negb (password_set c)); [by case_match|]. destruct (str_eqb _ _); [done|]. destruct (_ || _); [done|].
    apply res_bind_Ok in H as ([y|] & Hy & H); [by injection H as ->|by case_match].
Qed.
Lemma dispatch_token hmac_sha256 sha256 repr hostname c now r u :
  dispatch hmac_sha256 sha256 repr hostname c now r = Ok (Serve u) →
  starts_with (path r) (str "/api/v1") = true → member (path r) (str <$> ["/api/v1/health"; "/api/v1/openapi.json"]%string) = false →
  unsafe_method (method r) = true →
  ∃ h, api_token_hash c = VStr h ∧ h ≠ [] ∧ verify_token sha256 (bearer_token (authorization r)) h = Ok true ∧ 2 <= ROLE_RANK (api_token_role c).
Proof.
  unfold dispatch. intros H Es Hm Hu. rewrite Es in H. unfold _dispatch_api in H. rewrite Hm in H. destruct (password_set c); [|done]. cbn [negb] in H.
  destruct (api_token_hash c) as [| | | |[|a h]| | |]; try (by case_match). apply res_bind_Ok in H as (ok & Hok & H).
  destruct ok; [|done]. rewrite Hu in H. cbn [negb andb] in H. change (ROLE_RANK (vstr "operator")) with 2 in H.
  destruct (Z.ltb_spec (ROLE_RANK (api_token_role c)) 2); [done|]. by exists (a :: h).
Qed.
Lemma dispatch_csrf hmac_sha256 sha256 repr hostname c now r u :
  dispatch hmac_sha256 sha256 repr hostname c now r = Ok (Serve u) →
  starts_with (path r) (str "/api/v1") = false → starts_with (path r) (str "/api/") = true → member (path r) _CLUSTER_PEER_PATHS = false →
  unsafe_method (method r) = true → csrf_token_matches (csrf_cookie r) (csrf_header r) = Ok true.
Proof.
  unfold dispatch. intros H Es Ha Hm Hu. rewrite Es in H. unfold _dispatch_ui in H. cbn zeta in H. rewrite Hu, Ha, Hm in H. cbn [andb negb] in H.
  apply res_bind_Ok in H as (ok & Hok & H). by destruct ok.
Qed.
Lemma dispatch_setup hmac_sha256 sha256 repr hostname c now r u :
  dispatch hmac_sha256 sha256 repr hostname c now r = Ok (Serve u) → path r = str "/setup" → password_set c = false.
Proof.
  unfold dispatch. intros H E. rewrite E in H. change (starts_with (str "/setup") (str "/api/v1")) with false in H. cbv iota in H.
  unfold _dispatch_ui in H. cbn zeta in H. apply res_bind_Ok in H as (ok & _ & H). rewrite E in H. destruct (negb ok); [done|].
  by destruct (password_set c).
Qed.

(** *** The paths of those routes *)
Definition v1 : pystr := str "/api/v1".
Definition row_fits (x : endpoint) (m : string) (q : pystr) : Prop :=
  match right_of x with
  | Some ByToken => starts_with q v1 = true ∧ member q (str <$> ["/api/v1/health"; "/api/v1/openapi.json"]%string) = false ∧ unsafe_method m = true
  | Some (ByRole _ true) => starts_with q v1 = false ∧ starts_with q (str "/api/") = true ∧ member q _CLUSTER_PEER_PATHS = false ∧ unsafe_method m = true
  | Some FirstRun => q = str "/setup"
  | _ => True
  end.
Definition row_ok (row : route) : Prop :=
  let '(pattern, methods, x) := row in
  Forall (λ p, param_name p = None → forallb path_char p = true) (split_on 47 (str pattern))
  ∧ ∀ segments m, shaped (split_on 47 (str pattern)) segments → existsb (String.eqb m) methods = true → row_fits x m (join [47] segments).
Lemma plain_pattern pattern :
  forallb (λ p, match param_name p with None => forallb path_char p | Some _ => true end) (split_on 47 (str pattern)) = true →
  Forall (λ p, param_name p = None → forallb path_char p = true) (split_on 47 (str pattern)).
Proof.
  intros H. apply Forall_forall. intros p Hp%list_elem_of_In Hn. rewrite forallb_forall in H. specialize (H p Hp). by rewrite Hn in H.
Qed.
Lemma method_in (l : list string) (P : string → Prop) m : existsb (String.eqb m) l = true → Forall P l → P m.
Proof.
  intros (y & Hy%list_elem_of_In & ->%String.eqb_eq)%existsb_exists Hl. by apply (proj1 (Forall_forall _ _) Hl).
Qed.
(** The segments of a path, one by one. *)
Ltac open_path segments Hs :=
  destruct segments as [|? segments]; cbn [shaped] in Hs;
  [try (exfalso; exact Hs)|try (exfalso; exact Hs); destruct Hs as [?Hseg Hs]; open_path segments Hs].
(** A path that fits a pattern of the table, written out. *)
Ltac known_path segments Hs :=
  (match type of Hs with shaped ?l _ => let v := eval vm_compute in l in change l with v in Hs end);
  open_path segments Hs; clear Hs;
  repeat match goal with H : match param_name ?s with _ => _ end |- _ => let v := eval vm_compute in (param_name s) in change (param_name s) with v in H; cbv iota in H end;
  subst.
Lemma rows_ok : Forall row_ok build_routes.
Proof.
  unfold build_routes, login_routes, settings_routes, api_routes, mapping_routes, cluster_routes, system_routes. cbn [app].
  repeat (apply Forall_cons; split; [split; [apply plain_pattern; vm_compute; reflexivity|]|]); [..|constructor].
  all: intros segments m Hs Hm; unfold row_fits; cbn [right_of]; try exact I.
  all: known_path segments Hs.
  all: try (apply method_in with (P := λ m, unsafe_method m = true) in Hm; [|by repeat constructor]).
  all: split_and?; [..|exact Hm] || idtac; vm_compute; reflexivity.
Qed.

(** ** Who sees what *)
(** The endpoints anyone reaches: signing in, the first run, the language, the health probes, the API's own description,
    static files, and the calls of other nodes, which bring their key. *)
Definition public (p : endpoint) : bool :=
  match p with
  | ELogin | ELoginPost | EOidcLogin | EOidcCallback | ESetup | ESetupPost | SLang | SHealthz | EStatic | AHealth | AOpenapi
  | CLocal | CControl | CData | CSave => true
  | _ => false
  end.
Definition by_token (p : endpoint) : bool := match p with AStatus | APorts | AList | ACreate | AGet | AUpdate | ADelete | AAction => true | _ => false end.
(** What a page that is only read asks for, next to being signed in. *)
Definition reader_role (p : endpoint) : option string :=
  match p with EExport | MFormNew | MFormEdit => Some "operator"%string | EAudit | EAuditCsv | EBackup => Some "admin"%string | _ => None end.
Definition row_guarded (p : endpoint) (q : pystr) : bool :=
  if public p then true
  else if by_token p then starts_with q v1 && negb (member q (str <$> ["/api/v1/health"; "/api/v1/openapi.json"]%string))
  else negb (starts_with q v1) && negb (member q PUBLIC_PATHS) && negb (under PUBLIC_PREFIXES q).
Lemma rows_guarded : Forall (λ '(pattern, _, x), ∀ segments, shaped (split_on 47 (str pattern)) segments → row_guarded x (join [47] segments) = true) build_routes.
Proof.
  unfold build_routes, login_routes, settings_routes, api_routes, mapping_routes, cluster_routes, system_routes. cbn [app].
  repeat (apply Forall_cons; split); [..|constructor].
  all: intros segments Hs.
  all: known_path segments Hs.
  all: vm_compute; reflexivity.
Qed.
Lemma under_app a b q : under a q = true → Forall (λ x, x ∈ b) a → under b q = true.
Proof.
  unfold under. intros (y & Hy%list_elem_of_In & Hs)%existsb_exists Ha. apply existsb_exists. exists y. split; [|done].
  apply list_elem_of_In. by apply (proj1 (Forall_forall _ _) Ha).
Qed.
Lemma dispatch_known hmac_sha256 sha256 repr hostname c now r u p :
  dispatch hmac_sha256 sha256 repr hostname c now r = Ok (Serve u) → row_guarded p (path r) = true →
  public p = true
  ∨ (by_token p = true ∧ ∃ h, api_token_hash c = VStr h ∧ h ≠ [] ∧ verify_token sha256 (bearer_token (authorization r)) h = Ok true)
  ∨ ∃ x, u = Some x ∧ request_user hmac_sha256 repr hostname c (session_cookie r) (headers r) now = Ok (Some x).
Proof.
  unfold row_guarded, dispatch. intros H Hr. destruct (public p); [by left|right]. destruct (by_token p).
  - left. split; [done|]. apply andb_true_iff in Hr as [E Hm%negb_true_iff]. unfold v1 in E. rewrite E in H. unfold _dispatch_api in H. rewrite Hm in H.
    destruct (password_set c); [|done]. cbn [negb] in H. destruct (api_token_hash c) as [| | | |[|a h]| | |]; try (by case_match).
    apply res_bind_Ok in H as (ok & Hok & H). destruct ok; [|done]. by exists (a :: h).
  - right. apply andb_true_iff in Hr as [[E Hm]%andb_true_iff Hu]. apply negb_true_iff in E, Hm, Hu. unfold v1 in E. rewrite E in H.
    unfold _dispatch_ui in H. cbn zeta in H. apply res_bind_Ok in H as (ok & _ & H). destruct (negb ok); [done|].
    destruct (password_set c); cbn [negb] in H.
    + destruct (str_eqb (path r) _); [done|]. rewrite Hm, Hu in H. cbn [orb] in H. apply res_bind_Ok in H as ([y|] & Hy & H); [|by case_match].
      injection H as <-. by exists y.
    + exfalso. assert (member (path r) (str <$> ["/setup"; "/healthz"]%string) = false) as H1.
      { destruct (member (path r) (str <$> _)) eqn:E1; [|done]. exfalso. unfold member in E1, Hm. apply existsb_exists in E1 as (y & Hy%list_elem_of_In & Hs).
        assert (existsb (str_eqb (path r)) PUBLIC_PATHS = true) as Ht; [|by rewrite Ht in Hm].
        apply existsb_exists. exists y. split; [|done]. apply list_elem_of_In. revert Hy. clear. intros Hy.
        apply elem_of_cons in Hy as [-> |[-> |[]%elem_of_nil]%elem_of_cons]; apply (bool_decide_unpack _); vm_compute; exact I. }
      assert (under (str <$> ["/static"; "/lang/"]%string) (path r) = false) as H2.
      { destruct (under (str <$> _) _) eqn:E1; [|done]. eapply under_app in E1; [|]; [by rewrite E1 in Hu|].
        repeat constructor; apply (bool_decide_unpack _); vm_compute; exact I. }
      by rewrite H1, H2 in H.
Qed.

(** ** The whole application *)
Section rights.
Context `{StarletteOk}.
Context (hmac_sha256 : bytes → bytes → bytes) (sha256 : bytes → bytes) (scrypt : bytes → bytes → Z → res bytes).
Context (word : Z → bool) (repr : pyval → pystr) (lower_text : pystr → pystr) (isfile : pystr → bool) (e : env).
Context (hostname version : pystr) (lan_ip : option pystr) (status : pystr → option (list (pystr * pyval))) (statuses : pyval → list (pystr * pyval)).
Context (classic : pystr → res (list pyval * list pystr * string)).
Context (ldap3 authlib : bool) (other_field : pystr → pystr → res pystr) (escape_rdn escape_filter_chars : pystr → pystr).
Context (directory : list ldap_call → ldap_call → res (list ldap_entry)).
Context (fetch : pystr → res pyval) (post : pystr → bytes → res pyval) (verify : pyval → pyval → pyval → pyval → Z → res provider_doc).
Context (cert_dir : pystr).
#[local] Abbreviation app := (serve hmac_sha256 sha256 scrypt word repr lower_text isfile e hostname version lan_ip status statuses classic ldap3 authlib
  other_field escape_rdn escape_filter_chars directory fetch post verify cert_dir).
#[local] Abbreviation endpoint_app := (endpoint_serve hmac_sha256 sha256 scrypt word repr lower_text isfile e hostname version lan_ip status statuses classic ldap3 authlib
  other_field escape_rdn escape_filter_chars directory fetch post verify cert_dir).
(** Whom a request comes from: the user of its session, or the visitor that the configuration lets in. *)
Definition comes_from (r : web_request) (x : chance) (w : web) (u : User) : Prop :=
  request_user hmac_sha256 repr hostname (cfg w) (h_session r) (h_headers r) (t_s x) = Ok (Some u).
Definition holds (rt : right) (x : chance) (r : web_request) (w : web) : Prop :=
  let c := cfg w in
  match rt with
  | FirstRun => password_set c = false ∧ form_token r = Ok true
  | ByDirectory =>
      form_token r = Ok true ∧ truthy (ld_enabled (ldap c)) = true
      ∧ is_Some (authenticate other_field repr escape_rdn escape_filter_chars directory ldap3 (ldap c) (login_name (h_form r)) (field (h_form r) "password" "")).1
  | ByProvider =>
      ∃ data uri nonce claims, read_payload hmac_sha256 (secret_key c) (h_oidc r) (t_s x) = Ok (Some data)
        ∧ get data "s" (vstr "") = VStr (field (h_query r) "state" "") ∧ text_item data "r" = Ok uri ∧ text_item data "n" = Ok nonce
        ∧ vouched repr fetch post verify (oidc c) (w_cache w) (field (h_query r) "code" "") uri nonce (t_s x) claims
  | ByNode => ∃ k, key_header r = Some k ∧ k ≠ [] ∧ cl_key (cluster c) = VStr k ∧ cluster_active (cluster c) = Ok true
  | ByToken =>
      ∃ h, api_token_hash c = VStr h ∧ h ≠ [] ∧ verify_token sha256 (bearer_token (default [] (h_headers r "authorization"))) h = Ok true
        ∧ 2 <= ROLE_RANK (api_token_role c)
  | OwnPassword =>
      ∃ u, comes_from r x w u ∧ form_token r = Ok true ∧ eq_str (source u) (str "local") = true
        ∧ verify_password scrypt (field (h_form r) "current" "") (password_hash u) = Ok true
  | ByRole role header =>
      ∃ u, comes_from r x w u ∧ require_role (Some u) role = None
        ∧ (if header then csrf_token_matches (h_csrf r) (h_headers r "x-csrf-token") else form_token r) = Ok true
  end.
Lemma on_form_inv needs u r w k a w' :
  on_form needs u r w k = (a, w') → w_app w' = w_app w ∨ ∃ b, form_token r = Ok b ∧ k (mkCaller u b) = (a, w').
Proof.
  unfold on_form. destruct (form_token r) as [b|y]; [intros E; right; by exists b|]. intros E. left.
  destruct needs as [role|]; [destruct (require_role u role)|]; by injection E as _ <-.
Qed.
Lemma role_user u role : require_role u role = None → ∃ x, u = Some x.
Proof. destruct u as [x|]; [by exists x|done]. Qed.
Lemma gate_user x r w u : dispatch hmac_sha256 sha256 repr hostname (cfg w) (t_s x) (gate_request r) = Ok (Serve (Some u)) → comes_from r x w u.
Proof. intros Hd. by apply dispatch_user in Hd. Qed.
#[local] Abbreviation served r x w u := (dispatch hmac_sha256 sha256 repr hostname (cfg w) (t_s x) (gate_request r) = Ok (Serve u)).
(** A handler behind a role and the token of its form. *)
Lemma role_right role u x r w (k : caller → Accounts.reply * Ops.state) a w' :
  served r x w u → (∀ c, (k c).2 = w_app w ∨ (require_role (me c) role = None ∧ csrf_ok c = true)) →
  on_form (Some role) u r w (λ c, let '(a, s) := k c in (Replied a None, set_app s w)) = (a, w') →
  w_app w' = w_app w ∨ holds (ByRole role false) x r w.
Proof.
  intros Hd Hk Ho. apply on_form_inv in Ho as [E|(b & Hb & E)]; [by left|]. specialize (Hk (mkCaller u b)).
  destruct (k _) as [y s]. injection E as <- <-. destruct Hk as [Hk|[Hr Hc]]; [by left|right]. cbn in Hr, Hc. subst b.
  destruct (role_user _ _ Hr) as [v ->]. exists v. split_and!; [by apply gate_user|done|done].
Qed.
Definition is_password (o : settings_op) : bool := match o with Password _ _ => true | _ => false end.
Lemma settings_right o u x r w a w' :
  served r x w u → is_password o = false → settings sha256 scrypt repr isfile e o u r w = (a, w') → w_app w' = w_app w ∨ holds (ByRole "admin" false) x r w.
Proof.
  intros Hd Ho. unfold settings. pose proof (λ c, handle_quiet scrypt sha256 repr isfile e o c (w_app w)) as Hq.
  destruct o; try done; intros E; (eapply role_right; [exact Hd|exact Hq|exact E]).
Qed.
Lemma password_right salt u x r w a w' :
  served r x w u → settings sha256 scrypt repr isfile e (Password salt (h_form r)) u r w = (a, w') → w_app w' = w_app w ∨ holds OwnPassword x r w.
Proof.
  intros Hd E. unfold settings in E. apply on_form_inv in E as [E|(b & Hb & E)]; [by left|].
  pose proof (handle_quiet scrypt sha256 repr isfile e (Password salt (h_form r)) (mkCaller u b) (w_app w)) as Hq. cbv beta iota in Hq.
  destruct (handle _ _ _ _ _ _ _ _) as [y s]. injection E as <- <-. destruct Hq as [Hq|(Hc & v & Hv & Hl & Hp)]; [by left|right].
  cbn in Hc, Hv. subst b u. exists v. split_and!; [by apply gate_user|done..].
Qed.
Lemma import_right q u x r w a w' :
  served r x w u → import word repr isfile e classic q x u r w = (a, w') → w_app w' = w_app w ∨ holds (ByRole "operator" false) x r w.
Proof.
  intros Hd Ho. unfold import in Ho. apply on_form_inv in Ho as [E|(b & Hb & E)]; [by left|].
  pose proof (import_quiet word repr isfile e classic (mkVisit (t_s x) (mkCaller u b) q) (w_app w) (w_pending w)) as Hq.
  destruct (serve_import _ _ _ _ _ _ _) as [y [s pend]]. injection E as <- <-. destruct Hq as [Hq|[Hr Hc]]; [by left|right]. cbn in Hr, Hc. subst b.
  destruct (role_user _ _ Hr) as [v ->]. exists v. split_and!; [by apply gate_user|done|done].
Qed.
(** The endpoint that was found, its path as the gate saw it. *)
Lemma found_fits r p ps : find_route (h_method r) (h_path r) = Found p ps → row_fits p (h_method r) (request_path (h_path r)).
Proof.
  intros [-> |(pattern & methods & Hin & Hm & Hc)]%found_route; [exact I|].
  pose proof (proj1 (Forall_forall _ _) rows_ok _ Hin) as [Hp Hr]. destruct (path_shaped _ _ _ Hp Hc) as (segments & -> & Hs). by eapply Hr.
Qed.
Lemma page_right q u x r w p ps role a w' :
  served r x w u → find_route (h_method r) (h_path r) = Found p ps → right_of p = Some (ByRole role true) → role = "operator"%string →
  on_page word repr isfile e q u w = (a, w') → w_app w' = w_app w ∨ holds (ByRole role true) x r w.
Proof.
  intros Hd Hf Hp -> Ho. unfold on_page in Ho. pose proof (page_quiet word repr isfile e u q (w_app w)) as Hq.
  destruct (page_handle _ _ _ _ _ _ _) as [[y l] s]. injection Ho as _ <-. destruct Hq as [Hq|Hr]; [by left|right].
  apply found_fits in Hf. unfold row_fits in Hf. rewrite Hp in Hf. destruct Hf as (H1 & H2 & H3 & H4).
  destruct (role_user _ _ Hr) as [v ->]. exists v. split_and!; [by apply gate_user|done|]. by eapply (dispatch_csrf _ _ _ _ _ _ _ _ Hd).
Qed.
Lemma token_right u x r w p ps :
  served r x w u → find_route (h_method r) (h_path r) = Found p ps → right_of p = Some ByToken → holds ByToken x r w.
Proof.
  intros Hd Hf Hp. apply found_fits in Hf. unfold row_fits in Hf. rewrite Hp in Hf. destruct Hf as (H1 & H2 & H3).
  by apply (dispatch_token _ _ _ _ _ _ _ _ Hd).
Qed.
Lemma node_right k r w a w' x :
  (k (w_app w)).2 = w_app w ∨ holds ByNode x r w → for_peer k w = (a, w') → w_app w' = w_app w ∨ holds ByNode x r w.
Proof. unfold for_peer. intros Hk. destruct (k (w_app w)) as [y s]. by intros [= _ <-]. Qed.
Lemma to_peer_app k w a w' : to_peer k w = (a, w') → w_app w' = w_app w.
Proof. unfold to_peer. destruct (k (w_peers w)) as [y t]. by intros [= _ <-]. Qed.
(** C2: whatever reaches the program over HTTP, its configuration, its files and its engine change only by right. A request that changes any of
    them is one that a route was found for, and: it is the first-run form while there are no accounts; or the
    sign-in of someone the directory or the provider vouched for; or another node's call with the cluster key; or carries the API
    token, which may write; or comes from someone the gate knows by a session (or lets in without), with the role the page
    asks for and the CSRF token of the browser; or from a local user who typed the own password. *)
Theorem change_needs_right x r w a w' :
  app x r w = (a, w') →
  w_app w' = w_app w ∨ ∃ p ps rt, find_route (h_method r) (h_path r) = Found p ps ∧ right_of p = Some rt ∧ holds rt x r w.
Proof.
  unfold serve. destruct (dispatch _ _ _ _ _ _ _) as [[to|code|u]|y] eqn:Hd; try by (intros [= _ <-]; left).
  destruct (find_route (h_method r) (h_path r)) as [p ps| |] eqn:Hf; try by (intros [= _ <-]; left).
  intros He. enough (w_app w' = w_app w ∨ match right_of p with Some rt => holds rt x r w | None => False end) as [E|E]; [by left| |].
  { destruct (right_of p) as [rt|] eqn:Hr; [|done]. right. by exists p, ps, rt. }
  destruct p; cbn [endpoint_serve right_of] in He |- *; try (injection He as _ <-; by left);
    try (unfold with_role in He; destruct (require_role _ _); injection He as _ <-; by left);
    try (eapply settings_right; [exact Hd| |exact He]; reflexivity); try (by eapply import_right);
    try (eapply page_right; [exact Hd|exact Hf|reflexivity|reflexivity|exact He]);
    try (right; eapply token_right; [exact Hd|exact Hf|reflexivity]);
    try (unfold rest in He; cbn [api_handle] in He; by injection He as _ <-; left);
    try (left; by eapply to_peer_app).
  - unfold sign_in in He. apply on_form_inv in He as [E|(b & Hb & E)]; [by left|]. unfold login_with_directory in E.
    pose proof (login_quiet scrypt repr isfile e (λ u p, (authenticate other_field repr escape_rdn escape_filter_chars directory ldap3 (ldap (config (w_app w))) u p).1)
      b (client_ip (h_client r)) (t_s x) (h_form r) (w_app w) (w_limiter w)) as Hq. cbn [csrf_ok] in E.
    destruct (login_post _ _ _ _ _ _ _ _ _ _ _) as [[[y who] s] l]. injection E as _ <-. destruct Hq as [Hq|(-> & He' & Hg)]; [by left|right]. by split_and!.
  - apply on_form_inv in He as [E|(b & Hb & E)]; [by left|]. injection E as _ <-. by left.
  - destruct (oidc_login _ _ _ _ _ _ _ _ _) as [y k]. injection He as _ <-. by left.
  - unfold oidc_callback_page in He.
    destruct (callback_claims _ _ _ _ _ _ _ _ _ _) as [[code|y|[c|]] k] eqn:Hc; [injection He as _ <-; by left..| |].
    2: { unfold oidc_callback in He. destruct (negb _); injection He as _ <-; by left. }
    apply callback_cookie in Hc as (_ & _ & data & uri & nonce & Hd' & Hs & Hu & Hn & Hcl). symmetry in Hcl. apply complete_claims in Hcl.
    right. exists data, uri, nonce, c. split_and!; done.
  - apply on_form_inv in He as [E|(b & Hb & E)]; [by left|]. pose proof (setup_quiet scrypt repr isfile e (r_salt x) b (h_form r) (w_app w)) as Hq. cbn [csrf_ok] in E.
    destruct (setup_post _ _ _ _ _ _ _ _) as [y s]. injection E as _ <-. destruct Hq as [Hq| ->]; [by left|right]. split; [|done].
    apply found_fits in Hf. by eapply dispatch_setup.
  - by eapply password_right.
  - eapply role_right; [exact Hd| |exact He]. intros c. apply as_admin_quiet.
  - eapply role_right; [exact Hd| |exact He]. intros c. apply as_admin_quiet.
  - destruct (cluster_status _ _ _ _ _ _ _ _ _ _ _ _ _) as [d t]. injection He as _ <-. by left.
  - eapply node_right; [|exact He]. apply with_key_quiet.
  - eapply node_right; [|exact He]. apply with_key_quiet.
Qed.
Definition answered (a : response) : Prop := match a with Gate _ | NoRoute _ | Crashed' _ => False | _ => True end.
Lemma found_guarded r p ps : find_route (h_method r) (h_path r) = Found p ps → row_guarded p (request_path (h_path r)) = true.
Proof.
  intros [-> |(pattern & methods & Hin & Hm & Hc)]%found_route; [done|].
  pose proof (proj1 (Forall_forall _ _) rows_ok _ Hin) as [Hp _]. pose proof (proj1 (Forall_forall _ _) rows_guarded _ Hin) as Hr.
  destruct (path_shaped _ _ _ Hp Hc) as (segments & -> & Hs). by eapply Hr.
Qed.
(** C3: a stranger sees nothing. An answer that is not the gate's own, a missing route or an internal error comes from a handler that was found
    for the path, and: it is one that everybody may reach; or the request carries the API token, for the API; or it comes from someone the
    gate knows. A page that needs a role besides is only shown to who has it. *)
Theorem strangers_see_nothing x r w a w' :
  app x r w = (a, w') → answered a →
  ∃ p ps, find_route (h_method r) (h_path r) = Found p ps
    ∧ (public p = true
       ∨ (by_token p = true ∧ ∃ h, api_token_hash (cfg w) = VStr h ∧ h ≠ [] ∧ verify_token sha256 (bearer_token (default [] (h_headers r "authorization"))) h = Ok true)
       ∨ ∃ u, comes_from r x w u)
    ∧ ∀ role u, reader_role p = Some role → a = Shown u → require_role u role = None ∧ ∃ y, u = Some y ∧ comes_from r x w y.
Proof.
  unfold serve. destruct (dispatch _ _ _ _ _ _ _) as [[to|code|u]|y] eqn:Hd; try by (intros [= <- _]; intros []).
  destruct (find_route (h_method r) (h_path r)) as [p ps| |] eqn:Hf; try by (intros [= <- _]; intros []).
  intros He _. exists p, ps. split; [done|]. split.
  - destruct (dispatch_known _ _ _ _ _ _ _ _ _ Hd (found_guarded _ _ _ Hf)) as [Hp|[Hp|(y & -> & Hy)]]; [by left|by right; left|].
    right; right. by exists y.
  - intros role v Hr ->. assert (require_role u role = None ∧ u = v) as [Hq ->].
    { destruct p; try done; injection Hr as <-; cbn [endpoint_serve] in He; unfold with_role in He; destruct (require_role u _) eqn:Eq; try done; by injection He as ->. }
    split; [done|]. destruct (role_user _ _ Hq) as [y ->]. exists y. split; [done|by apply gate_user].
Qed.
End rights.

(** ** Concretely *)
(** Starlette 1.10 and urlsplit: [?], [#] and the backslash are quoted, tabs and line breaks left out. *)
Definition demo_char (c : Z) : pystr :=
  if existsb (Z.eqb c) [9; 10; 13] then [] else if c =? 63 then str "%3F" else if c =? 35 then str "%23" else if c =? 92 then str "%5C" else [c].
#[local] Instance demo_starlette : Starlette := {| compile_path := λ pattern p, fit (split_on 47 (str pattern)) (split_on 47 p); url_char := demo_char |}.
#[local] Instance demo_starlette_ok : StarletteOk demo_starlette.
Proof.
  constructor; [done| |done]. intros c Hc. cbn. unfold demo_char. unfold path_char, in_range in Hc. change (str "/-._") with [47; 45; 46; 95] in Hc.
  cbn [existsb] in Hc |- *. by rewrite !(proj2 (Z.eqb_neq c _)) by lia.
Qed.
Definition app_users : list User :=
  [mkUser (vstr "ann") (vstr "x") (vstr "admin") (VInt 1) (vstr "local"); mkUser (vstr "bob") (vstr "y") (vstr "operator") (VInt 1) (vstr "local");
   mkUser (vstr "vic") (vstr "z") (vstr "viewer") (VInt 1) (vstr "local")].
Definition demo_web : web := mkState' (set_config (set_users app_users (config demo_state)) demo_state) (mkLimiter 10 300 ∅) [] [] [].
Definition demo_chance : chance := mkChance 1000 1000000 [1] (str "t0ken") (str "st4te") (str "n0nce") (str "s") (str "i") (Ok tt) (λ _, None) [] 7.
Definition session_of (u : string) : option pystr := match issue_session demo_hmac (secret_key base_config) 600 (vstr u) (VInt 1) 900 with Ok t => Some t | Raise _ => None end.
Definition demo_web_request (m path' : string) (session : option pystr) (csrf : string) : web_request :=
  mkWeb m (str path') (str "http") (str "gw") (Some (str "10.0.0.7")) (λ h, if String.eqb h "x-csrf-token" then Some (str csrf) else if String.eqb h "host" then Some (str "gw") else None)
    (Some (str "c5rf")) session None [] [] [] [] None.
Definition no_directory (h : list ldap_call) (c : ldap_call) : res (list ldap_entry) := raise ValueError "no directory".
Definition no_provider (url : pystr) : res pyval := raise ValueError "no provider".
Abbreviation demo_serve_web := (serve demo_hmac (λ b, b) demo_scrypt ascii_word no_repr lower (λ _, true) demo_env (str "gw") (str "1") None (λ _, None) (λ _, []) no_classic true true
  no_field demo_escape demo_escape no_directory no_provider (λ url _, no_provider url) (λ _ _ _ _ _, raise ValueError "no token") (str "/data")).
Definition delete_a (session : option pystr) (csrf : string) : web_request := demo_web_request "DELETE" "/api/mappings/a" session csrf.
Abbreviation ids w := (id <$> mappings (cfg w)).
Lemma change_needs_right_witness :
  let r := delete_a (session_of "bob") "c5rf" in let w' := (demo_serve_web demo_chance r demo_web).2 in
  (ids demo_web = [vstr "a"; vstr "b"] ∧ ids w' = [vstr "b"])
  ∧ (w_app w' = w_app demo_web ∨ ∃ p ps rt, find_route (h_method r) (h_path r) = Found p ps ∧ right_of p = Some rt
       ∧ holds demo_hmac (λ b, b) demo_scrypt no_repr (str "gw") true no_field demo_escape demo_escape no_directory no_provider (λ url _, no_provider url) (λ _ _ _ _ _, raise ValueError "no token") rt
           demo_chance r demo_web).
Proof.
  split; [vm_compute; done|].
  apply (change_needs_right demo_hmac (λ b, b) demo_scrypt ascii_word no_repr lower (λ _, true) demo_env (str "gw") (str "1") None (λ _, None) (λ _, []) no_classic true true
    no_field demo_escape demo_escape no_directory no_provider (λ url _, no_provider url) (λ _ _ _ _ _, raise ValueError "no token") (str "/data")
    demo_chance (delete_a (session_of "bob") "c5rf") demo_web (demo_serve_web demo_chance (delete_a (session_of "bob") "c5rf") demo_web).1).
  by destruct (demo_serve_web _ _ _).
Defined.
Definition audit_by (session : option pystr) : web_request := demo_web_request "GET" "/settings/audit" session "".
Lemma strangers_see_nothing_witness :
  let r := audit_by (session_of "ann") in let a := (demo_serve_web demo_chance r demo_web).1 in
  (demo_serve_web demo_chance (audit_by None) demo_web).1 = Gate (Redirect "/login")
  ∧ (demo_serve_web demo_chance (audit_by (session_of "bob")) demo_web).1 = Denied' 403
  ∧ a = Shown (head app_users)
  ∧ ∃ p ps, find_route (h_method r) (h_path r) = Found p ps
    ∧ (public p = true
       ∨ (by_token p = true ∧ ∃ h, api_token_hash (cfg demo_web) = VStr h ∧ h ≠ [] ∧ verify_token (λ b, b) (bearer_token (default [] (h_headers r "authorization"))) h = Ok true)
       ∨ ∃ u, comes_from demo_hmac no_repr (str "gw") r demo_chance demo_web u)
    ∧ ∀ role u, reader_role p = Some role → a = Shown u → require_role u role = None ∧ ∃ y, u = Some y ∧ comes_from demo_hmac no_repr (str "gw") r demo_chance demo_web y.
Proof.
  split; [vm_compute; reflexivity|]. split; [vm_compute; reflexivity|]. split; [vm_compute; reflexivity|].
  apply (strangers_see_nothing demo_hmac (λ b, b) demo_scrypt ascii_word no_repr lower (λ _, true) demo_env (str "gw") (str "1") None (λ _, None) (λ _, []) no_classic true true
    no_field demo_escape demo_escape no_directory no_provider (λ url _, no_provider url) (λ _ _ _ _ _, raise ValueError "no token") (str "/data")
    demo_chance (audit_by (session_of "ann")) demo_web _ (demo_serve_web demo_chance (audit_by (session_of "ann")) demo_web).2); [|vm_compute; exact I].
  by destruct (demo_serve_web _ _ _).
Defined.
(** Without the token of the browser, without the role, without a session, without the API token; and the first run. *)
Example refusals :
  let ask r := (demo_serve_web demo_chance r demo_web).1 in
  ask (delete_a (session_of "bob") "other") = Gate (Status 403)
  ∧ ask (delete_a (session_of "vic") "c5rf") = Paged (Forbidden 403)
  ∧ ask (delete_a None "c5rf") = Gate (Status 401)
  ∧ ask (demo_web_request "DELETE" "/api/v1/mappings/a" (session_of "ann") "c5rf") = Gate (Status 401)
  ∧ ask (demo_web_request "PUT" "/api/mappings/a" (session_of "ann") "c5rf") = NoRoute 405
  ∧ ask (demo_web_request "GET" "/settings/nothing" (session_of "ann") "") = NoRoute 404
  ∧ ask (demo_web_request "GET" "/setup" None "") = Gate (Redirect "/").
Proof. vm_compute. done. Qed.
Definition fresh_web : web := mkState' first_state (mkLimiter 10 300 ∅) [] [] [].
Example first_run :
  (demo_serve_web demo_chance (demo_web_request "GET" "/" None "") fresh_web).1 = Gate (Redirect "/setup")
  ∧ (demo_serve_web demo_chance (demo_web_request "GET" "/setup" None "") fresh_web).1 = Shown None
  ∧ (demo_serve_web demo_chance (demo_web_request "POST" "/setup" None "") fresh_web).1 = Replied (Denied 403) None.
Proof. vm_compute. done. Qed.
