(* ===== verification/ApiDoc.v ===== *)
(** * The description of the REST API (app/web/api.py, openapi_spec)

    The OpenAPI document that /api/v1/openapi.json answers, and its agreement with the routes of [WebApp] and the gate of [Accounts]. *)
From S2P Require Import Prelude PyStr PyVal Json JsonOut Config AppConfig Auth Accounts Pages WebApp.
#[local] Open Scope Z_scope.

(** ** The document *)
Definition field_of (k v : string) : pystr * pyval := (str k, vstr v).
Definition object (k : string) (l : list (pystr * pyval)) : pystr * pyval := (str k, VDict l).
Definition array (k : string) (l : list pyval) : pystr * pyval := (str k, VList l).
Definition string_type : pyval := VDict [field_of "type" "string"].
Definition mapping_obj : pyval := VDict [field_of "type" "object"; field_of "description" "A serial<->network mapping (see config model)."].
Definition error_obj : pyval := VDict [field_of "type" "object"; object "properties" [(str "error", string_type); (str "detail", string_type)]].
Definition secured : pystr * pyval := array "security" [VDict [array "bearerAuth" []]].
Definition takes_mapping : pystr * pyval :=
  object "requestBody" [key "required" (VBool true); object "content" [object "application/json" [object "schema" [field_of "$ref" "#/components/schemas/Mapping"]]]].
Definition responses (l : list (string * string)) : pystr * pyval := object "responses" ((λ '(code, text), object code [field_of "description" text]) <$> l).
Definition path_parameter (name : string) (schema : pyval) : pyval := VDict [field_of "name" name; field_of "in" "path"; key "required" (VBool true); key "schema" schema].
Definition openapi_spec : pyval := VDict
  [field_of "openapi" "3.0.3";
   object "info" [field_of "title" "ser2net REST API"; field_of "version" "1.0.0";
     field_of "description" "Manage serial<->network mappings, status and ports. Authenticate with `Authorization: Bearer <token>` (generate the token in Settings)."];
   array "servers" [VDict [field_of "url" "/api/v1"]];
   object "components" [object "securitySchemes" [object "bearerAuth" [field_of "type" "http"; field_of "scheme" "bearer"]];
                        object "schemas" [key "Mapping" mapping_obj; key "Error" error_obj]];
   secured;
   object "paths"
     [object "/health" [object "get" [field_of "summary" "Liveness probe (no auth)"; array "security" []; responses [("200", "ok")%string]]];
      object "/status" [object "get" [field_of "summary" "Live status of all mappings"; secured; responses [("200", "status map")%string]]];
      object "/ports" [object "get" [field_of "summary" "Detected serial ports"; secured; responses [("200", "port list")%string]]];
      object "/mappings"
        [object "get" [field_of "summary" "List mappings (config + status)"; secured; responses [("200", "mappings")%string]];
         object "post" [field_of "summary" "Create a mapping"; secured; takes_mapping; responses [("201", "created"); ("400", "validation error")]%string]];
      object "/mappings/{mid}"
        [array "parameters" [path_parameter "mid" string_type];
         object "get" [field_of "summary" "Get a mapping"; secured; responses [("200", "mapping"); ("404", "not found")]%string];
         object "put" [field_of "summary" "Replace a mapping"; secured; takes_mapping; responses [("200", "updated"); ("400", "validation error"); ("404", "not found")]%string];
         object "delete" [field_of "summary" "Delete a mapping"; secured; responses [("200", "deleted"); ("404", "not found")]%string]];
      object "/mappings/{mid}/{action}"
        [array "parameters" [path_parameter "mid" string_type;
                             path_parameter "action" (VDict [field_of "type" "string"; array "enum" [vstr "start"; vstr "stop"; vstr "restart"]])];
         object "post" [field_of "summary" "Start/stop/restart a mapping"; secured; responses [("200", "action applied"); ("404", "not found")]%string]]]].

(** ** What it says *)
Definition entries (v : pyval) : list (pystr * pyval) := match v with VDict d => d | _ => [] end.
Definition entry_of (k : string) (v : pyval) : pyval := get (entries v) k VNone.
(** The operations of a document: path below the server's prefix, method, and whether it asks for the token. *)
Definition operations (doc : pyval) : list (pystr * pystr * bool) :=
  let prefix := match entry_of "servers" doc with VList (s :: _) => match entry_of "url" s with VStr u => u | _ => [] end | _ => [] end in
  entries (entry_of "paths" doc) ≫= λ '(path, x),
    omap (λ '(m, op), if str_eqb m (str "parameters") then None else Some (prefix ++ path, m, truthy (entry_of "security" op))) (entries x).
(** The operations that are served: the API's routes but the document's own (HEAD goes with GET, as everywhere). *)
Definition api_operations : list (pystr * pystr * bool) :=
  api_routes ≫= λ '(pattern, methods, x),
    omap (λ m, if decide (x = AOpenapi) then None else if String.eqb m "HEAD" then None else Some (str pattern, lower (str m), by_token x)) methods.
Lemma described_once : operations openapi_spec = api_operations.
Proof. vm_compute. reflexivity. Qed.
(** A path of the API whose route asks for the token is behind the gate's token check. *)
Lemma token_needed hmac_sha256 sha256 repr hostname c now r u p :
  by_token p = true → row_guarded p (path r) = true → dispatch hmac_sha256 sha256 repr hostname c now r = Ok (Serve u) →
  ∃ h, api_token_hash c = VStr h ∧ h ≠ [] ∧ verify_token sha256 (bearer_token (authorization r)) h = Ok true.
Proof.
  intros Hp Hr H. destruct (dispatch_known _ _ _ _ _ _ _ _ _ H Hr) as [Hpub|[[_ Ht]|(x & -> & _)]]; [by destruct p|done|].
  exfalso. unfold row_guarded in Hr. assert (public p = false) as Hpub by (by destruct p). rewrite Hpub, Hp in Hr. apply andb_true_iff in Hr as [E Hm%negb_true_iff].
  unfold dispatch in H. unfold v1 in E. rewrite E in H. unfold _dispatch_api in H. rewrite Hm in H. destruct (password_set c); [|done]. cbn [negb] in H.
  destruct (api_token_hash c) as [| | | |[|a h]| | |]; try (by case_match). apply res_bind_Ok in H as (ok & _ & H). by repeat case_match.
Qed.
(** The document describes exactly what is served: its operations are the API's routes but the document's own, each once; an operation it marks
    as open is answered without a token, whatever the configuration, and every other one only with the token. *)
Theorem openapi_true :
  operations openapi_spec = api_operations ∧ NoDup api_operations
  ∧ ∀ pattern m bearer, (pattern, m, bearer) ∈ operations openapi_spec →
      ∀ hmac_sha256 sha256 repr hostname c now r segments, shaped (split_on 47 pattern) segments → path r = join [47] segments →
        (bearer = false → dispatch hmac_sha256 sha256 repr hostname c now r = Ok (Serve None))
        ∧ (bearer = true → ∀ u, dispatch hmac_sha256 sha256 repr hostname c now r = Ok (Serve u) →
             ∃ h, api_token_hash c = VStr h ∧ h ≠ [] ∧ verify_token sha256 (bearer_token (authorization r)) h = Ok true).
Proof.
  split; [exact described_once|]. split; [apply (bool_decide_unpack _); vm_compute; exact I|].
  intros pattern m bearer Hin hmac_sha256 sha256 repr hostname c now r segments Hs Hp. rewrite described_once in Hin.
  unfold api_operations in Hin. apply list_elem_of_bind in Hin as ([[pat methods] x] & Hm & Hrow). apply list_elem_of_omap in Hm as (m0 & _ & Hm).
  destruct (decide (x = AOpenapi)) as [|Hx]; [done|]. destruct (String.eqb m0 "HEAD"); [done|]. injection Hm as <- <- <-.
  assert (by_token x = true ∨ pat = "/api/v1/health"%string) as Hb.
  { revert Hx Hrow. unfold api_routes. rewrite !elem_of_cons, elem_of_nil. intros Hx. intuition; simplify_eq; auto. }
  assert (row_guarded x (path r) = true) as Hg.
  { pose proof rows_guarded as Hall. rewrite Forall_forall in Hall. assert ((pat, methods, x) ∈ build_routes) as Hbr.
    { unfold build_routes. rewrite !elem_of_app. auto. }
    rewrite Hp. exact (Hall _ Hbr segments Hs). }
  split.
  - intros Ht. destruct Hb as [Hb| ->]; [congruence|]. known_path segments Hs. unfold dispatch, _dispatch_api. by rewrite Hp.
  - intros Ht u Hd. by eapply token_needed.
Qed.
