(* ===== verification/NotifySend.v ===== *)
(** * Sending a notification (app/notify.py: send_webhook, send_email, Notifier.deliver)

    The texts of a notification and the calls that send it, in order. The webhook's server and the mail server are arbitrary: [http]
    answers a request with a status or a failure, [server] answers each call of the mail dialogue from all the calls before it. What
    the two channels report is what the worker of [Notify] logs. *)
From S2P Require Import Prelude PyFloat PyStr PyVal Json JsonOut Config AppConfig Pages Notify.
#[local] Open Scope Z_scope.

(** An exception as [_reason] reads it: its class, its text, its code and the text of its reason, when it has them. *)
Record failure := mkFailure { f_type : pystr; f_text : pystr; f_code : option Z; f_reason : option pystr }.
Definition _reason (f : failure) : pystr :=
  let text := or_str (default (f_text f) (f_reason f)) (f_type f) in
  match f_code f with Some c => str "HTTP " ++ str_of_Z c ++ [32] ++ text | None => text end.
Definition class_text (c : exn_class) : pystr :=
  str match c with
      | ValueError => "ValueError" | TypeError => "TypeError" | AttributeError => "AttributeError" | KeyError => "KeyError" | IndexError => "IndexError"
      | OverflowError => "OverflowError" | ConfigError => "ConfigError" | OSError => "OSError" | ConnectionError => "ConnectionError" | TimeoutError => "TimeoutError"
      | OutOfFuel => "OutOfFuel"
      end.
Definition failure_of (x : exn) : failure := mkFailure (class_text (exn_cls x)) (str (exn_msg x)) None None.
Definition of_res {A} (r : res A) : A + failure := match r with Ok a => inl a | Raise x => inr (failure_of x) end.

(** ** Texts *)
Definition TITLES : list (pystr * string) :=
  (λ '(k, t), (str k, t)) <$>
    [("device_lost", "serial device lost"); ("device_back", "serial device back"); ("start_failed", "mapping failed to start"); ("client_connected", "client connected");
     ("client_disconnected", "client disconnected"); ("login_failed", "failed sign-in"); ("test", "test notification")]%string.
(** [text.format(...)] for the numbered places of a translation. *)
Fixpoint fill_in (args : list pystr) (t : pystr) : pystr :=
  match t with
  | 123 :: ((d :: 125 :: r) as t') => if in_range 48 57 d then default [] (args !! Z.to_nat (d - 48)) ++ fill_in args r else 123 :: fill_in args t'
  | c :: t' => c :: fill_in args t'
  | [] => []
  end.

(** ** The channels *)
Inductive mail_call :=
  | MConnect (tls : bool) (host port : pyval)
  | MStartTls
  | MLogin (user password : pyval)
  | MSend (from to subject body : pystr)
  | MQuit.
Definition post : Type := pystr * pystr.
Record mail := mkMail { m_subject : pystr; m_from : pystr; m_to : pystr; m_body : pystr }.
Section channels.
Context (hostname version now_text : pystr) (catalog : pystr → list (pystr * pystr)) (repr : pyval → pystr).
Context (http : pystr → pystr → Z + failure) (server : list mail_call → mail_call → option failure).
Definition title (lang e : pystr) : pystr := match assoc e TITLES with Some t => gettext catalog lang (str t) | None => e end.
Definition hook_body (lang : pystr) (s : NotificationSettings) (i : message_item) : pystr :=
  dumps default_style 0 (webhook_body hostname version (title lang) now_text (webhook_format s) (it_event i) (it_mapping i) (it_detail i)
                           (str_of_val repr (telegram_chat_id s))).
(** What is posted, and how it ends. *)
Definition send_webhook (lang : pystr) (s : NotificationSettings) (i : message_item) : (unit + failure) * list post :=
  match of_res (strip_of (webhook_url s)) with
  | inr f => (inr f, [])
  | inl url =>
      let body := hook_body lang s i in
      (match http url body with
       | inr f => inr f
       | inl status => if 300 <=? status then inr (mkFailure (str "OSError") (str "webhook answered HTTP " ++ str_of_Z status) None None) else inl ()
       end, [(url, body)])
  end.
(** A computation with mail calls: its result, and the calls so far. *)
Definition dialogue (A : Type) : Type := list mail_call → (A + failure) * list mail_call.
Definition ask_mail (c : mail_call) : dialogue unit := λ h, (match server h c with None => inl () | Some f => inr f end, h ++ [c]).
Definition andthen {A B} (m : dialogue A) (k : A → dialogue B) : dialogue B := λ h, match m h with (inl a, h') => k a h' | (inr f, h') => (inr f, h') end.
Definition lift {A} (r : res A) : dialogue A := λ h, (of_res r, h).
Definition only_if (b : bool) (m : dialogue unit) : dialogue unit := if b then m else λ h, (inl (), h).
(** Leaving [with smtp:] says QUIT, also after a failure; a failure to do so is the one that is seen. *)
Definition with_smtp (m : dialogue unit) : dialogue unit := λ h,
  let '(r, h) := m h in match server h MQuit with Some f => (inr f, h ++ [MQuit]) | None => (r, h ++ [MQuit]) end.
(** A header is one line; [splitlines] is how the email package looks for line ends. *)
Definition header_line (v : pystr) : res pystr :=
  if (1 <? length (splitlines v))%nat then raise ValueError "Header values may not contain linefeed or carriage return characters" else Ok v.
Definition compose (lang : pystr) (s : NotificationSettings) (i : message_item) : res mail :=
  let '(head, text) := message hostname (title lang) (it_event i) (it_mapping i) (it_detail i) in
  subject ← header_line head;
  sender ← strip_of (email_from s);
  from ← header_line (or_str sender (str "ser2net@" ++ hostname));
  rcpt ← recipients s;
  to ← header_line (join (str ", ") rcpt);
  let body := text ++ [10; 10] ++ str "-- " ++ [10] ++ fill_in [version; hostname] (gettext catalog lang (str "ser2net {0} on {1}")) ++ [10] in
  _ ← utf8_encode body;
  Ok (mkMail subject from to body).
Definition send_email (lang : pystr) (s : NotificationSettings) (i : message_item) : dialogue unit :=
  andthen (lift (compose lang s i)) (λ m,
  andthen (ask_mail (MConnect (eq_str (smtp_security s) (str "ssl")) (smtp_host s) (smtp_port s))) (λ _,
  with_smtp (andthen (only_if (eq_str (smtp_security s) (str "starttls")) (ask_mail MStartTls)) (λ _,
             andthen (only_if (truthy (smtp_username s)) (ask_mail (MLogin (smtp_username s) (smtp_password s)))) (λ _,
             ask_mail (MSend (m_from m) (m_to m) (m_subject m) (m_body m))))))).

(** ** Delivery *)
Record sent_out := mkSent { s_posts : list post; s_mails : list mail_call }.
Definition failed_with {A} (r : A + failure) : option pystr := match r with inl _ => None | inr f => Some (_reason f) end.
Definition webhook_result (lang : pystr) (s : NotificationSettings) (i : message_item) : option pystr := failed_with (send_webhook lang s i).1.
Definition email_result (lang : pystr) (s : NotificationSettings) (i : message_item) : option pystr := failed_with (send_email lang s i []).1.
(** [_deliver], with what the two functions it calls report, and the calls made. *)
Definition delivery (lang : pystr) (s : NotificationSettings) (i : message_item) : res (list pystr) * sent_out :=
  (Notify._deliver repr (webhook_result lang s) (email_result lang s) s i,
   match strip_of (webhook_url s) with
   | Raise _ => mkSent [] []
   | Ok u =>
       let posts := if is_empty u then [] else (send_webhook lang s i).2 in
       match recipients s with
       | Raise _ | Ok [] => mkSent posts []
       | Ok _ => mkSent posts (send_email lang s i []).2
       end
   end).
(** [deliver]: in the language of the configuration; the language of the caller is back afterwards, however it ends. *)
Definition deliver (default_lang : pystr) (s : NotificationSettings) (i : message_item) (current : pystr) : (res (list pystr) * sent_out) * pystr :=
  let token := current in let current := set_language default_lang in (delivery current s i, token).
End channels.

(** ** What the channels may see *)
Section safety.
Context (hostname version now_text : pystr) (catalog : pystr → list (pystr * pystr)) (repr : pyval → pystr).
Context (http : pystr → pystr → Z + failure) (server : list mail_call → mail_call → option failure).
(** The dialogue so far is encrypted the way the settings ask for. *)
Definition encrypted (s : NotificationSettings) (pre : list mail_call) : Prop :=
  (smtp_security s = vstr "ssl" → head pre = Some (MConnect true (smtp_host s) (smtp_port s)))
  ∧ (smtp_security s = vstr "starttls" → ∃ n, pre !! n = Some MStartTls ∧ server (take n pre) MStartTls = None).
(** What may precede a call, and follow it. *)
Definition rule (s : NotificationSettings) (pre : list mail_call) (c : mail_call) (later : list mail_call) : Prop :=
  match c with
  | MConnect tls host port => pre = [] ∧ host = smtp_host s ∧ port = smtp_port s ∧ (server pre c = None → last later = Some MQuit)
  | MStartTls => ∃ c0, pre = [c0] ∧ server [] c0 = None
  | MLogin user password => encrypted s pre ∧ user = smtp_username s ∧ password = smtp_password s
  | MSend _ to _ _ => encrypted s pre ∧ later = [MQuit] ∧ (∃ rcpt, recipients s = Ok rcpt ∧ to = join (str ", ") rcpt)
      ∧ (truthy (smtp_username s) = true → ∃ n, pre !! n = Some (MLogin (smtp_username s) (smtp_password s)) ∧ server (take n pre) (MLogin (smtp_username s) (smtp_password s)) = None)
  | MQuit => later = []
  end.
Definition orderly (s : NotificationSettings) (h : list mail_call) : Prop := ∀ n c, h !! n = Some c → rule s (take n h) c (drop (S n) h).
Definition taken (s : NotificationSettings) (h : list mail_call) : Prop :=
  ∃ n from to subject body, h !! n = Some (MSend from to subject body) ∧ server (take n h) (MSend from to subject body) = None.
Lemma eq_str_vstr v t : eq_str v (str t) = true ↔ v = vstr t.
Proof.
  unfold eq_str. destruct v; try done. split; [by intros ->%str_eqb_eq|]. intros [= ->]. apply str_eqb_refl.
Qed.
Lemma compose_to lang s i m : compose hostname version catalog lang s i = Ok m → ∃ rcpt, recipients s = Ok rcpt ∧ m_to m = join (str ", ") rcpt.
Proof.
  unfold compose, message. intros H. apply res_bind_Ok in H as (a & _ & H). apply res_bind_Ok in H as (b & _ & H). apply res_bind_Ok in H as (c & _ & H).
  apply res_bind_Ok in H as (rcpt & Hr & H). apply res_bind_Ok in H as (t & Ht & H). apply res_bind_Ok in H as (e & _ & H). injection H as <-.
  exists rcpt. split; [done|]. unfold header_line in Ht. destruct (_ <? _)%nat; [done|]. by injection Ht as <-.
Qed.
(** The calls before [c], the way the settings shape them. *)
Ltac call_by_call :=
  let n := fresh in let c := fresh in let Hn := fresh in
  repeat match goal with x := _ : mail_call |- _ => subst x end; intros n c Hn; repeat (destruct n as [|n]; [injection Hn as <-; cbn [rule take drop]|]; try done).
Lemma encrypted_by s pre :
  head pre = Some (MConnect (eq_str (smtp_security s) (str "ssl")) (smtp_host s) (smtp_port s)) →
  (eq_str (smtp_security s) (str "starttls") = true → ∃ n, pre !! n = Some MStartTls ∧ server (take n pre) MStartTls = None) →
  encrypted s pre.
Proof.
  intros Hh Hs. split; intros E%eq_str_vstr; [by rewrite E in Hh|by apply Hs].
Qed.
Ltac send_at := first [exact (eq_refl : [_; _; _] !! 1%nat = Some _) | exact (eq_refl : [_; _; _; _] !! 2%nat = Some _) | exact (eq_refl : [_; _; _; _; _] !! 3%nat = Some _)].
Ltac keeps_rules rcpt :=
  split;
  [call_by_call;
   first [done | by split_and! | by eexists
         | split_and!; [apply encrypted_by; [done|intros ?; first [congruence | by exists 1%nat]]|done..]
         | split_and!; [apply encrypted_by; [done|intros ?; first [congruence | by exists 1%nat]]|done|by exists rcpt|intros ?; first [congruence | by exists 1%nat | by exists 2%nat]]]
  |first [done | repeat match goal with x := _ : mail_call |- _ => subst x end; intros _; eexists _, _, _, _, _; split; [send_at|done] ]].
Lemma email_orderly lang s i :
  let '(r, h) := send_email hostname version catalog server lang s i [] in
  orderly s h ∧ (r = inl () → taken s h).
Proof.
  unfold send_email, andthen at 1. unfold lift at 1. destruct (compose _ _ _ _ _ _) as [m|x] eqn:Ec; cbn [of_res]; [|split; [by intros n c ?|done]].
  apply compose_to in Ec as (rcpt & Hr & Ht).
  unfold andthen, ask_mail, with_smtp, only_if. cbn [app].
  set (C := MConnect _ _ _). destruct (server [] C) eqn:E0; [split; [call_by_call; split_and!; congruence|done]|].
  set (L := MLogin _ _). set (S := MSend _ _ _ _). 
  destruct (eq_str (smtp_security s) (str "starttls")) eqn:Es; cbn [app].
  - destruct (server [C] MStartTls) eqn:E1; cbn [app].
    { destruct (server [C; MStartTls] MQuit); keeps_rules rcpt. }
    destruct (truthy (smtp_username s)) eqn:Eu; cbn [app].
    + destruct (server [C; MStartTls] L) eqn:E2; cbn [app].
      { destruct (server [C; MStartTls; L] MQuit); keeps_rules rcpt. }
      destruct (server [C; MStartTls; L] S) eqn:E3, (server [C; MStartTls; L; S] MQuit); keeps_rules rcpt.
    + destruct (server [C; MStartTls] S) eqn:E3, (server [C; MStartTls; S] MQuit); keeps_rules rcpt.
  - destruct (truthy (smtp_username s)) eqn:Eu; cbn [app].
    + destruct (server [C] L) eqn:E2; cbn [app].
      { destruct (server [C; L] MQuit); keeps_rules rcpt. }
      destruct (server [C; L] S) eqn:E3, (server [C; L; S] MQuit); keeps_rules rcpt.
    + destruct (server [C] S) eqn:E3, (server [C; S] MQuit); keeps_rules rcpt.
Qed.
(** C28: sending is safe and reported. Delivering a notification always returns, in the caller's language again, whatever the servers do. It
    posts once when a webhook is configured and nothing else; mail goes only to the recipients. A password or a message is given to the
    mail server only over the encryption the settings ask for (STARTTLS taken before, or a TLS connection), a message only after
    the sign-in they ask for, and a connection that was opened ends with QUIT. When no error is reported, the webhook took it
    and the mail server taken the message. *)
Theorem deliver_safe url to default_lang s i current :
  webhook_url s = VStr url → email_to s = VStr to →
  ∃ errs o, deliver hostname version now_text catalog repr http server default_lang s i current = ((Ok errs, o), current)
    ∧ s_posts o = (if is_empty (strip url) then [] else [(strip url, hook_body hostname version now_text catalog repr (set_language default_lang) s i)])
    ∧ (recipients s = Ok [] → s_mails o = []) ∧ orderly s (s_mails o)
    ∧ (errs = [] →
         (∀ u b, (u, b) ∈ s_posts o → ∃ status, http u b = inl status ∧ status < 300)
         ∧ (recipients s = Ok [] ∨ taken s (s_mails o))).
Proof.
  intros Hu Ht. unfold deliver, delivery. cbn zeta. set (lang := set_language default_lang).
  assert (∃ rcpt, recipients s = Ok rcpt) as [rcpt Hr] by (unfold recipients; rewrite Ht; by eexists).
  unfold Notify._deliver. rewrite Hu, Hr. cbn [strip_of mbind res_bind].
  pose proof (email_orderly lang s i) as He. unfold email_result. destruct (send_email _ _ _ _ _ _ _ _) as [r h]. destruct He as [Ho Ha].
  eexists _, _. split; [reflexivity|]. split_and!.
  - unfold send_webhook. rewrite Hu. cbn [strip_of of_res snd]. by destruct rcpt, (is_empty (strip url)).
  - by intros [= ->].
  - destruct rcpt; [|done]. by intros n c ?.
  - intros [Hw Hm]%app_nil. split.
    + assert (∀ u b, (u, b) ∈ (if is_empty (strip url) then [] else (send_webhook hostname version now_text catalog repr http lang s i).2) → ∃ status, http u b = inl status ∧ status < 300) as Hp.
      * revert Hw. unfold webhook_result, send_webhook. rewrite Hu. cbn [strip_of of_res]. destruct (is_empty (strip url)); [by intros _ u b ?%elem_of_nil|].
        destruct (http _ _) as [status|f] eqn:Eh; cbn [fst snd failed_with]; [|done]. destruct (Z.leb_spec 300 status); cbn [failed_with]; [done|].
        intros _ u b [= -> ->]%list_elem_of_singleton. by exists status.
      * by destruct rcpt.
    + destruct rcpt as [|a rcpt]; [by left|right]. destruct r as [[]|f]; cbn in Hm; [by apply Ha|done].
Qed.
End safety.
Definition demo_mail : NotificationSettings :=
  mkNotify (VBool true) [str "test"] (VInt 300) (vstr " https://hooks.example/x ") (vstr "slack") (vstr "") (vstr "ops@example.org; oncall@example.org") (vstr "") (vstr "mail.example.org") (VInt 587)
    (vstr "starttls") (vstr "ser2net") (vstr "secret").
Definition demo_item : message_item := mkItem (str "test") (str "scale") (str "hello").
(** A server that offers no STARTTLS. *)
Definition plain_server (h : list mail_call) (c : mail_call) : option failure :=
  match c with MStartTls => Some (mkFailure (str "SMTPNotSupportedError") (str "STARTTLS extension not supported by server.") None None) | _ => None end.
Definition demo_deliver (server : list mail_call → mail_call → option failure) (status : Z) (s : NotificationSettings) : (res (list pystr) * sent_out) * pystr :=
  deliver (str "host") (str "1.0") [] (λ _, []) (λ _, []) (λ _ _, inl status) server (str "auto") s demo_item (str "tr").
Lemma deliver_safe_witness :
  webhook_url demo_mail = vstr " https://hooks.example/x " ∧ email_to demo_mail = vstr "ops@example.org; oncall@example.org"
  ∧ ∃ errs o, deliver (str "host") (str "1.0") [] (λ _, []) (λ _, []) (λ _ _, inl 200) plain_server (str "auto") demo_mail demo_item (str "tr") = ((Ok errs, o), str "tr")
    ∧ s_posts o = (if is_empty (strip (str " https://hooks.example/x ")) then [] else [(strip (str " https://hooks.example/x "), hook_body (str "host") (str "1.0") [] (λ _, []) (λ _, []) (set_language (str "auto")) demo_mail demo_item)])
    ∧ (recipients demo_mail = Ok [] → s_mails o = []) ∧ orderly plain_server demo_mail (s_mails o)
    ∧ (errs = [] → (∀ u b, (u, b) ∈ s_posts o → ∃ status, (inl 200 : Z + failure) = inl status ∧ status < 300) ∧ (recipients demo_mail = Ok [] ∨ taken plain_server demo_mail (s_mails o))).
Proof.
  split; [reflexivity|]. split; [reflexivity|].
  exact (deliver_safe (str "host") (str "1.0") [] (λ _, []) (λ _, []) (λ _ _, inl 200) plain_server (str " https://hooks.example/x ") (str "ops@example.org; oncall@example.org") (str "auto") demo_mail demo_item (str "tr") eq_refl eq_refl).
Defined.
(** Without STARTTLS neither password nor message leaves; with it, both do. *)
Example without_tls :
  demo_deliver plain_server 200 demo_mail
  = ((Ok [str "e-mail via mail.example.org:587 failed: STARTTLS extension not supported by server."],
      mkSent [(str "https://hooks.example/x", dumps default_style 0 (VDict [key "text" (VStr (str "ser2net host: scale" ++ [32; 8212; 32] ++ str "test notification" ++ [10] ++ str "hello"))]))]
             [MConnect false (vstr "mail.example.org") (VInt 587); MStartTls; MQuit]), str "tr").
Proof. vm_compute. reflexivity. Qed.
Example with_tls :
  let '(r, o, _) := demo_deliver (λ _ _, None) 204 demo_mail in
  r = Ok [] ∧ match s_mails o with
              | [MConnect false _ _; MStartTls; MLogin _ _; MSend from to _ body; MQuit] =>
                  from = str "ser2net@host" ∧ to = str "ops@example.org, oncall@example.org"
                  ∧ body = str "ser2net host: scale" ++ [32; 8212; 32] ++ str "test notification" ++ [10] ++ str "hello" ++ [10; 10] ++ str "-- " ++ [10] ++ str "ser2net 1.0 on host" ++ [10]
              | _ => False
              end.
Proof. vm_compute. done. Qed.
(** A message that was accepted is still reported as failed when the server is gone before QUIT; a name with a line separator in it never
    leaves by mail. *)
Example refused_after_send :
  (demo_deliver (λ _ c, match c with MQuit => Some (mkFailure (str "TimeoutError") [] None None) | _ => None end) 503 demo_mail).1.1
  = Ok [str "webhook (slack) failed: webhook answered HTTP 503"; str "e-mail via mail.example.org:587 failed: TimeoutError"].
Proof. vm_compute. reflexivity. Qed.
Example separator_in_name :
  let i := mkItem (str "test") (str "scale" ++ [8232] ++ str "1") [] in
  (deliver (str "host") (str "1.0") [] (λ _, []) (λ _, []) (λ _ _, inl 200) (λ _ _, None) (str "en") demo_mail i (str "tr")).1
  = (Ok [str "e-mail via mail.example.org:587 failed: Header values may not contain linefeed or carriage return characters"],
     mkSent [(str "https://hooks.example/x", hook_body (str "host") (str "1.0") [] (λ _, []) (λ _, []) (str "en") demo_mail i)] []).
Proof. vm_compute. reflexivity. Qed.
Example reasons :
  _reason (mkFailure (str "HTTPError") (str "HTTP Error 404: Not Found") (Some 404) (Some (str "Not Found"))) = str "HTTP 404 Not Found"
  ∧ _reason (mkFailure (str "TimeoutError") [] None None) = str "TimeoutError".
Proof. vm_compute. done. Qed.
