(* ===== verification/Tools.v ===== *)
(** * The repository's tools (tools/refresh_wheels.py, tools/third_party.py)

    The set of wheels a release installs from, kept in step with requirements.txt, and the inventory of what goes into the executable.
    A directory is a list of file names with contents, in the order the system lists them; pip is an arbitrary function from a
    download to whether it succeeded and what is in the directory afterwards. *)
From stdpp Require Import sorting.
From S2P Require Import Prelude PyStr PyVal PyNum Json JsonOut Base64 Config.
#[local] Open Scope Z_scope.

(** ** Texts *)
(** [s.split(sep)]; fuel is the length of the text. *)
Fixpoint split_text_fuel (fuel : nat) (sep s : pystr) : list pystr :=
  match fuel, s with
  | O, _ | _, [] => [s]
  | S fuel', c :: s' =>
      if is_prefix sep s then [] :: split_text_fuel fuel' sep (drop (length sep) s)
      else match split_text_fuel fuel' sep s' with w :: ws => (c :: w) :: ws | [] => [[c]] end
  end.
Definition split_text (sep s : pystr) : list pystr := split_text_fuel (length s) sep s.
Definition head_of (l : list pystr) : pystr := match l with x :: _ => x | [] => [] end.
(** [s.partition(sep)]: what comes before, and after when it occurs. *)
Definition cut (sep s : pystr) : pystr * option pystr :=
  match split_text sep s with x :: ((_ :: _) as l) => (x, Some (join sep l)) | _ => (s, None) end.
(** [re.sub(r"[-_.]+", by, name).lower()] *)
Definition is_sep (c : Z) : bool := existsb (Z.eqb c) (str "-_.").
Fixpoint runs_to (by' : pystr) (in_run : bool) (s : pystr) : pystr :=
  match s with
  | [] => []
  | c :: s' => if is_sep c then (if in_run then [] else by') ++ runs_to by' true s' else c :: runs_to by' false s'
  end.
Definition normalize (name : pystr) : pystr := lower (runs_to (str "_") false name).
Definition canonical (name : pystr) : pystr := lower (runs_to (str "-") false name).

(** ** requirements.txt *)
Definition PYTHONS : list pystr := str <$> ["3.10"; "3.11"; "3.12"; "3.13"; "3.14"]%string.
Definition SYSTEMS : list pystr := str <$> ["Linux"; "Windows"]%string.
Definition PLATFORM_WHEEL_PYTHONS : list pystr := str <$> ["3.11"; "3.12"]%string.
Definition PIP_PLATFORMS (system : pystr) : list pystr :=
  if str_eqb system (str "Linux") then str <$> ["manylinux_2_28_x86_64"; "manylinux_2_17_x86_64"; "manylinux2014_x86_64"; "manylinux_2_12_x86_64";
                                                "manylinux2010_x86_64"; "manylinux_2_5_x86_64"; "manylinux1_x86_64"]%string
  else [str "win_amd64"].
Inductive comparator := CEq | CNe | CLe | CGe | CLt | CGt.
Definition comparators : list (pystr * comparator) :=
  (λ '(s, c), (str s, c)) <$> [("=="%string, CEq); ("!="%string, CNe); ("<="%string, CLe); (">="%string, CGe); ("<"%string, CLt); (">"%string, CGt)].
(** [_MARKER]: whether it is about the system, the comparison and the text compared with. *)
Definition _MARKER (clause : pystr) : option (bool * comparator * pystr) :=
  let rest :=
    if starts_with clause (str "python_version") then Some (false, drop 14 clause)
    else if starts_with clause (str "platform_system") then Some (true, drop 15 clause) else None in
  '(about_system, s) ← rest;
  let s := lstrip_by is_space s in
  '(op, c) ← list_find (λ x, starts_with s x.1 = true) comparators ≫= λ x, Some x.2;
  match lstrip_by is_space (drop (length op) s) with
  | 34 :: s => match split_first 34 s with Some ((_ :: _) as want, []) => Some (about_system, c, want) | _ => None end
  | _ => None
  end.
Definition _version_tuple (v : pystr) : res (list Z) :=
  mapr (λ x, match int_of_text x with Some z => Ok z | None => raise ValueError "invalid literal for int()" end) (split_on 46 v).
Fixpoint tuple_compare (a b : list Z) : comparison :=
  match a, b with
  | [], [] => Eq | [], _ => Lt | _, [] => Gt
  | x :: a', y :: b' => match Z.compare x y with Eq => tuple_compare a' b' | c => c end
  end.
Definition compares (c : comparator) (o : comparison) : bool :=
  match c, o with
  | CEq, Eq | CNe, Lt | CNe, Gt | CLe, Lt | CLe, Eq | CGe, Gt | CGe, Eq | CLt, Lt | CGt, Gt => true
  | _, _ => false
  end.
Definition clause_holds (python system clause : pystr) : res bool :=
  match _MARKER clause with
  | None => raise ValueError "unsupported marker in requirements.txt"
  | Some (true, CEq, want) => Ok (str_eqb system want)
  | Some (true, CNe, want) => Ok (negb (str_eqb system want))
  | Some (true, _, _) => raise ValueError "unsupported platform_system comparison"
  | Some (false, c, want) => have_t ← _version_tuple python; want_t ← _version_tuple want; Ok (compares c (tuple_compare have_t want_t))
  end.
Fixpoint clauses_hold (python system : pystr) (clauses : list pystr) : res bool :=
  match clauses with
  | [] => Ok true
  | c :: clauses' => ok ← clause_holds python system (strip c); if (ok : bool) then clauses_hold python system clauses' else Ok false
  end.
Definition marker_applies (marker python system : pystr) : res bool :=
  if is_empty marker then Ok true else clauses_hold python system (split_text (str " and ") marker).
Definition requirement : Type := pystr * pystr * pystr.
Fixpoint read_requirements (lines : list pystr) : res (list requirement) :=
  match lines with
  | [] => Ok []
  | raw :: lines' =>
      let line := strip (head_of (split_on 35 raw)) in
      if is_empty line then read_requirements lines'
      else
        let '(spec, marker) := cut (str ";") line in
        match cut (str "==") (strip spec) with
        | (_, None) => raise ValueError "requirements.txt must pin exact versions"
        | (name, Some version) => rest ← read_requirements lines'; Ok ((strip name, strip version, strip (default [] marker)) :: rest)
        end
  end.

(** ** Wheels *)
(** [_WHEEL]: name-version(-build)-python-abi-platform.whl, the name as short as it can be; a build tag begins with a digit (an ASCII one: the names of wheels are ASCII). *)
Definition wheel := (pystr * pystr * list pystr * list pystr * list pystr)%type.
Definition wheel_of (parts : list pystr) (k : nat) : option wheel :=
  let name := join [45] (take k parts) in
  let fields ver py abi plat :=
    if is_empty name || existsb (λ c, c =? 10) name || existsb is_empty [ver; py; abi; plat] then None
    else Some (normalize name, ver, split_on 46 py, split_on 46 abi, split_on 46 plat) in
  match drop k parts with
  | [ver; py; abi; plat] => fields ver py abi plat
  | [ver; build; py; abi; plat] => match build with c :: _ => if in_range 48 57 c then fields ver py abi plat else None | [] => None end
  | _ => None
  end.
Definition parse_wheel (filename : pystr) : option wheel :=
  let stem := if ends_with filename (str ".whl") then Some (take (length filename - 4) filename) else None in
  s ← stem;
  let parts := split_on 45 s in
  head (omap (wheel_of parts) (seq 1 (length parts))).
(** [any] over tests that may raise. *)
Fixpoint anyr {A} (f : A → res bool) (l : list A) : res bool :=
  match l with [] => Ok false | a :: l' => b ← f a; if (b : bool) then Ok true else anyr f l' end.
Definition plat_ok (system p : pystr) : bool :=
  if str_eqb system (str "Linux") then str_eqb p (str "any") || (starts_with p (str "manylinux") && ends_with p (str "_x86_64"))
  else existsb (str_eqb p) (str <$> ["any"; "win_amd64"]%string).
Definition abi_fits (cp : pystr) (minor : Z) (pys : list pystr) (abi : pystr) : res bool :=
  if str_eqb abi (str "none") && existsb (λ p, existsb (str_eqb p) (str <$> ["py3"; "py2.py3"]%string) || str_eqb p cp) pys then Ok true
  else if str_eqb abi cp && existsb (str_eqb cp) pys then Ok true
  else if str_eqb abi (str "abi3") then
    anyr (λ p, if starts_with p (str "cp3") then match int_of_text (drop 3 p) with Some n => Ok (n <=? minor) | None => raise ValueError "invalid literal for int()" end
               else Ok false) pys
  else Ok false.
Definition wheel_fits (filename python system : pystr) : res bool :=
  match parse_wheel filename with
  | None => Ok false
  | Some (_, _, pys, abis, plats) =>
      if negb (existsb (plat_ok system) plats) then Ok false
      else
        match split_on 46 python with
        | _ :: m :: _ =>
            match int_of_text m with
            | Some minor => anyr (abi_fits (str "cp" ++ replace_all (str ".") [] python) minor pys) abis
            | None => raise ValueError "invalid literal for int()"
            end
        | _ => raise IndexError "list index out of range"
        end
  end.
(** [\[f for f in l if test(f)\]] with a test that may raise. *)
Fixpoint filterr {A} (f : A → res bool) (l : list A) : res (list A) :=
  match l with
  | [] => Ok []
  | a :: l' => b ← f a; r ← filterr f l'; Ok (if (b : bool) then a :: r else r)
  end.
Definition pinned_wheel (name version f : pystr) : bool :=
  match parse_wheel f with Some (n, v, _, _, _) => str_eqb n (normalize name) && str_eqb v version | None => false end.
(** One requirement on one Python and one system: nothing when its marker does not apply, else the wheels that serve it. *)
Definition case := (requirement * (pystr * pystr))%type.
Definition environments : list (pystr * pystr) := PYTHONS ≫= λ p, (λ s, (p, s)) <$> SYSTEMS.
Definition cases (reqs : list requirement) : list case := reqs ≫= λ r, (λ e, (r, e)) <$> environments.
Definition served_by (files : list pystr) (c : case) : res (option (list pystr)) :=
  let '((name, version, marker), (python, system)) := c in
  applies ← marker_applies marker python system;
  if negb applies then Ok None
  else fits ← filterr (λ f, if pinned_wheel name version f then wheel_fits f python system else Ok false) files; Ok (Some fits).
Definition case_text (c : case) : pystr :=
  let '((name, version, _), (python, system)) := c in name ++ str "==" ++ version ++ str " for Python " ++ python ++ str " on " ++ system.
Definition whl_files (listing : list pystr) : list pystr := sort_by str_leb (List.filter (λ f, ends_with f (str ".whl")) listing).
Definition lacking (x : case * option (list pystr)) : bool := match x.2 with Some [] => true | _ => false end.
(** (missing, stale) *)
Definition problems (listing : list pystr) (reqs : list requirement) : res (list pystr * list pystr) :=
  let files := whl_files listing in
  served ← mapr (served_by files) (cases reqs);
  let used := served ≫= λ o, default [] o in
  Ok (case_text <$> ((λ x, x.1) <$> List.filter lacking (zip (cases reqs) served)), List.filter (λ f, negb (existsb (str_eqb f) used)) files).

(** ** Downloading *)
Abbreviation archive := (list (pystr * bytes)).
Abbreviation directory := (list (pystr * archive)).
Record download := mkDownload { dl_req : pystr; dl_python : pystr; dl_platforms : list pystr; dl_abis : list pystr; dl_implementation : string }.
Section refresh.
Context (sha256 : bytes → bytes) (pip : download → directory → bool * directory).
Definition compiled (name : pystr) : bool := existsb (ends_with name) (str <$> [".so"; ".pyd"; ".dylib"]%string).
Definition record_row (name : pystr) (data : bytes) : pystr :=
  name ++ str ",sha256=" ++ rstrip_by (Z.eqb 61) (urlsafe_b64encode (sha256 data)) ++ str "," ++ str_of_Z (zlen data).
Definition wheel_meta : bytes :=
  str "Wheel-Version: 1.0" ++ [10] ++ str "Generator: ser2net-repack (pure-python fallback)" ++ [10] ++ str "Root-Is-Purelib: true" ++ [10] ++ str "Tag: py3-none-any" ++ [10].
(** The wheel without its compiled modules, and the name it gets. *)
Definition repack_pure (f : pystr) (src : archive) : res (pystr * archive) :=
  match parse_wheel f with
  | None => raise TypeError "cannot unpack non-iterable NoneType object"
  | Some (_, ver, _, _, _) =>
      match List.find (λ x, ends_with x.1 (str ".dist-info/RECORD")) src with
      | None => raise ValueError "StopIteration"
      | Some (record_name, _) =>
          let wheel_name := take (length record_name - 6) record_name ++ str "WHEEL" in
          let kept := List.filter (λ x, negb (str_eqb x.1 record_name || str_eqb x.1 wheel_name) && negb (compiled x.1)) src in
          let records := ((λ x, record_row x.1 x.2) <$> kept) ++ [record_row wheel_name wheel_meta; record_name ++ str ",,"] in
          record ← utf8_encode (join [10] records ++ [10]);
          Ok (head_of (split_on 45 f) ++ str "-" ++ ver ++ str "-py3-none-any.whl", kept ++ [(wheel_name, wheel_meta); (record_name, record)])
      end
  end.
(** What becomes of the temporary directory: it goes on, or the refresh ends with 1, or with an exception. *)
Inductive progress := Go (d : directory) | Quit | Fails (x : exn).
Fixpoint walk {A} (f : A → directory → progress) (l : list A) (d : directory) : progress :=
  match l with [] => Go d | a :: l' => match f a d with Go d' => walk f l' d' | r => r end end.
Definition when (b : res bool) (d : directory) (k : progress) : progress := match b with Ok true => k | Ok false => Go d | Raise x => Fails x end.
Definition platform_wheel (r : requirement) (e : pystr * pystr) (d : directory) : progress :=
  let '((name, version, marker), (python, system)) := (r, e) in
  when (marker_applies marker python system) d
    (let '(ok, d) := pip (mkDownload (name ++ str "==" ++ version) python (PIP_PLATFORMS system ++ [str "any"])
                             [str "cp" ++ replace_all (str ".") [] python; str "abi3"; str "none"] "cp") d in
     if ok then Go d else Quit).
Definition covering_wheel (r : requirement) (e : pystr * pystr) (d : directory) : progress :=
  let '((name, version, marker), (python, system)) := (r, e) in
  when (marker_applies marker python system) d
    (let have := List.filter (pinned_wheel name version) (d.*1) in
     match anyr (λ f, wheel_fits f python system) have with
     | Raise x => Fails x
     | Ok true => Go d
     | Ok false =>
         let '(ok, d) := pip (mkDownload (name ++ str "==" ++ version) python [str "any"] [str "none"] "py") d in
         if ok then Go d
         else
           let cp311 := List.filter (λ f, contains (str "cp311") f) have in
           match (match cp311 with [] => have | _ => cp311 end) with
           | [] => Quit
           | base :: _ =>
               match assoc base d with
               | None => Fails (Exn OSError "No such file or directory")
               | Some src => match repack_pure base src with Ok (made, a) => Go (dict_set made a d) | Raise x => Fails x end
               end
           end
     end).
Definition refresh_requirement (r : requirement) (d : directory) : progress :=
  match walk (platform_wheel r) (PLATFORM_WHEEL_PYTHONS ≫= λ p, (λ s, (p, s)) <$> SYSTEMS) d with
  | Go d => walk (covering_wheel r) environments d
  | p => p
  end.
(** The files that are new are copied, in the order of their names. *)
Definition copy_new (tmp wheels : directory) : directory :=
  let new := sort_by (λ x y, str_leb x.1 y.1) (List.filter (λ x, negb (existsb (str_eqb x.1) wheels.*1)) tmp) in wheels ++ new.
Definition remove_files (fs : list pystr) (d : directory) : directory := List.filter (λ x, negb (existsb (str_eqb x.1) fs)) d.
(** The exit code, and vendor/wheels afterwards. *)
Definition refresh (reqs : list requirement) (wheels : directory) : res (Z * directory) :=
  match walk refresh_requirement reqs [] with
  | Fails x => Raise x
  | Quit => Ok (1, wheels)
  | Go tmp =>
      let wheels := copy_new tmp wheels in
      '(missing, stale) ← problems wheels.*1 reqs;
      Ok (match missing with [] => 0 | _ => 1 end, remove_files stale wheels)
  end.
(** [--check] *)
Definition check (reqs : list requirement) (wheels : directory) : res Z :=
  '(missing, stale) ← problems wheels.*1 reqs;
  Ok (match missing, stale with [], [] => 0 | _, _ => 1 end).
End refresh.

(** *** The set is exactly what is needed *)
(** Some file serves a case. *)
Definition serves (f : pystr) (c : case) : Prop :=
  let '((name, version, marker), (python, system)) := c in pinned_wheel name version f = true ∧ wheel_fits f python system = Ok true.
Definition applies (c : case) : Prop := let '((_, _, marker), (python, system)) := c in marker_applies marker python system = Ok true.
Lemma filterr_spec {A} (f : A → res bool) l r : filterr f l = Ok r → (∀ a, a ∈ l → is_ok (f a) = true) ∧ ∀ a, a ∈ r ↔ a ∈ l ∧ f a = Ok true.
Proof.
  revert r. induction l as [|a l IH]; intros r; cbn [filterr]; [intros [= <-]; split; [by intros a ?%elem_of_nil|intros a; split; [by intros ?%elem_of_nil|by intros [?%elem_of_nil _]]]|].
  destruct (f a) as [b|x] eqn:Ef; [|done]. cbn [mbind res_bind]. destruct (filterr f l) as [r'|x] eqn:Er; [|done]. cbn [mbind res_bind]. intros [= <-].
  destruct (IH r' eq_refl) as [IH1 IH2]. split.
  - intros y [-> |Hy]%elem_of_cons; [by rewrite Ef|by apply IH1].
  - intros y. rewrite (elem_of_cons l). destruct b; rewrite ?elem_of_cons, IH2.
    + split; [intros [-> |[? ?]]; auto|intros [[-> |?] ?]; auto].
    + split; [intros [? ?]; auto|intros [[-> |?] ?]; [congruence|auto]].
Qed.
Lemma filterr_total {A} (f : A → res bool) l : (∀ a, a ∈ l → is_ok (f a) = true) → ∃ r, filterr f l = Ok r.
Proof.
  induction l as [|a l IH]; intros Hl; [by exists []|]. destruct IH as [r Er]; [intros y Hy; apply Hl; by right|].
  pose proof (Hl a ltac:(left)) as Ha. cbn [filterr]. destruct (f a) as [b|x]; [|done]. cbn. rewrite Er. by eexists.
Qed.
Lemma whl_elem f listing : f ∈ whl_files listing ↔ f ∈ listing ∧ ends_with f (str ".whl") = true.
Proof.
  unfold whl_files. by rewrite sort_by_perm, !list_elem_of_In, filter_In.
Qed.
Definition served_test (c : case) (f : pystr) : res bool :=
  let '((name, version, _), (python, system)) := c in if pinned_wheel name version f then wheel_fits f python system else Ok false.
Definition case_applies (c : case) : res bool := let '((_, _, marker), (python, system)) := c in marker_applies marker python system.
Lemma served_by_eq files c :
  served_by files c = (applies ← case_applies c; if negb applies then Ok None else Some <$> filterr (served_test c) files).
Proof.
  destruct c as [[[name version] marker] [python system]]. cbn. by destruct (marker_applies _ _ _) as [[]|].
Qed.
Lemma served_test_serves c f : served_test c f = Ok true ↔ serves f c.
Proof. destruct c as [[[name version] marker] [python system]]. cbn. destruct (pinned_wheel _ _ _); split; [by split|by intros [_ ?]|done|by intros [? _]]. Qed.
Lemma served_by_applies files c o : served_by files c = Ok o → (∃ fits, o = Some fits) ↔ applies c.
Proof.
  rewrite served_by_eq. assert (applies c ↔ case_applies c = Ok true) as -> by (by destruct c as [[[name version] marker] [python system]]).
  destruct (case_applies c) as [[]|]; cbn; [|intros [= <-]; split; [by intros [? ?]|done]|done].
  destruct (filterr _ files); intros [= <-]; split; eauto.
Qed.
Lemma served_by_fits files c fits f : served_by files c = Ok (Some fits) → f ∈ fits ↔ f ∈ files ∧ serves f c.
Proof.
  rewrite served_by_eq. destruct (case_applies c) as [[]|]; cbn; [|done..].
  destruct (filterr _ files) as [r|] eqn:E; [|done]. intros [= <-]. apply filterr_spec in E as [_ E]. by rewrite E, served_test_serves.
Qed.
(** Whether a file is of use to a requirement somewhere. *)
Definition of_use (reqs : list requirement) (f : pystr) : Prop := ∃ c, c ∈ cases reqs ∧ applies c ∧ serves f c.
(** What [problems] reports: a case is missing when its marker applies and no wheel serves it; a wheel is stale when it serves none. *)
Theorem problems_spec listing reqs missing stale :
  problems listing reqs = Ok (missing, stale) →
  (missing = [] ↔ ∀ c, c ∈ cases reqs → applies c → ∃ f, f ∈ whl_files listing ∧ serves f c)
  ∧ ∀ f, (f ∈ stale → f ∈ whl_files listing) ∧ (f ∈ whl_files listing → (f ∉ stale ↔ of_use reqs f)).
Proof.
  unfold problems. intros H. apply res_bind_Ok in H as (served & Hs & H). apply mapr_inv in Hs. injection H as <- <-. split.
  - assert (case_text <$> ((λ x : case * option (list pystr), x.1) <$> List.filter lacking (zip (cases reqs) served)) = [] ↔ List.filter lacking (zip (cases reqs) served) = []) as ->.
    { by destruct (List.filter _ _). }
    induction Hs as [|c o cs os Hc Hs IH]; [split; [by intros _ c ?%elem_of_nil|done]|].
    cbn [zip zip_with List.filter]. unfold lacking at 1. cbn [snd]. split.
    + intros Hf c' [-> |Hin]%elem_of_cons Ha; [|apply IH; [|done..]; by destruct o as [[]|]].
      apply (served_by_applies _ _ _ Hc) in Ha as [fits ->]. destruct fits as [|f fits]; [done|].
      exists f. apply (served_by_fits _ _ _ _ Hc). left.
    + intros Hall. assert (∀ c0, c0 ∈ cs → applies c0 → ∃ f, f ∈ whl_files listing ∧ serves f c0) as Hrest by (intros; apply Hall; [by right|done]).
      destruct o as [[|f fits]|]; [exfalso|by apply IH..].
      destruct (Hall c ltac:(left)) as (f & Hf & Hsv); [apply (served_by_applies _ _ _ Hc); eauto|].
      by apply (elem_of_nil f), (served_by_fits _ _ _ _ Hc).
  - intros f. rewrite list_elem_of_In, filter_In, <- list_elem_of_In, negb_true_iff.
    assert (existsb (str_eqb f) (served ≫= λ o, default [] o) = true ↔ of_use reqs f ∧ f ∈ whl_files listing) as Hu.
    { rewrite existsb_exists. transitivity (f ∈ served ≫= λ o : option (list pystr), default [] o).
      { split; [intros (y & Hy%list_elem_of_In & ->%str_eqb_eq); done|intros Hy%list_elem_of_In; exists f; split; [done|apply str_eqb_refl]]. }
      rewrite list_elem_of_bind. unfold of_use. split.
      - intros (o & Hf & Ho). destruct o as [fits|]; [|by apply elem_of_nil in Hf]. cbn in Hf.
        apply (list_elem_of_lookup_1 _ _) in Ho as [i Hi]. destruct (Forall2_lookup_r _ _ _ _ _ Hs Hi) as (c & Hc & Ec).
        pose proof (proj1 (served_by_fits _ _ _ f Ec) Hf) as [Hw Hsv]. split; [|done]. exists c. split; [by eapply list_elem_of_lookup_2|].
        split; [apply (served_by_applies _ _ _ Ec); eauto|done].
      - intros [(c & Hc & Ha & Hsv) Hw]. apply (list_elem_of_lookup_1 _ _) in Hc as [i Hi]. destruct (Forall2_lookup_l _ _ _ _ _ Hs Hi) as (o & Ho & Eo).
        pose proof (proj2 (served_by_applies _ _ _ Eo) Ha) as [fits ->]. exists (Some fits). split; [cbn; by apply (served_by_fits _ _ _ _ Eo)|by eapply list_elem_of_lookup_2]. }
    split; [by intros [? _]|]. intros Hw. destruct (existsb _ _) eqn:E.
    + split; [intros _; by apply Hu|by intros _ [_ ?]].
    + split; [intros Hn; by destruct Hn|]. intros Ho. assert (false = true) as ?; [by apply Hu|done].
Qed.
(** Without the stale wheels the same cases are missing and nothing is stale. *)
Lemma served_without files files' c o :
  (∀ f, f ∈ files' → f ∈ files) → (∀ f, f ∈ files → applies c → serves f c → f ∈ files') → served_by files c = Ok o →
  ∃ o', served_by files' c = Ok o' ∧ lacking (c, o') = lacking (c, o).
Proof.
  intros Hsub Hkeep Ho. pose proof (served_by_applies _ _ _ Ho) as Ha. pose proof Ho as Ho'. rewrite served_by_eq in Ho' |- *.
  destruct (case_applies c) as [[]|]; cbn [mbind res_bind negb] in Ho' |- *; [|injection Ho' as <-; by exists None|done].
  destruct (filterr (served_test c) files) as [r|] eqn:Er; [|done]. injection Ho' as <-. pose proof Er as Er0. apply filterr_spec in Er as [Hok Hr].
  destruct (filterr_total (served_test c) files') as [r' Er']; [intros f Hf; by apply Hok, Hsub|]. rewrite Er'. exists (Some r'). split; [done|].
  apply filterr_spec in Er' as [_ Hr']. unfold lacking. cbn [snd]. destruct r as [|f r], r' as [|f' r']; try done; exfalso.
  - apply (elem_of_nil f'), Hr. destruct (proj1 (Hr' f') ltac:(left)) as [H1 H2]. split; [by apply Hsub|done].
  - apply (elem_of_nil f), Hr'. destruct (proj1 (Hr f) ltac:(left)) as [H1 H2]. split; [|done]. apply Hkeep; [done|apply Ha; eauto|by apply served_test_serves].
Qed.
Lemma problems_pruned listing reqs missing stale :
  problems listing reqs = Ok (missing, stale) →
  problems (List.filter (λ f, negb (existsb (str_eqb f) stale)) listing) reqs = Ok (missing, []).
Proof.
  intros H. pose proof (problems_spec _ _ _ _ H) as [_ Hst]. set (listing' := List.filter _ listing).
  assert (∀ f, f ∈ whl_files listing' ↔ f ∈ whl_files listing ∧ f ∉ stale) as Hl.
  { intros f. rewrite !whl_elem. unfold listing'. rewrite list_elem_of_In, filter_In, <- list_elem_of_In, negb_true_iff.
    assert (existsb (str_eqb f) stale = false ↔ f ∉ stale) as ->; [|tauto]. rewrite <- not_true_iff_false, existsb_exists. apply not_iff_compat.
    split; [intros (y & Hy%list_elem_of_In & ->%str_eqb_eq); done|intros Hy%list_elem_of_In; exists f; split; [done|apply str_eqb_refl]]. }
  assert (∃ missing' stale', problems listing' reqs = Ok (missing', stale') ∧ missing' = missing) as (missing' & stale' & E & ->).
  - pose proof H as H'. unfold problems in H'. apply res_bind_Ok in H' as (served & Hs & H'). injection H' as <- _.
    assert (∃ served', mapr (served_by (whl_files listing')) (cases reqs) = Ok served'
              ∧ ((λ x : case * option (list pystr), x.1) <$> List.filter lacking (zip (cases reqs) served'))
                = ((λ x : case * option (list pystr), x.1) <$> List.filter lacking (zip (cases reqs) served))) as (served' & Es & Em).
    + assert (∀ c, c ∈ cases reqs → ∀ f, f ∈ whl_files listing → applies c → serves f c → f ∈ whl_files listing') as Hkeep.
      { intros c Hc f Hf Ha Hsv. apply Hl. split; [done|]. apply Hst; [done|by exists c]. }
      assert (∀ f, f ∈ whl_files listing' → f ∈ whl_files listing) as Hsub by (intros f Hf; by apply Hl in Hf as [? _]).
      apply mapr_inv in Hs. revert Hs Hkeep. generalize (cases reqs). clear -Hsub. intros cs Hs. induction Hs as [|c o cs os Hc _ IH]; intros Hkeep; [by exists []|].
      destruct IH as (os' & Es & Em); [intros d Hd; apply Hkeep; by right|].
      destruct (served_without _ _ c o Hsub (Hkeep c ltac:(left)) Hc) as (o' & Eo & El).
      exists (o' :: os'). cbn [mapr]. rewrite Eo. cbn [mbind res_bind]. rewrite Es. split; [done|]. cbn [zip zip_with List.filter]. rewrite El.
      by destruct (lacking (c, o)); cbn; rewrite Em.
    + unfold problems. rewrite Es. cbn [mbind res_bind]. eexists _, _. split; [reflexivity|]. by rewrite Em.
  - rewrite E. f_equal. f_equal. destruct (problems_spec _ _ _ _ E) as [_ Hst']. destruct stale' as [|f stale']; [done|exfalso].
    destruct (Hst' f) as [Hw Hu]. specialize (Hw ltac:(left)). apply (proj2 (Hu Hw)); [|left]. apply Hl in Hw as [Hw Hn]. by apply (Hst f).
Qed.
Lemma remove_names fs d : (remove_files fs d).*1 = List.filter (λ f, negb (existsb (str_eqb f) fs)) d.*1.
Proof. induction d as [|x d IH]; [done|]. unfold remove_files in *. cbn. destruct (existsb _ _); cbn; by rewrite IH. Qed.
(** C29: the offline set is what requirements.txt asks for. When the refresh answers 0, every pinned requirement has a wheel of its version
    for each Python and system its marker applies to, and every wheel of the directory serves one; [--check] then
    answers 0 too. Otherwise it answers 1: the directory is as it was, or it lacks exactly the cases reported and nothing in it is
    stale. Whatever pip does, files that are not wheels stay. *)
Theorem refresh_exact sha256 pip reqs wheels code wheels' :
  refresh sha256 pip reqs wheels = Ok (code, wheels') →
  (∀ f, f ∈ wheels.*1 → ends_with f (str ".whl") = false → f ∈ wheels'.*1)
  ∧ (code = 1 ∧ wheels' = wheels
     ∨ ∃ missing, problems wheels'.*1 reqs = Ok (missing, []) ∧ (code = 0 ∧ missing = [] ∨ code = 1 ∧ missing ≠ [])
         ∧ (code = 0 → check reqs wheels' = Ok 0
              ∧ (∀ c, c ∈ cases reqs → applies c → ∃ f, f ∈ wheels'.*1 ∧ serves f c)
              ∧ ∀ f, f ∈ wheels'.*1 → ends_with f (str ".whl") = true → of_use reqs f)).
Proof.
  unfold refresh. destruct (walk _ reqs []) as [tmp| |x]; [|intros [= <- <-]; split; [done|by left]|done].
  intros H. apply res_bind_Ok in H as ([missing stale] & Hp & H). injection H as Hcode <-. pose proof (problems_spec _ _ _ _ Hp) as [_ Hst].
  apply problems_pruned in Hp. rewrite <- remove_names in Hp. split.
  - intros f Hf Hw. rewrite remove_names, list_elem_of_In, filter_In, <- list_elem_of_In, negb_true_iff. split.
    + unfold copy_new. rewrite fmap_app. apply elem_of_app. by left.
    + apply not_true_iff_false. intros (y & Hy%list_elem_of_In & ->%str_eqb_eq)%existsb_exists. apply Hst, whl_elem in Hy as [_ Hy]. congruence.
  - right. exists missing. split; [done|]. split; [destruct missing; [by left|by right]|]. intros ->. destruct missing; [|done].
    destruct (problems_spec _ _ _ _ Hp) as [Hm Hs]. split_and!.
    + unfold check. by rewrite Hp.
    + intros c Hc Ha. destruct (proj1 Hm eq_refl c Hc Ha) as (f & [Hf _]%whl_elem & Hsv). by exists f.
    + intros f Hf Hw. apply (Hs f); [by apply whl_elem|by intros ?%elem_of_nil].
Qed.
Definition demo_reqs : list requirement := [(str "pyserial", str "3.5", []); (str "taskgroup", str "0.2.2", str "python_version < " ++ [34] ++ str "3.11" ++ [34])].
Definition demo_archive : archive := [(str "p/a.py", [1; 2]); (str "p/_c.so", [3]); (str "p-1.dist-info/WHEEL", [4]); (str "p-1.dist-info/RECORD", [5])].
Definition demo_pip (c : download) (d : directory) : bool * directory :=
  (true, dict_set (if starts_with (dl_req c) (str "pyserial") then str "pyserial-3.5-py2.py3-none-any.whl" else str "taskgroup-0.2.2-py2.py3-none-any.whl") demo_archive d).
Definition demo_wheels : directory := [(str "README", []); (str "pyserial-3.4-py2.py3-none-any.whl", demo_archive)].
Definition demo_refreshed : directory := match refresh (λ b, b) demo_pip demo_reqs demo_wheels with Ok (_, w) => w | Raise _ => [] end.
Lemma refresh_exact_witness :
  demo_refreshed.*1 = str <$> ["README"; "pyserial-3.5-py2.py3-none-any.whl"; "taskgroup-0.2.2-py2.py3-none-any.whl"]%string
  ∧ (∀ f, f ∈ demo_wheels.*1 → ends_with f (str ".whl") = false → f ∈ demo_refreshed.*1)
  ∧ (0 = 1 ∧ demo_refreshed = demo_wheels
     ∨ ∃ missing, problems demo_refreshed.*1 demo_reqs = Ok (missing, []) ∧ (0 = 0 ∧ missing = [] ∨ 0 = 1 ∧ missing ≠ [])
         ∧ (0 = 0 → check demo_reqs demo_refreshed = Ok 0
              ∧ (∀ c, c ∈ cases demo_reqs → applies c → ∃ f, f ∈ demo_refreshed.*1 ∧ serves f c)
              ∧ ∀ f, f ∈ demo_refreshed.*1 → ends_with f (str ".whl") = true → of_use demo_reqs f)).
Proof.
  split; [vm_compute; reflexivity|]. apply (refresh_exact (λ b, b) demo_pip demo_reqs demo_wheels 0 demo_refreshed). vm_compute. reflexivity.
Defined.
(** The fallback: pip has only the wheel for one Python, so it is repacked without its compiled part. *)
Definition one_wheel (c : download) (d : directory) : bool * directory :=
  if String.eqb (dl_implementation c) "cp" then (true, dict_set (str "p-1-cp311-cp311-manylinux2014_x86_64.win_amd64.whl") demo_archive (dict_set (str "p-1-cp312-cp312-manylinux2014_x86_64.win_amd64.whl") demo_archive d))
  else (false, d).
Example repacked :
  match refresh (λ b, take 1 b) one_wheel [(str "p", str "1", [])] [] with
  | Ok (code, w) => code = 0 ∧ (fmap (M:=list) fst <$> assoc (str "p-1-py3-none-any.whl") w) = Some (str <$> ["p/a.py"; "p-1.dist-info/WHEEL"; "p-1.dist-info/RECORD"]%string)
  | Raise _ => False
  end.
Proof. vm_compute. done. Qed.
(** A marker of another form is an error, unless an earlier clause already does not hold. *)
Example markers :
  let python op v := str "python_version " ++ str op ++ str " " ++ 34 :: str v ++ [34] in
  marker_applies (python "<"%string "3.9"%string) (str "3.10") (str "Linux") = Ok false
  ∧ marker_applies (python ">="%string "3.11"%string ++ str " and extra == x") (str "3.10") (str "Linux") = Ok false
  ∧ is_ok (marker_applies (python ">="%string "3.10"%string ++ str " and extra == x") (str "3.10") (str "Linux")) = false.
Proof. vm_compute. done. Qed.

(** ** The inventory of an executable *)
Lemma is_sep_lower c : is_sep (lower_char c) = is_sep c.
Proof.
  unfold lower_char, is_sep, in_range. change (str "-_.") with [45; 95; 46]. cbn [existsb].
  destruct (Z.leb_spec 65 c), (Z.leb_spec c 90), (Z.eqb_spec c 8490); cbn [andb]; try done; try lia;
    rewrite ?(proj2 (Z.eqb_neq _ _)) by lia; done.
Qed.
Lemma runs_to_lower ir s : runs_to [45] ir (lower s) = lower (runs_to [45] ir s).
Proof.
  revert ir. induction s as [|c s IH]; intros ir; [done|]. cbn [lower fmap list_fmap runs_to]. fold (lower s). rewrite is_sep_lower.
  destruct (is_sep c), ir; cbn [app]; rewrite IH; done.
Qed.
Lemma runs_to_twice ir s : runs_to [45] ir (runs_to [45] ir s) = runs_to [45] ir s.
Proof.
  revert ir. induction s as [|c s IH]; intros ir; [done|]. cbn [runs_to]. destruct (is_sep c) eqn:E.
  - destruct ir; cbn [app]; [apply IH|]. cbn. by rewrite IH.
  - cbn [runs_to]. by rewrite E, IH.
Qed.
Lemma lower_twice s : lower (lower s) = lower s.
Proof.
  unfold lower. rewrite <- list_fmap_compose. apply list_fmap_ext. intros i c _. unfold compose, lower_char, in_range.
  repeat case_match; lia.
Qed.
Lemma canonical_twice n : canonical (canonical n) = canonical n.
Proof. unfold canonical. change (str "-") with [45]. by rewrite runs_to_lower, runs_to_twice, lower_twice. Qed.
(** A distribution as [importlib.metadata] reads it: what its metadata says, the names it requires in this interpreter (its
    requirements whose markers hold without extras, as [packaging] evaluates them), and its files, with the text of those that can be
    read. [installed] is what the interpreter finds, by canonical name. *)
Record distribution := mkDist {
  di_name : pystr; di_version : pystr; di_requires : list pystr;
  di_expression : option pystr; di_classifiers : list pystr; di_license : option pystr; di_files : list (pystr * option pystr);
}.
(** How a command ends: with a result, or with a message and a failing exit code. *)
Inductive exit (A : Type) := Done (a : A) | SystemExit (msg : pystr).
Arguments Done {A} _.
Arguments SystemExit {A} _.
Definition then_ {A B} (x : exit A) (k : A → exit B) : exit B := match x with Done a => k a | SystemExit m => SystemExit m end.
(** [top_level_names()] over the lines of the requirement files; [evaluate] is what [packaging] says of a marker. *)
Definition spec_end (c : Z) : bool := existsb (Z.eqb c) (str "=<>!~ [").
Fixpoint until (p : Z → bool) (s : pystr) : pystr := match s with c :: s' => if p c then [] else c :: until p s' | [] => [] end.
Fixpoint top_level_names (evaluate : pystr → res bool) (lines : list pystr) : res (list pystr) :=
  match lines with
  | [] => Ok []
  | raw :: lines' =>
      let line := strip (head_of (split_on 35 raw)) in
      if is_empty line then top_level_names evaluate lines'
      else
        let '(spec, marker) := cut (str ";") line in
        let marker := strip (default [] marker) in
        use ← (if is_empty marker then Ok true else evaluate marker);
        rest ← top_level_names evaluate lines';
        Ok (if (use : bool) then until spec_end (strip spec) :: rest else rest)
  end.
Section inventory.
Context (installed : list (pystr * distribution)) (set_order : list pystr → list pystr).
(** The loop: [todo.pop()] takes the last name; [fuel] bounds it. *)
Fixpoint collect (fuel : nat) (strict : bool) (top todo : list pystr) (seen : list (pystr * distribution)) : option (exit (list (pystr * distribution))) :=
  match fuel with
  | O => None
  | S fuel' =>
      match last todo with
      | None => Some (Done seen)
      | Some n =>
          let name := canonical n in let todo := removelast todo in
          match assoc name seen with
          | Some _ => collect fuel' strict top todo seen
          | None =>
              match assoc name installed with
              | None => if strict && existsb (str_eqb name) top then Some (SystemExit (name ++ str " is pinned in the requirement files but not installed"))
                        else collect fuel' strict top todo seen
              | Some dist => collect fuel' strict top (todo ++ di_requires dist) (seen ++ [(name, dist)])
              end
          end
      end
  end.
Definition all_requires (l : list (pystr * distribution)) : nat := sum_list_with (λ x, length (di_requires x.2)) l.
Definition by_name (a b : distribution) : bool := str_leb (canonical (di_name a)) (canonical (di_name b)).
(** [set_order] is the order in which a set gives its elements. *)
Definition runtime_distributions (strict : bool) (names : list pystr) : option (exit (list distribution)) :=
  let top := set_order (canonical <$> names) in
  r ← collect (S (length top + all_requires installed)) strict top top [];
  Some (then_ r (λ seen, Done (sort_by by_name seen.*2))).

(** What an executable with these packages imports: they, and what those that are installed require. *)
Inductive needed (names : list pystr) : pystr → Prop :=
  | needed_top n : n ∈ names → needed names (canonical n)
  | needed_required n d r : needed names n → assoc n installed = Some d → r ∈ di_requires d → needed names (canonical r).
(** What the loop still may add: the requirements of what is installed and not yet seen. *)
Definition unseen (seen : list (pystr * distribution)) : list (pystr * distribution) := List.filter (λ x, bool_decide (assoc x.1 seen = None)) installed.
Lemma assoc_snoc {A} k k' (v : A) l : assoc k (l ++ [(k', v)]) = match assoc k l with Some x => Some x | None => if str_eqb k k' then Some v else None end.
Proof. induction l as [|[k1 v1] l IH]; cbn; [by destruct (str_eqb k k')|]. destruct (str_eqb k k1); [done|]. apply IH. Qed.
Lemma unseen_add seen name dist :
  assoc name seen = None → assoc name installed = Some dist →
  (all_requires (unseen (seen ++ [(name, dist)])) + length (di_requires dist) ≤ all_requires (unseen seen))%nat.
Proof.
  intros Hs. unfold unseen, all_requires.
  assert (∀ l, (sum_list_with (λ x, length (di_requires x.2)) (List.filter (λ x, bool_decide (assoc x.1 (seen ++ [(name, dist)]) = None)) l)
                ≤ sum_list_with (λ x, length (di_requires x.2)) (List.filter (λ x, bool_decide (assoc x.1 seen = None)) l))%nat) as Hle.
  { induction l as [|[k d] l IH]; [done|]. cbn [List.filter fst]. rewrite assoc_snoc. destruct (assoc k seen); cbn; [done|].
    destruct (str_eqb k name); cbn; lia. }
  induction installed as [|[k d] l IH]; [done|]. cbn [assoc List.filter fst]. rewrite assoc_snoc. destruct (str_eqb name k) eqn:E.
  - intros [= ->]. apply str_eqb_eq in E as <-. rewrite Hs, str_eqb_refl. cbn. specialize (Hle l). lia.
  - intros Hd. specialize (IH Hd). destruct (assoc k seen); cbn; [done|]. destruct (str_eqb k name); cbn; lia.
Qed.
Lemma removelast_length {A} (l : list A) x : last l = Some x → length l = S (length (removelast l)).
Proof.
  intros H. destruct l as [|y l]; [done|]. rewrite (app_removelast_last y (l := y :: l)) at 1 by done. rewrite length_app. cbn. lia.
Qed.
Lemma collect_ends fuel strict top todo seen :
  (length todo + all_requires (unseen seen) < fuel)%nat → is_Some (collect fuel strict top todo seen).
Proof.
  revert todo seen. induction fuel as [|fuel IH]; intros todo seen Hf; [lia|]. cbn [collect].
  destruct (last todo) as [n|] eqn:El; [|by eexists]. apply removelast_length in El. destruct (assoc _ seen) eqn:Es; [apply IH; lia|].
  destruct (assoc _ installed) as [d|] eqn:Ei; [|destruct (strict && _); [by eexists|apply IH; lia]].
  apply IH. pose proof (unseen_add _ _ _ Es Ei). rewrite length_app. lia.
Qed.
Lemma assoc_absent {A} k (l : list (pystr * A)) : assoc k l = None → k ∉ l.*1.
Proof.
  induction l as [|[k' v] l IH]; cbn; [by intros _ ?%elem_of_nil|]. destruct (str_eqb k k') eqn:E; [done|]. apply str_eqb_neq in E.
  intros H [-> |Hk]%elem_of_cons; [done|by apply IH].
Qed.
(** What holds before each turn of the loop. *)
Definition reached (todo : list pystr) (seen : list (pystr * distribution)) (k : pystr) : Prop := k ∈ canonical <$> todo ∨ k ∈ seen.*1.
Record sound (strict : bool) (names todo : list pystr) (seen : list (pystr * distribution)) : Prop := {
  seen_needed k d : (k, d) ∈ seen → needed names k ∧ assoc k installed = Some d;
  seen_once : NoDup seen.*1;
  todo_needed n : n ∈ todo → needed names (canonical n);
  names_reached n : n ∈ names → reached todo seen (canonical n) ∨ (strict = false ∧ assoc (canonical n) installed = None);
  requires_reached k d r : (k, d) ∈ seen → r ∈ di_requires d → reached todo seen (canonical r) ∨ assoc (canonical r) installed = None;
}.
Lemma last_elem {A} (l : list A) x : last l = Some x → ∀ y, y ∈ l ↔ y ∈ removelast l ∨ y = x.
Proof.
  intros H y. destruct l as [|z l]; [done|]. assert (z :: l ≠ []) as Hn by done. pose proof (app_removelast_last z Hn) as E.
  assert (List.last (z :: l) z = x) as Hx. { rewrite E, last_snoc in H. by injection H. }
  rewrite E at 1. rewrite elem_of_app, list_elem_of_singleton, Hx. done.
Qed.
Lemma reached_pop todo seen n k : last todo = Some n → reached todo seen k → reached (removelast todo) seen k ∨ k = canonical n.
Proof.
  intros El [Hk|Hk]; [|by left; right]. apply list_elem_of_fmap in Hk as (y & -> & Hy). apply (last_elem _ _ El) in Hy as [Hy| ->]; [|by right].
  left. left. by apply list_elem_of_fmap_2.
Qed.
Lemma collect_sound fuel strict names top todo seen r :
  (∀ k, k ∈ top ↔ k ∈ canonical <$> names) → sound strict names todo seen → collect fuel strict top todo seen = Some r →
  match r with
  | Done seen' => sound strict names [] seen'
  | SystemExit m => strict = true ∧ ∃ n, n ∈ names ∧ assoc (canonical n) installed = None ∧ m = canonical n ++ str " is pinned in the requirement files but not installed"
  end.
Proof.
  intros Htop. revert todo seen. induction fuel as [|fuel IH]; intros todo seen Hs; [done|]. cbn [collect].
  destruct (last todo) as [n|] eqn:El; [|intros [= <-]; by apply last_None in El as ->].
  pose proof (last_elem _ _ El) as Hel. pose proof (reached_pop todo seen n) as Hpop. specialize (λ k, Hpop k El).
  destruct (assoc (canonical n) seen) as [d|] eqn:Es.
  { apply IH. assert (canonical n ∈ seen.*1) as Hin by (apply (list_elem_of_fmap_2' fst _ (canonical n, d)); [by apply assoc_in|done]). destruct Hs as [h1 h2 h3 h4 h5]. split; [done|done| | |].
    - intros m Hm. apply h3, Hel. by left.
    - intros m Hm. destruct (h4 m Hm) as [Hr|?]; [|by right]. left. destruct (Hpop _ Hr) as [?| ->]; [done|by right].
    - intros k e q Hk Hq. destruct (h5 k e q Hk Hq) as [Hr|?]; [|by right]. left. destruct (Hpop _ Hr) as [?| ->]; [done|by right]. }
  destruct (assoc (canonical n) installed) as [d|] eqn:Ei.
  - apply IH. destruct Hs as [h1 h2 h3 h4 h5].
    assert (∀ k, reached todo seen k → reached (removelast todo ++ di_requires d) (seen ++ [(canonical n, d)]) k) as Hmove.
    { intros k Hk. destruct (Hpop _ Hk) as [[?|?]| ->]; [left|right|right].
      - rewrite fmap_app, elem_of_app. by left.
      - rewrite fmap_app, elem_of_app. by left.
      - rewrite fmap_app, elem_of_app. right. by left. }
    split.
    + intros k e [Hk|[= -> ->]%list_elem_of_singleton]%elem_of_app; [by apply h1|]. split; [apply h3, Hel; by right|done].
    + rewrite fmap_app. apply NoDup_app. split_and!; [done| |apply NoDup_singleton].
      intros k Hk ->%list_elem_of_singleton. by apply (assoc_absent _ _ Es).
    + intros m [Hm|Hm]%elem_of_app; [apply h3, Hel; by left|]. apply (needed_required _ (canonical n) d); [apply h3, Hel; by right|done..].
    + intros m Hm. destruct (h4 m Hm) as [Hr|?]; [|by right]. left. by apply Hmove.
    + intros k e q [Hk|[= -> ->]%list_elem_of_singleton]%elem_of_app Hq.
      * destruct (h5 k e q Hk Hq) as [Hr|?]; [|by right]. left. by apply Hmove.
      * left. left. apply list_elem_of_fmap_2, elem_of_app. by right.
  - destruct (strict && existsb (str_eqb (canonical n)) top) eqn:Eb.
    + intros [= <-]. apply andb_true_iff in Eb as [-> (k & Hk%list_elem_of_In & <-%str_eqb_eq)%existsb_exists]. split; [done|].
      apply Htop, list_elem_of_fmap in Hk as (m & Em & Hm). exists m. by rewrite <- Em.
    + apply IH. destruct Hs as [h1 h2 h3 h4 h5]. split; [done|done| | |].
      * intros m Hm. apply h3, Hel. by left.
      * intros m Hm. destruct (h4 m Hm) as [Hr|?]; [|by right]. destruct (Hpop _ Hr) as [?|Em]; [by left|]. right.
        split; [|by rewrite Em]. destruct strict; [|done]. cbn in Eb. apply not_true_iff_false in Eb. destruct Eb.
        apply existsb_exists. exists (canonical n). split; [|apply str_eqb_refl]. apply list_elem_of_In, Htop. rewrite <- Em. by apply list_elem_of_fmap_2.
      * intros k e q Hk Hq. destruct (h5 k e q Hk Hq) as [Hr|?]; [|by right]. destruct (Hpop _ Hr) as [?|Em]; [by left|]. right. by rewrite Em.
Qed.
(** The inventory ends, with what is needed and installed, each once and in the order of the names; a strict one (a release build) has
    every pinned package, and fails only when one is not installed. *)
Lemma inventory_found strict names :
  (∀ l k, k ∈ set_order l ↔ k ∈ l) →
  ∃ r, runtime_distributions strict names = Some r ∧
    match r with
    | Done ds =>
        Sorted (λ a b, by_name a b = true) ds
        ∧ (∃ keys, NoDup keys ∧ (∀ k, k ∈ keys ↔ needed names k ∧ is_Some (assoc k installed)) ∧ ds ≡ₚ omap (λ k, assoc k installed) keys)
        ∧ (strict = true → ∀ n, n ∈ names → is_Some (assoc (canonical n) installed))
    | SystemExit m => strict = true ∧ ∃ n, n ∈ names ∧ assoc (canonical n) installed = None ∧ m = canonical n ++ str " is pinned in the requirement files but not installed"
    end.
Proof.
  intros Ho. unfold runtime_distributions. set (top := set_order (canonical <$> names)).
  destruct (collect_ends (S (length top + all_requires installed)) strict top top []) as [r Er].
  { enough (unseen [] = installed) as -> by lia. unfold unseen. induction installed as [|x l IH]; [done|]. cbn in IH |- *. by rewrite IH. }
  rewrite Er. eexists. split; [reflexivity|].
  assert (sound strict names top []) as H0.
  { split; try done; try apply NoDup_nil_2.
    - by intros ? ? ?%elem_of_nil.
    - intros n Hn. apply Ho, list_elem_of_fmap in Hn as (m & -> & Hm). rewrite canonical_twice. by constructor.
    - intros n Hn. left. left. rewrite <- canonical_twice. apply list_elem_of_fmap_2, Ho, list_elem_of_fmap_2, Hn.
    - by intros ? ? ? ?%elem_of_nil. }
  pose proof (collect_sound _ strict names top top [] r (λ k, Ho _ k) H0 Er) as H. destruct r as [seen|m]; [cbn [then_]|done].
  destruct H as [h1 h2 _ h4 h5]. split_and!.
  - apply sort_by_sorted. intros x y. unfold by_name, str_leb. rewrite (str_compare_antisym (canonical (di_name x))). by destruct (str_compare _ _); [left|left|right]; cbn; auto.
  - exists seen.*1. split; [done|]. split.
    + intros k. split.
      * intros ([k' d] & -> & Hk)%list_elem_of_fmap. destruct (h1 _ _ Hk) as [? E]. cbn. split; [done|]. rewrite E. by eexists.
      * intros [Hn Hi]. induction Hn as [n Hn|n d r Hn IH Hd Hr].
        -- destruct (h4 n Hn) as [[Hr|Hr]|[_ E]]; [by apply elem_of_nil in Hr|done|rewrite E in Hi; by destruct Hi].
        -- assert (n ∈ seen.*1) as ([n' d'] & -> & Hm)%list_elem_of_fmap by (apply IH; by eexists).
           cbn in Hd. assert (d' = d) as -> by (destruct (h1 _ _ Hm); congruence).
           destruct (h5 _ _ r Hm Hr) as [[Hq|Hq]|E]; [by apply elem_of_nil in Hq|done|rewrite E in Hi; by destruct Hi].
    + rewrite sort_by_perm. clear h2 h4 h5 Er H0. induction seen as [|[k d] seen IH]; [done|]. cbn.
      rewrite (proj2 (h1 k d ltac:(left))). cbn. f_equiv. apply IH. intros k' d' Hk. apply h1. by right.
  - intros -> n Hn. destruct (h4 n Hn) as [[Hr|Hr]|[? _]]; [by apply elem_of_nil in Hr| |done].
    apply list_elem_of_fmap in Hr as ([k d] & -> & Hk). destruct (h1 _ _ Hk) as [_ E]. cbn. rewrite E. by eexists.
Qed.
End inventory.
(** ** The licence file and the software bill of materials *)
Definition BUILD_EMBEDDED : list (pystr * pystr) := [(str "pyinstaller", str "bootloader + runtime hooks"); (str "pyinstaller-hooks-contrib", str "runtime hooks")].
Definition nonempty (s : option pystr) : option pystr := match s with Some (_ :: _) => s | _ => None end.
Definition license_of (dist : distribution) : pystr :=
  match nonempty (di_expression dist) with
  | Some e => e
  | None =>
      match (λ c, strip (default [] (last (split_text (str "::") c)))) <$> List.filter (λ c, starts_with c (str "License ::")) (di_classifiers dist) with
      | (_ :: _) as l => join (str "; ") l
      | [] => match splitlines (strip (default [] (di_license dist))) with l :: _ => take 120 l | [] => str "see license text" end
      end
  end.
(** Matching without regard to case also takes the dotted and dotless i and the long s for the letters they resemble. *)
Definition fold_letter (c : Z) : Z := if existsb (Z.eqb c) [304; 305] then 105 else if c =? 383 then 115 else lower_char c.
Definition file_name (p : pystr) : pystr := default [] (last (split_on 47 p)).
Definition _LICENSE_FILE (p : pystr) : bool :=
  existsb (λ w, starts_with (fold_letter <$> file_name p) (str w)) ["license"; "licence"; "copying"; "notice"; "authors"]%string.
(** [fallback]: the text under tools/licenses for a canonical name, when there is one. *)
Definition license_texts (fallback : pystr → option pystr) (dist : distribution) : list (pystr * pystr) :=
  let one (f : pystr * option pystr) :=
    let p := replace_all [92] [47] f.1 in
    if negb (contains (str ".dist-info/") p) && negb (contains (str ".egg-info/") p) then None
    else if _LICENSE_FILE p then (λ t, (file_name p, t)) <$> f.2 else None in
  match omap one (di_files dist) with
  | [] => match fallback (canonical (di_name dist)) with Some t => [(str "LICENSE (from the project's source tree)", t)] | None => [] end
  | l => l
  end.
(** The first LICENSE.txt of the interpreter that exists. *)
Definition cpython_license (candidates : list (option pystr)) : exit pystr :=
  match omap (λ c, c) candidates with t :: _ => Done t | [] => SystemExit (str "CPython LICENSE.txt not found next to this interpreter") end.
Definition _section (title body : pystr) : pystr :=
  let bar := repeat 61 78 in bar ++ [10] ++ title ++ [10] ++ bar ++ [10; 10] ++ rstrip_by is_space body ++ [10; 10].
(** The build: the program's version, the platform, the interpreter and its TLS library, and the texts the licence file starts with. *)
Record build := mkBuild {
  bd_version : pystr; bd_system : pystr; bd_machine : pystr; bd_python : pystr; bd_openssl : pystr;
  bd_license : pystr; bd_cpython : list (option pystr);
}.
Definition dash : pystr := [32; 8212; 32].
Definition embedded (installed : list (pystr * distribution)) : list distribution := omap (λ x, assoc x.1 installed) BUILD_EMBEDDED.
Definition component_title (dist : distribution) : pystr :=
  di_name dist ++ [32] ++ di_version dist ++ dash ++ license_of dist
  ++ match assoc (canonical (di_name dist)) BUILD_EMBEDDED with Some role => str " (" ++ role ++ str ")" | None => [] end.
Definition component_body (texts : list (pystr * pystr)) : pystr := join [10; 10] ((λ x, str "--- " ++ x.1 ++ str " ---" ++ [10] ++ x.2) <$> texts).
Definition component_section (fallback : pystr → option pystr) (dist : distribution) : exit pystr :=
  match license_texts fallback dist with
  | [] => SystemExit (str "no license file in the " ++ di_name dist ++ [32] ++ di_version dist ++ str " distribution")
  | texts => Done (_section (component_title dist) (component_body texts))
  end.
Fixpoint mapx {A B} (f : A → exit B) (l : list A) : exit (list B) :=
  match l with [] => Done [] | a :: l' => then_ (f a) (λ b, then_ (mapx f l') (λ bs, Done (b :: bs))) end.
(** A directory of further texts: its files that end in ".txt", in the order of their names. *)
Definition extra_sections (dir : list (pystr * pystr)) : list pystr :=
  (λ x, _section (take (length x.1 - 4) x.1 ++ str " (native library in the interpreter)") x.2)
    <$> List.filter (λ x, ends_with x.1 (str ".txt")) (sort_by (λ a b, str_leb a.1 b.1) dir).
Definition preamble (b : build) : pystr :=
  str "Third-party licenses of the ser2net standalone executable" ++ [10]
  ++ str "ser2net " ++ bd_version b ++ str " for " ++ bd_system b ++ [32] ++ bd_machine b ++ str ", built with Python " ++ bd_python b ++ [10; 10]
  ++ str "ser2net itself is licensed under the GNU AGPL-3.0-only (full text below) or a" ++ [10]
  ++ str "separate commercial license (COMMERCIAL_LICENSE.md). The components below keep" ++ [10]
  ++ str "their own licenses. Source code: https://github.com/haliskilic/ser2net" ++ [10; 10].
(** What is written into the file; nothing is written when it ends with a message. *)
Definition write_licenses (installed : list (pystr * distribution)) (set_order : list pystr → list pystr) (fallback : pystr → option pystr)
    (b : build) (extra_dirs : list (list (pystr * pystr))) (strict : bool) (names : list pystr) : option (exit pystr) :=
  dists ← runtime_distributions installed set_order strict names;
  Some (then_ (cpython_license (bd_cpython b)) (λ cpython,
        then_ dists (λ dists,
        then_ (mapx (component_section fallback) (dists ++ embedded installed)) (λ sections,
        Done (concat ([preamble b; _section (str "ser2net " ++ bd_version b ++ dash ++ str "AGPL-3.0-only") (bd_license b);
                       _section (str "CPython " ++ bd_python b ++ dash ++ str "PSF-2.0 (bundled interpreter; " ++ bd_openssl b ++ str ")") cpython]
                      ++ sections ++ (extra_dirs ≫= extra_sections))))))).

(** [re.search(r"OpenSSL (\S+)", s)] *)
Fixpoint openssl_version (s : pystr) : option pystr :=
  match s with
  | [] => None
  | _ :: s' =>
      match (if is_prefix (str "OpenSSL ") s then until is_space (drop 8 s) else []) with
      | (_ :: _) as v => Some v
      | [] => openssl_version s'
      end
  end.
Definition text_field (k : string) (v : pystr) : pystr * pyval := (str k, VStr v).
(** A component of the list: type, bom-ref, name, version, purl, licenses, and a description. *)
Definition library (ref name version : pystr) (licenses : list (pystr * pyval)) (description : option pystr) : list (pystr * pyval) :=
  [text_field "type" (str "library"); text_field "bom-ref" ref; text_field "name" name; text_field "version" version; text_field "purl" ref;
   (str "licenses", VList [VDict licenses])] ++ match description with Some d => [text_field "description" d] | None => [] end.
Definition sbom_license (dist : distribution) : list (pystr * pyval) :=
  match nonempty (di_expression dist) with Some e => [text_field "expression" e] | None => [(str "license", VDict [text_field "name" (license_of dist)])] end.
Definition pypi (dist : distribution) : pystr := str "pkg:pypi/" ++ canonical (di_name dist) ++ str "@" ++ di_version dist.
Definition sbom_component (dist : distribution) : list (pystr * pyval) :=
  library (pypi dist) (canonical (di_name dist)) (di_version dist) (sbom_license dist)
    ((λ role, role ++ str " embedded in the executable") <$> assoc (canonical (di_name dist)) BUILD_EMBEDDED).
Definition sbom_components (b : build) (dists : list distribution) : list (list (pystr * pyval)) :=
  let cpython := str "pkg:generic/cpython@" ++ bd_python b in
  library cpython (str "cpython") (bd_python b) [text_field "expression" (str "PSF-2.0")] (Some (str "bundled Python interpreter and standard library"))
  :: match openssl_version (bd_openssl b) with
     | Some v => [library (str "pkg:generic/openssl@" ++ v) (str "openssl") v [text_field "expression" (str "Apache-2.0")] (Some (str "linked into the bundled interpreter"))]
     | None => []
     end
  ++ (sbom_component <$> dists).
Definition ref_of (c : list (pystr * pyval)) : pyval := default VNone (assoc (str "bom-ref") c).
(** [serial] and [now]: the random number and the time the document is stamped with. *)
Definition bom (b : build) (serial now : pystr) (components : list (list (pystr * pyval))) : pyval :=
  let root := str "pkg:github/haliskilic/ser2net@v" ++ bd_version b in
  VDict [text_field "bomFormat" (str "CycloneDX"); text_field "specVersion" (str "1.5"); text_field "serialNumber" (str "urn:uuid:" ++ serial); (str "version", VInt 1);
         (str "metadata", VDict [text_field "timestamp" now;
            (str "tools", VDict [(str "components", VList [VDict [text_field "type" (str "application"); text_field "name" (str "ser2net tools/third_party.py")]])]);
            (str "component", VDict [text_field "type" (str "application"); text_field "bom-ref" root; text_field "name" (str "ser2net"); text_field "version" (bd_version b);
               text_field "purl" root; (str "licenses", VList [VDict [text_field "expression" (str "AGPL-3.0-only")]]);
               text_field "description" (str "standalone executable for " ++ bd_system b ++ [32] ++ bd_machine b)])]);
         (str "components", VList (VDict <$> components));
         (str "dependencies", VList [VDict [text_field "ref" root; (str "dependsOn", VList (ref_of <$> components))]])].
Definition write_sbom (installed : list (pystr * distribution)) (set_order : list pystr → list pystr) (b : build) (serial now : pystr)
    (strict : bool) (names : list pystr) : option (exit pystr) :=
  dists ← runtime_distributions installed set_order strict names;
  Some (then_ dists (λ dists, Done (dumps (mkStyle true (Some 2%nat) false true) 0 (bom b serial now (sbom_components b (dists ++ embedded installed))) ++ [10]))).
(** The commands of tools/third_party.py. *)
Inductive command := CLicenses (extra : list (list (pystr * pystr))) (strict : bool) | CSbom (serial now : pystr) (strict : bool).
Definition strict_of (c : command) : bool := match c with CLicenses _ s | CSbom _ _ s => s end.
Definition third_party (installed : list (pystr * distribution)) (set_order : list pystr → list pystr) (fallback : pystr → option pystr) (b : build)
    (names : list pystr) (c : command) : option (exit pystr) :=
  match c with
  | CLicenses extra strict => write_licenses installed set_order fallback b extra strict names
  | CSbom serial now strict => write_sbom installed set_order b serial now strict names
  end.
Lemma mapx_Done {A B} (f : A → exit B) l bs : mapx f l = Done bs → Forall2 (λ a b, f a = Done b) l bs.
Proof.
  revert bs. induction l as [|a l IH]; intros bs; cbn [mapx]; [by intros [= <-]|].
  destruct (f a) eqn:E; cbn [then_]; [|done]. destruct (mapx f l); cbn [then_]; [|done]. intros [= <-]. constructor; [done|by apply IH].
Qed.
Lemma mapx_SystemExit {A B} (f : A → exit B) l m : mapx f l = SystemExit m → ∃ a, a ∈ l ∧ f a = SystemExit m.
Proof.
  induction l as [|a l IH]; cbn [mapx]; [done|]. destruct (f a) eqn:E; cbn [then_].
  - destruct (mapx f l); cbn [then_]; [done|]. intros [= ->]. destruct IH as (a' & ? & ?); [done|]. exists a'. split; [by right|done].
  - intros [= ->]. exists a. split; [by left|done].
Qed.
Lemma concat_elem (x : pystr) l : x ∈ l → ∃ before after, concat l = before ++ x ++ after.
Proof.
  induction l as [|y l IH]; [by intros ?%elem_of_nil|]. intros [-> |Hx]%elem_of_cons; [by exists [], (concat l)|].
  destruct (IH Hx) as (p & q & E). exists (y ++ p), q. cbn. by rewrite E, <- app_assoc.
Qed.
(** What goes into an executable: what it needs and is installed, and what PyInstaller embeds. *)
Definition bundled (installed : list (pystr * distribution)) (names : list pystr) (d : distribution) : Prop :=
  (∃ k, needed installed names k ∧ assoc k installed = Some d) ∨ d ∈ embedded installed.
(** That a command's text accounts for it. *)
Definition accounts_for (installed : list (pystr * distribution)) (fallback : pystr → option pystr) (b : build) (names : list pystr) (c : command) (text : pystr) : Prop :=
  match c with
  | CLicenses _ _ => ∀ d, bundled installed names d →
      license_texts fallback d ≠ [] ∧ ∃ before after, text = before ++ _section (component_title d) (component_body (license_texts fallback d)) ++ after
  | CSbom serial now _ => ∃ ds, text = dumps (mkStyle true (Some 2%nat) false true) 0 (bom b serial now (sbom_components b ds)) ++ [10] ∧ ∀ d, d ∈ ds ↔ bundled installed names d
  end.
Lemma bundled_found installed set_order strict names ds :
  (∀ l k, k ∈ set_order l ↔ k ∈ l) → runtime_distributions installed set_order strict names = Some (Done ds) →
  ∀ d, d ∈ ds ++ embedded installed ↔ bundled installed names d.
Proof.
  intros Ho H d. destruct (inventory_found installed set_order strict names Ho) as (r & E & Hr). rewrite H in E. injection E as <-.
  destruct Hr as (_ & (keys & _ & Hk & Hp) & _). unfold bundled. rewrite elem_of_app, Hp, list_elem_of_omap. apply or_iff_compat_r. split.
  - intros (k & Hin & E). exists k. split; [by apply Hk|done].
  - intros (k & Hn & E). exists k. split; [apply Hk; split; [done|rewrite E; by eexists]|done].
Qed.
(** C30: a release carries the licences of everything in it. Whatever the interpreter has installed, both commands of tools/third_party.py end. The
    licence file, once written, has a section with a licence text for every distribution the program imports, directly or not, and
    for what PyInstaller embeds; the bill of materials lists exactly these. Otherwise the
    command fails: for a pinned package that is not installed (strict, as a release is built), or, for the licences, when the
    interpreter's text is missing or a distribution of the executable comes without one. *)
Theorem executable_accounted installed set_order fallback b names c :
  (∀ l k, k ∈ set_order l ↔ k ∈ l) →
  ∃ r, third_party installed set_order fallback b names c = Some r ∧
    match r with
    | Done text => accounts_for installed fallback b names c text
        ∧ (strict_of c = true → ∀ n, n ∈ names → is_Some (assoc (canonical n) installed))
    | SystemExit _ =>
        (strict_of c = true ∧ ∃ n, n ∈ names ∧ assoc (canonical n) installed = None)
        ∨ ∃ extra strict, c = CLicenses extra strict
            ∧ ((∀ t, t ∈ bd_cpython b → t = None) ∨ ∃ d, bundled installed names d ∧ license_texts fallback d = [])
    end.
Proof.
  intros Ho. destruct (inventory_found installed set_order (strict_of c) names Ho) as (r & E & Hr).
  pose proof (λ ds H, bundled_found installed set_order (strict_of c) names ds Ho H) as Hb. rewrite E in Hb.
  destruct c as [extra strict|serial now strict]; cbn [third_party strict_of] in *; unfold write_licenses, write_sbom; rewrite E; cbn [mbind option_bind]; eexists; (split; [reflexivity|]).
  - unfold cpython_license. destruct (omap (λ c, c) (bd_cpython b)) as [|cp ts] eqn:Ec; cbn [then_].
    { right. exists extra, strict. split; [done|]. left. intros [t|] Ht; [|done]. exfalso. apply (elem_of_nil t). rewrite <- Ec. by apply list_elem_of_omap; eexists. }
    destruct r as [ds|m]; cbn [then_]; [|destruct Hr as (-> & n & Hn & Hi & _); left; split; [done|by exists n]]. specialize (Hb ds eq_refl).
    destruct (mapx _ _) as [ss|m] eqn:Em; cbn [then_].
    + split; [|apply Hr]. intros d Hd%Hb. apply mapx_Done in Em. apply (list_elem_of_lookup_1 _ _) in Hd as [i Hi].
      destruct (Forall2_lookup_l _ _ _ _ _ Em Hi) as (x & Hx & Ex). unfold component_section in Ex. destruct (license_texts fallback d) as [|t l] eqn:El; [done|]. injection Ex as <-.
      split; [done|]. apply concat_elem. rewrite !elem_of_app. right. left. by eapply list_elem_of_lookup_2.
    + right. exists extra, strict. split; [done|]. right. apply mapx_SystemExit in Em as (d & Hd & Ed). exists d. split; [by apply Hb|].
      unfold component_section in Ed. by destruct (license_texts fallback d).
  - destruct r as [ds|m]; cbn [then_]; [|destruct Hr as (-> & n & Hn & Hi & _); left; split; [done|by exists n]]. specialize (Hb ds eq_refl).
    split; [|apply Hr]. cbn. exists (ds ++ embedded installed). split; [done|apply Hb].
Qed.
Definition demo_dist (name : string) (requires : list string) (licenses : list string) : pystr * distribution :=
  (canonical (str name), mkDist (str name) (str "1.0") (str <$> requires) None [str "License :: OSI Approved :: MIT License"] None ((λ f, (str name ++ str "-1.0.dist-info/" ++ str f, Some (str "Text"))) <$> licenses)).
Definition demo_installed : list (pystr * distribution) :=
  [demo_dist "PyInstaller" [] ["COPYING.txt"]; demo_dist "Starlette" ["anyio"] ["licenses/LICENSE.md"]; demo_dist "anyio" ["Starlette"; "idna"] ["Licence"]; demo_dist "uvicorn" [] ["METADATA"]]%string.
Definition demo_build : build := mkBuild (str "1.0") (str "Linux") (str "x86_64") (str "3.12.1") (str "OpenSSL 3.0.13 30 Jan 2024") (str "AGPL") [None; Some (str "PSF")].
Lemma executable_accounted_witness :
  (∀ (l : list pystr) k, k ∈ remove_dups l ↔ k ∈ l)
  ∧ ∃ r, third_party demo_installed remove_dups (λ _, None) demo_build [str "starlette"] (CLicenses [] true) = Some r ∧
    match r with
    | Done text => accounts_for demo_installed (λ _, None) demo_build [str "starlette"] (CLicenses [] true) text
        ∧ (strict_of (CLicenses [] true) = true → ∀ n, n ∈ [str "starlette"] → is_Some (assoc (canonical n) demo_installed))
    | SystemExit _ =>
        (strict_of (CLicenses [] true) = true ∧ ∃ n, n ∈ [str "starlette"] ∧ assoc (canonical n) demo_installed = None)
        ∨ ∃ extra strict, CLicenses [] true = CLicenses extra strict
            ∧ ((∀ t, t ∈ bd_cpython demo_build → t = None) ∨ ∃ d, bundled demo_installed [str "starlette"] d ∧ license_texts (λ _, None) d = [])
    end.
Proof.
  assert (∀ (l : list pystr) k, k ∈ remove_dups l ↔ k ∈ l) as H by (intros l k; apply elem_of_remove_dups).
  split; [exact H|]. exact (executable_accounted demo_installed remove_dups (λ _, None) demo_build [str "starlette"] (CLicenses [] true) H).
Defined.
(** Two packages that require each other are each listed once; a requirement that is not installed is passed over, unless it is pinned in a
    release; a distribution without a licence text stops the licence file. *)
Example inventories :
  let runs names c := match third_party demo_installed remove_dups (λ _, None) demo_build (str <$> names) c with Some (SystemExit m) => Some m | _ => None end in
  (fmap (M:=option) (λ x : exit (list distribution), match x with Done l => di_name <$> l | SystemExit m => [m] end)
     (runtime_distributions demo_installed remove_dups true [str "Star_lette"; str "starlette"]))
    = Some [str "star-lette is pinned in the requirement files but not installed"]
  ∧ (fmap (M:=option) (λ x : exit (list distribution), match x with Done l => di_name <$> l | SystemExit m => [m] end)
     (runtime_distributions demo_installed remove_dups true [str "starlette"])) = Some [str "anyio"; str "Starlette"]
  ∧ runs ["starlette"]%string (CLicenses [] true) = None
  ∧ runs ["uvicorn"]%string (CLicenses [] true) = Some (str "no license file in the uvicorn 1.0 distribution")
  ∧ runs ["uvicorn"; "flask"]%string (CSbom [] [] true) = Some (str "flask is pinned in the requirement files but not installed")
  ∧ runs ["uvicorn"; "flask"]%string (CSbom [] [] false) = None.
Proof. vm_compute. done. Qed.
